(* ===== verification/_CoqProject ===== *)
-Q . S2P
Prelude.v
HwFenceTypes.v
HwFenceQueue.v
HwFenceTable.v
HwFenceRef.v
HwFenceClient.v
HwFenceSignal.v
HwFenceCallback.v
HwFenceFrame.v
HwFenceJoin.v
HwFenceLayout.v
HwFenceIpc.v
HwFenceSoccp.v
HwFenceApi.v
HwFenceSafe.v
SynxGlobal.v
SynxKeeps.v
SynxPending.v
SynxLife.v
SynxCheck.v
HwFenceInterop.v
HwFenceSession.v
SynxInterop.v
Ipclite.v
IpcliteRing.v
IpcliteInit.v
IpcliteRecover.v
IpcliteFaults.v
