(* ===== verification/Prelude.v ===== *)
(** * Hardware fences and synx objects: a verification library

    The repository is a tree of out-of-tree kernel modules for one phone.  This library
    verifies the two that synchronise its processors: the hardware-fence driver
    [qcom/opensource/mm-drivers/hw_fence], and of the synx driver
    [qcom/opensource/synx-kernel/msm/synx] the table of objects that all processors
    share, [synx_global.c], and the messages between them, [ipclite.c] (paths below
    [src/]).

    ** The program

    A hardware fence is an entry of an open-addressing hash table in memory shared
    with a fence controller, a processor of its own.  Clients create fences, wait for
    them, and signal them through Tx queues that the controller reads; the driver
    wakes waiting clients through their Rx queues, interrupts and callbacks.  A fence
    can stand for a kernel dma-fence, or join several others.  The driver also boots
    the controller, votes for its power, reads its messages and cleans up when it
    restarts.  A synx object is an entry of a second table, shared by all processors and
    guarded by one hardware spinlock; composite objects wait for their children, and a
    signal travels from a child up to its parents.  A processor that waits for an object
    is told by a message through ipclite: for every pair of processors two rings in shared
    memory, with a mailbox interrupt.

    The two meet in three ways: a client of the synx API may work on hardware fences
    through a session; importing a dma-fence that a synx object signals makes a hardware
    fence and tells the object its handle; and a synx object registers at the hardware
    fence of its dma-fence.

    ** The files

    - [Prelude] (this file): records with update notation, lists indexed by integers
      as C indexes arrays ([zget], [zset]), machine words, and a state monad [M] whose
      outcomes are [Done] or a fault: a bad access, a lock that is never released, or no
      fuel.  [wp m Q s]: from [s], [m] returns without a fault, with [Q].  So every [wp]
      theorem says that the code terminates.  [safe_in ok R pre m post] adds what holds
      of every state and of every step, with the rules of a program logic.
    - [HwFenceTypes]: constants, structures, driver state, environment, events.
    - [HwFenceQueue] (one queue), [HwFenceTable] (hash table, locks, reference words),
      [HwFenceRef] (handles, the table of internal dma-fences), [HwFenceClient]
      (notifying a client), [HwFenceSignal] (signaling, join fences), [HwFenceCallback]
      (dma-fence callbacks, search, cleanups), [HwFenceFrame] (what operations leave
      alone), [HwFenceJoin] (waiting, fence arrays): [src/hw_fence_drv_priv.c] and
      [include/hw_fence_drv_fence.h].
    - [HwFenceLayout] and [HwFenceSoccp]: [src/hw_fence_drv_utils.c], the layout of the
      shared memory and the numbering of clients; controller messages, power votes
      and restarts.
    - [HwFenceIpc]: [src/hw_fence_drv_ipc.c], identities and signals at the interrupt
      controller.
    - [HwFenceApi]: [src/msm_hw_fence.c], the interface of the clients; [HwFenceSafe]: its
      calls one after the other.
    - [SynxGlobal]: [synx_global.c] with what it uses of [synx_util.c] and [ipclite.c];
      [SynxKeeps], [SynxPending], [SynxLife]: its theorems; [SynxCheck]: concrete tables.
    - [HwFenceInterop]: [src/hw_fence_drv_interop.c], with the synx driver as an interface,
      the class [Peer] and its laws; [HwFenceSession]:
      [src/msm_hw_fence_synx_translation.c], sessions of the synx API over any such peer;
      [SynxInterop]: the synx driver ([synx.c], [synx_util.c]) as an instance, and objects at
      hardware fences.
    - [Ipclite]: [ipclite.c] with [ipclite.h]; [IpcliteRing]: rings and channels as queues;
      [IpcliteInit]: its initialisation; [IpcliteRecover]: recovery; [IpcliteFaults]: what
      breaks the interrupt handler.

    A definition has the name of the C function, macro or structure it models, a
    field of a structure a short prefix.  Pieces of a long function have names of
    their own.  Operations compose as the C functions call each other.

    ** How the code is read

    Pointers into a table are indices, handles of clients are positions in the list
    of clients with [None] for null or an error pointer, dma-fences are keys of a map.
    What the kernel, other processors, registers and the device tree answer comes from
    an environment, a function of how often it was asked; what is sent to them is a list
    of events.  Integers are [Z], cut to their width where the code computes with them.
    A spinning lock taken twice is the fault [Deadlock]; the synx lock times out instead.
    Loops that search carry fuel: twice the table for a sweep of the fence table, one
    turn per index for the synx allocation and recovery, 4096 levels for the way of a
    signal up through the synx table, 100 reads of the control queue, as the code has
    it, 1024 turns of the ipclite interrupt, one more than a ring holds.  The theorems
    show that the fuel is enough.

    ** The theorems

    - Data structures: a queue refines a bounded FIFO; the packed reference word refines
      a set of references; lookup is complete, creation fills a free entry or finds the
      duplicate, at the first free or duplicate entry from the hash on; the loop over the
      table visits every entry once, in this order.
    - Signaling: a fence is marked once, its parents are counted down, each registered
      waiting client - of the fence and of the join fences it completes - is told once, in
      order; a join fence completes at its last child.
    - Invariants: every operation, from any good state, returns and keeps the state good -
      for the fence table, the driver with its dma-fences, and the synx table.
    - Clients cannot break the drivers: any sequence of calls with signals and kernel
      callbacks between them, and any call of a session of the synx API, returns and
      leaves the driver, or both drivers, good.
    - Both drivers: what an import leaves on either side; after it no wake-up is lost; a
      registered object and its fence know each other.
    - Recovery: after a restart of the controller every fence is signaled or free and
      every lock is free; a reset client leaves nothing behind; after the recovery from
      a processor that stopped, no synx object belongs to it, and the objects it shared
      have lost one reference and are signaled.
    - Composite synx objects: the count of pending children is right at all times, a
      merge sets it up, a signal pays exactly what it owes, no waiting core is forgotten.
    - Messages: the channels of ipclite are bounded queues over any sequence of calls,
      interrupts and steps of the other side; a processor that stopped starts again with
      empty ones; two ways to break the interrupt handler.
    - Clients: registration, reference counts of clients and power votes refine counters;
      regions of memory are disjoint; clients have distinct numbers and identities.
    - Errors: failed calls undo what they did, or, where they do not, what they leave.

    ** Assumed

    Kernel 6.1.25 or later with [CONFIG_DEBUG_FS], and synx in use; client numbers
    below 64, the width of the masks; mutexes and the mapping of registers as the probe
    leaves them; kernel reference counts below saturation.  A boolean on the stack that
    the code tests before it is assigned reads as zero ([stack_zeroed]): two lookup
    functions of the fence table have one.  A composite synx object is merged from
    others and only once: the code does not check it.  The other end of a ring is
    worked by the same protocol as this one.  Between two critical sections of one synx
    operation other processors only allocate indices.

    ** Not modelled

    Probing, ioctl and debugfs code, mapping of memory and IOMMU calls: platform input
    and output around the modelled calls.  [synx_hwfence_wait], which waits for a
    validation client with code of the debugfs interface.  Sessions, local objects and callbacks
    of the synx driver for its own objects with the dispatch between it and
    [HwFenceSession] ([synx_compat.c]): kernel work queues around the shared table.  Of
    ipclite the debug statistics, versions and features.  The other module trees (camera,
    display, video, graphics, audio, WLAN, network offload, secure and DSP transports,
    touch, Bluetooth and vendor drivers) program separate hardware and share no state
    with these two. *)
From stdpp Require Export base tactics numbers list list_numbers.
From stdpp Require Import gmap.
From Stdlib Require Export ZArith.
From Stdlib Require Import Lia.

#[global] Open Scope Z_scope.

(** ** Machine integers

    A [w]-bit unsigned integer is a [Z]; every C operation that can leave the
    range is followed by the wrap written here. *)

Definition u16 (x : Z) : Z := x mod 2 ^ 16.

Definition u32 (x : Z) : Z := x mod 2 ^ 32.

Definition u64 (x : Z) : Z := x mod 2 ^ 64.

(** [(int)x] of a 64-bit value: the low 32 bits, read in two's complement. *)
Definition i32 (x : Z) : Z := (x + 2 ^ 31) mod 2 ^ 32 - 2 ^ 31.

(** [BIT(n)] on [unsigned long] (64 bits on the targets of this driver). *)
Definition BIT (n : Z) : Z := Z.shiftl 1 n.

(** [x & m] used as a condition. *)
Definition flag (x m : Z) : bool := negb (Z.land x m =? 0).

(** [x & ~m] for a [w]-bit [x]: clearing bits never needs the width. *)
Definition clear (x m : Z) : Z := Z.ldiff x m.

Definition in_u32 (x : Z) : Prop := 0 <= x < 2 ^ 32.

Definition in_u64 (x : Z) : Prop := 0 <= x < 2 ^ 64.

(** Linux error numbers, as the functions return them negated. *)
Definition EPERM : Z := 1.
Definition ENOMEM : Z := 12.
Definition EAGAIN : Z := 11.
Definition EINVAL : Z := 22.
Definition EALREADY : Z := 114.
Definition ENODEV : Z := 19.

(** ** Arrays indexed by a C integer *)

Definition zget {A} (l : list A) (i : Z) : option A :=
  if 0 <=? i then l !! Z.to_nat i else None.

Definition zset {A} (i : Z) (x : A) (l : list A) : list A :=
  if 0 <=? i then <[Z.to_nat i := x]> l else l.

Definition zlen {A} (l : list A) : Z := Z.of_nat (length l).

(** ** Record update

    [r <| p := v |>] is the C assignment [r.p = v]; [r <| p ::= g |>] is
    [r.p = g (r.p)].  A record type declares how it is rebuilt from its
    projections ([Eta]) and the setter of each field is derived from that. *)

Class Eta (R : Type) := rebuild : R -> R.

Class Field {R T : Type} (proj : R -> T) := modify : (T -> T) -> R -> R.

Arguments modify {R T} proj {_} g r /.

Ltac derive_field :=
  match goal with
  | |- @Field ?R ?T ?p =>
      let i := constr:(_ : Eta R) in
      let e := eval hnf in i in
      let b := eval pattern p in e in
      match b with
      | ?k p =>
          let s := eval cbv beta in (fun (g : T -> T) (r : R) => k (fun q => g (p q)) r) in
          exact s
      end
  end.

#[export] Hint Extern 0 (Field _) => derive_field : typeclass_instances.

Notation "r <| p ::= g |>" := (modify p g r)
  (at level 1, left associativity, p at level 10, format "r <| p  ::=  g |>").
Notation "r <| p := v |>" := (modify p (fun _ => v) r)
  (at level 1, left associativity, p at level 10, format "r <| p  :=  v |>").

(** ** Stateful code that can fault

    A handler is a function of the driver's state.  It either returns a value
    and the new state, or faults: [Deadlock] when it spins for ever on a lock
    word nobody will clear, [BadAccess] when it reads or writes outside the
    object it points into, [Undefined] when it does an operation C gives no meaning
    to (a shift by more than the width).  [OutOfFuel] is not an outcome of the code: it is what
    a loop of the model answers when its bound was too small. *)

Inductive fault := Deadlock | BadAccess | Undefined | OutOfFuel.

Inductive outcome (St A : Type) :=
| Done (a : A) (s : St)
| Faulted (f : fault).

Arguments Done {St A} a s.
Arguments Faulted {St A} f.

Definition M (St A : Type) : Type := St -> outcome St A.

Section monad.
Context {St : Type}.

Definition ret {A} (a : A) : M St A := fun s => Done a s.

Definition bind {A B} (m : M St A) (k : A -> M St B) : M St B :=
  fun s => match m s with
           | Done a s' => k a s'
           | Faulted f => Faulted f
           end.

Definition get : M St St := fun s => Done s s.

Definition put (s : St) : M St unit := fun _ => Done tt s.

Definition modifyM (g : St -> St) : M St unit := fun s => Done tt (g s).

Definition raise {A} (f : fault) : M St A := fun _ => Faulted f.

(** A value that must exist, or the access is out of the object's bounds. *)
Definition deref {A} (o : option A) : M St A :=
  match o with Some a => ret a | None => raise BadAccess end.

(** [for (i = lo; i < lo + n; i++)] with a carried local. *)
Fixpoint for_n {A} (n : nat) (lo : Z) (body : Z -> A -> M St A) (acc : A) : M St A :=
  match n with
  | O => ret acc
  | S n' => bind (body lo acc) (fun acc' => for_n n' (lo + 1) body acc')
  end.

(** [wp m Q s]: from [s], [m] returns (it neither faults nor hangs) and its
    result and final state satisfy [Q]. *)
Definition wp {A} (m : M St A) (Q : A -> St -> Prop) (s : St) : Prop :=
  match m s with Done a s' => Q a s' | Faulted _ => False end.

(** [preserves P m]: from a state where [P] holds [m] returns, in a state
    where [P] holds. *)
Definition preserves {A} (P : St -> Prop) (m : M St A) : Prop :=
  forall s, P s -> wp m (fun _ s' => P s') s.
End monad.

Declare Scope fence_scope.
Delimit Scope fence_scope with fence.
#[global] Open Scope fence_scope.

Notation "x <-- m ; k" := (bind m (fun x => k))
  (at level 100, m at next level, right associativity, format "x  <--  m ; '//' k") : fence_scope.
Notation "m ;;; k" := (bind m (fun _ => k))
  (at level 100, right associativity, format "m  ;;; '//' k") : fence_scope.
Notation "'when' b 'do' m" := (if b then m else ret tt)
  (at level 99, b at level 80, m at level 99) : fence_scope.

Create HintDb fence discriminated.
Create Rewrite HintDb fence.
#[export] Hint Constants Opaque : fence.
#[export] Hint Variables Opaque : fence.

(** ** Reasoning rules *)

Section rules.
Context {St : Type}.
Implicit Types (P : St -> Prop) (s : St).

Lemma bind_run {A B} (m : M St A) (k : A -> M St B) s a s' :
  m s = Done a s' -> bind m k s = k a s'.
Proof. unfold bind. by intros ->. Qed.

Lemma bind_faulted {A B} (m : M St A) (k : A -> M St B) s f :
  m s = Faulted f -> bind m k s = Faulted f.
Proof. unfold bind. by intros ->. Qed.

Lemma bind_assoc {A B C} (m : M St A) (k : A -> M St B) (l : B -> M St C) s :
  bind (bind m k) l s = bind m (fun a => bind (k a) l) s.
Proof. unfold bind. by destruct (m s). Qed.

Lemma wp_ret {A} (a : A) (Q : A -> St -> Prop) s : Q a s -> wp (ret a) Q s.
Proof. done. Qed.

Lemma wp_bind {A B} (m : M St A) (k : A -> M St B) (Q : B -> St -> Prop) s :
  wp m (fun a s' => wp (k a) Q s') s -> wp (bind m k) Q s.
Proof. unfold wp, bind. by destruct (m s). Qed.

Lemma wp_mono {A} (m : M St A) (Q Q' : A -> St -> Prop) s :
  wp m Q s -> (forall a s', Q a s' -> Q' a s') -> wp m Q' s.
Proof. unfold wp. destruct (m s); naive_solver. Qed.

Lemma wp_get (Q : St -> St -> Prop) s : Q s s -> wp get Q s.
Proof. done. Qed.

Lemma wp_modifyM g (Q : unit -> St -> Prop) s : Q tt (g s) -> wp (modifyM g) Q s.
Proof. done. Qed.

Lemma wp_deref {A} (o : option A) a (Q : A -> St -> Prop) s :
  o = Some a -> Q a s -> wp (deref o) Q s.
Proof. by intros ->. Qed.

Lemma wp_done {A} (m : M St A) (Q : A -> St -> Prop) s a s' :
  m s = Done a s' -> Q a s' -> wp m Q s.
Proof. unfold wp. by intros ->. Qed.

Lemma wp_inv {A} (m : M St A) (Q : A -> St -> Prop) s :
  wp m Q s -> exists a s', m s = Done a s' /\ Q a s'.
Proof. unfold wp. destruct (m s); naive_solver. Qed.

(** The rule of the [for] loop: an invariant indexed by the counter. *)
Lemma wp_for_n {A} (I : Z -> A -> St -> Prop) n lo (body : Z -> A -> M St A) acc s :
  I lo acc s ->
  (forall i a s', lo <= i < lo + Z.of_nat n -> I i a s' -> wp (body i a) (I (i + 1)) s') ->
  wp (for_n n lo body acc) (I (lo + Z.of_nat n)) s.
Proof.
  revert lo acc s. induction n as [|n IH]; intros lo acc s H0 Hb; simpl.
  - by replace (lo + Z.of_nat 0) with lo by lia.
  - apply wp_bind. eapply wp_mono; [apply Hb; [lia|done]|].
    intros a s' HI. replace (lo + Z.of_nat (S n)) with (lo + 1 + Z.of_nat n) by lia.
    apply IH; [done|]. intros; apply Hb; [lia|done].
Qed.

Lemma preserves_ret {A} P (a : A) : preserves P (ret a).
Proof. by intros s. Qed.

Lemma preserves_get P : preserves P get.
Proof. by intros s. Qed.

Lemma preserves_bind {A B} P (m : M St A) (k : A -> M St B) :
  preserves P m -> (forall a, preserves P (k a)) -> preserves P (bind m k).
Proof.
  intros Hm Hk s Hs. apply wp_bind. eapply wp_mono; [by apply Hm|].
  intros a s' ?. by apply Hk.
Qed.

Lemma preserves_if {A} P (b : bool) (m1 m2 : M St A) :
  preserves P m1 -> preserves P m2 -> preserves P (if b then m1 else m2).
Proof. by destruct b. Qed.

Lemma preserves_modifyM P g : (forall s, P s -> P (g s)) -> preserves P (modifyM g).
Proof. intros H s Hs. by apply H. Qed.

Lemma preserves_for_n {A} P n lo (body : Z -> A -> M St A) acc :
  (forall i a, lo <= i < lo + Z.of_nat n -> preserves P (body i a)) ->
  preserves P (for_n n lo body acc).
Proof.
  intros Hb s Hs. eapply wp_mono.
  - apply (wp_for_n (fun _ _ s => P s)); [done|]. intros i a s' Hi ?. by apply Hb.
  - done.
Qed.
End rules.

(** ** Safe calls

    [safe_in ok R pre m post]: from a state that is [ok] and satisfies [pre], [m]
    returns with [post] in a state that is [ok], and what happened in between is
    within [R].  A precondition is carried through a sequence when it is [Stable],
    that is, kept by every step within [R]. *)

Class Stable {St} (R : relation St) (pre : St -> Prop) : Prop :=
  stable s s' : R s s' -> pre s -> pre s'.

#[export] Instance stable_and {St} (R : relation St) P Q : Stable R P -> Stable R Q -> Stable R (fun s => P s /\ Q s).
Proof. intros HP HQ s s' Hr [? ?]. split; by eapply stable. Qed.

#[export] Instance stable_const {St} (R : relation St) (P : Prop) : Stable R (fun _ => P).
Proof. by intros s s' _. Qed.

Definition safe_in {St} (ok : St -> Prop) (R : relation St) {A} (pre : St -> Prop) (m : M St A)
    (post : A -> St -> Prop) : Prop :=
  forall s, ok s -> pre s -> wp m (fun a s' => ok s' /\ R s s' /\ post a s') s.

Definition anything {St A} (a : A) (s : St) : Prop := True.

Section safety.
Context {St : Type} {ok : St -> Prop} {R : relation St} `{!PreOrder R}.
Implicit Types (pre : St -> Prop).

Lemma safe_ret {A} pre (a : A) (post : A -> St -> Prop) :
  (forall s, pre s -> post a s) -> safe_in ok R pre (ret a) post.
Proof. intros Hp s Hs Hpre. apply wp_ret. split; [done|]. split; [done|]. auto. Qed.

Lemma safe_pre {A} pre pre' (m : M St A) Q :
  (forall s, ok s -> pre s -> pre' s) -> safe_in ok R pre' m Q -> safe_in ok R pre m Q.
Proof. intros Hp Hm s Hs H. apply Hm; auto. Qed.

Lemma safe_post {A} pre (m : M St A) (Q Q' : A -> St -> Prop) :
  safe_in ok R pre m Q -> (forall a s, ok s -> Q a s -> Q' a s) -> safe_in ok R pre m Q'.
Proof.
  intros Hm HQ s Hs Hp. eapply wp_mono; [by apply Hm|]. intros a s' (? & ? & ?). split; [done|]. split; [done|]. auto.
Qed.

(** The rest needs [pre'], which holds and stays. *)
Lemma safe_seq {A B} pre pre' (m : M St A) (k : A -> M St B) P Q :
  (forall s, pre s -> pre' s) -> Stable R pre' -> safe_in ok R pre m P ->
  (forall a, safe_in ok R (fun s => pre' s /\ P a s) (k a) Q) -> safe_in ok R pre (bind m k) Q.
Proof.
  intros Hp Hst Hm Hk s Hs Hpre. apply wp_bind. eapply wp_mono; [by apply Hm|]. intros a s1 (Hs1 & Hr & HP).
  eapply wp_mono; [apply (Hk a s1 Hs1); split; [eapply Hst; [exact Hr|by apply Hp]|done]|].
  intros b s2 (? & Hr2 & ?). split; [done|]. split; [by etransitivity|done].
Qed.

Lemma safe_bind {A B} pre (m : M St A) (k : A -> M St B) P Q :
  Stable R pre -> safe_in ok R pre m P -> (forall a, safe_in ok R (fun s => pre s /\ P a s) (k a) Q) ->
  safe_in ok R pre (bind m k) Q.
Proof. intros Hst. by apply safe_seq. Qed.

(** The result of [m] does not matter. *)
Lemma safe_then {A B} pre (m : M St A) (k : A -> M St B) P Q :
  Stable R pre -> safe_in ok R pre m P -> (forall a, safe_in ok R pre (k a) Q) -> safe_in ok R pre (bind m k) Q.
Proof.
  intros Hst Hm Hk. eapply safe_bind; [exact Hst|exact Hm|]. intros a.
  apply (safe_pre _ pre); [by intros s _ [? _]|]. apply Hk.
Qed.

(** Reading the state. *)
Lemma safe_get {B} pre (k : St -> M St B) Q :
  (forall s, ok s -> pre s -> safe_in ok R (eq s) (k s) Q) -> safe_in ok R pre (bind get k) Q.
Proof. intros Hk s Hs Hp. apply wp_bind, wp_get. by apply Hk. Qed.

Lemma safe_read {A} pre (m : M St A) (Q : A -> St -> Prop) :
  (forall s, ok s -> pre s -> exists a, m s = Done a s /\ Q a s) -> safe_in ok R pre m Q.
Proof. intros Hm s Hs Hp. destruct (Hm s Hs Hp) as (a & E & HQ). eapply wp_done; [exact E|]. by split; [|split]. Qed.

Lemma safe_deref_value {A B} pre (x : A) (k : A -> M St B) Q :
  safe_in ok R pre (k x) Q -> safe_in ok R pre (bind (deref (Some x)) k) Q.
Proof. intros Hk s Hs Hp. apply wp_bind, wp_ret. by apply Hk. Qed.

(** A fact about the state that does not depend on it. *)
Lemma safe_fact {A} (P : Prop) pre (m : M St A) Q :
  (forall s, pre s -> P) -> (P -> safe_in ok R pre m Q) -> safe_in ok R pre m Q.
Proof. intros HP Hm s Hs Hp. apply Hm; [by eapply HP|done..]. Qed.

Lemma safe_for_n {A} pre n lo (body : Z -> A -> M St A) acc (P : A -> Prop) :
  Stable R pre -> P acc ->
  (forall i a, lo <= i < lo + Z.of_nat n -> P a -> safe_in ok R pre (body i a) (fun a _ => P a)) ->
  safe_in ok R pre (for_n n lo body acc) (fun a _ => P a).
Proof.
  intros Hst. revert lo acc. induction n as [|n IH]; intros lo acc Ha Hb; [by apply safe_ret|].
  eapply safe_bind; [exact _|apply (Hb lo acc); [lia|done]|]. intros a.
  apply (safe_fact (P a)); [by intros s [_ ?]|]. intros Pa. apply (safe_pre _ pre); [by intros s _ [? _]|].
  apply IH; [done|]. intros i x Hi. apply Hb. lia.
Qed.
End safety.

#[export] Hint Resolve preserves_ret preserves_get preserves_bind preserves_if
  preserves_modifyM preserves_for_n : fence.

(** ** Arrays *)

Section arrays.
Context {A : Type}.
Implicit Types (l : list A) (i j : Z).

Lemma zget_Some l i x : zget l i = Some x -> 0 <= i < zlen l.
Proof.
  unfold zget, zlen. destruct (Z.leb_spec 0 i); [|done].
  intros ?%lookup_lt_Some. lia.
Qed.

Lemma zget_is_Some l i : 0 <= i < zlen l -> exists x, zget l i = Some x.
Proof.
  unfold zget, zlen. intros. destruct (Z.leb_spec 0 i); [|lia].
  apply lookup_lt_is_Some_2. lia.
Qed.

Lemma zlen_zset i x l : zlen (zset i x l) = zlen l.
Proof. unfold zlen, zset. case_match; [by rewrite length_insert|done]. Qed.

Lemma zget_zset_eq i x l : 0 <= i < zlen l -> zget (zset i x l) i = Some x.
Proof.
  unfold zget, zset, zlen. intros. destruct (Z.leb_spec 0 i); [|lia].
  apply list_lookup_insert_eq. lia.
Qed.

Lemma zget_zset_ne i j x l : i <> j -> zget (zset i x l) j = zget l j.
Proof.
  unfold zget, zset. intros.
  destruct (Z.leb_spec 0 i), (Z.leb_spec 0 j); try done.
  apply list_lookup_insert_ne. lia.
Qed.

Lemma zset_zset i x y l : zset i x (zset i y l) = zset i x l.
Proof. unfold zset. case_match; [apply list_insert_insert_eq|done]. Qed.

Lemma zset_id i x l : zget l i = Some x -> zset i x l = l.
Proof. unfold zget, zset. case_match; [apply list_insert_id|done]. Qed.

Lemma zset_comm i j x y l : i <> j -> zset i x (zset j y l) = zset j y (zset i x l).
Proof.
  unfold zset. intros. destruct (Z.leb_spec 0 i), (Z.leb_spec 0 j); try done.
  apply list_insert_insert_ne. lia.
Qed.

(** The default-free case split of an update. *)
Lemma zget_zset i j x l :
  zget (zset i x l) j = if decide (i = j /\ 0 <= i < zlen l) then Some x else zget l j.
Proof.
  case_decide as H.
  - destruct H as [<- H]. by apply zget_zset_eq.
  - destruct (decide (i = j)) as [<-|]; [|by apply zget_zset_ne].
    unfold zget, zset, zlen in *. destruct (Z.leb_spec 0 i); [|done].
    by rewrite list_insert_ge by lia.
Qed.
End arrays.

Lemma zlen_nonneg {A} (l : list A) : 0 <= zlen l.
Proof. unfold zlen. lia. Qed.

Lemma zlen_replicate {A} n (x : A) : zlen (replicate n x) = Z.of_nat n.
Proof. unfold zlen. by rewrite length_replicate. Qed.

Lemma zget_replicate_Some {A} (x : A) n i : 0 <= i < Z.of_nat n -> zget (replicate n x) i = Some x.
Proof. unfold zget. intros. destruct (Z.leb_spec 0 i); [|lia]. apply lookup_replicate_2. lia. Qed.

Lemma zget_replicate_eq {A} (x y : A) n i : zget (replicate n x) i = Some y -> y = x.
Proof. unfold zget. case_match; [|done]. by intros [? _]%lookup_replicate. Qed.

Lemma zlen_app {A} (l1 l2 : list A) : zlen (l1 ++ l2) = zlen l1 + zlen l2.
Proof. unfold zlen. rewrite length_app. lia. Qed.

Lemma zget_app_l {A} (l1 l2 : list A) k : k < zlen l1 -> zget (l1 ++ l2) k = zget l1 k.
Proof.
  unfold zget, zlen. intros. destruct (Z.leb_spec 0 k); [|done]. apply lookup_app_l. lia.
Qed.

Lemma zget_snoc {A} (l : list A) x k y :
  zget (l ++ [x]) k = Some y -> (k < zlen l /\ zget l k = Some y) \/ (k = zlen l /\ y = x).
Proof.
  intros H. pose proof (zget_Some _ _ _ H) as Hk. rewrite zlen_app in Hk.
  change (zlen [x]) with 1 in Hk. destruct (decide (k < zlen l)) as [Hlt|Hge].
  - left. split; [done|]. by rewrite zget_app_l in H.
  - right. assert (k = zlen l) as -> by lia. split; [done|].
    unfold zget, zlen in H. rewrite Nat2Z.id in H.
    destruct (Z.leb_spec 0 (Z.of_nat (length l))); [|lia].
    rewrite lookup_app_r in H by lia. replace (length l - length l)%nat with O in H by lia.
    by injection H.
Qed.

Lemma zget_cons {A} (x : A) l k : 0 <= k -> zget (x :: l) (k + 1) = zget l k.
Proof.
  unfold zget. intros. destruct (Z.leb_spec 0 (k + 1)), (Z.leb_spec 0 k); try lia.
  by replace (Z.to_nat (k + 1)) with (S (Z.to_nat k)) by lia.
Qed.

#[export] Hint Rewrite @zlen_zset @zset_zset : fence.

(** ** Bits *)

Lemma BIT_pos n : 0 <= n -> 0 < BIT n.
Proof. intros. unfold BIT. rewrite Z.shiftl_1_l. apply Z.pow_pos_nonneg; lia. Qed.

Lemma testbit_BIT n m : 0 <= n -> Z.testbit (BIT n) m = bool_decide (n = m).
Proof.
  intros. unfold BIT. rewrite Z.shiftl_1_l.
  case_bool_decide; [subst; by rewrite Z.pow2_bits_true|by rewrite Z.pow2_bits_false].
Qed.

(** Testing a single-bit mask is testing the bit. *)
Lemma flag_BIT x n : 0 <= n -> flag x (BIT n) = Z.testbit x n.
Proof.
  intros Hn. unfold flag. destruct (Z.testbit x n) eqn:E.
  - apply negb_true_iff, Z.eqb_neq. intros H.
    assert (Z.testbit (Z.land x (BIT n)) n = true) as H'.
    { rewrite Z.land_spec, E, testbit_BIT by done. by case_bool_decide. }
    by rewrite H, Z.testbit_0_l in H'.
  - apply negb_false_iff, Z.eqb_eq. apply Z.bits_inj'. intros m Hm.
    rewrite Z.land_spec, Z.testbit_0_l, testbit_BIT by done.
    case_bool_decide; [subst; by rewrite E|by rewrite andb_false_r].
Qed.

Lemma flag_lor_same x m : m <> 0 -> flag (Z.lor x m) m = true.
Proof.
  intros Hm. unfold flag. apply negb_true_iff, Z.eqb_neq. intros H.
  apply Hm. rewrite <- H. apply Z.bits_inj'. intros k Hk.
  rewrite Z.land_spec, Z.lor_spec. destruct (Z.testbit x k), (Z.testbit m k); done.
Qed.

Lemma u32_id x : in_u32 x -> u32 x = x.
Proof. apply Z.mod_small. Qed.

Lemma u64_id x : in_u64 x -> u64 x = x.
Proof. apply Z.mod_small. Qed.

Lemma u32_range x : in_u32 (u32 x).
Proof. apply Z.mod_pos_bound. lia. Qed.

Lemma u64_range x : in_u64 (u64 x).
Proof. apply Z.mod_pos_bound. lia. Qed.

#[export] Hint Resolve u32_range u64_range : fence.

(** One step of the weakest-precondition calculus. *)
Ltac wp_step :=
  first [ apply wp_bind | apply wp_get | apply wp_ret | apply wp_modifyM ].

Ltac wp_steps := repeat (wp_step; cbv beta).
