(* ===== verification/HwFenceTypes.v ===== *)
(** * Data model of the HW-fence driver

    Constants, structures and the driver state of [mm-drivers/hw_fence]:
    [include/hw_fence_drv_priv.h], [include/msm_hw_fence.h],
    [include/hw_fence_drv_fence.h].  A field [x] of a C structure is the
    projection [hf_x] (hardware fence), [q_x] (queue), [cl_x] (client), [df_x]
    (dma-fence) or [dd_x] (driver data). *)
From S2P Require Import Prelude.
From stdpp Require Import gmap.

(** ** Constants ([hw_fence_drv_priv.h]) *)

Definition HW_FENCE_INVALID_PARENT_FENCE : Z := 2 ^ 64 - 1.
Definition HW_FENCE_HASH_A_MULT : Z := 4969.
Definition HW_FENCE_HASH_C_MULT : Z := 907.
Definition HW_FENCE_CTRL_QUEUES : Z := 2.
Definition HW_FENCE_CLIENT_QUEUES : Z := 2.
Definition HW_FENCE_CTRL_QUEUE_ENTRIES : Z := 64.
Definition HW_FENCE_LOCK_IDX_OFFSET : Z := 8.
Definition HW_FENCE_MEM_LOCKS_SIZE (rxq_clients_num : Z) : Z :=
  HW_FENCE_LOCK_IDX_OFFSET * 8 * rxq_clients_num.
Definition HW_FENCE_TX_QUEUE : Z := 1.
Definition HW_FENCE_RX_QUEUE : Z := 2.
Definition HW_FENCE_JOIN_FENCE_CLIENT_ID : Z := 2 ^ 32 - 1.
Definition MSM_HW_FENCE_FLAG_SIGNAL : Z := BIT 0.
Definition MSM_HW_FENCE_FLAG_CREATE_SIGNALED : Z := BIT 1.
Definition MSM_HW_FENCE_FLAG_INTERNAL_OWNED : Z := BIT 2.
Definition MSM_HW_FENCE_MAX_JOIN_PARENTS : Z := 3.
Definition HW_FENCE_PAYLOAD_REV (major minor : Z) : Z :=
  Z.lor (Z.shiftl major 8) (Z.land minor 255).
Definition HW_FENCE_FCTL_REFCOUNT : Z := BIT 31.
Definition HW_FENCE_DMA_FENCE_REFCOUNT : Z := BIT 30.
Definition HW_FENCE_HLOS_REFCOUNT_MASK : Z := Z.ones 30.
Definition DMA_FENCE_HASH_TABLE_SIZE : Z := Z.shiftl 1 12.

(** [enum hw_fence_client_data_id]. *)
Definition HW_FENCE_CLIENT_DATA_ID_CTX0 : Z := 0.
Definition HW_FENCE_MAX_CLIENTS_WITH_DATA : Z := 1.

(** [enum payload_type]. *)
Definition HW_FENCE_PAYLOAD_TYPE_1 : Z := 1.
Definition HW_FENCE_PAYLOAD_TYPE_2 : Z := 2.
Definition HW_FENCE_PAYLOAD_TYPE_3 : Z := 3.
Definition HW_FENCE_PAYLOAD_TYPE_4 : Z := 4.

(** ** Constants ([msm_hw_fence.h]) *)

Definition MSM_HW_FENCE_FLAG_ENABLED_BIT : Z := 31.
Definition MSM_HW_FENCE_FLAG_SIGNALED_BIT : Z := 30.
Definition MSM_HW_FENCE_ERROR_RESET : Z := BIT 0.
Definition MSM_HW_FENCE_RESET_WITHOUT_ERROR : Z := BIT 0.
Definition MSM_HW_FENCE_RESET_WITHOUT_DESTROY : Z := BIT 1.
Definition MSM_HW_FENCE_UPDATE_ERROR_WITH_MOVE : Z := BIT 0.
Definition MSM_HW_FENCE_MAX_SIGNAL_PER_CLIENT : Z := 64.

(** [enum hw_fence_client_id]: the ids the driver tests for. *)
Definition HW_FENCE_CLIENT_ID_CTX0 : Z := 1.
Definition HW_FENCE_CLIENT_ID_CTL0 : Z := 2.
Definition HW_FENCE_CLIENT_ID_CTL5 : Z := 7.
Definition HW_FENCE_CLIENT_ID_VAL0 : Z := 8.
Definition HW_FENCE_CLIENT_ID_VAL6 : Z := 14.
Definition HW_FENCE_CLIENT_ID_IPE : Z := 15.
Definition HW_FENCE_CLIENT_ID_VPU : Z :=
  HW_FENCE_CLIENT_ID_IPE + MSM_HW_FENCE_MAX_SIGNAL_PER_CLIENT.
Definition HW_FENCE_CLIENT_ID_IPA : Z :=
  HW_FENCE_CLIENT_ID_VPU + MSM_HW_FENCE_MAX_SIGNAL_PER_CLIENT.
Definition HW_FENCE_CLIENT_ID_IFE0 : Z :=
  HW_FENCE_CLIENT_ID_IPA + MSM_HW_FENCE_MAX_SIGNAL_PER_CLIENT.
Definition HW_FENCE_CLIENT_ID_IFE11 : Z :=
  HW_FENCE_CLIENT_ID_IFE0 + 11 * MSM_HW_FENCE_MAX_SIGNAL_PER_CLIENT.
Definition HW_FENCE_CLIENT_MAX : Z :=
  HW_FENCE_CLIENT_ID_IFE11 + MSM_HW_FENCE_MAX_SIGNAL_PER_CLIENT.

(** [synx_hwfence.h] values the driver uses when synx is configured in. *)
Definition SYNX_STATE_SIGNALED_CANCEL : Z := 4.

(** ** [struct msm_hw_fence] *)

Record msm_hw_fence := mk_hw_fence {
  hf_valid : Z;
  hf_error : Z;
  hf_ctx_id : Z;
  hf_seq_id : Z;
  hf_wait_client_mask : Z;
  hf_fence_allocator : Z;
  hf_fence_signal_client : Z;
  hf_lock : Z;
  hf_flags : Z;
  hf_parent_list : list Z;
  hf_parents_cnt : Z;
  hf_pending_child_cnt : Z;
  hf_fence_create_time : Z;
  hf_fence_trigger_time : Z;
  hf_fence_wait_time : Z;
  hf_refcount : Z;
  hf_h_synx : Z;
  hf_client_data : list Z }.

#[export] Instance eta_hw_fence : Eta msm_hw_fence := fun f =>
  mk_hw_fence (hf_valid f) (hf_error f) (hf_ctx_id f) (hf_seq_id f) (hf_wait_client_mask f)
    (hf_fence_allocator f) (hf_fence_signal_client f) (hf_lock f) (hf_flags f)
    (hf_parent_list f) (hf_parents_cnt f) (hf_pending_child_cnt f) (hf_fence_create_time f)
    (hf_fence_trigger_time f) (hf_fence_wait_time f) (hf_refcount f) (hf_h_synx f)
    (hf_client_data f).

(** ** [struct msm_hw_fence_queue_payload] *)

Record queue_payload := mk_payload {
  pl_size : Z;
  pl_type : Z;
  pl_version : Z;
  pl_ctxt_id : Z;
  pl_seqno : Z;
  pl_hash : Z;
  pl_flags : Z;
  pl_client_data : Z;
  pl_error : Z;
  pl_timestamp_lo : Z;
  pl_timestamp_hi : Z;
  pl_reserve : Z }.

#[export] Instance eta_payload : Eta queue_payload := fun p =>
  mk_payload (pl_size p) (pl_type p) (pl_version p) (pl_ctxt_id p) (pl_seqno p) (pl_hash p)
    (pl_flags p) (pl_client_data p) (pl_error p) (pl_timestamp_lo p) (pl_timestamp_hi p)
    (pl_reserve p).

(** ** [struct msm_hw_fence_queue]

    The two memory objects the structure points to are part of the record: the
    queue elements and the HFI queue header, both as arrays of dwords. *)

Record hw_fence_queue := mk_queue {
  q_va_queue : list Z;
  q_size_bytes : Z;
  q_va_header : option (list Z);
  q_pa_queue : Z;
  q_rd_wr_idx_start : Z;
  q_rd_wr_idx_factor : Z;
  q_skip_wr_idx : bool }.

#[export] Instance eta_queue : Eta hw_fence_queue := fun q =>
  mk_queue (q_va_queue q) (q_size_bytes q) (q_va_header q) (q_pa_queue q)
    (q_rd_wr_idx_start q) (q_rd_wr_idx_factor q) (q_skip_wr_idx q).

(** ** [struct msm_hw_fence_client]

    [cl_fence_error_cb] is the registered callback with its user data, both as
    opaque pointers; [cl_error_cb_lock] says whether the mutex is held;
    [cl_mem_descriptor] is the address and the size of the region of its queues. *)

Record hw_fence_client := mk_client {
  cl_client_id : Z;
  cl_client_id_ext : Z;
  cl_mem_descriptor : Z * Z;
  cl_queues : list hw_fence_queue;
  cl_queues_num : Z;
  cl_fence_error_cb : Z;
  cl_fence_error_cb_userdata : Z;
  cl_error_cb_lock : bool;
  cl_ipc_signal_id : Z;
  cl_ipc_client_vid : Z;
  cl_ipc_client_pid : Z;
  cl_update_rxq : bool;
  cl_signaled_update_rxq : bool;
  cl_signaled_send_ipc : bool;
  cl_txq_update_send_ipc : bool;
  cl_skip_fctl_ref : bool;
  cl_context_id : Z;
  cl_seqno : Z;
  cl_kref : Z;
  cl_val_signal : Z }.

#[export] Instance eta_client : Eta hw_fence_client := fun c =>
  mk_client (cl_client_id c) (cl_client_id_ext c) (cl_mem_descriptor c) (cl_queues c) (cl_queues_num c)
    (cl_fence_error_cb c) (cl_fence_error_cb_userdata c) (cl_error_cb_lock c)
    (cl_ipc_signal_id c) (cl_ipc_client_vid c) (cl_ipc_client_pid c) (cl_update_rxq c)
    (cl_signaled_update_rxq c) (cl_signaled_send_ipc c) (cl_txq_update_send_ipc c)
    (cl_skip_fctl_ref c) (cl_context_id c) (cl_seqno c) (cl_kref c) (cl_val_signal c).

(** ** Kernel dma-fences, as far as the driver's own code reads and writes them

    [df_array] is the [fences] array of a [dma_fence_array] (a null entry is 0),
    [None] for a plain fence; [df_fences_null] says that the array pointer itself
    is null.  The last five fields are those [struct hw_dma_fence] adds around the
    base fence when the driver itself made it ([df_internal] is [is_internal];
    [df_hw_dma] is [dma_fence_is_hw_dma]). *)

Record dma_fence := mk_dma_fence {
  df_context : Z;
  df_seqno : Z;
  df_flags : Z;
  df_error : Z;
  df_array : option (list Z);
  df_fences_null : bool;
  df_hw_dma : bool;
  df_internal : bool;
  df_client_handle : option Z;
  df_dma_fence_key : Z;
  df_cb_hash : Z }.

#[export] Instance eta_dma_fence : Eta dma_fence := fun f =>
  mk_dma_fence (df_context f) (df_seqno f) (df_flags f) (df_error f) (df_array f)
    (df_fences_null f) (df_hw_dma f) (df_internal f) (df_client_handle f) (df_dma_fence_key f) (df_cb_hash f).

(** ** [struct hw_fence_client_type_desc], [struct hw_fence_client_ipc_map] *)

Record client_type_desc := mk_client_type {
  ct_init_id : Z;
  ct_max_clients_num : Z;
  ct_clients_num : Z;
  ct_queues_num : Z;
  ct_queue_entries : Z;
  ct_start_padding : Z;
  ct_end_padding : Z;
  ct_mem_size : Z;
  ct_txq_idx_start : Z;
  ct_txq_idx_factor : Z;
  ct_skip_txq_wr_idx : bool;
  ct_skip_fctl_ref : bool }.

Record client_ipc_map := mk_ipc_map {
  im_ipc_client_id_virt : Z;
  im_ipc_client_id_phys : Z;
  im_ipc_signal_id : Z;
  im_update_rxq : bool;
  im_signaled_update_rxq : bool;
  im_signaled_send_ipc : bool;
  im_txq_update_send_ipc : bool }.

#[export] Instance eta_client_type : Eta client_type_desc := fun t =>
  mk_client_type (ct_init_id t) (ct_max_clients_num t) (ct_clients_num t) (ct_queues_num t)
    (ct_queue_entries t) (ct_start_padding t) (ct_end_padding t) (ct_mem_size t) (ct_txq_idx_start t)
    (ct_txq_idx_factor t) (ct_skip_txq_wr_idx t) (ct_skip_fctl_ref t).

(** ** The layout fields of [struct hw_fence_driver_data]

    [ml_queue_size] is [hw_fence_client_queue_size]: the client type, as an index
    into the table of types, and the start offset; [ml_size] is the size of the
    memory. *)
Record mem_layout := mk_layout {
  ml_has_soccp : bool;
  ml_table_entries : Z;
  ml_queue_entries : Z;
  ml_fences_table_size : Z;
  ml_ctrl_queue_size : Z;
  ml_ctrl_queues_size : Z;
  ml_client_types : list client_type_desc;
  ml_rxq_clients_num : Z;
  ml_clients_num : Z;
  ml_queue_size : list (option Z * Z);
  ml_used_mem_size : Z;
  ml_size : Z }.

#[export] Instance eta_layout : Eta mem_layout := fun l =>
  mk_layout (ml_has_soccp l) (ml_table_entries l) (ml_queue_entries l) (ml_fences_table_size l)
    (ml_ctrl_queue_size l) (ml_ctrl_queues_size l) (ml_client_types l) (ml_rxq_clients_num l)
    (ml_clients_num l) (ml_queue_size l) (ml_used_mem_size l) (ml_size l).

(** ** What the driver does to the rest of the system

    Register writes and calls into the kernel or into clients, in the order they
    happen.  [EvIpc] is the write of a signal to the SEND register of the interrupt
    controller, [EvWritel] the write of a value to another of its registers, given
    by its offset. *)

Inductive event :=
| EvIpc (tx_pid rx_vid signal_id : Z)
| EvErrorCb (cb userdata hash error ctxt_id seqno flags : Z)
| EvWakeVal (client_id : Z)
| EvDmaRemoveCb (fence : Z)
| EvDmaSetError (fence error : Z)
| EvDmaSignal (fence : Z)
| EvDmaPut (fence : Z)
| EvDmaGet (fence : Z)
| EvDmaAddCb (fence hash : Z)
| EvWritel (reg val : Z)
| EvRprocState (awake : bool)
| EvRprocPut
| EvWakeSsrWaiters
| EvWakeListener.

#[export] Instance event_eq_dec : EqDecision event.
Proof. solve_decision. Defined.

(** The part of the environment the driver only observes.  The [n]-th
    observation made in a run is answered from the [n]-th value, so a fence that
    another context signals while the driver runs is a change of answer.
    [env_stack_bool] is what the driver finds in an automatic [bool] it did not
    initialise; [env_alloc_fails] says whether an allocation fails and
    [env_new_addr] where it is placed; [env_rproc_ret] is the result of the
    remoteproc framework's calls, [env_fctl_answers] says whether the controller
    answered a message before the timeout.  [env_recv_id] is what reading the
    interrupt controller's RECV_ID register gives, [env_shared_mem] the dwords of the
    shared memory when a region of it is laid out: other processors write it too. *)
Record environment := mk_env {
  env_qtime : nat -> Z;
  env_dma_signaled : Z -> nat -> bool;
  env_last_put : Z -> nat -> bool;
  env_stack_bool : nat -> bool;
  env_alloc_fails : nat -> bool;
  env_new_addr : nat -> Z;
  env_rproc_ret : nat -> Z;
  env_fctl_answers : nat -> bool;
  env_recv_id : nat -> Z;
  env_shared_mem : nat -> list Z }.

#[export] Instance eta_environment : Eta environment := fun e =>
  mk_env (env_qtime e) (env_dma_signaled e) (env_last_put e) (env_stack_bool e)
    (env_alloc_fails e) (env_new_addr e) (env_rproc_ret e) (env_fctl_answers e)
    (env_recv_id e) (env_shared_mem e).

(** ** [struct hw_fence_driver_data]

    [dd_usage_cnt], [dd_is_awake], [dd_rproc] and [dd_ssr_cnt] are the fields of
    its [soccp_props]; [dd_next_context] is the kernel's counter behind
    [dma_fence_context_alloc].  [dd_layout] holds the fields that describe the shared
    memory, which starts at the physical address [dd_res_start]; [dd_driver_enable] is the module's
    global [hw_fence_driver_enable]; of those it shares
    with the record itself the latter count ([layout_of]). *)

Record driver_data := mk_driver {
  dd_driver_enable : bool;
  dd_resources_ready : bool;
  dd_hw_fence_table_entries : Z;
  dd_layout : mem_layout;
  dd_res_start : Z;
  dd_rxq_clients_num : Z;
  dd_clients_num : Z;
  dd_hw_fences_tbl : list msm_hw_fence;
  dd_hlos_key_tbl : list Z;
  dd_hw_fences_tbl_cnt : Z;
  dd_client_lock_tbl : list Z;
  dd_client_lock_tbl_cnt : Z;
  dd_ctrl_queues : list hw_fence_queue;
  dd_ipcc_client_pid : Z;
  dd_ipcc_client_vid : Z;
  dd_ipcc_fctl_vid : Z;
  dd_ipcc_fctl_pid : Z;
  dd_ipc_clients_table : list client_ipc_map;
  dd_clients : list (option hw_fence_client);
  dd_fctl_ready : bool;
  dd_dma_fence_table : gmap Z (list Z);
  dd_has_soccp : bool;
  dd_ssr_cnt : Z;
  dd_usage_cnt : Z;
  dd_is_awake : bool;
  dd_rproc : bool;
  dd_signaled_clients_mask : Z;
  dd_protocol_id : Z;
  dd_ipcc_val_initialized : bool;
  dd_ipcc_dpu_initialized : bool;
  dd_next_context : Z;
  dd_lock_wake_cnt : Z;
  dd_dma_fences : gmap Z dma_fence;
  dd_env : environment;
  dd_tick : nat;
  dd_events : list event }.

#[export] Instance eta_driver : Eta driver_data := fun d =>
  mk_driver (dd_driver_enable d) (dd_resources_ready d) (dd_hw_fence_table_entries d) (dd_layout d)
    (dd_res_start d) (dd_rxq_clients_num d) (dd_clients_num d) (dd_hw_fences_tbl d)
    (dd_hlos_key_tbl d) (dd_hw_fences_tbl_cnt d) (dd_client_lock_tbl d)
    (dd_client_lock_tbl_cnt d) (dd_ctrl_queues d) (dd_ipcc_client_pid d)
    (dd_ipcc_client_vid d) (dd_ipcc_fctl_vid d) (dd_ipcc_fctl_pid d)
    (dd_ipc_clients_table d) (dd_clients d) (dd_fctl_ready d) (dd_dma_fence_table d)
    (dd_has_soccp d) (dd_ssr_cnt d) (dd_usage_cnt d) (dd_is_awake d) (dd_rproc d)
    (dd_signaled_clients_mask d) (dd_protocol_id d) (dd_ipcc_val_initialized d)
    (dd_ipcc_dpu_initialized d) (dd_next_context d) (dd_lock_wake_cnt d) (dd_dma_fences d) (dd_env d)
    (dd_tick d) (dd_events d).

Definition layout_of (d : driver_data) : mem_layout :=
  (dd_layout d) <| ml_has_soccp := dd_has_soccp d |>
                <| ml_table_entries := dd_hw_fence_table_entries d |>
                <| ml_rxq_clients_num := dd_rxq_clients_num d |>
                <| ml_clients_num := dd_clients_num d |>.

(** Code of the driver. *)
Abbreviation DRV := (M driver_data).

(** ** Access to the parts of the driver state *)

Definition get_fence (i : Z) : DRV msm_hw_fence :=
  d <-- get; deref (zget (dd_hw_fences_tbl d) i).

Definition set_fence (i : Z) (f : msm_hw_fence) : DRV unit :=
  modifyM (fun d => d <| dd_hw_fences_tbl ::= zset i f |>).

Definition update_fence (i : Z) (g : msm_hw_fence -> msm_hw_fence) : DRV unit :=
  f <-- get_fence i; set_fence i (g f).

Definition log_event (e : event) : DRV unit :=
  modifyM (fun d => d <| dd_events ::= fun l => l ++ [e] |>).

Definition tick : DRV nat :=
  d <-- get;
  put (d <| dd_tick := S (dd_tick d) |>);;;
  ret (dd_tick d).

(** [hw_fence_get_qtime]: one read of the time counter register. *)
Definition hw_fence_get_qtime : DRV Z :=
  d <-- get;
  n <-- tick;
  ret (u64 (env_qtime (dd_env d) n)).

(** The kernel's answer to [dma_fence_is_signaled]. *)
Definition dma_fence_is_signaled (fence : Z) : DRV bool :=
  d <-- get;
  n <-- tick;
  ret (env_dma_signaled (dd_env d) fence n).

(** Reading an uninitialised automatic [bool]. *)
Definition uninit_bool : DRV bool :=
  d <-- get;
  n <-- tick;
  ret (env_stack_bool (dd_env d) n).

Definition get_dma_fence (fence : Z) : DRV dma_fence :=
  d <-- get; deref (dd_dma_fences d !! fence).

Definition update_dma_fence (fence : Z) (g : dma_fence -> dma_fence) : DRV unit :=
  f <-- get_dma_fence fence;
  modifyM (fun d => d <| dd_dma_fences ::= <[fence := g f]> |>).

(** [drv_data->clients[id]], a possibly [NULL] pointer. *)
Definition get_client_opt (id : Z) : DRV (option hw_fence_client) :=
  d <-- get; deref (zget (dd_clients d) id).

(** Following a client handle. *)
Definition get_client (id : Z) : DRV hw_fence_client :=
  o <-- get_client_opt id; deref o.

Definition set_client (id : Z) (c : hw_fence_client) : DRV unit :=
  modifyM (fun d => d <| dd_clients ::= zset id (Some c) |>).

(** [kzalloc]: [None] on failure, else the address of the new object. *)
Definition kzalloc : DRV (option Z) :=
  d <-- get;
  n <-- tick;
  ret (if env_alloc_fails (dd_env d) n then None else Some (env_new_addr (dd_env d) n)).
