(* ===== verification/HwFenceQueue.v ===== *)
(** * HFI queues: the Rx/Tx ring buffers shared with the fence controller

    [src/hw_fence_drv_priv.c]: index translation, [hw_fence_read_queue_helper],
    [hw_fence_update_queue_helper], [hw_fence_update_existing_txq_payload].  The
    code here runs on one queue (its elements and its header); [HwFenceClient]
    and [HwFenceApi] run it on the queues of the driver's state.

    The theorems: a payload survives the trip through shared memory; a queue
    refines a bounded first-in first-out list. *)
From S2P Require Import Prelude HwFenceTypes.
From Stdlib Require Import Lia.

(** [SYNX_HW_FENCE_HANDLE_FLAG] of [synx_interop.h]: the build configurations of
    the driver ([sun_defconfig], [niobe_defconfig]) set
    [CONFIG_QTI_HW_FENCE_USE_SYNX]. *)
Definition SYNX_HW_FENCE_HANDLE_FLAG : Z := BIT 31.

Definition IS_HW_FENCE_TX_QUEUE (i : Z) : bool := i =? HW_FENCE_TX_QUEUE - 1.

(** ** Payloads in memory

    [struct msm_hw_fence_queue_payload] is sixteen little-endian dwords. *)

Definition PAYLOAD_BYTES : Z := 64.

Definition lo32 (x : Z) : Z := x mod 2 ^ 32.

Definition hi32 (x : Z) : Z := (x / 2 ^ 32) mod 2 ^ 32.

Definition encode_payload (p : queue_payload) : list Z :=
  [ pl_size p; pl_type p + pl_version p * 2 ^ 16;
    lo32 (pl_ctxt_id p); hi32 (pl_ctxt_id p); lo32 (pl_seqno p); hi32 (pl_seqno p);
    lo32 (pl_hash p); hi32 (pl_hash p); lo32 (pl_flags p); hi32 (pl_flags p);
    lo32 (pl_client_data p); hi32 (pl_client_data p);
    pl_error p; pl_timestamp_lo p; pl_timestamp_hi p; pl_reserve p ].

Definition decode_payload (ws : list Z) : option queue_payload :=
  match ws with
  | [sz; tv; c0; c1; s0; s1; h0; h1; f0; f1; d0; d1; e; tl; th; rv] =>
      Some (mk_payload sz (tv mod 2 ^ 16) (tv / 2 ^ 16) (c0 + c1 * 2 ^ 32) (s0 + s1 * 2 ^ 32)
              (h0 + h1 * 2 ^ 32) (f0 + f1 * 2 ^ 32) (d0 + d1 * 2 ^ 32) e tl th rv)
  | _ => None
  end.

(** [*(struct msm_hw_fence_queue_payload * )((u32 * )va_queue + idx)]. *)
Definition load_payload (mem : list Z) (idx : Z) : option queue_payload :=
  if 0 <=? idx then decode_payload (take 16 (drop (Z.to_nat idx) mem)) else None.

Definition store_payload (mem : list Z) (idx : Z) (p : queue_payload) : list Z :=
  list_inserts (Z.to_nat idx) (encode_payload p) mem.

(** ** Header fields ([hw_fence_get_queue_idx_ptrs])

    Dword offsets of [read_index], [write_index] and [tx_wm] inside the header;
    the second version of the header, used with soccp, keeps each index on its
    own 64-byte line. *)
Definition hw_fence_get_queue_idx_ptrs (has_soccp : bool) : Z * Z * Z :=
  if has_soccp then (16, 32, 7) else (12, 13, 7).

(** ** Index translation *)

Definition REQUIRES_IDX_TRANSLATION (q : hw_fence_queue) : bool :=
  negb (q_rd_wr_idx_factor q =? 0) &&
  (negb (q_rd_wr_idx_start q =? 0) || (1 <? q_rd_wr_idx_factor q)).

Definition IDX_TRANSLATE_CUSTOM_TO_DEFAULT (q : hw_fence_queue) (idx : Z) : Z :=
  u32 (u32 (idx - q_rd_wr_idx_start q) * q_rd_wr_idx_factor q).

Definition IDX_TRANSLATE_DEFAULT_TO_CUSTOM (q : hw_fence_queue) (idx : Z) : Z :=
  u32 (idx / q_rd_wr_idx_factor q + q_rd_wr_idx_start q).

Definition _translate_queue_indexes_custom_to_default (q : hw_fence_queue)
    (read_idx write_idx : Z) : Z * Z :=
  if REQUIRES_IDX_TRANSLATION q then
    (IDX_TRANSLATE_CUSTOM_TO_DEFAULT q read_idx, IDX_TRANSLATE_CUSTOM_TO_DEFAULT q write_idx)
  else (read_idx, write_idx).

(** ** Reading *)

Abbreviation QUEUE := (M hw_fence_queue).

Definition read_header (q : hw_fence_queue) (off : Z) : QUEUE Z :=
  hdr <-- deref (q_va_header q); deref (zget hdr off).

Definition write_header (off v : Z) : QUEUE unit :=
  q <-- get;
  hdr <-- deref (q_va_header q);
  _ <-- deref (zget hdr off);
  put (q <| q_va_header := Some (zset off v hdr) |>).

(** The result is the C return value with [*payload] when it was written. *)
Definition hw_fence_read_queue_helper (has_soccp : bool)
  : QUEUE (Z * option queue_payload) :=
  q <-- get;
  let q_size_u32 := u32 (q_size_bytes q / 4) in
  let payload_size_u32 := u32 (PAYLOAD_BYTES / 4) in
  match q_va_header q with
  | None => ret (- EINVAL, None)
  | Some _ =>
      let '(rd_idx_ptr, wr_idx_ptr, _) := hw_fence_get_queue_idx_ptrs has_soccp in
      read_idx <-- read_header q rd_idx_ptr;
      write_idx <-- read_header q wr_idx_ptr;
      let '(read_idx, write_idx) :=
        _translate_queue_indexes_custom_to_default q read_idx write_idx in
      if read_idx =? write_idx then ret (- EINVAL, None)
      else
        let to_read_idx := u32 (read_idx + payload_size_u32) in
        let to_read_idx := if q_size_u32 <=? to_read_idx then 0 else to_read_idx in
        let to_read_idx :=
          if REQUIRES_IDX_TRANSLATION q
          then IDX_TRANSLATE_DEFAULT_TO_CUSTOM q to_read_idx else to_read_idx in
        payload <-- deref (load_payload (q_va_queue q) read_idx);
        write_header rd_idx_ptr to_read_idx;;;
        ret (if to_read_idx =? write_idx then 0 else 1, Some payload)
  end.

(** ** Writing *)

(** [_get_update_queue_params]: the dword size of the queue, the payload size in
    bytes and dwords, and where the read and write indices live. *)
Definition _get_update_queue_params (has_soccp : bool) (q : hw_fence_queue)
  : option (Z * Z * Z * Z * Z) :=
  match q_va_header q with
  | None => None
  | Some _ =>
      let '(rd_idx_ptr, wr_ptr, tx_wm_ptr) := hw_fence_get_queue_idx_ptrs has_soccp in
      let wr_ptr := if q_skip_wr_idx q then tx_wm_ptr else wr_ptr in
      Some (u32 (q_size_bytes q / 4), PAYLOAD_BYTES, u32 (PAYLOAD_BYTES / 4),
            rd_idx_ptr, wr_ptr)
  end.

(** The body of [hw_fence_update_queue_helper] between taking and releasing the
    client lock; [timestamp] is what [hw_fence_get_qtime] returns.  The 64-bit
    write of [payload_size] to the 32-bit [size] field also clears [type] and
    [version], which the next two writes set; [reserve] keeps its value. *)
Definition update_queue_locked (has_soccp : bool)
    (type ctxt_id seqno hash flags client_data error timestamp : Z) : QUEUE Z :=
  q <-- get;
  match _get_update_queue_params has_soccp q with
  | None => ret (- EINVAL)
  | Some (q_size_u32, payload_size, payload_size_u32, rd_idx_ptr, wr_ptr) =>
      read_idx <-- read_header q rd_idx_ptr;
      write_idx <-- read_header q wr_ptr;
      let '(read_idx, write_idx) :=
        _translate_queue_indexes_custom_to_default q read_idx write_idx in
      let q_free_u32 :=
        if read_idx <=? write_idx then u32 (q_size_u32 - (write_idx - read_idx))
        else u32 (read_idx - write_idx) in
      if q_free_u32 <=? payload_size_u32 then ret (- EINVAL)
      else
        let to_write_idx := u32 (write_idx + payload_size_u32) in
        let to_write_idx := if q_size_u32 <=? to_write_idx then 0 else to_write_idx in
        let to_write_idx :=
          if REQUIRES_IDX_TRANSLATION q
          then IDX_TRANSLATE_DEFAULT_TO_CUSTOM q to_write_idx else to_write_idx in
        old <-- deref (load_payload (q_va_queue q) write_idx);
        modifyM (fun q => q <| q_va_queue := store_payload (q_va_queue q) write_idx
          (mk_payload payload_size (u16 type) (u16 (HW_FENCE_PAYLOAD_REV 1 0)) ctxt_id seqno
             (Z.lor hash SYNX_HW_FENCE_HANDLE_FLAG) flags client_data error
             (lo32 timestamp) (hi32 timestamp) (pl_reserve old)) |>);;;
        write_header wr_ptr to_write_idx;;;
        ret 0
  end.

(** ** Moving an error to the head of the Tx queue *)

Definition store_at (idx : Z) (p : queue_payload) : QUEUE unit :=
  q <-- get;
  _ <-- deref (load_payload (q_va_queue q) idx);
  put (q <| q_va_queue := store_payload (q_va_queue q) idx p |>).

Definition hw_fence_update_existing_txq_payload (has_soccp : bool) (hash error : Z)
  : QUEUE Z :=
  q <-- get;
  match _get_update_queue_params has_soccp q with
  | None => ret (- EINVAL)
  | Some (q_size_u32, _, payload_size_u32, rd_idx_ptr, wr_ptr) =>
      read_idx <-- read_header q rd_idx_ptr;
      write_idx <-- read_header q wr_ptr;
      let '(read_idx, write_idx) :=
        _translate_queue_indexes_custom_to_default q read_idx write_idx in
      if read_idx =? write_idx then ret (- EINVAL)
      else
        first_payload <-- deref (load_payload (q_va_queue q) read_idx);
        if pl_hash first_payload =? hash then
          store_at read_idx (first_payload <| pl_error := error |>);;; ret 0
        else
          let second_idx := u32 (read_idx + payload_size_u32) in
          let second_idx := if q_size_u32 <=? second_idx then 0 else second_idx in
          if second_idx =? write_idx then ret (- EINVAL)
          else
            second_payload <-- deref (load_payload (q_va_queue q) second_idx);
            if negb (pl_hash second_payload =? hash) then ret (- EINVAL)
            else
              store_at read_idx (second_payload <| pl_error := error |>);;;
              store_at second_idx first_payload;;;
              ret 0
  end.

(** ** Resetting ([hw_fence_utils_reset_queues], one half each) *)

Definition reset_txq (has_soccp : bool) : QUEUE unit :=
  q <-- get;
  let '(rd_idx_ptr, wr_idx_ptr, tx_wm_ptr) := hw_fence_get_queue_idx_ptrs has_soccp in
  wr_idx <-- read_header q wr_idx_ptr;
  when q_skip_wr_idx q do write_header tx_wm_ptr wr_idx;;;
  write_header rd_idx_ptr wr_idx.

Definition reset_rxq (has_soccp : bool) : QUEUE unit :=
  q <-- get;
  let '(rd_idx_ptr, wr_idx_ptr, _) := hw_fence_get_queue_idx_ptrs has_soccp in
  rd_idx <-- read_header q rd_idx_ptr;
  write_header wr_idx_ptr rd_idx.

(** * Properties *)

(** ** Payloads in memory *)

(** Every field within its C type. *)
Definition payload_wf (p : queue_payload) : Prop :=
  0 <= pl_type p < 2 ^ 16 /\ 0 <= pl_version p /\
  in_u64 (pl_ctxt_id p) /\ in_u64 (pl_seqno p) /\ in_u64 (pl_hash p) /\
  in_u64 (pl_flags p) /\ in_u64 (pl_client_data p).

Lemma lo_hi x : in_u64 x -> lo32 x + hi32 x * 2 ^ 32 = x.
Proof.
  intros [H0 H1]. unfold lo32, hi32. rewrite (Z.mod_small (x / 2 ^ 32)).
  - pose proof (Z.div_mod x (2 ^ 32) ltac:(lia)). lia.
  - split; [apply Z.div_pos; lia|apply Z.div_lt_upper_bound; lia].
Qed.

Lemma decode_encode p : payload_wf p -> decode_payload (encode_payload p) = Some p.
Proof.
  intros (Ht & Hv & Hc & Hs & Hh & Hf & Hd). destruct p; cbn in *.
  rewrite !lo_hi by done. do 2 f_equal.
  - rewrite Z.mod_add, Z.mod_small by lia. done.
  - rewrite Z.div_add, Z.div_small by lia. lia.
Qed.

Lemma decode_is_Some ws : length ws = 16%nat -> is_Some (decode_payload ws).
Proof. intros H. do 16 (destruct ws as [|? ws]; [done|]). by destruct ws. Qed.

Lemma length_store mem i p : length (store_payload mem i p) = length mem.
Proof. apply length_inserts. Qed.

Lemma slice_store_eq (mem : list Z) i p :
  0 <= i -> i + 16 <= zlen mem ->
  take 16 (drop (Z.to_nat i) (store_payload mem i p)) = encode_payload p.
Proof.
  unfold zlen. intros H0 H1. apply list_eq. intros k.
  destruct (decide (k < 16)%nat) as [Hk|Hk].
  - rewrite lookup_take_lt, lookup_drop by done. unfold store_payload.
    rewrite list_lookup_inserts by (cbn; lia). f_equal. lia.
  - rewrite lookup_take_ge by lia. symmetry. apply lookup_ge_None. cbn. lia.
Qed.

Lemma slice_store_ne (mem : list Z) i j p :
  0 <= i -> 0 <= j -> i + 16 <= j \/ j + 16 <= i ->
  take 16 (drop (Z.to_nat j) (store_payload mem i p)) = take 16 (drop (Z.to_nat j) mem).
Proof.
  intros Hi Hj H. apply list_eq. intros k.
  destruct (decide (k < 16)%nat) as [Hk|Hk].
  - rewrite !lookup_take_lt, !lookup_drop by done. unfold store_payload. destruct H.
    + apply list_lookup_inserts_ge. cbn. lia.
    + apply list_lookup_inserts_lt. lia.
  - by rewrite !lookup_take_ge by lia.
Qed.

Lemma load_store_eq (mem : list Z) i p :
  0 <= i -> i + 16 <= zlen mem -> payload_wf p -> load_payload (store_payload mem i p) i = Some p.
Proof.
  intros. unfold load_payload. destruct (Z.leb_spec 0 i); [|lia].
  rewrite slice_store_eq by done. by apply decode_encode.
Qed.

Lemma load_store_ne (mem : list Z) i j p :
  0 <= i -> 0 <= j -> i + 16 <= j \/ j + 16 <= i ->
  load_payload (store_payload mem i p) j = load_payload mem j.
Proof. intros. unfold load_payload. by rewrite slice_store_ne. Qed.

Lemma load_is_Some (mem : list Z) i :
  0 <= i -> i + 16 <= zlen mem -> is_Some (load_payload mem i).
Proof.
  unfold zlen. intros. unfold load_payload. destruct (Z.leb_spec 0 i); [|lia].
  apply decode_is_Some. rewrite length_take, length_drop. lia.
Qed.

(** ** Index translation *)

(** What the client types that use custom indices configure: the factor divides
    the payload size in dwords, and the last index fits. *)
Definition idx_ok (q : hw_fence_queue) (n : Z) : Prop :=
  REQUIRES_IDX_TRANSLATION q = true ->
  0 < q_rd_wr_idx_factor q /\ (q_rd_wr_idx_factor q | 16) /\ 0 <= q_rd_wr_idx_start q /\
  q_rd_wr_idx_start q + 16 * n < 2 ^ 32.

Definition custom_idx (q : hw_fence_queue) (x : Z) : Z :=
  if REQUIRES_IDX_TRANSLATION q then IDX_TRANSLATE_DEFAULT_TO_CUSTOM q x else x.

Lemma custom_idx_val q n s :
  idx_ok q n -> 0 <= s < n -> REQUIRES_IDX_TRANSLATION q = true ->
  IDX_TRANSLATE_DEFAULT_TO_CUSTOM q (16 * s)
  = s * (16 / q_rd_wr_idx_factor q) + q_rd_wr_idx_start q.
Proof.
  intros Hok Hs HR. destruct (Hok HR) as (Hf & [c Hc] & Hst & Hmax).
  unfold IDX_TRANSLATE_DEFAULT_TO_CUSTOM. rewrite Hc, Z.div_mul by lia.
  replace (c * q_rd_wr_idx_factor q * s) with (c * s * q_rd_wr_idx_factor q) by lia.
  rewrite Z.div_mul by lia. rewrite u32_id; [lia|].
  assert (0 < c) by nia. assert (c <= 16) by nia. unfold in_u32. split; nia.
Qed.

Lemma custom_to_default q n s :
  idx_ok q n -> 0 <= s < n -> REQUIRES_IDX_TRANSLATION q = true ->
  IDX_TRANSLATE_CUSTOM_TO_DEFAULT q (IDX_TRANSLATE_DEFAULT_TO_CUSTOM q (16 * s)) = 16 * s.
Proof.
  intros Hok Hs HR. rewrite (custom_idx_val q n s) by done.
  destruct (Hok HR) as (Hf & [c Hc] & Hst & Hmax).
  assert (0 < c) by nia. assert (c <= 16) by nia.
  unfold IDX_TRANSLATE_CUSTOM_TO_DEFAULT. rewrite Hc, Z.div_mul by lia.
  rewrite (u32_id (_ - _)) by (unfold in_u32; split; nia).
  rewrite u32_id; [nia|]. unfold in_u32. split; nia.
Qed.

Lemma translate_custom q n r w :
  idx_ok q n -> 0 <= r < n -> 0 <= w < n ->
  _translate_queue_indexes_custom_to_default q (custom_idx q (16 * r)) (custom_idx q (16 * w))
  = (16 * r, 16 * w).
Proof.
  intros Hok Hr Hw. unfold _translate_queue_indexes_custom_to_default, custom_idx.
  destruct (REQUIRES_IDX_TRANSLATION q) eqn:HR; [|done].
  by rewrite !(custom_to_default q n).
Qed.

Lemma custom_idx_inj q n r w :
  idx_ok q n -> 0 <= r < n -> 0 <= w < n ->
  custom_idx q (16 * r) = custom_idx q (16 * w) -> r = w.
Proof.
  intros Hok Hr Hw E. pose proof (translate_custom q n r w Hok Hr Hw) as H1.
  rewrite E, (translate_custom q n w w) in H1 by done. injection H1. lia.
Qed.

#[export] Hint Resolve custom_idx_inj : fence.

(** ** The queue as a bounded first-in first-out list *)

Definition header_field (q : hw_fence_queue) (off : Z) : option Z :=
  hdr ← q_va_header q; zget hdr off.

Lemma wp_read_header q0 off v (Q : Z -> hw_fence_queue -> Prop) q :
  header_field q0 off = Some v -> Q v q -> wp (read_header q0 off) Q q.
Proof.
  unfold header_field, read_header. destruct (q_va_header q0) as [hdr|]; [|done].
  simpl. intros E HQ. apply wp_bind, wp_ret. by eapply wp_deref.
Qed.

(** Where the driver, as the writer of the queue, keeps its write index. *)
Definition write_ptr (has_soccp : bool) (q : hw_fence_queue) : Z :=
  let '(_, wr_idx_ptr, tx_wm_ptr) := hw_fence_get_queue_idx_ptrs has_soccp in
  if q_skip_wr_idx q then tx_wm_ptr else wr_idx_ptr.

Definition read_ptr (has_soccp : bool) : Z := (hw_fence_get_queue_idx_ptrs has_soccp).1.1.

(** Queue [q] has [n] slots, its read index is at slot [r] and the payloads
    between its read and write indices are [l], oldest first. *)
Record queue_repr (has_soccp : bool) (q : hw_fence_queue) (n r : Z) (l : list queue_payload)
  : Prop := {
  qr_n : 1 < n /\ 64 * n < 2 ^ 32;
  qr_r : 0 <= r < n;
  qr_len : zlen l < n;
  qr_size : q_size_bytes q = 64 * n;
  qr_mem : zlen (q_va_queue q) = 16 * n;
  qr_idx : idx_ok q n;
  qr_rd : header_field q (read_ptr has_soccp) = Some (custom_idx q (16 * r));
  qr_wr : header_field q (write_ptr has_soccp q)
          = Some (custom_idx q (16 * ((r + zlen l) mod n)));
  qr_slots : forall k p, zget l k = Some p ->
             load_payload (q_va_queue q) (16 * ((r + k) mod n)) = Some p }.

(** A slot and the dwords it occupies. *)
Lemma slot_bounds n s : 0 < n -> 0 <= s mod n < n.
Proof. intros. apply Z.mod_pos_bound. lia. Qed.

Lemma slot_ne n r j k :
  0 < n -> 0 <= j < n -> 0 <= k < n -> j <> k -> (r + j) mod n <> (r + k) mod n.
Proof.
  intros Hn Hj Hk Hne E. apply Hne.
  assert ((j - k) mod n = 0) as E'.
  { replace (j - k) with ((r + j) - (r + k)) by lia. by rewrite Zminus_mod, E, Z.sub_diag. }
  apply Z.mod_divide in E' as [c Hc]; [|lia]. assert (c = 0) by nia. lia.
Qed.

Lemma next_idx n s : 1 < n -> 64 * n < 2 ^ 32 -> 0 <= s < n ->
  (if u32 (64 * n / 4) <=? u32 (16 * s + 16) then 0 else u32 (16 * s + 16))
  = 16 * ((s + 1) mod n).
Proof.
  intros Hn Hmax Hs. replace (64 * n) with (16 * n * 4) by lia. rewrite Z.div_mul by lia.
  rewrite !u32_id by (unfold in_u32; lia).
  destruct (Z.leb_spec (16 * n) (16 * s + 16)).
  - replace (s + 1) with n by lia. rewrite Z.mod_same by lia. lia.
  - rewrite Z.mod_small by lia. lia.
Qed.

(** The free space the writer computes is the number of free slots. *)
Lemma free_space n r len : 1 < n -> 64 * n < 2 ^ 32 -> 0 <= r < n -> 0 <= len < n ->
  let w := (r + len) mod n in
  (if 16 * r <=? 16 * w then u32 (u32 (64 * n / 4) - (16 * w - 16 * r))
   else u32 (16 * r - 16 * w)) = 16 * (n - len).
Proof.
  intros Hn Hmax Hr Hl w. replace (64 * n) with (16 * n * 4) by lia.
  rewrite Z.div_mul by lia. rewrite (u32_id (16 * n)) by (unfold in_u32; lia).
  assert (w = r + len \/ w = r + len - n) as Hw.
  { unfold w. destruct (decide (r + len < n)); [left; by rewrite Z.mod_small by lia|right].
    replace (r + len) with (r + len - n + 1 * n) at 1 by lia.
    by rewrite Z.mod_add, Z.mod_small by lia. }
  destruct (Z.leb_spec (16 * r) (16 * w)); rewrite u32_id by (unfold in_u32; lia); lia.
Qed.

Lemma header_field_set_eq (q : hw_fence_queue) off v v0 :
  header_field q off = Some v0 ->
  forall hdr, q_va_header q = Some hdr ->
  header_field (q <| q_va_header := Some (zset off v hdr) |>) off = Some v.
Proof.
  intros E hdr Eh. unfold header_field in *. rewrite Eh in E. simpl in *.
  apply zget_zset_eq. by eapply zget_Some.
Qed.

Lemma header_field_set_ne (q : hw_fence_queue) off off' v :
  off <> off' -> forall hdr, q_va_header q = Some hdr ->
  header_field (q <| q_va_header := Some (zset off v hdr) |>) off' = header_field q off'.
Proof.
  intros Hne hdr Eh. unfold header_field. rewrite Eh. simpl. by apply zget_zset_ne.
Qed.

Lemma wp_write_header off v v0 (Q : unit -> hw_fence_queue -> Prop) q :
  header_field q off = Some v0 ->
  (forall hdr, q_va_header q = Some hdr ->
   Q tt (q <| q_va_header := Some (zset off v hdr) |>)) ->
  wp (write_header off v) Q q.
Proof.
  intros E HQ. unfold header_field in E. destruct (q_va_header q) as [hdr|] eqn:Eh; [|done].
  simpl in E. unfold write_header. apply wp_bind, wp_get. rewrite Eh.
  apply wp_bind, wp_ret. apply wp_bind. eapply wp_deref; [done|]. by apply HQ.
Qed.

Lemma read_write_ptr_ne has_soccp q : read_ptr has_soccp <> write_ptr has_soccp q.
Proof. unfold read_ptr, write_ptr. destruct has_soccp, (q_skip_wr_idx q); simpl; lia. Qed.

#[export] Hint Resolve slot_bounds read_write_ptr_ne decode_encode : fence.

Lemma queue_repr_params has_soccp q n r l :
  queue_repr has_soccp q n r l ->
  _get_update_queue_params has_soccp q
  = Some (u32 (64 * n / 4), 64, 16, read_ptr has_soccp, write_ptr has_soccp q).
Proof.
  intros Hq. pose proof (qr_rd _ _ _ _ _ Hq) as Hrd. unfold header_field in Hrd.
  unfold _get_update_queue_params, read_ptr, write_ptr.
  destruct (q_va_header q); [|done]. rewrite (qr_size _ _ _ _ _ Hq). by destruct has_soccp.
Qed.

(** What one successful write leaves behind. *)
Definition enqueued (has_soccp : bool) (q : hw_fence_queue) (n r : Z) (l : list queue_payload)
    (p : queue_payload) : hw_fence_queue :=
  let w := (r + zlen l) mod n in
  q <| q_va_queue := store_payload (q_va_queue q) (16 * w) p |>
    <| q_va_header ::= fmap (zset (write_ptr has_soccp q) (custom_idx q (16 * ((w + 1) mod n)))) |>.

Lemma queue_repr_enqueued has_soccp q n r l p :
  queue_repr has_soccp q n r l -> zlen l + 1 < n -> payload_wf p ->
  queue_repr has_soccp (enqueued has_soccp q n r l p) n r (l ++ [p]).
Proof.
  intros Hq Hroom Hp. destruct Hq as [[Hn Hmax] Hr Hlen Hsize Hmem Hidx Hrd Hwr Hsl].
  pose proof (zlen_nonneg l) as Hl0. pose proof (slot_bounds n (r + zlen l) ltac:(lia)) as Hw.
  unfold enqueued. destruct (q_va_header q) as [hdr|] eqn:Eh.
  2: { unfold header_field in Hrd. by rewrite Eh in Hrd. }
  split; rewrite ?zlen_app; change (zlen [p]) with 1; try done.
  - simpl. unfold zlen. by rewrite length_store.
  - unfold header_field. simpl. rewrite Eh. simpl. unfold header_field in Hrd.
    rewrite Eh in Hrd. simpl in Hrd.
    rewrite zget_zset_ne by (apply not_eq_sym, read_write_ptr_ne). done.
  - unfold header_field. simpl. rewrite Eh. simpl. unfold header_field in Hwr.
    rewrite Eh in Hwr. simpl in Hwr. unfold custom_idx. simpl.
    rewrite zget_zset_eq by (by eapply zget_Some).
    by rewrite Zplus_mod_idemp_l, Z.add_assoc.
  - intros k p' Hk. simpl. apply zget_snoc in Hk as [[Hlt Hk]|[-> ->]].
    + pose proof (zget_Some _ _ _ Hk) as Hkb.
      pose proof (slot_ne n r (zlen l) k ltac:(lia) ltac:(lia) ltac:(lia) ltac:(lia)).
      pose proof (slot_bounds n (r + k) ltac:(lia)).
      rewrite load_store_ne by lia. by apply Hsl.
    + apply load_store_eq; [lia| |done]. lia.
Qed.

(** The payload the driver writes; [rsv] is the stale [reserve] field. *)
Definition new_payload (type ctxt_id seqno hash flags client_data error timestamp rsv : Z)
  : queue_payload :=
  mk_payload 64 (u16 type) (u16 (HW_FENCE_PAYLOAD_REV 1 0)) ctxt_id seqno
    (Z.lor hash SYNX_HW_FENCE_HANDLE_FLAG) flags client_data error
    (lo32 timestamp) (hi32 timestamp) rsv.

(** Opening the representation: the header is present, both indices are known and
    both name a slot. *)
Ltac open_queue Hq hdr Eh :=
  pose proof (queue_repr_params _ _ _ _ _ Hq);
  destruct Hq as [[Hn Hmax] Hr Hlen Hsize Hmem Hidx Hrd Hwr Hsl];
  match goal with _ : zlen ?l < ?n, _ : 0 <= ?r < ?n |- _ =>
    pose proof (zlen_nonneg l) as Hl0;
    pose proof (slot_bounds n (r + zlen l) ltac:(lia)) as Hw end;
  unfold header_field in Hrd, Hwr;
  match goal with q : hw_fence_queue |- _ =>
    destruct (q_va_header q) as [hdr|] eqn:Eh; [|done] end;
  simpl in Hrd, Hwr.

(** Writing to a queue with room: the payload goes to the tail and nothing else
    changes. *)
Lemma update_queue_room has_soccp q n r l ty c s h f d e t :
  queue_repr has_soccp q n r l -> zlen l + 1 < n ->
  exists rsv, update_queue_locked has_soccp ty c s h f d e t q
    = Done 0 (enqueued has_soccp q n r l (new_payload ty c s h f d e t rsv)).
Proof.
  intros Hq Hroom. open_queue Hq hdr Eh.
  destruct (load_is_Some (q_va_queue q) (16 * ((r + zlen l) mod n))) as [old Hold]; [lia..|].
  exists (pl_reserve old).
  unfold update_queue_locked, bind, get. rewrite H. unfold read_header, bind.
  rewrite Eh. simpl. rewrite Hrd, Hwr. simpl.
  rewrite (translate_custom q n), free_space by (done || lia).
  destruct (Z.leb_spec (16 * (n - zlen l)) 16); [lia|].
  unfold bind. rewrite Hold. simpl. unfold write_header, bind, get, modifyM, put. simpl.
  rewrite Eh. simpl. rewrite Hwr. simpl. unfold ret. f_equal.
  unfold enqueued, custom_idx, new_payload. simpl. rewrite Eh. simpl.
  by rewrite <- (next_idx n) by lia.
Qed.

(** Writing to a full queue (one slot is always kept free) changes nothing. *)
Lemma update_queue_full has_soccp q n r l ty c s h f d e t :
  queue_repr has_soccp q n r l -> zlen l + 1 = n ->
  update_queue_locked has_soccp ty c s h f d e t q = Done (- EINVAL) q.
Proof.
  intros Hq Hfull. open_queue Hq hdr Eh.
  unfold update_queue_locked, bind, get. rewrite H. unfold read_header, bind.
  rewrite Eh. simpl. rewrite Hrd, Hwr. simpl.
  rewrite (translate_custom q n), free_space by (done || lia).
  by destruct (Z.leb_spec (16 * (n - zlen l)) 16); [|lia].
Qed.

(** What one successful read leaves behind. *)
Definition dequeued (has_soccp : bool) (q : hw_fence_queue) (n r : Z) : hw_fence_queue :=
  q <| q_va_header ::= fmap (zset (read_ptr has_soccp) (custom_idx q (16 * ((r + 1) mod n)))) |>.

Lemma queue_repr_dequeued has_soccp q n r p l :
  queue_repr has_soccp q n r (p :: l) ->
  queue_repr has_soccp (dequeued has_soccp q n r) n ((r + 1) mod n) l.
Proof.
  intros Hq. open_queue Hq hdr Eh.
  pose proof (zlen_nonneg l). change (p :: l) with ([p] ++ l) in *. rewrite zlen_app in *.
  change (zlen [p]) with 1 in *. unfold dequeued.
  split; simpl; rewrite ?Eh; try done.
  - apply slot_bounds. lia.
  - lia.
  - unfold header_field. simpl. rewrite ?Eh. simpl.
    rewrite zget_zset_eq by (by eapply zget_Some). done.
  - unfold header_field. simpl. rewrite ?Eh. simpl.
    rewrite zget_zset_ne by apply read_write_ptr_ne.
    rewrite Zplus_mod_idemp_l, <- Z.add_assoc. done.
  - intros k p' Hk. rewrite Zplus_mod_idemp_l, <- Z.add_assoc, (Z.add_comm 1 k).
    apply Hsl. pose proof (zget_Some _ _ _ Hk). simpl. by rewrite zget_cons by lia.
Qed.

(** The value the read returns beside the payload.  The comparison is between
    the new read index as stored in the header and the write index translated
    to dwords. *)
Definition read_status (q : hw_fence_queue) (n r : Z) (l : list queue_payload) : Z :=
  if custom_idx q (16 * ((r + 1) mod n)) =? 16 * ((r + zlen l) mod n) then 0 else 1.

Lemma read_queue_cons has_soccp q n r p l :
  queue_repr has_soccp q n r (p :: l) -> q_skip_wr_idx q = false ->
  hw_fence_read_queue_helper has_soccp q
  = Done (read_status q n r (p :: l), Some p) (dequeued has_soccp q n r).
Proof.
  intros Hq Hskip. open_queue Hq hdr Eh. pose proof (zlen_nonneg l).
  assert (write_ptr has_soccp q = (hw_fence_get_queue_idx_ptrs has_soccp).1.2) as Ewr.
  { unfold write_ptr. rewrite Hskip. by destruct has_soccp. }
  rewrite Ewr in Hwr.
  assert (load_payload (q_va_queue q) (16 * r) = Some p) as Hp.
  { specialize (Hsl 0 p eq_refl). by rewrite Z.add_0_r, Z.mod_small in Hsl by lia. }
  change (zlen (p :: l)) with (zlen ([p] ++ l)) in *. rewrite zlen_app in *.
  change (zlen [p]) with 1 in *.
  unfold hw_fence_read_queue_helper, bind, get. rewrite Eh.
  assert (hw_fence_get_queue_idx_ptrs has_soccp
          = (read_ptr has_soccp, (hw_fence_get_queue_idx_ptrs has_soccp).1.2, 7)) as ->
    by (by destruct has_soccp).
  unfold read_header, bind. rewrite ?Eh. simpl. rewrite Hrd, Hwr. simpl.
  rewrite (translate_custom q n) by done.
  destruct (Z.eqb_spec (16 * r) (16 * ((r + (1 + zlen l)) mod n))) as [E|].
  { pose proof (slot_ne n r 0 (1 + zlen l) ltac:(lia) ltac:(lia) ltac:(lia) ltac:(lia)) as Hne.
    rewrite Z.add_0_r, (Z.mod_small r) in Hne by lia. lia. }
  unfold bind. rewrite Hp. simpl. unfold write_header, bind, get, put. rewrite Eh. simpl.
  rewrite Hrd. simpl. unfold ret, read_status, dequeued. rewrite ?Eh. simpl.
  change (zlen (p :: l)) with (zlen ([p] ++ l)). rewrite zlen_app.
  change (zlen [p]) with 1. rewrite Hsize.
  rewrite (next_idx n) by lia. by rewrite Eh.
Qed.

Lemma read_queue_nil has_soccp q n r :
  queue_repr has_soccp q n r [] -> q_skip_wr_idx q = false ->
  hw_fence_read_queue_helper has_soccp q = Done (- EINVAL, None) q.
Proof.
  intros Hq Hskip. open_queue Hq hdr Eh.
  assert (write_ptr has_soccp q = (hw_fence_get_queue_idx_ptrs has_soccp).1.2) as Ewr.
  { unfold write_ptr. rewrite Hskip. by destruct has_soccp. }
  rewrite Ewr in Hwr. change (zlen (@nil queue_payload)) with 0 in *.
  unfold hw_fence_read_queue_helper, bind, get. rewrite Eh.
  assert (hw_fence_get_queue_idx_ptrs has_soccp
          = (read_ptr has_soccp, (hw_fence_get_queue_idx_ptrs has_soccp).1.2, 7)) as ->
    by (by destruct has_soccp).
  unfold read_header, bind. rewrite ?Eh. simpl. rewrite Hrd, Hwr. simpl.
  rewrite (translate_custom q n) by done.
  by rewrite Z.add_0_r, (Z.mod_small r), Z.eqb_refl by lia.
Qed.

(** ** Moving an error to the head

    What [hw_fence_update_existing_txq_payload] does to the queue as a list. *)
Definition move_to_head (hash error : Z) (l : list queue_payload)
  : option (list queue_payload) :=
  match l with
  | p1 :: rest =>
      if pl_hash p1 =? hash then Some (p1 <| pl_error := error |> :: rest)
      else match rest with
           | p2 :: rest' =>
               if pl_hash p2 =? hash
               then Some (p2 <| pl_error := error |> :: p1 :: rest') else None
           | [] => None
           end
  | [] => None
  end.

(** Overwriting the slot of the [j]-th pending payload. *)
Lemma queue_repr_store has_soccp q n r l j p0 p :
  queue_repr has_soccp q n r l -> zget l j = Some p0 -> payload_wf p ->
  queue_repr has_soccp
    (q <| q_va_queue := store_payload (q_va_queue q) (16 * ((r + j) mod n)) p |>) n r
    (zset j p l).
Proof.
  intros Hq Hj Hp. destruct Hq as [[Hn Hmax] Hr Hlen Hsize Hmem Hidx Hrd Hwr Hsl].
  pose proof (zget_Some _ _ _ Hj) as Hjb. pose proof (slot_bounds n (r + j) ltac:(lia)).
  split; rewrite ?zlen_zset; try done.
  - simpl. unfold zlen. by rewrite length_store.
  - intros k p'. rewrite zget_zset. simpl. case_decide as Hk.
    + destruct Hk as [<- _]. intros [= <-]. apply load_store_eq; [lia..|done].
    + intros Hk'. pose proof (zget_Some _ _ _ Hk').
      pose proof (slot_ne n r j k ltac:(lia) ltac:(lia) ltac:(lia) ltac:(lia)).
      pose proof (slot_bounds n (r + k) ltac:(lia)).
      rewrite load_store_ne by lia. by apply Hsl.
Qed.

Lemma wp_store_at idx p (Q : unit -> hw_fence_queue -> Prop) q :
  is_Some (load_payload (q_va_queue q) idx) ->
  Q tt (q <| q_va_queue := store_payload (q_va_queue q) idx p |>) ->
  wp (store_at idx p) Q q.
Proof.
  intros [x Hx] HQ. unfold store_at. apply wp_bind, wp_get, wp_bind.
  by eapply wp_deref.
Qed.

Lemma payload_wf_error p e : payload_wf p -> payload_wf (p <| pl_error := e |>).
Proof. by destruct p. Qed.

(** The slot after the head, as the code computes it. *)
Lemma second_slot n r : 1 < n -> 64 * n < 2 ^ 32 -> 0 <= r < n ->
  (if u32 (64 * n / 4) <=? u32 (16 * r + 16) then 0 else u32 (16 * r + 16))
  = 16 * ((r + 1) mod n).
Proof. apply next_idx. Qed.

Lemma update_existing_spec has_soccp q n r l hash error :
  queue_repr has_soccp q n r l -> Forall payload_wf l ->
  wp (hw_fence_update_existing_txq_payload has_soccp hash error)
     (fun res q' => match move_to_head hash error l with
                    | Some l' => res = 0 /\ queue_repr has_soccp q' n r l'
                    | None => res = - EINVAL /\ q' = q
                    end) q.
Proof.
  intros Hq Hwf. pose proof Hq as Hq0. open_queue Hq hdr Eh.
  unfold hw_fence_update_existing_txq_payload. apply wp_bind, wp_get. rewrite H.
  apply wp_bind, (wp_read_header _ _ _ _ _ (qr_rd _ _ _ _ _ Hq0)).
  apply wp_bind, (wp_read_header _ _ _ _ _ (qr_wr _ _ _ _ _ Hq0)).
  rewrite (translate_custom q n) by done.
  destruct l as [|p1 rest].
  { change (zlen []) with 0. rewrite Z.add_0_r, (Z.mod_small r), Z.eqb_refl by lia.
    by apply wp_ret. }
  apply Forall_cons in Hwf as [Hp1 Hwf].
  assert (zlen (p1 :: rest) = 1 + zlen rest) as El by (unfold zlen; simpl; lia).
  pose proof (zlen_nonneg rest).
  assert (load_payload (q_va_queue q) (16 * r) = Some p1) as Hl1.
  { specialize (Hsl 0 p1 eq_refl). by rewrite Z.add_0_r, Z.mod_small in Hsl by lia. }
  destruct (Z.eqb_spec (16 * r) (16 * ((r + zlen (p1 :: rest)) mod n))) as [E|_].
  { pose proof (slot_ne n r 0 (zlen (p1 :: rest)) ltac:(lia) ltac:(lia) ltac:(lia) ltac:(lia)).
    rewrite Z.add_0_r, (Z.mod_small r) in * by lia. lia. }
  apply wp_bind. eapply wp_deref; [exact Hl1|]. simpl move_to_head.
  destruct (Z.eqb_spec (pl_hash p1) hash).
  { apply wp_bind, wp_store_at; [by rewrite Hl1|]. apply wp_ret. split; [done|].
    pose proof (queue_repr_store _ _ _ _ _ 0 p1 (p1 <| pl_error := error |>) Hq0 eq_refl
                  (payload_wf_error _ _ Hp1)) as Hs.
    by rewrite Z.add_0_r, (Z.mod_small r) in Hs by lia. }
  rewrite second_slot by lia.
  destruct rest as [|p2 rest].
  { change (zlen [p1]) with 1. rewrite Z.eqb_refl. by apply wp_ret. }
  apply Forall_cons in Hwf as [Hp2 Hwf].
  assert (zlen (p2 :: rest) = 1 + zlen rest) by (unfold zlen; simpl; lia).
  pose proof (zlen_nonneg rest).
  destruct (Z.eqb_spec (16 * ((r + 1) mod n)) (16 * ((r + zlen (p1 :: p2 :: rest)) mod n))).
  { pose proof (slot_ne n r 1 (zlen (p1 :: p2 :: rest))
      ltac:(lia) ltac:(lia) ltac:(lia) ltac:(lia)). lia. }
  pose proof (Hsl 1 p2 eq_refl) as Hl2.
  apply wp_bind. eapply wp_deref; [exact Hl2|].
  destruct (Z.eqb_spec (pl_hash p2) hash); simpl; [|by apply wp_ret].
  pose proof (slot_bounds n (r + 1) ltac:(lia)).
  pose proof (slot_ne n r 0 1 ltac:(lia) ltac:(lia) ltac:(lia) ltac:(lia)) as Hne.
  rewrite Z.add_0_r, (Z.mod_small r) in Hne by lia.
  pose proof (queue_repr_store _ _ _ _ _ 0 p1 (p2 <| pl_error := error |>) Hq0 eq_refl
                (payload_wf_error _ _ Hp2)) as Hs1.
  rewrite Z.add_0_r, (Z.mod_small r) in Hs1 by lia.
  pose proof (queue_repr_store _ _ _ _ _ 1 p2 p1 Hs1 eq_refl Hp1) as Hs2.
  apply wp_bind, wp_store_at; [by rewrite Hl1|].
  apply wp_bind, wp_store_at; [|by apply wp_ret].
  simpl. rewrite load_store_ne by lia. by rewrite Hl2.
Qed.

(** ** Sequences of operations *)

(** An operation on a queue: the driver writes a payload, or its reader reads. *)
Inductive queue_op :=
| QWrite (type ctxt_id seqno hash flags client_data error timestamp : Z)
| QRead.

(** The result of an operation; the [reserve] field of a payload is whatever the
    slot held before and is not part of the message. *)
Definition erase_reserve (p : queue_payload) : queue_payload := p <| pl_reserve := 0 |>.

Definition queue_result : Type := Z * option queue_payload.

Definition run_queue_op (has_soccp : bool) (o : queue_op) : QUEUE queue_result :=
  match o with
  | QWrite ty c s h f d e t =>
      res <-- update_queue_locked has_soccp ty c s h f d e t; ret (res, None)
  | QRead =>
      out <-- hw_fence_read_queue_helper has_soccp; ret (out.1, erase_reserve <$> out.2)
  end.

Fixpoint run_queue_ops (has_soccp : bool) (os : list queue_op) : QUEUE (list queue_result) :=
  match os with
  | [] => ret []
  | o :: os' =>
      res <-- run_queue_op has_soccp o;
      rest <-- run_queue_ops has_soccp os';
      ret (res :: rest)
  end.

(** The specification: a list that holds at most [n - 1] messages. *)
Definition fifo_op (n : Z) (o : queue_op) (l : list queue_payload)
  : queue_result * list queue_payload :=
  match o with
  | QWrite ty c s h f d e t =>
      if zlen l + 1 <? n then ((0, None), l ++ [new_payload ty c s h f d e t 0])
      else ((- EINVAL, None), l)
  | QRead =>
      match l with
      | [] => ((- EINVAL, None), [])
      | p :: l' => ((if zlen l' =? 0 then 0 else 1, Some p), l')
      end
  end.

Fixpoint fifo_ops (n : Z) (os : list queue_op) (l : list queue_payload)
  : list queue_result * list queue_payload :=
  match os with
  | [] => ([], l)
  | o :: os' =>
      let '(res, l1) := fifo_op n o l in
      let '(rest, l2) := fifo_ops n os' l1 in (res :: rest, l2)
  end.

Definition queue_op_wf (o : queue_op) : Prop :=
  match o with
  | QWrite _ c s h f d _ _ => in_u64 c /\ in_u64 s /\ in_u64 h /\ in_u64 f /\ in_u64 d
  | QRead => True
  end.

Lemma in_u64_lor x y : in_u64 x -> in_u64 y -> in_u64 (Z.lor x y).
Proof.
  intros [Hx0 Hx1] [Hy0 Hy1]. split; [by apply Z.lor_nonneg|].
  destruct (Z.eq_dec (Z.lor x y) 0) as [->|Hne]; [lia|].
  apply Z.log2_lt_pow2; [pose proof (proj2 (Z.lor_nonneg x y) (conj Hx0 Hy0)); lia|].
  rewrite Z.log2_lor by done.
  apply Z.max_lub_lt;
    match goal with |- Z.log2 ?a < _ =>
      destruct (Z.eq_dec a 0) as [->|]; [done|apply Z.log2_lt_pow2; lia] end.
Qed.

Lemma new_payload_wf ty c s h f d e t rsv :
  queue_op_wf (QWrite ty c s h f d e t) -> payload_wf (new_payload ty c s h f d e t rsv).
Proof.
  intros (?&?&?&?&?). unfold payload_wf, new_payload. simpl.
  split; [apply Z.mod_pos_bound; lia|]. split; [done|].
  repeat split; try (by apply in_u64_lor); unfold in_u64 in *; try lia;
    by apply in_u64_lor.
Qed.

(** A queue with plain indices whose contents, up to [reserve], are [l]. *)
Definition queue_is (has_soccp : bool) (q : hw_fence_queue) (n : Z) (l : list queue_payload)
  : Prop :=
  q_skip_wr_idx q = false /\ REQUIRES_IDX_TRANSLATION q = false /\
  exists r l', queue_repr has_soccp q n r l' /\ erase_reserve <$> l' = l.

Lemma read_status_plain q n r p l :
  REQUIRES_IDX_TRANSLATION q = false -> 1 < n -> 0 <= r < n -> zlen (p :: l) < n ->
  read_status q n r (p :: l) = if zlen l =? 0 then 0 else 1.
Proof.
  intros Hplain Hn Hr Hlen. unfold read_status, custom_idx. rewrite Hplain.
  assert (zlen (p :: l) = 1 + zlen l) as El by (unfold zlen; simpl; lia).
  rewrite El in *. pose proof (zlen_nonneg l).
  destruct (Z.eqb_spec (zlen l) 0) as [E0|E0].
  - by rewrite E0, Z.add_0_r, Z.eqb_refl.
  - destruct (Z.eqb_spec (16 * ((r + 1) mod n)) (16 * ((r + (1 + zlen l)) mod n)));
      [|done].
    pose proof (slot_ne n r 1 (1 + zlen l) ltac:(lia) ltac:(lia) ltac:(lia) ltac:(lia)). lia.
Qed.

Lemma run_queue_op_fifo has_soccp q n l o :
  queue_is has_soccp q n l -> queue_op_wf o ->
  exists q', run_queue_op has_soccp o q = Done (fifo_op n o l).1 q' /\
             queue_is has_soccp q' n (fifo_op n o l).2.
Proof.
  intros (Hskip & Hplain & r & l' & Hq & <-) Hwf.
  pose proof (qr_n _ _ _ _ _ Hq). pose proof (qr_r _ _ _ _ _ Hq).
  pose proof (qr_len _ _ _ _ _ Hq) as Hlen.
  assert (zlen (erase_reserve <$> l') = zlen l') as Ez
    by (unfold zlen; by rewrite length_fmap).
  destruct o as [ty c s h f d e t|]; simpl.
  - rewrite Ez. destruct (Z.ltb_spec (zlen l' + 1) n) as [Hroom|Hfull].
    + destruct (update_queue_room _ _ _ _ _ ty c s h f d e t Hq Hroom) as [rsv E].
      eexists. unfold bind. rewrite E. split; [done|].
      split; [done|]. split; [done|]. eexists r, _. split.
      * apply queue_repr_enqueued; [done..|by apply new_payload_wf].
      * by rewrite fmap_app.
    + eexists. unfold bind. rewrite (update_queue_full _ _ _ _ _ ty c s h f d e t Hq) by lia.
      split; [done|]. split; [done|]. split; [done|]. by exists r, l'.
  - destruct l' as [|p l']; simpl; unfold bind.
    + rewrite (read_queue_nil _ _ _ _ Hq Hskip). eexists. split; [done|].
      split; [done|]. split; [done|]. by exists r, [].
    + rewrite (read_queue_cons _ _ _ _ _ _ Hq Hskip). eexists. split.
      { unfold ret. simpl. rewrite read_status_plain by (done || lia).
        unfold zlen. by rewrite length_fmap. }
      split; [done|]. split; [done|]. eexists _, l'. split; [|done].
      by eapply queue_repr_dequeued.
Qed.

(** ** Claims *)

(** C1: the HFI queue is a bounded FIFO.  From a well-formed queue of [n] slots
    with plain indices, any sequence of driver writes and reads returns, step by
    step, what a list of capacity [n - 1] returns: writes append at the tail and
    are refused with [-EINVAL] exactly when [n - 1] messages are pending, reads
    take the oldest message and return 1 while more are pending, 0 for the last
    one and [-EINVAL] on an empty queue; no access leaves the queue's memory. *)
Theorem hfi_queue_refines_fifo has_soccp n os q l :
  queue_is has_soccp q n l -> Forall queue_op_wf os ->
  exists q', run_queue_ops has_soccp os q = Done (fifo_ops n os l).1 q' /\
             queue_is has_soccp q' n (fifo_ops n os l).2.
Proof.
  intros Hq Hos. revert q l Hq. induction Hos as [|o os Ho _ IH]; intros q l Hq.
  - by exists q.
  - destruct (run_queue_op_fifo _ _ _ _ _ Hq Ho) as (q1 & E1 & Hq1). simpl.
    destruct (fifo_op n o l) as [res l1]. simpl in *.
    destruct (IH _ _ Hq1) as (q2 & E2 & Hq2). exists q2.
    destruct (fifo_ops n os l1) as [rest l2]. simpl in *.
    unfold bind. rewrite E1, E2. done.
Qed.

(** An empty three-slot Rx queue, as [init_hw_fences_queues] leaves it. *)
Definition example_queue : hw_fence_queue :=
  mk_queue (replicate 48 0) 192 (Some (replicate 48 0)) 4096 0 1 false.

Lemma example_queue_repr : queue_repr true example_queue 3 0 [].
Proof.
  split; try (by vm_compute); try lia.
  - intros k p Hk. apply zget_Some in Hk. unfold zlen in Hk. simpl in Hk. lia.
Qed.

Lemma example_queue_is : queue_is true example_queue 3 [].
Proof. split; [done|]. split; [done|]. exists 0, []. split; [apply example_queue_repr|done]. Qed.

Lemma hfi_queue_refines_fifo_witness :
  exists q', run_queue_ops true
      [QWrite 1 7 8 5 0 0 0 9; QWrite 1 7 9 6 0 0 0 9; QWrite 1 7 10 7 0 0 0 9; QRead; QRead; QRead]
      example_queue
    = Done [(0, None); (0, None); (- EINVAL, None);
            (1, Some (new_payload 1 7 8 5 0 0 0 9 0)); (0, Some (new_payload 1 7 9 6 0 0 0 9 0));
            (- EINVAL, None)] q' /\ queue_is true q' 3 [].
Proof.
  apply (hfi_queue_refines_fifo true 3
    [QWrite 1 7 8 5 0 0 0 9; QWrite 1 7 9 6 0 0 0 9; QWrite 1 7 10 7 0 0 0 9; QRead; QRead; QRead]
    example_queue []).
  - apply example_queue_is.
  - repeat constructor; vm_compute; intuition congruence.
Defined.

(** A message written to shared memory reads back unchanged, and writing it
    disturbs no other slot: for every payload within its field widths, loading
    the sixteen dwords it was stored to gives it back, and any disjoint slot
    loads as before. *)
Theorem payload_store_load (mem : list Z) i p :
  0 <= i -> i + 16 <= zlen mem -> payload_wf p ->
  load_payload (store_payload mem i p) i = Some p /\
  (forall j, 0 <= j -> i + 16 <= j \/ j + 16 <= i ->
     load_payload (store_payload mem i p) j = load_payload mem j) /\
  zlen (store_payload mem i p) = zlen mem.
Proof.
  intros Hi Hi' Hp. split; [by apply load_store_eq|]. split.
  - intros. by apply load_store_ne.
  - unfold zlen. by rewrite length_store.
Qed.

Lemma payload_store_load_witness :
  load_payload (store_payload (replicate 48 0) 16 (new_payload 1 (2 ^ 63) 8 5 0 0 0 9 3)) 16
  = Some (new_payload 1 (2 ^ 63) 8 5 0 0 0 9 3).
Proof.
  apply (payload_store_load (replicate 48 0) 16 (new_payload 1 (2 ^ 63) 8 5 0 0 0 9 3)).
  - lia.
  - by vm_compute.
  - repeat split; vm_compute; congruence.
Defined.

(** [hw_fence_update_existing_txq_payload] acts on the pending messages as
    [move_to_head] does: the message with the given hash, if it is one of the
    two oldest, becomes the oldest one with the error set and the other keeps
    its contents; otherwise [-EINVAL] is returned and nothing changes.  It holds
    for every index translation and for queues that publish [tx_wm]. *)
Theorem update_existing_moves_to_head has_soccp q n r l hash error :
  queue_repr has_soccp q n r l -> Forall payload_wf l ->
  wp (hw_fence_update_existing_txq_payload has_soccp hash error)
     (fun res q' => match move_to_head hash error l with
                    | Some l' => res = 0 /\ queue_repr has_soccp q' n r l'
                    | None => res = - EINVAL /\ q' = q
                    end) q.
Proof. apply update_existing_spec. Qed.

(** ** Queues the driver can always work on

    The shape of a queue, whatever its messages: what every operation of the
    driver needs to stay inside the queue's memory, and keeps. *)

Definition hw_write_ptr (has_soccp : bool) : Z := (hw_fence_get_queue_idx_ptrs has_soccp).1.2.

Record queue_shape (has_soccp : bool) (q : hw_fence_queue) (n r w : Z) : Prop := {
  qs_n : 1 < n /\ 64 * n < 2 ^ 32;
  qs_r : 0 <= r < n;
  qs_w : 0 <= w < n;
  qs_size : q_size_bytes q = 64 * n;
  qs_mem : zlen (q_va_queue q) = 16 * n;
  qs_idx : idx_ok q n;
  qs_rd : header_field q (read_ptr has_soccp) = Some (custom_idx q (16 * r));
  qs_wr : header_field q (write_ptr has_soccp q) = Some (custom_idx q (16 * w));
  qs_hw : exists v, 0 <= v < n /\
          header_field q (hw_write_ptr has_soccp) = Some (custom_idx q (16 * v)) }.

Definition queue_ok (has_soccp : bool) (q : hw_fence_queue) : Prop :=
  exists n r w, queue_shape has_soccp q n r w.

Definition no_payload : queue_payload := mk_payload 0 0 0 0 0 0 0 0 0 0 0 0.

(** The pending messages, read off the memory. *)
Definition contents (q : hw_fence_queue) (n r len : Z) : list queue_payload :=
  (fun k => default no_payload (load_payload (q_va_queue q) (16 * ((r + Z.of_nat k) mod n))))
  <$> seq 0 (Z.to_nat len).

Lemma zlen_contents q n r len : 0 <= len -> zlen (contents q n r len) = len.
Proof. intros. unfold zlen, contents. rewrite length_fmap, length_seq. lia. Qed.

Lemma queue_shape_repr has_soccp q n r w :
  queue_shape has_soccp q n r w ->
  queue_repr has_soccp q n r (contents q n r ((w - r) mod n)).
Proof.
  intros [[Hn Hmax] Hr Hw Hsize Hmem Hidx Hrd Hwr _].
  pose proof (slot_bounds n (w - r) ltac:(lia)) as Hl.
  split; rewrite ?zlen_contents by lia; try (done || lia).
  - rewrite Hwr. do 3 f_equal. rewrite Zplus_mod_idemp_r.
    replace (r + (w - r)) with w by lia. by rewrite Z.mod_small.
  - intros k p Hk. pose proof (zget_Some _ _ _ Hk) as Hkb. rewrite zlen_contents in Hkb by lia.
    pose proof (slot_bounds n (r + k) ltac:(lia)).
    destruct (load_is_Some (q_va_queue q) (16 * ((r + k) mod n))) as [p' Hp']; [lia..|].
    unfold zget, contents in Hk. destruct (Z.leb_spec 0 k); [|lia].
    rewrite list_lookup_fmap, lookup_seq_lt in Hk by lia. simpl in Hk.
    rewrite Z2Nat.id, Hp' in Hk by lia. injection Hk as <-. done.
Qed.

(** Does a message fit? *)
Definition has_room (has_soccp : bool) (q : hw_fence_queue) : Prop :=
  exists n r w, queue_shape has_soccp q n r w /\ (w - r) mod n + 1 < n.

Lemma header_wr_other has_soccp (q : hw_fence_queue) v off :
  write_ptr has_soccp q <> off ->
  header_field (q <| q_va_header ::= fmap (zset (write_ptr has_soccp q) v) |>) off
  = header_field q off.
Proof.
  intros Hne. unfold header_field. simpl. destruct (q_va_header q); [|done]. simpl.
  by apply zget_zset_ne.
Qed.

Lemma header_wr_same has_soccp (q : hw_fence_queue) v v0 :
  header_field q (write_ptr has_soccp q) = Some v0 ->
  header_field (q <| q_va_header ::= fmap (zset (write_ptr has_soccp q) v) |>)
    (write_ptr has_soccp q) = Some v.
Proof.
  unfold header_field. simpl. destruct (q_va_header q); [|done]. simpl.
  intros H. apply zget_zset_eq. by eapply zget_Some.
Qed.

Lemma queue_shape_enqueued has_soccp q n r l p :
  queue_repr has_soccp q n r l -> queue_shape has_soccp q n r ((r + zlen l) mod n) ->
  queue_shape has_soccp (enqueued has_soccp q n r l p) n r (((r + zlen l) mod n + 1) mod n).
Proof.
  intros Hq [Hn Hr Hw Hsize Hmem Hidx Hrd Hwr (v & Hv & Hhw)].
  pose proof (slot_bounds n ((r + zlen l) mod n + 1) ltac:(lia)) as Hw'.
  set (w := (r + zlen l) mod n) in *.
  set (q' := q <| q_va_header ::= fmap (zset (write_ptr has_soccp q)
                                         (custom_idx q (16 * ((w + 1) mod n)))) |>).
  assert (forall off, header_field (enqueued has_soccp q n r l p) off = header_field q' off) as Eh
    by done.
  split; try done; rewrite ?Eh; unfold enqueued; simpl.
  - unfold zlen. by rewrite length_store.
  - unfold q'. rewrite header_wr_other; [done|]. apply not_eq_sym, read_write_ptr_ne.
  - exact (header_wr_same has_soccp q _ _ Hwr).
  - destruct (decide (hw_write_ptr has_soccp = write_ptr has_soccp q)) as [E|E].
    + exists ((w + 1) mod n). split; [done|]. rewrite E. exact (header_wr_same has_soccp q _ _ Hwr).
    + exists v. split; [done|]. unfold q'. by rewrite header_wr_other by congruence.
Qed.

(** A write by the driver returns, 0 when the message fits and [-EINVAL] when it
    does not, and keeps the queue workable. *)
Lemma update_queue_ok has_soccp q ty c s h f d e t :
  queue_ok has_soccp q ->
  exists r q', update_queue_locked has_soccp ty c s h f d e t q = Done r q' /\
    queue_ok has_soccp q' /\ q_skip_wr_idx q' = q_skip_wr_idx q /\
    ((has_room has_soccp q /\ r = 0) \/ (~ has_room has_soccp q /\ r = - EINVAL /\ q' = q)).
Proof.
  intros (n & r & w & Hs). pose proof (queue_shape_repr _ _ _ _ _ Hs) as Hq.
  pose proof (qs_n _ _ _ _ _ Hs) as Hn. pose proof (qs_w _ _ _ _ _ Hs) as Hw.
  pose proof (slot_bounds n (w - r) ltac:(lia)) as Hl.
  set (l := contents q n r ((w - r) mod n)) in *.
  assert (zlen l = (w - r) mod n) as El by (apply zlen_contents; lia).
  assert ((r + zlen l) mod n = w) as Ew.
  { rewrite El, Zplus_mod_idemp_r. replace (r + (w - r)) with w by lia. by rewrite Z.mod_small. }
  destruct (decide (zlen l + 1 < n)) as [Hroom|Hfull].
  - destruct (update_queue_room _ _ _ _ _ ty c s h f d e t Hq Hroom) as [rsv E].
    do 2 eexists. split; [done|]. split.
    + do 3 eexists. apply queue_shape_enqueued; [done|]. by rewrite Ew.
    + split; [done|]. left. split; [|done]. exists n, r, w. by rewrite <- El.
  - do 2 eexists. split; [apply (update_queue_full _ _ _ _ _ ty c s h f d e t Hq); lia|].
    split; [by exists n, r, w|]. split; [done|]. right. split; [|done].
    intros (n' & r' & w' & Hs' & Hroom).
    assert (n' = n) as ->.
    { pose proof (qs_size _ _ _ _ _ Hs). pose proof (qs_size _ _ _ _ _ Hs'). lia. }
    assert (r' = r) as ->.
    { apply (custom_idx_inj q n); [apply Hs|apply Hs'|apply Hs|].
      pose proof (qs_rd _ _ _ _ _ Hs). pose proof (qs_rd _ _ _ _ _ Hs'). congruence. }
    assert (w' = w) as ->.
    { apply (custom_idx_inj q n); [apply Hs|apply Hs'|apply Hs|].
      pose proof (qs_wr _ _ _ _ _ Hs). pose proof (qs_wr _ _ _ _ _ Hs'). congruence. }
    lia.
Qed.

(** The test itself: whether a write is accepted does not depend on the message. *)
Definition accepts (has_soccp : bool) (q : hw_fence_queue) : bool :=
  match update_queue_locked has_soccp 0 0 0 0 0 0 0 0 q with
  | Done r _ => r =? 0
  | Faulted _ => false
  end.

Lemma accepts_run has_soccp q ty c s h f d e t :
  queue_ok has_soccp q ->
  exists q', update_queue_locked has_soccp ty c s h f d e t q
             = Done (if accepts has_soccp q then 0 else - EINVAL) q' /\
    queue_ok has_soccp q' /\ q_skip_wr_idx q' = q_skip_wr_idx q /\
    (accepts has_soccp q = false -> q' = q).
Proof.
  intros Hq. destruct (update_queue_ok _ _ 0 0 0 0 0 0 0 0 Hq) as (r0 & q0 & E0 & _ & _ & H0).
  destruct (update_queue_ok _ _ ty c s h f d e t Hq) as (r & q' & E & Hok & Hsk & H).
  exists q'. unfold accepts. rewrite E0, E.
  destruct H0 as [[? ->]|(? & -> & _)], H as [[? ->]|(? & -> & ?)]; done.
Qed.

(** Every pending message is dropped: the two indices meet. *)
Definition queue_drained (has_soccp : bool) (q : hw_fence_queue) : Prop :=
  exists n v, queue_shape has_soccp q n v v.

Lemma drained_ok has_soccp q : queue_drained has_soccp q -> queue_ok has_soccp q.
Proof. intros (n & v & H). by exists n, v, v. Qed.

Lemma drained_contents has_soccp q :
  queue_drained has_soccp q -> exists n r, queue_repr has_soccp q n r [].
Proof.
  intros (n & v & H). exists n, v. pose proof (queue_shape_repr _ _ _ _ _ H) as Hq.
  by rewrite Z.sub_diag in Hq.
Qed.

Lemma zset_lookup_other {A} (i j : Z) (x : A) l y :
  i <> j -> zget l j = Some y -> zget (zset i x l) j = Some y.
Proof. intros. by rewrite zget_zset_ne. Qed.

Lemma zset_lookup_same {A} (i : Z) (x y : A) l : zget l i = Some y -> zget (zset i x l) i = Some x.
Proof. intros H. apply zget_zset_eq. by eapply zget_Some. Qed.

Lemma reset_txq_ok has_soccp q :
  queue_ok has_soccp q ->
  exists q', reset_txq has_soccp q = Done tt q' /\ queue_drained has_soccp q' /\
    q_skip_wr_idx q' = q_skip_wr_idx q.
Proof.
  intros (n & r & w & [Hn Hr Hw Hsize Hmem Hidx Hrd Hwr (v & Hv & Hhw)]).
  unfold header_field in *. destruct (q_va_header q) as [hdr|] eqn:Eh; [|done]. simpl in *.
  unfold read_ptr, write_ptr, hw_write_ptr in *.
  assert (is_Some (zget hdr 7) \/ q_skip_wr_idx q = false) as Hwm.
  { destruct has_soccp, (q_skip_wr_idx q); simpl in Hwr; eauto. }
  unfold reset_txq, read_header, write_header, bind, get, put, ret, deref.
  destruct (q_skip_wr_idx q) eqn:Esk; destruct has_soccp; simpl in *; rewrite Eh; simpl; rewrite Hhw; simpl;
    repeat (rewrite ?Eh; simpl);
    rewrite ?Hwr; simpl;
    try (erewrite (zset_lookup_other 7 16) by (done || lia));
    try (erewrite (zset_lookup_other 7 12) by (done || lia));
    rewrite ?Hrd; simpl;
    (eexists; split; [done|split; [|by rewrite ?Esk]]; exists n, v; split; try done; simpl;
     unfold header_field, write_ptr, read_ptr, hw_write_ptr; simpl; rewrite ?Esk; simpl;
     try (exists v; split; [done|]);
     rewrite ?zget_zset_ne by lia; try done;
     try (by eapply zset_lookup_same; rewrite ?zget_zset_ne by lia)).
Qed.

Lemma reset_rxq_ok has_soccp q :
  queue_ok has_soccp q -> q_skip_wr_idx q = false ->
  exists q', reset_rxq has_soccp q = Done tt q' /\ queue_drained has_soccp q' /\
    q_skip_wr_idx q' = q_skip_wr_idx q.
Proof.
  intros (n & r & w & [Hn Hr Hw Hsize Hmem Hidx Hrd Hwr (v & Hv & Hhw)]) Hskip.
  unfold header_field in *. destruct (q_va_header q) as [hdr|] eqn:Eh; [|done]. simpl in *.
  unfold read_ptr, write_ptr, hw_write_ptr in *. rewrite Hskip in Hwr.
  unfold reset_rxq, read_header, write_header, bind, get, put, ret, deref.
  destruct has_soccp; simpl in *; rewrite Eh; simpl; rewrite Hrd; simpl; rewrite ?Eh; simpl; rewrite Hwr; simpl;
    (eexists; split; [done|split; [|by rewrite ?Hskip]]; exists n, r; split; try done; simpl;
     unfold header_field, write_ptr, read_ptr, hw_write_ptr; simpl; rewrite ?Hskip; simpl;
     try (exists r; split; [done|]);
     rewrite ?zget_zset_ne by lia; try done;
     try (by eapply zset_lookup_same; rewrite ?zget_zset_ne by lia)).
Qed.

(** ** A queue with a message pending *)

Definition example_queue1 : hw_fence_queue :=
  enqueued true example_queue 3 0 [] (new_payload 1 7 9 5 0 0 0 0 0).

Lemma example_queue1_repr :
  queue_repr true example_queue1 3 0 [new_payload 1 7 9 5 0 0 0 0 0].
Proof.
  apply (queue_repr_enqueued true example_queue 3 0 []); [apply example_queue_repr|done|].
  repeat split; vm_compute; congruence.
Qed.

Lemma update_existing_moves_to_head_witness :
  wp (hw_fence_update_existing_txq_payload true (Z.lor 5 SYNX_HW_FENCE_HANDLE_FLAG) 4)
     (fun res q' => res = 0 /\
        queue_repr true q' 3 0 [(new_payload 1 7 9 5 0 0 0 0 0) <| pl_error := 4 |>])
     example_queue1.
Proof.
  apply (update_existing_moves_to_head true example_queue1 3 0 [new_payload 1 7 9 5 0 0 0 0 0]
           (Z.lor 5 SYNX_HW_FENCE_HANDLE_FLAG) 4).
  - apply example_queue1_repr.
  - repeat constructor; vm_compute; congruence.
Defined.
