(* ===== verification/HwFenceTable.v ===== *)
(** * The hardware-fence table

    [src/hw_fence_drv_priv.c] (hash, probing iterator, lookup, creation,
    reference counts) and [global_atomic_store] of [src/hw_fence_drv_utils.c].
    The table is an open-addressing hash table in shared memory; a
    [struct msm_hw_fence *] is the index of the entry. *)
From S2P Require Import Prelude HwFenceTypes.
From Stdlib Require Import Lia.

(** ** Inter-processor locks ([hw_fence_drv_utils.c])

    The assembly works on the low 32 bits of the lock word. *)

Definition HW_FENCE_FCTL_LOCK_VALUE : Z := BIT 1.

Definition lock_lo (w : Z) : Z := w mod 2 ^ 32.

Definition with_lo (w lo : Z) : Z := w / 2 ^ 32 * 2 ^ 32 + lo.

(** [_lock]: waits for zero, then stores BIT0; [None] when it waits for ever. *)
Definition _lock (w : Z) : option Z := if lock_lo w =? 0 then Some (with_lo w 1) else None.

Definition _unlock_vm (w : Z) : Z := with_lo w (clear (lock_lo w) 1).

Definition _unlock_soccp (w : Z) : Z := with_lo w 0.

(** The locks of the driver: one per table entry, one per client Rx queue. *)
Inductive lock_ref := FenceLock (i : Z) | ClientLock (lock_idx : Z).

Definition read_lock (l : lock_ref) : DRV Z :=
  match l with
  | FenceLock i => f <-- get_fence i; ret (hf_lock f)
  | ClientLock i => d <-- get; deref (zget (dd_client_lock_tbl d) i)
  end.

Definition write_lock (l : lock_ref) (w : Z) : DRV unit :=
  match l with
  | FenceLock i => update_fence i (fun f => f <| hf_lock := w |>)
  | ClientLock i => modifyM (fun d => d <| dd_client_lock_tbl ::= zset i w |>)
  end.

(** [hw_fence_ipcc_trigger_signal]: one register write. *)
Definition hw_fence_ipcc_trigger_signal (tx_client_pid rx_client_vid signal_id : Z) : DRV unit :=
  log_event (EvIpc tx_client_pid rx_client_vid signal_id).

Definition global_atomic_store (l : lock_ref) (val : bool) : DRV unit :=
  if val then
    w <-- read_lock l;
    match _lock w with
    | Some w' => write_lock l w'
    | None => raise Deadlock
    end
  else
    d <-- get;
    w <-- read_lock l;
    if dd_has_soccp d then write_lock l (_unlock_soccp w)
    else
      let lock_val := _unlock_vm w in
      write_lock l lock_val;;;
      when flag lock_val HW_FENCE_FCTL_LOCK_VALUE do (
        modifyM (fun d => d <| dd_lock_wake_cnt ::= fun c => u64 (c + 1) |>);;;
        hw_fence_ipcc_trigger_signal (dd_ipcc_client_pid d) (dd_ipcc_fctl_vid d) 30).

#[global] Arguments global_atomic_store : simpl never.

Definition lock_fence (i : Z) : DRV unit := global_atomic_store (FenceLock i) true.

Definition unlock_fence (i : Z) : DRV unit := global_atomic_store (FenceLock i) false.

(** ** Hash and probing *)

(** All products and sums are modulo 2^64; the result is returned as [int] and
    stored in a [u64]. *)
Definition _calculate_hash (context seqno m_size : Z) : Z :=
  let b_multiplier := u64 (context + (context - 1)) in
  u64 (i32 (u64 (HW_FENCE_HASH_A_MULT * seqno * b_multiplier
                 + HW_FENCE_HASH_C_MULT * context) mod m_size)).

Definition _get_hw_fence (table_total_entries hash : Z) : option Z :=
  if table_total_entries <=? hash then None else Some hash.

(** Returns the entry, its index and the new step; the entry comes locked. *)
Definition _hw_fence_lookup_next (hash init_step incr m_size : Z) : DRV (Z * Z) :=
  let hash := u64 (hash + incr) mod m_size in
  match _get_hw_fence m_size hash with
  | None => ret (hash, m_size)
  | Some hw_fence =>
      global_atomic_store (FenceLock hw_fence) true;;;
      ret (hash, init_step + incr)
  end.

(** [None] for the index when the arguments are refused and no entry was
    selected. *)
Definition _hw_fence_iterator_init (context seqno start_step end_step : Z)
  : DRV (option Z * Z) :=
  d <-- get;
  if (end_step <=? start_step) || (dd_hw_fences_tbl_cnt d <? end_step) then
    ret (None, end_step)
  else
    let m_size := dd_hw_fences_tbl_cnt d in
    out <-- _hw_fence_lookup_next (_calculate_hash context seqno m_size) 0 start_step m_size;
    ret (Some out.1, out.2).

Definition _hw_fence_iterator_next (hash curr_step end_step : Z) (found : bool)
  : DRV (Z * Z) :=
  d <-- get;
  let m_size := dd_hw_fences_tbl_cnt d in
  global_atomic_store (FenceLock hash) false;;;
  if (end_step <=? curr_step + 1) || found then
    ret (hash, if found then curr_step else curr_step + 1)
  else _hw_fence_lookup_next hash curr_step 1 m_size.

(** The [for] of [for_each_hw_fence], from its condition on: the body says
    whether the entry was found and updates [ret]. *)
Fixpoint hw_fence_loop (fuel : nat) (body : Z -> DRV (bool * Z)) (hash i end_step : Z)
    (found : bool) (res : Z) : DRV (bool * Z * Z) :=
  if (i <? end_step) && negb found then
    match fuel with
    | O => raise OutOfFuel
    | S fuel' =>
        out <-- body hash;
        let '(found', ret') := out in
        let res := if found' then ret' else res in
        nxt <-- _hw_fence_iterator_next hash i end_step found';
        let '(hash', i') := nxt in
        hw_fence_loop fuel' body hash' i' end_step found' res
    end
  else ret (found, res, hash).

(** [for_each_hw_fence] followed by the test of [hw_fence_found] and [ret]:
    the entry found and the last index probed ([*hash]).  [*hash] is the
    caller's when no entry was selected. *)
Definition for_each_hw_fence (body : Z -> DRV (bool * Z)) (context seqno hash0 : Z)
    (start_step end_step : Z) : DRV (bool * Z * Z) :=
  hw_fence_found <-- uninit_bool;
  out <-- _hw_fence_iterator_init context seqno start_step end_step;
  match out with
  | (None, _) => if hw_fence_found then raise BadAccess else ret (false, 0, hash0)
  | (Some hash, i) =>
      hw_fence_loop (Z.to_nat (end_step - start_step)) body hash i end_step hw_fence_found 0
  end.

Definition _hw_fence_match (hw_fence : msm_hw_fence) (hash context seqno hlos_key : Z)
  : DRV bool :=
  d <-- get;
  if (hf_ctx_id hw_fence =? context) && (hf_seq_id hw_fence =? seqno) then
    k <-- deref (zget (dd_hlos_key_tbl d) hash);
    ret (k =? hlos_key)
  else ret false.

(** ** Entries and reference counts *)

(** Everything but [valid] (and the lock). *)
Definition _cleanup_hw_fence (f : msm_hw_fence) : msm_hw_fence :=
  f <| hf_error := 0 |> <| hf_ctx_id := 0 |> <| hf_seq_id := 0 |>
    <| hf_wait_client_mask := 0 |> <| hf_fence_allocator := 0 |>
    <| hf_fence_signal_client := 0 |> <| hf_flags := 0 |>
    <| hf_fence_create_time := 0 |> <| hf_fence_trigger_time := 0 |>
    <| hf_fence_wait_time := 0 |> <| hf_refcount := 0 |> <| hf_parents_cnt := 0 |>
    <| hf_pending_child_cnt := 0 |> <| hf_h_synx := 0 |>
    <| hf_parent_list := replicate (Z.to_nat MSM_HW_FENCE_MAX_JOIN_PARENTS)
                           HW_FENCE_INVALID_PARENT_FENCE |>
    <| hf_client_data ::= fmap (fun _ => 0) |>.

Definition set_hlos_key (hash key : Z) : DRV unit :=
  modifyM (fun d => d <| dd_hlos_key_tbl ::= zset hash key |>).

Definition _unreserve_hw_fence (hash : Z) : DRV Z :=
  f <-- get_fence hash;
  if flag (hf_refcount f) HW_FENCE_HLOS_REFCOUNT_MASK then
    update_fence hash (fun f => f <| hf_refcount ::= fun r => u32 (r - 1) |>);;;
    f <-- get_fence hash;
    when hf_refcount f =? 0 do (
      update_fence hash _cleanup_hw_fence;;;
      update_fence hash (fun f => f <| hf_valid := 0 |>);;;
      set_hlos_key hash 0);;;
    ret 0
  else ret (- EINVAL).

Definition hw_fence_destroy_refcount (hash ref : Z) : DRV Z :=
  d <-- get;
  match _get_hw_fence (dd_hw_fence_table_entries d) hash with
  | None => ret (- EINVAL)
  | Some hw_fence =>
      global_atomic_store (FenceLock hw_fence) true;;;
      f <-- get_fence hw_fence;
      if flag (hf_refcount f) ref then
        update_fence hw_fence (fun f => f <| hf_refcount ::= fun r => clear r ref |>);;;
        f <-- get_fence hw_fence;
        when hf_refcount f =? 0 do (
          update_fence hw_fence _cleanup_hw_fence;;;
          update_fence hw_fence (fun f => f <| hf_valid := 0 |>));;;
        global_atomic_store (FenceLock hw_fence) false;;;
        ret 0
      else
        global_atomic_store (FenceLock hw_fence) false;;;
        ret (- EINVAL)
  end.

Definition _reserve_hw_fence (client_id context seqno hash pending_child_cnt hlos_key : Z)
  : DRV Z :=
  update_fence hash _cleanup_hw_fence;;;
  t <-- hw_fence_get_qtime;
  update_fence hash (fun f => f
    <| hf_valid := 1 |> <| hf_ctx_id := context |> <| hf_seq_id := seqno |>
    <| hf_fence_allocator := client_id |> <| hf_fence_create_time := t |>
    <| hf_refcount := u32 (HW_FENCE_FCTL_REFCOUNT + 1) |>
    <| hf_pending_child_cnt := pending_child_cnt |>);;;
  set_hlos_key hash hlos_key;;;
  ret 0.

Definition _fence_found (hash : Z) : DRV Z :=
  f <-- get_fence hash;
  if Z.land (hf_refcount f) HW_FENCE_HLOS_REFCOUNT_MASK =? HW_FENCE_HLOS_REFCOUNT_MASK
  then ret (- EINVAL)
  else update_fence hash (fun f => f <| hf_refcount ::= fun r => u32 (r + 1) |>);;; ret 0.

(** ** Lookup and creation

    Each returns the entry, [None] for [NULL], and [*hash]. *)

Definition create_body (client_id hlos_key context seqno pending_child_cnt flags : Z)
    (hash : Z) : DRV (bool * Z) :=
  f <-- get_fence hash;
  if hf_valid f =? 0 then
    r <-- _reserve_hw_fence client_id context seqno hash pending_child_cnt hlos_key;
    ret (true, r)
  else
    m <-- _hw_fence_match f hash context seqno hlos_key;
    if m : bool then
      r <-- (if flag flags MSM_HW_FENCE_FLAG_CREATE_SIGNALED then _fence_found hash
             else ret (- EALREADY));
      ret (true, r)
    else ret (false, 0).

Definition process_body (process_fn : Z -> DRV Z) (hlos_key context seqno hash : Z)
  : DRV (bool * Z) :=
  f <-- get_fence hash;
  m <-- _hw_fence_match f hash context seqno hlos_key;
  if m : bool then r <-- process_fn hash; ret (true, r)
  else ret (false, 0).

Definition lookup_result (out : bool * Z * Z) : option Z * Z :=
  let '(found, res, hash) := out in
  (if negb found || negb (res =? 0) then None else Some hash, hash).

Definition _hw_fence_lookup_and_create_range
    (client_id hlos_key context seqno pending_child_cnt hash0 start_step end_step flags : Z)
  : DRV (option Z * Z) :=
  out <-- for_each_hw_fence
            (create_body client_id hlos_key context seqno pending_child_cnt flags)
            context seqno hash0 start_step end_step;
  ret (lookup_result out).

Definition _hw_fence_lookup_and_create
    (client_id hlos_key context seqno pending_child_cnt hash0 : Z) : DRV (option Z * Z) :=
  d <-- get;
  _hw_fence_lookup_and_create_range client_id hlos_key context seqno pending_child_cnt hash0
    0 (dd_hw_fences_tbl_cnt d) 0.

Definition _hw_fence_lookup_and_process_range
    (hlos_key context seqno hash0 start_step end_step : Z) (process_fn : Z -> DRV Z)
  : DRV (option Z * Z) :=
  out <-- for_each_hw_fence (process_body process_fn hlos_key context seqno)
            context seqno hash0 start_step end_step;
  ret (lookup_result out).

Definition _hw_fence_lookup_and_process (hlos_key context seqno hash0 : Z)
    (process_fn : Z -> DRV Z) : DRV (option Z * Z) :=
  d <-- get;
  _hw_fence_lookup_and_process_range hlos_key context seqno hash0 0
    (dd_hw_fences_tbl_cnt d) process_fn.

(** [msm_hw_fence_find]: takes a reference on the entry it returns. *)
Definition msm_hw_fence_find (hlos_key context seqno hash0 : Z) : DRV (option Z * Z) :=
  _hw_fence_lookup_and_process hlos_key context seqno hash0 _fence_found.

(** [hw_fence_destroy]: drops one reference of the fence with this key. *)
Definition hw_fence_destroy (hlos_key context seqno : Z) : DRV Z :=
  out <-- _hw_fence_lookup_and_process hlos_key context seqno 0 _unreserve_hw_fence;
  ret (match out.1 with Some _ => 0 | None => - EINVAL end).

(** * Properties *)

(** ** Running the primitives *)

Definition put_fence (i : Z) (f : msm_hw_fence) (d : driver_data) : driver_data :=
  d <| dd_hw_fences_tbl ::= zset i f |>.

Definition fence_at (d : driver_data) (i : Z) : option msm_hw_fence := zget (dd_hw_fences_tbl d) i.

Definition with_lock (lo : Z) (f : msm_hw_fence) : msm_hw_fence :=
  f <| hf_lock ::= fun w => with_lo w lo |>.

(** Free and held entries, as the lock protocol sees them. *)
Definition lock_free (f : msm_hw_fence) : Prop := lock_lo (hf_lock f) = 0.

Definition lock_held (f : msm_hw_fence) : Prop := lock_lo (hf_lock f) = 1.

Lemma with_lo_lo w lo : 0 <= lo < 2 ^ 32 -> lock_lo (with_lo w lo) = lo.
Proof.
  intros. unfold lock_lo, with_lo. rewrite Z.add_comm, Z.mod_add by lia. by apply Z.mod_small.
Qed.

Lemma with_lo_with_lo w a b : 0 <= a < 2 ^ 32 -> with_lo (with_lo w a) b = with_lo w b.
Proof.
  intros. unfold with_lo. rewrite Z.div_add_l by lia. rewrite (Z.div_small a) by done.
  by rewrite Z.add_0_r.
Qed.

Lemma with_lo_id w : lock_lo w = 0 -> with_lo w 0 = w.
Proof. unfold lock_lo, with_lo. intros. pose proof (Z.div_mod w (2 ^ 32) ltac:(lia)). lia. Qed.

Lemma with_lo_bit1 w : flag (with_lo w 0) HW_FENCE_FCTL_LOCK_VALUE = false.
Proof.
  unfold HW_FENCE_FCTL_LOCK_VALUE. rewrite flag_BIT by lia. unfold with_lo.
  rewrite Z.add_0_r. rewrite Z.mul_pow2_bits_low by lia. done.
Qed.

Lemma with_lock_held f : lock_held (with_lock 1 f).
Proof. unfold lock_held, with_lock. simpl. apply with_lo_lo. lia. Qed.

Lemma with_lock_free f : lock_free (with_lock 0 f).
Proof. unfold lock_free, with_lock. simpl. apply with_lo_lo. lia. Qed.

Lemma with_lock_unlock f : lock_free f -> with_lock 0 (with_lock 1 f) = f.
Proof.
  unfold lock_free, with_lock. destruct f. simpl. intros.
  rewrite with_lo_with_lo by lia. by rewrite with_lo_id.
Qed.

Lemma fence_at_bounds d i f : fence_at d i = Some f -> 0 <= i < zlen (dd_hw_fences_tbl d).
Proof. apply zget_Some. Qed.

Lemma fence_at_put_eq d i f f0 : fence_at d i = Some f0 -> fence_at (put_fence i f d) i = Some f.
Proof. intros. unfold fence_at, put_fence. simpl. apply zget_zset_eq. by eapply zget_Some. Qed.

Lemma fence_at_put_ne d i j f : i <> j -> fence_at (put_fence i f d) j = fence_at d j.
Proof. intros. unfold fence_at, put_fence. simpl. by apply zget_zset_ne. Qed.

Lemma put_put d i f g : put_fence i f (put_fence i g d) = put_fence i f d.
Proof. unfold put_fence. simpl. by rewrite zset_zset. Qed.

Lemma put_fence_id d i f : fence_at d i = Some f -> put_fence i f d = d.
Proof. unfold fence_at, put_fence. intros. destruct d. simpl in *. by rewrite zset_id. Qed.

Lemma get_fence_run d i f : fence_at d i = Some f -> get_fence i d = Done f d.
Proof. unfold fence_at, get_fence, bind, get. by intros ->. Qed.

Lemma update_fence_run d i f g :
  fence_at d i = Some f -> update_fence i g d = Done tt (put_fence i (g f) d).
Proof. intros E. unfold update_fence, bind. by rewrite (get_fence_run _ _ _ E). Qed.

Lemma lock_fence_run d i f :
  fence_at d i = Some f -> lock_free f ->
  global_atomic_store (FenceLock i) true d = Done tt (put_fence i (with_lock 1 f) d).
Proof.
  intros E Hf. unfold global_atomic_store, read_lock, bind. rewrite (get_fence_run _ _ _ E).
  simpl. unfold ret, _lock. rewrite Hf. simpl. by rewrite (update_fence_run _ _ _ _ E).
Qed.

Lemma unlock_fence_run d i f :
  fence_at d i = Some f -> lock_held f ->
  global_atomic_store (FenceLock i) false d = Done tt (put_fence i (with_lock 0 f) d).
Proof.
  intros E Hf. unfold global_atomic_store, read_lock, bind, get. simpl. unfold bind.
  rewrite (get_fence_run _ _ _ E). simpl. destruct (dd_has_soccp d).
  - by rewrite (update_fence_run _ _ _ _ E).
  - assert (_unlock_vm (hf_lock f) = with_lo (hf_lock f) 0) as ->
      by (unfold _unlock_vm; by rewrite Hf).
    rewrite (update_fence_run _ _ _ _ E). by rewrite with_lo_bit1.
Qed.

(** A held or foreign lock word blocks the driver for ever. *)
Lemma lock_fence_blocked d i f :
  fence_at d i = Some f -> ~ lock_free f ->
  global_atomic_store (FenceLock i) true d = Faulted Deadlock.
Proof.
  intros E Hf. unfold global_atomic_store, read_lock, bind. rewrite (get_fence_run _ _ _ E).
  simpl. unfold _lock. destruct (Z.eqb_spec (lock_lo (hf_lock f)) 0); [by destruct Hf|done].
Qed.

(** ** Well-formed tables *)

(** The invariant [init_hw_fences_table] establishes: the table, the key table
    and the two counts agree, and an index fits an [int]. *)
Record table_wf (d : driver_data) : Prop := {
  tw_cnt : 0 < dd_hw_fences_tbl_cnt d < 2 ^ 31;
  tw_tbl : zlen (dd_hw_fences_tbl d) = dd_hw_fences_tbl_cnt d;
  tw_key : zlen (dd_hlos_key_tbl d) = dd_hw_fences_tbl_cnt d;
  tw_entries : dd_hw_fence_table_entries d = dd_hw_fences_tbl_cnt d }.

(** No entry is locked. *)
Definition unlocked (d : driver_data) : Prop :=
  forall i f, fence_at d i = Some f -> lock_free f.

(** The kernel is built to clear automatic variables
    ([CONFIG_INIT_STACK_ALL_ZERO], the default of the kernels this driver is
    built for), so an uninitialised [bool] reads as [false]. *)
Definition stack_zeroed (d : driver_data) : Prop :=
  forall n, env_stack_bool (dd_env d) n = false.

Lemma table_wf_put d i f : table_wf d -> table_wf (put_fence i f d).
Proof. intros [? ? ? ?]. split; simpl; rewrite ?zlen_zset; done. Qed.

Lemma unlocked_put d i f : unlocked d -> lock_free f -> unlocked (put_fence i f d).
Proof.
  intros Hu Hf j g. unfold fence_at, put_fence. simpl. rewrite zget_zset.
  case_decide; [by intros [= <-]|apply Hu].
Qed.

Lemma fence_at_is_Some d i :
  table_wf d -> 0 <= i < dd_hw_fences_tbl_cnt d -> exists f, fence_at d i = Some f.
Proof. intros Hwf Hi. apply zget_is_Some. by rewrite (tw_tbl _ Hwf). Qed.

#[export] Hint Resolve table_wf_put with_lock_held with_lock_free : fence.

(** ** The probe sequence *)

Definition probe (d : driver_data) (context seqno k : Z) : Z :=
  (_calculate_hash context seqno (dd_hw_fences_tbl_cnt d) + k) mod dd_hw_fences_tbl_cnt d.

Lemma calculate_hash_range c s m : 0 < m < 2 ^ 31 -> 0 <= _calculate_hash c s m < m.
Proof.
  intros Hm. unfold _calculate_hash.
  match goal with |- context [?x mod m] =>
    match x with u64 _ => pose proof (Z.mod_pos_bound x m ltac:(lia)) as Hx end end.
  unfold i32. rewrite (Z.mod_small (_ + 2 ^ 31)) by lia.
  rewrite u64_id by (unfold in_u64; lia). lia.
Qed.

Lemma probe_range d c s k : table_wf d -> 0 <= probe d c s k < dd_hw_fences_tbl_cnt d.
Proof. intros [Hm _ _ _]. apply Z.mod_pos_bound. lia. Qed.

Lemma probe_succ d c s k :
  table_wf d -> u64 (probe d c s k + 1) mod dd_hw_fences_tbl_cnt d = probe d c s (k + 1).
Proof.
  intros Hwf. pose proof (probe_range d c s k Hwf) as Hr. destruct Hwf as [Hm _ _ _].
  rewrite u64_id by (unfold in_u64; lia). unfold probe.
  by rewrite Zplus_mod_idemp_l, Z.add_assoc.
Qed.

#[export] Hint Resolve probe_range : fence.

(** Two probes of one sweep never meet. *)
Lemma probe_inj d c s j k :
  table_wf d -> 0 <= j < dd_hw_fences_tbl_cnt d -> 0 <= k < dd_hw_fences_tbl_cnt d ->
  probe d c s j = probe d c s k -> j = k.
Proof.
  intros [Hm _ _ _] Hj Hk E. unfold probe in E.
  set (h := _calculate_hash _ _ _) in *. set (m := dd_hw_fences_tbl_cnt d) in *.
  assert ((j - k) mod m = 0) as E'.
  { replace (j - k) with ((h + j) - (h + k)) by lia. by rewrite Zminus_mod, E, Z.sub_diag. }
  apply Z.mod_divide in E' as [c' Hc]; [|lia]. assert (c' = 0) by nia. lia.
Qed.

(** A full sweep reaches every entry. *)
Lemma probe_surj d c s i :
  table_wf d -> 0 <= i < dd_hw_fences_tbl_cnt d ->
  exists k, 0 <= k < dd_hw_fences_tbl_cnt d /\ probe d c s k = i.
Proof.
  intros [Hm _ _ _] Hi. exists ((i - _calculate_hash c s (dd_hw_fences_tbl_cnt d))
                                  mod dd_hw_fences_tbl_cnt d).
  split; [apply Z.mod_pos_bound; lia|]. unfold probe.
  rewrite Zplus_mod_idemp_r. replace (_ + (i - _)) with i by lia. by apply Z.mod_small.
Qed.

(** ** The probing loop

    The loop is run on a body that, on the entries that are not a [hit],
    returns [false] and leaves the state alone, and on a hit returns [true]
    after doing [act]. *)

(** The state in which the loop looks at entry [i]: nothing but its lock. *)
Definition locked_at (i : Z) (d : driver_data) : driver_data :=
  match fence_at d i with
  | Some f => put_fence i (with_lock 1 f) d
  | None => d
  end.

(** The first step in [[i, i + n)] whose probe is a hit. *)
Fixpoint first_hit (pr : Z -> Z) (hit : Z -> bool) (n : nat) (i : Z) : option Z :=
  match n with
  | O => None
  | S n' => if hit (pr i) then Some i else first_hit pr hit n' (i + 1)
  end.

Lemma first_hit_Some pr hit n i k :
  first_hit pr hit n i = Some k ->
  i <= k < i + Z.of_nat n /\ hit (pr k) = true /\ forall j, i <= j < k -> hit (pr j) = false.
Proof.
  revert i. induction n as [|n IH]; intros i; simpl; [done|].
  destruct (hit (pr i)) eqn:E.
  - intros [= <-]. split; [lia|]. split; [done|]. lia.
  - intros H. destruct (IH _ H) as (H1 & H2 & H3). split; [lia|]. split; [done|].
    intros j Hj. destruct (decide (j = i)) as [->|]; [done|]. apply H3. lia.
Qed.

Lemma first_hit_None pr hit n i :
  first_hit pr hit n i = None -> forall j, i <= j < i + Z.of_nat n -> hit (pr j) = false.
Proof.
  revert i. induction n as [|n IH]; intros i; simpl; [lia|].
  destruct (hit (pr i)) eqn:E; [done|]. intros H j Hj.
  destruct (decide (j = i)) as [->|]; [done|]. apply (IH _ H). lia.
Qed.

Lemma first_hit_complete pr hit n i k :
  i <= k < i + Z.of_nat n -> hit (pr k) = true ->
  (forall j, i <= j < k -> hit (pr j) = false) -> first_hit pr hit n i = Some k.
Proof.
  revert i. induction n as [|n IH]; intros i Hk Hhit Hbefore; simpl; [lia|].
  destruct (decide (i = k)) as [->|]; [by rewrite Hhit|].
  rewrite Hbefore by lia. apply IH; [lia|done|]. intros. apply Hbefore. lia.
Qed.

Lemma locked_at_run d i f :
  fence_at d i = Some f -> lock_free f ->
  global_atomic_store (FenceLock i) true d = Done tt (locked_at i d).
Proof. intros E Hf. unfold locked_at. rewrite E. by apply lock_fence_run. Qed.

Lemma locked_at_unlock d i f :
  fence_at d i = Some f -> lock_free f ->
  global_atomic_store (FenceLock i) false (locked_at i d) = Done tt d.
Proof.
  intros E Hf. unfold locked_at. rewrite E.
  erewrite unlock_fence_run; [|by eapply fence_at_put_eq|apply with_lock_held].
  by rewrite put_put, with_lock_unlock, put_fence_id.
Qed.

Lemma locked_at_fence d i f :
  fence_at d i = Some f -> fence_at (locked_at i d) i = Some (with_lock 1 f).
Proof. intros E. unfold locked_at. rewrite E. by eapply fence_at_put_eq. Qed.

Lemma locked_at_cnt d i : dd_hw_fences_tbl_cnt (locked_at i d) = dd_hw_fences_tbl_cnt d.
Proof. unfold locked_at. by case_match. Qed.

Lemma locked_at_keys d i : dd_hlos_key_tbl (locked_at i d) = dd_hlos_key_tbl d.
Proof. unfold locked_at. by case_match. Qed.

#[export] Hint Rewrite locked_at_cnt locked_at_keys : fence.

Section loop.
Context (d : driver_data) (context seqno : Z).
Context (body : Z -> DRV (bool * Z)) (hit : Z -> bool) (act : Z -> DRV Z).
Context (Hwf : table_wf d) (Hfree : unlocked d).

Abbreviation pr := (probe d context seqno).
Abbreviation cnt := (dd_hw_fences_tbl_cnt d).

Context (Hmiss : forall h, 0 <= h < cnt -> hit h = false ->
  body h (locked_at h d) = Done (false, 0) (locked_at h d)).
Context (Hhit : forall h, 0 <= h < cnt -> hit h = true ->
  body h (locked_at h d) = bind (act h) (fun r => ret (true, r)) (locked_at h d)).

(** What the whole loop does: act on the first hit while holding its lock, or
    nothing at all. *)
Definition loop_result (n : nat) (i end_step : Z) : outcome driver_data (bool * Z * Z) :=
  match first_hit pr hit n i with
  | None => Done (false, 0, pr (end_step - 1)) d
  | Some k =>
      bind (act (pr k)) (fun r =>
        global_atomic_store (FenceLock (pr k)) false;;; ret (true, r, pr k))
      (locked_at (pr k) d)
  end.

Lemma lookup_next_run i :
  _hw_fence_lookup_next (pr i) i 1 cnt d = Done (pr (i + 1), i + 1) (locked_at (pr (i + 1)) d).
Proof.
  unfold _hw_fence_lookup_next. rewrite probe_succ by done.
  pose proof (probe_range d context seqno (i + 1) Hwf).
  unfold _get_hw_fence. destruct (Z.leb_spec cnt (pr (i + 1))); [lia|].
  destruct (fence_at_is_Some d (pr (i + 1)) Hwf ltac:(done)) as [f Hf].
  unfold bind. by rewrite (locked_at_run _ _ _ Hf (Hfree _ _ Hf)).
Qed.

Lemma hw_fence_loop_run n i end_step :
  0 <= i -> end_step = i + Z.of_nat n -> (0 < n)%nat ->
  hw_fence_loop n body (pr i) i end_step false 0 (locked_at (pr i) d)
  = loop_result n i end_step.
Proof.
  revert i. induction n as [|n IH]; intros i Hi Hend Hn; [lia|].
  unfold loop_result. simpl.
  destruct (Z.ltb_spec i end_step); [|lia]. simpl.
  pose proof (probe_range d context seqno i Hwf) as Hpr.
  destruct (fence_at_is_Some d (pr i) Hwf Hpr) as [f Hf].
  unfold bind at 1. destruct (hit (pr i)) eqn:Eh.
  - rewrite Hhit by done. unfold _hw_fence_iterator_next, bind, get.
    destruct (act (pr i) (locked_at (pr i) d)) as [r s'|]; [|done].
    unfold ret at 1. destruct (global_atomic_store _ _ s') as [[] s2|]; [|done].
    rewrite orb_true_r. simpl. destruct n; simpl; by rewrite andb_false_r.
  - rewrite Hmiss by done. simpl. unfold _hw_fence_iterator_next, bind, get.
    rewrite locked_at_cnt, (locked_at_unlock _ _ _ Hf (Hfree _ _ Hf)).
    rewrite orb_false_r. destruct (Z.leb_spec end_step (i + 1)).
    + assert (n = 0)%nat as -> by lia. simpl.
      destruct (Z.ltb_spec (i + 1) end_step); [lia|]. simpl.
      unfold ret. do 3 f_equal. lia.
    + rewrite lookup_next_run, IH by lia. done.
Qed.

End loop.

Lemma iterator_init_run d context seqno start_step end_step :
  table_wf d -> unlocked d -> 0 <= start_step < end_step -> end_step <= dd_hw_fences_tbl_cnt d ->
  _hw_fence_iterator_init context seqno start_step end_step d
  = Done (Some (probe d context seqno start_step), start_step)
      (locked_at (probe d context seqno start_step) d).
Proof.
  intros Hwf Hu Hs He. unfold _hw_fence_iterator_init, bind, get.
  destruct (Z.leb_spec end_step start_step); [lia|].
  destruct (Z.ltb_spec (dd_hw_fences_tbl_cnt d) end_step); [lia|]. simpl.
  unfold _hw_fence_lookup_next. pose proof (tw_cnt _ Hwf) as Hc.
  pose proof (calculate_hash_range context seqno _ Hc).
  rewrite (u64_id (_ + start_step)) by (unfold in_u64; lia).
  fold (probe d context seqno start_step).
  pose proof (probe_range d context seqno start_step Hwf).
  unfold _get_hw_fence.
  destruct (Z.leb_spec (dd_hw_fences_tbl_cnt d) (probe d context seqno start_step)); [lia|].
  destruct (fence_at_is_Some d (probe d context seqno start_step) Hwf ltac:(done)) as [f Hf].
  unfold bind. by rewrite (locked_at_run _ _ _ Hf (Hu _ _ Hf)).
Qed.

(** One observation of the environment. *)
Definition ticked (d : driver_data) : driver_data := d <| dd_tick := S (dd_tick d) |>.

Lemma uninit_bool_run d : stack_zeroed d -> uninit_bool d = Done false (ticked d).
Proof. intros H. unfold uninit_bool, bind, tick, get, put, ret. simpl. by rewrite H. Qed.

Lemma qtime_run d :
  hw_fence_get_qtime d = Done (u64 (env_qtime (dd_env d) (dd_tick d))) (ticked d).
Proof. done. Qed.

Lemma table_wf_ticked d : table_wf d -> table_wf (ticked d).
Proof. intros [? ? ? ?]. by split. Qed.

Lemma unlocked_ticked d : unlocked d -> unlocked (ticked d).
Proof. done. Qed.

#[export] Hint Resolve table_wf_ticked unlocked_ticked : fence.

Lemma for_each_run d body hit act context seqno hash0 start_step end_step :
  table_wf d -> unlocked d -> stack_zeroed d ->
  0 <= start_step < end_step -> end_step <= dd_hw_fences_tbl_cnt d ->
  (forall h, 0 <= h < dd_hw_fences_tbl_cnt d -> hit h = false ->
     body h (locked_at h (ticked d)) = Done (false, 0) (locked_at h (ticked d))) ->
  (forall h, 0 <= h < dd_hw_fences_tbl_cnt d -> hit h = true ->
     body h (locked_at h (ticked d))
     = bind (act h) (fun r => ret (true, r)) (locked_at h (ticked d))) ->
  for_each_hw_fence body context seqno hash0 start_step end_step d
  = loop_result (ticked d) context seqno hit act (Z.to_nat (end_step - start_step))
      start_step end_step.
Proof.
  intros Hwf Hu Hst Hs He Hmiss Hhit. unfold for_each_hw_fence.
  rewrite (bind_run _ _ _ _ _ (uninit_bool_run d Hst)).
  erewrite bind_run by (apply iterator_init_run; (done || auto with fence)).
  apply hw_fence_loop_run; first [done|lia|auto with fence].
Qed.

(** ** Entries under their lock *)

(** A change of an entry that leaves its lock alone. *)
Definition lock_neutral (g : msm_hw_fence -> msm_hw_fence) : Prop :=
  forall f, lock_free f -> with_lock 0 (g (with_lock 1 f)) = g f.

Lemma unlock_after d i f g :
  fence_at d i = Some f -> lock_free f -> lock_neutral g -> lock_held (g (with_lock 1 f)) ->
  global_atomic_store (FenceLock i) false (put_fence i (g (with_lock 1 f)) (locked_at i d))
  = Done tt (put_fence i (g f) d).
Proof.
  intros E Hf Hg Hh. erewrite unlock_fence_run; [| |done].
  - rewrite put_put, Hg by done. unfold locked_at. by rewrite E, put_put.
  - eapply fence_at_put_eq. by apply locked_at_fence.
Qed.

Definition get_ref (f : msm_hw_fence) : msm_hw_fence := f <| hf_refcount ::= fun r => u32 (r + 1) |>.

(** Freeing an entry whose count has reached zero. *)
Definition free_entry (f : msm_hw_fence) : msm_hw_fence :=
  if hf_refcount f =? 0 then (_cleanup_hw_fence f) <| hf_valid := 0 |> else f.

Definition put_ref (f : msm_hw_fence) : msm_hw_fence :=
  free_entry (f <| hf_refcount ::= fun r => u32 (r - 1) |>).

Definition clear_ref (ref : Z) (f : msm_hw_fence) : msm_hw_fence :=
  free_entry (f <| hf_refcount ::= fun r => clear r ref |>).

Lemma set_lock_id f : f <| hf_lock := hf_lock f |> = f.
Proof. by destruct f. Qed.

Lemma lock_neutral_intro g :
  (forall f, hf_lock (g f) = hf_lock f) -> (forall f w, g (f <| hf_lock := w |>) = (g f) <| hf_lock := w |>) ->
  lock_neutral g /\ forall f, lock_held (g (with_lock 1 f)).
Proof.
  intros H1 H2. split.
  - intros f Hf. change (with_lock 1 f) with (f <| hf_lock := with_lo (hf_lock f) 1 |>).
    rewrite H2.
    change (with_lock 0 ((g f) <| hf_lock := with_lo (hf_lock f) 1 |>))
      with ((g f) <| hf_lock := with_lo (with_lo (hf_lock f) 1) 0 |>).
    rewrite with_lo_with_lo, with_lo_id, <- H1 by (done || lia). apply set_lock_id.
  - intros f. unfold lock_held. rewrite H1. apply with_lock_held.
Qed.

Lemma get_ref_neutral : lock_neutral get_ref /\ forall f, lock_held (get_ref (with_lock 1 f)).
Proof. by apply lock_neutral_intro. Qed.

Lemma free_entry_lock f : hf_lock (free_entry f) = hf_lock f.
Proof. unfold free_entry. by case_match. Qed.

Lemma free_entry_set_lock f w : free_entry (f <| hf_lock := w |>) = (free_entry f) <| hf_lock := w |>.
Proof. unfold free_entry. simpl. by case_match. Qed.

Lemma put_ref_neutral : lock_neutral put_ref /\ forall f, lock_held (put_ref (with_lock 1 f)).
Proof.
  apply lock_neutral_intro; intros; unfold put_ref.
  - by rewrite free_entry_lock.
  - rewrite <- free_entry_set_lock. done.
Qed.

Lemma clear_ref_neutral ref :
  lock_neutral (clear_ref ref) /\ forall f, lock_held (clear_ref ref (with_lock 1 f)).
Proof.
  apply lock_neutral_intro; intros; unfold clear_ref.
  - by rewrite free_entry_lock.
  - rewrite <- free_entry_set_lock. done.
Qed.

Lemma id_neutral : lock_neutral (fun f => f) /\ forall f, lock_held (with_lock 1 f).
Proof. by apply lock_neutral_intro. Qed.

(** The key table after an entry with these counts lost its last reference. *)
Definition unreserve_keys (h : Z) (f : msm_hw_fence) (d : driver_data) : driver_data :=
  if hf_refcount (f <| hf_refcount ::= fun r => u32 (r - 1) |>) =? 0
  then d <| dd_hlos_key_tbl ::= zset h 0 |> else d.

Lemma unreserve_run d h f :
  fence_at d h = Some f ->
  _unreserve_hw_fence h d =
    if flag (hf_refcount f) HW_FENCE_HLOS_REFCOUNT_MASK
    then Done 0 (unreserve_keys h f (put_fence h (put_ref f) d)) else Done (- EINVAL) d.
Proof.
  intros E. unfold _unreserve_hw_fence. rewrite (bind_run _ _ _ _ _ (get_fence_run _ _ _ E)).
  destruct (flag _ _); [|done].
  rewrite (bind_run _ _ _ _ _ (update_fence_run _ _ _ _ E)).
  erewrite bind_run by (eapply get_fence_run, fence_at_put_eq; done).
  unfold put_ref, unreserve_keys, free_entry. simpl.
  destruct (u32 (hf_refcount f - 1) =? 0) eqn:Ez; [|done].
  rewrite bind_assoc. erewrite bind_run by (eapply update_fence_run, fence_at_put_eq; done).
  erewrite bind_assoc, bind_run by (eapply update_fence_run, fence_at_put_eq, fence_at_put_eq; done).
  unfold set_hlos_key, modifyM, bind, ret. rewrite !put_put. done.
Qed.

Lemma fence_found_run d h f :
  fence_at d h = Some f ->
  _fence_found h d =
    if Z.land (hf_refcount f) HW_FENCE_HLOS_REFCOUNT_MASK =? HW_FENCE_HLOS_REFCOUNT_MASK
    then Done (- EINVAL) d else Done 0 (put_fence h (get_ref f) d).
Proof.
  intros E. unfold _fence_found. rewrite (bind_run _ _ _ _ _ (get_fence_run _ _ _ E)).
  destruct (_ =? _); [done|]. by rewrite (bind_run _ _ _ _ _ (update_fence_run _ _ _ _ E)).
Qed.

(** [hw_fence_destroy_refcount] takes the entry's lock, clears the reference and
    frees the entry if none is left, and releases the lock. *)
Lemma destroy_refcount_run d h ref f :
  table_wf d -> unlocked d -> fence_at d h = Some f ->
  hw_fence_destroy_refcount h ref d =
    if flag (hf_refcount f) ref then Done 0 (put_fence h (clear_ref ref f) d)
    else Done (- EINVAL) d.
Proof.
  intros Hwf Hu E. pose proof (fence_at_bounds _ _ _ E) as Hh. rewrite (tw_tbl _ Hwf) in Hh.
  unfold hw_fence_destroy_refcount. rewrite (bind_run _ _ _ d d) by done.
  rewrite (tw_entries _ Hwf). unfold _get_hw_fence.
  destruct (Z.leb_spec (dd_hw_fences_tbl_cnt d) h); [lia|].
  rewrite (bind_run _ _ _ _ _ (locked_at_run _ _ _ E (Hu _ _ E))).
  pose proof (locked_at_fence _ _ _ E) as El.
  rewrite (bind_run _ _ _ _ _ (get_fence_run _ _ _ El)).
  change (hf_refcount (with_lock 1 f)) with (hf_refcount f).
  destruct (flag (hf_refcount f) ref).
  - rewrite (bind_run _ _ _ _ _ (update_fence_run _ _ _ _ El)).
    erewrite bind_run by (eapply get_fence_run, fence_at_put_eq; done).
    destruct (clear_ref_neutral ref) as [Hn Hh'].
    specialize (Hh' f). pose proof (unlock_after _ _ _ _ E (Hu _ _ E) Hn Hh') as Hun.
    unfold clear_ref, free_entry in Hun. simpl in Hun |- *.
    destruct (clear (hf_refcount f) ref =? 0) eqn:Ez.
    + rewrite bind_assoc. erewrite bind_run by (eapply update_fence_run, fence_at_put_eq; done).
      erewrite bind_run by (eapply update_fence_run, fence_at_put_eq, fence_at_put_eq; done).
      rewrite !put_put. erewrite bind_run by exact Hun.
      unfold clear_ref, free_entry. simpl. by rewrite Ez.
    + erewrite bind_run by done. erewrite bind_run by exact Hun.
      unfold clear_ref, free_entry. simpl. by rewrite Ez.
  - by rewrite (bind_run _ _ _ _ _ (locked_at_unlock _ _ _ E (Hu _ _ E))).
Qed.

Lemma destroy_refcount_bad d h ref :
  table_wf d -> dd_hw_fences_tbl_cnt d <= h -> hw_fence_destroy_refcount h ref d = Done (- EINVAL) d.
Proof.
  intros Hwf Hh. unfold hw_fence_destroy_refcount. rewrite (bind_run _ _ _ d d) by done.
  rewrite (tw_entries _ Hwf). unfold _get_hw_fence.
  by destruct (Z.leb_spec (dd_hw_fences_tbl_cnt d) h); [|lia].
Qed.

(** ** Lookup *)

(** What [_hw_fence_match] computes on entry [h]. *)
Definition key_match (d : driver_data) (hlos_key context seqno h : Z) : bool :=
  match fence_at d h, zget (dd_hlos_key_tbl d) h with
  | Some f, Some k => (hf_ctx_id f =? context) && (hf_seq_id f =? seqno) && (k =? hlos_key)
  | _, _ => false
  end.

(** The entry a full sweep for this key ends on, if any. *)
Definition find_step (d : driver_data) (hit : Z -> bool) (context seqno : Z) : option Z :=
  first_hit (probe d context seqno) hit (Z.to_nat (dd_hw_fences_tbl_cnt d)) 0.

Lemma key_is_Some d h :
  table_wf d -> 0 <= h < dd_hw_fences_tbl_cnt d -> exists k, zget (dd_hlos_key_tbl d) h = Some k.
Proof. intros Hwf Hi. apply zget_is_Some. by rewrite (tw_key _ Hwf). Qed.

Lemma match_run d h f key context seqno :
  table_wf d -> fence_at d h = Some f ->
  _hw_fence_match (with_lock 1 f) h context seqno key (locked_at h d)
  = Done (key_match d key context seqno h) (locked_at h d).
Proof.
  intros Hwf E. pose proof (fence_at_bounds _ _ _ E) as Hh. rewrite (tw_tbl _ Hwf) in Hh.
  destruct (key_is_Some d h Hwf Hh) as [k Hk].
  unfold _hw_fence_match, key_match, bind, get. rewrite E, Hk, locked_at_keys, Hk. simpl.
  by destruct ((hf_ctx_id f =? context) && (hf_seq_id f =? seqno)).
Qed.

Lemma process_body_run d h fn key context seqno :
  table_wf d -> 0 <= h < dd_hw_fences_tbl_cnt d ->
  process_body fn key context seqno h (locked_at h d)
  = (if key_match d key context seqno h then bind (fn h) (fun r => ret (true, r))
     else ret (false, 0)) (locked_at h d).
Proof.
  intros Hwf Hh. destruct (fence_at_is_Some d h Hwf Hh) as [f E].
  unfold process_body. rewrite (bind_run _ _ _ _ _ (get_fence_run _ _ _ (locked_at_fence _ _ _ E))).
  rewrite (bind_run _ _ _ _ _ (match_run _ _ _ _ _ _ Hwf E)). by destruct (key_match _ _ _ _ _).
Qed.

(** A full sweep misses no entry. *)
Lemma find_step_None d hit context seqno :
  table_wf d -> find_step d hit context seqno = None ->
  forall h, 0 <= h < dd_hw_fences_tbl_cnt d -> hit h = false.
Proof.
  intros Hwf H h Hh. pose proof (tw_cnt _ Hwf) as Hc.
  destruct (probe_surj d context seqno h Hwf Hh) as (k & Hk & <-).
  apply (first_hit_None _ _ _ _ H). lia.
Qed.

Lemma find_step_Some d hit context seqno k :
  table_wf d -> find_step d hit context seqno = Some k ->
  0 <= k < dd_hw_fences_tbl_cnt d /\ hit (probe d context seqno k) = true /\
  forall j, 0 <= j < k -> hit (probe d context seqno j) = false.
Proof.
  intros Hwf H. pose proof (tw_cnt _ Hwf) as Hc.
  destruct (first_hit_Some _ _ _ _ _ H) as (H1 & H2 & H3). split; [lia|done].
Qed.

(** A sweep of the steps [[start_step, end_step)]: the first match is processed
    under its lock. *)
Lemma lookup_and_process_range_run d key context seqno hash0 start_step end_step fn :
  table_wf d -> unlocked d -> stack_zeroed d ->
  0 <= start_step < end_step -> end_step <= dd_hw_fences_tbl_cnt d ->
  _hw_fence_lookup_and_process_range key context seqno hash0 start_step end_step fn d
  = match first_hit (probe d context seqno) (key_match d key context seqno)
            (Z.to_nat (end_step - start_step)) start_step with
    | None => Done (None, probe d context seqno (end_step - 1)) (ticked d)
    | Some k =>
        let h := probe d context seqno k in
        bind (fn h) (fun r => unlock_fence h;;; ret (if r =? 0 then Some h else None, h))
          (locked_at h (ticked d))
    end.
Proof.
  intros Hwf Hu Hst Hs He. unfold _hw_fence_lookup_and_process_range, bind at 1.
  rewrite (for_each_run _ _ (key_match d key context seqno) fn); try (done || lia).
  - unfold loop_result. change (probe (ticked d)) with (probe d).
    destruct (first_hit _ _ _ _) as [k|]; [|done]. cbv zeta.
    unfold unlock_fence, bind. destruct (fn _ _) as [r s|]; [|done].
    destruct (global_atomic_store _ _ s) as [[] s'|]; [|done].
    unfold ret, lookup_result. simpl. by destruct (r =? 0).
  - intros h Hh Hm. rewrite process_body_run by auto with fence.
    change (key_match (ticked d)) with (key_match d). by rewrite Hm.
  - intros h Hh Hm. rewrite process_body_run by auto with fence.
    change (key_match (ticked d)) with (key_match d). by rewrite Hm.
Qed.

Lemma lookup_and_process_run d key context seqno hash0 fn :
  table_wf d -> unlocked d -> stack_zeroed d ->
  _hw_fence_lookup_and_process key context seqno hash0 fn d
  = match find_step d (key_match d key context seqno) context seqno with
    | None => Done (None, probe d context seqno (dd_hw_fences_tbl_cnt d - 1)) (ticked d)
    | Some k =>
        let h := probe d context seqno k in
        bind (fn h) (fun r => unlock_fence h;;; ret (if r =? 0 then Some h else None, h))
          (locked_at h (ticked d))
    end.
Proof.
  intros Hwf Hu Hst. pose proof (tw_cnt _ Hwf) as Hc.
  unfold _hw_fence_lookup_and_process. rewrite (bind_run _ _ _ d d) by done.
  rewrite lookup_and_process_range_run by (done || lia). by rewrite Z.sub_0_r.
Qed.

(** Without a match a lookup changes nothing and returns [NULL]. *)
Lemma lookup_and_process_none d key context seqno hash0 fn :
  table_wf d -> unlocked d -> stack_zeroed d ->
  (forall h, 0 <= h < dd_hw_fences_tbl_cnt d -> key_match d key context seqno h = false) ->
  _hw_fence_lookup_and_process key context seqno hash0 fn d
  = Done (None, probe d context seqno (dd_hw_fences_tbl_cnt d - 1)) (ticked d).
Proof.
  intros Hwf Hu Hst Hn. rewrite lookup_and_process_run by done.
  destruct (find_step _ _ _ _) as [k|] eqn:E; [|done].
  destruct (find_step_Some _ _ _ _ _ Hwf E) as (_ & H & _).
  rewrite Hn in H; [done|]. by apply probe_range.
Qed.

Lemma ticked_fence d i : fence_at (ticked d) i = fence_at d i.
Proof. done. Qed.

Lemma put_locked d i f f0 : fence_at d i = Some f0 -> put_fence i f (locked_at i d) = put_fence i f d.
Proof. intros E. unfold locked_at. by rewrite E, put_put. Qed.

Definition saturated (f : msm_hw_fence) : bool :=
  Z.land (hf_refcount f) HW_FENCE_HLOS_REFCOUNT_MASK =? HW_FENCE_HLOS_REFCOUNT_MASK.

(** [msm_hw_fence_find] takes a reference on the first match; the lock of every
    probed entry is taken and released, and no other entry changes. *)
Lemma find_run d key context seqno hash0 :
  table_wf d -> unlocked d -> stack_zeroed d ->
  msm_hw_fence_find key context seqno hash0 d
  = match find_step d (key_match d key context seqno) context seqno with
    | None => Done (None, probe d context seqno (dd_hw_fences_tbl_cnt d - 1)) (ticked d)
    | Some k =>
        let h := probe d context seqno k in
        match fence_at d h with
        | Some f => if saturated f then Done (None, h) (ticked d)
                    else Done (Some h, h) (put_fence h (get_ref f) (ticked d))
        | None => Faulted BadAccess
        end
    end.
Proof.
  intros Hwf Hu Hst. unfold msm_hw_fence_find. rewrite lookup_and_process_run by done.
  destruct (find_step _ _ _ _) as [k|]; [|done]. cbv zeta.
  set (h := probe d context seqno k).
  destruct (fence_at_is_Some d h Hwf (probe_range _ _ _ _ Hwf)) as [f E]. rewrite E.
  assert (fence_at (ticked d) h = Some f) as E' by done.
  pose proof (fence_found_run _ _ _ (locked_at_fence _ _ _ E')) as Hff.
  change (hf_refcount (with_lock 1 f)) with (hf_refcount f) in Hff.
  unfold saturated. destruct (_ =? HW_FENCE_HLOS_REFCOUNT_MASK).
  - rewrite (bind_run _ _ _ _ _ Hff). unfold unlock_fence.
    by rewrite (bind_run _ _ _ _ _ (locked_at_unlock _ _ _ E' (Hu _ _ E))).
  - rewrite (bind_run _ _ _ _ _ Hff). unfold unlock_fence.
    destruct get_ref_neutral as [Hg Hh].
    by erewrite bind_run by (apply unlock_after; eauto).
Qed.

(** [hw_fence_destroy] drops a reference of the first match, freeing the entry
    and its key with the last one. *)
Lemma destroy_run d key context seqno :
  table_wf d -> unlocked d -> stack_zeroed d ->
  hw_fence_destroy key context seqno d
  = match find_step d (key_match d key context seqno) context seqno with
    | None => Done (- EINVAL) (ticked d)
    | Some k =>
        let h := probe d context seqno k in
        match fence_at d h with
        | Some f =>
            if flag (hf_refcount f) HW_FENCE_HLOS_REFCOUNT_MASK
            then Done 0 (unreserve_keys h f (put_fence h (put_ref f) (ticked d)))
            else Done (- EINVAL) (ticked d)
        | None => Faulted BadAccess
        end
    end.
Proof.
  intros Hwf Hu Hst. unfold hw_fence_destroy, bind at 1. rewrite lookup_and_process_run by done.
  destruct (find_step _ _ _ _) as [k|]; [|done]. cbv zeta.
  set (h := probe d context seqno k).
  destruct (fence_at_is_Some d h Hwf (probe_range _ _ _ _ Hwf)) as [f E]. rewrite E.
  assert (fence_at (ticked d) h = Some f) as E' by done.
  pose proof (unreserve_run _ _ _ (locked_at_fence _ _ _ E')) as Hun.
  change (hf_refcount (with_lock 1 f)) with (hf_refcount f) in Hun.
  unfold unlock_fence. destruct (flag _ _).
  - rewrite (bind_run _ _ _ _ _ Hun). destruct put_ref_neutral as [Hg Hh].
    pose proof (unlock_after _ _ _ _ E' (Hu _ _ E) Hg (Hh f)) as Hul.
    unfold unreserve_keys in *. change (hf_refcount ((with_lock 1 f) <| hf_refcount ::= _ |>))
      with (hf_refcount (f <| hf_refcount ::= fun r => u32 (r - 1) |>)) in *.
    destruct (_ =? 0); [|by rewrite (bind_run _ _ _ _ _ Hul)].
    set (fk := fun d : driver_data => d <| dd_hlos_key_tbl ::= zset h 0 |>).
    fold (fk (put_fence h (put_ref (with_lock 1 f)) (locked_at h (ticked d)))).
    assert (forall s f', fence_at s h = Some f' -> lock_held f' ->
      global_atomic_store (FenceLock h) false (fk s) = Done tt (fk (put_fence h (with_lock 0 f') s)))
      as Hfk by (intros s f' H1 H2; exact (unlock_fence_run (fk s) h f' H1 H2)).
    erewrite bind_run; [|apply Hfk; [eapply fence_at_put_eq, locked_at_fence; done|apply Hh]].
    rewrite put_put, (Hg f) by eauto. by erewrite put_locked by done.
  - rewrite (bind_run _ _ _ _ _ Hun).
    by rewrite (bind_run _ _ _ _ _ (locked_at_unlock _ _ _ E' (Hu _ _ E))).
Qed.

(** ** Creation *)

(** A slot creation stops at: a free one, or one that already has this key. *)
Definition create_hit (d : driver_data) (hlos_key context seqno h : Z) : bool :=
  match fence_at d h with
  | Some f => (hf_valid f =? 0) || key_match d hlos_key context seqno h
  | None => false
  end.

(** The entry [_reserve_hw_fence] writes over [f]. *)
Definition reserved (client_id context seqno pending_child_cnt t : Z) (f : msm_hw_fence)
  : msm_hw_fence :=
  (_cleanup_hw_fence f)
    <| hf_valid := 1 |> <| hf_ctx_id := context |> <| hf_seq_id := seqno |>
    <| hf_fence_allocator := client_id |> <| hf_fence_create_time := t |>
    <| hf_refcount := u32 (HW_FENCE_FCTL_REFCOUNT + 1) |>
    <| hf_pending_child_cnt := pending_child_cnt |>.

Definition now (d : driver_data) : Z := u64 (env_qtime (dd_env d) (dd_tick d)).

Definition put_key (h key : Z) (d : driver_data) : driver_data :=
  d <| dd_hlos_key_tbl ::= zset h key |>.

Lemma reserved_neutral client_id context seqno pending t :
  lock_neutral (reserved client_id context seqno pending t) /\
  forall f, lock_held (reserved client_id context seqno pending t (with_lock 1 f)).
Proof. by apply lock_neutral_intro. Qed.

Lemma reserve_run d h f client_id context seqno pending key :
  fence_at d h = Some f ->
  _reserve_hw_fence client_id context seqno h pending key d
  = Done 0 (put_key h key (put_fence h (reserved client_id context seqno pending (now d) f)
                             (ticked d))).
Proof.
  intros E. unfold _reserve_hw_fence. rewrite (bind_run _ _ _ _ _ (update_fence_run _ _ _ _ E)).
  rewrite (bind_run _ _ _ _ _ (qtime_run _)).
  erewrite bind_run; [|apply update_fence_run; rewrite ticked_fence; eapply fence_at_put_eq; done].
  unfold put_fence, put_key. simpl. unfold bind, set_hlos_key, modifyM, ret, ticked. simpl.
  by rewrite zset_zset.
Qed.

(** What [_hw_fence_lookup_and_create_range] does at the slot it stops at. *)
Definition create_result (d : driver_data) (client_id key context seqno pending flags h : Z)
  : outcome driver_data (option Z * Z) :=
  match fence_at d h with
  | None => Faulted BadAccess
  | Some f =>
      if hf_valid f =? 0 then
        Done (Some h, h)
          (put_key h key (put_fence h (reserved client_id context seqno pending (now d) f)
                            (ticked d)))
      else if flag flags MSM_HW_FENCE_FLAG_CREATE_SIGNALED && negb (saturated f)
      then Done (Some h, h) (put_fence h (get_ref f) d)
      else Done (None, h) d
  end.

Lemma unlock_put_key d h f key :
  fence_at d h = Some f -> lock_held f ->
  unlock_fence h (put_key h key d) = Done tt (put_key h key (put_fence h (with_lock 0 f) d)).
Proof. intros E Hf. exact (unlock_fence_run (put_key h key d) h f E Hf). Qed.

Lemma fence_at_put_key d h key i : fence_at (put_key h key d) i = fence_at d i.
Proof. done. Qed.

#[export] Hint Rewrite fence_at_put_key ticked_fence : fence.

(** The part of [create_body] that runs at the slot the sweep stops at. *)
Definition create_act (client_id key context seqno pending flags h : Z) : DRV Z :=
  f <-- get_fence h;
  if hf_valid f =? 0 then _reserve_hw_fence client_id context seqno h pending key
  else if flag flags MSM_HW_FENCE_FLAG_CREATE_SIGNALED then _fence_found h
  else ret (- EALREADY).

Lemma create_body_run d h client_id key context seqno pending flags :
  table_wf d -> 0 <= h < dd_hw_fences_tbl_cnt d ->
  create_body client_id key context seqno pending flags h (locked_at h d)
  = (if create_hit d key context seqno h
     then bind (create_act client_id key context seqno pending flags h) (fun r => ret (true, r))
     else ret (false, 0)) (locked_at h d).
Proof.
  intros Hwf Hh. destruct (fence_at_is_Some d h Hwf Hh) as [f E].
  pose proof (get_fence_run _ _ _ (locked_at_fence _ _ _ E)) as Eg.
  unfold create_body, create_hit. rewrite E, (bind_run _ _ _ _ _ Eg).
  change (hf_valid (with_lock 1 f)) with (hf_valid f).
  assert (bind (create_act client_id key context seqno pending flags h)
            (fun r => ret (true, r)) (locked_at h d)
          = bind (if hf_valid f =? 0 then _reserve_hw_fence client_id context seqno h pending key
                  else if flag flags MSM_HW_FENCE_FLAG_CREATE_SIGNALED then _fence_found h
                  else ret (- EALREADY)) (fun r => ret (true, r)) (locked_at h d)) as Hact.
  { unfold create_act. by rewrite bind_assoc, (bind_run _ _ _ _ _ Eg). }
  pose proof (match_run _ _ _ key context seqno Hwf E) as Em.
  destruct (hf_valid f =? 0); cbn [orb]; [by rewrite Hact|]. rewrite (bind_run _ _ _ _ _ Em).
  by destruct (key_match d key context seqno h); [rewrite Hact|].
Qed.

(** At the slot: reserve it, take a reference, or refuse; then unlock. *)
Lemma create_act_run d h f client_id key context seqno pending flags :
  unlocked d -> fence_at d h = Some f ->
  bind (create_act client_id key context seqno pending flags h)
    (fun r => unlock_fence h;;; ret (if r =? 0 then Some h else None, h)) (locked_at h d)
  = create_result d client_id key context seqno pending flags h.
Proof.
  intros Hu E. pose proof (Hu _ _ E) as Hf. pose proof (locked_at_fence _ _ _ E) as El.
  pose proof (get_fence_run _ _ _ El) as Eg.
  unfold create_act, create_result. rewrite E, bind_assoc, (bind_run _ _ _ _ _ Eg).
  change (hf_valid (with_lock 1 f)) with (hf_valid f). destruct (hf_valid f =? 0).
  - rewrite (bind_run _ _ _ _ _ (reserve_run _ _ _ client_id context seqno pending key El)).
    destruct (reserved_neutral client_id context seqno pending (now (locked_at h d))) as [Hn Hh].
    erewrite bind_run; [|eapply unlock_put_key; [eapply fence_at_put_eq, El|apply Hh]].
    rewrite put_put, Hn by done. unfold locked_at. rewrite E.
    unfold ret, put_key, put_fence, ticked, now. simpl. by rewrite zset_zset.
  - destruct (flag flags _); simpl;
      [|by erewrite bind_run by done; unfold unlock_fence;
           rewrite (bind_run _ _ _ _ _ (locked_at_unlock _ _ _ E Hf))].
    pose proof (fence_found_run _ _ _ El) as Hff.
    change (hf_refcount (with_lock 1 f)) with (hf_refcount f) in Hff. fold (saturated f) in Hff.
    destruct (saturated f); simpl; rewrite (bind_run _ _ _ _ _ Hff).
    + by unfold unlock_fence; rewrite (bind_run _ _ _ _ _ (locked_at_unlock _ _ _ E Hf)).
    + destruct get_ref_neutral as [Hg Hh]. unfold unlock_fence.
      by erewrite bind_run by (apply unlock_after; eauto).
Qed.

Lemma create_range_run d client_id key context seqno pending hash0 start_step end_step flags :
  table_wf d -> unlocked d -> stack_zeroed d ->
  0 <= start_step < end_step -> end_step <= dd_hw_fences_tbl_cnt d ->
  _hw_fence_lookup_and_create_range client_id key context seqno pending hash0
    start_step end_step flags d
  = match first_hit (probe d context seqno) (create_hit d key context seqno)
            (Z.to_nat (end_step - start_step)) start_step with
    | None => Done (None, probe d context seqno (end_step - 1)) (ticked d)
    | Some k => create_result (ticked d) client_id key context seqno pending flags
                  (probe d context seqno k)
    end.
Proof.
  intros Hwf Hu Hst Hs He. unfold _hw_fence_lookup_and_create_range, bind at 1.
  rewrite (for_each_run _ _ (create_hit d key context seqno)
             (create_act client_id key context seqno pending flags)); try (done || lia).
  - unfold loop_result. change (probe (ticked d)) with (probe d).
    destruct (first_hit _ _ _ _) as [k|]; [|done].
    destruct (fence_at_is_Some d _ Hwf (probe_range d context seqno k Hwf)) as [f E].
    rewrite <- (create_act_run (ticked d) _ f) by done.
    unfold unlock_fence, bind. destruct (create_act _ _ _ _ _ _ _ _) as [r s|]; [|done].
    destruct (global_atomic_store _ _ s) as [[] s'|]; [|done].
    unfold ret, lookup_result. simpl. by destruct (r =? 0).
  - intros h Hh Hm. rewrite create_body_run by auto with fence.
    change (create_hit (ticked d)) with (create_hit d). by rewrite Hm.
  - intros h Hh Hm. rewrite create_body_run by auto with fence.
    change (create_hit (ticked d)) with (create_hit d). by rewrite Hm.
Qed.

(** ** The order of the visits

    A body that records every entry it is shown, with the lower half of its lock
    word, and stops where [stop] says. *)
Definition watch (stop : Z -> bool) (h : Z) : DRV (bool * Z) :=
  f <-- get_fence h;
  log_event (EvIpc h (lock_lo (hf_lock f)) 0);;;
  ret (stop h, 0).

(** The record of the entries [hs], each seen with its lock taken. *)
Definition saw (hs : list Z) (d : driver_data) : driver_data :=
  d <| dd_events ::= fun l => l ++ ((fun h => EvIpc h 1 0) <$> hs) |>.

Lemma saw_app hs hs' d : saw hs' (saw hs d) = saw (hs ++ hs') d.
Proof. unfold saw. simpl. by rewrite fmap_app, app_assoc. Qed.

Lemma watch_run stop d h :
  table_wf d -> 0 <= h < dd_hw_fences_tbl_cnt d ->
  watch stop h (locked_at h d) = Done (stop h, 0) (locked_at h (saw [h] d)).
Proof.
  intros Hwf Hh. destruct (fence_at_is_Some d h Hwf Hh) as [f E]. unfold watch.
  rewrite (bind_run _ _ _ _ _ (get_fence_run _ _ _ (locked_at_fence _ _ _ E))).
  assert (lock_lo (hf_lock (with_lock 1 f)) = 1) as -> by apply with_lock_held.
  unfold locked_at. change (fence_at (saw [h] d) h) with (fence_at d h). by rewrite E.
Qed.

Lemma seqZ_snoc i n : 0 <= n -> seqZ i n ++ [i + n] = seqZ i (n + 1).
Proof. intros. rewrite seqZ_app by lia. done. Qed.

Lemma watch_loop_run stop context seqno e n : forall i d,
  table_wf d -> unlocked d -> 0 <= i -> e = i + Z.of_nat n -> (0 < n)%nat ->
  hw_fence_loop n (watch stop) (probe d context seqno i) i e false 0
    (locked_at (probe d context seqno i) d)
  = match first_hit (probe d context seqno) stop n i with
    | Some k => Done (true, 0, probe d context seqno k)
                  (saw (probe d context seqno <$> seqZ i (k - i + 1)) d)
    | None => Done (false, 0, probe d context seqno (e - 1))
                (saw (probe d context seqno <$> seqZ i (Z.of_nat n)) d)
    end.
Proof.
  induction n as [|n IH]; intros i d Hwf Hu Hi He Hn; [lia|]. simpl hw_fence_loop. simpl first_hit.
  destruct (Z.ltb_spec i e); [|lia]. cbn [negb andb].
  pose proof (probe_range d context seqno i Hwf) as Hpr.
  rewrite (bind_run _ _ _ _ _ (watch_run stop d _ Hwf Hpr)).
  set (h := probe d context seqno i) in *. set (d1 := saw [h] d).
  assert (table_wf d1) as Hwf1 by (by destruct Hwf).
  destruct (fence_at_is_Some d1 h Hwf1 Hpr) as [f E].
  pose proof (locked_at_unlock _ _ _ E (Hu _ _ E)) as Hun.
  destruct (stop h) eqn:Es.
  - unfold _hw_fence_iterator_next. rewrite bind_assoc. erewrite bind_run by done. cbv zeta.
    rewrite bind_assoc, (bind_run _ _ _ _ _ Hun), orb_true_r. erewrite bind_run by done.
    destruct n; cbn [hw_fence_loop]; rewrite andb_false_r; unfold ret;
      replace (i - i + 1) with 1 by lia; done.
  - unfold _hw_fence_iterator_next. rewrite bind_assoc. erewrite bind_run by done. cbv zeta.
    rewrite bind_assoc, (bind_run _ _ _ _ _ Hun), orb_false_r.
    destruct (Z.leb_spec e (i + 1)).
    + assert (n = 0)%nat as -> by lia. erewrite bind_run by done. simpl.
      destruct (Z.ltb_spec (i + 1) e); [lia|]. simpl. unfold ret. by replace (e - 1) with i by lia.
    + rewrite locked_at_cnt. change (dd_hw_fences_tbl_cnt d1) with (dd_hw_fences_tbl_cnt d).
      erewrite bind_run by exact (lookup_next_run d1 context seqno Hwf1 Hu i).
      cbv iota. rewrite (IH (i + 1) d1) by (done || lia).
      change (probe d1 context seqno) with (probe d context seqno).
      destruct (first_hit _ _ n (i + 1)) as [k|] eqn:Ek.
      * apply first_hit_Some in Ek as [Hk _]. unfold d1. rewrite saw_app.
        replace (k - i + 1) with (Z.succ (k - (i + 1) + 1)) by lia. rewrite (seqZ_cons i) by lia.
        rewrite Z.pred_succ. done.
      * unfold d1. rewrite saw_app, (seqZ_cons i) by lia.
        replace (Z.pred (Z.of_nat (S n))) with (Z.of_nat n) by lia. done.
Qed.

Lemma probe_permutation d context seqno :
  table_wf d ->
  probe d context seqno <$> seqZ 0 (dd_hw_fences_tbl_cnt d) ≡ₚ seqZ 0 (dd_hw_fences_tbl_cnt d).
Proof.
  intros Hwf. pose proof (tw_cnt _ Hwf) as Hc. apply NoDup_Permutation.
  - apply NoDup_fmap_2_strong; [|apply NoDup_seqZ].
    intros j k Hj%elem_of_seqZ Hk%elem_of_seqZ E. apply probe_inj in E; [done|done|lia..].
  - apply NoDup_seqZ.
  - intros x. rewrite list_elem_of_fmap, elem_of_seqZ. split.
    + intros (k & -> & _). pose proof (probe_range d context seqno k Hwf). lia.
    + intros Hx. destruct (probe_surj d context seqno x Hwf) as (k & Hk & E); [lia|].
      exists k. rewrite elem_of_seqZ. split; [done|lia].
Qed.

(** ** What the table promises *)

(** C35: [for_each_hw_fence] returns after visiting, one by one and each with its lock
    held, the entries [hash + k] modulo the size of the table for [k] from
    [start_step] on, up to the first where the body stops or to the end of the range; then every lock
    is free again.  A full sweep that is not stopped visits every entry of the table
    exactly once. *)
Theorem for_each_visits_in_order d stop context seqno hash0 s e :
  table_wf d -> unlocked d -> stack_zeroed d -> 0 <= s < e -> e <= dd_hw_fences_tbl_cnt d ->
  let n := dd_hw_fences_tbl_cnt d in
  let visit k := (_calculate_hash context seqno n + k) mod n in
  (exists k, s <= k < e /\ stop (visit k) = true /\ (forall j, s <= j < k -> stop (visit j) = false) /\
     for_each_hw_fence (watch stop) context seqno hash0 s e d
     = Done (true, 0, visit k) (saw (visit <$> seqZ s (k - s + 1)) (ticked d))) \/
  ((forall j, s <= j < e -> stop (visit j) = false) /\
   for_each_hw_fence (watch stop) context seqno hash0 s e d
   = Done (false, 0, visit (e - 1)) (saw (visit <$> seqZ s (e - s)) (ticked d)) /\
   (s = 0 -> e = n -> visit <$> seqZ s (e - s) ≡ₚ seqZ 0 n)).
Proof.
  intros Hwf Hu Hst Hs He n visit. change visit with (probe d context seqno).
  assert (for_each_hw_fence (watch stop) context seqno hash0 s e d
    = match first_hit (probe d context seqno) stop (Z.to_nat (e - s)) s with
      | Some k => Done (true, 0, probe d context seqno k)
                    (saw (probe d context seqno <$> seqZ s (k - s + 1)) (ticked d))
      | None => Done (false, 0, probe d context seqno (e - 1))
                  (saw (probe d context seqno <$> seqZ s (e - s)) (ticked d))
      end) as Hrun.
  { unfold for_each_hw_fence. rewrite (bind_run _ _ _ _ _ (uninit_bool_run d Hst)).
    erewrite bind_run by (apply iterator_init_run; (done || auto with fence)).
    cbv iota. etransitivity;
      [apply watch_loop_run; first [done | lia | auto with fence]|].
    change (probe (ticked d)) with (probe d). by rewrite Z2Nat.id by lia. }
  rewrite Hrun. destruct (first_hit _ _ _ _) as [k|] eqn:Ek.
  - left. destruct (first_hit_Some _ _ _ _ _ Ek) as (H1 & H2 & H3). exists k. split; [lia|done].
  - right. split; [|split; [done|]].
    + intros j Hj. apply (first_hit_None _ _ _ _ Ek). lia.
    + intros -> ->. rewrite Z.sub_0_r. by apply probe_permutation.
Qed.

(** C33: [msm_hw_fence_find] returns, from any table with free locks and when the
    uninitialised flag of its frame reads as zero.  If it
    returns an entry, that entry has the key and nothing changed but one more
    reference on it; if it returns [NULL], nothing changed, and either no entry
    of the table has the key or the one it stopped at has no reference left to
    give. *)
Theorem msm_hw_fence_find_complete d key context seqno hash0 :
  table_wf d -> unlocked d -> stack_zeroed d ->
  exists r d', msm_hw_fence_find key context seqno hash0 d = Done r d' /\
  match r.1 with
  | Some h => r.2 = h /\ key_match d key context seqno h = true /\
      exists f, fence_at d h = Some f /\ saturated f = false /\
                d' = put_fence h (get_ref f) (ticked d)
  | None => d' = ticked d /\
      ((forall h, 0 <= h < dd_hw_fences_tbl_cnt d -> key_match d key context seqno h = false) \/
       (key_match d key context seqno r.2 = true /\
        exists f, fence_at d r.2 = Some f /\ saturated f = true))
  end.
Proof.
  intros Hwf Hu Hst. rewrite find_run by done.
  destruct (find_step _ _ _ _) as [k|] eqn:Ek.
  - destruct (find_step_Some _ _ _ _ _ Hwf Ek) as (_ & Hm & _). cbv zeta.
    destruct (fence_at_is_Some d _ Hwf (probe_range d context seqno k Hwf)) as [f E].
    rewrite E. destruct (saturated f) eqn:Es; do 2 eexists; (split; [done|]); simpl; eauto 10.
  - do 2 eexists. split; [done|]. split; [done|]. left. by eapply find_step_None.
Qed.

(** Entry [h] belongs to the fence with this key. *)
Definition has_key (d : driver_data) (h key context seqno : Z) (f : msm_hw_fence) : Prop :=
  fence_at d h = Some f /\ zget (dd_hlos_key_tbl d) h = Some key /\
  hf_ctx_id f = context /\ hf_seq_id f = seqno.

(** Creation stops at the first free slot or duplicate of the sweep. *)
Lemma create_run d client_id key context seqno pending hash0 :
  table_wf d -> unlocked d -> stack_zeroed d ->
  _hw_fence_lookup_and_create client_id key context seqno pending hash0 d
  = match find_step d (create_hit d key context seqno) context seqno with
    | None => Done (None, probe d context seqno (dd_hw_fences_tbl_cnt d - 1)) (ticked d)
    | Some k => create_result (ticked d) client_id key context seqno pending 0
                  (probe d context seqno k)
    end.
Proof.
  intros Hwf Hu Hst. pose proof (tw_cnt _ Hwf).
  unfold _hw_fence_lookup_and_create. rewrite (bind_run _ _ _ d d) by done.
  rewrite create_range_run by (done || lia). unfold find_step. by rewrite Z.sub_0_r.
Qed.

(** Entry [h] is in use, by a fence with another key. *)
Definition taken_by_other (d : driver_data) (key context seqno h : Z) : Prop :=
  exists f, fence_at d h = Some f /\ hf_valid f <> 0 /\ ~ has_key d h key context seqno f.

Lemma has_key_match d h key context seqno f :
  table_wf d -> fence_at d h = Some f ->
  (key_match d key context seqno h = true <-> has_key d h key context seqno f).
Proof.
  intros Hwf E. pose proof (fence_at_bounds _ _ _ E) as Hh. rewrite (tw_tbl _ Hwf) in Hh.
  destruct (key_is_Some d h Hwf Hh) as [k Ek]. unfold key_match, has_key. rewrite E, Ek.
  rewrite !andb_true_iff, !Z.eqb_eq. split.
  - intros [[-> ->] ->]. done.
  - intros (_ & [= ->] & -> & ->). done.
Qed.

Lemma create_miss d key context seqno h :
  table_wf d -> 0 <= h < dd_hw_fences_tbl_cnt d -> create_hit d key context seqno h = false ->
  taken_by_other d key context seqno h.
Proof.
  intros Hwf Hh Hm. destruct (fence_at_is_Some d h Hwf Hh) as [f E].
  unfold create_hit in Hm. rewrite E in Hm. apply orb_false_iff in Hm as [Hv%Z.eqb_neq Hk].
  exists f. split; [done|]. split; [done|]. rewrite <- has_key_match by done. congruence.
Qed.

(** C34: [_hw_fence_lookup_and_create] returns.  It stops at the first entry of the probe
    sequence - [hash], [hash + 1] and so on, modulo the size of the table - that is free
    or has the key already: every entry before it is in use by another fence.  A free one
    is returned and belongs to the new fence, with the reference of the fence controller
    and one of the caller, and only it and its key change; a duplicate gives [NULL] and
    its index.  If there is neither in the table, the call returns [NULL].  When it
    returns [NULL] the table is as it was. *)
Theorem lookup_and_create_spec d client_id key context seqno pending hash0 :
  table_wf d -> unlocked d -> stack_zeroed d ->
  let n := dd_hw_fences_tbl_cnt d in
  let slot k := (_calculate_hash context seqno n + k) mod n in
  exists r d', _hw_fence_lookup_and_create client_id key context seqno pending hash0 d = Done r d' /\
  ((exists k f, 0 <= k < n /\ fence_at d (slot k) = Some f /\ r.2 = slot k /\
      (forall j, 0 <= j < k -> taken_by_other d key context seqno (slot j)) /\
      if hf_valid f =? 0 then
        r.1 = Some (slot k) /\ exists f',
          d' = put_key (slot k) key (put_fence (slot k) f' (ticked (ticked d))) /\
          has_key d' (slot k) key context seqno f' /\
          hf_valid f' = 1 /\ hf_refcount f' = HW_FENCE_FCTL_REFCOUNT + 1 /\
          hf_fence_allocator f' = client_id /\ hf_pending_child_cnt f' = pending
      else has_key d (slot k) key context seqno f /\ r.1 = None /\ d' = ticked d) \/
   ((forall k, 0 <= k < n -> taken_by_other d key context seqno (slot k)) /\
    r.1 = None /\ d' = ticked d)).
Proof.
  intros Hwf Hu Hst n slot. rewrite create_run by done. change slot with (probe d context seqno).
  destruct (find_step _ _ _ _) as [k|] eqn:Ek.
  - destruct (find_step_Some _ _ _ _ _ Hwf Ek) as (Hk & Hm & Hj).
    pose proof (probe_range d context seqno k Hwf) as Hr.
    destruct (fence_at_is_Some d (probe d context seqno k) Hwf Hr) as [f E].
    assert (forall j, 0 <= j < k -> taken_by_other d key context seqno (probe d context seqno j)) as Hbefore
      by (intros j Hlt; apply create_miss; auto with fence).
    unfold create_hit in Hm. unfold create_result. rewrite ticked_fence, E in *.
    destruct (hf_valid f =? 0) eqn:Hv.
    + do 2 eexists. split; [done|]. left. exists k, f. rewrite Hv. do 4 (split; [done|]).
      split; [done|]. eexists. split; [done|]. split; [|done].
      split; [by eapply fence_at_put_eq|]. split; [|done].
      simpl. apply zget_zset_eq. by rewrite (tw_key _ Hwf).
    + do 2 eexists. split; [done|]. left. exists k, f. rewrite Hv. do 4 (split; [done|]).
      split; [|done]. by apply has_key_match.
  - do 2 eexists. split; [done|]. right. split; [|done]. intros k Hk. apply create_miss; [done|auto with fence|].
    eapply find_step_None; [done|done|auto with fence].
Qed.

(** ** The state every operation starts from and returns to *)

Record table_ok (d : driver_data) : Prop := {
  to_wf : table_wf d;
  to_unlocked : unlocked d;
  to_stack : stack_zeroed d }.

Lemma table_ok_put d i f : table_ok d -> lock_free f -> table_ok (put_fence i f d).
Proof. intros [? ? ?] ?. split; [by apply table_wf_put|by apply unlocked_put|done]. Qed.

Lemma table_ok_ticked d : table_ok d -> table_ok (ticked d).
Proof. intros [? ? ?]. split; auto with fence. Qed.

Lemma table_ok_put_key d h key : table_ok d -> table_ok (put_key h key d).
Proof. intros [[] ? ?]. split; [split; simpl; rewrite ?zlen_zset|..]; done. Qed.

Lemma table_ok_unreserve d h f : table_ok d -> table_ok (unreserve_keys h f d).
Proof. intros. unfold unreserve_keys. case_match; [by apply table_ok_put_key|done]. Qed.

Lemma lock_free_at d i f : table_ok d -> fence_at d i = Some f -> lock_free f.
Proof. intros Hok. apply (to_unlocked _ Hok). Qed.

Lemma put_ref_free f : lock_free f -> lock_free (put_ref f).
Proof. unfold lock_free, put_ref. by rewrite free_entry_lock. Qed.

Lemma clear_ref_free ref f : lock_free f -> lock_free (clear_ref ref f).
Proof. unfold lock_free, clear_ref. by rewrite free_entry_lock. Qed.

#[export] Hint Resolve to_wf to_unlocked to_stack table_ok_put table_ok_ticked table_ok_put_key
  table_ok_unreserve lock_free_at put_ref_free clear_ref_free : fence.

Lemma create_returns d client_id key context seqno pending hash0 h h' d' :
  table_ok d ->
  _hw_fence_lookup_and_create client_id key context seqno pending hash0 d = Done (Some h, h') d' ->
  exists k f, find_step d (create_hit d key context seqno) context seqno = Some k /\
    h = probe d context seqno k /\ h' = h /\ fence_at d h = Some f /\ hf_valid f = 0 /\
    d' = put_key h key (put_fence h
           (reserved client_id context seqno pending (now (ticked d)) f) (ticked (ticked d))).
Proof.
  intros Hok. rewrite create_run by auto with fence.
  destruct (find_step _ _ _ _) as [k|] eqn:Ek; [|done].
  unfold create_result. rewrite ticked_fence.
  destruct (fence_at d _) as [f|] eqn:E; [|done].
  destruct (Z.eqb_spec (hf_valid f) 0); [|done]. intros [= <- <- <-]. eauto 10.
Qed.

Lemma create_table_ok d client_id key context seqno pending hash0 h h' d' :
  table_ok d ->
  _hw_fence_lookup_and_create client_id key context seqno pending hash0 d = Done (Some h, h') d' ->
  table_ok d'.
Proof.
  intros Hok H. destruct (create_returns _ _ _ _ _ _ _ _ _ _ Hok H)
    as (k & f & _ & _ & _ & E & _ & ->).
  apply table_ok_put_key, table_ok_put; [auto with fence|].
  by apply (lock_free_at _ _ _ Hok E).
Qed.

(** The entry a creation made is the one the same key finds. *)
Lemma create_find_step d client_id key context seqno pending hash0 h h' d' :
  table_ok d ->
  _hw_fence_lookup_and_create client_id key context seqno pending hash0 d = Done (Some h, h') d' ->
  exists k, find_step d' (key_match d' key context seqno) context seqno = Some k /\
    h = probe d' context seqno k.
Proof.
  intros Hok H. destruct (create_returns _ _ _ _ _ _ _ _ _ _ Hok H)
    as (k & f & Ek & Eh & _ & E & Hv & ->).
  assert (table_wf d) as Hwf by auto with fence.
  destruct (find_step_Some _ _ _ _ _ Hwf Ek) as (Hk & _ & Hbefore).
  exists k. split; [|done]. unfold find_step. apply first_hit_complete.
  - simpl. lia.
  - change (probe (put_key _ _ _)) with (probe d). rewrite <- Eh.
    unfold key_match. rewrite fence_at_put_key. erewrite fence_at_put_eq by done.
    simpl. rewrite zget_zset_eq by (rewrite (tw_key _ Hwf), Eh; by apply probe_range).
    by rewrite !Z.eqb_refl.
  - intros j Hj. change (probe (put_key _ _ _)) with (probe d).
    assert (h <> probe d context seqno j) as Hne.
    { rewrite Eh. intros Heq. apply probe_inj in Heq; [lia|done|lia..]. }
    specialize (Hbefore j Hj). unfold create_hit in Hbefore.
    unfold key_match. rewrite fence_at_put_key, fence_at_put_ne, !ticked_fence by done.
    simpl. rewrite zget_zset_ne by done.
    destruct (fence_at d (probe d context seqno j)) as [g|] eqn:Eg; [|done].
    apply orb_false_iff in Hbefore as [_ Hm]. unfold key_match in Hm. by rewrite Eg in Hm.
Qed.

Lemma create_has_key d client_id key context seqno pending hash0 h h' d' :
  table_ok d ->
  _hw_fence_lookup_and_create client_id key context seqno pending hash0 d = Done (Some h, h') d' ->
  exists f', has_key d' h key context seqno f' /\ hf_refcount f' = HW_FENCE_FCTL_REFCOUNT + 1.
Proof.
  intros Hok H. destruct (create_returns _ _ _ _ _ _ _ _ _ _ Hok H) as (k0 & f & _ & Eh0 & _ & E & _ & ->).
  eexists. split; [split; [by eapply fence_at_put_eq|split; [|done]]|done].
  simpl. apply zget_zset_eq. rewrite (tw_key d) by auto with fence. rewrite Eh0. auto with fence.
Qed.

(** Round trip.  After a successful creation, [msm_hw_fence_find] with the
    same key returns the entry that was created, with one more reference. *)
Theorem create_then_find d client_id key context seqno pending hash0 hash1 h h' d' :
  table_ok d ->
  _hw_fence_lookup_and_create client_id key context seqno pending hash0 d = Done (Some h, h') d' ->
  exists f', has_key d' h key context seqno f' /\
    msm_hw_fence_find key context seqno hash1 d'
    = Done (Some h, h) (put_fence h (get_ref f') (ticked d')) /\
    hf_refcount (get_ref f') = HW_FENCE_FCTL_REFCOUNT + 2.
Proof.
  intros Hok H. pose proof (create_table_ok _ _ _ _ _ _ _ _ _ _ Hok H) as Hok'.
  destruct (create_find_step _ _ _ _ _ _ _ _ _ _ Hok H) as (k & Ek & Eh).
  destruct (create_has_key _ _ _ _ _ _ _ _ _ _ Hok H) as (f' & Hk & Ew).
  assert (saturated f' = false) as Hs by (unfold saturated; by rewrite Ew).
  exists f'. split; [done|]. destruct Hk as (Ef' & _). split.
  - rewrite find_run by auto with fence. rewrite Ek. cbv zeta. by rewrite <- Eh, Ef', Hs.
  - simpl. by rewrite Ew.
Qed.

(** ** Reference counts

    The 32-bit word packs the reference of the fence controller (bit 31), the
    reference of the dma-fence (bit 30) and a count of the references of the
    HLOS (bits 0 to 29). *)

Record refs := mk_refs { rf_fctl : bool; rf_dma : bool; rf_hlos : Z }.

#[export] Instance eta_refs : Eta refs := fun r => mk_refs (rf_fctl r) (rf_dma r) (rf_hlos r).

Definition refs_wf (r : refs) : Prop := 0 <= rf_hlos r < 2 ^ 30.

Definition refs_word (r : refs) : Z :=
  Z.b2z (rf_fctl r) * 2 ^ 31 + Z.b2z (rf_dma r) * 2 ^ 30 + rf_hlos r.

Definition no_refs (r : refs) : bool := negb (rf_fctl r) && negb (rf_dma r) && (rf_hlos r =? 0).

(** The entry [f] once its references are [r]: freed and wiped with the last. *)
Definition set_refs (r : refs) (f : msm_hw_fence) : msm_hw_fence :=
  if no_refs r then (_cleanup_hw_fence f) <| hf_valid := 0 |>
  else f <| hf_refcount := refs_word r |>.

Lemma refs_word_zero r : refs_wf r -> (refs_word r =? 0) = no_refs r.
Proof.
  intros Hr. unfold refs_wf, refs_word, no_refs in *.
  destruct (rf_fctl r), (rf_dma r); simpl; lia.
Qed.

Lemma refs_word_u32 r : refs_wf r -> in_u32 (refs_word r).
Proof.
  intros Hr. unfold refs_wf, refs_word, in_u32 in *.
  destruct (rf_fctl r), (rf_dma r); simpl; lia.
Qed.

Lemma refs_word_fctl r : refs_wf r -> flag (refs_word r) HW_FENCE_FCTL_REFCOUNT = rf_fctl r.
Proof.
  intros Hr. unfold HW_FENCE_FCTL_REFCOUNT. rewrite flag_BIT by lia.
  apply Z.b2z_inj. rewrite Z.testbit_spec' by lia. unfold refs_wf, refs_word in *.
  destruct (rf_fctl r), (rf_dma r); simpl Z.b2z; Z.div_mod_to_equations; lia.
Qed.

Lemma refs_word_dma r : refs_wf r -> flag (refs_word r) HW_FENCE_DMA_FENCE_REFCOUNT = rf_dma r.
Proof.
  intros Hr. unfold HW_FENCE_DMA_FENCE_REFCOUNT. rewrite flag_BIT by lia.
  apply Z.b2z_inj. rewrite Z.testbit_spec' by lia. unfold refs_wf, refs_word in *.
  destruct (rf_fctl r), (rf_dma r); simpl Z.b2z; Z.div_mod_to_equations; lia.
Qed.

Lemma refs_word_hlos r :
  refs_wf r -> Z.land (refs_word r) HW_FENCE_HLOS_REFCOUNT_MASK = rf_hlos r.
Proof.
  intros Hr. unfold HW_FENCE_HLOS_REFCOUNT_MASK. rewrite Z.land_ones by lia.
  unfold refs_wf, refs_word in *.
  destruct (rf_fctl r), (rf_dma r); simpl Z.b2z; Z.div_mod_to_equations; lia.
Qed.

(** Clearing a bit that is set subtracts it. *)
Lemma clear_BIT x n : 0 <= n -> flag x (BIT n) = true -> clear x (BIT n) = x - BIT n.
Proof.
  intros Hn Hx. rewrite flag_BIT in Hx by done. unfold clear. symmetry.
  apply Z.sub_nocarry_ldiff, Z.bits_inj'. intros m Hm.
  rewrite Z.ldiff_spec, testbit_BIT, Z.testbit_0_l by done.
  case_bool_decide; [subst; by rewrite Hx|done].
Qed.

Lemma free_entry_refs f r :
  refs_wf r -> hf_refcount f = refs_word r ->
  free_entry f = set_refs r (f <| hf_refcount := refs_word r |>).
Proof.
  intros Hr E. unfold free_entry, set_refs. rewrite E, refs_word_zero by done.
  destruct (no_refs r); [done|]. simpl. rewrite <- E. by destruct f.
Qed.

Lemma set_refs_set_refcount f r w : set_refs r (f <| hf_refcount := w |>) = set_refs r f.
Proof. unfold set_refs. by case_match. Qed.

Lemma get_ref_refs f r :
  refs_wf r -> hf_refcount f = refs_word r -> saturated f = false ->
  get_ref f = set_refs (r <| rf_hlos ::= Z.add 1 |>) f.
Proof.
  intros Hr E Hs. unfold saturated in Hs. rewrite E, refs_word_hlos in Hs by done.
  apply Z.eqb_neq in Hs. change HW_FENCE_HLOS_REFCOUNT_MASK with (2 ^ 30 - 1) in Hs.
  pose proof (refs_word_u32 r Hr) as Hu. unfold refs_wf, in_u32 in *.
  unfold get_ref, set_refs. replace (no_refs _) with false.
  - simpl. rewrite E, u32_id; [f_equal; unfold refs_word; simpl; lia|].
    unfold in_u32, refs_word in *. destruct (rf_fctl r), (rf_dma r); simpl Z.b2z in *; lia.
  - unfold no_refs. simpl. destruct (rf_fctl r), (rf_dma r); simpl; try done. lia.
Qed.

Lemma put_ref_refs f r :
  refs_wf r -> hf_refcount f = refs_word r -> rf_hlos r <> 0 ->
  put_ref f = set_refs (r <| rf_hlos ::= Z.pred |>) f.
Proof.
  intros Hr E Hs. pose proof (refs_word_u32 r Hr) as Hu. unfold refs_wf, in_u32 in *.
  unfold put_ref. rewrite (free_entry_refs _ (r <| rf_hlos ::= Z.pred |>)).
  - by rewrite !set_refs_set_refcount.
  - unfold refs_wf. simpl. lia.
  - simpl. rewrite E, u32_id; [unfold refs_word; simpl; lia|].
    unfold in_u32, refs_word in *. destruct (rf_fctl r), (rf_dma r); simpl Z.b2z in *; lia.
Qed.

Lemma clear_fctl_refs f r :
  refs_wf r -> hf_refcount f = refs_word r -> rf_fctl r = true ->
  clear_ref HW_FENCE_FCTL_REFCOUNT f = set_refs (r <| rf_fctl := false |>) f.
Proof.
  intros Hr E Hs. pose proof (refs_word_fctl r Hr) as Hf. rewrite Hs in Hf.
  unfold clear_ref. rewrite (free_entry_refs _ (r <| rf_fctl := false |>)); [| done |].
  - by rewrite !set_refs_set_refcount.
  - simpl. rewrite E. unfold HW_FENCE_FCTL_REFCOUNT in *. rewrite clear_BIT by (done || lia).
    unfold refs_word. rewrite Hs. simpl. change (BIT 31) with (2 ^ 31). lia.
Qed.

Lemma clear_dma_refs f r :
  refs_wf r -> hf_refcount f = refs_word r -> rf_dma r = true ->
  clear_ref HW_FENCE_DMA_FENCE_REFCOUNT f = set_refs (r <| rf_dma := false |>) f.
Proof.
  intros Hr E Hs. pose proof (refs_word_dma r Hr) as Hf. rewrite Hs in Hf.
  unfold clear_ref. rewrite (free_entry_refs _ (r <| rf_dma := false |>)); [| done |].
  - by rewrite !set_refs_set_refcount.
  - simpl. rewrite E. unfold HW_FENCE_DMA_FENCE_REFCOUNT in *. rewrite clear_BIT by (done || lia).
    unfold refs_word. rewrite Hs. simpl. change (BIT 30) with (2 ^ 30). lia.
Qed.

Lemma drop_fctl_refs_run d h f r :
  table_ok d -> fence_at d h = Some f -> refs_wf r -> hf_refcount f = refs_word r ->
  hw_fence_destroy_refcount h HW_FENCE_FCTL_REFCOUNT d =
    if rf_fctl r then Done 0 (put_fence h (set_refs (r <| rf_fctl := false |>) f) d)
    else Done (- EINVAL) d.
Proof.
  intros Hok E Hr Ew. rewrite (destroy_refcount_run _ _ _ _ (to_wf _ Hok) (to_unlocked _ Hok) E).
  rewrite Ew, refs_word_fctl by done. destruct (rf_fctl r) eqn:Ef; [|done].
  by erewrite clear_fctl_refs by done.
Qed.

Lemma drop_dma_refs_run d h f r :
  table_ok d -> fence_at d h = Some f -> refs_wf r -> hf_refcount f = refs_word r ->
  hw_fence_destroy_refcount h HW_FENCE_DMA_FENCE_REFCOUNT d =
    if rf_dma r then Done 0 (put_fence h (set_refs (r <| rf_dma := false |>) f) d)
    else Done (- EINVAL) d.
Proof.
  intros Hok E Hr Ew. rewrite (destroy_refcount_run _ _ _ _ (to_wf _ Hok) (to_unlocked _ Hok) E).
  rewrite Ew, refs_word_dma by done. destruct (rf_dma r) eqn:Ef; [|done].
  by erewrite clear_dma_refs by done.
Qed.

(** C5: reference counting.  On an entry whose word stands for the references [r],
    each operation does to the word, and to the entry, what it should do to [r]:
    it refuses to give a reference past 2^30-1 or to drop one that is not held,
    it never disturbs the other two references, and the entry is wiped and freed
    exactly when its last reference goes. *)
Theorem refcount_refines d h f r :
  table_ok d -> fence_at d h = Some f -> refs_wf r -> hf_refcount f = refs_word r ->
  (_fence_found h d =
     if rf_hlos r =? 2 ^ 30 - 1 then Done (- EINVAL) d
     else Done 0 (put_fence h (set_refs (r <| rf_hlos ::= Z.add 1 |>) f) d)) /\
  (_unreserve_hw_fence h d =
     if rf_hlos r =? 0 then Done (- EINVAL) d
     else let r' := r <| rf_hlos ::= Z.pred |> in
          Done 0 ((if no_refs r' then put_key h 0 else id) (put_fence h (set_refs r' f) d))) /\
  (hw_fence_destroy_refcount h HW_FENCE_FCTL_REFCOUNT d =
     if rf_fctl r then Done 0 (put_fence h (set_refs (r <| rf_fctl := false |>) f) d)
     else Done (- EINVAL) d) /\
  (hw_fence_destroy_refcount h HW_FENCE_DMA_FENCE_REFCOUNT d =
     if rf_dma r then Done 0 (put_fence h (set_refs (r <| rf_dma := false |>) f) d)
     else Done (- EINVAL) d).
Proof.
  intros Hok E Hr Ew. pose proof (refs_word_hlos r Hr) as Hh.
  assert (saturated f = (rf_hlos r =? 2 ^ 30 - 1)) as Hs by (unfold saturated; by rewrite Ew, Hh).
  repeat split.
  - rewrite (fence_found_run _ _ _ E). fold (saturated f). rewrite Hs.
    destruct (_ =? _) eqn:Eq; [done|]. by erewrite get_ref_refs by (done || congruence).
  - rewrite (unreserve_run _ _ _ E). unfold flag. rewrite Ew, Hh.
    destruct (Z.eqb_spec (rf_hlos r) 0) as [|Hnz]; [done|]. cbv beta zeta iota delta [negb].
    erewrite put_ref_refs by done. unfold unreserve_keys. simpl.
    assert (refs_wf (r <| rf_hlos ::= Z.pred |>)) as Hr' by (unfold refs_wf in *; simpl; lia).
    rewrite Ew, u32_id by (pose proof (refs_word_u32 _ Hr); unfold in_u32, refs_wf, refs_word in *;
                           destruct (rf_fctl r), (rf_dma r); simpl Z.b2z in *; lia).
    pose proof (refs_word_zero _ Hr') as Hz. unfold refs_word in Hz at 1. simpl in Hz.
    replace (refs_word r - 1) with (Z.b2z (rf_fctl r) * 2 ^ 31 + Z.b2z (rf_dma r) * 2 ^ 30
      + Z.pred (rf_hlos r)) by (unfold refs_word; lia). simpl. rewrite Hz.
    by destruct (no_refs _).
  - by apply drop_fctl_refs_run.
  - by apply drop_dma_refs_run.
Qed.

(** ** The invariant of the table *)

Record entry_wf (f : msm_hw_fence) : Prop := {
  ew_refs : exists r, refs_wf r /\ hf_refcount f = refs_word r;
  ew_valid : hf_valid f = 0 <-> hf_refcount f = 0;
  ew_clean : hf_valid f = 0 -> hf_ctx_id f = 0 /\ hf_seq_id f = 0 }.

Definition table_inv (d : driver_data) : Prop :=
  table_ok d /\ forall i f, fence_at d i = Some f -> entry_wf f.

Lemma entry_wf_set_refs r f :
  refs_wf r -> hf_valid f <> 0 -> entry_wf (set_refs r f).
Proof.
  intros Hr Hv. unfold set_refs. pose proof (refs_word_zero r Hr) as Hz.
  destruct (no_refs r); split; simpl; try done.
  - by exists (mk_refs false false 0).
  - by exists r.
  - apply Z.eqb_neq in Hz. lia.
Qed.

Lemma table_inv_put d h f : table_inv d -> lock_free f -> entry_wf f -> table_inv (put_fence h f d).
Proof.
  intros [Hok Hi] Hf Hw. split; [by apply table_ok_put|].
  intros i g. unfold fence_at, put_fence. simpl. rewrite zget_zset.
  case_decide; [by intros [= <-]|apply Hi].
Qed.

Lemma table_inv_ticked d : table_inv d -> table_inv (ticked d).
Proof. intros [? ?]. split; auto with fence. Qed.

Lemma table_inv_put_key d h key : table_inv d -> table_inv (put_key h key d).
Proof. intros [? ?]. split; auto with fence. Qed.

Lemma table_inv_ok d : table_inv d -> table_ok d.
Proof. by intros []. Qed.

#[export] Hint Resolve table_inv_ok table_inv_put table_inv_ticked table_inv_put_key : fence.

(** An entry that can be found by a key of a real fence is in use. *)
Lemma key_match_valid d key context seqno h f :
  table_inv d -> context <> 0 -> key_match d key context seqno h = true ->
  fence_at d h = Some f -> hf_valid f <> 0.
Proof.
  intros [_ Hi] Hc Hm E Hv. destruct (ew_clean _ (Hi _ _ E) Hv) as [Hz _].
  unfold key_match in Hm. rewrite E in Hm. destruct (zget (dd_hlos_key_tbl d) h); [|done].
  destruct (Z.eqb_spec (hf_ctx_id f) context); [congruence|done].
Qed.

Lemma entry_wf_get_ref f :
  entry_wf f -> hf_valid f <> 0 -> saturated f = false -> entry_wf (get_ref f).
Proof.
  intros [(r & Hr & Ew) _ _] Hv Hs. rewrite (get_ref_refs f r) by done.
  apply entry_wf_set_refs; [|done]. unfold saturated in Hs. rewrite Ew, refs_word_hlos in Hs by done.
  apply Z.eqb_neq in Hs. change HW_FENCE_HLOS_REFCOUNT_MASK with (2 ^ 30 - 1) in Hs.
  unfold refs_wf in *. simpl. lia.
Qed.

Lemma entry_wf_put_ref f :
  entry_wf f -> hf_valid f <> 0 -> flag (hf_refcount f) HW_FENCE_HLOS_REFCOUNT_MASK = true ->
  entry_wf (put_ref f).
Proof.
  intros [(r & Hr & Ew) _ _] Hv Hs. unfold flag in Hs. rewrite Ew, refs_word_hlos in Hs by done.
  apply negb_true_iff, Z.eqb_neq in Hs. rewrite (put_ref_refs f r) by done.
  apply entry_wf_set_refs; [|done]. unfold refs_wf in *. simpl. lia.
Qed.

Lemma entry_wf_clear_ref ref f :
  ref = HW_FENCE_FCTL_REFCOUNT \/ ref = HW_FENCE_DMA_FENCE_REFCOUNT ->
  entry_wf f -> flag (hf_refcount f) ref = true -> entry_wf (clear_ref ref f).
Proof.
  intros Href [(r & Hr & Ew) Hv _] Hs.
  assert (hf_valid f <> 0) as Hv'.
  { intros Hz. rewrite Hv in Hz. rewrite Hz in Hs. by destruct Href; subst. }
  rewrite Ew in Hs. destruct Href; subst;
    rewrite ?refs_word_fctl, ?refs_word_dma in Hs by done;
    [rewrite (clear_fctl_refs f r) by done|rewrite (clear_dma_refs f r) by done];
    by apply entry_wf_set_refs.
Qed.

Lemma entry_wf_reserved client_id context seqno pending t f :
  entry_wf (reserved client_id context seqno pending t f).
Proof. split; simpl; try done. by exists (mk_refs true false 1). Qed.

(** One operation on the table, by any client. *)
Inductive table_op :=
| OpCreate (client_id key context seqno pending : Z)
| OpFind (key context seqno : Z)
| OpDestroy (key context seqno : Z)
| OpDropRef (hash ref : Z).

Definition run_op (o : table_op) : DRV unit :=
  match o with
  | OpCreate client_id key context seqno pending =>
      _hw_fence_lookup_and_create client_id key context seqno pending 0;;; ret tt
  | OpFind key context seqno => msm_hw_fence_find key context seqno 0;;; ret tt
  | OpDestroy key context seqno => hw_fence_destroy key context seqno;;; ret tt
  | OpDropRef hash ref => hw_fence_destroy_refcount hash ref;;; ret tt
  end.

(** dma-fence contexts are numbered from 1, a reference is one of the two bits,
    an index comes from a 64-bit word. *)
Definition op_ok (o : table_op) : Prop :=
  match o with
  | OpCreate _ _ context _ _ | OpFind _ context _ | OpDestroy _ context _ => context <> 0
  | OpDropRef hash ref =>
      0 <= hash /\ (ref = HW_FENCE_FCTL_REFCOUNT \/ ref = HW_FENCE_DMA_FENCE_REFCOUNT)
  end.

Lemma create_inv d client_id key context seqno pending :
  table_inv d -> wp (_hw_fence_lookup_and_create client_id key context seqno pending 0)
                    (fun _ d' => table_inv d') d.
Proof.
  intros Hi. unfold wp. rewrite create_run by auto with fence.
  destruct (find_step _ _ _ _); [|by auto with fence].
  unfold create_result. rewrite ticked_fence.
  destruct (fence_at_is_Some d (probe d context seqno z)) as [f E]; [auto with fence..|].
  rewrite E. destruct (hf_valid f =? 0); [|exact (table_inv_ticked _ Hi)].
  apply table_inv_put_key, table_inv_put; [auto with fence| |apply entry_wf_reserved].
  apply (lock_free_at d _ _ (table_inv_ok _ Hi) E).
Qed.

Lemma find_inv d key context seqno :
  table_inv d -> context <> 0 -> wp (msm_hw_fence_find key context seqno 0) (fun _ => table_inv) d.
Proof.
  intros Hi Hc. unfold wp. rewrite find_run by auto with fence.
  destruct (find_step _ _ _ _) as [k|] eqn:Ek; [|by auto with fence]. cbv zeta.
  destruct (fence_at_is_Some d (probe d context seqno k)) as [f E]; [auto with fence..|].
  rewrite E. destruct (saturated f) eqn:Es; [by auto with fence|].
  apply find_step_Some in Ek as (_ & Hm & _); [|auto with fence].
  apply table_inv_put; [auto with fence|apply (lock_free_at d _ _ (table_inv_ok _ Hi) E)|].
  apply entry_wf_get_ref; [by eapply Hi|by eapply key_match_valid|done].
Qed.

Lemma destroy_inv d key context seqno :
  table_inv d -> context <> 0 -> wp (hw_fence_destroy key context seqno) (fun _ => table_inv) d.
Proof.
  intros Hi Hc. unfold wp. rewrite destroy_run by auto with fence.
  destruct (find_step _ _ _ _) as [k|] eqn:Ek; [|by auto with fence]. cbv zeta.
  destruct (fence_at_is_Some d (probe d context seqno k)) as [f E]; [auto with fence..|].
  rewrite E. destruct (flag _ _) eqn:Es; [|by auto with fence].
  apply find_step_Some in Ek as (_ & Hm & _); [|auto with fence].
  assert (table_inv (put_fence (probe d context seqno k) (put_ref f) (ticked d))).
  { apply table_inv_put; [auto with fence| |].
    - apply put_ref_free, (lock_free_at d _ _ (table_inv_ok _ Hi) E).
    - apply entry_wf_put_ref; [by eapply Hi|by eapply key_match_valid|done]. }
  unfold unreserve_keys. case_match; [by apply table_inv_put_key|done].
Qed.

Lemma drop_ref_inv d h ref :
  table_inv d -> 0 <= h -> ref = HW_FENCE_FCTL_REFCOUNT \/ ref = HW_FENCE_DMA_FENCE_REFCOUNT ->
  wp (hw_fence_destroy_refcount h ref) (fun _ => table_inv) d.
Proof.
  intros Hi Hh Href. unfold wp. pose proof (table_inv_ok _ Hi) as Hok.
  destruct (decide (h < dd_hw_fences_tbl_cnt d)).
  - destruct (fence_at_is_Some d h) as [f E]; [auto with fence|done|].
    rewrite (destroy_refcount_run _ _ _ _ (to_wf _ Hok) (to_unlocked _ Hok) E).
    destruct (flag _ _) eqn:Es; [|done].
    apply table_inv_put; [done|by eapply clear_ref_free, lock_free_at|].
    apply entry_wf_clear_ref; [done|by eapply Hi|done].
  - by rewrite destroy_refcount_bad by (auto with fence || lia).
Qed.

Lemma run_op_inv o d : table_inv d -> op_ok o -> wp (run_op o) (fun _ => table_inv) d.
Proof.
  intros Hi Ho. destruct o; simpl; apply wp_bind; apply (wp_mono _ (fun _ => table_inv)); try done;
    [apply create_inv|apply find_inv|apply destroy_inv|apply drop_ref_inv]; try done; apply Ho.
Qed.

Lemma run_ops_inv ops d :
  table_inv d -> Forall op_ok ops ->
  wp (foldr (fun o m => run_op o;;; m) (ret tt) ops) (fun _ => table_inv) d.
Proof.
  intros Hi Hops. revert d Hi. induction Hops as [|o ops Ho _ IH]; intros d Hi; [done|].
  simpl. apply wp_bind. apply (wp_mono _ (fun _ => table_inv)); [by apply run_op_inv|].
  intros ? ? Hd. by apply IH.
Qed.

(** Whatever sequence of creations, lookups, releases and reference drops the
    clients run, it never blocks on a lock nor leaves the table, and it keeps the
    table's invariant: every lock free, every reference word well formed, an
    entry in use exactly while it has references, free entries wiped. *)
Theorem table_ops_keep_inv ops d :
  table_inv d -> Forall op_ok ops ->
  wp (foldr (fun o m => run_op o;;; m) (ret tt) ops) (fun _ d' => table_inv d') d.
Proof. apply run_ops_inv. Qed.

(** ** Two limits of the lookup *)

(** The loop's [hw_fence_found] is tested before it is ever assigned.  When
    the automatic variable happens to be nonzero, the loop body never runs: the
    lookup returns the first probed entry, whatever its key, and leaves its lock
    held, so that the next operation on it never returns. *)
Theorem find_with_stale_flag d key context seqno hash0 :
  table_wf d -> unlocked d -> env_stack_bool (dd_env d) (dd_tick d) = true ->
  let h := probe d context seqno 0 in
  exists d', msm_hw_fence_find key context seqno hash0 d = Done (Some h, h) d' /\
    lock_fence h d' = Faulted Deadlock.
Proof.
  intros Hwf Hu Hst h. pose proof (tw_cnt _ Hwf) as Hc.
  destruct (fence_at_is_Some d h Hwf) as [f E]; [by apply probe_range|].
  exists (locked_at h (ticked d)). split.
  - unfold msm_hw_fence_find, _hw_fence_lookup_and_process. rewrite (bind_run _ _ _ d d) by done.
    unfold _hw_fence_lookup_and_process_range, for_each_hw_fence.
    rewrite bind_assoc. erewrite bind_run by done. rewrite Hst, bind_assoc.
    assert (0 <= 0 < dd_hw_fences_tbl_cnt d) as H0 by lia.
    rewrite (bind_run _ _ _ _ _ (iterator_init_run (ticked d) context seqno 0
               (dd_hw_fences_tbl_cnt d) (table_wf_ticked _ Hwf) Hu H0 ltac:(simpl; lia))).
    change (probe (ticked d)) with (probe d). fold h.
    destruct (Z.to_nat (dd_hw_fences_tbl_cnt d - 0)); simpl; by rewrite andb_false_r.
  - eapply lock_fence_blocked; [by apply locked_at_fence|].
    unfold lock_free. rewrite with_lock_held. done.
Qed.

(** The duplicate check of the creation ends at the first free slot.  If a
    slot is freed earlier in the sweep than a live entry of the same key,
    creating the fence again succeeds and two entries answer to one key. *)
Theorem create_can_duplicate d client_id key context seqno pending h2 f2 h h' d' :
  table_ok d -> has_key d h2 key context seqno f2 -> hf_valid f2 <> 0 ->
  _hw_fence_lookup_and_create client_id key context seqno pending 0 d = Done (Some h, h') d' ->
  h <> h2 /\ has_key d' h2 key context seqno f2 /\ exists f, has_key d' h key context seqno f.
Proof.
  intros Hok (E2 & Hk2 & Hkey) Hv2 H.
  destruct (create_has_key _ _ _ _ _ _ _ _ _ _ Hok H) as (f' & Hf' & _).
  destruct (create_returns _ _ _ _ _ _ _ _ _ _ Hok H) as (k & f & _ & _ & _ & E & Hv & ->).
  assert (h <> h2) as Hne by congruence. split; [done|]. split; [|by exists f'].
  split; [by rewrite fence_at_put_key, fence_at_put_ne|]. split; [|done].
  simpl. by rewrite zget_zset_ne.
Qed.

(** ** Concrete tables *)

(** A test of [table_ok], all but the environment. *)
Definition table_okb (d : driver_data) : bool :=
  (0 <? dd_hw_fences_tbl_cnt d) && (dd_hw_fences_tbl_cnt d <? 2 ^ 31) &&
  (zlen (dd_hw_fences_tbl d) =? dd_hw_fences_tbl_cnt d) &&
  (zlen (dd_hlos_key_tbl d) =? dd_hw_fences_tbl_cnt d) &&
  (dd_hw_fence_table_entries d =? dd_hw_fences_tbl_cnt d) &&
  forallb (fun f => lock_lo (hf_lock f) =? 0) (dd_hw_fences_tbl d).

Lemma zget_elem {A} (l : list A) i x : zget l i = Some x -> In x l.
Proof.
  unfold zget. case_match; [|done]. intros Hx%list_elem_of_lookup_2.
  by apply list_elem_of_In.
Qed.

Lemma table_okb_sound d : table_okb d = true -> stack_zeroed d -> table_ok d.
Proof.
  unfold table_okb. intros H Hs.
  apply andb_true_iff in H as [H Hl]. repeat (apply andb_true_iff in H as [H ?]).
  split; [split; lia| |done]. intros i f E%zget_elem.
  rewrite forallb_forall in Hl. specialize (Hl _ E). unfold lock_free. lia.
Qed.

Definition blank_fence : msm_hw_fence :=
  mk_hw_fence 0 0 0 0 0 0 0 0 0 (replicate 3 HW_FENCE_INVALID_PARENT_FENCE) 0 0 0 0 0 0 0 [0].

Definition quiet_env : environment :=
  mk_env (fun n => 1000 + Z.of_nat n) (fun _ _ => false) (fun _ _ => false) (fun _ => false)
    (fun _ => false) (fun n => 4096 + Z.of_nat n) (fun _ => 0) (fun _ => true)
    (fun _ => 2 ^ 32 - 1) (fun _ => []).

Definition no_layout : mem_layout := mk_layout true 0 0 0 0 0 [] 0 0 [] 0 0.

(** A driver with an empty table of [n] entries and no client. *)
Definition blank_driver (n : Z) : driver_data :=
  mk_driver true true n no_layout 0 0 0 (replicate (Z.to_nat n) blank_fence) (replicate (Z.to_nat n) 0) n
    [] 0 [] 0 0 0 0 [] [] true ∅ true 0 1 true true 0 1 false false 1 0 ∅ quiet_env 0 [].

Lemma blank_table_inv n : 0 < n < 2 ^ 31 -> table_inv (blank_driver n).
Proof.
  intros Hn. split; [split|].
  - split; simpl; try done; unfold zlen; rewrite length_replicate; lia.
  - intros i f E. apply zget_replicate_eq in E. by subst.
  - done.
  - intros i f E. apply zget_replicate_eq in E. subst. split; simpl; try done.
    by exists (mk_refs false false 0).
Qed.

(** The driver after running [m] on a table of [n] entries. *)
Definition after {A} (m : DRV A) (d : driver_data) : driver_data :=
  match m d with Done _ d' => d' | Faulted _ => d end.

Lemma wp_after {A} (m : DRV A) (P : driver_data -> Prop) d : wp m (fun _ => P) d -> P (after m d).
Proof. unfold wp, after. by destruct (m d). Qed.

Definition table8 : driver_data := blank_driver 8.

Lemma table8_ok : table_ok table8.
Proof. by apply table_inv_ok, blank_table_inv. Qed.

Example create_twice_fails :
  (_hw_fence_lookup_and_create 2 99 7 5 0 0;;; _hw_fence_lookup_and_create 2 99 7 5 0 0) table8
  = Done (None, probe table8 7 5 0)
      (ticked (after (_hw_fence_lookup_and_create 2 99 7 5 0 0) table8)).
Proof. vm_compute. reflexivity. Qed.

(** ** Witnesses *)

Lemma for_each_visits_witness :
  exists l, for_each_hw_fence (watch (fun _ => false)) 7 5 0 0 8 table8
            = Done (false, 0, probe table8 7 5 7) (saw l (ticked table8)) /\ l ≡ₚ seqZ 0 8.
Proof.
  destruct (for_each_visits_in_order table8 (fun _ => false) 7 5 0 0 8) as [(k & _ & H & _)|(_ & H & Hp)].
  - apply table8_ok.
  - apply table8_ok.
  - apply table8_ok.
  - lia.
  - reflexivity.
  - discriminate.
  - eexists. split; [exact H|]. exact (Hp eq_refl eq_refl).
Defined.

Lemma find_complete_witness :
  exists r d', msm_hw_fence_find 99 7 5 0 table8 = Done r d' /\ r.1 = None /\ d' = ticked table8.
Proof.
  destruct (msm_hw_fence_find_complete table8 99 7 5 0) as (r & d' & H & Hr);
    [apply table8_ok..|].
  exists r, d'. split; [exact H|]. vm_compute in H. injection H as <- <-. split; reflexivity.
Defined.

Lemma lookup_and_create_witness :
  exists r d', _hw_fence_lookup_and_create 2 99 7 5 0 0 table8 = Done r d' /\
    r.1 = Some (probe table8 7 5 0).
Proof.
  destruct (lookup_and_create_spec table8 2 99 7 5 0 0) as (r & d' & H & _);
    [apply table8_ok|apply table8_ok|apply table8_ok|].
  exists r, d'. split; [exact H|]. vm_compute in H. injection H as <- _. reflexivity.
Defined.

Lemma create_then_find_witness :
  let d' := after (_hw_fence_lookup_and_create 2 99 7 5 0 0) table8 in
  let h := probe table8 7 5 0 in
  exists f', has_key d' h 99 7 5 f' /\
    msm_hw_fence_find 99 7 5 0 d' = Done (Some h, h) (put_fence h (get_ref f') (ticked d')).
Proof.
  destruct (create_then_find table8 2 99 7 5 0 0 0 (probe table8 7 5 0) (probe table8 7 5 0)
              (after (_hw_fence_lookup_and_create 2 99 7 5 0 0) table8)) as (f' & H1 & H2 & _).
  - apply table8_ok.
  - vm_compute. reflexivity.
  - exists f'. split; [exact H1|exact H2].
Defined.

Definition created8 : driver_data := after (_hw_fence_lookup_and_create 2 99 7 5 0 0) table8.

Lemma created8_ok : table_ok created8.
Proof.
  eapply (create_table_ok table8 2 99 7 5 0 0 (probe table8 7 5 0)); [apply table8_ok|].
  vm_compute. reflexivity.
Qed.

Definition fence8 : msm_hw_fence := default blank_fence (fence_at created8 (probe table8 7 5 0)).

Lemma refcount_refines_witness :
  _unreserve_hw_fence (probe table8 7 5 0) created8
  = Done 0 (put_fence (probe table8 7 5 0) (set_refs (mk_refs true false 0) fence8) created8).
Proof.
  refine (proj1 (proj2 (refcount_refines created8 (probe table8 7 5 0) fence8
                          (mk_refs true false 1) created8_ok _ _ _))).
  - vm_compute. reflexivity.
  - split; [discriminate|reflexivity].
  - vm_compute. reflexivity.
Defined.

Lemma table_ops_witness :
  wp (run_op (OpCreate 2 99 7 5 0);;; run_op (OpFind 99 7 5);;; run_op (OpDestroy 99 7 5);;; ret tt)
    (fun _ d' => table_inv d') table8.
Proof.
  apply (table_ops_keep_inv [OpCreate 2 99 7 5 0; OpFind 99 7 5; OpDestroy 99 7 5] table8).
  - apply blank_table_inv. split; reflexivity.
  - repeat constructor; discriminate.
Defined.

Definition stale8 : driver_data :=
  table8 <| dd_env := quiet_env <| env_stack_bool := fun _ => true |> |>.

Lemma stale_flag_witness :
  exists d', msm_hw_fence_find 99 7 5 0
      stale8 = Done (Some (probe table8 7 5 0), probe table8 7 5 0) d' /\
    lock_fence (probe table8 7 5 0) d' = Faulted Deadlock.
Proof.
  apply (find_with_stale_flag stale8 99 7 5 0).
  - destruct table8_ok as [[] _ _]. split; assumption.
  - exact (to_unlocked _ table8_ok).
  - reflexivity.
Defined.

(** Two fences whose first probes meet; the first is then released. *)
Definition hole8 : driver_data :=
  after (foldr (fun o m => run_op o;;; m) (ret tt)
           [OpCreate 2 99 7 5 0; OpCreate 2 99 7 13 0;
            OpDropRef (probe table8 7 5 0) HW_FENCE_FCTL_REFCOUNT; OpDestroy 99 7 5]) table8.

Lemma hole8_ok : table_ok hole8.
Proof.
  apply table_inv_ok. unfold hole8. apply (wp_after _ table_inv), run_ops_inv;
    [by apply blank_table_inv|]. repeat constructor; discriminate.
Qed.

Lemma create_can_duplicate_witness :
  let d' := after (_hw_fence_lookup_and_create 2 99 7 13 0 0) hole8 in
  exists h2 h f2 f, h <> h2 /\ has_key d' h2 99 7 13 f2 /\ has_key d' h 99 7 13 f.
Proof.
  set (h2 := probe table8 7 13 1). set (h := probe table8 7 13 0).
  set (f2 := default blank_fence (fence_at hole8 h2)).
  destruct (create_can_duplicate hole8 2 99 7 13 0 h2 f2 h h
              (after (_hw_fence_lookup_and_create 2 99 7 13 0 0) hole8)) as (H1 & H2 & f & H3).
  - exact hole8_ok.
  - split; [|split; [|split]]; vm_compute; reflexivity.
  - vm_compute. discriminate.
  - vm_compute. reflexivity.
  - exists h2, h, f2, f. split; [exact H1|]. split; [exact H2|exact H3].
Defined.
