(* ===== verification/HwFenceRef.v ===== *)
(** * Handles, references and dma-fences

    [src/hw_fence_drv_priv.c]: creating a hardware fence for a client, dropping
    references by handle, the table of the driver's own dma-fences, and the
    release callback of [include/hw_fence_drv_fence.h] that ties the two life
    times together; [msm_hw_fence_destroy] of [src/msm_hw_fence.c], which that
    callback uses.

    A client handle is the index of the client in [dd_clients], [None] for a null
    or error pointer; a [struct dma_fence *] is its key in [dd_dma_fences]. *)
From S2P Require Import Prelude HwFenceTypes HwFenceTable.
From stdpp Require Import gmap.
From Stdlib Require Import Lia.
#[local] Open Scope Z_scope.

Definition ENOENT : Z := 2.

(** ** Calls into the kernel's dma-fence code *)

Definition dma_fence_get (fence : Z) : DRV unit := log_event (EvDmaGet fence).

(** Refuses a fence that is signaled already. *)
Definition dma_fence_add_callback (fence hash : Z) : DRV Z :=
  signaled <-- dma_fence_is_signaled fence;
  if signaled : bool then ret (- ENOENT)
  else log_event (EvDmaAddCb fence hash);;; ret 0.

Definition dma_fence_set_error (fence error : Z) : DRV unit :=
  update_dma_fence fence (fun f => f <| df_error := i32 error |>);;;
  log_event (EvDmaSetError fence (i32 error)).

Definition set_dma_flag (fence bit : Z) : DRV unit :=
  update_dma_fence fence (fun f => f <| df_flags ::= fun x => Z.lor x (BIT bit) |>).

Definition clear_dma_flag (fence bit : Z) : DRV unit :=
  update_dma_fence fence (fun f => f <| df_flags ::= fun x => clear x (BIT bit) |>).

Definition test_dma_flag (f : dma_fence) (bit : Z) : bool := flag (df_flags f) (BIT bit).

(** ** Entry checks *)

Definition hw_fence_check_hw_fence_driver : DRV Z :=
  d <-- get; ret (if dd_resources_ready d then 0 else - EINVAL).

Definition hw_fence_check_valid_client (client_handle : option Z) : DRV Z :=
  r <-- hw_fence_check_hw_fence_driver;
  if negb (r =? 0) then ret r
  else ret (match client_handle with None => - EINVAL | Some _ => 0 end).

Definition hw_fence_check_valid_fctl (client_handle : option Z) : DRV Z :=
  r <-- hw_fence_check_valid_client client_handle;
  if negb (r =? 0) then ret r
  else d <-- get; ret (if dd_fctl_ready d then 0 else - EAGAIN).

(** ** [msm_hw_fence_destroy] *)

Definition msm_hw_fence_destroy (client_handle fence : option Z) : DRV Z :=
  r <-- hw_fence_check_valid_client client_handle;
  if negb (r =? 0) then ret r
  else
    match client_handle, fence with
    | Some ch, Some fence =>
        f <-- get_dma_fence fence;
        match df_array f with
        | Some _ => ret (- EINVAL)
        | None =>
            if negb (test_dma_flag f MSM_HW_FENCE_FLAG_ENABLED_BIT) then ret (- EINVAL)
            else if df_hw_dma f then ret (- EINVAL)
            else
              _ <-- get_client ch;
              r <-- hw_fence_destroy fence (df_context f) (df_seqno f);
              if negb (r =? 0) then ret r
              else clear_dma_flag fence MSM_HW_FENCE_FLAG_ENABLED_BIT;;; ret 0
        end
    | _, _ => ret (- EINVAL)
    end.

(** ** The release callback ([hw_fence_drv_fence.h])

    [signal_cb.drv_data] is set exactly when [is_internal] is. *)

Definition _hw_fence_release (fence : Z) : DRV unit :=
  f <-- get_dma_fence fence;
  match df_client_handle f with
  | None => ret tt
  | Some ch =>
      if df_internal f then
        hw_fence_destroy_refcount (df_cb_hash f) HW_FENCE_DMA_FENCE_REFCOUNT;;; ret tt
      else msm_hw_fence_destroy (Some ch) (Some fence);;; ret tt
  end.

Definition hw_fence_dbg_release (fence : Z) : DRV unit :=
  f <-- get_dma_fence fence;
  when test_dma_flag f MSM_HW_FENCE_FLAG_ENABLED_BIT do _hw_fence_release fence;;;
  modifyM (fun d => d <| dd_dma_fences ::= delete fence |>).

(** The kernel calls the release operation of the fence with its last
    reference. *)
Definition dma_fence_put (fence : Z) : DRV unit :=
  log_event (EvDmaPut fence);;;
  d <-- get;
  n <-- tick;
  if env_last_put (dd_env d) fence n then
    f <-- get_dma_fence fence;
    when df_hw_dma f do hw_fence_dbg_release fence
  else ret tt.

(** ** The table of internal dma-fences *)

Definition dma_fence_key (hash : Z) : Z := u32 (hash mod DMA_FENCE_HASH_TABLE_SIZE).

Definition dma_chain (d : driver_data) (key : Z) : list Z := dd_dma_fence_table d !!! key.

(** [None]: an error pointer. *)
Definition hw_dma_fence_init (ch context seqno : Z) : DRV (option Z) :=
  fence_lock <-- kzalloc;
  match fence_lock with
  | None => ret None
  | Some _ =>
      fence <-- kzalloc;
      match fence with
      | None => ret None
      | Some fence =>
          modifyM (fun d => d <| dd_dma_fences ::= <[fence :=
            mk_dma_fence context seqno 0 0 None false true false (Some ch) 0 0]> |>);;;
          ret (Some fence)
      end
  end.

(** [hash_add] puts the new node at the head of its chain. *)
Definition hw_fence_dma_fence_table_add (fence hw_fence_hash : Z) : DRV Z :=
  let key := dma_fence_key hw_fence_hash in
  update_dma_fence fence (fun f => f <| df_dma_fence_key := key |> <| df_internal := true |>
                                     <| df_cb_hash := hw_fence_hash |>);;;
  modifyM (fun d => d <| dd_dma_fence_table ::= fun t => <[key := fence :: t !!! key]> t |>);;;
  ret 0.

(** The first node of the chain with this hash. *)
Fixpoint find_in_chain (d : driver_data) (hash : Z) (chain : list Z) : option Z :=
  match chain with
  | [] => None
  | fence :: chain' =>
      match dd_dma_fences d !! fence with
      | Some f => if hash =? df_cb_hash f then Some fence else find_in_chain d hash chain'
      | None => None
      end
  end.

Definition hw_fence_dma_fence_find (hw_fence_hash : Z) (incr_refcount : bool)
  : DRV (option Z) :=
  d <-- get;
  let fence := find_in_chain d hw_fence_hash (dma_chain d (dma_fence_key hw_fence_hash)) in
  match fence with
  | Some f => when incr_refcount do dma_fence_get f
  | None => ret tt
  end;;;
  ret fence.

Definition hw_fence_dma_fence_table_del (hash flags error : Z) : DRV Z :=
  o <-- hw_fence_dma_fence_find hash false;
  match o with
  | None => ret 0
  | Some fence =>
      f <-- get_dma_fence fence;
      d <-- get;
      let key := df_dma_fence_key f in
      r <-- (if bool_decide (fence ∈ dma_chain d key) then
               modifyM (fun d => d <| dd_dma_fence_table ::=
                 fun t => <[key := filter (fun g => g <> fence) (t !!! key)]> t |>);;;
               ret 0
             else ret (- EINVAL));
      log_event (EvDmaRemoveCb fence);;;
      signaled <-- dma_fence_is_signaled fence;
      when negb signaled do (
        let error := if flag flags MSM_HW_FENCE_FLAG_SIGNAL then error
                     else SYNX_STATE_SIGNALED_CANCEL in
        when negb (error =? 0) do dma_fence_set_error fence (- error);;;
        log_event (EvDmaSignal fence));;;
      dma_fence_put fence;;;
      ret r
  end.

(** ** Dropping a reference by handle *)

(** Called with the entry's lock held; releases it. *)
Definition hw_fence_put_and_unlock (hash : Z) : DRV Z :=
  f <-- get_fence hash;
  if flag (hf_refcount f) HW_FENCE_HLOS_REFCOUNT_MASK then
    update_fence hash (fun f => f <| hf_refcount ::= fun r => u32 (r - 1) |>);;;
    f <-- get_fence hash;
    release_dma <--
      (if flag (hf_flags f) MSM_HW_FENCE_FLAG_INTERNAL_OWNED &&
          negb (flag (hf_refcount f) HW_FENCE_HLOS_REFCOUNT_MASK) then
         update_fence hash (fun f => f <| hf_flags ::= fun x =>
                                              clear x MSM_HW_FENCE_FLAG_INTERNAL_OWNED |>);;;
         f <-- get_fence hash;
         ret (Some (hf_flags f, hf_error f))
       else ret None);
    f <-- get_fence hash;
    when hf_refcount f =? 0 do (
      update_fence hash _cleanup_hw_fence;;;
      update_fence hash (fun f => f <| hf_valid := 0 |>));;;
    global_atomic_store (FenceLock hash) false;;;
    match release_dma with
    | Some (flags, error) => hw_fence_dma_fence_table_del hash flags error
    | None => ret 0
    end
  else
    global_atomic_store (FenceLock hash) false;;;
    ret (- EINVAL).

Definition hw_fence_destroy_with_hash (hash : Z) : DRV Z :=
  d <-- get;
  match _get_hw_fence (dd_hw_fence_table_entries d) hash with
  | None => ret (- EINVAL)
  | Some hw_fence =>
      global_atomic_store (FenceLock hw_fence) true;;;
      hw_fence_put_and_unlock hash
  end.

(** ** Creation for a client *)

(** Returns the error code and [*hash]. *)
Definition hw_fence_create (c : hw_fence_client) (hlos_key context seqno hash0 : Z)
  : DRV (Z * Z) :=
  out <-- _hw_fence_lookup_and_create (cl_client_id c) hlos_key context seqno 0 hash0;
  let '(o, hash) := out in
  let r := match o with None => - EINVAL | Some _ => 0 end in
  d <-- get;
  if negb (dd_fctl_ready d) then
    hw_fence_destroy_refcount hash HW_FENCE_FCTL_REFCOUNT;;;
    hw_fence_destroy_with_hash hash;;;
    ret (- EAGAIN, hash)
  else if cl_skip_fctl_ref c then
    r <-- hw_fence_destroy_refcount hash HW_FENCE_FCTL_REFCOUNT;
    ret (r, hash)
  else ret (r, hash).

(** [inl] is an error pointer, [inr] the new fence; with it [*hash]. *)
Definition hw_fence_internal_dma_fence_create (ch hash0 : Z) : DRV ((Z + Z) * Z) :=
  c <-- get_client ch;
  let seqno := i32 (cl_seqno c + 1) in
  set_client ch (c <| cl_seqno := seqno |>);;;
  let context := cl_context_id c in
  let seqno := u64 seqno in
  o <-- hw_dma_fence_init ch context seqno;
  match o with
  | None => ret (inl (- EINVAL), hash0)
  | Some fence =>
      out <-- hw_fence_create c fence context seqno hash0;
      let '(r, hash) := out in
      if negb (r =? 0) then dma_fence_put fence;;; ret (inl (- EINVAL), hash)
      else
        d <-- get;
        match _get_hw_fence (dd_hw_fence_table_entries d) hash with
        | None => dma_fence_put fence;;; ret (inl (- EINVAL), hash)
        | Some hw_fence =>
            global_atomic_store (FenceLock hw_fence) true;;;
            update_fence hw_fence (fun f => f
              <| hf_flags ::= fun x => Z.lor x MSM_HW_FENCE_FLAG_INTERNAL_OWNED |>
              <| hf_refcount ::= fun r => Z.lor r HW_FENCE_DMA_FENCE_REFCOUNT |>);;;
            global_atomic_store (FenceLock hw_fence) false;;;
            set_dma_flag fence MSM_HW_FENCE_FLAG_ENABLED_BIT;;;
            hw_fence_dma_fence_table_add fence hash;;;
            r <-- dma_fence_add_callback fence hash;
            if negb (r =? 0) then dma_fence_put fence;;; ret (inl r, hash)
            else ret (inr fence, hash)
        end
  end.

(** * Properties *)

(** ** Dropping a reference by handle *)

Definition drop_hlos (f : msm_hw_fence) : msm_hw_fence :=
  f <| hf_refcount ::= fun r => u32 (r - 1) |>.

(** The last HLOS reference of an entry whose dma-fence the driver owns. *)
Definition releases_dma (f : msm_hw_fence) : bool :=
  flag (hf_flags f) MSM_HW_FENCE_FLAG_INTERNAL_OWNED &&
  negb (flag (hf_refcount (drop_hlos f)) HW_FENCE_HLOS_REFCOUNT_MASK).

Definition disown (f : msm_hw_fence) : msm_hw_fence :=
  f <| hf_flags ::= fun x => clear x MSM_HW_FENCE_FLAG_INTERNAL_OWNED |>.

(** What is left of the entry. *)
Definition put_entry (f : msm_hw_fence) : msm_hw_fence :=
  free_entry (if releases_dma f then disown (drop_hlos f) else drop_hlos f).

Lemma put_entry_neutral : lock_neutral put_entry /\ forall f, lock_held (put_entry (with_lock 1 f)).
Proof.
  apply lock_neutral_intro; intros; unfold put_entry.
  - rewrite free_entry_lock. by case_match.
  - change (releases_dma (f <| hf_lock := w |>)) with (releases_dma f).
    destruct (releases_dma f); by rewrite <- free_entry_set_lock.
Qed.

Lemma free_run {B} d h f (k : DRV B) :
  fence_at d h = Some f ->
  bind (when hf_refcount f =? 0 do (
      update_fence h _cleanup_hw_fence;;;
      update_fence h (fun f => f <| hf_valid := 0 |>))) (fun _ => k) d
  = k (put_fence h (free_entry f) d).
Proof.
  intros E. unfold free_entry. destruct (hf_refcount f =? 0).
  - rewrite bind_assoc, (bind_run _ _ _ _ _ (update_fence_run _ _ _ _ E)).
    erewrite bind_run by (eapply update_fence_run, fence_at_put_eq; done). by rewrite put_put.
  - erewrite bind_run by done. by rewrite put_fence_id.
Qed.

Lemma put_and_unlock_run d h f :
  fence_at d h = Some f -> lock_free f ->
  hw_fence_put_and_unlock h (locked_at h d) =
    if flag (hf_refcount f) HW_FENCE_HLOS_REFCOUNT_MASK then
      (if releases_dma f
       then hw_fence_dma_fence_table_del h (hf_flags (disown f)) (hf_error f)
       else ret 0) (put_fence h (put_entry f) d)
    else Done (- EINVAL) d.
Proof.
  intros E Hf. pose proof (locked_at_fence _ _ _ E) as El. set (fl := with_lock 1 f) in *.
  unfold hw_fence_put_and_unlock. rewrite (bind_run _ _ _ _ _ (get_fence_run _ _ _ El)).
  change (hf_refcount fl) with (hf_refcount f).
  destruct (flag _ _); [|by rewrite (bind_run _ _ _ _ _ (locked_at_unlock _ _ _ E Hf))].
  rewrite (bind_run _ _ _ _ _ (update_fence_run _ _ _ _ El)).
  assert (fence_at (put_fence h (drop_hlos fl) (locked_at h d)) h = Some (drop_hlos fl)) as E1
    by (by eapply fence_at_put_eq).
  erewrite bind_run by (apply get_fence_run, E1).
  destruct put_entry_neutral as [Hn Hh]. pose proof (unlock_after _ _ _ _ E Hf Hn (Hh f)) as Hun.
  unfold put_entry in Hun at 1. change (releases_dma (with_lock 1 f)) with (releases_dma f) in Hun.
  change (flag (hf_flags (drop_hlos fl)) _ && _) with (releases_dma f).
  destruct (releases_dma f).
  - rewrite bind_assoc, (bind_run _ _ _ _ _ (update_fence_run _ _ _ _ E1)), put_put.
    assert (fence_at (put_fence h (disown (drop_hlos fl)) (locked_at h d)) h
            = Some (disown (drop_hlos fl))) as E2 by (by eapply fence_at_put_eq).
    erewrite bind_assoc, bind_run by (apply get_fence_run, E2).
    erewrite bind_run by done. erewrite bind_run by (apply get_fence_run, E2).
    rewrite (free_run _ _ _ _ E2), put_put, (bind_run _ _ _ _ _ Hun). done.
  - erewrite bind_run by done. erewrite bind_run by (apply get_fence_run, E1).
    by rewrite (free_run _ _ _ _ E1), put_put, (bind_run _ _ _ _ _ Hun).
Qed.

Lemma get_hw_fence_in d h :
  table_ok d -> 0 <= h < dd_hw_fences_tbl_cnt d -> _get_hw_fence (dd_hw_fence_table_entries d) h = Some h.
Proof.
  intros Hok Hh. unfold _get_hw_fence. rewrite (tw_entries d) by auto with fence.
  by destruct (Z.leb_spec (dd_hw_fences_tbl_cnt d) h); [lia|].
Qed.

Lemma fence_at_in d h f : table_ok d -> fence_at d h = Some f -> 0 <= h < dd_hw_fences_tbl_cnt d.
Proof. intros Hok E. rewrite <- (tw_tbl d) by auto with fence. by eapply fence_at_bounds. Qed.

(** [hw_fence_destroy_with_hash], on every branch. *)
Lemma destroy_with_hash_run d h f :
  table_ok d -> fence_at d h = Some f ->
  hw_fence_destroy_with_hash h d =
    if flag (hf_refcount f) HW_FENCE_HLOS_REFCOUNT_MASK then
      (if releases_dma f
       then hw_fence_dma_fence_table_del h (hf_flags (disown f)) (hf_error f)
       else ret 0) (put_fence h (put_entry f) d)
    else Done (- EINVAL) d.
Proof.
  intros Hok E. pose proof (lock_free_at _ _ _ Hok E) as Hf.
  unfold hw_fence_destroy_with_hash. rewrite (bind_run _ _ _ d d) by done.
  rewrite (get_hw_fence_in _ _ Hok (fence_at_in _ _ _ Hok E)).
  rewrite (bind_run _ _ _ _ _ (locked_at_run _ _ _ E Hf)). by apply put_and_unlock_run.
Qed.

Lemma destroy_with_hash_bad d h :
  table_ok d -> dd_hw_fences_tbl_cnt d <= h -> hw_fence_destroy_with_hash h d = Done (- EINVAL) d.
Proof.
  intros Hok Hh. unfold hw_fence_destroy_with_hash, _get_hw_fence. rewrite (bind_run _ _ _ d d) by done.
  rewrite (tw_entries d) by auto with fence.
  by destruct (Z.leb_spec (dd_hw_fences_tbl_cnt d) h); [|lia].
Qed.

Lemma destroy_with_hash_refs_run d h f r :
  table_ok d -> fence_at d h = Some f -> refs_wf r -> hf_refcount f = refs_word r ->
  flag (hf_flags f) MSM_HW_FENCE_FLAG_INTERNAL_OWNED = false ->
  hw_fence_destroy_with_hash h d =
    if rf_hlos r =? 0 then Done (- EINVAL) d
    else Done 0 (put_fence h (set_refs (r <| rf_hlos ::= Z.pred |>) f) d).
Proof.
  intros Hok E Hr Ew Hint. rewrite (destroy_with_hash_run _ _ _ Hok E).
  assert (releases_dma f = false) as Hrel by (unfold releases_dma; by rewrite Hint).
  rewrite Hrel. unfold flag. rewrite Ew, refs_word_hlos by done.
  destruct (Z.eqb_spec (rf_hlos r) 0); [done|]. cbv beta zeta iota delta [negb].
  unfold put_entry. rewrite Hrel. change (free_entry (drop_hlos f)) with (put_ref f).
  by erewrite put_ref_refs by done.
Qed.

(** [hw_fence_destroy_with_hash] drops exactly one HLOS reference of the
    entry it is given, refuses when there is none, and frees the entry with its
    last reference; no other entry changes and no lock stays taken.  (An entry
    whose dma-fence the driver owns goes through [internal_release].) *)
Theorem destroy_with_hash_refs d h f r :
  table_ok d -> fence_at d h = Some f -> refs_wf r -> hf_refcount f = refs_word r ->
  flag (hf_flags f) MSM_HW_FENCE_FLAG_INTERNAL_OWNED = false ->
  hw_fence_destroy_with_hash h d =
    if rf_hlos r =? 0 then Done (- EINVAL) d
    else Done 0 (put_fence h (set_refs (r <| rf_hlos ::= Z.pred |>) f) d).
Proof. apply destroy_with_hash_refs_run. Qed.

(** ** Creation *)

Lemma reserved_refs client_id context seqno pending t f :
  hf_refcount (reserved client_id context seqno pending t f) = refs_word (mk_refs true false 1).
Proof. done. Qed.

Definition fresh_refs : refs := mk_refs true false 1.

Lemma created_entry d client_id key context seqno pending hash0 h h' d' :
  table_ok d ->
  _hw_fence_lookup_and_create client_id key context seqno pending hash0 d = Done (Some h, h') d' ->
  h' = h /\ table_ok d' /\ dd_fctl_ready d' = dd_fctl_ready d /\
  exists f', has_key d' h key context seqno f' /\ hf_valid f' = 1 /\
    hf_refcount f' = refs_word fresh_refs /\ hf_flags f' = 0.
Proof.
  intros Hok H. pose proof (create_table_ok _ _ _ _ _ _ _ _ _ _ Hok H) as Hok'.
  destruct (create_returns _ _ _ _ _ _ _ _ _ _ Hok H) as (k & f & _ & Eh & -> & E & _ & ->).
  split; [done|]. split; [done|]. split; [done|].
  eexists. split; [split; [by eapply fence_at_put_eq|split; [|done]]|done].
  simpl. apply zget_zset_eq. rewrite (tw_key d) by auto with fence. rewrite Eh. auto with fence.
Qed.

Definition free_slot (d : driver_data) (h : Z) : Prop :=
  exists f, fence_at d h = Some f /\ hf_valid f = 0 /\ hf_refcount f = 0.

(** Creating a hardware fence for a client.  When the table had room, the
    fence controller is up: the call returns 0 with the new entry's handle, and
    the entry is referenced by the client and, unless the client's type asks not
    to, by the controller.  The controller is down: the call returns -EAGAIN and
    the slot is free again.  The rest of the table is as the allocation left it. *)
Theorem hw_fence_create_spec d c key context seqno hash0 h h' d1 :
  table_ok d ->
  _hw_fence_lookup_and_create (cl_client_id c) key context seqno 0 hash0 d = Done (Some h, h') d1 ->
  exists d', hw_fence_create c key context seqno hash0 d
             = Done (if dd_fctl_ready d then 0 else - EAGAIN, h) d' /\
  (forall i, i <> h -> fence_at d' i = fence_at d1 i) /\
  (if dd_fctl_ready d then
     exists f', has_key d' h key context seqno f' /\
       hf_refcount f' = refs_word (fresh_refs <| rf_fctl := negb (cl_skip_fctl_ref c) |>)
   else free_slot d' h).
Proof.
  intros Hok H. destruct (created_entry _ _ _ _ _ _ _ _ _ _ Hok H)
    as (-> & Hok1 & Hr & f' & (E & Hk & Hc) & Hv & Ew & Hfl).
  pose proof (drop_fctl_refs_run d1 h f' fresh_refs Hok1 E ltac:(done) Ew) as Hfctl.
  unfold hw_fence_create. rewrite (bind_run _ _ _ _ _ H). cbv beta iota.
  rewrite (bind_run _ _ _ d1 d1) by done. rewrite Hr. destruct (dd_fctl_ready d); cbv iota beta delta [negb].
  - destruct (cl_skip_fctl_ref c); simpl in *.
    + rewrite (bind_run _ _ _ _ _ Hfctl). eexists. split; [done|].
      split; [intros; by apply fence_at_put_ne|].
      exists (set_refs (mk_refs false false 1) f').
      by split; [split; [eapply fence_at_put_eq|]|].
    + exists d1. split; [done|]. split; [done|]. exists f'. by split; [split|].
  - simpl in Hfctl. rewrite (bind_run _ _ _ _ _ Hfctl).
    set (f2 := set_refs (mk_refs false false 1) f'). set (d2 := put_fence h f2 d1).
    assert (fence_at d2 h = Some f2) as E2 by (by eapply fence_at_put_eq).
    assert (table_ok d2) as Hok2 by (apply table_ok_put; [done|]; exact (lock_free_at _ _ _ Hok1 E)).
    rewrite (bind_run _ _ d2 0 (put_fence h (set_refs (mk_refs false false 0) f2) d2)).
    + eexists. split; [done|]. split.
      * intros. unfold d2. by rewrite !fence_at_put_ne by congruence.
      * eexists. split; [exact (fence_at_put_eq _ _ _ _ E2)|done].
    + apply (destroy_with_hash_refs_run d2 h f2 (mk_refs false false 1)); try done.
      by simpl; rewrite Hfl.
Qed.

(** A failed allocation can be reported as success.  For a client whose type
    skips the controller's reference, when the allocation stops at another
    fence that already has the key, the call clears the controller's reference
    of that other fence and returns 0 with its handle. *)
Theorem create_failure_reported_as_success d c key context seqno hash0 h d1 f r :
  table_ok d1 -> dd_fctl_ready d1 = true -> cl_skip_fctl_ref c = true ->
  _hw_fence_lookup_and_create (cl_client_id c) key context seqno 0 hash0 d = Done (None, h) d1 ->
  fence_at d1 h = Some f -> refs_wf r -> hf_refcount f = refs_word r -> rf_fctl r = true ->
  hw_fence_create c key context seqno hash0 d
  = Done (0, h) (put_fence h (set_refs (r <| rf_fctl := false |>) f) d1).
Proof.
  intros Hok Hready Hskip H E Hr Ew Hf.
  pose proof (drop_fctl_refs_run d1 h f r Hok E Hr Ew) as Hfctl. rewrite Hf in Hfctl.
  unfold hw_fence_create. rewrite (bind_run _ _ _ _ _ H). cbv beta iota.
  rewrite (bind_run _ _ _ d1 d1) by done. rewrite Hready, Hskip. cbv iota beta delta [negb].
  rewrite (bind_run _ _ _ _ _ Hfctl). done.
Qed.

(** ** Internally owned dma-fences *)

Definition logged (e : event) (d : driver_data) : driver_data := d <| dd_events ::= fun l => l ++ [e] |>.

Definition drop_dma (fence : Z) (d : driver_data) : driver_data :=
  d <| dd_dma_fences ::= delete fence |>.

Definition put_dma (fence : Z) (g : dma_fence) (d : driver_data) : driver_data :=
  d <| dd_dma_fences ::= <[fence := g]> |>.

Definition unchain (key fence : Z) (d : driver_data) : driver_data :=
  d <| dd_dma_fence_table ::= fun t => <[key := filter (fun g => g <> fence) (t !!! key)]> t |>.

(** Changes outside the hardware-fence table. *)
Definition table_frame (g : driver_data -> driver_data) : Prop :=
  forall d, dd_hw_fences_tbl (g d) = dd_hw_fences_tbl d /\ dd_hlos_key_tbl (g d) = dd_hlos_key_tbl d /\
    dd_hw_fences_tbl_cnt (g d) = dd_hw_fences_tbl_cnt d /\
    dd_hw_fence_table_entries (g d) = dd_hw_fence_table_entries d /\ dd_env (g d) = dd_env d.

Lemma table_ok_frame g d : table_frame g -> table_ok d -> table_ok (g d).
Proof.
  intros Hg [[? ? ? ?] Hu Hs]. destruct (Hg d) as (E1 & E2 & E3 & E4 & E5).
  split; [split; congruence| |].
  - intros i f E. apply (Hu i). unfold fence_at in *. congruence.
  - unfold stack_zeroed. by rewrite E5.
Qed.

Lemma fence_at_frame g d i : table_frame g -> fence_at (g d) i = fence_at d i.
Proof. intros Hg. destruct (Hg d) as (E1 & _). unfold fence_at. by rewrite E1. Qed.

Lemma logged_frame e : table_frame (logged e).
Proof. done. Qed.

Lemma drop_dma_frame fence : table_frame (drop_dma fence).
Proof. done. Qed.

Lemma put_dma_frame fence g : table_frame (put_dma fence g).
Proof. done. Qed.

Lemma unchain_frame key fence : table_frame (unchain key fence).
Proof. done. Qed.

Lemma ticked_frame : table_frame ticked.
Proof. done. Qed.

Lemma compose_frame g1 g2 : table_frame g1 -> table_frame g2 -> table_frame (fun d => g1 (g2 d)).
Proof.
  intros H1 H2 d. destruct (H1 (g2 d)) as (? & ? & ? & ? & ?), (H2 d) as (? & ? & ? & ? & ?).
  repeat split; congruence.
Qed.

#[export] Hint Resolve logged_frame drop_dma_frame put_dma_frame unchain_frame ticked_frame
  compose_frame : fence.

(** An internal dma-fence that backs entry [h]. *)
Definition backs (d : driver_data) (h fence : Z) (g : dma_fence) : Prop :=
  dd_dma_fences d !! fence = Some g /\ df_hw_dma g = true /\ df_internal g = true /\
  is_Some (df_client_handle g) /\ df_cb_hash g = h /\
  test_dma_flag g MSM_HW_FENCE_FLAG_ENABLED_BIT = true.

(** The last [dma_fence_put] of such a fence drops the entry's dma-fence
    reference. *)
Lemma put_internal_run d h fence g f r :
  table_ok d -> backs d h fence g -> env_last_put (dd_env d) fence (dd_tick d) = true ->
  fence_at d h = Some f -> refs_wf r -> hf_refcount f = refs_word r -> rf_dma r = true ->
  dma_fence_put fence d
  = Done tt (drop_dma fence (put_fence h (set_refs (r <| rf_dma := false |>) f)
                               (ticked (logged (EvDmaPut fence) d)))).
Proof.
  intros Hok (Eg & Hd & Hi & [ch Hch] & Hh & Hfl) Hlast E Hr Ew Hdma.
  set (d1 := ticked (logged (EvDmaPut fence) d)).
  assert (table_ok d1) as Hok1 by (apply (table_ok_frame (fun d => ticked (logged _ d))); auto with fence).
  pose proof (drop_dma_refs_run d1 h f r Hok1 E Hr Ew) as Hput. rewrite Hdma in Hput.
  assert (get_dma_fence fence d1 = Done g d1) as Hget
    by (unfold get_dma_fence, bind, get; simpl; by rewrite Eg).
  unfold dma_fence_put. rewrite (bind_run _ _ d tt (logged (EvDmaPut fence) d)) by done.
  rewrite (bind_run _ _ _ (logged (EvDmaPut fence) d) (logged (EvDmaPut fence) d)) by done.
  rewrite (bind_run _ _ (logged (EvDmaPut fence) d) (dd_tick d) d1) by done.
  change (dd_env (logged _ d)) with (dd_env d). rewrite Hlast.
  rewrite (bind_run _ _ _ _ _ Hget), Hd. unfold hw_fence_dbg_release.
  rewrite (bind_run _ _ _ _ _ Hget), Hfl. unfold _hw_fence_release.
  rewrite bind_assoc, (bind_run _ _ _ _ _ Hget), Hch, Hi, Hh.
  by rewrite bind_assoc, (bind_run _ _ _ _ _ Hput).
Qed.

(** The error a released fence is signaled with. *)
Definition release_error (flags error : Z) : Z :=
  if flag flags MSM_HW_FENCE_FLAG_SIGNAL then error else SYNX_STATE_SIGNALED_CANCEL.

(** Signaling the dma-fence, unless the kernel has it signaled already. *)
Definition signal_owned (signaled : bool) (err fence : Z) (g : dma_fence) (d : driver_data)
  : driver_data :=
  if signaled then d
  else logged (EvDmaSignal fence)
         (if err =? 0 then d
          else logged (EvDmaSetError fence (i32 (- err)))
                 (put_dma fence (g <| df_error := i32 (- err) |>) d)).

Definition release_events (signaled : bool) (err fence : Z) : list event :=
  [EvDmaRemoveCb fence] ++
  (if signaled then []
   else (if err =? 0 then [] else [EvDmaSetError fence (i32 (- err))]) ++ [EvDmaSignal fence]) ++
  [EvDmaPut fence].

Lemma signal_owned_frame s err fence g : table_frame (signal_owned s err fence g).
Proof. unfold signal_owned. by destruct s, (err =? 0). Qed.

Lemma signal_owned_tick s err fence g d : dd_tick (signal_owned s err fence g d) = dd_tick d.
Proof. unfold signal_owned. by destruct s, (err =? 0). Qed.

Lemma signal_owned_backs s err h fence g d :
  backs d h fence g ->
  exists g', backs (signal_owned s err fence g d) h fence g'.
Proof.
  intros (Eg & H). unfold signal_owned. destruct s; [by exists g|].
  destruct (err =? 0); [by exists g|].
  exists (g <| df_error := i32 (- err) |>). split; [|done]. simpl. by rewrite lookup_insert_eq.
Qed.

Lemma signal_owned_run s err fence g d :
  dd_dma_fences d !! fence = Some g ->
  (when negb s do (when negb (err =? 0) do dma_fence_set_error fence (- err);;;
                   log_event (EvDmaSignal fence))) d
  = Done tt (signal_owned s err fence g d).
Proof.
  intros Eg. unfold signal_owned. destruct s; [done|]. simpl negb. cbv iota.
  destruct (err =? 0); [done|]. simpl negb. cbv iota.
  unfold dma_fence_set_error, update_dma_fence, get_dma_fence, bind, get. simpl. by rewrite Eg.
Qed.

Lemma find_in_chain_ext d d' hash chain :
  dd_dma_fences d = dd_dma_fences d' -> find_in_chain d hash chain = find_in_chain d' hash chain.
Proof.
  intros E. induction chain as [|x chain IH]; simpl; [done|]. rewrite E.
  case_match; [case_match|]; done.
Qed.

Lemma find_in_chain_elem d hash chain fence :
  find_in_chain d hash chain = Some fence -> fence ∈ chain.
Proof.
  induction chain as [|x chain IH]; simpl; [done|].
  destruct (dd_dma_fences d !! x); [|done]. case_match; intros H'.
  - injection H' as ->. by left.
  - right. by apply IH.
Qed.

(** Removing an internal dma-fence from the driver's table, signaling it and
    dropping the driver's reference, the last. *)
Lemma table_del_run d h fence g f r flags error :
  let s := env_dma_signaled (dd_env d) fence (dd_tick d) in
  table_ok d -> backs d h fence g -> df_dma_fence_key g = dma_fence_key h ->
  find_in_chain d h (dma_chain d (dma_fence_key h)) = Some fence ->
  env_last_put (dd_env d) fence (S (dd_tick d)) = true ->
  fence_at d h = Some f -> refs_wf r -> hf_refcount f = refs_word r -> rf_dma r = true ->
  exists d', hw_fence_dma_fence_table_del h flags error d = Done 0 d' /\
    dd_hw_fences_tbl d' = zset h (set_refs (r <| rf_dma := false |>) f) (dd_hw_fences_tbl d) /\
    dd_dma_fences d' = delete fence (dd_dma_fences d) /\
    dma_chain d' (dma_fence_key h) = filter (fun x => x <> fence) (dma_chain d (dma_fence_key h)) /\
    dd_events d' = dd_events d ++ (release_events s (release_error flags error) fence).
Proof.
  intros s Hok Hb Hkey Hfind Hlast E Hr Ew Hdma. pose proof Hb as (Eg & _).
  set (err := release_error flags error).
  set (d3 := ticked (logged (EvDmaRemoveCb fence) (unchain (dma_fence_key h) fence d))).
  destruct (signal_owned_backs s err h fence g d3 Hb) as (g' & Hb').
  set (d4 := signal_owned s err fence g d3) in *.
  assert (table_frame (fun d => signal_owned s err fence g
            (ticked (logged (EvDmaRemoveCb fence) (unchain (dma_fence_key h) fence d))))) as Hfr.
  { apply (compose_frame (signal_owned s err fence g)); [apply signal_owned_frame|done]. }
  assert (table_ok d4) as Hok4 by (exact (table_ok_frame _ d Hfr Hok)).
  assert (fence_at d4 h = Some f) as E4 by (rewrite <- E; exact (fence_at_frame _ d h Hfr)).
  assert (env_last_put (dd_env d4) fence (dd_tick d4) = true) as Hlast4.
  { unfold d4. rewrite signal_owned_tick. destruct (signal_owned_frame s err fence g d3) as (_&_&_&_&->).
    done. }
  pose proof (put_internal_run d4 h fence g' f r Hok4 Hb' Hlast4 E4 Hr Ew Hdma) as Hput.
  eexists. split.
  - unfold hw_fence_dma_fence_table_del, hw_fence_dma_fence_find. rewrite bind_assoc.
    rewrite (bind_run _ _ d d d) by done. rewrite Hfind, bind_assoc.
    erewrite bind_run by done. erewrite bind_run by done. cbv beta iota.
    rewrite (bind_run _ _ d g d) by (unfold get_dma_fence, bind, get; by rewrite Eg).
    rewrite (bind_run _ _ d d d) by done. rewrite Hkey.
    rewrite bool_decide_true by (by eapply find_in_chain_elem).
    rewrite bind_assoc. erewrite bind_run by done. erewrite bind_run by done.
    erewrite bind_run by done.
    rewrite (bind_run _ _ _ s d3) by done. fold err.
    rewrite (bind_run _ _ _ _ _ (signal_owned_run s err fence g d3 Eg)).
    rewrite (bind_run _ _ _ _ _ Hput). done.
  - unfold d4, d3, signal_owned, release_events.
    destruct s, (err =? 0); simpl; rewrite ?delete_insert_eq, <- ?app_assoc;
      repeat split; unfold dma_chain; simpl; by rewrite lookup_total_insert_eq.
Qed.

(** Releasing an internally owned fence.  When the client's last reference
    goes, the driver takes the dma-fence out of its table, signals it if the
    kernel has not (with a cancel error unless the hardware fence was signaled)
    and drops its reference; when that is the last one, the release callback
    gives back the dma-fence's reference on the entry.  Neither a table node nor
    a reference is left behind: the entry is freed unless the fence controller
    still holds it. *)
Theorem internal_release d h fence g f fctl :
  let s := env_dma_signaled (dd_env d) fence (dd_tick d) in
  table_ok d -> backs d h fence g -> df_dma_fence_key g = dma_fence_key h ->
  find_in_chain d h (dma_chain d (dma_fence_key h)) = Some fence ->
  env_last_put (dd_env d) fence (S (dd_tick d)) = true ->
  fence_at d h = Some f -> hf_refcount f = refs_word (mk_refs fctl true 1) ->
  flag (hf_flags f) MSM_HW_FENCE_FLAG_INTERNAL_OWNED = true ->
  exists d', hw_fence_destroy_with_hash h d = Done 0 d' /\
    fence_at d' h = Some (set_refs (mk_refs fctl false 0) (disown f)) /\
    dd_dma_fences d' !! fence = None /\
    (fence ∉ dma_chain d' (dma_fence_key h)) /\
    dd_events d'
    = dd_events d ++ (release_events s (release_error (hf_flags (disown f)) (hf_error f)) fence).
Proof.
  intros s Hok Hb Hkey Hfind Hlast E Ew Hint. rewrite (destroy_with_hash_run _ _ _ Hok E).
  rewrite Ew. replace (flag (refs_word _) _) with true by (by destruct fctl).
  assert (releases_dma f = true) as Hrel.
  { unfold releases_dma. rewrite Hint. unfold drop_hlos. simpl. rewrite Ew. by destruct fctl. }
  rewrite Hrel. unfold put_entry. rewrite Hrel.
  assert (free_entry (disown (drop_hlos f)) = disown (drop_hlos f)) as Hfree.
  { unfold free_entry, disown, drop_hlos. simpl. rewrite Ew. by destruct fctl. }
  rewrite Hfree. set (d1 := put_fence h (disown (drop_hlos f)) d).
  assert (fence_at d1 h = Some (disown (drop_hlos f))) as E1 by (by eapply fence_at_put_eq).
  assert (hf_refcount (disown (drop_hlos f)) = refs_word (mk_refs fctl true 0)) as Ew1.
  { unfold disown, drop_hlos. simpl. rewrite Ew. by destruct fctl. }
  assert (find_in_chain d1 h (dma_chain d1 (dma_fence_key h)) = Some fence) as Hfind1
    by (by rewrite (find_in_chain_ext d1 d)).
  assert (table_ok d1) as Hok1
    by (apply table_ok_put; [done|exact (lock_free_at _ _ _ Hok E)]).
  destruct (table_del_run d1 h fence g _ (mk_refs fctl true 0) (hf_flags (disown f)) (hf_error f)
              Hok1 Hb Hkey Hfind1 Hlast E1
              ltac:(done) Ew1 eq_refl) as (d' & Hrun & Htbl & Hdma & Hch & Hev).
  exists d'. split; [done|]. split; [|split; [|split]].
  - unfold fence_at. rewrite Htbl. simpl. rewrite zset_zset.
    rewrite zget_zset_eq by (by eapply fence_at_bounds). by destruct fctl.
  - by rewrite Hdma, lookup_delete_eq.
  - rewrite Hch, list_elem_of_filter. by intros [? _].
  - done.
Qed.

(** [hw_fence_create] while the controller is up, with its final state. *)
Lemma hw_fence_create_run d c key context seqno hash0 h h' d1 :
  table_ok d -> dd_fctl_ready d = true ->
  _hw_fence_lookup_and_create (cl_client_id c) key context seqno 0 hash0 d = Done (Some h, h') d1 ->
  exists f, fence_at d h = Some f /\ 0 <= h < dd_hw_fences_tbl_cnt d /\
  hw_fence_create c key context seqno hash0 d
  = Done (0, h) (put_key h key (put_fence h
      (set_refs (fresh_refs <| rf_fctl := negb (cl_skip_fctl_ref c) |>)
         (reserved (cl_client_id c) context seqno 0 (now (ticked d)) f)) (ticked (ticked d)))).
Proof.
  intros Hok Hr H. destruct (created_entry _ _ _ _ _ _ _ _ _ _ Hok H)
    as (-> & Hok1 & Hr1 & f' & (E' & Hk & Hc) & Hv & Ew & Hfl).
  destruct (create_returns _ _ _ _ _ _ _ _ _ _ Hok H) as (k & f & _ & Eh & _ & E & _ & Ed1).
  set (fr := reserved _ _ _ _ _ f) in *. exists f. split; [done|].
  split; [rewrite Eh; auto with fence|].
  assert (f' = fr) as -> by (rewrite Ed1 in E'; rewrite fence_at_put_key in E';
    erewrite fence_at_put_eq in E' by done; congruence).
  pose proof (drop_fctl_refs_run d1 h fr fresh_refs Hok1 E' ltac:(done) Ew) as Hfctl.
  unfold hw_fence_create. rewrite (bind_run _ _ _ _ _ H). cbv beta iota.
  rewrite (bind_run _ _ _ d1 d1) by done. rewrite Hr1, Hr. cbv iota beta delta [negb].
  destruct (cl_skip_fctl_ref c).
  - simpl in Hfctl. rewrite (bind_run _ _ _ _ _ Hfctl), Ed1. unfold ret, put_key, put_fence. simpl.
    by rewrite zset_zset.
  - by rewrite Ed1.
Qed.

(** The entry of an internal fence, once it is set up. *)
Definition owned (f : msm_hw_fence) : msm_hw_fence :=
  f <| hf_flags ::= fun x => Z.lor x MSM_HW_FENCE_FLAG_INTERNAL_OWNED |>
    <| hf_refcount ::= fun r => Z.lor r HW_FENCE_DMA_FENCE_REFCOUNT |>.

Lemma owned_neutral : lock_neutral owned /\ forall f, lock_held (owned (with_lock 1 f)).
Proof. by apply lock_neutral_intro. Qed.

(** Updating an entry under its lock, the way the driver brackets it. *)
Lemma locked_update_run {B} d h f g (k : unit -> DRV B) :
  fence_at d h = Some f -> lock_free f ->
  (lock_neutral g /\ forall f, lock_held (g (with_lock 1 f))) ->
  (global_atomic_store (FenceLock h) true;;;
   update_fence h g;;;
   bind (global_atomic_store (FenceLock h) false) k) d
  = k tt (put_fence h (g f) d).
Proof.
  intros E Hf [Hn Hh]. rewrite (bind_run _ _ _ _ _ (locked_at_run _ _ _ E Hf)).
  rewrite (bind_run _ _ _ _ _ (update_fence_run _ _ _ _ (locked_at_fence _ _ _ E))).
  by rewrite (bind_run _ _ _ _ _ (unlock_after _ _ _ _ E Hf Hn (Hh f))).
Qed.

(** The state in which [hw_fence_internal_dma_fence_create] allocates the entry:
    the client's sequence number is taken and the dma-fence exists. *)
Definition next_seqno (c : hw_fence_client) : Z := i32 (cl_seqno c + 1).

Definition new_fence_addr (d : driver_data) : Z := env_new_addr (dd_env d) (S (dd_tick d)).

Definition internal_start (ch : Z) (c : hw_fence_client) (d : driver_data) : driver_data :=
  put_dma (new_fence_addr d)
    (mk_dma_fence (cl_context_id c) (u64 (next_seqno c)) 0 0 None false true false (Some ch) 0 0)
    (ticked (ticked (d <| dd_clients ::= zset ch (Some (c <| cl_seqno := next_seqno c |>)) |>))).

Lemma internal_start_ok ch c d : table_ok d -> table_ok (internal_start ch c d).
Proof. exact (table_ok_frame (internal_start ch c) d ltac:(done)). Qed.

Lemma dma_init_run ch c d :
  env_alloc_fails (dd_env d) (dd_tick d) = false ->
  env_alloc_fails (dd_env d) (S (dd_tick d)) = false ->
  hw_dma_fence_init ch (cl_context_id c) (u64 (next_seqno c))
    (d <| dd_clients ::= zset ch (Some (c <| cl_seqno := next_seqno c |>)) |>)
  = Done (Some (new_fence_addr d)) (internal_start ch c d).
Proof.
  intros H1 H2. unfold hw_dma_fence_init, kzalloc, tick, bind, get, put, ret. simpl.
  rewrite H1. simpl. by rewrite H2.
Qed.

(** Creating a fence the driver owns.  When the allocations and the table
    slot are there and the controller is up, the call returns the new dma-fence;
    that fence backs the new entry, is found in the driver's table under the
    entry's handle, and holds a reference of its own on the entry - exactly the
    state [internal_release] starts from. *)
Theorem internal_create d ch c hash0 h h' d3 :
  let fence := new_fence_addr d in
  let d2 := internal_start ch c d in
  table_ok d -> dd_fctl_ready d = true -> zget (dd_clients d) ch = Some (Some c) ->
  env_alloc_fails (dd_env d) (dd_tick d) = false ->
  env_alloc_fails (dd_env d) (S (dd_tick d)) = false ->
  (forall n, env_dma_signaled (dd_env d) fence n = false) ->
  _hw_fence_lookup_and_create (cl_client_id c) fence (cl_context_id c) (u64 (next_seqno c)) 0
    hash0 d2 = Done (Some h, h') d3 ->
  exists d' g f, hw_fence_internal_dma_fence_create ch hash0 d = Done (inr fence, h) d' /\
    backs d' h fence g /\ df_dma_fence_key g = dma_fence_key h /\
    find_in_chain d' h (dma_chain d' (dma_fence_key h)) = Some fence /\
    fence_at d' h = Some f /\ hf_valid f = 1 /\
    hf_refcount f = refs_word (mk_refs (negb (cl_skip_fctl_ref c)) true 1) /\
    flag (hf_flags f) MSM_HW_FENCE_FLAG_INTERNAL_OWNED = true.
Proof.
  intros fence d2 Hok Hr Hc Ha1 Ha2 Hs Hlook.
  pose proof (internal_start_ok ch c d Hok) as Hok2. fold d2 in Hok2.
  destruct (hw_fence_create_run _ c _ _ _ _ _ _ _ Hok2 Hr Hlook) as (f & E & Hh & Hcreate).
  set (fs := set_refs _ _) in Hcreate. set (d4 := put_key _ _ _) in Hcreate.
  assert (fence_at d4 h = Some fs) as E4 by (exact (fence_at_put_eq (ticked (ticked d2)) h fs f E)).
  assert (lock_free fs) as Hfree.
  { unfold fs, set_refs, fresh_refs, no_refs. simpl. rewrite andb_false_r.
    exact (lock_free_at _ _ _ Hok2 E). }
  set (g := mk_dma_fence (cl_context_id c) (u64 (next_seqno c))
              (Z.lor 0 (BIT MSM_HW_FENCE_FLAG_ENABLED_BIT)) 0 None false true true (Some ch)
              (dma_fence_key h) h).
  eexists. exists g, (owned fs). split.
  - unfold hw_fence_internal_dma_fence_create.
    rewrite (bind_run _ _ d c d)
      by (unfold get_client, get_client_opt, bind, get, deref; by rewrite Hc).
    erewrite bind_run by done. cbv zeta. fold (next_seqno c).
    rewrite (bind_run _ _ _ _ _ (dma_init_run ch c d Ha1 Ha2)). fold fence d2. cbv iota.
    rewrite (bind_run _ _ _ _ _ Hcreate). cbv beta iota.
    change (negb (0 =? 0)) with false. cbv iota.
    rewrite (bind_run _ _ d4 d4 d4) by done.
    change (dd_hw_fence_table_entries d4) with (dd_hw_fence_table_entries d2).
    rewrite (get_hw_fence_in d2 h Hok2 Hh). fold owned.
    rewrite (locked_update_run d4 h fs owned _ E4 Hfree owned_neutral).
    unfold set_dma_flag, hw_fence_dma_fence_table_add, update_dma_fence, get_dma_fence,
      dma_fence_add_callback, dma_fence_is_signaled, tick, log_event, modifyM, bind, get, put, ret,
      deref.
    simpl. rewrite lookup_insert_eq. simpl. rewrite lookup_insert_eq. simpl. rewrite Hs. reflexivity.
  - split; [|split; [done|split; [|split; [|split; [|split]]]]].
    + split; [|by split; [|split; [|split; [eexists|split]]]]. simpl. rewrite lookup_insert_eq. done.
    + unfold dma_chain. simpl. rewrite lookup_total_insert_eq. simpl.
      rewrite lookup_insert_eq. simpl. by rewrite Z.eqb_refl.
    + simpl. unfold fence_at. simpl. apply zget_zset_eq. exact (fence_at_bounds _ _ _ E4).
    + by destruct (cl_skip_fctl_ref c).
    + by destruct (cl_skip_fctl_ref c).
    + unfold owned, fs. simpl. apply flag_lor_same. done.
Qed.

Lemma external_release_run d fence g ch :
  dd_dma_fences d !! fence = Some g -> df_hw_dma g = true -> df_internal g = false ->
  df_client_handle g = Some ch ->
  hw_fence_dbg_release fence d = Done tt (drop_dma fence d).
Proof.
  intros Eg Hd Hi Hch.
  assert (get_dma_fence fence d = Done g d) as Hget by (unfold get_dma_fence, bind, get; by rewrite Eg).
  unfold hw_fence_dbg_release. rewrite (bind_run _ _ _ _ _ Hget).
  destruct (test_dma_flag g _) eqn:Hfl; [|done].
  assert (_hw_fence_release fence d = Done tt d) as Hrel; [|by rewrite (bind_run _ _ _ _ _ Hrel)].
  unfold _hw_fence_release. rewrite (bind_run _ _ _ _ _ Hget), Hch, Hi.
  assert (exists r, msm_hw_fence_destroy (Some ch) (Some fence) d = Done r d) as [r Hr];
    [|by rewrite (bind_run _ _ _ _ _ Hr)].
  unfold msm_hw_fence_destroy, hw_fence_check_valid_client, hw_fence_check_hw_fence_driver.
  rewrite bind_assoc, bind_assoc, (bind_run _ _ d d d) by done.
  destruct (dd_resources_ready d); [|by eexists].
  rewrite (bind_run _ _ d 0 d) by done. change (negb (0 =? 0)) with false. cbv iota.
  rewrite (bind_run _ _ d 0 d) by done. change (negb (0 =? 0)) with false. cbv iota.
  rewrite (bind_run _ _ _ _ _ Hget). destruct (df_array g); [by eexists|].
  rewrite Hfl, Hd. by eexists.
Qed.

(** The release callback of a driver-operated dma-fence that is not
    internally owned never gives its reference back.  It calls
    [msm_hw_fence_destroy], which refuses every fence with these operations, so
    the hardware-fence table is left as it is while the dma-fence is freed. *)
Theorem external_release_refused d fence g ch :
  dd_dma_fences d !! fence = Some g -> df_hw_dma g = true -> df_internal g = false ->
  df_client_handle g = Some ch ->
  hw_fence_dbg_release fence d = Done tt (drop_dma fence d).
Proof. apply external_release_run. Qed.

(** ** Witnesses *)

Definition client0 : hw_fence_client :=
  mk_client 2 2 (0, 0) [] 2 0 0 false 0 1 1 false false true false false 50 0 1 0.

(** Eight entries, one client, whose handle is 2. *)
Definition owner8 : driver_data := table8 <| dd_clients := [None; None; Some client0] |>.

Lemma owner8_ok : table_ok owner8.
Proof. exact (table_ok_frame (fun d => d <| dd_clients := [None; None; Some client0] |>) table8
                ltac:(done) table8_ok). Qed.

Lemma destroy_with_hash_witness :
  hw_fence_destroy_with_hash (probe table8 7 5 0) created8
  = Done 0 (put_fence (probe table8 7 5 0) (set_refs (mk_refs true false 0) fence8) created8).
Proof.
  refine (destroy_with_hash_refs created8 (probe table8 7 5 0) fence8 (mk_refs true false 1)
            created8_ok _ _ _ _); try (vm_compute; reflexivity).
  split; [discriminate|reflexivity].
Defined.

Lemma hw_fence_create_witness :
  exists d', hw_fence_create client0 99 7 5 0 owner8 = Done (0, probe table8 7 5 0) d' /\
    exists f', has_key d' (probe table8 7 5 0) 99 7 5 f' /\ hf_refcount f' = refs_word fresh_refs.
Proof.
  destruct (hw_fence_create_spec owner8 client0 99 7 5 0 (probe table8 7 5 0) (probe table8 7 5 0)
              (after (_hw_fence_lookup_and_create 2 99 7 5 0 0) owner8) owner8_ok) as (d' & H1 & _ & H2).
  - vm_compute. reflexivity.
  - exists d'. split; [exact H1|exact H2].
Defined.

Definition skip_client : hw_fence_client := client0 <| cl_skip_fctl_ref := true |>.

(** [client0] created the fence; [skip_client] creates it again. *)
Definition twice8 : driver_data := after (_hw_fence_lookup_and_create 2 99 7 5 0 0) created8.

Lemma twice8_ok : table_ok twice8.
Proof. apply table_inv_ok. apply (wp_after _ table_inv), create_inv.
  apply (wp_after _ table_inv), create_inv. by apply blank_table_inv.
Qed.

Lemma create_failure_witness :
  hw_fence_create skip_client 99 7 5 0 created8
  = Done (0, probe table8 7 5 0)
      (put_fence (probe table8 7 5 0) (set_refs (mk_refs false false 1) fence8) twice8).
Proof.
  refine (create_failure_reported_as_success created8 skip_client 99 7 5 0 (probe table8 7 5 0)
            twice8 fence8 (mk_refs true false 1) twice8_ok _ _ _ _ _ _ _);
    try (vm_compute; reflexivity).
  split; [discriminate|reflexivity].
Defined.

(** The kernel says that the driver's reference to a dma-fence is the last. *)
Definition lone8 : driver_data := owner8 <| dd_env := quiet_env <| env_last_put := fun _ _ => true |> |>.

Lemma lone8_ok : table_ok lone8.
Proof.
  destruct owner8_ok as [[? ? ? ?] ? ?]. split; [split|..]; try assumption.
Qed.

Definition own8 : driver_data := after (hw_fence_internal_dma_fence_create 2 0) lone8.

Definition own_h : Z := probe table8 50 1 0.

Lemma internal_create_witness :
  exists d' g, hw_fence_internal_dma_fence_create 2 0 lone8 = Done (inr (new_fence_addr lone8), own_h) d'
    /\ backs d' own_h (new_fence_addr lone8) g.
Proof.
  destruct (internal_create lone8 2 client0 0 own_h own_h
    (after (_hw_fence_lookup_and_create 2 (new_fence_addr lone8) 50 1 0 0)
       (internal_start 2 client0 lone8)) lone8_ok) as (d' & g & f & H1 & H2 & _);
    [reflexivity|reflexivity|reflexivity|reflexivity|intros n; reflexivity|
     vm_compute; reflexivity|].
  exists d', g. split; [exact H1|exact H2].
Defined.

Lemma own8_ok : table_ok own8.
Proof. apply table_okb_sound; [|intros n]; vm_compute; reflexivity. Qed.

Definition own_g : dma_fence :=
  mk_dma_fence 50 1 (BIT 31) 0 None false true true (Some 2) (dma_fence_key own_h) own_h.

Lemma internal_release_witness :
  exists d', hw_fence_destroy_with_hash own_h own8 = Done 0 d' /\
    dd_dma_fences d' !! new_fence_addr lone8 = None.
Proof.
  destruct (internal_release own8 own_h (new_fence_addr lone8) own_g
              (default blank_fence (fence_at own8 own_h)) true own8_ok) as (d' & H1 & _ & H2 & _);
    [|vm_compute; reflexivity..|].
  - split; [vm_compute; reflexivity|]. split; [reflexivity|]. split; [reflexivity|].
    split; [eexists; reflexivity|]. split; reflexivity.
  - exists d'. split; [exact H1|exact H2].
Defined.

Definition ext_g : dma_fence := mk_dma_fence 7 5 (BIT 31) 0 None false true false (Some 2) 0 0.

Definition ext8 : driver_data := owner8 <| dd_dma_fences := {[77 := ext_g]} |>.

Lemma external_release_witness : hw_fence_dbg_release 77 ext8 = Done tt (drop_dma 77 ext8).
Proof. exact (external_release_refused ext8 77 ext_g 2 eq_refl eq_refl eq_refl eq_refl). Defined.
