(* ===== verification/HwFenceClient.v ===== *)
(** * Notifying a client

    What the driver does to one client: writing its queues
    ([hw_fence_update_queue] and the queue operations around it, of
    [src/hw_fence_drv_priv.c]), calling its error callback
    ([hw_fence_utils_fence_error_cb], [src/hw_fence_drv_utils.c]), waking a
    validation client ([process_validation_client_loopback],
    [src/hw_fence_drv_debug.c]), and [_fence_ctl_signal], which combines them. *)
From S2P Require Import Prelude HwFenceTypes HwFenceQueue HwFenceTable HwFenceRef.
From stdpp Require Import gmap.
From Stdlib Require Import Lia.
#[local] Open Scope Z_scope.

(** ** Queues in the driver's state *)

(** A [struct msm_hw_fence_queue *]: a control queue or a queue of a client. *)
Inductive queue_ref := CtrlQueue (i : Z) | ClientQueue (ch i : Z).

Definition get_queue (q : queue_ref) : DRV hw_fence_queue :=
  match q with
  | CtrlQueue i => d <-- get; deref (zget (dd_ctrl_queues d) i)
  | ClientQueue ch i => c <-- get_client ch; deref (zget (cl_queues c) i)
  end.

Definition set_queue (q : queue_ref) (x : hw_fence_queue) : DRV unit :=
  match q with
  | CtrlQueue i => modifyM (fun d => d <| dd_ctrl_queues ::= zset i x |>)
  | ClientQueue ch i => c <-- get_client ch; set_client ch (c <| cl_queues ::= zset i x |>)
  end.

(** Running the code of one queue on a queue of the state. *)
Definition on_queue {A} (q : queue_ref) (m : M hw_fence_queue A) : DRV A :=
  x <-- get_queue q;
  match m x with
  | Done a x' => set_queue q x';;; ret a
  | Faulted f => raise f
  end.

Definition _lock_client_queue (queue_type : Z) : bool := queue_type =? HW_FENCE_RX_QUEUE - 1.

(** [(client_id - 1) * HW_FENCE_LOCK_IDX_OFFSET] in a [u32]. *)
Definition client_lock_idx (client_id : Z) : Z := u32 ((client_id - 1) * HW_FENCE_LOCK_IDX_OFFSET).

(** The time is read only when the message fits. *)
Definition hw_fence_update_queue_helper (client_id : Z) (queue : queue_ref)
    (type ctxt_id seqno hash flags client_data error queue_type : Z) : DRV Z :=
  d <-- get;
  q <-- get_queue queue;
  let write :=
    d <-- get;
    let timestamp := now d in
    r <-- on_queue queue (update_queue_locked (dd_has_soccp d) type ctxt_id seqno hash flags
                            client_data error timestamp);
    when r =? 0 do (_ <-- tick; ret tt);;;
    ret r in
  match _get_update_queue_params (dd_has_soccp d) q with
  | None => ret (- EINVAL)
  | Some _ =>
      if _lock_client_queue queue_type then
        let lock_idx := client_lock_idx client_id in
        if dd_client_lock_tbl_cnt d <=? lock_idx then ret (- EINVAL)
        else
          global_atomic_store (ClientLock lock_idx) true;;;
          r <-- write;
          global_atomic_store (ClientLock lock_idx) false;;;
          ret r
      else write
  end.

Definition hw_fence_update_queue (ch : Z)
    (ctxt_id seqno hash flags client_data error queue_type : Z) : DRV Z :=
  c <-- get_client ch;
  if cl_queues_num c <=? queue_type then ret (- EINVAL)
  else
    hw_fence_update_queue_helper (cl_client_id c) (ClientQueue ch queue_type)
      HW_FENCE_PAYLOAD_TYPE_1 ctxt_id seqno hash flags client_data error queue_type.

Definition hw_fence_read_queue (client_handle : option Z) (queue_type : Z)
  : DRV (Z * option queue_payload) :=
  match client_handle with
  | None => ret (- EINVAL, None)
  | Some ch =>
      if HW_FENCE_CLIENT_QUEUES <=? queue_type then ret (- EINVAL, None)
      else d <-- get; on_queue (ClientQueue ch queue_type) (hw_fence_read_queue_helper (dd_has_soccp d))
  end.

(** The Tx queue's read index and the Rx queue's write index catch up. *)
Definition hw_fence_utils_reset_queues (ch : Z) : DRV unit :=
  d <-- get;
  on_queue (ClientQueue ch (HW_FENCE_TX_QUEUE - 1)) (reset_txq (dd_has_soccp d));;;
  c <-- get_client ch;
  if cl_update_rxq c then
    let lock_idx := client_lock_idx (cl_client_id c) in
    if dd_client_lock_tbl_cnt d <=? lock_idx then ret tt
    else
      global_atomic_store (ClientLock lock_idx) true;;;
      on_queue (ClientQueue ch (HW_FENCE_RX_QUEUE - 1)) (reset_rxq (dd_has_soccp d));;;
      global_atomic_store (ClientLock lock_idx) false
  else ret tt.

(** ** Callbacks *)

Definition update_client (ch : Z) (g : hw_fence_client -> hw_fence_client) : DRV unit :=
  c <-- get_client ch; set_client ch (g c).

(** [mutex_lock] and [mutex_unlock] of [error_cb_lock]. *)
Definition lock_error_cb (ch : Z) : DRV unit :=
  c <-- get_client ch;
  if cl_error_cb_lock c then raise Deadlock
  else set_client ch (c <| cl_error_cb_lock := true |>).

Definition unlock_error_cb (ch : Z) : DRV unit :=
  update_client ch (fun c => c <| cl_error_cb_lock := false |>).

(** The client's callback is called with the mutex held. *)
Definition hw_fence_utils_fence_error_cb (ch ctxt_id seqno hash flags error : Z) : DRV Z :=
  lock_error_cb ch;;;
  c <-- get_client ch;
  r <-- (if (error =? 0) || (cl_fence_error_cb c =? 0) then ret (- EINVAL)
         else
           log_event (EvErrorCb (cl_fence_error_cb c) (cl_fence_error_cb_userdata c) hash error
                        ctxt_id seqno flags);;;
           ret 0);
  unlock_error_cb ch;;;
  ret r.

(** The mutex of the client list is free here: no code of the model runs with it
    held. *)
Definition process_validation_client_loopback (client_id : Z) : DRV Z :=
  if (client_id <? HW_FENCE_CLIENT_ID_VAL0) || (HW_FENCE_CLIENT_ID_VAL6 <? client_id)
  then ret (- EINVAL)
  else
    o <-- get_client_opt client_id;
    match o with
    | None => ret (- EINVAL)
    | Some _ =>
        update_client client_id (fun c => c <| cl_val_signal := 1 |>);;;
        log_event (EvWakeVal client_id);;;
        ret 0
    end.

(** ** [_fence_ctl_signal] *)

Definition is_val_client (id : Z) : bool :=
  (HW_FENCE_CLIENT_ID_VAL0 <=? id) && (id <=? HW_FENCE_CLIENT_ID_VAL6).

Definition _fence_ctl_signal (ch hw_fence hash flags client_data error : Z)
    (signal_from_import : bool) : DRV Z :=
  d <-- get;
  c <-- get_client ch;
  let tx_client_id := dd_ipcc_client_pid d in
  let rx_client_id := cl_ipc_client_vid c in
  if negb (error =? 0) && negb (cl_fence_error_cb c =? 0) then
    f <-- get_fence hw_fence;
    hw_fence_utils_fence_error_cb ch (hf_ctx_id f) (hf_seq_id f) hash flags error
  else
    r <-- (if cl_signaled_update_rxq c || (cl_update_rxq c && negb signal_from_import) then
             f <-- get_fence hw_fence;
             hw_fence_update_queue ch (hf_ctx_id f) (hf_seq_id f) hash flags client_data error
               (HW_FENCE_RX_QUEUE - 1)
           else ret 0);
    if negb (r =? 0) then ret r
    else if negb (dd_has_soccp d) && is_val_client (cl_client_id c) then
      process_validation_client_loopback (cl_client_id c)
    else
      when cl_signaled_send_ipc c || negb signal_from_import do
        hw_fence_ipcc_trigger_signal tx_client_id rx_client_id (cl_ipc_signal_id c);;;
      ret 0.

Definition hw_fence_get_client_data_id (client_id : Z) : Z :=
  if client_id =? HW_FENCE_CLIENT_ID_CTX0 then HW_FENCE_CLIENT_DATA_ID_CTX0
  else HW_FENCE_MAX_CLIENTS_WITH_DATA.

(** [hw_fence->client_data[data_id]]. *)
Definition read_client_data (hw_fence data_id : Z) : DRV Z :=
  f <-- get_fence hw_fence; deref (zget (hf_client_data f) data_id).

(** One turn of [_signal_all_wait_clients] with the carried [client_data]. *)
Definition signal_wait_client (hw_fence wait_client_mask hash error wait_client_id client_data : Z)
  : DRV Z :=
  if flag wait_client_mask (BIT wait_client_id) then
    o <-- get_client_opt wait_client_id;
    match o with
    | None => ret client_data
    | Some c =>
        let data_id := hw_fence_get_client_data_id (cl_client_id_ext c) in
        client_data <-- (if data_id <? HW_FENCE_MAX_CLIENTS_WITH_DATA
                         then read_client_data hw_fence data_id else ret client_data);
        _fence_ctl_signal wait_client_id hw_fence hash 0 client_data error false;;;
        ret client_data
    end
  else ret client_data.

(** The loop includes [rxq_clients_num]. *)
Definition _signal_all_wait_clients (hw_fence wait_client_mask hash error : Z) : DRV unit :=
  d <-- get;
  for_n (Z.to_nat (dd_rxq_clients_num d + 1)) 0
    (signal_wait_client hw_fence wait_client_mask hash error) 0;;;
  ret tt.

(** * Properties *)

(** ** The state the driver works on *)

(** A registered client: known under its own id, its callback mutex free, the
    queues it has workable; only a client with an Rx queue is told through it. *)
Record client_ok (has_soccp : bool) (id : Z) (c : hw_fence_client) : Prop := {
  ck_id : cl_client_id c = id;
  ck_mutex : cl_error_cb_lock c = false;
  ck_num : 0 < cl_queues_num c <= zlen (cl_queues c);
  ck_rx : cl_update_rxq c = true -> 1 < cl_queues_num c;
  ck_skip : forall i q, zget (cl_queues c) i = Some q -> q_skip_wr_idx q = true -> i = 0;
  ck_queue_ok : forall i q, i < cl_queues_num c -> zget (cl_queues c) i = Some q -> queue_ok has_soccp q }.

(** The arrays of an entry; a parent handle is a [u64]. *)
Definition entry_shape (f : msm_hw_fence) : Prop :=
  zlen (hf_client_data f) = 1 /\ zlen (hf_parent_list f) = 3 /\ Forall (Z.le 0) (hf_parent_list f).

Record drv_ok (d : driver_data) : Prop := {
  do_table : table_ok d;
  do_locks : forall i w, zget (dd_client_lock_tbl d) i = Some w -> lock_lo w = 0;
  do_lock_cnt : dd_client_lock_tbl_cnt d = zlen (dd_client_lock_tbl d);
  do_clients : forall id c, zget (dd_clients d) id = Some (Some c) ->
               client_ok (dd_has_soccp d) id c;
  do_rxq : 0 <= dd_rxq_clients_num d < zlen (dd_clients d);
  do_entries : forall i f, fence_at d i = Some f ->
               entry_shape f;
  do_dma : forall fence g, dd_dma_fences d !! fence = Some g -> 0 <= df_cb_hash g }.

(** What an operation on one client may change. *)
Definition client_moved (ch : Z) (c' : hw_fence_client) (t : nat) (ev : list event)
    (d : driver_data) : driver_data :=
  d <| dd_clients ::= zset ch (Some c') |> <| dd_tick := t |> <| dd_events ::= fun l => l ++ ev |>.

(** All but the queues and the validation flag. *)
Definition same_client (c c' : hw_fence_client) : Prop :=
  c' = c <| cl_queues := cl_queues c' |> <| cl_val_signal := cl_val_signal c' |>.

Lemma same_client_refl c : same_client c c.
Proof. by destruct c. Qed.

Lemma client_ok_same sc id c c' :
  client_ok sc id c -> same_client c c' -> zlen (cl_queues c') = zlen (cl_queues c) ->
  (forall i q', zget (cl_queues c') i = Some q' -> (i < cl_queues_num c -> queue_ok sc q') /\
     exists q, zget (cl_queues c) i = Some q /\ q_skip_wr_idx q' = q_skip_wr_idx q) ->
  client_ok sc id c'.
Proof.
  intros [H1 H2 H3 Hr H4 H5] Hs Hl Hq. unfold same_client in Hs.
  assert (cl_client_id c' = cl_client_id c /\ cl_error_cb_lock c' = cl_error_cb_lock c /\
          cl_queues_num c' = cl_queues_num c /\ cl_update_rxq c' = cl_update_rxq c)
    as (E1 & E2 & E3 & E4) by (rewrite Hs; done).
  split; [congruence|congruence|by rewrite E3, Hl|by rewrite E3, E4| |].
  - intros i q' Hi Hsk. destruct (Hq _ _ Hi) as (_ & q & Hq' & Esk).
    apply (H4 i q Hq'). congruence.
  - intros i q' Hn Hi. rewrite E3 in Hn. by destruct (Hq _ _ Hi) as [? _]; auto.
Qed.

Lemma drv_ok_moved d ch c c' t ev :
  drv_ok d -> zget (dd_clients d) ch = Some (Some c) -> client_ok (dd_has_soccp d) ch c' ->
  drv_ok (client_moved ch c' t ev d).
Proof.
  intros [Ht Hl Hlc Hc Hr He Hg] E Hc'. unfold client_moved. split; simpl; try done.
  - exact (table_ok_frame (client_moved ch c' t ev) d ltac:(done) Ht).
  - intros id c0. rewrite zget_zset. case_decide as Hd; [|apply Hc].
    intros [= <-]. by destruct Hd as [<- _].
  - by rewrite zlen_zset.
Qed.

Lemma get_client_run d ch c :
  zget (dd_clients d) ch = Some (Some c) -> get_client ch d = Done c d.
Proof. intros E. unfold get_client, get_client_opt, bind, get, deref. by rewrite E. Qed.

Lemma get_client_opt_run d ch o :
  zget (dd_clients d) ch = Some o -> get_client_opt ch d = Done o d.
Proof. intros E. unfold get_client_opt, bind, get, deref. by rewrite E. Qed.

Lemma client_moved_id d ch c :
  zget (dd_clients d) ch = Some (Some c) -> client_moved ch c (dd_tick d) [] d = d.
Proof. intros E. unfold client_moved. destruct d. simpl in *. by rewrite zset_id, app_nil_r. Qed.

Lemma client_moved_moved ch c1 c2 t1 t2 e1 e2 d :
  client_moved ch c2 t2 e2 (client_moved ch c1 t1 e1 d) = client_moved ch c2 t2 (e1 ++ e2) d.
Proof. unfold client_moved. simpl. by rewrite zset_zset, app_assoc. Qed.

(** ** Client locks *)

Definition put_client_lock (i w : Z) (d : driver_data) : driver_data :=
  d <| dd_client_lock_tbl ::= zset i w |>.

Lemma lock_client_run d i w :
  zget (dd_client_lock_tbl d) i = Some w -> lock_lo w = 0 ->
  global_atomic_store (ClientLock i) true d = Done tt (put_client_lock i (with_lo w 1) d).
Proof.
  intros E Hw. unfold global_atomic_store, read_lock, bind, get. rewrite E. simpl. unfold ret, _lock.
  by rewrite Hw.
Qed.

Lemma unlock_client_run d i w :
  zget (dd_client_lock_tbl d) i = Some w -> lock_lo w = 0 ->
  global_atomic_store (ClientLock i) false (put_client_lock i (with_lo w 1) d) = Done tt d.
Proof.
  intros E Hw. pose proof (zget_Some _ _ _ E) as Hi.
  assert (zget (dd_client_lock_tbl (put_client_lock i (with_lo w 1) d)) i = Some (with_lo w 1)) as E'
    by (simpl; by apply zget_zset_eq).
  assert (put_client_lock i (with_lo (with_lo w 1) 0) (put_client_lock i (with_lo w 1) d) = d) as Ed.
  { unfold put_client_lock. destruct d. simpl in *.
    by rewrite zset_zset, with_lo_with_lo, with_lo_id, zset_id by (done || lia). }
  assert (lock_lo (with_lo w 1) = 1) as Hlo by (by apply with_lo_lo).
  unfold global_atomic_store, read_lock, bind, get. rewrite E'. simpl. unfold ret.
  destruct (dd_has_soccp d).
  - exact (f_equal (Done tt) Ed).
  - assert (_unlock_vm (with_lo w 1) = with_lo (with_lo w 1) 0) as ->
      by (unfold _unlock_vm; by rewrite Hlo).
    rewrite with_lo_bit1. exact (f_equal (Done tt) Ed).
Qed.

(** ** Writing the Rx queue of a client *)

(** Will the client's Rx queue take a message? *)
Definition rx_accepts (d : driver_data) (c : hw_fence_client) : bool :=
  (1 <? cl_queues_num c) && (client_lock_idx (cl_client_id c) <? dd_client_lock_tbl_cnt d) &&
  match zget (cl_queues c) 1 with Some q => accepts (dd_has_soccp d) q | None => false end.

Lemma params_is_Some sc q : queue_ok sc q -> is_Some (_get_update_queue_params sc q).
Proof.
  intros (n & r & w & H). rewrite (queue_repr_params _ _ _ _ _ (queue_shape_repr _ _ _ _ _ H)).
  by eexists.
Qed.

Lemma set_queue_moved d ch c i q x :
  zget (dd_clients d) ch = Some (Some c) -> zget (cl_queues c) i = Some q ->
  set_queue (ClientQueue ch i) x d
  = Done tt (client_moved ch (c <| cl_queues ::= zset i x |>) (dd_tick d) [] d).
Proof.
  intros Ec Eq. unfold set_queue. rewrite (bind_run _ _ _ _ _ (get_client_run _ _ _ Ec)).
  unfold set_client, modifyM, client_moved. simpl. by rewrite app_nil_r.
Qed.

Lemma get_queue_run d ch c i q :
  zget (dd_clients d) ch = Some (Some c) -> zget (cl_queues c) i = Some q ->
  get_queue (ClientQueue ch i) d = Done q d.
Proof.
  intros Ec Eq. unfold get_queue. rewrite (bind_run _ _ _ _ _ (get_client_run _ _ _ Ec)).
  unfold deref. by rewrite Eq.
Qed.

Lemma on_queue_run {A} d ch c i q (m : M hw_fence_queue A) a q' :
  zget (dd_clients d) ch = Some (Some c) -> zget (cl_queues c) i = Some q -> m q = Done a q' ->
  on_queue (ClientQueue ch i) m d
  = Done a (client_moved ch (c <| cl_queues ::= zset i q' |>) (dd_tick d) [] d).
Proof.
  intros Ec Eq Em. unfold on_queue. rewrite (bind_run _ _ _ _ _ (get_queue_run _ _ _ _ _ Ec Eq)).
  rewrite Em. by rewrite (bind_run _ _ _ _ _ (set_queue_moved _ _ _ _ _ q' Ec Eq)).
Qed.

Lemma client_ok_set_queue sc id c i q q' :
  client_ok sc id c -> zget (cl_queues c) i = Some q -> queue_ok sc q' ->
  q_skip_wr_idx q' = q_skip_wr_idx q -> client_ok sc id (c <| cl_queues ::= zset i q' |>).
Proof.
  intros Hc Eq Hq' Hsk. apply (client_ok_same sc id c); [done|by destruct c|by simpl; rewrite zlen_zset|].
  intros j x. simpl. rewrite zget_zset. case_decide as Hd.
  - intros [= <-]. destruct Hd as [<- _]. split; [done|]. by exists q.
  - intros Ex. split; [intros; by eapply ck_queue_ok|]. by exists x.
Qed.

(** The client with [q'] for its Rx queue. *)
Definition with_rxq (q' : hw_fence_queue) (c : hw_fence_client) : hw_fence_client :=
  c <| cl_queues ::= zset 1 q' |>.

(** What a write to the Rx queue leaves: the message and one look at the clock when the
    queue takes it, nothing otherwise. *)
Definition rx_written (d : driver_data) (c c' : hw_fence_client) (t : nat)
    (ctx seq hash fl cd err : Z) : Prop :=
  if rx_accepts d c then
    exists q q', zget (cl_queues c) 1 = Some q /\
      update_queue_locked (dd_has_soccp d) HW_FENCE_PAYLOAD_TYPE_1 ctx seq hash fl cd err (now d) q
      = Done 0 q' /\ c' = with_rxq q' c /\ t = S (dd_tick d)
  else c' = c /\ t = dd_tick d.

Lemma with_rxq_id c q : zget (cl_queues c) 1 = Some q -> with_rxq q c = c.
Proof. intros E. unfold with_rxq. destruct c. simpl in *. by rewrite zset_id. Qed.

Lemma update_rxq_run d ch c ctx seq hash fl cd err :
  drv_ok d -> zget (dd_clients d) ch = Some (Some c) ->
  exists c' t, hw_fence_update_queue ch ctx seq hash fl cd err (HW_FENCE_RX_QUEUE - 1) d
    = Done (if rx_accepts d c then 0 else - EINVAL) (client_moved ch c' t [] d) /\
    client_ok (dd_has_soccp d) ch c' /\ same_client c c' /\
    rx_written d c c' t ctx seq hash fl cd err.
Proof.
  intros Hd Ec. pose proof (do_clients _ Hd _ _ Ec) as Hc.
  unfold hw_fence_update_queue. rewrite (bind_run _ _ _ _ _ (get_client_run _ _ _ Ec)).
  change (HW_FENCE_RX_QUEUE - 1) with 1. unfold rx_written, rx_accepts.
  assert (exists c' t, (ret (- EINVAL) : DRV Z) d = Done (- EINVAL) (client_moved ch c' t [] d) /\
            client_ok (dd_has_soccp d) ch c' /\ same_client c c' /\ c' = c /\ t = dd_tick d) as Hno.
  { exists c, (dd_tick d). rewrite client_moved_id by done. by eauto using same_client_refl. }
  destruct (Z.leb_spec (cl_queues_num c) 1); destruct (Z.ltb_spec 1 (cl_queues_num c)); try lia;
    [exact Hno|].
  destruct (zget_is_Some (cl_queues c) 1) as [q Eq]; [pose proof (ck_num _ _ _ Hc); lia|].
  assert (queue_ok (dd_has_soccp d) q) as Hq by (by eapply (ck_queue_ok _ _ _ Hc 1)). rewrite Eq.
  unfold hw_fence_update_queue_helper. rewrite (bind_run _ _ d d d) by done.
  rewrite (bind_run _ _ _ _ _ (get_queue_run _ _ _ _ _ Ec Eq)). cbv zeta.
  destruct (params_is_Some _ _ Hq) as [ps ->]. change (_lock_client_queue 1) with true. cbv iota.
  destruct (Z.leb_spec (dd_client_lock_tbl_cnt d) (client_lock_idx (cl_client_id c)));
    destruct (Z.ltb_spec (client_lock_idx (cl_client_id c)) (dd_client_lock_tbl_cnt d)); try lia;
    [exact Hno|]. rewrite !andb_true_l.
  set (li := client_lock_idx (cl_client_id c)) in *.
  destruct (zget_is_Some (dd_client_lock_tbl d) li) as [w Ew].
  { rewrite <- (do_lock_cnt _ Hd). split; [|done]. apply u32_range. }
  pose proof (do_locks _ Hd _ _ Ew) as Hw.
  rewrite (bind_run _ _ _ _ _ (lock_client_run _ _ _ Ew Hw)).
  set (dl := put_client_lock li (with_lo w 1) d).
  destruct (accepts_run _ _ HW_FENCE_PAYLOAD_TYPE_1 ctx seq hash fl cd err (now dl) Hq)
    as (q' & Eu & Hq' & Hsk & Hfull).
  assert (client_ok (dd_has_soccp d) ch (with_rxq q' c)) as Hc' by (by eapply client_ok_set_queue).
  assert (same_client c (with_rxq q' c)) as Hs by (by destruct c).
  pose proof (on_queue_run dl ch c 1 q _ _ _ Ec Eq Eu) as Eo. fold (with_rxq q' c) in Eo.
  rewrite bind_assoc, (bind_run _ _ dl dl dl) by done.
  change (dd_has_soccp dl) with (dd_has_soccp d). rewrite bind_assoc, (bind_run _ _ _ _ _ Eo).
  exists (with_rxq q' c), (if accepts (dd_has_soccp d) q then S (dd_tick d) else dd_tick d).
  split.
  2: { split; [done|]. split; [done|]. destruct (accepts (dd_has_soccp d) q).
       - exists q, q'. by split; [|split].
       - split; [|done]. rewrite Hfull by done. by apply with_rxq_id. }
  set (c' := with_rxq q' c) in *.
  destruct (accepts (dd_has_soccp d) q); rewrite bind_assoc; (erewrite bind_run by done);
    (erewrite bind_run by done).
  - erewrite bind_run by (exact (unlock_client_run (client_moved ch c' (S (dd_tick d)) [] d) li w Ew Hw)).
    done.
  - erewrite bind_run by (exact (unlock_client_run (client_moved ch c' (dd_tick d) [] d) li w Ew Hw)).
    done.
Qed.

(** ** One notification *)

(** Whether a message is owed to the client's Rx queue. *)
Definition needs_rxq (c : hw_fence_client) (signal_from_import : bool) : bool :=
  cl_signaled_update_rxq c || (cl_update_rxq c && negb signal_from_import).

(** The client is told through its error callback rather than by a signal. *)
Definition by_callback (c : hw_fence_client) (error : Z) : bool :=
  negb (error =? 0) && negb (cl_fence_error_cb c =? 0).

(** The Rx queue refuses the message, so the client is not told at all. *)
Definition rx_refused (d : driver_data) (c : hw_fence_client) (imp : bool) : bool :=
  needs_rxq c imp && negb (rx_accepts d c).

(** What the client observes. *)
Definition notice (d : driver_data) (c : hw_fence_client) (f : msm_hw_fence)
    (hash flags error : Z) (imp : bool) : list event :=
  if by_callback c error then
    [EvErrorCb (cl_fence_error_cb c) (cl_fence_error_cb_userdata c) hash error
       (hf_ctx_id f) (hf_seq_id f) flags]
  else if rx_refused d c imp then []
  else if negb (dd_has_soccp d) && is_val_client (cl_client_id c) then
    [EvWakeVal (cl_client_id c)]
  else if cl_signaled_send_ipc c || negb imp then
    [EvIpc (dd_ipcc_client_pid d) (cl_ipc_client_vid c) (cl_ipc_signal_id c)]
  else [].

Definition notice_result (d : driver_data) (c : hw_fence_client) (error : Z) (imp : bool) : Z :=
  if by_callback c error then 0 else if rx_refused d c imp then - EINVAL else 0.

Lemma error_cb_run d ch c ctx seq hash fl error :
  zget (dd_clients d) ch = Some (Some c) -> cl_error_cb_lock c = false -> by_callback c error = true ->
  hw_fence_utils_fence_error_cb ch ctx seq hash fl error d
  = Done 0 (client_moved ch c (dd_tick d)
      [EvErrorCb (cl_fence_error_cb c) (cl_fence_error_cb_userdata c) hash error ctx seq fl] d).
Proof.
  intros Ec Hm Hb. unfold by_callback in Hb. apply andb_true_iff in Hb as [He Hcb].
  apply negb_true_iff in He, Hcb.
  set (c1 := c <| cl_error_cb_lock := true |>).
  assert (forall d', zget (dd_clients d') ch = Some (Some c) ->
    get_client ch (d' <| dd_clients ::= zset ch (Some c1) |>)
    = Done c1 (d' <| dd_clients ::= zset ch (Some c1) |>)) as Hg.
  { intros d' E'. apply get_client_run. simpl. apply zget_zset_eq. by eapply zget_Some. }
  unfold hw_fence_utils_fence_error_cb, lock_error_cb.
  rewrite bind_assoc, (bind_run _ _ _ _ _ (get_client_run _ _ _ Ec)), Hm.
  erewrite bind_run by done. fold c1. rewrite (bind_run _ _ _ _ _ (Hg d Ec)).
  change (cl_fence_error_cb c1) with (cl_fence_error_cb c). rewrite He, Hcb. cbv beta iota delta [orb].
  rewrite bind_assoc. erewrite bind_run by done. erewrite bind_run by done.
  unfold unlock_error_cb, update_client. rewrite bind_assoc.
  erewrite bind_run by (apply get_client_run; simpl; apply zget_zset_eq; by eapply zget_Some).
  unfold bind, set_client, modifyM, ret, client_moved, logged. simpl. rewrite zset_zset.
  replace (mk_client _ _ _ _ _ _ _ _ _ _ _ _ _ _ _ _ _ _ _ _) with c; [done|].
  unfold c1. destruct c; simpl in *. by rewrite Hm.
Qed.

Lemma val_loopback_run d id c :
  zget (dd_clients d) id = Some (Some c) -> is_val_client id = true ->
  process_validation_client_loopback id d
  = Done 0 (client_moved id (c <| cl_val_signal := 1 |>) (dd_tick d) [EvWakeVal id] d).
Proof.
  intros Ec Hv. unfold is_val_client in Hv. apply andb_true_iff in Hv as [H1 H2].
  unfold process_validation_client_loopback.
  destruct (Z.ltb_spec id HW_FENCE_CLIENT_ID_VAL0), (Z.ltb_spec HW_FENCE_CLIENT_ID_VAL6 id);
    try lia. cbv beta iota delta [orb].
  rewrite (bind_run _ _ _ _ _ (get_client_opt_run _ _ _ Ec)).
  unfold update_client. by rewrite bind_assoc, (bind_run _ _ _ _ _ (get_client_run _ _ _ Ec)).
Qed.

Lemma same_client_val c : same_client c (c <| cl_val_signal := 1 |>).
Proof. by destruct c. Qed.

Lemma same_client_trans c1 c2 c3 : same_client c1 c2 -> same_client c2 c3 -> same_client c1 c3.
Proof. unfold same_client. intros H1 H2. rewrite H2, H1. by destruct c1, c2, c3. Qed.

Lemma client_ok_val sc id c : client_ok sc id c -> client_ok sc id (c <| cl_val_signal := 1 |>).
Proof. intros [? ? ? ? ?]. by split. Qed.

#[export] Hint Resolve same_client_refl same_client_val client_ok_val : fence.

(** ** Deliveries

    What a client is owed: the news that the fence [dl_fence], under the handle
    [dl_hash], is signaled.  [deliver] is the whole effect of making a delivery. *)
Record delivery := mk_delivery {
  dl_client : Z;
  dl_fence : msm_hw_fence;
  dl_hash : Z;
  dl_flags : Z;
  dl_data : Z;
  dl_error : Z;
  dl_import : bool }.

(** The Rx queue with the message of the delivery at its end. *)
Definition rx_pushed (d : driver_data) (x : delivery) (q : hw_fence_queue) : hw_fence_queue :=
  match update_queue_locked (dd_has_soccp d) HW_FENCE_PAYLOAD_TYPE_1 (hf_ctx_id (dl_fence x))
          (hf_seq_id (dl_fence x)) (dl_hash x) (dl_flags x) (dl_data x) (dl_error x) (now d) q with
  | Done _ q' => q'
  | Faulted _ => q
  end.

(** A message goes to the Rx queue of the client, and it fits. *)
Definition gets_message (d : driver_data) (c : hw_fence_client) (x : delivery) : bool :=
  negb (by_callback c (dl_error x)) && needs_rxq c (dl_import x) && rx_accepts d c.

(** The client is a validation client, woken through its wait queue. *)
Definition gets_flag (d : driver_data) (c : hw_fence_client) (x : delivery) : bool :=
  negb (by_callback c (dl_error x)) && negb (rx_refused d c (dl_import x)) &&
  (negb (dd_has_soccp d) && is_val_client (cl_client_id c)).

Definition client_told (d : driver_data) (c : hw_fence_client) (x : delivery) : hw_fence_client :=
  let c1 := match zget (cl_queues c) 1 with
            | Some q => if gets_message d c x then with_rxq (rx_pushed d x q) c else c
            | None => c
            end in
  if gets_flag d c x then c1 <| cl_val_signal := 1 |> else c1.

(** Only the client moves, and the clock if a message was written; the client
    observes its [notice]. *)
Definition deliver (x : delivery) (d : driver_data) : driver_data :=
  match zget (dd_clients d) (dl_client x) with
  | Some (Some c) =>
      client_moved (dl_client x) (client_told d c x)
        (if gets_message d c x then S (dd_tick d) else dd_tick d)
        (notice d c (dl_fence x) (dl_hash x) (dl_flags x) (dl_error x) (dl_import x)) d
  | _ => d
  end.

(** [_fence_ctl_signal] never blocks or leaves memory; it makes the delivery, and
    nothing else. *)
Lemma fence_ctl_signal_exact d h f x c :
  drv_ok d -> zget (dd_clients d) (dl_client x) = Some (Some c) -> fence_at d h = Some f ->
  hf_ctx_id (dl_fence x) = hf_ctx_id f -> hf_seq_id (dl_fence x) = hf_seq_id f ->
  _fence_ctl_signal (dl_client x) h (dl_hash x) (dl_flags x) (dl_data x) (dl_error x) (dl_import x) d
  = Done (notice_result d c (dl_error x) (dl_import x)) (deliver x d) /\
  client_ok (dd_has_soccp d) (dl_client x) (client_told d c x) /\ same_client c (client_told d c x).
Proof.
  intros Hd Ec Ef Ectx Eseq. pose proof (do_clients _ Hd _ _ Ec) as Hc. unfold deliver. rewrite Ec.
  destruct x as [ch g hash fl cd err imp]. simpl in *.
  unfold _fence_ctl_signal, notice, notice_result, client_told, gets_message, gets_flag. simpl.
  rewrite (bind_run _ _ d d d) by done.
  rewrite (bind_run _ _ _ _ _ (get_client_run _ _ _ Ec)). cbv zeta. fold (by_callback c err).
  assert (forall q : hw_fence_queue, (if false then with_rxq q c else c) = c) as Hno by done.
  destruct (by_callback c err) eqn:Hb.
  { rewrite (bind_run _ _ _ _ _ (get_fence_run _ _ _ Ef)). rewrite Ectx, Eseq. cbn [negb andb].
    rewrite (error_cb_run d ch c _ _ _ _ _ Ec (ck_mutex _ _ _ Hc) Hb).
    destruct (zget (cl_queues c) 1); by eauto with fence. }
  fold (needs_rxq c imp). unfold rx_refused, rx_pushed. simpl. rewrite Ectx, Eseq.
  set (c1 := match zget (cl_queues c) 1 with Some _ => _ | None => _ end).
  assert ((if needs_rxq c imp then
             bind (get_fence h) (fun f => hw_fence_update_queue ch (hf_ctx_id f) (hf_seq_id f)
               hash fl cd err (HW_FENCE_RX_QUEUE - 1)) else ret 0) d
           = Done (if needs_rxq c imp && negb (rx_accepts d c) then - EINVAL else 0)
               (client_moved ch c1 (if needs_rxq c imp && rx_accepts d c then S (dd_tick d) else dd_tick d)
                  [] d) /\
           client_ok (dd_has_soccp d) ch c1 /\ same_client c c1) as (E1 & Hc1 & Hs1).
  { unfold c1. destruct (needs_rxq c imp); cbn [andb].
    - rewrite (bind_run _ _ _ _ _ (get_fence_run _ _ _ Ef)).
      destruct (update_rxq_run d ch c (hf_ctx_id f) (hf_seq_id f) hash fl cd err Hd Ec)
        as (c2 & t & E1 & ? & ? & Hw). rewrite E1. unfold rx_written in Hw.
      destruct (rx_accepts d c).
      + destruct Hw as (q & q' & Eq & Eu & -> & ->). rewrite Eq. unfold rx_pushed. simpl.
        by rewrite Eu.
      + destruct Hw as [-> ->]. by destruct (zget (cl_queues c) 1).
    - destruct (zget (cl_queues c) 1); rewrite client_moved_id by done; by eauto with fence. }
  rewrite (bind_run _ _ _ _ _ E1).
  set (t1 := if needs_rxq c imp && rx_accepts d c then S (dd_tick d) else dd_tick d) in *.
  set (d1 := client_moved ch c1 t1 [] d) in *.
  destruct (needs_rxq c imp && negb (rx_accepts d c)); [done|].
  change (negb (0 =? 0)) with false. cbv iota. cbn [negb andb].
  assert (zget (dd_clients d1) ch = Some (Some c1)) as Ec1
    by (simpl; apply zget_zset_eq; by eapply zget_Some).
  rewrite (ck_id _ _ _ Hc).
  destruct (negb (dd_has_soccp d) && is_val_client ch) eqn:Hv.
  - apply andb_true_iff in Hv as [_ Hv].
    rewrite (val_loopback_run d1 ch c1) by done. unfold d1.
    rewrite client_moved_moved. split; [done|].
    split; [by apply client_ok_val|]. eapply same_client_trans; [done|apply same_client_val].
  - destruct (cl_signaled_send_ipc c || negb imp); [|done].
    split; [|done]. unfold hw_fence_ipcc_trigger_signal, log_event, modifyM, bind, ret.
    unfold d1, client_moved. simpl. by rewrite app_nil_r.
Qed.

(** The same without the exact contents. *)
Lemma fence_ctl_signal_run d ch c h f hash fl cd err imp :
  drv_ok d -> zget (dd_clients d) ch = Some (Some c) -> fence_at d h = Some f ->
  exists c' t, _fence_ctl_signal ch h hash fl cd err imp d
    = Done (notice_result d c err imp) (client_moved ch c' t (notice d c f hash fl err imp) d) /\
    client_ok (dd_has_soccp d) ch c' /\ same_client c c'.
Proof.
  intros Hd Ec Ef. set (x := mk_delivery ch f hash fl cd err imp).
  destruct (fence_ctl_signal_exact d h f x c Hd Ec Ef) as (E & Hc & Hs); [done..|].
  unfold deliver in E. simpl in E. rewrite Ec in E. by do 2 eexists.
Qed.

(** ** Telling every waiting client *)

(** [d'] is [d] after clients observed [ev]: only client queues, validation flags
    and the clock moved. *)
Record told (d d' : driver_data) (ev : list event) : Prop := {
  td_state : exists cl t,
    d' = d <| dd_clients := cl |> <| dd_tick := t |> <| dd_events ::= fun l => l ++ ev |>;
  td_clients : forall id,
    match zget (dd_clients d) id with
    | Some (Some c) => exists c', zget (dd_clients d') id = Some (Some c') /\ same_client c c'
    | o => zget (dd_clients d') id = o
    end }.

Lemma told_refl d : told d d [].
Proof.
  split.
  - exists (dd_clients d), (dd_tick d). destruct d. simpl. by rewrite app_nil_r.
  - intros id. destruct (zget (dd_clients d) id) as [[c|]|]; [|done..].
    exists c. split; [done|apply same_client_refl].
Qed.

Lemma told_trans d d1 d2 e1 e2 : told d d1 e1 -> told d1 d2 e2 -> told d d2 (e1 ++ e2).
Proof.
  intros [(cl1 & t1 & E1) H1] [(cl2 & t2 & E2) H2]. split.
  - exists cl2, t2. rewrite E2, E1. simpl. by rewrite app_assoc.
  - intros id. specialize (H1 id). specialize (H2 id).
    destruct (zget (dd_clients d) id) as [[c|]|].
    + destruct H1 as (c1 & Ec1 & Hs1). rewrite Ec1 in H2. destruct H2 as (c2 & Ec2 & Hs2).
      exists c2. split; [done|]. by eapply same_client_trans.
    + by rewrite H1 in H2.
    + by rewrite H1 in H2.
Qed.

Lemma told_moved d ch c c' t ev :
  zget (dd_clients d) ch = Some (Some c) -> same_client c c' -> told d (client_moved ch c' t ev d) ev.
Proof.
  intros Ec Hs. split; [by eexists _, _|]. intros id. simpl. rewrite zget_zset.
  case_decide as Hd.
  - destruct Hd as [<- _]. rewrite Ec. by exists c'.
  - destruct (zget (dd_clients d) id) as [[c0|]|]; [|done..].
    exists c0. split; [done|apply same_client_refl].
Qed.

Lemma told_notice d d' ev c f hash fl err imp :
  told d d' ev -> notice d' c f hash fl err imp = notice d c f hash fl err imp.
Proof. by intros [(cl & t & ->) _]. Qed.

Lemma told_fence d d' ev i : told d d' ev -> fence_at d' i = fence_at d i.
Proof. by intros [(cl & t & ->) _]. Qed.

(** The notices owed for [mask] to the clients from number [i] on, by number. *)
Definition wait_notice (d : driver_data) (f : msm_hw_fence) (mask hash error id : Z) : list event :=
  if flag mask (BIT id) then
    match zget (dd_clients d) id with
    | Some (Some c) => notice d c f hash 0 error false
    | _ => []
    end
  else [].

Definition wait_notices (d : driver_data) (f : msm_hw_fence) (mask hash error : Z) : list event :=
  concat ((fun k => wait_notice d f mask hash error (Z.of_nat k))
          <$> seq 0 (Z.to_nat (dd_rxq_clients_num d + 1))).

Lemma signal_wait_client_run d d0 ev h f mask hash err id cd :
  drv_ok d0 -> told d d0 ev -> fence_at d h = Some f ->
  zget (dd_clients d0) id = zget (dd_clients d) id -> 0 <= id < zlen (dd_clients d) ->
  exists cd' d', signal_wait_client h mask hash err id cd d0 = Done cd' d' /\ drv_ok d' /\
    told d d' (ev ++ wait_notice d f mask hash err id) /\
    forall j, j <> id -> zget (dd_clients d') j = zget (dd_clients d0) j.
Proof.
  intros Hd Ht Ef Eid Hid. unfold signal_wait_client, wait_notice.
  destruct (flag mask (BIT id)); [|exists cd, d0; by rewrite app_nil_r].
  destruct (zget_is_Some _ _ Hid) as [o Eo]. rewrite <- Eid in Eo. rewrite <- Eid, Eo.
  rewrite (bind_run _ _ _ _ _ (get_client_opt_run _ _ _ Eo)).
  destruct o as [c|]; [|exists cd, d0; by rewrite app_nil_r].
  assert (fence_at d0 h = Some f) as Ef0 by (by rewrite (told_fence _ _ _ _ Ht)).
  assert (exists cd', (if hw_fence_get_client_data_id (cl_client_id_ext c) <? HW_FENCE_MAX_CLIENTS_WITH_DATA
            then read_client_data h (hw_fence_get_client_data_id (cl_client_id_ext c)) else ret cd) d0
          = Done cd' d0) as [cd' Ecd].
  { unfold hw_fence_get_client_data_id. destruct (_ =? _); simpl; [|by exists cd].
    unfold read_client_data. rewrite (bind_run _ _ _ _ _ (get_fence_run _ _ _ Ef0)).
    destruct (do_entries _ Hd _ _ Ef0) as [Hcd _].
    destruct (zget_is_Some (hf_client_data f) 0) as [v Hv]; [lia|].
    exists v. unfold deref. change HW_FENCE_CLIENT_DATA_ID_CTX0 with 0. by rewrite Hv. }
  rewrite (bind_run _ _ _ _ _ Ecd).
  destruct (fence_ctl_signal_run d0 id c h f hash 0 cd' err false Hd Eo Ef0)
    as (c' & t & E & Hc' & Hs).
  rewrite (bind_run _ _ _ _ _ E). do 2 eexists. split; [done|]. split; [|split].
  - by eapply drv_ok_moved.
  - rewrite <- (told_notice _ _ _ _ _ _ _ _ _ Ht). eapply told_trans; [done|]. by eapply told_moved.
  - intros j Hj. simpl. by apply zget_zset_ne.
Qed.

(** [_signal_all_wait_clients] tells every client of the mask, once, in the order
    of their numbers. *)
Lemma signal_all_wait_clients_run d h f mask hash err :
  drv_ok d -> fence_at d h = Some f ->
  exists d', _signal_all_wait_clients h mask hash err d = Done tt d' /\ drv_ok d' /\
    told d d' (wait_notices d f mask hash err).
Proof.
  intros Hd Ef. pose proof (do_rxq _ Hd) as Hn.
  set (upto := fun i : Z => concat ((fun k => wait_notice d f mask hash err (Z.of_nat k))
                             <$> seq 0 (Z.to_nat i))).
  assert (wp (for_n (Z.to_nat (dd_rxq_clients_num d + 1)) 0 (signal_wait_client h mask hash err) 0)
    (fun _ d' => drv_ok d' /\ told d d' (wait_notices d f mask hash err)) d) as Hw.
  { eapply wp_mono.
    - apply (wp_for_n (fun i _ d' => drv_ok d' /\ told d d' (upto i) /\
               forall j, i <= j -> zget (dd_clients d') j = zget (dd_clients d) j)).
      + split; [done|]. split; [apply told_refl|done].
      + intros i cd d0 Hi (Hd0 & Ht0 & Hrest).
        destruct (signal_wait_client_run d d0 (upto i) h f mask hash err i cd) as
          (cd' & d' & E & Hd' & Ht' & Hr'); try done; [by apply Hrest|lia|].
        unfold wp. rewrite E. split; [done|]. split.
        * unfold upto in *. rewrite Z2Nat.inj_add, Nat.add_1_r, seq_S by lia. simpl.
          rewrite fmap_app, concat_app. simpl. rewrite app_nil_r, Z2Nat.id by lia. done.
        * intros j Hj. rewrite Hr' by lia. apply Hrest. lia.
    - intros _ d' (Hd' & Ht' & _). rewrite Z.add_0_l, Z2Nat.id in Ht' by lia. done. }
  apply wp_inv in Hw as (a & d' & E & Hd' & Ht'). exists d'. split; [|done].
  unfold _signal_all_wait_clients. rewrite (bind_run _ _ d d d) by done.
  by rewrite (bind_run _ _ _ _ _ E).
Qed.

(** ** The deliveries owed for a signaled fence *)

(** The client data of a delivery: the client's own when it has some, otherwise what the
    loop carried along. *)
Definition delivered_data (c : hw_fence_client) (f : msm_hw_fence) (carried : Z) : Z :=
  let data_id := hw_fence_get_client_data_id (cl_client_id_ext c) in
  if data_id <? HW_FENCE_MAX_CLIENTS_WITH_DATA
  then default carried (zget (hf_client_data f) data_id) else carried.

(** One delivery to each registered client of [ids] whose bit is set, in order. *)
Fixpoint deliveries_to (d : driver_data) (f : msm_hw_fence) (mask hash error carried : Z)
    (ids : list Z) : list delivery :=
  match ids with
  | [] => []
  | id :: ids =>
      match (if flag mask (BIT id) then zget (dd_clients d) id else None) with
      | Some (Some c) =>
          let data := delivered_data c f carried in
          mk_delivery id f hash 0 data error false :: deliveries_to d f mask hash error data ids
      | _ => deliveries_to d f mask hash error carried ids
      end
  end.

Definition wait_deliveries (d : driver_data) (f : msm_hw_fence) (mask hash error : Z)
  : list delivery :=
  deliveries_to d f mask hash error 0 (seqZ 0 (dd_rxq_clients_num d + 1)).

Definition deliver_all (l : list delivery) (d : driver_data) : driver_data :=
  foldl (fun d x => deliver x d) d l.

Lemma deliver_all_app l1 l2 d : deliver_all (l1 ++ l2) d = deliver_all l2 (deliver_all l1 d).
Proof. apply foldl_app. Qed.

Lemma client_told_same d c x : same_client c (client_told d c x).
Proof.
  unfold client_told, same_client, with_rxq. destruct c; simpl.
  destruct (gets_flag _ _ _); destruct (zget _ 1); try destruct (gets_message _ _ _); done.
Qed.

Lemma deliver_told d x : exists ev, told d (deliver x d) ev.
Proof.
  unfold deliver. destruct (zget (dd_clients d) (dl_client x)) as [[c|]|] eqn:E;
    [|exists []; apply told_refl..].
  eexists. apply told_moved with (c := c); [done|]. apply client_told_same.
Qed.

Lemma deliver_all_told l : forall d, exists ev, told d (deliver_all l d) ev.
Proof.
  induction l as [|x l IH]; intros d; [exists []; apply told_refl|].
  destruct (deliver_told d x) as [e1 H1]. destruct (IH (deliver x d)) as [e2 H2].
  exists (e1 ++ e2). by eapply told_trans.
Qed.

(** Who is owed what depends on the registered clients only. *)
Lemma deliveries_to_told d d' ev f mask hash error ids : told d d' ev ->
  forall cd, deliveries_to d' f mask hash error cd ids = deliveries_to d f mask hash error cd ids.
Proof.
  intros [_ Ht]. induction ids as [|id ids IH]; intros cd; simpl; [done|].
  specialize (Ht id). destruct (flag _ _); [|apply IH].
  destruct (zget (dd_clients d) id) as [[c|]|].
  - destruct Ht as (c' & -> & Hs). assert (delivered_data c' f cd = delivered_data c f cd) as ->
      by (rewrite Hs; done). by rewrite IH.
  - rewrite Ht. apply IH.
  - rewrite Ht. apply IH.
Qed.

Lemma wait_deliveries_told d d' ev f mask hash error :
  told d d' ev -> wait_deliveries d' f mask hash error = wait_deliveries d f mask hash error.
Proof.
  intros Ht. unfold wait_deliveries. rewrite (deliveries_to_told _ _ _ _ _ _ _ _ Ht).
  by destruct Ht as [(cl & t & ->) _].
Qed.

(** One turn of the loop. *)
Lemma wait_turn_exact d h f mask hash err id cd :
  drv_ok d -> fence_at d h = Some f -> 0 <= id < zlen (dd_clients d) ->
  exists cd', signal_wait_client h mask hash err id cd d
    = Done cd' (deliver_all (deliveries_to d f mask hash err cd [id]) d) /\
    drv_ok (deliver_all (deliveries_to d f mask hash err cd [id]) d) /\
    forall ids, deliveries_to d f mask hash err cd (id :: ids)
                = deliveries_to d f mask hash err cd [id] ++ deliveries_to d f mask hash err cd' ids.
Proof.
  intros Hd Ef Hid. unfold signal_wait_client. simpl deliveries_to.
  destruct (flag mask (BIT id)); [|by exists cd].
  destruct (zget_is_Some _ _ Hid) as [o Eo]. rewrite Eo.
  rewrite (bind_run _ _ _ _ _ (get_client_opt_run _ _ _ Eo)).
  destruct o as [c|]; [|by exists cd]. cbv zeta.
  rewrite (bind_run _ _ d (delivered_data c f cd) d).
  2: { unfold delivered_data, hw_fence_get_client_data_id. destruct (_ =? _); simpl; [|done].
       unfold read_client_data. rewrite (bind_run _ _ _ _ _ (get_fence_run _ _ _ Ef)).
       destruct (do_entries _ Hd _ _ Ef) as [Hcd _].
       destruct (zget_is_Some (hf_client_data f) 0) as [v Hv]; [lia|].
       unfold deref. change HW_FENCE_CLIENT_DATA_ID_CTX0 with 0. by rewrite Hv. }
  set (x := mk_delivery id f hash 0 (delivered_data c f cd) err false).
  destruct (fence_ctl_signal_exact d h f x c Hd Eo Ef) as (E & Hc & Hs); [done..|].
  simpl in E. rewrite (bind_run _ _ _ _ _ E). exists (delivered_data c f cd). split; [done|].
  split; [|done]. unfold deliver_all. simpl. unfold deliver. simpl. rewrite Eo.
  by eapply drv_ok_moved.
Qed.

Lemma zlen_clients_told d d' ev : told d d' ev -> zlen (dd_clients d') = zlen (dd_clients d).
Proof.
  intros [_ Ht]. assert (forall j, 0 <= j -> (j < zlen (dd_clients d') <-> j < zlen (dd_clients d))) as H.
  { intros j Hj. specialize (Ht j). split; intros Hlt.
    - destruct (zget_is_Some (dd_clients d') j) as [o Eo]; [lia|].
      destruct (zget (dd_clients d) j) as [o'|] eqn:E; [by apply zget_Some in E as []|]. congruence.
    - destruct (zget_is_Some (dd_clients d) j) as [o Eo]; [lia|]. rewrite Eo in Ht.
      destruct o; [destruct Ht as (c' & Ht & _)|]; by apply zget_Some in Ht as []. }
  pose proof (zlen_nonneg (dd_clients d)). pose proof (zlen_nonneg (dd_clients d')).
  pose proof (H (zlen (dd_clients d))). pose proof (H (zlen (dd_clients d'))). lia.
Qed.

Lemma wait_turns_exact h f mask hash err n : forall lo cd d,
  drv_ok d -> fence_at d h = Some f -> 0 <= lo -> lo + Z.of_nat n <= zlen (dd_clients d) ->
  exists cd', for_n n lo (signal_wait_client h mask hash err) cd d
    = Done cd' (deliver_all (deliveries_to d f mask hash err cd (seqZ lo (Z.of_nat n))) d) /\
    drv_ok (deliver_all (deliveries_to d f mask hash err cd (seqZ lo (Z.of_nat n))) d).
Proof.
  induction n as [|n IH]; intros lo cd d Hd Ef Hlo Hn; [by exists cd|].
  destruct (wait_turn_exact d h f mask hash err lo cd Hd Ef) as (cd1 & E1 & Hd1 & Hl); [lia|].
  rewrite seqZ_cons by lia. rewrite Hl, deliver_all_app.
  set (d1 := deliver_all (deliveries_to d f mask hash err cd [lo]) d) in *.
  destruct (deliver_all_told (deliveries_to d f mask hash err cd [lo]) d) as [ev Ht]. fold d1 in Ht.
  replace (Z.pred (Z.of_nat (S n))) with (Z.of_nat n) by lia.
  destruct (IH (Z.succ lo) cd1 d1 Hd1) as (cd2 & E2 & Hd2).
  - by rewrite (told_fence _ _ _ _ Ht).
  - lia.
  - rewrite (zlen_clients_told _ _ _ Ht). lia.
  - rewrite (deliveries_to_told _ _ _ _ _ _ _ _ Ht) in E2, Hd2. exists cd2. simpl for_n.
    by rewrite (bind_run _ _ _ _ _ E1).
Qed.

(** [_signal_all_wait_clients] makes the deliveries that are owed, in order, and
    nothing else. *)
Lemma signal_all_wait_clients_exact d h f mask hash err :
  drv_ok d -> fence_at d h = Some f ->
  _signal_all_wait_clients h mask hash err d
  = Done tt (deliver_all (wait_deliveries d f mask hash err) d) /\
  drv_ok (deliver_all (wait_deliveries d f mask hash err) d).
Proof.
  intros Hd Ef. pose proof (do_rxq _ Hd) as Hr.
  destruct (wait_turns_exact h f mask hash err (Z.to_nat (dd_rxq_clients_num d + 1)) 0 0 d Hd Ef)
    as (cd & E & Hd'); [lia..|]. rewrite Z2Nat.id in E, Hd' by lia.
  split; [|done]. unfold _signal_all_wait_clients. rewrite (bind_run _ _ d d d) by done.
  by rewrite (bind_run _ _ _ _ _ E).
Qed.

(** ** What a client is told *)

(** A message for a client's Rx queue.  When the queue has room,
    [hw_fence_update_queue] returns 0 and appends exactly one message to the
    pending ones: the fence's identity, its handle with the synx flag, flags,
    client data, error and the current time; the client's lock is taken and
    released, and nothing else in the driver's state changes but the clock. *)
Theorem rx_message_appended d ch c q n r l ctx seq hash fl cd err :
  drv_ok d -> zget (dd_clients d) ch = Some (Some c) -> rx_accepts d c = true ->
  zget (cl_queues c) 1 = Some q -> queue_repr (dd_has_soccp d) q n r l ->
  queue_op_wf (QWrite HW_FENCE_PAYLOAD_TYPE_1 ctx seq hash fl cd err (now d)) ->
  exists c' t q' rsv,
    hw_fence_update_queue ch ctx seq hash fl cd err (HW_FENCE_RX_QUEUE - 1) d
    = Done 0 (client_moved ch c' t [] d) /\ same_client c c' /\
    zget (cl_queues c') 1 = Some q' /\
    queue_repr (dd_has_soccp d) q' n r
      (l ++ [new_payload HW_FENCE_PAYLOAD_TYPE_1 ctx seq hash fl cd err (now d) rsv]).
Proof.
  intros Hd Ec Hacc Eq Hq Hwf.
  destruct (update_rxq_run d ch c ctx seq hash fl cd err Hd Ec) as (c' & t & E & _ & Hs & Hm).
  unfold rx_written in Hm. rewrite Hacc in E, Hm. destruct Hm as (q0 & q' & Eq0 & Eu & Ec' & _).
  assert (q0 = q) as -> by congruence.
  assert (zget (cl_queues c') 1 = Some q') as Eq'
    by (rewrite Ec'; simpl; apply zget_zset_eq; by eapply zget_Some).
  assert (zlen l + 1 < n) as Hroom.
  { pose proof (qr_len _ _ _ _ _ Hq). destruct (decide (zlen l + 1 < n)); [done|].
    rewrite (update_queue_full _ _ _ _ _ _ _ _ _ _ _ _ _ Hq) in Eu by lia. done. }
  destruct (update_queue_room _ _ _ _ _ HW_FENCE_PAYLOAD_TYPE_1 ctx seq hash fl cd err (now d)
              Hq Hroom) as [rsv Er].
  rewrite Er in Eu. injection Eu as <-. exists c', t. do 2 eexists.
  split; [done|]. split; [done|]. split; [done|].
  apply queue_repr_enqueued; [done..|]. by apply new_payload_wf.
Qed.

(** Telling one client about one fence.  [_fence_ctl_signal] never blocks and
    never leaves memory.  A client with an error callback learns of an error
    through the callback alone; otherwise the client gets its message in the Rx
    queue (when it wants one) and then exactly one wake-up, unless the queue
    refuses the message, which is the only way the call fails. *)
Theorem fence_ctl_signal_spec d ch c h f hash fl cd err imp :
  drv_ok d -> zget (dd_clients d) ch = Some (Some c) -> fence_at d h = Some f ->
  exists d', _fence_ctl_signal ch h hash fl cd err imp d = Done (notice_result d c err imp) d' /\
    drv_ok d' /\ told d d' (notice d c f hash fl err imp).
Proof.
  intros Hd Ec Ef. destruct (fence_ctl_signal_run d ch c h f hash fl cd err imp Hd Ec Ef)
    as (c' & t & E & Hc' & Hs).
  eexists. split; [done|]. split; [by eapply drv_ok_moved|by eapply told_moved].
Qed.

(** Telling all waiting clients.  Every registered client whose bit is set in
    the mask is told exactly once, in the order of the client numbers, and no
    other client is; it holds whatever the state of the clients' queues. *)
Theorem signal_all_wait_clients_spec d h f mask hash err :
  drv_ok d -> fence_at d h = Some f ->
  exists d', _signal_all_wait_clients h mask hash err d = Done tt d' /\ drv_ok d' /\
    told d d' (wait_notices d f mask hash err).
Proof. apply signal_all_wait_clients_run. Qed.

(** ** Witnesses *)

(** The tests of [drv_ok] on a concrete state, all but the clients. *)
Definition drv_okb (d : driver_data) : bool :=
  table_okb d && forallb (fun w => lock_lo w =? 0) (dd_client_lock_tbl d) &&
  (dd_client_lock_tbl_cnt d =? zlen (dd_client_lock_tbl d)) &&
  (0 <=? dd_rxq_clients_num d) && (dd_rxq_clients_num d <? zlen (dd_clients d)) &&
  forallb (fun f => (zlen (hf_client_data f) =? 1) && (zlen (hf_parent_list f) =? 3) &&
                    forallb (Z.leb 0) (hf_parent_list f))
    (dd_hw_fences_tbl d).

Lemma drv_okb_sound d :
  drv_okb d = true -> stack_zeroed d ->
  (forall id c, zget (dd_clients d) id = Some (Some c) -> client_ok (dd_has_soccp d) id c) ->
  (forall fence g, dd_dma_fences d !! fence = Some g -> 0 <= df_cb_hash g) ->
  drv_ok d.
Proof.
  unfold drv_okb. intros H Hs Hc Hg.
  apply andb_true_iff in H as [H He]. apply andb_true_iff in H as [H Hr].
  apply andb_true_iff in H as [H Hr0]. apply andb_true_iff in H as [H Hn].
  apply andb_true_iff in H as [Ht Hl]. rewrite forallb_forall in Hl, He.
  split; [by apply table_okb_sound| |lia|done|lia| |done].
  - intros i w E%zget_elem. specialize (Hl _ E). lia.
  - intros i f E%zget_elem. specialize (He _ E). apply andb_true_iff in He as [He Hp].
    split; [lia|]. split; [lia|]. apply Forall_forall. intros x Hx%list_elem_of_In.
    rewrite forallb_forall in Hp. specialize (Hp _ Hx). lia.
Qed.

Lemma example_queue_ok : queue_ok true example_queue.
Proof.
  exists 3, 0, 0. split; try lia; try (by vm_compute). exists 0. split; [lia|by vm_compute].
Qed.

(** A display client that wants Rx messages. *)
Definition rx_client : hw_fence_client :=
  mk_client 2 2 (0, 0) [example_queue; example_queue] 2 0 0 false 4 8 8 true true true false false 50 0 1 0.

Lemma rx_client_ok : client_ok true 2 rx_client.
Proof.
  assert (forall i q, zget (cl_queues rx_client) i = Some q -> q = example_queue) as Hq.
  { intros i q E%zget_elem. simpl in E. by destruct E as [<-|[<-|[]]]. }
  split; try done.
  - intros i q E%Hq. by subst.
  - intros i q _ E%Hq. subst. apply example_queue_ok.
Qed.

Definition clients8 : driver_data :=
  table8 <| dd_clients := [None; None; Some rx_client] |> <| dd_rxq_clients_num := 2 |>
         <| dd_client_lock_tbl := replicate 24 0 |> <| dd_client_lock_tbl_cnt := 24 |>
         <| dd_ipcc_client_pid := 1 |>.

(** The same with one fence, created by client 3 and awaited by [rx_client]. *)
Definition waited8 : driver_data :=
  after (_hw_fence_lookup_and_create 3 99 7 5 0 0;;;
         update_fence (probe table8 7 5 0) (fun f => f <| hf_wait_client_mask := 4 |>)) clients8.

Definition waited_fence : msm_hw_fence := default blank_fence (fence_at waited8 (probe table8 7 5 0)).

Lemma one_client (c c0 : hw_fence_client) id :
  zget [None; None; Some c] id = Some (Some c0) -> id = 2 /\ c0 = c.
Proof.
  unfold zget. destruct (Z.leb_spec 0 id); [|done]. intros E.
  destruct (Z.to_nat id) as [|[|[|n]]] eqn:En; simplify_eq/=. split; [lia|done].
Qed.

Lemma waited8_ok : drv_ok waited8.
Proof.
  apply drv_okb_sound; [vm_compute; reflexivity|intros n; vm_compute; reflexivity| |].
  2: { intros fence g E. change (dd_dma_fences waited8) with (∅ : gmap Z dma_fence) in E.
       by rewrite lookup_empty in E. }
  intros id c E. change (dd_clients waited8) with [None; None; Some rx_client] in E.
  apply one_client in E as [-> ->]. exact rx_client_ok.
Qed.

Lemma rx_message_appended_witness :
  exists c' t, hw_fence_update_queue 2 7 5 3 0 0 0 1 waited8 = Done 0 (client_moved 2 c' t [] waited8).
Proof.
  destruct (rx_message_appended waited8 2 rx_client example_queue 3 0 [] 7 5 3 0 0 0 waited8_ok)
    as (c' & t & q' & rsv & E & _).
  - vm_compute. reflexivity.
  - vm_compute. reflexivity.
  - reflexivity.
  - exact example_queue_repr.
  - repeat split; vm_compute; congruence.
  - exists c', t. exact E.
Defined.

Lemma fence_ctl_signal_witness :
  exists d', _fence_ctl_signal 2 (probe table8 7 5 0) 3 0 0 0 false waited8 = Done 0 d' /\
    told waited8 d' [EvIpc 1 8 4].
Proof.
  destruct (fence_ctl_signal_spec waited8 2 rx_client (probe table8 7 5 0) waited_fence 3 0 0 0 false
              waited8_ok) as (d' & E & _ & Ht).
  - vm_compute. reflexivity.
  - vm_compute. reflexivity.
  - exists d'. split; [exact E|exact Ht].
Defined.

Lemma signal_all_wait_clients_witness :
  exists d', _signal_all_wait_clients (probe table8 7 5 0) 4 3 0 waited8 = Done tt d' /\
    told waited8 d' [EvIpc 1 8 4].
Proof.
  destruct (signal_all_wait_clients_spec waited8 (probe table8 7 5 0) waited_fence 4 3 0 waited8_ok)
    as (d' & E & _ & Ht).
  - vm_compute. reflexivity.
  - exists d'. split; [exact E|exact Ht].
Defined.

(** Any table with [rx_client] as the only client. *)
Lemma one_client_ok d :
  drv_okb d = true -> stack_zeroed d -> dd_has_soccp d = true ->
  dd_clients d = [None; None; Some rx_client] ->
  (forall fence g, dd_dma_fences d !! fence = Some g -> 0 <= df_cb_hash g) -> drv_ok d.
Proof.
  intros Hb Hs Hsoc Hc Hg. apply drv_okb_sound; [done|done| |done].
  intros id c. rewrite Hc, Hsoc. intros E. apply one_client in E as [-> ->]. exact rx_client_ok.
Qed.
