(* ===== verification/HwFenceSignal.v ===== *)
(** * Signaling

    [src/hw_fence_drv_priv.c]: signaling a fence, its parent join fences and its
    waiting clients. *)
From S2P Require Import Prelude HwFenceTypes HwFenceQueue HwFenceTable HwFenceRef HwFenceClient.
From stdpp Require Import gmap.
From Stdlib Require Import Lia.
#[local] Open Scope Z_scope.

(** ** Signaling a fence *)

(** Returns whether the join fence has no child pending. *)
Definition _update_and_get_join_fence_signal_status (join_fence child_fence_error : Z) : DRV bool :=
  global_atomic_store (FenceLock join_fence) true;;;
  update_fence join_fence (fun f => f <| hf_error ::= fun e => Z.lor e child_fence_error |>);;;
  f <-- get_fence join_fence;
  when negb (hf_pending_child_cnt f =? 0) do
    update_fence join_fence (fun f => f <| hf_pending_child_cnt ::= fun c => u32 (c - 1) |>);;;
  f <-- get_fence join_fence;
  let signal_join_fence := hf_pending_child_cnt f =? 0 in
  global_atomic_store (FenceLock join_fence) false;;;
  ret signal_join_fence.

(** One turn of the loop of [_signal_parent_fences]. *)
Definition signal_parent (hw_fence hash error i : Z) : DRV unit :=
  f <-- get_fence hw_fence;
  parent_hash <-- deref (zget (hf_parent_list f) i);
  d <-- get;
  match _get_hw_fence (dd_hw_fence_table_entries d) parent_hash with
  | None => ret tt
  | Some join_fence =>
      b <-- _update_and_get_join_fence_signal_status join_fence error;
      if b : bool then
        jf <-- get_fence join_fence;
        _signal_all_wait_clients join_fence (hf_wait_client_mask jf) parent_hash (hf_error jf);;;
        hw_fence_destroy_refcount parent_hash HW_FENCE_FCTL_REFCOUNT;;;
        ret tt
      else ret tt
  end.

Definition _signal_parent_fences (hw_fence parents_cnt hash error : Z) : DRV unit :=
  let parents_cnt :=
    if MSM_HW_FENCE_MAX_JOIN_PARENTS <? parents_cnt then MSM_HW_FENCE_MAX_JOIN_PARENTS
    else parents_cnt in
  for_n (Z.to_nat parents_cnt) 0 (fun i _ => signal_parent hw_fence hash error i) tt.

(** What the signaling operation writes to the entry. *)
Definition signaled (error : Z) (f : msm_hw_fence) : msm_hw_fence :=
  f <| hf_flags ::= fun x => Z.lor x MSM_HW_FENCE_FLAG_SIGNAL |> <| hf_error := error |>
    <| hf_parents_cnt := 0 |>.

Definition _signal_fence_if_unsignaled (hw_fence hash error : Z) (release_ref : bool) : DRV unit :=
  global_atomic_store (FenceLock hw_fence) true;;;
  f <-- get_fence hw_fence;
  if flag (hf_flags f) MSM_HW_FENCE_FLAG_SIGNAL then
    global_atomic_store (FenceLock hw_fence) false
  else
    let wait_client_mask := hf_wait_client_mask f in
    let parents_cnt := hf_parents_cnt f in
    update_fence hw_fence (signaled error);;;
    global_atomic_store (FenceLock hw_fence) false;;;
    _signal_parent_fences hw_fence parents_cnt hash error;;;
    _signal_all_wait_clients hw_fence wait_client_mask hash error;;;
    when release_ref do (hw_fence_destroy_refcount hash HW_FENCE_FCTL_REFCOUNT;;; ret tt).

(** The entry is looked up by handle; [fence], when given, must be the dma-fence
    it backs. *)
Definition hw_fence_signal_fence (fence : option Z) (hash error : Z) (release_ref : bool) : DRV Z :=
  d <-- get;
  match _get_hw_fence (dd_hw_fence_table_entries d) hash with
  | None => ret (- EINVAL)
  | Some hw_fence =>
      f <-- get_fence hw_fence;
      ok <-- (match fence with
              | None => ret true
              | Some fence =>
                  g <-- get_dma_fence fence;
                  ret ((hf_ctx_id f =? df_context g) && (hf_seq_id f =? df_seqno g))
              end);
      if negb ok then ret (- EINVAL)
      else _signal_fence_if_unsignaled hw_fence hash error release_ref;;; ret 0
  end.

(** * Properties *)

(** ** Updating entries in a well-formed driver *)

(** What [drv_ok] asks of an entry. *)
Definition entry_ok (f : msm_hw_fence) : Prop :=
  lock_free f /\ entry_shape f.

Lemma entry_ok_at d h f : drv_ok d -> fence_at d h = Some f -> entry_ok f.
Proof.
  intros Hd E. split; [|exact (do_entries _ Hd _ _ E)].
  exact (lock_free_at _ _ _ (do_table _ Hd) E).
Qed.

Lemma drv_ok_put d h f : drv_ok d -> entry_ok f -> drv_ok (put_fence h f d).
Proof.
  intros [Ht Hl Hlc Hc Hr He Hg] (Hf & Hsh). split; simpl; try done.
  - by apply table_ok_put.
  - intros i g. unfold fence_at, put_fence. simpl. rewrite zget_zset.
    case_decide; [by intros [= <-]|apply He].
Qed.

Lemma drv_ok_ticked d : drv_ok d -> drv_ok (ticked d).
Proof. intros [? ? ? ? ? ? ?]. split; auto with fence. Qed.

Lemma free_entry_ok f : entry_ok f -> entry_ok (free_entry f).
Proof.
  intros (Hf & Hcd & Hpl). unfold free_entry. case_match; [|done]. split; [done|].
  split; [simpl; unfold zlen in *; by rewrite length_fmap|]. split; [done|].
  simpl. by repeat constructor.
Qed.

Lemma clear_ref_ok ref f : entry_ok f -> entry_ok (clear_ref ref f).
Proof. intros H. by apply free_entry_ok. Qed.

Lemma put_ref_ok f : entry_ok f -> entry_ok (put_ref f).
Proof. intros H. by apply free_entry_ok. Qed.

Lemma put_entry_ok f : entry_ok f -> entry_ok (put_entry f).
Proof. intros H. apply free_entry_ok. by case_match. Qed.

Lemma signaled_ok e f : entry_ok f -> entry_ok (signaled e f).
Proof. done. Qed.

#[export] Hint Resolve do_table entry_ok_at drv_ok_put drv_ok_ticked clear_ref_ok put_ref_ok
  put_entry_ok signaled_ok : fence.

Lemma told_ok_fence d d' ev h f : told d d' ev -> fence_at d h = Some f -> fence_at d' h = Some f.
Proof. intros Ht E. by rewrite (told_fence _ _ _ _ Ht). Qed.

(** Dropping the controller's reference if the entry has one. *)
Definition drop_fctl (f : msm_hw_fence) : msm_hw_fence :=
  if flag (hf_refcount f) HW_FENCE_FCTL_REFCOUNT then clear_ref HW_FENCE_FCTL_REFCOUNT f else f.

Lemma drop_fctl_ok f : entry_ok f -> entry_ok (drop_fctl f).
Proof. intros. unfold drop_fctl. case_match; [by apply clear_ref_ok|done]. Qed.

Lemma drop_fctl_run d h f (B : Type) (k : Z -> DRV B) :
  drv_ok d -> fence_at d h = Some f ->
  exists r, bind (hw_fence_destroy_refcount h HW_FENCE_FCTL_REFCOUNT) k d
            = k r (put_fence h (drop_fctl f) d).
Proof.
  intros Hd E. pose proof (do_table _ Hd) as Hok.
  pose proof (destroy_refcount_run d h HW_FENCE_FCTL_REFCOUNT f (to_wf _ Hok) (to_unlocked _ Hok) E) as Hr.
  unfold drop_fctl. destruct (flag _ _); rewrite (bind_run _ _ _ _ _ Hr); [by eexists|].
  rewrite put_fence_id by done. by eexists.
Qed.

(** ** One parent *)

(** What a child that signals with [error] does to a join fence. *)
Definition child_done (error : Z) (f : msm_hw_fence) : msm_hw_fence :=
  f <| hf_error ::= fun e => Z.lor e error |>
    <| hf_pending_child_cnt ::= fun c => if c =? 0 then 0 else u32 (c - 1) |>.

Definition completed (f : msm_hw_fence) : bool := hf_pending_child_cnt f =? 0.

Lemma child_done_neutral error :
  lock_neutral (child_done error) /\ forall f, lock_held (child_done error (with_lock 1 f)).
Proof. by apply lock_neutral_intro. Qed.

Lemma child_done_ok e f : entry_ok f -> entry_ok (child_done e f).
Proof. done. Qed.

#[export] Hint Resolve child_done_ok drop_fctl_ok : fence.

(** [_update_and_get_join_fence_signal_status], under the join fence's lock. *)
Lemma update_join_run d h f error :
  fence_at d h = Some f -> lock_free f ->
  _update_and_get_join_fence_signal_status h error d
  = Done (completed (child_done error f)) (put_fence h (child_done error f) d).
Proof.
  intros E Hf. unfold _update_and_get_join_fence_signal_status.
  rewrite (bind_run _ _ _ _ _ (locked_at_run _ _ _ E Hf)).
  set (fl := with_lock 1 f). set (d0 := locked_at h d).
  pose proof (locked_at_fence _ _ _ E) as E0. fold fl d0 in E0.
  set (g := fun x : msm_hw_fence => x <| hf_error ::= fun e => Z.lor e error |>).
  rewrite (bind_run _ _ _ _ _ (update_fence_run _ _ _ g E0)).
  assert (fence_at (put_fence h (g fl) d0) h = Some (g fl)) as E1 by (by eapply fence_at_put_eq).
  rewrite (bind_run _ _ _ _ _ (get_fence_run _ _ _ E1)).
  destruct (child_done_neutral error) as [Hn Hh].
  pose proof (unlock_after _ _ _ _ E Hf Hn (Hh f)) as Hun. fold d0 fl in Hun.
  change (hf_pending_child_cnt (g fl)) with (hf_pending_child_cnt f).
  unfold completed, child_done in *. simpl in *.
  destruct (hf_pending_child_cnt f =? 0) eqn:Ez; cbv beta iota delta [negb].
  - erewrite bind_run by done. rewrite (bind_run _ _ _ _ _ (get_fence_run _ _ _ E1)). cbv zeta.
    assert (g fl = fl <| hf_error ::= fun e => Z.lor e error |> <| hf_pending_child_cnt := 0 |>) as Eg.
    { apply Z.eqb_eq in Ez. unfold g, fl, with_lock. destruct f; simpl in *. by subst. }
    change (hf_pending_child_cnt (g fl)) with (hf_pending_child_cnt f).
    rewrite Eg, (bind_run _ _ _ _ _ Hun). by rewrite Ez.
  - rewrite (bind_run _ _ _ _ _ (update_fence_run _ _ _ _ E1)), put_put.
    erewrite bind_run by (eapply get_fence_run, fence_at_put_eq; done). cbv zeta.
    rewrite (bind_run _ _ _ _ _ Hun). done.
Qed.

(** The join fence after a child signaled. *)
Definition parent_after (error : Z) (f : msm_hw_fence) : msm_hw_fence :=
  let f' := child_done error f in if completed f' then drop_fctl f' else f'.

Lemma parent_after_ok e f : entry_ok f -> entry_ok (parent_after e f).
Proof. intros. unfold parent_after. case_match; auto with fence. Qed.

(** Whom the completion of a join fence tells. *)
Definition parent_notices (d : driver_data) (error : Z) (f : msm_hw_fence) (p : Z) : list event :=
  let f' := child_done error f in
  if completed f' then wait_notices d f' (hf_wait_client_mask f') p (hf_error f') else [].

(** Rewriting an entry after the clients were told. *)
Lemma told_put d d1 ev h f1 f2 :
  told (put_fence h f1 d) d1 ev -> told (put_fence h f2 d) (put_fence h f2 d1) ev.
Proof.
  intros [(cl & t & E) Hc]. split; [|exact Hc].
  exists cl, t. rewrite E. unfold put_fence. simpl. by rewrite zset_zset.
Qed.

(** A parent handle of a child: in the table, the join fence is updated and, when
    it completes, its clients are told and the controller's reference goes. *)
Lemma signal_parent_run d h hash f error i p fp :
  drv_ok d -> fence_at d h = Some f -> zget (hf_parent_list f) i = Some p ->
  fence_at d p = Some fp ->
  exists d', signal_parent h hash error i d = Done tt d' /\ drv_ok d' /\
    told (put_fence p (parent_after error fp) d) d' (parent_notices d error fp p).
Proof.
  intros Hd E Ep Efp. unfold signal_parent. rewrite (bind_run _ _ _ _ _ (get_fence_run _ _ _ E)).
  rewrite (bind_run _ _ d p d) by (unfold deref; by rewrite Ep).
  rewrite (bind_run _ _ d d d) by done.
  pose proof (do_table _ Hd) as Hok. pose proof (entry_ok_at _ _ _ Hd Efp) as Hfp.
  rewrite (get_hw_fence_in _ _ Hok (fence_at_in _ _ _ Hok Efp)).
  rewrite (bind_run _ _ _ _ _ (update_join_run _ _ _ error Efp (lock_free_at _ _ _ Hok Efp))).
  unfold parent_after, parent_notices. set (f' := child_done error fp). set (d0 := put_fence p f' d).
  assert (drv_ok d0) as Hd0 by (unfold d0, f'; auto with fence).
  assert (fence_at d0 p = Some f') as E0 by (by eapply fence_at_put_eq).
  destruct (completed f'); [|exists d0; by split; [|split; [|apply told_refl]]].
  rewrite (bind_run _ _ _ _ _ (get_fence_run _ _ _ E0)).
  destruct (signal_all_wait_clients_run d0 p f' (hf_wait_client_mask f') p (hf_error f') Hd0 E0)
    as (d1 & E1 & Hd1 & Ht1).
  rewrite (bind_run _ _ _ _ _ E1).
  destruct (drop_fctl_run d1 p f' unit (fun _ => ret tt) Hd1) as [r Er];
    [by eapply told_ok_fence|].
  rewrite Er. eexists. split; [done|]. split.
  - apply drv_ok_put; [done|]. apply drop_fctl_ok. by apply child_done_ok.
  - by eapply told_put.
Qed.

(** Deliveries do not look at the table. *)
Definition over_table (tbl : list msm_hw_fence) (d : driver_data) : driver_data :=
  d <| dd_hw_fences_tbl := tbl |>.

Lemma deliver_over_table tbl d x : deliver x (over_table tbl d) = over_table tbl (deliver x d).
Proof. unfold deliver. simpl. by destruct (zget (dd_clients d) (dl_client x)) as [[c|]|]. Qed.

Lemma deliver_all_over_table tbl l : forall d,
  deliver_all l (over_table tbl d) = over_table tbl (deliver_all l d).
Proof. induction l as [|x l IH]; intros d; [done|]. simpl. by rewrite deliver_over_table, IH. Qed.

Lemma put_over_table h f d : put_fence h f d = over_table (zset h f (dd_hw_fences_tbl d)) d.
Proof. done. Qed.

Lemma over_table_id d : over_table (dd_hw_fences_tbl d) d = d.
Proof. by destruct d. Qed.

Lemma over_over tbl tbl' d : over_table tbl (over_table tbl' d) = over_table tbl d.
Proof. done. Qed.

Lemma deliver_all_put h f l d : deliver_all l (put_fence h f d) = put_fence h f (deliver_all l d).
Proof.
  rewrite !put_over_table, deliver_all_over_table.
  by destruct (deliver_all_told l d) as [ev [(cl & t & ->) _]].
Qed.

Lemma deliveries_to_over tbl d f mask hash error ids : forall cd,
  deliveries_to (over_table tbl d) f mask hash error cd ids = deliveries_to d f mask hash error cd ids.
Proof.
  induction ids as [|id ids IH]; intros cd; simpl; [done|].
  change (dd_clients (over_table tbl d)) with (dd_clients d).
  destruct (if flag mask (BIT id) then _ else _) as [[c|]|]; by rewrite IH.
Qed.

Lemma wait_deliveries_over tbl d f mask hash error :
  wait_deliveries (over_table tbl d) f mask hash error = wait_deliveries d f mask hash error.
Proof. apply deliveries_to_over. Qed.

(** What is owed to the clients of a join fence when a child signals with [error]:
    the news of its completion if this was its last child, with the union of the errors. *)
Definition parent_owed (d : driver_data) (error p : Z) : list delivery :=
  match fence_at d p with
  | Some fp =>
      let f' := child_done error fp in
      if completed f' then wait_deliveries d f' (hf_wait_client_mask f') p (hf_error f') else []
  | None => []
  end.

Lemma signal_parent_exact d h hash f error i p fp :
  drv_ok d -> fence_at d h = Some f -> zget (hf_parent_list f) i = Some p ->
  fence_at d p = Some fp ->
  signal_parent h hash error i d
  = Done tt (put_fence p (parent_after error fp) (deliver_all (parent_owed d error p) d)).
Proof.
  intros Hd E Ep Efp. unfold signal_parent. rewrite (bind_run _ _ _ _ _ (get_fence_run _ _ _ E)).
  rewrite (bind_run _ _ d p d) by (unfold deref; by rewrite Ep).
  rewrite (bind_run _ _ d d d) by done.
  pose proof (do_table _ Hd) as Hok. pose proof (entry_ok_at _ _ _ Hd Efp) as Hfp.
  rewrite (get_hw_fence_in _ _ Hok (fence_at_in _ _ _ Hok Efp)).
  rewrite (bind_run _ _ _ _ _ (update_join_run _ _ _ error Efp (lock_free_at _ _ _ Hok Efp))).
  unfold parent_after, parent_owed. rewrite Efp. cbv zeta. set (f' := child_done error fp).
  set (d0 := put_fence p f' d).
  assert (drv_ok d0) as Hd0 by (unfold d0, f'; auto with fence).
  assert (fence_at d0 p = Some f') as E0 by (by eapply fence_at_put_eq).
  destruct (completed f'); [|done].
  rewrite (bind_run _ _ _ _ _ (get_fence_run _ _ _ E0)).
  destruct (signal_all_wait_clients_exact d0 p f' (hf_wait_client_mask f') p (hf_error f') Hd0 E0) as [E1 Hd1].
  rewrite (bind_run _ _ _ _ _ E1).
  unfold d0 at 1 in Hd1. unfold d0 at 1. rewrite put_over_table in *. rewrite wait_deliveries_over in *.
  set (l := wait_deliveries d f' _ _ _) in *. fold d0 in Hd1 |- *. unfold d0 in Hd1 |- *.
  rewrite deliver_all_put in *. set (d1 := deliver_all l d) in *.
  destruct (drop_fctl_run (put_fence p f' d1) p f' unit (fun _ => ret tt) Hd1) as [r Er].
  { destruct (deliver_all_told l d) as [ev Ht]. eapply (fence_at_put_eq _ _ _ fp).
    unfold d1. by rewrite (told_fence _ _ _ _ Ht). }
  by rewrite Er, put_put.
Qed.

(** A parent handle out of the table is skipped. *)
Lemma signal_parent_bad d h hash f error i p :
  drv_ok d -> fence_at d h = Some f -> zget (hf_parent_list f) i = Some p ->
  dd_hw_fences_tbl_cnt d <= p ->
  signal_parent h hash error i d = Done tt d.
Proof.
  intros Hd E Ep Hp. unfold signal_parent. rewrite (bind_run _ _ _ _ _ (get_fence_run _ _ _ E)).
  rewrite (bind_run _ _ d p d) by (unfold deref; by rewrite Ep).
  rewrite (bind_run _ _ d d d) by done. unfold _get_hw_fence.
  rewrite (tw_entries d) by auto with fence.
  by destruct (Z.leb_spec (dd_hw_fences_tbl_cnt d) p); [|lia].
Qed.

(** C36: a join fence counts its children.  Signaling [n] children of a join fence
    with [n] pending reports completion at the last one and at no earlier one,
    and the join fence's error is the union of the children's. *)
Theorem join_completes_at_last_child d h f errors e :
  drv_ok d -> fence_at d h = Some f -> hf_pending_child_cnt f = zlen errors + 1 ->
  in_u32 (zlen errors + 1) ->
  exists f', foldr (fun x m => b <-- _update_and_get_join_fence_signal_status h x; if b : bool then ret true else m)
              (_update_and_get_join_fence_signal_status h e) errors d
            = Done true (put_fence h f' d) /\
    hf_pending_child_cnt f' = 0 /\ hf_error f' = foldl Z.lor (hf_error f) (errors ++ [e]).
Proof.
  revert d f. induction errors as [|x errors IH]; intros d f Hd E Hp Hr.
  - exists (child_done e f). pose proof (lock_free_at _ _ _ (do_table _ Hd) E) as Hl.
    change (zlen []) with 0 in *. simpl foldr. rewrite (update_join_run _ _ _ e E Hl).
    unfold completed, child_done. simpl. rewrite Hp. done.
  - assert (zlen (x :: errors) = zlen errors + 1) as Ez by (unfold zlen; simpl; lia).
    rewrite Ez in *. pose proof (zlen_nonneg errors). unfold in_u32 in Hr.
    pose proof (lock_free_at _ _ _ (do_table _ Hd) E) as Hl.
    set (f1 := child_done x f). set (d1 := put_fence h f1 d).
    assert (hf_pending_child_cnt f1 = zlen errors + 1) as Hp1.
    { unfold f1, child_done. simpl. rewrite Hp.
      destruct (Z.eqb_spec (zlen errors + 1 + 1) 0); [lia|]. rewrite u32_id by (unfold in_u32; lia). lia. }
    assert (drv_ok d1) as Hd1 by (apply drv_ok_put; [done|]; exact (entry_ok_at _ _ _ Hd E)).
    assert (fence_at d1 h = Some f1) as E1 by (by eapply fence_at_put_eq).
    destruct (IH d1 f1 Hd1 E1 Hp1 ltac:(unfold in_u32; lia)) as (f' & Hrun & H0 & He).
    exists f'. unfold d1 in Hrun at 2. rewrite put_put in Hrun. split; [|done].
    simpl foldr. rewrite (bind_run _ _ _ _ _ (update_join_run _ _ _ x E Hl)). fold f1 d1.
    replace (completed f1) with false; [done|]. unfold completed. rewrite Hp1.
    destruct (Z.eqb_spec (zlen errors + 1) 0); [lia|done].
Qed.

(** ** All parents *)

(** A client is told: by an interrupt, its error callback or, a validation client, a wake-up. *)
Definition client_event (ev : event) : Prop :=
  match ev with EvIpc _ _ _ | EvErrorCb _ _ _ _ _ _ _ | EvWakeVal _ => True | _ => False end.

Lemma wait_notices_kinds d f mask hash error : Forall client_event (wait_notices d f mask hash error).
Proof.
  unfold wait_notices. apply Forall_concat, Forall_fmap, Forall_forall. intros k _. simpl.
  unfold wait_notice, notice. repeat case_match; repeat constructor.
Qed.

Lemma parent_notices_kinds d error f p : Forall client_event (parent_notices d error f p).
Proof. unfold parent_notices. case_match; [apply wait_notices_kinds|constructor]. Qed.

#[export] Hint Resolve wait_notices_kinds parent_notices_kinds : fence.

(** [d'] is [d] after entries of the table changed and clients observed [ev]. *)
Record evolves (d d' : driver_data) (ev : list event) : Prop := {
  ev_state : exists tbl cl t, d' = d <| dd_hw_fences_tbl := tbl |> <| dd_clients := cl |>
               <| dd_tick := t |> <| dd_events ::= fun l => l ++ ev |>;
  ev_clients : forall id,
    match zget (dd_clients d) id with
    | Some (Some c) => exists c', zget (dd_clients d') id = Some (Some c') /\ same_client c c'
    | o => zget (dd_clients d') id = o
    end;
  ev_kinds : Forall client_event ev }.

Lemma told_evolves d d' ev : told d d' ev -> Forall client_event ev -> evolves d d' ev.
Proof.
  intros [(cl & t & ->) H] Hk. split; [|done..]. exists (dd_hw_fences_tbl d), cl, t. by destruct d.
Qed.

Lemma evolves_put d h f : evolves d (put_fence h f d) [].
Proof.
  split; [|apply (td_clients _ _ _ (told_refl d))|constructor].
  exists (zset h f (dd_hw_fences_tbl d)), (dd_clients d), (dd_tick d). unfold put_fence.
  destruct d. simpl. by rewrite app_nil_r.
Qed.

Lemma evolves_refl d : evolves d d [].
Proof. apply told_evolves; [apply told_refl|constructor]. Qed.

Lemma evolves_trans d d1 d2 e1 e2 :
  evolves d d1 e1 -> evolves d1 d2 e2 -> evolves d d2 (e1 ++ e2).
Proof.
  intros [(tb1 & cl1 & t1 & E1) H1 K1] [(tb2 & cl2 & t2 & E2) H2 K2]. split; [| |by apply Forall_app].
  - exists tb2, cl2, t2. rewrite E2, E1. simpl. by rewrite app_assoc.
  - intros id. specialize (H1 id). specialize (H2 id).
    destruct (zget (dd_clients d) id) as [[c|]|].
    + destruct H1 as (c1 & Ec1 & Hs1). rewrite Ec1 in H2. destruct H2 as (c2 & Ec2 & Hs2).
      exists c2. split; [done|]. by eapply same_client_trans.
    + by rewrite H1 in H2.
    + by rewrite H1 in H2.
Qed.

Lemma evolves_cnt d d' ev : evolves d d' ev -> dd_hw_fences_tbl_cnt d' = dd_hw_fences_tbl_cnt d.
Proof. by intros [(? & ? & ? & ->) _ _]. Qed.

(** The parents a signaling fence works through. *)
Definition parents_upto (cnt : Z) (f : msm_hw_fence) : list Z :=
  take (Z.to_nat (Z.min cnt MSM_HW_FENCE_MAX_JOIN_PARENTS)) (hf_parent_list f).

Definition parents_of (f : msm_hw_fence) : list Z := parents_upto (hf_parents_cnt f) f.

(** One turn of the loop, whatever the handle. *)
Lemma signal_parent_any d h hash f error i p :
  drv_ok d -> fence_at d h = Some f -> zget (hf_parent_list f) i = Some p -> 0 <= p ->
  exists d' ev, signal_parent h hash error i d = Done tt d' /\ drv_ok d' /\ evolves d d' ev /\
    fence_at d' p = parent_after error <$> fence_at d p /\
    forall x, x <> p -> fence_at d' x = fence_at d x.
Proof.
  intros Hd E Ep Hp. destruct (decide (p < dd_hw_fences_tbl_cnt d)) as [Hlt|Hge].
  - destruct (fence_at_is_Some d p) as [fp Efp]; [auto with fence|lia|].
    destruct (signal_parent_run d h hash f error i p fp Hd E Ep Efp) as (d' & Hr & Hd' & Ht).
    exists d', (parent_notices d error fp p). split; [done|]. split; [done|]. split.
    { change (parent_notices d error fp p) with ([] ++ parent_notices d error fp p).
      eapply evolves_trans; [apply evolves_put|]. apply told_evolves; [done|auto with fence]. }
    split.
    + rewrite (told_fence _ _ _ _ Ht), Efp. by eapply fence_at_put_eq.
    + intros x Hx. rewrite (told_fence _ _ _ _ Ht). by apply fence_at_put_ne.
  - exists d, []. rewrite (signal_parent_bad d h hash f error i p) by (done || lia).
    split; [done|]. split; [done|]. split; [apply evolves_refl|]. split; [|done].
    assert (fence_at d p = None) as ->; [|done]. destruct (fence_at d p) eqn:Ex; [|done].
    apply fence_at_in in Ex; [lia|auto with fence].
Qed.

Lemma zget_take {A} (l : list A) n i : i < Z.of_nat n -> zget (take n l) i = zget l i.
Proof. intros. unfold zget. case_match; [|done]. apply lookup_take_lt. lia. Qed.

(** The deliveries of the parents [ps], in order. *)
Definition parents_owed (d : driver_data) (error : Z) (ps : list Z) : list delivery :=
  concat (parent_owed d error <$> ps).

(** [d'] is [d] after the deliveries [l], but for the entries of the table. *)
Definition delivered (d d' : driver_data) (l : list delivery) : Prop :=
  d' = over_table (dd_hw_fences_tbl d') (deliver_all l d).

Lemma delivered_refl d : delivered d d [].
Proof. unfold delivered. simpl. by rewrite over_table_id. Qed.

Lemma delivered_put d d' l h f : delivered d d' l -> delivered d (put_fence h f d') l.
Proof. unfold delivered. intros ->. done. Qed.

Lemma delivered_more d d' l l' : delivered d d' l -> delivered d (deliver_all l' d') (l ++ l').
Proof.
  unfold delivered. intros H. rewrite deliver_all_app, H, deliver_all_over_table. done.
Qed.

Lemma delivered_waits d d' l f mask hash error : delivered d d' l ->
  wait_deliveries d' f mask hash error = wait_deliveries d f mask hash error.
Proof.
  intros ->. rewrite wait_deliveries_over. destruct (deliver_all_told l d) as [ev Ht].
  by eapply wait_deliveries_told.
Qed.

Lemma parent_owed_delivered d d' l error p :
  delivered d d' l -> fence_at d' p = fence_at d p -> parent_owed d' error p = parent_owed d error p.
Proof.
  intros Hl E. unfold parent_owed. rewrite E. destruct (fence_at d p); [|done]. cbv zeta.
  destruct (completed _); [|done]. by eapply delivered_waits.
Qed.

(** One turn, wherever the parent is. *)
Lemma signal_parent_delivers d0 d1 d l h hash f error i p :
  drv_ok d0 -> fence_at d0 h = Some f -> zget (hf_parent_list f) i = Some p -> 0 <= p ->
  delivered d d0 l -> fence_at d0 p = fence_at d p ->
  signal_parent h hash error i d0 = Done tt d1 -> delivered d d1 (l ++ parent_owed d error p).
Proof.
  intros Hd E Ep Hp Hl Esame Hr. destruct (fence_at d0 p) as [fp|] eqn:Efp.
  - rewrite (signal_parent_exact d0 h hash f error i p fp) in Hr by done.
    injection Hr as <-. apply delivered_put.
    rewrite (parent_owed_delivered d d0 l) by congruence. by apply delivered_more.
  - rewrite (signal_parent_bad d0 h hash f error i p) in Hr; [|done..|].
    2: { destruct (decide (p < dd_hw_fences_tbl_cnt d0)); [|lia].
         destruct (fence_at_is_Some d0 p) as [x Ex]; [auto with fence|lia|congruence]. }
    injection Hr as <-. unfold parent_owed. rewrite <- Esame, app_nil_r. done.
Qed.

Lemma signal_parents_run d h hash f error cnt :
  drv_ok d -> fence_at d h = Some f -> 0 <= cnt ->
  NoDup (parents_upto cnt f) -> h ∉ parents_upto cnt f -> Forall (Z.le 0) (parents_upto cnt f) ->
  exists d' ev, _signal_parent_fences h (cnt) hash error d = Done tt d' /\
    drv_ok d' /\ evolves d d' ev /\ delivered d d' (parents_owed d error (parents_upto cnt f)) /\
    fence_at d' h = Some f /\
    forall x, fence_at d' x = if bool_decide (x ∈ parents_upto cnt f)
                              then parent_after error <$> fence_at d x else fence_at d x.
Proof.
  intros Hd E Hcnt Hnd Hh Hpos. destruct (entry_ok_at _ _ _ Hd E) as (_ & _ & Hpl & _).
  set (n := Z.to_nat (Z.min (cnt) MSM_HW_FENCE_MAX_JOIN_PARENTS)).
  assert (length (parents_upto cnt f) = n) as Hlen.
  { unfold parents_upto, zlen in *. rewrite length_take. unfold n, MSM_HW_FENCE_MAX_JOIN_PARENTS. lia. }
  unfold _signal_parent_fences.
  replace (Z.to_nat (if MSM_HW_FENCE_MAX_JOIN_PARENTS <? cnt then _ else _)) with n
    by (unfold n; destruct (Z.ltb_spec MSM_HW_FENCE_MAX_JOIN_PARENTS (cnt)); lia).
  set (done_up := fun (i : Z) d' => forall x, fence_at d' x =
    if bool_decide (x ∈ take (Z.to_nat i) (parents_upto cnt f))
    then parent_after error <$> fence_at d x else fence_at d x).
  assert (wp (for_n n 0 (fun i _ => signal_parent h hash error i) tt)
    (fun _ d' => drv_ok d' /\ (exists ev, evolves d d' ev) /\
       delivered d d' (parents_owed d error (take (Z.to_nat (Z.of_nat n)) (parents_upto cnt f))) /\
       done_up (Z.of_nat n) d') d) as Hw.
  { apply (wp_for_n (fun i _ d' => drv_ok d' /\ (exists ev, evolves d d' ev) /\
       delivered d d' (parents_owed d error (take (Z.to_nat i) (parents_upto cnt f))) /\ done_up i d')).
    - split; [done|]. split; [exists []; apply evolves_refl|]. split; [apply delivered_refl|]. intros x.
      change (take (Z.to_nat 0) (parents_upto cnt f)) with (@nil Z).
      by rewrite bool_decide_false by apply not_elem_of_nil.
    - intros i [] d0 Hi (Hd0 & [ev Hev] & Hdl & Hup).
      destruct (lookup_lt_is_Some_2 (parents_upto cnt f) (Z.to_nat i)) as [p Ep]; [lia|].
      assert (p ∈ parents_upto cnt f) as Hin by (by eapply list_elem_of_lookup_2).
      assert (p ∉ take (Z.to_nat i) (parents_upto cnt f)) as Hnew.
      { intros (j & Hj)%list_elem_of_lookup_1. pose proof (lookup_lt_Some _ _ _ Hj) as Hjl.
        rewrite length_take in Hjl. rewrite lookup_take_lt in Hj by lia.
        pose proof (NoDup_lookup _ _ _ _ Hnd Hj Ep). lia. }
      assert (fence_at d0 h = Some f) as E0.
      { rewrite (Hup h), bool_decide_false; [done|]. intros Hx. apply Hh. by eapply elem_of_take in Hx as (j & Hj & _); eapply list_elem_of_lookup_2. }
      assert (zget (hf_parent_list f) i = Some p) as Ez.
      { rewrite <- (zget_take _ n) by lia. unfold zget. destruct (Z.leb_spec 0 i); [|lia]. exact Ep. }
      destruct (signal_parent_any d0 h hash f error i p Hd0 E0 Ez) as (d1 & ev1 & Hr & Hd1 & Hev1 & Hp & Hx).
      { rewrite Forall_forall in Hpos. by apply Hpos. }
      unfold wp. rewrite Hr. split; [done|]. split; [by eexists; eapply evolves_trans|].
      unfold done_up. replace (Z.to_nat (i + 1)) with (S (Z.to_nat i)) by lia.
      rewrite (take_S_r _ _ p) by done. split.
      { unfold parents_owed. rewrite fmap_app, concat_app. simpl. rewrite app_nil_r.
        apply (signal_parent_delivers d0 d1 d _ h hash f error i p); try done.
        - rewrite Forall_forall in Hpos. by apply Hpos.
        - by rewrite (Hup p), bool_decide_false. }
      intros x. destruct (decide (x = p)) as [->|Hne].
      + rewrite Hp, (Hup p), bool_decide_false by done.
        rewrite bool_decide_true; [done|]. apply elem_of_app. right. by apply list_elem_of_singleton.
      + rewrite (Hx x Hne), (Hup x).
        erewrite (bool_decide_ext (x ∈ take _ _)); [done|].
        rewrite elem_of_app, list_elem_of_singleton. tauto. }
  apply wp_inv in Hw as ([] & d' & Hr & Hd' & [ev Hev] & Hdl & Hup). exists d', ev.
  split; [done|]. split; [done|]. split; [done|]. unfold done_up in Hup.
  rewrite Nat2Z.id, <- Hlen, firstn_all in Hup, Hdl. split; [done|]. split; [|done].
  by rewrite (Hup h), bool_decide_false.
Qed.

(** Whatever the parent lists hold, the loop returns in a good state. *)
Lemma signal_parents_ok d h hash error cnt :
  drv_ok d -> 0 <= h < dd_hw_fences_tbl_cnt d ->
  exists d' ev, _signal_parent_fences h cnt hash error d = Done tt d' /\ drv_ok d' /\ evolves d d' ev.
Proof.
  intros Hd Hh. unfold _signal_parent_fences.
  set (n := if MSM_HW_FENCE_MAX_JOIN_PARENTS <? cnt then MSM_HW_FENCE_MAX_JOIN_PARENTS else cnt).
  assert (n <= 3) as Hn by (unfold n, MSM_HW_FENCE_MAX_JOIN_PARENTS; destruct (Z.ltb_spec 3 cnt); lia).
  assert (wp (for_n (Z.to_nat n) 0 (fun i _ => signal_parent h hash error i) tt)
    (fun _ d' => drv_ok d' /\ exists ev, evolves d d' ev) d) as Hw.
  { apply (wp_for_n (fun i _ d' => drv_ok d' /\ exists ev, evolves d d' ev)).
    - split; [done|]. exists []. apply evolves_refl.
    - intros i [] d0 Hi (Hd0 & [ev Hev]).
      destruct (fence_at_is_Some d0 h) as [f E];
        [auto with fence|by rewrite (evolves_cnt _ _ _ Hev)|].
      destruct (do_entries _ Hd0 _ _ E) as (_ & Hpl & Hpos).
      destruct (zget_is_Some (hf_parent_list f) i) as [p Ep]; [lia|].
      assert (0 <= p) as Hp.
      { rewrite Forall_forall in Hpos. apply Hpos, list_elem_of_In. by eapply zget_elem. }
      destruct (signal_parent_any d0 h hash f error i p) as (d1 & ev1 & Hr & Hd1 & Hev1 & _); try done.
      unfold wp. rewrite Hr. split; [done|]. eexists. by eapply evolves_trans. }
  apply wp_inv in Hw as ([] & d' & Hr & Hd' & [ev Hev]). eauto.
Qed.

(** The entry is marked under its lock. *)
Lemma mark_signaled_run {B} d h f error (k : DRV B) :
  drv_ok d -> fence_at d h = Some f ->
  (update_fence h (signaled error);;; global_atomic_store (FenceLock h) false;;; k) (locked_at h d)
  = k (put_fence h (signaled error f) d).
Proof.
  intros Hd E. pose proof (lock_free_at _ _ _ (do_table _ Hd) E) as Hl.
  rewrite (bind_run _ _ _ _ _ (update_fence_run _ _ _ _ (locked_at_fence _ _ _ E))).
  assert (lock_neutral (signaled error) /\ forall f, lock_held (signaled error (with_lock 1 f)))
    as [Hn Hh] by (by apply lock_neutral_intro).
  by rewrite (bind_run _ _ _ _ _ (unlock_after _ _ _ _ E Hl Hn (Hh f))).
Qed.

Definition is_signaled_hw (f : msm_hw_fence) : bool := flag (hf_flags f) MSM_HW_FENCE_FLAG_SIGNAL.

Lemma signal_twice_run d h f hash error rel :
  drv_ok d -> fence_at d h = Some f -> is_signaled_hw f = true ->
  _signal_fence_if_unsignaled h hash error rel d = Done tt d.
Proof.
  intros Hd E Hs. pose proof (lock_free_at _ _ _ (do_table _ Hd) E) as Hl.
  unfold _signal_fence_if_unsignaled. rewrite (bind_run _ _ _ _ _ (locked_at_run _ _ _ E Hl)).
  rewrite (bind_run _ _ _ _ _ (get_fence_run _ _ _ (locked_at_fence _ _ _ E))).
  change (hf_flags (with_lock 1 f)) with (hf_flags f). fold (is_signaled_hw f). rewrite Hs.
  exact (locked_at_unlock _ _ _ E Hl).
Qed.

Lemma signal_once_run d h f hash error rel :
  drv_ok d -> fence_at d h = Some f -> is_signaled_hw f = false ->
  _signal_fence_if_unsignaled h hash error rel d
  = (_signal_parent_fences h (hf_parents_cnt f) hash error;;;
     _signal_all_wait_clients h (hf_wait_client_mask f) hash error;;;
     when rel do (hw_fence_destroy_refcount hash HW_FENCE_FCTL_REFCOUNT;;; ret tt))
    (put_fence h (signaled error f) d).
Proof.
  intros Hd E Hs. pose proof (lock_free_at _ _ _ (do_table _ Hd) E) as Hl.
  unfold _signal_fence_if_unsignaled. rewrite (bind_run _ _ _ _ _ (locked_at_run _ _ _ E Hl)).
  rewrite (bind_run _ _ _ _ _ (get_fence_run _ _ _ (locked_at_fence _ _ _ E))).
  change (hf_flags (with_lock 1 f)) with (hf_flags f). fold (is_signaled_hw f). rewrite Hs.
  by apply mark_signaled_run.
Qed.

(** Signaling always returns, in a good state. *)
Lemma signal_fence_ok d h error rel :
  drv_ok d -> 0 <= h < dd_hw_fences_tbl_cnt d ->
  exists d' ev, _signal_fence_if_unsignaled h h error rel d = Done tt d' /\ drv_ok d' /\
    evolves d d' ev.
Proof.
  intros Hd Hh. destruct (fence_at_is_Some d h) as [f E]; [auto with fence|done|].
  destruct (is_signaled_hw f) eqn:Hs.
  { exists d, []. rewrite (signal_twice_run _ _ _ _ _ _ Hd E Hs).
    split; [done|]. split; [done|apply evolves_refl]. }
  rewrite (signal_once_run _ _ _ _ _ _ Hd E Hs).
  set (d0 := put_fence h (signaled error f) d).
  assert (drv_ok d0) as Hd0 by (unfold d0; eauto with fence).
  destruct (signal_parents_ok d0 h h error (hf_parents_cnt f) Hd0 Hh) as (d1 & e1 & Hr1 & Hd1 & Hev1).
  rewrite (bind_run _ _ _ _ _ Hr1).
  destruct (fence_at_is_Some d1 h) as [f1 E1]; [auto with fence|by rewrite (evolves_cnt _ _ _ Hev1)|].
  destruct (signal_all_wait_clients_run d1 h f1 (hf_wait_client_mask f) h error Hd1 E1)
    as (d2 & Hr2 & Hd2 & Ht2).
  rewrite (bind_run _ _ _ _ _ Hr2).
  assert (evolves d d2 (([] ++ e1) ++ wait_notices d1 f1 (hf_wait_client_mask f) h error)) as Hev2.
  { eapply evolves_trans; [|apply told_evolves; [done|auto with fence]]. eapply evolves_trans; [apply evolves_put|done]. }
  destruct rel; [|by eauto].
  destruct (drop_fctl_run d2 h f1 unit (fun _ => ret tt) Hd2) as [r Hr]; [by eapply told_ok_fence|].
  rewrite Hr. do 2 eexists. split; [done|]. split.
  - apply drv_ok_put; [done|]. apply drop_fctl_ok. exact (entry_ok_at _ _ _ Hd1 E1).
  - eapply evolves_trans; [done|apply evolves_put].
Qed.

(** What signaling owes: the completions of the parents in the order of the parent list,
    then the fence's own waiting clients. *)
Definition signal_owed (d : driver_data) (f : msm_hw_fence) (h error : Z) : list delivery :=
  parents_owed d error (parents_of f) ++
  wait_deliveries d (signaled error f) (hf_wait_client_mask f) h error.

Lemma parent_owed_put d error p h f :
  p <> h -> parent_owed (put_fence h f d) error p = parent_owed d error p.
Proof.
  intros Hp. unfold parent_owed. rewrite fence_at_put_ne by congruence. rewrite put_over_table.
  destruct (fence_at d p); [|done]. by rewrite wait_deliveries_over.
Qed.

Lemma parents_owed_put d error ps h f :
  h ∉ ps -> parents_owed (put_fence h f d) error ps = parents_owed d error ps.
Proof.
  intros Hh. unfold parents_owed. f_equal. apply list_fmap_ext. intros i p Ep.
  apply parent_owed_put. intros ->. apply Hh. by eapply list_elem_of_lookup_2.
Qed.

Lemma delivered_from_put d d' l h f : delivered (put_fence h f d) d' l -> delivered d d' l.
Proof. unfold delivered. intros H. rewrite H at 1. by rewrite put_over_table, deliver_all_over_table. Qed.

(** The reference that goes at the end. *)
Lemma signal_release_run d h f (rel : bool) :
  drv_ok d -> fence_at d h = Some f ->
  exists d', (when rel do (hw_fence_destroy_refcount h HW_FENCE_FCTL_REFCOUNT;;; ret tt)) d = Done tt d' /\
    drv_ok d' /\ (exists g, d' = put_fence h g d /\ g = if rel then drop_fctl f else f).
Proof.
  intros Hd E. destruct rel.
  - destruct (drop_fctl_run d h f unit (fun _ => ret tt) Hd E) as [r Hr].
    rewrite Hr. eexists. split; [done|]. split; [|by eexists].
    apply drv_ok_put; [done|]. apply drop_fctl_ok. exact (entry_ok_at _ _ _ Hd E).
  - exists d. split; [done|]. split; [done|]. exists f. by rewrite put_fence_id.
Qed.

Lemma signal_fence_run d h f error rel :
  drv_ok d -> fence_at d h = Some f -> is_signaled_hw f = false -> 0 <= hf_parents_cnt f ->
  NoDup (parents_of f) -> h ∉ parents_of f ->
  exists d', _signal_fence_if_unsignaled h h error rel d = Done tt d' /\ drv_ok d' /\
    delivered d d' (signal_owed d f h error) /\
    fence_at d' h = Some (if rel then drop_fctl (signaled error f) else signaled error f) /\
    (forall p, p ∈ parents_of f -> fence_at d' p = parent_after error <$> fence_at d p) /\
    (forall x, x <> h -> x ∉ parents_of f -> fence_at d' x = fence_at d x).
Proof.
  intros Hd E Hs Hcnt Hnd Hh. rewrite (signal_once_run _ _ _ _ _ _ Hd E Hs).
  set (fs := signaled error f). set (d0 := put_fence h fs d).
  assert (drv_ok d0) as Hd0 by (unfold d0, fs; eauto with fence).
  assert (fence_at d0 h = Some fs) as E0 by (by eapply fence_at_put_eq).
  destruct (signal_parents_run d0 h h fs error (hf_parents_cnt f) Hd0 E0 Hcnt)
    as (d1 & e1 & Hr1 & Hd1 & _ & Hdl1 & E1 & Hx); [done|done| |].
  { destruct (do_entries _ Hd _ _ E) as (_ & _ & Hpos). by apply Forall_take. }
  rewrite (bind_run _ _ _ _ _ Hr1).
  apply delivered_from_put in Hdl1. change (parents_upto (hf_parents_cnt f) fs) with (parents_of f) in *.
  unfold d0 in Hdl1. rewrite parents_owed_put in Hdl1 by done.
  destruct (signal_all_wait_clients_exact d1 h fs (hf_wait_client_mask f) h error Hd1 E1) as [Hr2 Hd2].
  rewrite (delivered_waits _ _ _ _ _ _ _ Hdl1) in Hr2, Hd2. rewrite (bind_run _ _ _ _ _ Hr2).
  pose proof (delivered_more _ _ _ (wait_deliveries d fs (hf_wait_client_mask f) h error) Hdl1) as Hdl2.
  set (l2 := wait_deliveries d fs (hf_wait_client_mask f) h error) in *.
  destruct (deliver_all_told l2 d1) as [ev Ht]. set (d2 := deliver_all l2 d1) in *.
  assert (forall x, fence_at d2 x = fence_at d1 x) as Hx2
    by (intros; by rewrite (told_fence _ _ _ _ Ht)).
  destruct (signal_release_run d2 h fs rel Hd2) as (d' & Hr3 & Hd3 & g & -> & ->); [by rewrite Hx2|].
  eexists. split; [exact Hr3|]. split; [done|]. split; [by apply delivered_put|].
  split; [by eapply fence_at_put_eq; rewrite Hx2|]. split.
  - intros p Hp. assert (p <> h) by congruence. rewrite fence_at_put_ne, Hx2, Hx by congruence.
    rewrite bool_decide_true by done. unfold d0. by rewrite fence_at_put_ne by congruence.
  - intros x Hne Hp. rewrite fence_at_put_ne, Hx2, Hx by congruence.
    rewrite bool_decide_false by done. unfold d0. by rewrite fence_at_put_ne by congruence.
Qed.

(** C3: signaling a fence.  From any good state, signaling an unsignaled fence whose
    parents are distinct and not the fence itself marks it with the error, updates every
    parent join fence once (completing those whose last child this was), and gives back
    the controller's reference when asked to; no other entry changes, no lock stays taken.
    The rest of the driver is as it was but for the deliveries the signal owes, each made
    once and in order: to every registered client that waits for a join fence completed
    by it, then to every registered client that waits for the fence.  A delivery is one
    message in the Rx queue, if the client wants one and it fits, and one wake-up or error
    callback. *)
Theorem signal_fence_spec d h f error rel :
  drv_ok d -> fence_at d h = Some f -> is_signaled_hw f = false -> 0 <= hf_parents_cnt f ->
  NoDup (parents_of f) -> h ∉ parents_of f ->
  exists d', _signal_fence_if_unsignaled h h error rel d = Done tt d' /\ drv_ok d' /\
    delivered d d' (signal_owed d f h error) /\
    fence_at d' h = Some (if rel then drop_fctl (signaled error f) else signaled error f) /\
    (forall p, p ∈ parents_of f -> fence_at d' p = parent_after error <$> fence_at d p) /\
    (forall x, x <> h -> x ∉ parents_of f -> fence_at d' x = fence_at d x).
Proof. apply signal_fence_run. Qed.

(** A fence is signaled once.  Once the first signal is in, any further one,
    with any error, leaves the whole driver as it is: no client is told again,
    no parent is counted again, no reference is dropped again. *)
Theorem signal_fence_once d h f error error' rel rel' d1 :
  drv_ok d -> fence_at d h = Some f -> 0 <= hf_parents_cnt f -> NoDup (parents_of f) ->
  h ∉ parents_of f -> hf_refcount (drop_fctl f) <> 0 ->
  _signal_fence_if_unsignaled h h error rel d = Done tt d1 ->
  _signal_fence_if_unsignaled h h error' rel' d1 = Done tt d1.
Proof.
  intros Hd E Hcnt Hnd Hh Href Hr. destruct (is_signaled_hw f) eqn:Hs.
  - rewrite (signal_twice_run _ _ _ _ _ _ Hd E Hs) in Hr. injection Hr as <-.
    by apply (signal_twice_run _ _ f).
  - destruct (signal_fence_run d h f error rel Hd E Hs Hcnt Hnd Hh)
      as (d' & Hr' & Hd' & _ & E' & _).
    assert (d1 = d') as -> by congruence. eapply signal_twice_run; [done|done|].
    assert (is_signaled_hw (signaled error f) = true) as Hsig.
    { unfold is_signaled_hw, signaled. simpl. by apply flag_lor_same. }
    destruct rel; [|done]. unfold drop_fctl, clear_ref, free_entry in *.
    change (hf_refcount (signaled error f)) with (hf_refcount f).
    destruct (flag (hf_refcount f) HW_FENCE_FCTL_REFCOUNT); [|done]. simpl in *.
    destruct (Z.eqb_spec (clear (hf_refcount f) HW_FENCE_FCTL_REFCOUNT) 0); [|done].
    by destruct Href.
Qed.

(** ** Witnesses *)

Definition child_h : Z := probe table8 7 5 0.

Definition join_h : Z := probe table8 9 4 0.

(** A join fence with two children pending, awaited by [rx_client], and one of its
    children. *)
Definition joined8 : driver_data :=
  Eval vm_compute in
  after (_hw_fence_lookup_and_create 3 99 7 5 0 0;;;
         _hw_fence_lookup_and_create 3 98 9 4 2 0;;;
         update_fence join_h (fun f => f <| hf_wait_client_mask := 4 |>);;;
         update_fence child_h (fun f => f
           <| hf_parent_list := [join_h; HW_FENCE_INVALID_PARENT_FENCE; HW_FENCE_INVALID_PARENT_FENCE] |>
           <| hf_parents_cnt := 1 |>)) clients8.

Lemma joined8_ok : drv_ok joined8.
Proof.
  apply one_client_ok; [vm_compute; reflexivity|intros n; vm_compute; reflexivity|
                        vm_compute; reflexivity|vm_compute; reflexivity|].
  intros fence g E. change (dd_dma_fences joined8) with (∅ : gmap Z dma_fence) in E.
  by rewrite lookup_empty in E.
Qed.

Definition entry_of (d : driver_data) (h : Z) : msm_hw_fence := default blank_fence (fence_at d h).

Lemma join_completes_witness :
  exists f', foldr (fun x m => b <-- _update_and_get_join_fence_signal_status join_h x; if b : bool then ret true else m)
               (_update_and_get_join_fence_signal_status join_h 2) [1] joined8
             = Done true (put_fence join_h f' joined8) /\
    hf_pending_child_cnt f' = 0 /\ hf_error f' = foldl Z.lor (hf_error (entry_of joined8 join_h)) [1; 2].
Proof.
  apply (join_completes_at_last_child joined8 join_h (entry_of joined8 join_h) [1] 2 joined8_ok).
  - vm_compute. reflexivity.
  - vm_compute. reflexivity.
  - split; vm_compute; congruence.
Defined.

Lemma parents_of_child : parents_of (entry_of joined8 child_h) = [join_h].
Proof. vm_compute. reflexivity. Qed.

Lemma child_not_parent : child_h ∉ [join_h].
Proof. rewrite list_elem_of_singleton. vm_compute. discriminate. Qed.

(** The same after the other child: [child_h] is the last, and client 2 is to be told that
    the join fence is done. *)
Definition last8 : driver_data :=
  put_fence join_h (child_done 0 (entry_of joined8 join_h)) joined8.

Lemma last8_ok : drv_ok last8.
Proof.
  apply drv_ok_put; [exact joined8_ok|]. apply child_done_ok.
  apply (entry_ok_at joined8 join_h); [exact joined8_ok|]. vm_compute. reflexivity.
Qed.

Lemma signal_fence_witness :
  exists d', _signal_fence_if_unsignaled child_h child_h 1 true last8 = Done tt d' /\ drv_ok d' /\
    fence_at d' join_h = Some (parent_after 1 (entry_of last8 join_h)) /\
    dl_client <$> signal_owed last8 (entry_of last8 child_h) child_h 1 = [2] /\
    dd_events d' = dd_events last8 ++ [EvIpc 1 8 4].
Proof.
  destruct (signal_fence_spec last8 child_h (entry_of last8 child_h) 1 true last8_ok)
    as (d' & Hr & Hd' & Hdl & _ & Hp & _).
  - vm_compute. reflexivity.
  - vm_compute. reflexivity.
  - vm_compute. discriminate.
  - change (entry_of last8 child_h) with (entry_of joined8 child_h).
    rewrite parents_of_child. apply NoDup_singleton.
  - change (entry_of last8 child_h) with (entry_of joined8 child_h).
    rewrite parents_of_child. exact child_not_parent.
  - exists d'. split; [exact Hr|]. split; [exact Hd'|]. split; [|split].
    + rewrite (Hp join_h); [vm_compute; reflexivity|].
      change (entry_of last8 child_h) with (entry_of joined8 child_h).
      rewrite parents_of_child. apply list_elem_of_singleton. reflexivity.
    + vm_compute. reflexivity.
    + rewrite Hdl. vm_compute. reflexivity.
Defined.

Lemma signal_once_witness :
  let d1 := after (_signal_fence_if_unsignaled child_h child_h 1 true) joined8 in
  _signal_fence_if_unsignaled child_h child_h 5 true d1 = Done tt d1.
Proof.
  refine (signal_fence_once joined8 child_h (entry_of joined8 child_h) 1 5 true true _ joined8_ok _ _ _ _ _ _).
  - vm_compute. reflexivity.
  - vm_compute. discriminate.
  - rewrite parents_of_child. apply NoDup_singleton.
  - rewrite parents_of_child. exact child_not_parent.
  - vm_compute. discriminate.
  - vm_compute. reflexivity.
Defined.
