(* ===== verification/HwFenceCallback.v ===== *)
(** * Fences tied to dma-fences, and cleaning up

    [src/hw_fence_drv_priv.c]: the dma-fence callbacks, finding the entry that
    backs a dma-fence, labelling an entry, and cleaning up after a client reset or
    a restart of the fence controller. *)
From S2P Require Import Prelude HwFenceTypes HwFenceQueue HwFenceTable HwFenceRef.
From S2P Require Import HwFenceClient HwFenceSignal.
From stdpp Require Import gmap.
From Stdlib Require Import Lia.
#[local] Open Scope Z_scope.

Definition HW_FENCE_FIND_THRESHOLD : Z := 10.

(** ** Callbacks on dma-fences *)

(** The error of a dma-fence is an [int], passed as a [u32]. *)
Definition msm_hw_fence_internal_signal_callback (fence hash : Z) : DRV unit :=
  g <-- get_dma_fence fence;
  hw_fence_signal_fence (Some fence) hash (u32 (df_error g)) false;;;
  ret tt.

Definition msm_hw_fence_signal_callback (fence hash : Z) : DRV unit :=
  g <-- get_dma_fence fence;
  r <-- hw_fence_signal_fence (Some fence) hash (u32 (df_error g)) false;
  if negb (r =? 0) then ret tt
  else hw_fence_destroy_refcount hash HW_FENCE_DMA_FENCE_REFCOUNT;;; ret tt.

Definition add_dma_ref (f : msm_hw_fence) : msm_hw_fence :=
  f <| hf_refcount ::= fun r => Z.lor r HW_FENCE_DMA_FENCE_REFCOUNT |>.

Definition hw_fence_add_callback (fence hash : Z) : DRV Z :=
  d <-- get;
  match _get_hw_fence (dd_hw_fence_table_entries d) hash with
  | None => ret (- EINVAL)
  | Some hw_fence =>
      signal_cb <-- kzalloc;
      match signal_cb with
      | None => ret (- ENOMEM)
      | Some _ =>
          global_atomic_store (FenceLock hw_fence) true;;;
          update_fence hw_fence add_dma_ref;;;
          global_atomic_store (FenceLock hw_fence) false;;;
          r <-- dma_fence_add_callback fence hash;
          if negb (r =? 0) then
            signaled <-- dma_fence_is_signaled fence;
            if signaled : bool then msm_hw_fence_signal_callback fence hash;;; ret 0
            else
              hw_fence_destroy_refcount hash HW_FENCE_DMA_FENCE_REFCOUNT;;;
              ret r
          else ret r
      end
  end.

(** ** Reading and labelling an entry *)

Definition hw_fence_get_flags_error (hash : Z) : DRV (Z * Z * Z) :=
  d <-- get;
  match _get_hw_fence (dd_hw_fence_table_entries d) hash with
  | None => ret (- EINVAL, 0, 0)
  | Some hw_fence => f <-- get_fence hw_fence; ret (0, hf_flags f, hf_error f)
  end.

Definition hw_fence_update_hsynx (hash h_synx : Z) (wait_for : bool) : DRV Z :=
  d <-- get;
  match _get_hw_fence (dd_hw_fence_table_entries d) hash with
  | None => ret (- EINVAL)
  | Some hw_fence =>
      global_atomic_store (FenceLock hw_fence) true;;;
      f <-- get_fence hw_fence;
      r <-- (if negb (hf_h_synx f =? 0) && negb (hf_h_synx f =? h_synx) then ret (- EINVAL)
             else
               update_fence hw_fence (fun f => f <| hf_h_synx := h_synx |>);;;
               when wait_for do (
                 t <-- hw_fence_get_qtime;
                 update_fence hw_fence (fun f => f <| hf_fence_wait_time := t |>));;;
               ret 0);
      global_atomic_store (FenceLock hw_fence) false;;;
      ret r
  end.

(** ** The entry that backs a dma-fence *)

(** The error and the identity are those of the dma-fence. *)
Definition _create_signaled_hw_fence (client_id fence hash0 : Z) : DRV (option Z * Z) :=
  g <-- get_dma_fence fence;
  d <-- get;
  out <-- _hw_fence_lookup_and_create_range client_id fence (df_context g) (df_seqno g) 0 hash0 0
            (dd_hw_fences_tbl_cnt d) MSM_HW_FENCE_FLAG_CREATE_SIGNALED;
  let '(o, hash) := out in
  match o with
  | Some hw_fence =>
      g <-- get_dma_fence fence;
      _signal_fence_if_unsignaled hw_fence hash (u32 (df_error g)) true;;;
      ret (o, hash)
  | None => ret (o, hash)
  end.

(** The loop over chunks of the table, from [step] on. *)
Fixpoint find_with_dma_fence_loop (fuel : nat) (client_id fence step hash : Z) (create : bool)
  : DRV (option Z * bool * Z) :=
  d <-- get;
  if step <? dd_hw_fences_tbl_cnt d then
    match fuel with
    | O => raise OutOfFuel
    | S fuel' =>
        let end_step := if dd_hw_fences_tbl_cnt d <? u32 (step + HW_FENCE_FIND_THRESHOLD)
                        then dd_hw_fences_tbl_cnt d else u32 (step + HW_FENCE_FIND_THRESHOLD) in
        g <-- get_dma_fence fence;
        out <-- _hw_fence_lookup_and_process_range fence (df_context g) (df_seqno g) hash
                  step end_step _fence_found;
        let '(o, hash) := out in
        match o with
        | Some _ => ret (o, false, hash)
        | None =>
            signaled <-- dma_fence_is_signaled fence;
            if signaled : bool then
              if create then
                out <-- _create_signaled_hw_fence client_id fence hash;
                ret (out.1, true, out.2)
              else ret (None, true, hash)
            else
              find_with_dma_fence_loop fuel' client_id fence (u32 (step + HW_FENCE_FIND_THRESHOLD))
                hash create
        end
    end
  else ret (None, false, hash).

(** Returns the entry, [*is_signaled] and [*hash]. *)
Definition hw_fence_find_with_dma_fence (client_id fence hash0 : Z) (create : bool)
  : DRV (option Z * bool * Z) :=
  pre <-- (if create then ret false else dma_fence_is_signaled fence);
  if pre : bool then ret (None, true, hash0)
  else
    d <-- get;
    find_with_dma_fence_loop (Z.to_nat (dd_hw_fences_tbl_cnt d)) client_id fence 0 hash0 create.

(** ** Cleaning up *)

Definition hw_fence_utils_cleanup_fence (ch hash reset_flags : Z) : DRV Z :=
  c <-- get_client ch;
  let error := if flag reset_flags MSM_HW_FENCE_RESET_WITHOUT_ERROR then 0
               else MSM_HW_FENCE_ERROR_RESET in
  let keep := flag reset_flags MSM_HW_FENCE_RESET_WITHOUT_DESTROY in
  global_atomic_store (FenceLock hash) true;;;
  f <-- get_fence hash;
  let waits := flag (hf_wait_client_mask f) (BIT (cl_client_id c)) in
  when waits do
    update_fence hash (fun f => f <| hf_wait_client_mask ::=
                                       fun m => clear m (BIT (cl_client_id c)) |>);;;
  if waits && negb keep then
    hw_fence_put_and_unlock hash;;; ret 0
  else
    global_atomic_store (FenceLock hash) false;;;
    f <-- get_fence hash;
    if hf_fence_allocator f =? cl_client_id c then
      _signal_fence_if_unsignaled hash hash error true;;;
      if keep then ret 0 else hw_fence_destroy_with_hash hash
    else ret 0.

(** One turn of the loop of [unlock_in_flight_fence]. *)
Definition unlock_in_flight_client (wait_client_mask in_flight_lock wait_client_id : Z) : DRV unit :=
  if flag wait_client_mask (BIT wait_client_id) then
    let lock_idx := client_lock_idx wait_client_id in
    d <-- get;
    w <-- deref (zget (dd_client_lock_tbl d) lock_idx);
    when w =? in_flight_lock do global_atomic_store (ClientLock lock_idx) false
  else ret tt.

Definition unlock_in_flight_fence (hw_fence in_flight_lock : Z) : DRV unit :=
  f <-- get_fence hw_fence;
  let wait_client_mask := hf_wait_client_mask f in
  global_atomic_store (FenceLock hw_fence) false;;;
  d <-- get;
  for_n (Z.to_nat (dd_rxq_clients_num d + 1)) 0
    (fun i _ => unlock_in_flight_client wait_client_mask in_flight_lock i) tt.

Definition ssr_cleanup_entry (in_flight_lock i : Z) : DRV unit :=
  f <-- get_fence i;
  when hf_lock f =? in_flight_lock do unlock_in_flight_fence i in_flight_lock;;;
  _signal_fence_if_unsignaled i i MSM_HW_FENCE_ERROR_RESET false.

Definition hw_fence_ssr_cleanup_table (table_total_entries in_flight_lock : Z) : DRV Z :=
  if (in_flight_lock =? 0) || (in_flight_lock =? BIT 0) then ret (- EINVAL)
  else
    for_n (Z.to_nat table_total_entries) 0 (fun i _ => ssr_cleanup_entry in_flight_lock i) tt;;;
    ret 0.

(** * Properties *)

(** ** Every operation returns in a good state *)

(** Changes of the clock and of the kernel's side only. *)
Lemma drv_ok_logged e d : drv_ok d -> drv_ok (logged e d).
Proof. intros [? ? ? ? ? ? ?]. split; try done. by apply (table_ok_frame (logged e)). Qed.

Lemma drv_ok_put_dma fence g d : drv_ok d -> 0 <= df_cb_hash g -> drv_ok (put_dma fence g d).
Proof.
  intros [? ? ? ? ? ? Hg] H0. split; try done; [by apply (table_ok_frame (put_dma fence g))|].
  intros fence' g'. simpl. destruct (decide (fence = fence')) as [->|Hne].
  - rewrite lookup_insert_eq. by intros [= <-].
  - rewrite lookup_insert_ne by done. apply Hg.
Qed.

Lemma drv_ok_drop_dma fence d : drv_ok d -> drv_ok (drop_dma fence d).
Proof.
  intros [? ? ? ? ? ? Hg]. split; try done; [by apply (table_ok_frame (drop_dma fence))|].
  intros fence' g'. simpl. intros [_ E]%lookup_delete_Some. by eapply Hg.
Qed.

Lemma drv_ok_unchain key fence d : drv_ok d -> drv_ok (unchain key fence d).
Proof. intros [? ? ? ? ? ? ?]. split; try done. by apply (table_ok_frame (unchain key fence)). Qed.

Lemma drv_ok_put_key h key d : drv_ok d -> drv_ok (put_key h key d).
Proof. intros [? ? ? ? ? ? ?]. split; try done. by apply table_ok_put_key. Qed.

#[export] Hint Resolve drv_ok_logged drv_ok_put_dma drv_ok_drop_dma drv_ok_unchain
  drv_ok_put_key : fence.

Lemma destroy_refcount_ok d h ref :
  drv_ok d -> 0 <= h -> wp (hw_fence_destroy_refcount h ref) (fun _ => drv_ok) d.
Proof.
  intros Hd Hh. pose proof (do_table _ Hd) as Hok. unfold wp.
  destruct (decide (h < dd_hw_fences_tbl_cnt d)).
  - destruct (fence_at_is_Some d h) as [f E]; [auto with fence|done|].
    rewrite (destroy_refcount_run _ _ _ _ (to_wf _ Hok) (to_unlocked _ Hok) E).
    destruct (flag _ _); [eauto with fence|done].
  - rewrite destroy_refcount_bad by (auto with fence || lia). done.
Qed.

Lemma get_dma_fence_run d fence g : dd_dma_fences d !! fence = Some g -> get_dma_fence fence d = Done g d.
Proof. intros E. unfold get_dma_fence, bind, get. by rewrite E. Qed.

Lemma destroy_ok d key context seqno : drv_ok d -> wp (hw_fence_destroy key context seqno) (fun _ => drv_ok) d.
Proof.
  intros Hd. unfold wp. rewrite destroy_run by auto with fence.
  destruct (find_step _ _ _ _) as [k|]; [|auto with fence]. cbv zeta.
  destruct (fence_at_is_Some d (probe d context seqno k)) as [f E]; [auto with fence..|].
  rewrite E. destruct (flag _ _); [|auto with fence].
  assert (drv_ok (put_fence (probe d context seqno k) (put_ref f) (ticked d))) by eauto with fence.
  unfold unreserve_keys. case_match; [by apply drv_ok_put_key|done].
Qed.

(** The release of a dma-fence touches no client: the external case is refused
    before the client handle is followed. *)
Lemma dbg_release_ok d fence g :
  drv_ok d -> dd_dma_fences d !! fence = Some g -> df_hw_dma g = true ->
  wp (hw_fence_dbg_release fence) (fun _ => drv_ok) d.
Proof.
  intros Hd Eg Hhw. pose proof (get_dma_fence_run _ _ _ Eg) as Hget.
  destruct (df_client_handle g) as [ch|] eqn:Hch; [destruct (df_internal g) eqn:Hi|].
  - unfold hw_fence_dbg_release. apply wp_bind. eapply wp_done; [exact Hget|].
    apply wp_bind. destruct (test_dma_flag _ _); [|by apply wp_ret, wp_modifyM, (drv_ok_drop_dma fence)].
    unfold _hw_fence_release. apply wp_bind. eapply wp_done; [exact Hget|].
    rewrite Hch, Hi. apply wp_bind. eapply wp_mono.
    + apply destroy_refcount_ok; [done|]. by eapply (do_dma _ Hd fence).
    + intros r d2 Hd2. apply wp_ret, wp_modifyM. by apply drv_ok_drop_dma.
  - unfold wp. rewrite (external_release_run d fence g ch) by done. auto with fence.
  - unfold hw_fence_dbg_release. apply wp_bind. eapply wp_done; [exact Hget|].
    apply wp_bind. destruct (test_dma_flag _ _); [|by apply wp_ret, wp_modifyM, (drv_ok_drop_dma fence)].
    unfold _hw_fence_release. apply wp_bind. eapply wp_done; [exact Hget|].
    rewrite Hch. by apply wp_ret, wp_modifyM, (drv_ok_drop_dma fence).
Qed.

Lemma dma_fence_put_ok d fence g :
  drv_ok d -> dd_dma_fences d !! fence = Some g -> wp (dma_fence_put fence) (fun _ => drv_ok) d.
Proof.
  intros Hd Eg. unfold dma_fence_put.
  set (d1 := ticked (logged (EvDmaPut fence) d)).
  assert (drv_ok d1) as Hd1 by (unfold d1; auto with fence).
  apply wp_bind, wp_modifyM, wp_bind, wp_get, wp_bind.
  apply (wp_done _ _ _ (dd_tick d) d1); [done|]. destruct (env_last_put _ _ _); [|done].
  apply wp_bind. eapply wp_done; [by apply get_dma_fence_run|].
  destruct (df_hw_dma g) eqn:Hhw; [|done]. by eapply dbg_release_ok.
Qed.

Lemma find_in_chain_lookup d hash chain fence :
  find_in_chain d hash chain = Some fence -> is_Some (dd_dma_fences d !! fence).
Proof.
  induction chain as [|x chain IH]; simpl; [done|].
  destruct (dd_dma_fences d !! x) eqn:E; [|done]. case_match; [|done].
  intros [= ->]. by rewrite E.
Qed.

Lemma signal_owned_ok s err fence g d :
  drv_ok d -> dd_dma_fences d !! fence = Some g ->
  drv_ok (signal_owned s err fence g d) /\
  is_Some (dd_dma_fences (signal_owned s err fence g d) !! fence).
Proof.
  intros Hd Eg. pose proof (do_dma _ Hd _ _ Eg). unfold signal_owned. destruct s; [by eauto|].
  destruct (err =? 0); (split; [auto with fence|]); simpl; [by eauto|].
  rewrite lookup_insert_eq. eauto.
Qed.

Lemma table_del_ok d hash flags error :
  drv_ok d -> wp (hw_fence_dma_fence_table_del hash flags error) (fun _ => drv_ok) d.
Proof.
  intros Hd. unfold hw_fence_dma_fence_table_del, hw_fence_dma_fence_find.
  apply wp_bind, wp_bind, wp_get.
  destruct (find_in_chain _ _ _) as [fence|] eqn:Ef; [|done].
  destruct (find_in_chain_lookup _ _ _ _ Ef) as [g Eg].
  apply wp_bind. cbv beta iota. apply wp_ret, wp_ret, wp_bind.
  eapply wp_done; [by apply get_dma_fence_run|]. apply wp_bind, wp_get, wp_bind.
  set (err := if flag flags MSM_HW_FENCE_FLAG_SIGNAL then error else SYNX_STATE_SIGNALED_CANCEL).
  assert (forall d1 r, drv_ok d1 -> dd_dma_fences d1 !! fence = Some g ->
    wp (log_event (EvDmaRemoveCb fence);;; signaled <-- dma_fence_is_signaled fence;
        (when negb signaled do (when negb (err =? 0) do dma_fence_set_error fence (- err);;;
                                log_event (EvDmaSignal fence)));;;
        dma_fence_put fence;;; ret r) (fun _ : Z => drv_ok) d1) as Hrest.
  { intros d1 r Hd1 Eg1. apply wp_bind, wp_modifyM. fold (logged (EvDmaRemoveCb fence) d1).
    apply wp_bind. set (d2 := ticked (logged (EvDmaRemoveCb fence) d1)).
    assert (drv_ok d2) as Hd2 by (unfold d2; auto with fence).
    eapply (wp_done _ _ _ _ d2); [done|]. apply wp_bind.
    eapply wp_done; [by apply (signal_owned_run _ err fence g d2)|].
    destruct (signal_owned_ok (env_dma_signaled (dd_env (logged (EvDmaRemoveCb fence) d1)) fence
      (dd_tick (logged (EvDmaRemoveCb fence) d1))) err fence g d2 Hd2 Eg1) as [Hd3 [g3 Eg3]].
    apply wp_bind. eapply wp_mono; [by eapply dma_fence_put_ok|]. done. }
  case_bool_decide.
  - apply wp_bind, wp_modifyM. apply wp_ret, Hrest; [|done].
    by apply (drv_ok_unchain (df_dma_fence_key g) fence).
  - by apply wp_ret, Hrest.
Qed.

Lemma destroy_with_hash_ok d hash :
  drv_ok d -> 0 <= hash -> wp (hw_fence_destroy_with_hash hash) (fun _ => drv_ok) d.
Proof.
  intros Hd Hh. unfold wp. pose proof (do_table _ Hd) as Hok.
  destruct (decide (hash < dd_hw_fences_tbl_cnt d)).
  - destruct (fence_at_is_Some d hash) as [f E]; [auto with fence|done|].
    rewrite (destroy_with_hash_run _ _ _ Hok E). destruct (flag _ _); [|done].
    assert (drv_ok (put_fence hash (put_entry f) d)) by eauto with fence.
    destruct (releases_dma f); [by apply table_del_ok|done].
  - rewrite destroy_with_hash_bad by (auto || lia). done.
Qed.

Lemma get_ref_ok f : entry_ok f -> entry_ok (get_ref f).
Proof. done. Qed.

Lemma reserved_ok client_id context seqno pending t f :
  entry_ok f -> entry_ok (reserved client_id context seqno pending t f).
Proof.
  intros (Hf & Hcd & Hpl). split; [done|].
  split; [simpl; unfold zlen in *; by rewrite length_fmap|]. split; [done|].
  simpl. by repeat constructor.
Qed.

#[export] Hint Resolve get_ref_ok reserved_ok : fence.

(** ** Finding the entry of a dma-fence *)

Lemma first_hit_app pr hit n m i :
  first_hit pr hit (n + m) i
  = match first_hit pr hit n i with Some k => Some k | None => first_hit pr hit m (i + Z.of_nat n) end.
Proof.
  revert i. induction n as [|n IH]; intros i; simpl; [by rewrite Z.add_0_r|].
  destruct (hit (pr i)); [done|]. rewrite IH. destruct (first_hit pr hit n (i + 1)); [done|].
  f_equal. lia.
Qed.

(** Time passes. *)
Definition at_tick (t : nat) (d : driver_data) : driver_data := d <| dd_tick := t |>.

Lemma drv_ok_at_tick t d : drv_ok d -> drv_ok (at_tick t d).
Proof. intros [? ? ? ? ? ? ?]. split; try done. by apply (table_ok_frame (at_tick t)). Qed.

#[export] Hint Resolve drv_ok_at_tick : fence.

(** What the search answers on the entry it stops at. *)
Definition found (d : driver_data) (context seqno : Z) (o : option Z) (d' : driver_data)
    (out : option Z * bool * Z) : Prop :=
  match o with
  | Some k =>
      let h := probe d context seqno k in
      exists f t, fence_at d h = Some f /\ out = (Some h, false, h) /\
        d' = put_fence h (get_ref f) (at_tick t d)
  | None => exists t hash, out = (None, false, hash) /\ d' = at_tick t d
  end.

(** One chunk of the sweep. *)
Lemma find_range_run d key context seqno hash0 s e :
  table_ok d -> 0 <= s < e -> e <= dd_hw_fences_tbl_cnt d ->
  _hw_fence_lookup_and_process_range key context seqno hash0 s e _fence_found d
  = match first_hit (probe d context seqno) (key_match d key context seqno) (Z.to_nat (e - s)) s with
    | None => Done (None, probe d context seqno (e - 1)) (ticked d)
    | Some k =>
        let h := probe d context seqno k in
        match fence_at d h with
        | Some f => if saturated f then Done (None, h) (ticked d)
                    else Done (Some h, h) (put_fence h (get_ref f) (ticked d))
        | None => Faulted BadAccess
        end
    end.
Proof.
  intros Hok Hs He. rewrite lookup_and_process_range_run by auto with fence.
  destruct (first_hit _ _ _ _) as [k|]; [|done]. cbv zeta. set (h := probe d context seqno k).
  destruct (fence_at_is_Some d h) as [f E]; [auto with fence|apply probe_range; auto with fence|]. rewrite E.
  assert (fence_at (ticked d) h = Some f) as E' by done.
  pose proof (lock_free_at _ _ _ Hok E) as Hl.
  pose proof (fence_found_run _ _ _ (locked_at_fence _ _ _ E')) as Hff.
  change (hf_refcount (with_lock 1 f)) with (hf_refcount f) in Hff. fold (saturated f) in Hff.
  destruct (saturated f); rewrite (bind_run _ _ _ _ _ Hff); unfold unlock_fence.
  - by rewrite (bind_run _ _ _ _ _ (locked_at_unlock _ _ _ E' Hl)).
  - destruct get_ref_neutral as [Hg Hh]. by erewrite bind_run by (apply unlock_after; eauto).
Qed.

(** The end of the chunk that starts at [s]. *)
Definition chunk_end (d : driver_data) (s : Z) : Z :=
  Z.min (dd_hw_fences_tbl_cnt d) (s + HW_FENCE_FIND_THRESHOLD).

Lemma chunk_end_eq d s :
  table_ok d -> 0 <= s < dd_hw_fences_tbl_cnt d ->
  (if dd_hw_fences_tbl_cnt d <? u32 (s + HW_FENCE_FIND_THRESHOLD) then dd_hw_fences_tbl_cnt d
   else u32 (s + HW_FENCE_FIND_THRESHOLD)) = chunk_end d s /\
  u32 (s + HW_FENCE_FIND_THRESHOLD) = s + HW_FENCE_FIND_THRESHOLD.
Proof.
  intros Hok Hs. pose proof (tw_cnt _ (to_wf _ Hok)).
  assert (u32 (s + HW_FENCE_FIND_THRESHOLD) = s + HW_FENCE_FIND_THRESHOLD) as ->.
  { apply u32_id. unfold in_u32, HW_FENCE_FIND_THRESHOLD. lia. }
  split; [|done]. unfold chunk_end. destruct (Z.ltb_spec (dd_hw_fences_tbl_cnt d) (s + HW_FENCE_FIND_THRESHOLD)); lia.
Qed.

(** One turn of the loop. *)
Lemma find_loop_step fuel d g client_id fence s hash create :
  table_ok d -> dd_dma_fences d !! fence = Some g -> 0 <= s < dd_hw_fences_tbl_cnt d ->
  find_with_dma_fence_loop (S fuel) client_id fence s hash create d
  = (out <-- _hw_fence_lookup_and_process_range fence (df_context g) (df_seqno g) hash
               s (chunk_end d s) _fence_found;
     let '(o, hash) := out in
     match o with
     | Some _ => ret (o, false, hash)
     | None =>
         signaled <-- dma_fence_is_signaled fence;
         if signaled : bool then
           if create then
             out <-- _create_signaled_hw_fence client_id fence hash; ret (out.1, true, out.2)
           else ret (None, true, hash)
         else find_with_dma_fence_loop fuel client_id fence (s + HW_FENCE_FIND_THRESHOLD) hash create
     end) d.
Proof.
  intros Hok Eg Hs. simpl. rewrite (bind_run _ _ d d d) by done.
  destruct (Z.ltb_spec s (dd_hw_fences_tbl_cnt d)); [|lia].
  rewrite (bind_run _ _ _ _ _ (get_dma_fence_run _ _ _ Eg)).
  destruct (chunk_end_eq d s Hok Hs) as [-> ->]. done.
Qed.

Lemma find_loop_end fuel d client_id fence s hash create :
  dd_hw_fences_tbl_cnt d <= s ->
  find_with_dma_fence_loop fuel client_id fence s hash create d = Done (None, false, hash) d.
Proof.
  intros Hs. destruct fuel; simpl; rewrite (bind_run _ _ d d d) by done;
    by destruct (Z.ltb_spec s (dd_hw_fences_tbl_cnt d)); [lia|].
Qed.

(** The entry the sweep stops at has a reference to give. *)
Definition hit_unsaturated (d : driver_data) (key context seqno : Z) (n : nat) (s : Z) : Prop :=
  forall k f, first_hit (probe d context seqno) (key_match d key context seqno) n s = Some k ->
    fence_at d (probe d context seqno k) = Some f -> saturated f = false.

(** No entry that can match is out of references to give. *)
Definition unsaturated (d : driver_data) (key context seqno : Z) : Prop :=
  forall h f, fence_at d h = Some f -> key_match d key context seqno h = true -> saturated f = false.

(** What is left of the sweep behind a chunk, from the chunk's end or from the next
    start: the same, since a short chunk is the last. *)
Lemma next_chunk_hit d pr hit s :
  s < chunk_end d s <= dd_hw_fences_tbl_cnt d ->
  first_hit pr hit (Z.to_nat (dd_hw_fences_tbl_cnt d - chunk_end d s)) (s + Z.of_nat (Z.to_nat (chunk_end d s - s)))
  = first_hit pr hit (Z.to_nat (dd_hw_fences_tbl_cnt d - (s + HW_FENCE_FIND_THRESHOLD))) (s + HW_FENCE_FIND_THRESHOLD).
Proof.
  unfold chunk_end. intros He. destruct (decide (s + HW_FENCE_FIND_THRESHOLD <= dd_hw_fences_tbl_cnt d)).
  - rewrite Z.min_r by done. f_equal. lia.
  - rewrite Z.min_l by lia.
    replace (Z.to_nat (dd_hw_fences_tbl_cnt d - dd_hw_fences_tbl_cnt d)) with O by lia.
    by replace (Z.to_nat (dd_hw_fences_tbl_cnt d - (s + HW_FENCE_FIND_THRESHOLD))) with O by lia.
Qed.

Lemma find_loop_run fuel d g client_id fence s hash create :
  drv_ok d -> dd_dma_fences d !! fence = Some g ->
  (forall n, env_dma_signaled (dd_env d) fence n = false) ->
  0 <= s -> dd_hw_fences_tbl_cnt d - s <= Z.of_nat fuel ->
  hit_unsaturated d fence (df_context g) (df_seqno g) (Z.to_nat (dd_hw_fences_tbl_cnt d - s)) s ->
  exists out d', find_with_dma_fence_loop fuel client_id fence s hash create d = Done out d' /\
    found d (df_context g) (df_seqno g)
      (first_hit (probe d (df_context g) (df_seqno g)) (key_match d fence (df_context g) (df_seqno g))
         (Z.to_nat (dd_hw_fences_tbl_cnt d - s)) s) d' out.
Proof.
  intros Hd Eg Hsig. revert d s hash Hd Eg Hsig.
  induction fuel as [|fuel IH]; intros d s hash Hd Eg Hsig Hs Hf Hsat.
  { rewrite find_loop_end by lia. replace (Z.to_nat _) with O by lia.
    do 2 eexists. split; [done|]. exists (dd_tick d), hash. split; [done|by destruct d]. }
  destruct (decide (s < dd_hw_fences_tbl_cnt d)); [|rewrite find_loop_end by lia;
    replace (Z.to_nat _) with O by lia; do 2 eexists; split; [done|];
    exists (dd_tick d), hash; split; [done|by destruct d]].
  pose proof (do_table _ Hd) as Hok. rewrite (find_loop_step fuel d g) by done.
  assert (s < chunk_end d s <= dd_hw_fences_tbl_cnt d) as He
    by (unfold chunk_end, HW_FENCE_FIND_THRESHOLD; lia).
  unfold bind at 1. rewrite find_range_run by (done || lia).
  set (n1 := Z.to_nat (chunk_end d s - s)).
  set (n2 := Z.to_nat (dd_hw_fences_tbl_cnt d - chunk_end d s)).
  unfold hit_unsaturated in Hsat.
  replace (Z.to_nat (dd_hw_fences_tbl_cnt d - s)) with (n1 + n2)%nat in * by lia. rewrite first_hit_app in *.
  destruct (first_hit _ _ n1 s) as [k|] eqn:Ek.
  - cbv zeta. set (h := probe d (df_context g) (df_seqno g) k).
    destruct (fence_at_is_Some d h) as [f E]; [auto with fence|apply probe_range; auto with fence|]. rewrite E.
    rewrite (Hsat k f eq_refl E).
    do 2 eexists. split; [done|]. exists f, (S (dd_tick d)). done.
  - set (d1 := at_tick (S (S (dd_tick d))) d).
    rewrite (bind_run _ _ _ false d1).
    2: { unfold dma_fence_is_signaled, bind, get, tick, put, ret. simpl. by rewrite Hsig. }
    unfold n1, n2 in Hsat |- *. rewrite next_chunk_hit in Hsat |- * by done.
    destruct (IH d1 (s + HW_FENCE_FIND_THRESHOLD) (probe d (df_context g) (df_seqno g) (chunk_end d s - 1)))
      as (out & d' & Hr & Hfound); [by apply drv_ok_at_tick|done|done|
                                    unfold HW_FENCE_FIND_THRESHOLD; lia|
                                    unfold HW_FENCE_FIND_THRESHOLD; simpl; lia|done|].
    exists out, d'. split; [done|].
    change (probe d1) with (probe d) in Hfound. change (key_match d1) with (key_match d) in Hfound.
    change (dd_hw_fences_tbl_cnt d1) with (dd_hw_fences_tbl_cnt d) in Hfound.
    clear Ek IH. unfold found in *. destruct (first_hit _ _ _ _) as [k|].
    + destruct Hfound as (f & t & E & -> & ->). exists f, t. done.
    + destruct Hfound as (t & hash' & -> & ->). exists t, hash'. done.
Qed.

Lemma find_with_dma_fence_run d g client_id fence hash0 create :
  drv_ok d -> dd_dma_fences d !! fence = Some g ->
  (forall n, env_dma_signaled (dd_env d) fence n = false) ->
  hit_unsaturated d fence (df_context g) (df_seqno g) (Z.to_nat (dd_hw_fences_tbl_cnt d)) 0 ->
  exists out d', hw_fence_find_with_dma_fence client_id fence hash0 create d = Done out d' /\
    match find_step d (key_match d fence (df_context g) (df_seqno g)) (df_context g) (df_seqno g) with
    | Some k =>
        let h := probe d (df_context g) (df_seqno g) k in
        exists f t, fence_at d h = Some f /\ out = (Some h, false, h) /\
          d' = put_fence h (get_ref f) (at_tick t d) /\
          msm_hw_fence_find fence (df_context g) (df_seqno g) hash0 d
          = Done (Some h, h) (put_fence h (get_ref f) (ticked d))
    | None =>
        exists t hash hash', out = (None, false, hash) /\ d' = at_tick t d /\
          msm_hw_fence_find fence (df_context g) (df_seqno g) hash0 d = Done (None, hash') (ticked d)
    end.
Proof.
  intros Hd Eg Hsig Hsat. pose proof (do_table _ Hd) as Hok. pose proof (tw_cnt _ (to_wf _ Hok)).
  set (t0 := if create then dd_tick d else S (dd_tick d)).
  destruct (find_loop_run (Z.to_nat (dd_hw_fences_tbl_cnt d)) (at_tick t0 d) g client_id fence 0 hash0 create)
    as (out & d' & Hr & Hf); [by apply drv_ok_at_tick|done|done|lia|simpl; lia|simpl; by rewrite Z.sub_0_r|].
  exists out, d'. split.
  { unfold hw_fence_find_with_dma_fence. rewrite (bind_run _ _ d false (at_tick t0 d)).
    - by rewrite (bind_run _ _ _ (at_tick t0 d) (at_tick t0 d)) by done.
    - unfold t0. destruct create; [by destruct d|].
      unfold dma_fence_is_signaled, bind, get, tick, put, ret. simpl. by rewrite Hsig. }
  rewrite find_run by auto with fence. unfold find_step.
  change (dd_hw_fences_tbl_cnt (at_tick t0 d)) with (dd_hw_fences_tbl_cnt d) in Hf.
  rewrite Z.sub_0_r in Hf. change (probe (at_tick t0 d)) with (probe d) in Hf.
  change (key_match (at_tick t0 d)) with (key_match d) in Hf.
  destruct (first_hit _ _ _ _) as [k|] eqn:Ek.
  - destruct Hf as (f & t & E & -> & ->). exists f, t. split; [done|]. split; [done|]. split; [done|].
    cbv zeta. change (fence_at d (probe d (df_context g) (df_seqno g) k) = Some f) in E. rewrite E.
    by rewrite (Hsat _ _ Ek E).
  - destruct Hf as (t & hash & -> & ->). by eexists _, _, _.
Qed.

(** C37: [hw_fence_find_with_dma_fence] sweeps the table in chunks, asking the
    kernel between them whether the fence is signaled.  While it is not, the
    chunked sweep is [msm_hw_fence_find] on the identity of the dma-fence: it
    terminates, stops at the same entry, takes one reference there and changes
    nothing else; without such an entry it changes nothing and returns [NULL]. *)
Theorem find_with_dma_fence_full_sweep d g client_id fence hash0 create :
  drv_ok d -> dd_dma_fences d !! fence = Some g ->
  (forall n, env_dma_signaled (dd_env d) fence n = false) ->
  unsaturated d fence (df_context g) (df_seqno g) ->
  exists out d', hw_fence_find_with_dma_fence client_id fence hash0 create d = Done out d' /\
    match find_step d (key_match d fence (df_context g) (df_seqno g)) (df_context g) (df_seqno g) with
    | Some k =>
        let h := probe d (df_context g) (df_seqno g) k in
        exists f t, fence_at d h = Some f /\ out = (Some h, false, h) /\
          d' = put_fence h (get_ref f) (at_tick t d) /\
          msm_hw_fence_find fence (df_context g) (df_seqno g) hash0 d
          = Done (Some h, h) (put_fence h (get_ref f) (ticked d))
    | None =>
        exists t hash hash', out = (None, false, hash) /\ d' = at_tick t d /\
          msm_hw_fence_find fence (df_context g) (df_seqno g) hash0 d = Done (None, hash') (ticked d)
    end.
Proof.
  intros Hd Eg Hsig Hsat. apply find_with_dma_fence_run; [done..|].
  intros k f Ek E. apply (Hsat _ _ E). by destruct (first_hit_Some _ _ _ _ _ Ek) as (_ & Hm & _).
Qed.

(** A fresh entry has neither parents nor waiting clients: signaling it only
    marks it and drops the controller's reference. *)
Lemma signal_fresh_run d h f error :
  drv_ok d -> fence_at d h = Some f -> is_signaled_hw f = false -> hf_parents_cnt f = 0 ->
  hf_wait_client_mask f = 0 ->
  exists d', _signal_fence_if_unsignaled h h error true d = Done tt d' /\ drv_ok d' /\
    told (put_fence h (drop_fctl (signaled error f)) d) d' [].
Proof.
  intros Hd E Hs Hp Hm. rewrite (signal_once_run _ _ _ _ _ _ Hd E Hs), Hp, Hm.
  set (d0 := put_fence h (signaled error f) d).
  assert (drv_ok d0) as Hd0 by (unfold d0; eauto with fence).
  rewrite (bind_run _ _ d0 tt d0) by done.
  assert (fence_at d0 h = Some (signaled error f)) as E0 by (by eapply fence_at_put_eq).
  destruct (signal_all_wait_clients_run d0 h _ 0 h error Hd0 E0) as (d1 & Hr1 & Hd1 & Ht1).
  rewrite (bind_run _ _ _ _ _ Hr1).
  assert (wait_notices d0 (signaled error f) 0 h error = []) as Hn.
  { unfold wait_notices. induction (seq _ _) as [|x l IH]; [done|].
    rewrite fmap_cons. simpl concat. by rewrite IH. }
  rewrite Hn in Ht1.
  destruct (drop_fctl_run d1 h (signaled error f) unit (fun _ => ret tt) Hd1) as [r Hr];
    [by eapply told_ok_fence|].
  rewrite Hr. eexists. split; [done|]. split; [|by eapply told_put].
  apply drv_ok_put; [done|]. apply drop_fctl_ok. exact (entry_ok_at _ _ _ Hd0 E0).
Qed.

Lemma drop_fctl_signaled error client_id context seqno pending t f :
  drop_fctl (signaled error (reserved client_id context seqno pending t f))
  = set_refs (mk_refs false false 1) (signaled error (reserved client_id context seqno pending t f)).
Proof.
  unfold drop_fctl. set (fr := signaled _ _).
  assert (hf_refcount fr = refs_word fresh_refs) as Ew by (vm_compute; reflexivity).
  rewrite Ew. change (flag (refs_word fresh_refs) HW_FENCE_FCTL_REFCOUNT) with true. cbv iota.
  by rewrite (clear_fctl_refs fr fresh_refs).
Qed.

Lemma create_signaled_run d g client_id fence hash0 k f :
  drv_ok d -> dd_dma_fences d !! fence = Some g ->
  find_step d (create_hit d fence (df_context g) (df_seqno g)) (df_context g) (df_seqno g) = Some k ->
  let h := probe d (df_context g) (df_seqno g) k in
  fence_at d h = Some f -> hf_valid f = 0 ->
  exists d', _create_signaled_hw_fence client_id fence hash0 d = Done (Some h, h) d' /\ drv_ok d' /\
    told (put_key h fence (put_fence h (set_refs (mk_refs false false 1)
            (signaled (u32 (df_error g)) (reserved client_id (df_context g) (df_seqno g) 0
               (now (ticked d)) f))) (ticked (ticked d)))) d' [].
Proof.
  intros Hd Eg Ek h E Hv. pose proof (do_table _ Hd) as Hok. pose proof (tw_cnt _ (to_wf _ Hok)).
  unfold _create_signaled_hw_fence. rewrite (bind_run _ _ _ _ _ (get_dma_fence_run _ _ _ Eg)).
  rewrite (bind_run _ _ d d d) by done.
  set (fr := reserved client_id (df_context g) (df_seqno g) 0 (now (ticked d)) f).
  set (d1 := put_key h fence (put_fence h fr (ticked (ticked d)))).
  assert (_hw_fence_lookup_and_create_range client_id fence (df_context g) (df_seqno g) 0 hash0 0
            (dd_hw_fences_tbl_cnt d) MSM_HW_FENCE_FLAG_CREATE_SIGNALED d = Done (Some h, h) d1) as Hc.
  { rewrite create_range_run by (auto with fence || lia). unfold find_step in Ek. rewrite Z.sub_0_r, Ek.
    fold h. unfold create_result. rewrite ticked_fence, E, Hv. done. }
  rewrite (bind_run _ _ _ _ _ Hc). cbv beta iota.
  assert (drv_ok d1) as Hd1.
  { apply drv_ok_put_key, drv_ok_put; [auto with fence|].
    apply reserved_ok. exact (entry_ok_at _ _ _ Hd E). }
  assert (fence_at d1 h = Some fr) as E1 by (exact (fence_at_put_eq (ticked (ticked d)) h fr f E)).
  rewrite (bind_run _ _ d1 g d1) by (exact (get_dma_fence_run d1 fence g Eg)).
  destruct (signal_fresh_run d1 h fr (u32 (df_error g)) Hd1 E1 eq_refl eq_refl eq_refl)
    as (d2 & Hr & Hd2 & Ht).
  rewrite (bind_run _ _ _ _ _ Hr). exists d2. split; [done|]. split; [done|].
  unfold fr in Ht. rewrite drop_fctl_signaled in Ht. fold fr in Ht.
  unfold d1 in Ht. unfold put_key, put_fence in *. simpl in *. by rewrite zset_zset in Ht.
Qed.

(** A dma-fence the kernel already has signaled.  A plain search returns
    [NULL] and says so without reading the table; a search that may create finds
    no entry in its first chunk and makes one: it carries the identity and the
    error of the dma-fence, is signaled, and the caller's reference is the only
    one on it. *)
Theorem find_signaled_dma_fence d g client_id fence hash0 k f :
  drv_ok d -> dd_dma_fences d !! fence = Some g ->
  (forall n, env_dma_signaled (dd_env d) fence n = true) ->
  first_hit (probe d (df_context g) (df_seqno g)) (key_match d fence (df_context g) (df_seqno g))
    (Z.to_nat (chunk_end d 0)) 0 = None ->
  find_step d (create_hit d fence (df_context g) (df_seqno g)) (df_context g) (df_seqno g) = Some k ->
  let h := probe d (df_context g) (df_seqno g) k in
  fence_at d h = Some f -> hf_valid f = 0 ->
  hw_fence_find_with_dma_fence client_id fence hash0 false d = Done (None, true, hash0) (ticked d) /\
  exists d' f', hw_fence_find_with_dma_fence client_id fence hash0 true d = Done (Some h, true, h) d' /\
    drv_ok d' /\ has_key d' h fence (df_context g) (df_seqno g) f' /\ is_signaled_hw f' = true /\
    hf_error f' = u32 (df_error g) /\ hf_refcount f' = refs_word (mk_refs false false 1) /\
    forall i, i <> h -> fence_at d' i = fence_at d i.
Proof.
  intros Hd Eg Hsig Hchunk Ek h E Hv. pose proof (do_table _ Hd) as Hok.
  pose proof (tw_cnt _ (to_wf _ Hok)) as Hc.
  assert (forall d0, dd_env d0 = dd_env d -> dma_fence_is_signaled fence d0 = Done true (ticked d0)) as Hsg.
  { intros d0 He.
    transitivity (Done (env_dma_signaled (dd_env d0) fence (dd_tick d0)) (ticked d0)); [done|].
    by rewrite He, Hsig. }
  unfold hw_fence_find_with_dma_fence. split; [by rewrite (bind_run _ _ _ _ _ (Hsg d eq_refl))|].
  rewrite (bind_run _ _ d false d), (bind_run _ _ d d d) by done.
  destruct (Z.to_nat (dd_hw_fences_tbl_cnt d)) as [|fuel] eqn:Efuel; [lia|].
  rewrite (find_loop_step fuel d g) by (done || lia).
  assert (0 < chunk_end d 0 <= dd_hw_fences_tbl_cnt d) as Hce
    by (unfold chunk_end, HW_FENCE_FIND_THRESHOLD; lia).
  pose proof (find_range_run d fence (df_context g) (df_seqno g) hash0 0 (chunk_end d 0) Hok) as Hr.
  rewrite Z.sub_0_r, Hchunk in Hr. rewrite (bind_run _ _ _ _ _ (Hr ltac:(lia) ltac:(lia))).
  cbv beta iota. rewrite (bind_run _ _ _ _ _ (Hsg (ticked d) eq_refl)).
  set (d1 := ticked (ticked d)). assert (drv_ok d1) as Hd1 by (unfold d1; auto with fence).
  destruct (create_signaled_run d1 g client_id fence
              (probe d (df_context g) (df_seqno g) (chunk_end d 0 - 1)) k f Hd1 Eg Ek E Hv)
    as (d' & Hrun & Hd' & Ht).
  change (probe d1 (df_context g) (df_seqno g) k) with h in Hrun, Ht.
  rewrite (bind_run _ _ _ _ _ Hrun).
  set (f' := set_refs _ _) in Ht. exists d', f'. split; [done|]. split; [done|].
  assert (is_signaled_hw f' = true) by (exact (flag_lor_same 0 MSM_HW_FENCE_FLAG_SIGNAL ltac:(done))).
  split; [split; [|split; [|done]]|split; [done|split; [done|split; [done|]]]].
  - rewrite (told_fence _ _ _ _ Ht), fence_at_put_key. by eapply fence_at_put_eq.
  - destruct Ht as [(cl & t & ->) _]. simpl. apply zget_zset_eq.
    rewrite (tw_key d) by auto with fence. apply probe_range. auto with fence.
  - intros i Hi. rewrite (told_fence _ _ _ _ Ht), fence_at_put_key.
    by rewrite fence_at_put_ne by congruence.
Qed.

(** ** The callback on a dma-fence *)

Lemma set_refs_live r f : no_refs r = false -> set_refs r f = f <| hf_refcount := refs_word r |>.
Proof. unfold set_refs. by intros ->. Qed.

(** [fence] is the dma-fence entry [f] stands for. *)
Definition stands_for (f : msm_hw_fence) (g : dma_fence) : Prop :=
  hf_ctx_id f = df_context g /\ hf_seq_id f = df_seqno g.

Lemma signal_by_fence_run {B} d h f fence g error rel (k : Z -> DRV B) d' :
  drv_ok d -> fence_at d h = Some f -> dd_dma_fences d !! fence = Some g -> stands_for f g ->
  _signal_fence_if_unsignaled h h error rel d = Done tt d' ->
  bind (hw_fence_signal_fence (Some fence) h error rel) k d = k 0 d'.
Proof.
  intros Hd E Eg [Hc Hq] Hr. pose proof (do_table _ Hd) as Hok.
  unfold hw_fence_signal_fence. rewrite bind_assoc, (bind_run _ _ d d d) by done.
  rewrite (get_hw_fence_in _ _ Hok (fence_at_in _ _ _ Hok E)).
  rewrite bind_assoc, (bind_run _ _ _ _ _ (get_fence_run _ _ _ E)).
  rewrite bind_assoc, bind_assoc, (bind_run _ _ _ _ _ (get_dma_fence_run _ _ _ Eg)).
  rewrite Hc, Hq, !Z.eqb_refl. erewrite bind_run by done. cbv beta iota delta [negb andb].
  by rewrite bind_assoc, (bind_run _ _ _ _ _ Hr).
Qed.

Lemma signal_callback_run d h f r fence g :
  drv_ok d -> fence_at d h = Some f -> dd_dma_fences d !! fence = Some g -> stands_for f g ->
  is_signaled_hw f = false -> 0 <= hf_parents_cnt f -> NoDup (parents_of f) -> h ∉ parents_of f ->
  refs_wf r -> hf_refcount f = refs_word r -> rf_dma r = true ->
  let error := u32 (df_error g) in
  exists d', msm_hw_fence_signal_callback fence h d = Done tt d' /\ drv_ok d' /\
    delivered d d' (signal_owed d f h error) /\
    fence_at d' h = Some (set_refs (r <| rf_dma := false |>) (signaled error f)) /\
    (forall p, p ∈ parents_of f -> fence_at d' p = parent_after error <$> fence_at d p) /\
    (forall x, x <> h -> x ∉ parents_of f -> fence_at d' x = fence_at d x).
Proof.
  intros Hd E Eg Hid Hs Hcnt Hnd Hh Hr Ew Hdma error.
  destruct (signal_fence_run d h f error false Hd E Hs Hcnt Hnd Hh)
    as (d1 & Hr1 & Hd1 & Hdl & E1 & Hp & Hx).
  unfold msm_hw_fence_signal_callback. rewrite (bind_run _ _ _ _ _ (get_dma_fence_run _ _ _ Eg)).
  rewrite (signal_by_fence_run d h f fence g _ _ _ d1) by done.
  change (negb (0 =? 0)) with false. cbv iota.
  pose proof (drop_dma_refs_run d1 h (signaled error f) r (do_table _ Hd1) E1 Hr Ew) as Hput.
  rewrite Hdma in Hput. rewrite (bind_run _ _ _ _ _ Hput).
  eexists. split; [done|]. split.
  - apply drv_ok_put; [done|]. erewrite <- clear_dma_refs by done. apply clear_ref_ok, signaled_ok.
    exact (entry_ok_at _ _ _ Hd E).
  - split; [by apply delivered_put|]. split; [by eapply fence_at_put_eq|]. split.
    + intros p Hin. rewrite fence_at_put_ne by congruence. by apply Hp.
    + intros x Hne Hin. rewrite fence_at_put_ne by congruence. by apply Hx.
Qed.

(** C38: when the kernel signals a dma-fence, its callback signals the unsignaled entry
    that stands for it with the fence's error and gives back the reference the
    dma-fence held; the parent join fences (distinct, and not the entry itself) are
    counted down and no other entry changes.  The rest of the driver - queues, events,
    dma-fences, table of keys - is as it was but for the deliveries the signal owes to
    waiting clients, each made once. *)
Theorem signal_callback_spec d h f r fence g :
  drv_ok d -> fence_at d h = Some f -> dd_dma_fences d !! fence = Some g -> stands_for f g ->
  is_signaled_hw f = false -> 0 <= hf_parents_cnt f -> NoDup (parents_of f) -> h ∉ parents_of f ->
  refs_wf r -> hf_refcount f = refs_word r -> rf_dma r = true ->
  let error := u32 (df_error g) in
  exists d', msm_hw_fence_signal_callback fence h d = Done tt d' /\ drv_ok d' /\
    delivered d d' (signal_owed d f h error) /\
    fence_at d' h = Some (set_refs (r <| rf_dma := false |>) (signaled error f)) /\
    (forall p, p ∈ parents_of f -> fence_at d' p = parent_after error <$> fence_at d p) /\
    (forall x, x <> h -> x ∉ parents_of f -> fence_at d' x = fence_at d x).
Proof. apply signal_callback_run. Qed.

Lemma add_dma_ref_neutral : lock_neutral add_dma_ref /\ forall f, lock_held (add_dma_ref (with_lock 1 f)).
Proof. by apply lock_neutral_intro. Qed.

Lemma add_dma_ref_ok f : entry_ok f -> entry_ok (add_dma_ref f).
Proof. done. Qed.

#[export] Hint Resolve add_dma_ref_ok : fence.

(** What [hw_fence_add_callback] does up to the kernel's answers. *)
Lemma add_callback_run d h f fence g :
  drv_ok d -> fence_at d h = Some f -> dd_dma_fences d !! fence = Some g ->
  env_alloc_fails (dd_env d) (dd_tick d) = false ->
  hw_fence_add_callback fence h d
  = (r <-- dma_fence_add_callback fence h;
     if negb (r =? 0) then
       signaled <-- dma_fence_is_signaled fence;
       if signaled : bool then msm_hw_fence_signal_callback fence h;;; ret 0
       else hw_fence_destroy_refcount h HW_FENCE_DMA_FENCE_REFCOUNT;;; ret r
     else ret r) (put_fence h (add_dma_ref f) (ticked d)).
Proof.
  intros Hd E Eg Ha. pose proof (do_table _ Hd) as Hok.
  unfold hw_fence_add_callback. rewrite (bind_run _ _ d d d) by done.
  rewrite (get_hw_fence_in _ _ Hok (fence_at_in _ _ _ Hok E)).
  rewrite (bind_run _ _ _ (Some (env_new_addr (dd_env d) (dd_tick d))) (ticked d)).
  2: { unfold kzalloc, bind, get, tick, put, ret. simpl. by rewrite Ha. }
  cbv beta iota.
  exact (locked_update_run (ticked d) h f add_dma_ref _ E (lock_free_at _ _ _ Hok E) add_dma_ref_neutral).
Qed.

Lemma lor_BIT x n : 0 <= n -> flag x (BIT n) = false -> Z.lor x (BIT n) = x + BIT n.
Proof.
  unfold flag. intros Hn H%negb_false_iff%Z.eqb_eq.
  by rewrite Z.add_nocarry_lxor, Z.lxor_lor.
Qed.

Lemma add_dma_ref_refs f r :
  refs_wf r -> hf_refcount f = refs_word r -> rf_dma r = false ->
  add_dma_ref f = f <| hf_refcount := refs_word (r <| rf_dma := true |>) |>.
Proof.
  intros Hr Ew Hd. unfold add_dma_ref, HW_FENCE_DMA_FENCE_REFCOUNT. simpl. rewrite Ew, lor_BIT; [|lia|].
  - unfold refs_word. rewrite Hd. simpl. f_equal. change (BIT 30) with (2 ^ 30). lia.
  - rewrite <- Hd. by apply refs_word_dma.
Qed.

Lemma set_refs_same r f : no_refs r = false -> hf_refcount f = refs_word r -> set_refs r f = f.
Proof. intros Hn Ew. rewrite set_refs_live by done. rewrite <- Ew. by destruct f. Qed.

(** Attaching a callback to a dma-fence, on an entry somebody else keeps
    alive.  If the kernel takes the callback, the entry has gained the reference of
    the dma-fence and the call returns 0.  If it refuses because the fence is
    signaled, the entry is signaled with the fence's error at once and the
    reference is given back; if it refuses and the fence is not signaled, the
    call fails and the entry is as it was. *)
Theorem add_callback_spec d h f r fence g :
  drv_ok d -> fence_at d h = Some f -> dd_dma_fences d !! fence = Some g -> stands_for f g ->
  is_signaled_hw f = false -> 0 <= hf_parents_cnt f -> NoDup (parents_of f) -> h ∉ parents_of f ->
  refs_wf r -> hf_refcount f = refs_word r -> rf_dma r = false -> no_refs r = false ->
  env_alloc_fails (dd_env d) (dd_tick d) = false ->
  let refused := env_dma_signaled (dd_env d) fence (S (dd_tick d)) in
  let signaled_now := env_dma_signaled (dd_env d) fence (S (S (dd_tick d))) in
  exists d', hw_fence_add_callback fence h d
             = Done (if refused && negb signaled_now then - ENOENT else 0) d' /\ drv_ok d' /\
    fence_at d' h = Some (if negb refused then f <| hf_refcount := refs_word (r <| rf_dma := true |>) |>
                          else if signaled_now then
                            signaled (u32 (df_error g)) f
                          else f) /\
    (forall x, x <> h -> x ∉ parents_of f -> fence_at d' x = fence_at d x).
Proof.
  intros Hd E Eg Hid Hs Hcnt Hnd Hh Hr Ew Hdma Hlive Ha refused now_signaled.
  rewrite (add_callback_run d h f fence g) by done. set (f1 := add_dma_ref f).
  set (d1 := put_fence h f1 (ticked d)).
  assert (fence_at d1 h = Some f1) as E1 by (exact (fence_at_put_eq (ticked d) h f1 f E)).
  assert (drv_ok d1) as Hd1.
  { apply drv_ok_put; [auto with fence|]. apply add_dma_ref_ok. exact (entry_ok_at _ _ _ Hd E). }
  set (r1 := r <| rf_dma := true |>).
  assert (f1 = f <| hf_refcount := refs_word r1 |>) as Ef1 by (by apply add_dma_ref_refs).
  assert (hf_refcount f1 = refs_word r1) as Ew1 by (by rewrite Ef1).
  assert (r1 <| rf_dma := false |> = r) as Er by (unfold r1; destruct r; simpl in *; by subst).
  assert (forall x, x <> h -> fence_at d1 x = fence_at d x) as Hfr
    by (intros; unfold d1; by rewrite fence_at_put_ne by congruence).
  assert (forall s d0, dd_env d0 = dd_env d -> env_dma_signaled (dd_env d) fence (dd_tick d0) = s ->
            dma_fence_is_signaled fence d0 = Done s (ticked d0)) as Hsg.
  { intros s d0 He <-.
    transitivity (Done (env_dma_signaled (dd_env d0) fence (dd_tick d0)) (ticked d0)); [done|].
    by rewrite He. }
  unfold dma_fence_add_callback. rewrite bind_assoc.
  rewrite (bind_run _ _ _ _ _ (Hsg refused d1 eq_refl eq_refl)).
  destruct refused; cbv beta iota delta [negb andb].
  2: { erewrite bind_run by done. eexists. split; [done|]. split; [exact (drv_ok_logged (EvDmaAddCb fence h) _ (drv_ok_ticked _ Hd1))|].
       split; [|intros x Hx _; exact (Hfr x Hx)]. change (fence_at d1 h = Some (f <| hf_refcount := refs_word r1 |>)).
       by rewrite <- Ef1. }
  erewrite bind_run by done. change (if - ENOENT =? 0 then false else true) with true. cbv iota.
  rewrite (bind_run _ _ _ _ _ (Hsg now_signaled (ticked d1) eq_refl eq_refl)).
  set (d2 := ticked (ticked d1)). assert (drv_ok d2) as Hd2 by (unfold d2; auto with fence).
  destruct now_signaled.
  - destruct (signal_callback_run d2 h f1 r1 fence g) as (d3 & Hr3 & Hd3 & _ & E3 & _ & Hx3);
      [done|done|done|done|done|done|done|done|done|done|done|].
    rewrite (bind_run _ _ _ _ _ Hr3). exists d3. split; [done|]. split; [done|]. split.
    + rewrite E3, Er, set_refs_live by done. f_equal. unfold signaled. rewrite Ef1, <- Ew. by destruct f.
    + intros x Hx Hin. rewrite Hx3 by done. by apply Hfr.
  - pose proof (drop_dma_refs_run d2 h f1 r1 (do_table _ Hd2) E1 Hr Ew1) as Hput.
    change (rf_dma r1) with true in Hput. cbv iota in Hput.
    rewrite (bind_run _ _ _ _ _ Hput), Er.
    assert (set_refs r f1 = f) as ->.
    { rewrite set_refs_live by done. rewrite Ef1, <- Ew. by destruct f. }
    eexists. split; [done|]. split; [apply drv_ok_put; [done|]; exact (entry_ok_at _ _ _ Hd E)|].
    split; [by eapply fence_at_put_eq|]. intros x Hx _. rewrite fence_at_put_ne by congruence. by apply Hfr.
Qed.

(** ** Restart of the fence controller *)

(** A fence nobody waits for in vain: signaled, or no longer in use. *)
Definition settled (f : msm_hw_fence) : Prop := is_signaled_hw f = true \/ hf_valid f = 0.

(** No entry is unsettled on the way from [d] to [d']. *)
Definition settles (d d' : driver_data) : Prop :=
  forall x f, fence_at d x = Some f -> settled f -> exists f', fence_at d' x = Some f' /\ settled f'.

Lemma settles_refl d : settles d d.
Proof. intros x f E Hs. eauto. Qed.

Lemma settles_trans d1 d2 d3 : settles d1 d2 -> settles d2 d3 -> settles d1 d3.
Proof. intros H1 H2 x f E Hs. destruct (H1 x f E Hs) as (f' & E' & Hs'). by eapply H2. Qed.

Lemma settled_free f : settled f -> settled (free_entry f).
Proof. intros Hs. unfold free_entry. case_match; [by right|done]. Qed.

Lemma settled_drop_fctl f : settled f -> settled (drop_fctl f).
Proof. intros Hs. unfold drop_fctl. case_match; [|done]. by apply settled_free. Qed.

Lemma settled_parent_after e f : settled f -> settled (parent_after e f).
Proof.
  intros Hs. unfold parent_after. assert (settled (child_done e f)) by exact Hs.
  case_match; [by apply settled_drop_fctl|done].
Qed.

Lemma settles_put d h f f' :
  fence_at d h = Some f -> (settled f -> settled f') -> settles d (put_fence h f' d).
Proof.
  intros E Hf x g Ex Hs. destruct (decide (x = h)) as [->|Hne].
  - exists f'. split; [by eapply fence_at_put_eq|]. apply Hf. by simplify_eq.
  - exists g. by rewrite fence_at_put_ne by congruence.
Qed.

Lemma settles_told d d' ev : told d d' ev -> settles d d'.
Proof. intros Ht x f E Hs. exists f. by rewrite (told_fence _ _ _ _ Ht). Qed.

Lemma signal_parents_settles d h hash error cnt :
  drv_ok d -> 0 <= h < dd_hw_fences_tbl_cnt d ->
  exists d' ev, _signal_parent_fences h cnt hash error d = Done tt d' /\ drv_ok d' /\
    evolves d d' ev /\ settles d d'.
Proof.
  intros Hd Hh. unfold _signal_parent_fences.
  set (n := if MSM_HW_FENCE_MAX_JOIN_PARENTS <? cnt then MSM_HW_FENCE_MAX_JOIN_PARENTS else cnt).
  assert (n <= 3) as Hn by (unfold n, MSM_HW_FENCE_MAX_JOIN_PARENTS; destruct (Z.ltb_spec 3 cnt); lia).
  assert (wp (for_n (Z.to_nat n) 0 (fun i _ => signal_parent h hash error i) tt)
    (fun _ d' => drv_ok d' /\ (exists ev, evolves d d' ev) /\ settles d d') d) as Hw.
  { apply (wp_for_n (fun i _ d' => drv_ok d' /\ (exists ev, evolves d d' ev) /\ settles d d')).
    - split; [done|]. split; [exists []; apply evolves_refl|apply settles_refl].
    - intros i [] d0 Hi (Hd0 & [ev Hev] & Hst).
      destruct (fence_at_is_Some d0 h) as [f E];
        [auto with fence|by rewrite (evolves_cnt _ _ _ Hev)|].
      destruct (do_entries _ Hd0 _ _ E) as (_ & Hpl & Hpos).
      destruct (zget_is_Some (hf_parent_list f) i) as [p Ep]; [lia|].
      assert (0 <= p) as Hp.
      { rewrite Forall_forall in Hpos. apply Hpos, list_elem_of_In. by eapply zget_elem. }
      destruct (signal_parent_any d0 h hash f error i p) as (d1 & ev1 & Hr & Hd1 & Hev1 & Hpa & Hx); try done.
      unfold wp. rewrite Hr. split; [done|]. split; [eexists; by eapply evolves_trans|].
      eapply settles_trans; [done|]. intros x fx Ex Hs. destruct (decide (x = p)) as [->|Hne].
      + rewrite Hpa, Ex. eexists. split; [done|]. by apply settled_parent_after.
      + rewrite Hx by done. eauto. }
  apply wp_inv in Hw as ([] & d' & Hr & Hd' & [ev Hev] & Hst). eauto 10.
Qed.

(** Signaling settles the fence and unsettles no other. *)
Lemma signal_fence_settles d h error rel :
  drv_ok d -> 0 <= h < dd_hw_fences_tbl_cnt d ->
  exists d' ev f', _signal_fence_if_unsignaled h h error rel d = Done tt d' /\ drv_ok d' /\
    evolves d d' ev /\ settles d d' /\ fence_at d' h = Some f' /\ settled f'.
Proof.
  intros Hd Hh. destruct (fence_at_is_Some d h) as [f E]; [auto with fence|done|].
  destruct (is_signaled_hw f) eqn:Hs.
  { exists d, [], f. rewrite (signal_twice_run _ _ _ _ _ _ Hd E Hs).
    split; [done|]. split; [done|]. split; [apply evolves_refl|]. split; [apply settles_refl|].
    split; [done|by left]. }
  rewrite (signal_once_run _ _ _ _ _ _ Hd E Hs).
  set (fs := signaled error f). set (d0 := put_fence h fs d).
  assert (drv_ok d0) as Hd0 by (unfold d0, fs; eauto with fence).
  assert (settled fs) as Hfs by (left; by apply flag_lor_same).
  assert (settles d d0) as Hst0 by (by eapply settles_put).
  destruct (signal_parents_settles d0 h h error (hf_parents_cnt f) Hd0 Hh)
    as (d1 & e1 & Hr1 & Hd1 & Hev1 & Hst1).
  rewrite (bind_run _ _ _ _ _ Hr1).
  destruct (Hst1 h fs) as (f1 & E1 & Hf1); [by eapply fence_at_put_eq|done|].
  destruct (signal_all_wait_clients_run d1 h f1 (hf_wait_client_mask f) h error Hd1 E1)
    as (d2 & Hr2 & Hd2 & Ht2).
  rewrite (bind_run _ _ _ _ _ Hr2). pose proof (told_ok_fence _ _ _ _ _ Ht2 E1) as E2.
  assert (evolves d d2 (([] ++ e1) ++ wait_notices d1 f1 (hf_wait_client_mask f) h error)) as Hev2.
  { eapply evolves_trans; [|apply told_evolves; [done|auto with fence]]. eapply evolves_trans; [apply evolves_put|done]. }
  assert (settles d d2) as Hst2.
  { eapply settles_trans; [done|]. eapply settles_trans; [done|]. by eapply settles_told. }
  destruct rel; [|by eauto 20].
  destruct (drop_fctl_run d2 h f1 unit (fun _ => ret tt) Hd2 E2) as [r Hr].
  rewrite Hr. eexists _, _, (drop_fctl f1). split; [done|]. split.
  { apply drv_ok_put; [done|]. apply drop_fctl_ok. exact (entry_ok_at _ _ _ Hd1 E1). }
  split; [eapply evolves_trans; [done|apply evolves_put]|]. split.
  { eapply settles_trans; [done|]. eapply settles_put; [done|]. apply settled_drop_fctl. }
  split; [by eapply fence_at_put_eq|by apply settled_drop_fctl].
Qed.

Lemma ssr_cleanup_entry_run d i :
  drv_ok d -> 0 <= i < dd_hw_fences_tbl_cnt d ->
  ssr_cleanup_entry HW_FENCE_FCTL_LOCK_VALUE i d
  = _signal_fence_if_unsignaled i i MSM_HW_FENCE_ERROR_RESET false d.
Proof.
  intros Hd Hi. destruct (fence_at_is_Some d i) as [f E]; [auto with fence|done|].
  unfold ssr_cleanup_entry. rewrite (bind_run _ _ _ _ _ (get_fence_run _ _ _ E)).
  pose proof (lock_free_at _ _ _ (do_table _ Hd) E) as Hl.
  destruct (Z.eqb_spec (hf_lock f) HW_FENCE_FCTL_LOCK_VALUE) as [Hv|].
  - unfold lock_free in Hl. rewrite Hv in Hl. done.
  - by erewrite bind_run by done.
Qed.

Lemma ssr_cleanup_run d :
  drv_ok d ->
  exists d' ev, hw_fence_ssr_cleanup_table (dd_hw_fences_tbl_cnt d) HW_FENCE_FCTL_LOCK_VALUE d = Done 0 d' /\
    drv_ok d' /\ evolves d d' ev /\
    forall i f, fence_at d' i = Some f -> settled f.
Proof.
  intros Hd. pose proof (tw_cnt _ (to_wf _ (do_table _ Hd))) as Hc.
  unfold hw_fence_ssr_cleanup_table.
  change ((HW_FENCE_FCTL_LOCK_VALUE =? 0) || (HW_FENCE_FCTL_LOCK_VALUE =? BIT 0)) with false. cbv iota.
  set (n := Z.to_nat (dd_hw_fences_tbl_cnt d)).
  assert (wp (for_n n 0 (fun i _ => ssr_cleanup_entry HW_FENCE_FCTL_LOCK_VALUE i) tt)
    (fun _ d' => drv_ok d' /\ (exists ev, evolves d d' ev) /\
       forall j, 0 <= j < 0 + Z.of_nat n -> exists f, fence_at d' j = Some f /\ settled f) d) as Hw.
  { apply (wp_for_n (fun i _ d' => drv_ok d' /\ (exists ev, evolves d d' ev) /\
       forall j, 0 <= j < i -> exists f, fence_at d' j = Some f /\ settled f)).
    - split; [done|]. split; [exists []; apply evolves_refl|lia].
    - intros i [] d0 Hi (Hd0 & [ev Hev] & Hst).
      assert (0 <= i < dd_hw_fences_tbl_cnt d0) as Hi0 by (rewrite (evolves_cnt _ _ _ Hev); lia).
      unfold wp. rewrite ssr_cleanup_entry_run by done.
      destruct (signal_fence_settles d0 i MSM_HW_FENCE_ERROR_RESET false Hd0 Hi0)
        as (d1 & ev1 & f' & Hr & Hd1 & Hev1 & Hst1 & E1 & Hf').
      rewrite Hr. split; [done|]. split; [eexists; by eapply evolves_trans|].
      intros j Hj. destruct (decide (j = i)) as [->|]; [eauto|].
      destruct (Hst j) as (f & Ef & Hsf); [lia|]. by eapply Hst1. }
  apply wp_inv in Hw as ([] & d' & Hr & Hd' & [ev Hev] & Hst).
  exists d', ev. rewrite (bind_run _ _ _ _ _ Hr). split; [done|]. split; [done|]. split; [done|].
  intros i f E. pose proof (fence_at_in _ _ _ (do_table _ Hd') E) as Hi.
  rewrite (evolves_cnt _ _ _ Hev) in Hi. destruct (Hst i) as (f' & E' & Hs); [lia|].
  by simplify_eq.
Qed.

(** C10: cleaning up after a restart of the fence controller.  When it held no
    lock, the sweep returns 0 with every lock free, and every fence is settled:
    signaled with the reset error if it was not signaled before, or freed.  No
    client waits for a fence the controller has lost. *)
Theorem ssr_cleanup_settles_all d :
  drv_ok d ->
  exists d' ev, hw_fence_ssr_cleanup_table (dd_hw_fences_tbl_cnt d) HW_FENCE_FCTL_LOCK_VALUE d = Done 0 d' /\
    drv_ok d' /\ evolves d d' ev /\
    forall i f, fence_at d' i = Some f -> settled f.
Proof. apply ssr_cleanup_run. Qed.

(** The controller stopped while it held the lock of entry [i] and the Rx-queue
    locks of the clients [ids]. *)
Definition in_flight (i : Z) (f : msm_hw_fence) (ids : list Z) (d : driver_data) : driver_data :=
  (put_fence i (f <| hf_lock := HW_FENCE_FCTL_LOCK_VALUE |>) d)
    <| dd_client_lock_tbl ::=
         fun t => foldr (fun id => zset (client_lock_idx id) HW_FENCE_FCTL_LOCK_VALUE) t ids |>.

(** Every client in [ids] can wait, and its lock word, in the table, was free. *)
Definition lock_owners (d : driver_data) (f : msm_hw_fence) (ids : list Z) : Prop :=
  Forall (fun id => 0 < id <= dd_rxq_clients_num d /\ flag (hf_wait_client_mask f) (BIT id) = true /\
                    zget (dd_client_lock_tbl d) (client_lock_idx id) = Some 0) ids.

Lemma zget_locks t ids j :
  zget (foldr (fun id => zset (client_lock_idx id) HW_FENCE_FCTL_LOCK_VALUE) t ids) j
  = if bool_decide (j ∈ client_lock_idx <$> ids) && bool_decide (0 <= j < zlen t)
    then Some HW_FENCE_FCTL_LOCK_VALUE else zget t j.
Proof.
  induction ids as [|id ids IH]; [by rewrite bool_decide_false by apply not_elem_of_nil|].
  assert (forall l, zlen (foldr (fun id => zset (client_lock_idx id) HW_FENCE_FCTL_LOCK_VALUE) t l) = zlen t)
    as Hlen by (intros l; induction l; simpl; [done|by rewrite zlen_zset]).
  simpl foldr. rewrite fmap_cons, zget_zset, Hlen, IH.
  destruct (decide (client_lock_idx id = j /\ 0 <= client_lock_idx id < zlen t)) as [[<- Hj]|Hj].
  - rewrite !bool_decide_true by (done || by left). done.
  - destruct (decide (client_lock_idx id = j)) as [Heq|Hne].
    + subst j. rewrite (bool_decide_false (0 <= client_lock_idx id < zlen t)) by tauto.
      by rewrite !andb_false_r.
    + assert (j ∈ client_lock_idx id :: (client_lock_idx <$> ids) <-> j ∈ client_lock_idx <$> ids) as Hiff.
      { rewrite elem_of_cons. split; [by intros [->|]|by right]. }
      by rewrite (bool_decide_ext _ _ Hiff).
Qed.

Lemma list_eq_zget {A} (l1 l2 : list A) : (forall i, zget l1 i = zget l2 i) -> l1 = l2.
Proof.
  intros H. apply list_eq. intros i. specialize (H (Z.of_nat i)). unfold zget in H.
  rewrite Nat2Z.id in H. assert ((0 <=? Z.of_nat i) = true) as Hi by (apply Z.leb_le; lia). by rewrite Hi in H.
Qed.

(** One turn: the word is the controller's, or it is left alone. *)
Lemma unlock_in_flight_client_run d mask id w :
  dd_has_soccp d = true -> flag mask (BIT id) = true ->
  zget (dd_client_lock_tbl d) (client_lock_idx id) = Some w ->
  unlock_in_flight_client mask HW_FENCE_FCTL_LOCK_VALUE id d
  = Done tt (if w =? HW_FENCE_FCTL_LOCK_VALUE
             then d <| dd_client_lock_tbl ::= zset (client_lock_idx id) 0 |> else d).
Proof.
  intros Hs Hm E. unfold unlock_in_flight_client. rewrite Hm. unfold bind, get. rewrite E.
  cbn [deref]. unfold ret at 1. destruct (Z.eqb_spec w HW_FENCE_FCTL_LOCK_VALUE) as [->|]; [|done].
  unfold global_atomic_store, read_lock, bind, get, ret. rewrite Hs, E.
  cbn [deref]. unfold ret, write_lock, modifyM.
  by replace (_unlock_soccp HW_FENCE_FCTL_LOCK_VALUE) with 0 by (vm_compute; reflexivity).
Qed.

Lemma client_lock_idx_small id : 0 < id < 2 ^ 29 -> client_lock_idx id = (id - 1) * 8.
Proof. intros. unfold client_lock_idx, HW_FENCE_LOCK_IDX_OFFSET. apply u32_id. unfold in_u32. lia. Qed.

(** Table of client locks of [d] with the words of [ids] taken by the controller. *)
Definition locks_taken (d : driver_data) (ids : list Z) : list Z :=
  foldr (fun id => zset (client_lock_idx id) HW_FENCE_FCTL_LOCK_VALUE) (dd_client_lock_tbl d) ids.

Definition with_locks (t : list Z) (d : driver_data) : driver_data := d <| dd_client_lock_tbl := t |>.

Lemma zlen_locks d ids : zlen (locks_taken d ids) = zlen (dd_client_lock_tbl d).
Proof. unfold locks_taken. induction ids; simpl; [done|by rewrite zlen_zset]. Qed.

(** Releasing client [i]'s word. *)
Lemma release_lock d ids i :
  Forall (fun id => zget (dd_client_lock_tbl d) (client_lock_idx id) = Some 0) ids ->
  (forall id, id ∈ ids -> client_lock_idx id = client_lock_idx i -> id = i) ->
  zset (client_lock_idx i) 0 (locks_taken d (filter (Z.le i) ids))
  = locks_taken d (filter (Z.le (i + 1)) ids) \/ i ∉ ids.
Proof.
  intros H0 Hinj. destruct (decide (i ∈ ids)) as [Hi|]; [left|by right].
  rewrite Forall_forall in H0. pose proof (H0 i Hi) as Ei. pose proof (zget_Some _ _ _ Ei) as Hb.
  apply list_eq_zget. intros j. rewrite zget_zset, zlen_locks. unfold locks_taken. rewrite !zget_locks.
  destruct (decide (client_lock_idx i = j /\ 0 <= client_lock_idx i < zlen (dd_client_lock_tbl d)))
    as [[<- _]|Hj].
  - rewrite bool_decide_false; [done|]. intros (x & Hx & [Hle Hin]%list_elem_of_filter)%list_elem_of_fmap.
    assert (x = i) as -> by (by apply Hinj). lia.
  - assert (j ∈ client_lock_idx <$> filter (Z.le i) ids <-> j ∈ client_lock_idx <$> filter (Z.le (i + 1)) ids)
      as Hiff; [|by rewrite (bool_decide_ext _ _ Hiff)].
    rewrite !list_elem_of_fmap. split; intros (x & -> & [Hle Hin]%list_elem_of_filter); exists x;
      (split; [done|]); apply list_elem_of_filter; (split; [|done]); [|lia].
    destruct (decide (x = i)) as [->|]; [|lia]. by destruct Hj.
Qed.

Lemma filter_le_all i (ids : list Z) : (forall id, id ∈ ids -> i <= id) -> filter (Z.le i) ids = ids.
Proof.
  induction ids as [|x ids IH]; intros H; [done|].
  rewrite filter_cons_True by (apply H; by left). f_equal. apply IH. intros. apply H. by right.
Qed.

Lemma filter_le_none i (ids : list Z) : (forall id, id ∈ ids -> id < i) -> filter (Z.le i) ids = [].
Proof.
  induction ids as [|x ids IH]; intros H; [done|].
  rewrite filter_cons_False by (specialize (H x ltac:(by left)); lia).
  apply IH. intros. apply H. by right.
Qed.

Lemma filter_le_skip i (ids : list Z) : i ∉ ids -> filter (Z.le i) ids = filter (Z.le (i + 1)) ids.
Proof.
  induction ids as [|x ids IH]; intros H; [done|]. apply not_elem_of_cons in H as [Hx H].
  rewrite !filter_cons, IH by done. destruct (decide (i <= x)), (decide (i + 1 <= x)); done || lia.
Qed.

(** The whole loop gives back exactly the words the controller held. *)
Lemma unlock_clients_run d f ids :
  dd_has_soccp d = true -> lock_owners d f ids -> dd_rxq_clients_num d < 2 ^ 29 ->
  flag (hf_wait_client_mask f) (BIT 0) = false ->
  (forall id, 0 < id <= dd_rxq_clients_num d -> is_Some (zget (dd_client_lock_tbl d) (client_lock_idx id))) ->
  (forall id w, zget (dd_client_lock_tbl d) (client_lock_idx id) = Some w -> lock_lo w = 0) ->
  for_n (Z.to_nat (dd_rxq_clients_num d + 1)) 0
    (fun i _ => unlock_in_flight_client (hf_wait_client_mask f) HW_FENCE_FCTL_LOCK_VALUE i) tt
    (with_locks (locks_taken d ids) d) = Done tt d.
Proof.
  intros Hs Hown Hrx H0 Hlk Hfree.
  assert (Forall (fun id => zget (dd_client_lock_tbl d) (client_lock_idx id) = Some 0) ids) as Hz
    by (eapply Forall_impl; [exact Hown|]; simpl; tauto).
  assert (forall id, id ∈ ids -> 0 < id <= dd_rxq_clients_num d /\ flag (hf_wait_client_mask f) (BIT id) = true)
    as Hin by (intros id Hid; unfold lock_owners in Hown; rewrite Forall_forall in Hown;
               destruct (Hown id Hid) as (? & ? & _); done).
  set (m := dd_rxq_clients_num d + 1).
  set (I := fun (i : Z) (_ : unit) d' => d' = with_locks (locks_taken d (filter (Z.le i) ids)) d).
  assert (wp (for_n (Z.to_nat m) 0 (fun i _ =>
      unlock_in_flight_client (hf_wait_client_mask f) HW_FENCE_FCTL_LOCK_VALUE i) tt)
    (I (0 + Z.of_nat (Z.to_nat m)))
    (with_locks (locks_taken d ids) d)) as Hw.
  { apply (wp_for_n I).
    - unfold I. do 2 f_equal. symmetry. apply filter_le_all. intros id Hid. destruct (Hin id Hid). lia.
    - unfold I. intros i [] d' Hi ->. set (di := with_locks (locks_taken d (filter (Z.le i) ids)) d).
      assert (i ∉ ids -> filter (Z.le i) ids = filter (Z.le (i + 1)) ids) as Hskip.
        by apply filter_le_skip.
      destruct (flag (hf_wait_client_mask f) (BIT i)) eqn:Hm.
      2: { unfold wp, unlock_in_flight_client. rewrite Hm. simpl. unfold di. rewrite Hskip; [done|].
           intros Hid. destruct (Hin i Hid) as [_ Hf]. congruence. }
      assert (0 < i) as Hi0 by (destruct (decide (i = 0)) as [->|]; [congruence|lia]).
      destruct (Hlk i) as [w0 Ew0]; [lia|].
      set (w := if bool_decide (i ∈ ids) then HW_FENCE_FCTL_LOCK_VALUE else w0).
      assert (forall id, id ∈ ids -> client_lock_idx id = client_lock_idx i -> id = i) as Hinj.
      { intros id Hid. destruct (Hin id Hid). rewrite !client_lock_idx_small by lia. lia. }
      assert (zget (dd_client_lock_tbl di) (client_lock_idx i) = Some w) as Ew.
      { unfold di, with_locks, locks_taken. simpl. rewrite zget_locks.
        pose proof (zget_Some _ _ _ Ew0) as Hb. rewrite (bool_decide_true (0 <= _ < _)) by done.
        rewrite andb_true_r. unfold w. case_bool_decide as Hc.
        - apply list_elem_of_fmap in Hc as (x & Hx & [_ Hxi]%list_elem_of_filter).
          assert (x = i) as -> by (by apply Hinj). by rewrite bool_decide_true.
        - rewrite bool_decide_false; [done|]. intros Hid. apply Hc, list_elem_of_fmap. exists i.
          split; [done|]. by apply list_elem_of_filter. }
      unfold wp. rewrite (unlock_in_flight_client_run di _ i w Hs Hm Ew). unfold w.
      case_bool_decide as Hc.
      + rewrite Z.eqb_refl. destruct (release_lock d ids i Hz Hinj) as [Hrel|]; [|done].
        unfold di, with_locks. simpl. by rewrite Hrel.
      + replace (w0 =? HW_FENCE_FCTL_LOCK_VALUE) with false; [unfold di; by rewrite Hskip|].
        symmetry. apply Z.eqb_neq. intros ->. by specialize (Hfree _ _ Ew0). }
  apply wp_inv in Hw as ([] & d' & Hr & HI). unfold I in HI. rewrite Hr, HI. f_equal.
  replace (filter _ ids) with (@nil Z); [by destruct d|]. symmetry.
  apply filter_le_none. intros id Hid. destruct (Hin id Hid). unfold m. lia.
Qed.

(** The entry the controller was working on.  If it stopped while it held the
    entry's lock and the Rx-queue locks of any clients that wait for the entry, the
    sweep releases exactly these locks and then treats the entry like any other:
    the turn is that of a controller that held nothing. *)
Theorem ssr_releases_in_flight d i f ids :
  drv_ok d -> dd_has_soccp d = true -> fence_at d i = Some f -> hf_lock f = 0 ->
  lock_owners d f ids -> dd_rxq_clients_num d < 2 ^ 29 -> flag (hf_wait_client_mask f) (BIT 0) = false ->
  (forall id, 0 < id <= dd_rxq_clients_num d -> is_Some (zget (dd_client_lock_tbl d) (client_lock_idx id))) ->
  ssr_cleanup_entry HW_FENCE_FCTL_LOCK_VALUE i (in_flight i f ids d)
  = _signal_fence_if_unsignaled i i MSM_HW_FENCE_ERROR_RESET false d.
Proof.
  intros Hd Hs E Hl Hown Hrx H0 Hlk. set (fl := f <| hf_lock := HW_FENCE_FCTL_LOCK_VALUE |>).
  set (dl := in_flight i f ids d).
  assert (fence_at dl i = Some fl) as El by (exact (fence_at_put_eq d i fl f E)).
  unfold ssr_cleanup_entry. rewrite (bind_run _ _ _ _ _ (get_fence_run _ _ _ El)).
  change (hf_lock fl =? HW_FENCE_FCTL_LOCK_VALUE) with true. cbv iota.
  assert (unlock_in_flight_fence i HW_FENCE_FCTL_LOCK_VALUE dl = Done tt d) as Hu;
    [|by rewrite (bind_run _ _ _ _ _ Hu)].
  unfold unlock_in_flight_fence. rewrite (bind_run _ _ _ _ _ (get_fence_run _ _ _ El)). cbv zeta.
  change (hf_wait_client_mask fl) with (hf_wait_client_mask f).
  set (d1 := with_locks (locks_taken d ids) d).
  assert (global_atomic_store (FenceLock i) false dl = Done tt d1) as Hun.
  { unfold global_atomic_store, read_lock, bind at 1, get.
    change (dd_has_soccp dl) with (dd_has_soccp d). rewrite Hs.
    rewrite bind_assoc, (bind_run _ _ _ _ _ (get_fence_run _ _ _ El)). unfold bind at 1, ret.
    unfold write_lock. rewrite (update_fence_run _ _ _ _ El).
    replace (_unlock_soccp (hf_lock fl)) with (hf_lock f) by (rewrite Hl; vm_compute; reflexivity).
    unfold dl, in_flight, put_fence. f_equal. simpl. rewrite zset_zset.
    change (fl <| hf_lock := hf_lock f |>) with (f <| hf_lock := hf_lock f |>).
    replace (zset i _ (dd_hw_fences_tbl d)) with (dd_hw_fences_tbl d); [done|].
    symmetry. apply zset_id. etransitivity; [exact E|]. f_equal. by destruct f. }
  rewrite (bind_run _ _ _ _ _ Hun), (bind_run _ _ d1 d1 d1) by done.
  change (dd_rxq_clients_num d1) with (dd_rxq_clients_num d).
  apply (unlock_clients_run d f ids); try done. intros id w. apply (do_locks _ Hd).
Qed.

(** The sweep can hang.  An unsignaled child with a lower handle than its
    parent is cleaned up first; if the controller stopped inside the parent join
    fence, the parent's lock is released only when the sweep gets there, and
    signaling the child waits for it for ever. *)
Theorem ssr_cleanup_can_hang d child parent p n :
  fence_at d 0 = Some child -> lock_free child -> is_signaled_hw child = false ->
  0 < hf_parents_cnt child -> zget (hf_parent_list child) 0 = Some p -> p <> 0 ->
  p < dd_hw_fence_table_entries d ->
  fence_at d p = Some parent -> hf_lock parent = HW_FENCE_FCTL_LOCK_VALUE -> 0 < n ->
  hw_fence_ssr_cleanup_table n HW_FENCE_FCTL_LOCK_VALUE d = Faulted Deadlock.
Proof.
  intros E Hl Hs Hcnt Ep Hne Hpn Efp Hlp Hn. unfold hw_fence_ssr_cleanup_table.
  change ((HW_FENCE_FCTL_LOCK_VALUE =? 0) || (HW_FENCE_FCTL_LOCK_VALUE =? BIT 0)) with false. cbv iota.
  destruct (Z.to_nat n) as [|n'] eqn:En; [lia|]. apply bind_faulted. simpl. apply bind_faulted.
  unfold ssr_cleanup_entry. rewrite (bind_run _ _ _ _ _ (get_fence_run _ _ _ E)).
  destruct (Z.eqb_spec (hf_lock child) HW_FENCE_FCTL_LOCK_VALUE) as [Hv|_];
    [by unfold lock_free in Hl; rewrite Hv in Hl|].
  erewrite bind_run by done. unfold _signal_fence_if_unsignaled.
  rewrite (bind_run _ _ _ _ _ (locked_at_run _ _ _ E Hl)).
  pose proof (locked_at_fence _ _ _ E) as E0. rewrite (bind_run _ _ _ _ _ (get_fence_run _ _ _ E0)).
  change (hf_flags (with_lock 1 child)) with (hf_flags child). fold (is_signaled_hw child). rewrite Hs.
  cbv zeta. rewrite (bind_run _ _ _ _ _ (update_fence_run _ _ _ _ E0)).
  assert (lock_neutral (signaled MSM_HW_FENCE_ERROR_RESET) /\
          forall f, lock_held (signaled MSM_HW_FENCE_ERROR_RESET (with_lock 1 f))) as [Hnl Hh]
    by (by apply lock_neutral_intro).
  rewrite (bind_run _ _ _ _ _ (unlock_after _ _ _ _ E Hl Hnl (Hh child))).
  set (cs := signaled _ child). set (d1 := put_fence 0 cs d). apply bind_faulted.
  unfold _signal_parent_fences. change (hf_parents_cnt (with_lock 1 child)) with (hf_parents_cnt child).
  set (m := if MSM_HW_FENCE_MAX_JOIN_PARENTS <? _ then _ else _).
  destruct (Z.to_nat m) as [|m'] eqn:Em.
  { unfold m, MSM_HW_FENCE_MAX_JOIN_PARENTS in Em. destruct (Z.ltb_spec 3 (hf_parents_cnt child)); lia. }
  simpl. apply bind_faulted. unfold signal_parent.
  assert (fence_at d1 0 = Some cs) as E1 by (by eapply fence_at_put_eq).
  rewrite (bind_run _ _ _ _ _ (get_fence_run _ _ _ E1)).
  change (hf_parent_list cs) with (hf_parent_list child). rewrite Ep.
  rewrite (bind_run _ _ d1 p d1), (bind_run _ _ d1 d1 d1) by done.
  unfold _get_hw_fence. change (dd_hw_fence_table_entries d1) with (dd_hw_fence_table_entries d).
  destruct (Z.leb_spec (dd_hw_fence_table_entries d) p); [lia|]. apply bind_faulted.
  unfold _update_and_get_join_fence_signal_status. apply bind_faulted. eapply lock_fence_blocked.
  - unfold d1. by rewrite fence_at_put_ne by congruence.
  - unfold lock_free. by rewrite Hlp.
Qed.

(** ** Cleaning up after a client *)

Definition waits_for (c : hw_fence_client) (f : msm_hw_fence) : bool :=
  flag (hf_wait_client_mask f) (BIT (cl_client_id c)).

(** The client no longer waits for the entry. *)
Definition unwait (c : hw_fence_client) (f : msm_hw_fence) : msm_hw_fence :=
  if waits_for c f then f <| hf_wait_client_mask ::= fun m => clear m (BIT (cl_client_id c)) |> else f.

Definition reset_error (reset_flags : Z) : Z :=
  if flag reset_flags MSM_HW_FENCE_RESET_WITHOUT_ERROR then 0 else MSM_HW_FENCE_ERROR_RESET.

Lemma unwait_neutral c : lock_neutral (unwait c) /\ forall f, lock_held (unwait c (with_lock 1 f)).
Proof.
  apply lock_neutral_intro; intros; unfold unwait.
  - by case_match.
  - change (waits_for c (f <| hf_lock := w |>)) with (waits_for c f). by case_match.
Qed.

Lemma unwait_ok c f : entry_ok f -> entry_ok (unwait c f).
Proof. intros. unfold unwait. by case_match. Qed.

(** The first half, under the entry's lock. *)
Lemma cleanup_fence_locked d ch c h f reset_flags :
  drv_ok d -> zget (dd_clients d) ch = Some (Some c) -> fence_at d h = Some f ->
  let keep := flag reset_flags MSM_HW_FENCE_RESET_WITHOUT_DESTROY in
  hw_fence_utils_cleanup_fence ch h reset_flags d =
    if waits_for c f && negb keep then
      (hw_fence_destroy_with_hash h;;; ret 0) (put_fence h (unwait c f) d)
    else if hf_fence_allocator f =? cl_client_id c then
      (_signal_fence_if_unsignaled h h (reset_error reset_flags) true;;;
       if keep then ret 0 else hw_fence_destroy_with_hash h) (put_fence h (unwait c f) d)
    else Done 0 (put_fence h (unwait c f) d).
Proof.
  intros Hd Ec E keep. pose proof (do_table _ Hd) as Hok. pose proof (lock_free_at _ _ _ Hok E) as Hl.
  unfold hw_fence_utils_cleanup_fence. rewrite (bind_run _ _ _ _ _ (get_client_run _ _ _ Ec)).
  cbv zeta. rewrite (bind_run _ _ _ _ _ (locked_at_run _ _ _ E Hl)).
  pose proof (locked_at_fence _ _ _ E) as E0. rewrite (bind_run _ _ _ _ _ (get_fence_run _ _ _ E0)).
  change (flag (hf_wait_client_mask (with_lock 1 f)) (BIT (cl_client_id c))) with (waits_for c f).
  destruct (unwait_neutral c) as [Hn Hh]. pose proof (unlock_after _ _ _ _ E Hl Hn (Hh f)) as Hun.
  set (d1 := put_fence h (unwait c (with_lock 1 f)) (locked_at h d)) in *.
  assert ((when waits_for c f do update_fence h (fun f => f <| hf_wait_client_mask ::=
             fun m => clear m (BIT (cl_client_id c)) |>)) (locked_at h d) = Done tt d1) as Hw.
  { unfold d1, unwait. change (waits_for c (with_lock 1 f)) with (waits_for c f).
    destruct (waits_for c f); [by rewrite (update_fence_run _ _ _ _ E0)|].
    unfold ret. f_equal. symmetry. by apply put_fence_id. }
  rewrite (bind_run _ _ _ _ _ Hw). set (fu := unwait c f) in *. set (du := put_fence h fu d) in *.
  assert (fence_at du h = Some fu) as Eu by (by eapply fence_at_put_eq).
  assert (lock_free fu) as Hfu by (unfold fu, unwait; by case_match).
  assert (table_ok du) as Hoku by (by apply table_ok_put).
  fold keep. destruct (waits_for c f && negb keep).
  - assert (d1 = locked_at h du) as ->.
    { unfold locked_at, d1. rewrite Eu. unfold du. rewrite put_put. unfold fu, locked_at. rewrite E, put_put.
      f_equal. unfold unwait. change (waits_for c (with_lock 1 f)) with (waits_for c f). by case_match. }
    unfold hw_fence_destroy_with_hash. rewrite bind_assoc, (bind_run _ _ du du du) by done.
    rewrite (get_hw_fence_in _ _ Hoku (fence_at_in _ _ _ Hoku Eu)).
    by rewrite bind_assoc, (bind_run _ _ _ _ _ (locked_at_run _ _ _ Eu Hfu)).
  - rewrite (bind_run _ _ _ _ _ Hun). rewrite (bind_run _ _ _ _ _ (get_fence_run _ _ _ Eu)).
    replace (hf_fence_allocator fu) with (hf_fence_allocator f) by (unfold fu, unwait; by case_match).
    by destruct (hf_fence_allocator f =? cl_client_id c).
Qed.

Lemma unwait_fields c f :
  hf_refcount (unwait c f) = hf_refcount f /\ hf_flags (unwait c f) = hf_flags f /\
  hf_parents_cnt (unwait c f) = hf_parents_cnt f /\ parents_of (unwait c f) = parents_of f.
Proof. unfold unwait. by case_match. Qed.

Lemma drop_fctl_refs f r :
  refs_wf r -> hf_refcount f = refs_word r -> rf_hlos r <> 0 ->
  drop_fctl f = f <| hf_refcount := refs_word (r <| rf_fctl := false |>) |>.
Proof.
  intros Hr Ew Hh. unfold drop_fctl. rewrite Ew, refs_word_fctl by done.
  destruct (rf_fctl r) eqn:Ef.
  - erewrite clear_fctl_refs by done. apply set_refs_live. unfold no_refs. simpl.
    destruct (Z.eqb_spec (rf_hlos r) 0); [done|]. by rewrite andb_false_r.
  - replace (r <| rf_fctl := false |>) with r by (destruct r; simpl in *; by subst).
    rewrite <- Ew. by destruct f.
Qed.

(** Cleaning one fence up for a client that is reset.  A client that waits for
    the fence stops waiting and, unless asked not to destroy, gives one reference
    back; otherwise the client that created the fence signals it, with an error
    unless asked not to, takes the controller's reference away and, unless asked
    not to destroy, gives one reference back; any other client leaves the fence
    as it is.  No fence outside its parent list changes. *)
Theorem cleanup_fence_spec d ch c h f r reset_flags :
  drv_ok d -> zget (dd_clients d) ch = Some (Some c) -> fence_at d h = Some f ->
  refs_wf r -> hf_refcount f = refs_word r -> rf_hlos r <> 0 ->
  flag (hf_flags f) MSM_HW_FENCE_FLAG_INTERNAL_OWNED = false ->
  is_signaled_hw f = false -> 0 <= hf_parents_cnt f -> NoDup (parents_of f) -> h ∉ parents_of f ->
  let keep := flag reset_flags MSM_HW_FENCE_RESET_WITHOUT_DESTROY in
  let f1 := unwait c f in
  exists d', hw_fence_utils_cleanup_fence ch h reset_flags d = Done 0 d' /\
    fence_at d' h = Some (
      if waits_for c f && negb keep then set_refs (r <| rf_hlos ::= Z.pred |>) f1
      else if hf_fence_allocator f =? cl_client_id c then
        let f2 := signaled (reset_error reset_flags) f1 in
        let r2 := r <| rf_fctl := false |> in
        set_refs (if keep then r2 else r2 <| rf_hlos ::= Z.pred |>) f2
      else f1) /\
    forall x, x <> h -> x ∉ parents_of f -> fence_at d' x = fence_at d x.
Proof.
  intros Hd Ec E Hr Ew Hh Hint Hs Hcnt Hnd Hni keep f1.
  rewrite (cleanup_fence_locked d ch c h f reset_flags Hd Ec E). fold keep f1.
  destruct (unwait_fields c f) as (Hrc & Hfl & Hpc & Hpar). fold f1 in Hrc, Hfl, Hpc, Hpar.
  set (d1 := put_fence h f1 d).
  assert (entry_ok f1) as Hf1 by (apply unwait_ok; by eapply entry_ok_at).
  assert (drv_ok d1) as Hd1 by (by apply drv_ok_put).
  assert (fence_at d1 h = Some f1) as E1 by (by eapply fence_at_put_eq).
  assert (forall x, x <> h -> fence_at d1 x = fence_at d x) as Hfr
    by (intros; by apply fence_at_put_ne).
  destruct (waits_for c f && negb keep).
  - assert (hw_fence_destroy_with_hash h d1 = Done 0 (put_fence h (set_refs (r <| rf_hlos ::= Z.pred |>) f1) d1))
      as Hdes.
    { rewrite (destroy_with_hash_refs_run d1 h f1 r) by (auto with fence || congruence).
      by destruct (Z.eqb_spec (rf_hlos r) 0). }
    rewrite (bind_run _ _ _ _ _ Hdes). eexists. split; [done|]. split; [by eapply fence_at_put_eq|].
    intros x Hx _. by rewrite fence_at_put_ne, Hfr by congruence.
  - destruct (hf_fence_allocator f =? cl_client_id c); [|exists d1; split; [done|]; split; [done|];
      intros x Hx _; by apply Hfr].
    set (err := reset_error reset_flags). cbv zeta.
    assert (NoDup (parents_of f1) /\ h ∉ parents_of f1) as [Hnd1 Hni1] by (by rewrite Hpar).
    destruct (signal_fence_run d1 h f1 err true Hd1 E1 ltac:(unfold is_signaled_hw; by rewrite Hfl)
                ltac:(by rewrite Hpc) Hnd1 Hni1)
      as (d3 & Hr3 & Hd3 & _ & E3 & _ & Hx3).
    rewrite (bind_run _ _ _ _ _ Hr3). set (f2 := signaled err f1) in *.
    set (r2 := r <| rf_fctl := false |>). set (f3 := f2 <| hf_refcount := refs_word r2 |>).
    assert (drop_fctl f2 = f3) as Ef3 by (apply (drop_fctl_refs f2 r); [done|by rewrite <- Ew|done]).
    rewrite Ef3 in E3. rewrite Hpar in Hx3.
    assert (forall r', set_refs r' f2 = set_refs r' f3) as Hset by (intros r'; unfold set_refs; by case_match).
    destruct keep.
    + exists d3. split; [done|]. split.
      * rewrite E3. f_equal. symmetry. apply set_refs_live. unfold no_refs. simpl.
        destruct (Z.eqb_spec (rf_hlos r) 0); [done|]. by rewrite andb_false_r.
      * intros x Hx Hin. rewrite Hx3 by done. by apply Hfr.
    + rewrite (destroy_with_hash_refs_run d3 h f3 r2); [|auto with fence|done|done|done|].
      2: { unfold f3, f2, signaled. simpl. rewrite Hfl. unfold flag in *.
           rewrite Z.land_lor_distr_l. change (Z.land MSM_HW_FENCE_FLAG_SIGNAL MSM_HW_FENCE_FLAG_INTERNAL_OWNED) with 0.
           by rewrite Z.lor_0_r. }
      change (rf_hlos r2) with (rf_hlos r). destruct (Z.eqb_spec (rf_hlos r) 0); [done|].
      eexists. split; [done|]. split.
      * rewrite Hset. by eapply fence_at_put_eq.
      * intros x Hx Hin. rewrite fence_at_put_ne, Hx3 by congruence. by apply Hfr.
Qed.

(** ** Every operation returns, with every lock free *)

Lemma evolves_dma d d' ev : evolves d d' ev -> dd_dma_fences d' = dd_dma_fences d.
Proof. by intros [(? & ? & ? & ->) _ _]. Qed.

Lemma get_hw_fence_out d h :
  table_ok d -> dd_hw_fences_tbl_cnt d <= h -> _get_hw_fence (dd_hw_fence_table_entries d) h = None.
Proof.
  intros Hok Hh. unfold _get_hw_fence. rewrite (tw_entries d) by auto with fence.
  by destruct (Z.leb_spec (dd_hw_fences_tbl_cnt d) h); [|lia].
Qed.

Lemma signal_ok d fence h error rel :
  drv_ok d -> 0 <= h -> (forall x, fence = Some x -> is_Some (dd_dma_fences d !! x)) ->
  wp (hw_fence_signal_fence fence h error rel)
    (fun _ d' => drv_ok d' /\ dd_dma_fences d' = dd_dma_fences d) d.
Proof.
  intros Hd Hh Hf. pose proof (do_table _ Hd) as Hok.
  unfold hw_fence_signal_fence. apply wp_bind, wp_get.
  destruct (decide (h < dd_hw_fences_tbl_cnt d)); [|by rewrite get_hw_fence_out by (done || lia)].
  rewrite (get_hw_fence_in d h) by (done || lia).
  destruct (fence_at_is_Some d h) as [f E]; [auto with fence|done|].
  apply wp_bind. eapply wp_done; [by apply get_fence_run|]. apply wp_bind.
  assert (forall b : bool, wp (if negb b then ret (- EINVAL)
            else _signal_fence_if_unsignaled h h error rel;;; ret 0)
            (fun _ d' => drv_ok d' /\ dd_dma_fences d' = dd_dma_fences d) d) as Hrest.
  { intros []; [|done]. destruct (signal_fence_ok d h error rel Hd) as (d' & ev & Hr & Hd' & Hev); [lia|].
    apply wp_bind. eapply wp_done; [done|]. split; [done|]. by eapply evolves_dma. }
  destruct fence as [x|]; [|apply wp_ret, (Hrest true)].
  destruct (Hf x eq_refl) as [g Eg]. apply wp_bind. eapply wp_done; [by apply get_dma_fence_run|].
  apply wp_ret, Hrest.
Qed.

Lemma callback_ok d fence h :
  drv_ok d -> 0 <= h -> is_Some (dd_dma_fences d !! fence) ->
  wp (msm_hw_fence_signal_callback fence h) (fun _ => drv_ok) d.
Proof.
  intros Hd Hh [g Eg]. apply wp_bind. eapply wp_done; [by apply get_dma_fence_run|].
  apply wp_bind. eapply wp_mono; [apply signal_ok; [done|done|intros x [= <-]; by rewrite Eg]|].
  intros r d' [Hd' _]. destruct (negb (r =? 0)); [done|]. apply wp_bind.
  eapply wp_mono; [by apply destroy_refcount_ok|done].
Qed.

Lemma add_callback_ok d fence h :
  drv_ok d -> 0 <= h -> is_Some (dd_dma_fences d !! fence) ->
  wp (hw_fence_add_callback fence h) (fun _ => drv_ok) d.
Proof.
  intros Hd Hh [g Eg]. pose proof (do_table _ Hd) as Hok.
  destruct (decide (h < dd_hw_fences_tbl_cnt d)).
  2: { unfold wp, hw_fence_add_callback. rewrite (bind_run _ _ d d d) by done.
       by rewrite get_hw_fence_out by (done || lia). }
  destruct (fence_at_is_Some d h) as [f E]; [auto with fence|done|].
  destruct (env_alloc_fails (dd_env d) (dd_tick d)) eqn:Ha.
  - unfold wp, hw_fence_add_callback. rewrite (bind_run _ _ d d d) by done.
    rewrite (get_hw_fence_in d h) by (done || lia).
    rewrite (bind_run _ _ _ None (ticked d)); [by apply drv_ok_ticked|].
    unfold kzalloc, bind, get, tick, put, ret. simpl. by rewrite Ha.
  - unfold wp. rewrite (add_callback_run d h f fence g) by done.
    set (d1 := put_fence h (add_dma_ref f) (ticked d)).
    assert (drv_ok d1) as Hd1 by (apply drv_ok_put; [auto with fence|apply add_dma_ref_ok; by eapply (entry_ok_at d)]).
    match goal with |- match ?m d1 with _ => _ end => change (wp m (fun _ => drv_ok) d1) end.
    apply wp_bind. unfold dma_fence_add_callback. apply wp_bind.
    eapply (wp_done _ _ _ _ (ticked d1)); [done|]. destruct (env_dma_signaled _ _ _).
    + apply wp_ret. change (negb (- ENOENT =? 0)) with true. cbv iota. apply wp_bind.
      eapply (wp_done _ _ _ _ (ticked (ticked d1))); [done|]. destruct (env_dma_signaled _ _ _).
      * apply wp_bind. eapply wp_mono; [apply callback_ok; [auto with fence|done|by eexists]|done].
      * apply wp_bind. eapply wp_mono; [apply destroy_refcount_ok; auto with fence|done].
    + apply wp_bind, wp_modifyM, wp_ret. exact (drv_ok_logged (EvDmaAddCb fence h) _ (drv_ok_ticked _ Hd1)).
Qed.

Lemma hsynx_ok d h h_synx wait_for :
  drv_ok d -> 0 <= h -> wp (hw_fence_update_hsynx h h_synx wait_for) (fun _ => drv_ok) d.
Proof.
  intros Hd Hh. pose proof (do_table _ Hd) as Hok. unfold hw_fence_update_hsynx.
  apply wp_bind, wp_get.
  destruct (decide (h < dd_hw_fences_tbl_cnt d)); [|by rewrite get_hw_fence_out by (done || lia)].
  rewrite (get_hw_fence_in d h) by (done || lia).
  destruct (fence_at_is_Some d h) as [f E]; [auto with fence|done|].
  pose proof (lock_free_at _ _ _ Hok E) as Hl. pose proof (locked_at_fence _ _ _ E) as E0.
  apply wp_bind. eapply wp_done; [by apply (locked_at_run d h f)|].
  apply wp_bind. eapply wp_done; [by apply get_fence_run|]. apply wp_bind.
  destruct (negb _ && _).
  { apply wp_ret, wp_bind. eapply wp_done; [by apply (locked_at_unlock d h f)|done]. }
  set (g := fun x : msm_hw_fence => x <| hf_h_synx := h_synx |>).
  apply wp_bind. eapply wp_done; [exact (update_fence_run _ _ _ g E0)|].
  assert (forall g' t, (lock_neutral g' /\ forall f, lock_held (g' (with_lock 1 f))) ->
            (forall f, entry_ok f -> entry_ok (g' f)) ->
            wp (global_atomic_store (FenceLock h) false;;; ret 0) (fun _ : Z => drv_ok)
              (at_tick t (put_fence h (g' (with_lock 1 f)) (locked_at h d)))) as Hun.
  { intros g' t [Hn Hhd] Hg'. apply wp_bind.
    change (at_tick t (put_fence h (g' (with_lock 1 f)) (locked_at h d)))
      with (put_fence h (g' (with_lock 1 f)) (at_tick t (locked_at h d))).
    assert (at_tick t (locked_at h d) = locked_at h (at_tick t d)) as ->.
    { unfold locked_at. change (fence_at (at_tick t d) h) with (fence_at d h). by rewrite E. }
    eapply wp_done; [by apply (unlock_after (at_tick t d) h f g')|]. apply wp_ret. apply drv_ok_put; [auto with fence|].
    apply Hg'. by eapply entry_ok_at. }
  apply wp_bind. destruct wait_for.
  - apply wp_bind. set (dg := put_fence h (g (with_lock 1 f)) (locked_at h d)).
    eapply (wp_done _ _ _ _ (ticked dg)); [done|].
    set (g2 := fun x : msm_hw_fence => x <| hf_fence_wait_time := u64 (env_qtime (dd_env dg) (dd_tick dg)) |>).
    assert (fence_at (ticked dg) h = Some (g (with_lock 1 f))) as Eg by (exact (fence_at_put_eq _ h _ _ E0)).
    eapply wp_done; [exact (update_fence_run _ _ _ g2 Eg)|]. apply wp_ret.
    replace (put_fence h (g2 (g (with_lock 1 f))) (ticked dg))
      with (at_tick (S (dd_tick dg)) (put_fence h (g2 (g (with_lock 1 f))) (locked_at h d))).
    2: { unfold dg, put_fence, at_tick, ticked. simpl. by rewrite zset_zset. }
    apply (Hun (fun x => g2 (g x))); [by apply lock_neutral_intro|done].
  - apply wp_ret, wp_ret. set (dg := put_fence h (g (with_lock 1 f)) (locked_at h d)).
    replace dg with (at_tick (dd_tick dg) dg) by (by destruct dg).
    apply (Hun g); [by apply lock_neutral_intro|done].
Qed.

Lemma cleanup_ok d ch c h reset_flags :
  drv_ok d -> zget (dd_clients d) ch = Some (Some c) -> 0 <= h < dd_hw_fences_tbl_cnt d ->
  wp (hw_fence_utils_cleanup_fence ch h reset_flags) (fun _ => drv_ok) d.
Proof.
  intros Hd Ec Hh. destruct (fence_at_is_Some d h) as [f E]; [auto with fence|done|].
  unfold wp. rewrite (cleanup_fence_locked d ch c h f reset_flags Hd Ec E).
  assert (drv_ok (put_fence h (unwait c f) d)) as Hd1
    by (apply drv_ok_put; [done|]; apply unwait_ok; by eapply entry_ok_at).
  destruct (waits_for c f && _).
  - match goal with |- match ?m ?d1 with _ => _ end => change (wp m (fun _ => drv_ok) d1) end.
    apply wp_bind. eapply wp_mono; [apply destroy_with_hash_ok; [done|lia]|done].
  - destruct (hf_fence_allocator f =? cl_client_id c); [|done].
    destruct (signal_fence_ok (put_fence h (unwait c f) d) h (reset_error reset_flags) true Hd1 Hh)
      as (d2 & ev & Hr & Hd2 & _).
    rewrite (bind_run _ _ _ _ _ Hr). destruct (flag _ _); [done|]. apply destroy_with_hash_ok; [done|lia].
Qed.

Lemma key_match_key d key context seqno h :
  key_match d key context seqno h = true -> zget (dd_hlos_key_tbl d) h = Some key.
Proof.
  unfold key_match. destruct (fence_at d h); [|done]. destruct (zget _ h) as [k|]; [|done].
  intros [_ Hk%Z.eqb_eq]%andb_true_iff. by subst.
Qed.

(** What a search returns: an entry of the table with its handle, whose key is the
    dma-fence unless the entry was just made. *)
Definition found_at (fence : Z) (out : option Z * bool * Z) (d : driver_data) : Prop :=
  forall h, out.1.1 = Some h -> out.2 = h /\ 0 <= h < dd_hw_fences_tbl_cnt d /\
    (out.1.2 = false -> zget (dd_hlos_key_tbl d) h = Some fence).

Lemma create_signaled_ok d client_id fence hash0 :
  drv_ok d -> is_Some (dd_dma_fences d !! fence) ->
  wp (_create_signaled_hw_fence client_id fence hash0)
     (fun out d' => drv_ok d' /\ found_at fence (out.1, true, out.2) d') d.
Proof.
  intros Hd [g Eg]. pose proof (do_table _ Hd) as Hok. pose proof (tw_cnt _ (to_wf _ Hok)) as Hc.
  unfold _create_signaled_hw_fence.
  apply wp_bind. eapply wp_done; [by apply get_dma_fence_run|]. apply wp_bind, wp_get, wp_bind.
  unfold wp at 1. rewrite create_range_run by (auto with fence || lia).
  destruct (first_hit _ _ _ _) as [k|]; [|by split; [apply drv_ok_ticked|]].
  set (h := probe d (df_context g) (df_seqno g) k).
  assert (0 <= h < dd_hw_fences_tbl_cnt d) as Hh by (apply probe_range; auto with fence).
  destruct (fence_at_is_Some d h) as [f E]; [auto with fence|done|].
  assert (forall d1, drv_ok d1 -> dd_dma_fences d1 = dd_dma_fences d ->
    dd_hw_fences_tbl_cnt d1 = dd_hw_fences_tbl_cnt d ->
    wp (g <-- get_dma_fence fence;
        _signal_fence_if_unsignaled h h (u32 (df_error g)) true;;; ret (Some h, h))
      (fun out d' => drv_ok d' /\ found_at fence (out.1, true, out.2) d') d1) as Hrest.
  { intros d1 Hd1 Edma Ecnt. apply wp_bind.
    eapply wp_done; [apply (get_dma_fence_run _ _ g); by rewrite Edma|].
    destruct (signal_fence_ok d1 h (u32 (df_error g)) true Hd1) as (d2 & ev & Hr & Hd2 & Hev); [lia|].
    apply wp_bind. eapply wp_done; [done|]. apply wp_ret. split; [done|]. intros x [= <-].
    split; [done|]. rewrite (evolves_cnt _ _ _ Hev). split; [lia|done]. }
  unfold create_result. rewrite ticked_fence, E.
  destruct (hf_valid f =? 0); [|destruct (_ && _); [|by split; [apply drv_ok_ticked|]]].
  - apply Hrest; [|done|done]. apply drv_ok_put_key, drv_ok_put; [auto with fence|].
    apply reserved_ok. by eapply (entry_ok_at d).
  - apply Hrest; [|done|done]. apply drv_ok_put; [auto with fence|].
    apply get_ref_ok. by eapply (entry_ok_at d).
Qed.

Lemma find_loop_ok fuel d client_id fence s hash create :
  drv_ok d -> is_Some (dd_dma_fences d !! fence) ->
  0 <= s -> dd_hw_fences_tbl_cnt d - s <= Z.of_nat fuel ->
  wp (find_with_dma_fence_loop fuel client_id fence s hash create)
     (fun out d' => drv_ok d' /\ found_at fence out d') d.
Proof.
  revert d s hash. induction fuel as [|fuel IH]; intros d s hash Hd [g Eg] Hs Hf.
  { unfold wp. rewrite find_loop_end by lia. done. }
  destruct (decide (s < dd_hw_fences_tbl_cnt d));
    [|unfold wp; by rewrite find_loop_end by lia].
  pose proof (do_table _ Hd) as Hok. unfold wp. rewrite (find_loop_step fuel d g) by done.
  assert (s < chunk_end d s <= dd_hw_fences_tbl_cnt d) as He
    by (unfold chunk_end, HW_FENCE_FIND_THRESHOLD; lia).
  assert (forall d1 hash, drv_ok d1 -> dd_dma_fences d1 = dd_dma_fences d ->
    dd_hw_fences_tbl_cnt d1 = dd_hw_fences_tbl_cnt d ->
    wp (signaled <-- dma_fence_is_signaled fence;
         if signaled : bool then
           if create then
             out <-- _create_signaled_hw_fence client_id fence hash; ret (out.1, true, out.2)
           else ret (None, true, hash)
         else find_with_dma_fence_loop fuel client_id fence (s + HW_FENCE_FIND_THRESHOLD) hash create)
      (fun out d' => drv_ok d' /\ found_at fence out d') d1) as Hrest.
  { intros d1 hash1 Hd1 Edma Ecnt. apply wp_bind. eapply (wp_done _ _ _ _ (ticked d1)); [done|].
    assert (is_Some (dd_dma_fences (ticked d1) !! fence)) as Hsome by (exists g; by simpl; rewrite Edma).
    destruct (env_dma_signaled _ _ _); [destruct create|].
    - apply wp_bind. eapply wp_mono; [by apply create_signaled_ok; [auto with fence|]|].
      intros out d2 [Hd2 Ho]. by apply wp_ret.
    - apply wp_ret. split; [auto with fence|done].
    - apply IH; [auto with fence|done|unfold HW_FENCE_FIND_THRESHOLD; lia|].
      simpl. rewrite Ecnt. unfold HW_FENCE_FIND_THRESHOLD. lia. }
  unfold bind at 1. rewrite find_range_run by (done || lia).
  destruct (first_hit _ _ _ _) as [k|] eqn:Ek.
  - cbv zeta. set (h := probe d (df_context g) (df_seqno g) k).
    destruct (fence_at_is_Some d h) as [f E]; [auto with fence|apply probe_range; auto with fence|].
    rewrite E. destruct (saturated f).
    + apply (Hrest (ticked d)); auto with fence.
    + split; [apply drv_ok_put; [auto with fence|]; apply get_ref_ok; by eapply (entry_ok_at d)|].
      intros x [= <-]. split; [done|].
      split; [exact (probe_range d (df_context g) (df_seqno g) k (to_wf _ Hok))|]. intros _.
      destruct (first_hit_Some _ _ _ _ _ Ek) as (_ & Hm & _). exact (key_match_key _ _ _ _ _ Hm).
  - apply (Hrest (ticked d)); auto with fence.
Qed.

Lemma find_with_dma_fence_ok d client_id fence hash0 create :
  drv_ok d -> is_Some (dd_dma_fences d !! fence) ->
  wp (hw_fence_find_with_dma_fence client_id fence hash0 create)
     (fun out d' => drv_ok d' /\ found_at fence out d') d.
Proof.
  intros Hd Hf. pose proof (tw_cnt _ (to_wf _ (do_table _ Hd))) as Hc.
  unfold hw_fence_find_with_dma_fence. apply wp_bind. destruct create.
  - apply wp_ret, wp_bind, wp_get. apply find_loop_ok; [done|done|lia|lia].
  - eapply (wp_done _ _ _ _ (ticked d)); [done|]. destruct (env_dma_signaled _ _ _); [by split; [apply drv_ok_ticked|]|].
    apply wp_bind, wp_get. apply find_loop_ok; [auto with fence|done|lia|simpl; lia].
Qed.

(** The dma-fences are the same. *)
Definition same_dma (d d' : driver_data) : Prop := dd_dma_fences d' = dd_dma_fences d.

Lemma destroy_refcount_dma d h ref :
  drv_ok d -> 0 <= h -> wp (hw_fence_destroy_refcount h ref) (fun _ d' => drv_ok d' /\ same_dma d d') d.
Proof.
  intros Hd Hh. pose proof (do_table _ Hd) as Hok. unfold wp.
  destruct (decide (h < dd_hw_fences_tbl_cnt d)).
  - destruct (fence_at_is_Some d h) as [f E]; [auto with fence|done|].
    rewrite (destroy_refcount_run _ _ _ _ (to_wf _ Hok) (to_unlocked _ Hok) E).
    destruct (flag _ _); [|done]. split; [eauto with fence|done].
  - by rewrite destroy_refcount_bad by (auto with fence || lia).
Qed.

(** A creation gives a handle; it leaves the dma-fences alone while the controller is up, as it
    is whenever the creation succeeds. *)
Lemma create_ok d c key context seqno hash0 :
  drv_ok d ->
  wp (hw_fence_create c key context seqno hash0)
     (fun out d' => drv_ok d' /\ 0 <= out.2 /\ (dd_fctl_ready d = true \/ out.1 = 0 -> same_dma d d')) d.
Proof.
  intros Hd. pose proof (do_table _ Hd) as Hok. unfold hw_fence_create.
  assert (forall h r d1, drv_ok d1 -> 0 <= h -> same_dma d d1 -> dd_fctl_ready d1 = dd_fctl_ready d ->
    wp (d <-- get;
        if negb (dd_fctl_ready d) then
          hw_fence_destroy_refcount h HW_FENCE_FCTL_REFCOUNT;;;
          hw_fence_destroy_with_hash h;;;
          ret (- EAGAIN, h)
        else if cl_skip_fctl_ref c then
          r <-- hw_fence_destroy_refcount h HW_FENCE_FCTL_REFCOUNT; ret (r, h)
        else ret (r, h))
      (fun out d' => drv_ok d' /\ 0 <= out.2 /\ (dd_fctl_ready d = true \/ out.1 = 0 -> same_dma d d')) d1) as Hrest.
  { intros h r d1 Hd1 Hh Hs Hr. apply wp_bind, wp_get. rewrite Hr.
    destruct (dd_fctl_ready d); cbn [negb]; [destruct (cl_skip_fctl_ref c); [|done]|].
    - apply wp_bind. eapply wp_mono; [by apply destroy_refcount_dma|]. intros r' d2 [Hd2 Hs2].
      apply wp_ret. unfold same_dma in *. split; [done|]. split; [done|]. congruence.
    - apply wp_bind. eapply wp_mono; [by apply destroy_refcount_ok|]. intros ? d2 Hd2.
      apply wp_bind. eapply wp_mono; [by apply destroy_with_hash_ok|]. intros ? d3 Hd3. apply wp_ret.
      split; [done|]. split; [done|]. by intros []. }
  apply wp_bind. unfold wp at 1. rewrite create_run by auto with fence.
  assert (forall k, 0 <= probe d context seqno k) as Hp by (intros; apply probe_range; auto with fence).
  destruct (find_step _ _ _ _) as [k|]; [|apply (Hrest _ (- EINVAL)); [auto with fence|apply Hp|done..]].
  destruct (fence_at_is_Some d (probe d context seqno k)) as [f E]; [auto with fence..|].
  unfold create_result. rewrite ticked_fence, E. change (flag 0 MSM_HW_FENCE_FLAG_CREATE_SIGNALED) with false.
  destruct (hf_valid f =? 0); [|apply (Hrest _ (- EINVAL)); [auto with fence|apply Hp|done..]].
  apply (Hrest _ 0); [|apply Hp|done..]. apply drv_ok_put_key, drv_ok_put; [auto with fence|].
  apply reserved_ok. by eapply (entry_ok_at d).
Qed.

(** The operations of this layer, by any client or callback. *)
Inductive fence_op :=
| FCreate (c : hw_fence_client) (key context seqno : Z)
| FSignal (fence : option Z) (hash error : Z) (release_ref : bool)
| FCallback (fence hash : Z)
| FAddCallback (fence hash : Z)
| FDestroy (key context seqno : Z)
| FDestroyHash (hash : Z)
| FHsynx (hash h_synx : Z) (wait_for : bool)
| FFind (client_id fence : Z) (create : bool)
| FCleanup (ch hash reset_flags : Z).

Definition run_fence_op (o : fence_op) : DRV unit :=
  match o with
  | FCreate c key context seqno => hw_fence_create c key context seqno 0;;; ret tt
  | FSignal fence hash error rel => hw_fence_signal_fence fence hash error rel;;; ret tt
  | FCallback fence hash => msm_hw_fence_signal_callback fence hash
  | FAddCallback fence hash => hw_fence_add_callback fence hash;;; ret tt
  | FDestroy key context seqno => hw_fence_destroy key context seqno;;; ret tt
  | FDestroyHash hash => hw_fence_destroy_with_hash hash;;; ret tt
  | FHsynx hash h_synx wait_for => hw_fence_update_hsynx hash h_synx wait_for;;; ret tt
  | FFind client_id fence create => hw_fence_find_with_dma_fence client_id fence 0 create;;; ret tt
  | FCleanup ch hash flags => hw_fence_utils_cleanup_fence ch hash flags;;; ret tt
  end.

(** What the callers guarantee: a handle is unsigned, a dma-fence pointer points to
    a fence that is still there, the reset loop stays in the table. *)
Definition fence_op_pre (d : driver_data) (o : fence_op) : Prop :=
  match o with
  | FCreate _ _ _ _ | FDestroy _ _ _ => True
  | FSignal fence hash _ _ =>
      0 <= hash /\ forall x, fence = Some x -> is_Some (dd_dma_fences d !! x)
  | FCallback fence hash | FAddCallback fence hash => 0 <= hash /\ is_Some (dd_dma_fences d !! fence)
  | FDestroyHash hash | FHsynx hash _ _ => 0 <= hash
  | FFind _ fence _ => is_Some (dd_dma_fences d !! fence)
  | FCleanup ch hash _ =>
      0 <= hash < dd_hw_fences_tbl_cnt d /\ exists c, zget (dd_clients d) ch = Some (Some c)
  end.

(** Whatever operation runs on a good driver state - any handle, in or out of
    the table, any parent list, any answer of the kernel - it returns without
    blocking on a lock or leaving an array, and the state is good again: every
    fence lock and every client lock is free, every queue is consistent. *)
Theorem fence_ops_keep_ok d o :
  drv_ok d -> fence_op_pre d o -> wp (run_fence_op o) (fun _ d' => drv_ok d') d.
Proof.
  assert (forall A (m : DRV A), wp m (fun _ => drv_ok) d -> wp (m;;; ret tt) (fun _ d' => drv_ok d') d) as Hseq
    by (intros; apply wp_bind; eapply wp_mono; [done|by intros]).
  intros Hd Hp. destruct o; simpl in *.
  - apply Hseq. eapply wp_mono; [by apply create_ok|]. by intros ? ? [].
  - destruct Hp. apply Hseq. eapply wp_mono; [by apply signal_ok|]. by intros ? ? [].
  - destruct Hp. by apply callback_ok.
  - destruct Hp. by apply Hseq, add_callback_ok.
  - by apply Hseq, destroy_ok.
  - by apply Hseq, destroy_with_hash_ok.
  - by apply Hseq, hsynx_ok.
  - apply Hseq. eapply wp_mono; [by apply find_with_dma_fence_ok|]. by intros ? ? [].
  - destruct Hp as [? [c Hc]]. by eapply Hseq, cleanup_ok.
Qed.

(** ** Witnesses *)

(** Two kernel fences: [77], which [child_h] of [joined8] backs, and [78], of which
    the table knows nothing. *)
Definition plain_dma (context seqno error : Z) : dma_fence :=
  mk_dma_fence context seqno 0 error None false false false None 0 0.

Definition kernel_fences : gmap Z dma_fence :=
  <[99 := plain_dma 7 5 (-2)]> {[78 := plain_dma 70 50 (-3)]}.

Definition kernel8 (signaled : bool) : driver_data :=
  joined8 <| dd_dma_fences := kernel_fences |>
          <| dd_env := quiet_env <| env_dma_signaled := fun _ _ => signaled |> |>.

Lemma kernel8_ok s : drv_ok (kernel8 s).
Proof.
  apply one_client_ok; [vm_compute; reflexivity|intros n; reflexivity|
                        vm_compute; reflexivity|vm_compute; reflexivity|].
  intros fence g. change (dd_dma_fences (kernel8 s)) with kernel_fences. unfold kernel_fences.
  intros [[_ <-]|[_ [_ <-]%lookup_singleton_Some]]%lookup_insert_Some; vm_compute; discriminate.
Qed.

Lemma kernel8_entries s h : fence_at (kernel8 s) h = fence_at joined8 h.
Proof. reflexivity. Qed.

Lemma kernel8_unsaturated s key c q : unsaturated (kernel8 s) key c q.
Proof.
  intros h f E _. rewrite kernel8_entries in E. apply zget_elem in E.
  assert (forallb (fun f => negb (saturated f)) (dd_hw_fences_tbl joined8) = true) as H
    by (vm_compute; reflexivity).
  rewrite forallb_forall in H. specialize (H _ E). by destruct (saturated f).
Qed.

Lemma find_with_dma_fence_witness :
  exists f t, fence_at (kernel8 false) child_h = Some f /\
    hw_fence_find_with_dma_fence 2 99 0 true (kernel8 false)
    = Done (Some child_h, false, child_h) (put_fence child_h (get_ref f) (at_tick t (kernel8 false))).
Proof.
  destruct (find_with_dma_fence_full_sweep (kernel8 false) (plain_dma 7 5 (-2)) 2 99 0 true (kernel8_ok false))
    as (out & d' & Hr & Hf).
  - reflexivity.
  - intros n. reflexivity.
  - apply kernel8_unsaturated.
  - assert (find_step (kernel8 false) (key_match (kernel8 false) 99 7 5) 7 5 = Some 0) as Ek
      by (vm_compute; reflexivity).
    change (df_context (plain_dma 7 5 (-2))) with 7 in Hf.
    change (df_seqno (plain_dma 7 5 (-2))) with 5 in Hf. rewrite Ek in Hf.
    change (probe (kernel8 false) 7 5 0) with child_h in Hf.
    destruct Hf as (f & t & E & Eo & Ed & _). exists f, t. split; [exact E|].
    rewrite Hr, Eo, Ed. reflexivity.
Defined.

Lemma find_signaled_witness :
  exists d' h, hw_fence_find_with_dma_fence 2 78 0 true (kernel8 true) = Done (Some h, true, h) d' /\ drv_ok d'.
Proof.
  destruct (find_signaled_dma_fence (kernel8 true) (plain_dma 70 50 (-3)) 2 78 0 0 blank_fence (kernel8_ok true))
    as (_ & d' & f' & Hr & Hd' & _).
  - reflexivity.
  - intros n. reflexivity.
  - vm_compute. reflexivity.
  - vm_compute. reflexivity.
  - vm_compute. reflexivity.
  - vm_compute. reflexivity.
  - eexists d', _. split; [exact Hr|exact Hd'].
Defined.

Definition child_f : msm_hw_fence := Eval vm_compute in entry_of joined8 child_h.

Lemma child_at s : fence_at (kernel8 s) child_h = Some child_f.
Proof. vm_compute. reflexivity. Qed.

Lemma child_parents : parents_of child_f = [join_h].
Proof. vm_compute. reflexivity. Qed.

(** The child fence once the callback is attached. *)
Definition attached8 : driver_data := put_fence child_h (add_dma_ref child_f) (kernel8 true).

Lemma attached8_ok : drv_ok attached8.
Proof.
  apply drv_ok_put; [apply kernel8_ok|]. apply add_dma_ref_ok.
  exact (entry_ok_at _ _ _ (kernel8_ok true) (child_at true)).
Qed.

Lemma signal_callback_witness :
  exists d', msm_hw_fence_signal_callback 99 child_h attached8 = Done tt d' /\
    fence_at d' child_h = Some (set_refs fresh_refs (signaled (2 ^ 32 - 2) (add_dma_ref child_f))).
Proof.
  destruct (signal_callback_spec attached8 child_h (add_dma_ref child_f) (mk_refs true true 1) 99
              (plain_dma 7 5 (-2)) attached8_ok) as (d' & Hr & _ & _ & E & _).
  - exact (fence_at_put_eq _ _ _ _ (child_at true)).
  - reflexivity.
  - split; reflexivity.
  - vm_compute. reflexivity.
  - vm_compute. discriminate.
  - change (parents_of (add_dma_ref child_f)) with (parents_of child_f). rewrite child_parents. apply NoDup_singleton.
  - change (parents_of (add_dma_ref child_f)) with (parents_of child_f). rewrite child_parents. exact child_not_parent.
  - split; [discriminate|reflexivity].
  - vm_compute. reflexivity.
  - reflexivity.
  - exists d'. split; [exact Hr|]. rewrite E. vm_compute. reflexivity.
Defined.

Lemma add_callback_witness :
  exists d', hw_fence_add_callback 99 child_h (kernel8 true) = Done 0 d' /\
    fence_at d' child_h = Some (signaled (2 ^ 32 - 2) child_f).
Proof.
  destruct (add_callback_spec (kernel8 true) child_h child_f fresh_refs 99 (plain_dma 7 5 (-2)) (kernel8_ok true))
    as (d' & Hr & _ & E & _).
  - apply child_at.
  - reflexivity.
  - split; reflexivity.
  - vm_compute. reflexivity.
  - vm_compute. discriminate.
  - rewrite child_parents. apply NoDup_singleton.
  - rewrite child_parents. exact child_not_parent.
  - split; [discriminate|reflexivity].
  - vm_compute. reflexivity.
  - reflexivity.
  - reflexivity.
  - reflexivity.
  - exists d'. split; [exact Hr|]. rewrite E. vm_compute. reflexivity.
Defined.

Lemma ssr_cleanup_witness :
  exists d', hw_fence_ssr_cleanup_table 8 HW_FENCE_FCTL_LOCK_VALUE joined8 = Done 0 d' /\
    forall i f, fence_at d' i = Some f -> settled f.
Proof.
  destruct (ssr_cleanup_settles_all joined8 joined8_ok) as (d' & ev & Hr & _ & _ & Hs).
  exists d'. split; [exact Hr|exact Hs].
Defined.

(** The controller stopped in [join_h] and in the Rx queue of client 2. *)
Lemma ssr_in_flight_witness :
  ssr_cleanup_entry HW_FENCE_FCTL_LOCK_VALUE join_h (in_flight join_h (entry_of joined8 join_h) [2] joined8)
  = _signal_fence_if_unsignaled join_h join_h MSM_HW_FENCE_ERROR_RESET false joined8.
Proof.
  apply (ssr_releases_in_flight joined8 join_h (entry_of joined8 join_h) [2] joined8_ok).
  - reflexivity.
  - vm_compute. reflexivity.
  - vm_compute. reflexivity.
  - repeat constructor; vm_compute; reflexivity || discriminate.
  - vm_compute. reflexivity.
  - vm_compute. reflexivity.
  - intros id Hid. change (dd_rxq_clients_num joined8) with 2 in Hid.
    assert (id = 1 \/ id = 2) as [-> | ->] by lia; eexists; vm_compute; reflexivity.
Defined.

(** A child in entry 0 of a join fence in entry 3, which the controller holds. *)
Definition stuck8 : driver_data :=
  Eval vm_compute in
  put_fence 3 (blank_fence <| hf_lock := HW_FENCE_FCTL_LOCK_VALUE |>)
    (put_fence 0 (blank_fence <| hf_parents_cnt := 1 |> <| hf_parent_list := [3; 0; 0] |>) table8).

Lemma ssr_hang_witness :
  hw_fence_ssr_cleanup_table 8 HW_FENCE_FCTL_LOCK_VALUE stuck8 = Faulted Deadlock.
Proof.
  eapply (ssr_cleanup_can_hang stuck8 _ _ 3 8); try (vm_compute; reflexivity). discriminate.
Defined.

Lemma cleanup_fence_witness :
  exists d', hw_fence_utils_cleanup_fence 2 child_h 0 (kernel8 true) = Done 0 d'.
Proof.
  destruct (cleanup_fence_spec (kernel8 true) 2 rx_client child_h child_f fresh_refs 0 (kernel8_ok true))
    as (d' & Hr & _).
  - reflexivity.
  - apply child_at.
  - split; [discriminate|reflexivity].
  - vm_compute. reflexivity.
  - discriminate.
  - vm_compute. reflexivity.
  - vm_compute. reflexivity.
  - vm_compute. discriminate.
  - rewrite child_parents. apply NoDup_singleton.
  - rewrite child_parents. exact child_not_parent.
  - exists d'. exact Hr.
Defined.

Lemma fence_ops_witness :
  wp (run_fence_op (FAddCallback 99 child_h)) (fun _ d' => drv_ok d') (kernel8 true).
Proof.
  apply (fence_ops_keep_ok (kernel8 true) (FAddCallback 99 child_h) (kernel8_ok true)).
  split; [vm_compute; discriminate|eexists; reflexivity].
Defined.
