(* ===== verification/HwFenceFrame.v ===== *)
(** * What operations leave alone

    A frame calculus for the driver: [steps m] says that wherever [m] returns, the
    driver has only grown older.  An entry that grows older is never waited for by
    more clients, stays settled once it is settled (signaled or free), stays free once
    it is free, keeps its creator as long as it is not freed, and gets no new key.
    [frames m] says less, of operations that create fences and waiters too ([stays]): no client
    changes its identity, and a dma-fence somebody holds is still there.  Signaling and dropping references only make the driver older, so
    the resets at the end of this file are followed entry by entry: what was cleaned up
    early in the sweep is still clean at its end.

    Neither needs an invariant or a case of the state: they are closed under the
    control structure of the code, and the hint database [steps] holds what is known
    of each operation. *)
From S2P Require Import Prelude HwFenceTypes HwFenceQueue HwFenceTable HwFenceRef.
From S2P Require Import HwFenceClient.
From S2P Require Import HwFenceSignal.
From S2P Require Import HwFenceCallback.
From stdpp Require Import gmap.
From Stdlib Require Import Lia.
#[local] Open Scope Z_scope.

(** * Properties *)

(** ** Growing older *)

Record ages (f f' : msm_hw_fence) : Prop := {
  ag_waits : forall b, Z.testbit (hf_wait_client_mask f') b = true ->
               Z.testbit (hf_wait_client_mask f) b = true;
  ag_settled : settled f -> settled f';
  ag_free : hf_valid f = 0 -> hf_valid f' = 0;
  ag_owner : hf_fence_allocator f' = hf_fence_allocator f \/ hf_valid f' = 0 }.

#[export] Instance ages_preorder : PreOrder ages.
Proof.
  split.
  - intros f. split; auto.
  - intros f g h [? ? Hf [Ho|Ho]] [? ? Hf' [Ho'|Ho']]; split; eauto; first [left; congruence|right; auto].
Qed.

Definition client_ids (d : driver_data) (ch : Z) : option (option Z) :=
  option_map (option_map cl_client_id) (zget (dd_clients d) ch).

(** Somebody keeps a reference to the dma-fence: no put is the last one, and
    its memory is not allocated again. *)
Definition held (env : environment) (fence : Z) : Prop :=
  forall n, env_last_put env fence n = false /\ env_new_addr env n <> fence.

(** What no call of a client changes: the answers of the environment, the size of the
    table, the numbering of clients, and whether the driver and the controller are up. *)
Definition fixed_of (d : driver_data) :=
  (dd_env d, dd_hw_fences_tbl_cnt d, dd_layout d, dd_resources_ready d, dd_fctl_ready d).

(** What every operation leaves alone, also one that creates fences or waiters: the
    identities of the clients, and dma-fences that are held stay what they are. *)
Record stays (d d' : driver_data) : Prop := {
  st_fixed : fixed_of d' = fixed_of d;
  st_clients : forall ch, client_ids d' ch = client_ids d ch;
  st_dma : forall fence g, held (dd_env d) fence -> dd_dma_fences d !! fence = Some g ->
    exists g', dd_dma_fences d' !! fence = Some g' /\ df_array g' = df_array g /\
      df_fences_null g' = df_fences_null g }.

Lemma st_env d d' : stays d d' -> dd_env d' = dd_env d.
Proof. intros H. exact (f_equal (fun x => x.1.1.1.1) (st_fixed _ _ H)). Qed.

Lemma st_cnt d d' : stays d d' -> dd_hw_fences_tbl_cnt d' = dd_hw_fences_tbl_cnt d.
Proof. intros H. exact (f_equal (fun x => x.1.1.1.2) (st_fixed _ _ H)). Qed.

#[export] Instance stays_preorder : PreOrder stays.
Proof.
  split.
  - intros d. split; eauto.
  - intros d1 d2 d3 S1 [E2 C2 D2]. pose proof (st_env _ _ S1) as Henv. destruct S1 as [E1 C1 D1].
    split; [by rewrite E2|intros ch; by rewrite C2, C1|]. intros fence g Hh Eg. destruct (D1 fence g Hh Eg) as (g1 & Eg1 & Ha & Hn).
    rewrite <- Henv in Hh. destruct (D2 fence g1 Hh Eg1) as (g2 & Eg2 & Ha2 & Hn2). exists g2. split; [done|].
    split; congruence.
Qed.

Record older (d d' : driver_data) : Prop := {
  ol_fences : forall h, option_Forall2 ages (fence_at d h) (fence_at d' h);
  ol_keys : forall h k, zget (dd_hlos_key_tbl d') h = Some k ->
              k = 0 \/ zget (dd_hlos_key_tbl d) h = Some k;
  ol_stays : stays d d' }.

#[export] Instance older_preorder : PreOrder older.
Proof.
  split.
  - intros d. split; [|by right|done]. intros h. destruct (fence_at d h); by constructor.
  - intros d1 d2 d3 [H1 K1 C1] [H2 K2 C2]. split; [| |by etransitivity].
    2: { intros h k Hk. destruct (K2 h k Hk) as [->|Hk2]; [by left|by apply K1]. }
    intros h. specialize (H1 h). specialize (H2 h). destruct H1 as [f1 f2 H|]; inversion H2; constructor.
    by etransitivity.
Qed.

Lemma older_at d d' h f : older d d' -> fence_at d h = Some f -> exists f', fence_at d' h = Some f' /\ ages f f'.
Proof. intros [H _ _] E. specialize (H h). rewrite E in H. inversion H; eauto. Qed.

Lemma older_from d d' h f' : older d d' -> fence_at d' h = Some f' -> exists f, fence_at d h = Some f /\ ages f f'.
Proof. intros [H _ _] E. specialize (H h). rewrite E in H. inversion H; eauto. Qed.

Lemma stays_client d d' ch c :
  stays d d' -> zget (dd_clients d) ch = Some (Some c) ->
  exists c', zget (dd_clients d') ch = Some (Some c') /\ cl_client_id c' = cl_client_id c.
Proof.
  intros [_ H _] E. specialize (H ch). unfold client_ids in H. rewrite E in H. cbn [option_map] in H.
  destruct (zget (dd_clients d') ch) as [[c'|]|]; [|done|done]. exists c'. split; [done|]. by injection H.
Qed.

Lemma older_client d d' ch c :
  older d d' -> zget (dd_clients d) ch = Some (Some c) ->
  exists c', zget (dd_clients d') ch = Some (Some c') /\ cl_client_id c' = cl_client_id c.
Proof. intros [_ _ H]. by apply stays_client. Qed.

Lemma older_len d d' : older d d' -> zlen (dd_hw_fences_tbl d) = zlen (dd_hw_fences_tbl d').
Proof.
  intros Hol. assert (forall x y, older x y \/ older y x -> ~ zlen (dd_hw_fences_tbl x) < zlen (dd_hw_fences_tbl y)).
  { intros x y Ho Hlt. pose proof (zlen_nonneg (dd_hw_fences_tbl x)).
    destruct (zget_is_Some (dd_hw_fences_tbl y) (zlen (dd_hw_fences_tbl x))) as [f E]; [lia|].
    assert (exists f', fence_at x (zlen (dd_hw_fences_tbl x)) = Some f') as [f' E'].
    { destruct Ho as [Ho|Ho]; [destruct (older_from _ _ _ _ Ho E) as (? & ? & _)|
                               destruct (older_at _ _ _ _ Ho E) as (? & ? & _)]; eauto. }
    pose proof (fence_at_bounds _ _ _ E'). lia. }
  pose proof (H d d'). pose proof (H d' d). assert (~ zlen (dd_hw_fences_tbl d) < zlen (dd_hw_fences_tbl d')) by auto.
  assert (~ zlen (dd_hw_fences_tbl d') < zlen (dd_hw_fences_tbl d)) by auto. lia.
Qed.

(** The parts of the state the relation does not look at. *)
Lemma older_dma d d' :
  dd_hw_fences_tbl d' = dd_hw_fences_tbl d -> dd_clients d' = dd_clients d -> fixed_of d' = fixed_of d ->
  dd_hlos_key_tbl d' = dd_hlos_key_tbl d ->
  (forall fence g, held (dd_env d) fence -> dd_dma_fences d !! fence = Some g ->
     exists g', dd_dma_fences d' !! fence = Some g' /\ df_array g' = df_array g /\
       df_fences_null g' = df_fences_null g) -> older d d'.
Proof.
  intros Ht Hc He Hk Hd. split; [|intros h k; rewrite Hk; by right|
    split; [done|intros ch; unfold client_ids; by rewrite Hc|done]].
  intros h. unfold fence_at. rewrite Ht. destruct (zget _ h); by constructor.
Qed.

Lemma older_eq d d' :
  dd_hw_fences_tbl d' = dd_hw_fences_tbl d -> dd_clients d' = dd_clients d ->
  fixed_of d' = fixed_of d -> dd_hlos_key_tbl d' = dd_hlos_key_tbl d ->
  dd_dma_fences d' = dd_dma_fences d -> older d d'.
Proof. intros Ht Hc He Hk Hd. apply older_dma; [done..|]. rewrite Hd. eauto. Qed.

(** A dma-fence is changed, but not which fences it is an array of. *)
Lemma older_update_dma d fence g g' :
  dd_dma_fences d !! fence = Some g -> df_array g' = df_array g -> df_fences_null g' = df_fences_null g ->
  older d (d <| dd_dma_fences ::= <[fence := g']> |>).
Proof.
  intros Eg Ha Hn. apply older_dma; [done..|]. intros x gx _ Ex. simpl. destruct (decide (fence = x)) as [<-|Hne].
  - rewrite lookup_insert_eq. exists g'. split; [done|]. split; congruence.
  - rewrite lookup_insert_ne by done. eauto.
Qed.

(** A dma-fence is gone or another one is in its place; nobody held it. *)
Lemma older_other_dma d fence d' :
  ~ held (dd_env d) fence -> dd_hw_fences_tbl d' = dd_hw_fences_tbl d -> dd_clients d' = dd_clients d ->
  fixed_of d' = fixed_of d -> dd_hlos_key_tbl d' = dd_hlos_key_tbl d ->
  (forall x, x <> fence -> dd_dma_fences d' !! x = dd_dma_fences d !! x) -> older d d'.
Proof.
  intros Hn Ht Hc He Hk Hd. apply older_dma; [done..|]. intros x g Hx Ex. rewrite Hd by congruence. eauto.
Qed.

Lemma older_put_fence d h f f' : fence_at d h = Some f -> ages f f' -> older d (put_fence h f' d).
Proof.
  intros E Ha. split; [|by right|by split; eauto]. intros x. destruct (decide (h = x)) as [<-|Hne].
  - rewrite E, (fence_at_put_eq _ _ _ _ E). by constructor.
  - rewrite fence_at_put_ne by done. destruct (fence_at d x); by constructor.
Qed.

Lemma older_set_client d ch c c' :
  zget (dd_clients d) ch = Some (Some c) -> cl_client_id c' = cl_client_id c ->
  older d (d <| dd_clients ::= zset ch (Some c') |>).
Proof.
  intros E Hid. split; [intros h; change (fence_at _ h) with (fence_at d h) at 2;
                        destruct (fence_at d h); by constructor|by right|].
  split; [done| |eauto].
  intros x. unfold client_ids. simpl. rewrite zget_zset. case_decide as Hx; [|done].
  destruct Hx as [<- _]. rewrite E. cbn [option_map]. by rewrite Hid.
Qed.

(** ** The calculus *)

Definition steps_in {St} (R : relation St) {A} (m : M St A) : Prop := forall s a s', m s = Done a s' -> R s s'.

Abbreviation steps := (steps_in older).
Abbreviation frames := (steps_in stays).

Create HintDb steps discriminated.

Section calculus.
Context {St : Type} {R : relation St} `{!PreOrder R}.

Lemma steps_ret {A} (a : A) : steps_in R (ret a).
Proof. by intros d x d' [= <- <-]. Qed.

Lemma steps_get : steps_in R get.
Proof. by intros d x d' [= <- <-]. Qed.

Lemma steps_raise {A} f : steps_in R (raise f : M St A).
Proof. by intros d x d'. Qed.

Lemma steps_deref {A} (o : option A) : steps_in R (deref o).
Proof. destruct o; [apply steps_ret|apply steps_raise]. Qed.

Lemma steps_bind {A B} (m : M St A) (k : A -> M St B) :
  steps_in R m -> (forall a, steps_in R (k a)) -> steps_in R (bind m k).
Proof.
  intros Hm Hk d b d'. unfold bind. destruct (m d) as [a d1|] eqn:E; [|done]. intros H.
  transitivity d1; [by eapply Hm|by eapply Hk].
Qed.

Lemma steps_modifyM g : (forall d, R d (g d)) -> steps_in R (modifyM g).
Proof. intros H d x d' [= <- <-]. apply H. Qed.

(** Writing a state derived from the one just read. *)
Lemma steps_get_put g {A} (k : St -> M St A) :
  (forall d, R d (g d)) -> (forall d, steps_in R (k d)) -> steps_in R (d <-- get; put (g d);;; k d).
Proof. intros Hg Hk d a d' H. transitivity (g d); [apply Hg|]. by eapply (Hk d). Qed.

Lemma steps_for_n {A} n lo (body : Z -> A -> M St A) acc :
  (forall i a, steps_in R (body i a)) -> steps_in R (for_n n lo body acc).
Proof.
  intros Hb. revert lo acc. induction n as [|n IH]; intros lo acc; [apply steps_ret|].
  apply steps_bind; [apply Hb|]. intros a. apply IH.
Qed.
End calculus.

Lemma frames_of_steps {A} (m : DRV A) : steps m -> frames m.
Proof. intros H d a d' Hr. eapply ol_stays, H, Hr. Qed.

Lemma steps_update_fence h g : (forall f, ages f (g f)) -> steps (update_fence h g).
Proof.
  intros Hg d [] d'. unfold update_fence, get_fence. unfold bind at 1 2, get. fold (fence_at d h).
  destruct (fence_at d h) as [f|] eqn:E; [|done]. intros [= <-]. by apply (older_put_fence d h f).
Qed.

(** Two writes one after the other, the entry is looked at behind the second only. *)
Lemma update_update {A} h g1 g2 (k : unit -> DRV A) d :
  (update_fence h g1;;; bind (update_fence h g2) k) d = bind (update_fence h (fun f => g2 (g1 f))) k d.
Proof.
  destruct (fence_at d h) as [f|] eqn:E.
  - rewrite (bind_run _ _ _ _ _ (update_fence_run _ _ _ g1 E)).
    rewrite (bind_run _ _ _ _ _ (update_fence_run _ _ _ g2 (fence_at_put_eq _ _ (g1 f) _ E))), put_put.
    by rewrite (bind_run _ _ _ _ _ (update_fence_run _ _ _ (fun f => g2 (g1 f)) E)).
  - assert (forall g, update_fence h g d = Faulted BadAccess) as Hf.
    { intros g. unfold update_fence, get_fence. unfold bind at 1 2, get. fold (fence_at d h). by rewrite E. }
    by rewrite !(bind_faulted _ _ _ _ (Hf _)).
Qed.

Lemma steps_update_update {A} h g1 g2 (k : unit -> DRV A) :
  (forall f, ages f (g2 (g1 f))) -> steps (k tt) -> steps (update_fence h g1;;; bind (update_fence h g2) k).
Proof.
  intros Hg Hk d a d'. rewrite update_update. apply steps_bind; [by apply steps_update_fence|]. by intros [].
Qed.

Lemma steps_update_client ch g : (forall c, cl_client_id (g c) = cl_client_id c) -> steps (update_client ch g).
Proof.
  intros Hg d [] d'. unfold update_client, get_client, get_client_opt, bind, get.
  destruct (zget (dd_clients d) ch) as [[c|]|] eqn:E; [|done|done]. intros [= <-].
  by apply (older_set_client d ch c).
Qed.

Lemma steps_get_set_client {A} ch (b : hw_fence_client -> bool) g (fl : fault) (k : unit -> DRV A) :
  (forall c, cl_client_id (g c) = cl_client_id c) -> steps (k tt) ->
  steps (bind (c <-- get_client ch; if b c then raise fl else set_client ch (g c)) k).
Proof.
  intros Hg Hk. apply steps_bind; [|by intros []]. intros d [] d'. unfold get_client, get_client_opt, bind, get.
  destruct (zget (dd_clients d) ch) as [[c|]|] eqn:E; [|done|done]. unfold deref, ret, raise, set_client, modifyM.
  destruct (b c); [done|]. intros [= <-]. by apply (older_set_client d ch c).
Qed.

#[export] Hint Extern 1 (steps_in _ (ret _)) => apply steps_ret : steps.
#[export] Hint Extern 1 (steps_in _ get) => apply steps_get : steps.
#[export] Hint Extern 1 (steps_in _ (raise _)) => apply steps_raise : steps.
#[export] Hint Extern 1 (steps_in _ (deref _)) => apply steps_deref : steps.
#[export] Hint Extern 1 (steps_in _ (for_n _ _ _ _)) => apply steps_for_n : steps.
#[export] Hint Extern 9 (frames _) => apply frames_of_steps : steps.

(** Writes that do not touch what the relation looks at. *)
#[export] Hint Extern 1 (steps (update_fence _ _)) =>
  apply steps_update_fence; intros ?; solve [split; auto] : steps.
#[export] Hint Extern 1 (steps (update_client _ _)) => apply steps_update_client; reflexivity : steps.

(** Follows the control structure and closes the leaves. *)
Ltac steps_tac :=
  repeat first
    [ progress cbv beta iota zeta
    | apply steps_ret | apply steps_get | apply steps_raise | apply steps_deref
    | solve [auto with steps nocore]
    | apply steps_bind; [|intros ?]
    | apply steps_for_n; intros ? ?
    | match goal with |- steps_in _ (if ?b then _ else _) => destruct b end
    | match goal with |- steps_in _ (match ?x with _ => _ end) => destruct x end ].

(** ** The operations *)

Lemma ages_lock f g : g = f <| hf_lock := hf_lock g |> -> ages f g.
Proof. intros ->. split; auto. Qed.

Lemma steps_log_event e : steps (log_event e).
Proof. apply steps_modifyM. intros d. by apply older_eq. Qed.

Lemma steps_tick : steps tick.
Proof.
  apply (steps_get_put (fun d => d <| dd_tick := S (dd_tick d) |>)); intros d; [by apply older_eq|apply steps_ret].
Qed.

#[export] Hint Resolve steps_log_event steps_tick : steps.

Lemma steps_get_client_opt id : steps (get_client_opt id).
Proof. unfold get_client_opt. steps_tac. Qed.

Lemma steps_get_client id : steps (get_client id).
Proof. unfold get_client, get_client_opt. steps_tac. Qed.

Lemma steps_get_fence h : steps (get_fence h).
Proof. unfold get_fence. steps_tac. Qed.

Lemma steps_get_dma_fence h : steps (get_dma_fence h).
Proof. unfold get_dma_fence. steps_tac. Qed.

#[export] Hint Resolve steps_get_client_opt steps_get_client steps_get_fence steps_get_dma_fence : steps.

Lemma steps_answer {A} (g : environment -> nat -> A) : steps (d <-- get; n <-- tick; ret (g (dd_env d) n)).
Proof. steps_tac. Qed.

Lemma steps_uninit_bool : steps uninit_bool.
Proof. unfold uninit_bool. steps_tac. Qed.

Lemma steps_dma_fence_is_signaled f : steps (dma_fence_is_signaled f).
Proof. unfold dma_fence_is_signaled. steps_tac. Qed.

Lemma steps_trigger a b c : steps (hw_fence_ipcc_trigger_signal a b c).
Proof. unfold hw_fence_ipcc_trigger_signal. steps_tac. Qed.

Lemma steps_update_dma_fence f g :
  (forall x, df_array (g x) = df_array x /\ df_fences_null (g x) = df_fences_null x) -> steps (update_dma_fence f g).
Proof.
  intros Hg d [] d'. unfold update_dma_fence, get_dma_fence, bind at 1 2, get.
  destruct (dd_dma_fences d !! f) as [x|] eqn:E; [|done]. intros [= <-]. by apply (older_update_dma d f x); [|apply Hg..].
Qed.

#[export] Hint Resolve steps_uninit_bool steps_dma_fence_is_signaled steps_trigger : steps.
#[export] Hint Extern 1 (steps (update_dma_fence _ _)) => apply steps_update_dma_fence; by intros ? : steps.

Lemma steps_write_lock l w : steps (write_lock l w).
Proof.
  destruct l; [apply steps_update_fence; intros f; by apply ages_lock|].
  apply steps_modifyM. intros d. by apply older_eq.
Qed.

Lemma steps_read_lock l : steps (read_lock l).
Proof. unfold read_lock. steps_tac. Qed.

#[export] Hint Resolve steps_write_lock steps_read_lock : steps.

Lemma steps_wake_cnt : steps (modifyM (fun d => d <| dd_lock_wake_cnt ::= fun c => u64 (c + 1) |>)).
Proof. apply steps_modifyM. intros d. by apply older_eq. Qed.

#[export] Hint Resolve steps_wake_cnt : steps.

Lemma steps_lock l b : steps (global_atomic_store l b).
Proof. unfold global_atomic_store. steps_tac. Qed.

#[export] Hint Resolve steps_lock : steps.

(** *** Queues and clients *)

Lemma steps_on_queue {A} q (m : M hw_fence_queue A) : steps (on_queue q m).
Proof.
  intros d a d'. unfold on_queue, get_queue, set_queue. destruct q as [i|ch i].
  - unfold bind at 1 2, get. destruct (zget (dd_ctrl_queues d) i) as [x|]; [|done]. unfold deref, ret.
    destruct (m x) as [b x'|]; [|done]. intros [= _ <-]. by apply older_eq.
  - unfold get_client, get_client_opt. unfold bind, get.
    destruct (zget (dd_clients d) ch) as [[c|]|] eqn:E; [|done|done]. unfold deref, ret.
    destruct (zget (cl_queues c) i) as [x|]; [|done]. unfold ret. destruct (m x) as [b x'|]; [|done].
    rewrite E. unfold set_client, modifyM. intros [= _ <-]. by apply (older_set_client d ch c).
Qed.

Lemma steps_get_queue q : steps (get_queue q).
Proof. unfold get_queue. steps_tac. Qed.

#[export] Hint Resolve steps_on_queue steps_get_queue : steps.

Lemma steps_update_queue_helper id q ty a b c d e f g : steps (hw_fence_update_queue_helper id q ty a b c d e f g).
Proof. unfold hw_fence_update_queue_helper. steps_tac. Qed.

#[export] Hint Resolve steps_update_queue_helper : steps.

Lemma steps_update_queue ch a b c d e f g : steps (hw_fence_update_queue ch a b c d e f g).
Proof. unfold hw_fence_update_queue. steps_tac. Qed.

Lemma steps_reset_queues ch : steps (hw_fence_utils_reset_queues ch).
Proof. unfold hw_fence_utils_reset_queues. steps_tac. Qed.

#[export] Hint Resolve steps_update_queue steps_reset_queues : steps.

Lemma steps_fence_error_cb ch a b c d e : steps (hw_fence_utils_fence_error_cb ch a b c d e).
Proof.
  unfold hw_fence_utils_fence_error_cb, lock_error_cb, unlock_error_cb.
  apply (steps_get_set_client ch cl_error_cb_lock (fun c => c <| cl_error_cb_lock := true |>)); [done|].
  steps_tac.
Qed.

Lemma steps_loopback id : steps (process_validation_client_loopback id).
Proof. unfold process_validation_client_loopback. steps_tac. Qed.

#[export] Hint Resolve steps_fence_error_cb steps_loopback : steps.

Lemma steps_fence_ctl_signal ch h hash fl cd e b : steps (_fence_ctl_signal ch h hash fl cd e b).
Proof. unfold _fence_ctl_signal. steps_tac. Qed.

#[export] Hint Resolve steps_fence_ctl_signal : steps.

Lemma steps_signal_wait_client h m hash e i cd : steps (signal_wait_client h m hash e i cd).
Proof. unfold signal_wait_client. steps_tac. Qed.

#[export] Hint Resolve steps_signal_wait_client : steps.

Lemma steps_signal_all_wait_clients h m hash e : steps (_signal_all_wait_clients h m hash e).
Proof. unfold _signal_all_wait_clients. steps_tac. Qed.

#[export] Hint Resolve steps_signal_all_wait_clients : steps.

(** *** Entries *)

Lemma ages_cleaned f : ages f ((_cleanup_hw_fence f) <| hf_valid := 0 |>).
Proof.
  split; [|by right|done|by right]. intros b Hb. change (Z.testbit 0 b = true) in Hb.
  by rewrite Z.testbit_0_l in Hb.
Qed.

Lemma ages_signaled e f : ages f (signaled e f).
Proof.
  split; [done| |done|by left]. intros _. left. unfold is_signaled_hw. apply flag_lor_same. done.
Qed.

Lemma ages_unwait f m : ages f (f <| hf_wait_client_mask ::= fun x => clear x m |>).
Proof.
  split; [|done|done|by left]. intros b. change (Z.testbit (Z.ldiff (hf_wait_client_mask f) m) b = true -> Z.testbit (hf_wait_client_mask f) b = true).
  rewrite Z.ldiff_spec. by intros [? _]%andb_true_iff.
Qed.

Lemma ages_disown f : ages f (disown f).
Proof.
  split; [done| |done|by left]. intros [H|H]; [left|by right]. unfold is_signaled_hw, disown in *.
  change (flag (clear (hf_flags f) MSM_HW_FENCE_FLAG_INTERNAL_OWNED) MSM_HW_FENCE_FLAG_SIGNAL = true).
  unfold MSM_HW_FENCE_FLAG_SIGNAL in *. rewrite flag_BIT in * by lia. unfold clear. rewrite Z.ldiff_spec, H.
  unfold MSM_HW_FENCE_FLAG_INTERNAL_OWNED. rewrite testbit_BIT by lia. done.
Qed.

Lemma steps_cleaned h :
  steps (update_fence h _cleanup_hw_fence;;; update_fence h (fun f => f <| hf_valid := 0 |>)).
Proof.
  intros d [] d' H. eapply (steps_update_update h _cleanup_hw_fence _ ret ages_cleaned (steps_ret tt) d tt d').
  rewrite <- H. unfold bind. destruct (update_fence h _cleanup_hw_fence d) as [? d1|]; [|done].
  by destruct (update_fence h _ d1) as [[] ?|].
Qed.

Lemma steps_cleaned_then {A} h (k : unit -> DRV A) :
  steps (k tt) ->
  steps (update_fence h _cleanup_hw_fence;;; bind (update_fence h (fun f => f <| hf_valid := 0 |>)) k).
Proof. apply steps_update_update, ages_cleaned. Qed.

Lemma steps_clear_hlos_key h : steps (set_hlos_key h 0).
Proof.
  apply steps_modifyM. intros d. split; [intros i; change (fence_at _ i) with (fence_at d i) at 2;
    destruct (fence_at d i); by constructor| |by split; eauto].
  intros i k. simpl. rewrite zget_zset. case_decide; [intros [= <-]; by left|by right].
Qed.

Lemma steps_signaled h e : steps (update_fence h (signaled e)).
Proof. apply steps_update_fence, ages_signaled. Qed.

#[export] Hint Resolve steps_cleaned steps_clear_hlos_key steps_signaled : steps.

Lemma steps_destroy_refcount h r : steps (hw_fence_destroy_refcount h r).
Proof. unfold hw_fence_destroy_refcount. steps_tac. Qed.

Lemma steps_unreserve h : steps (_unreserve_hw_fence h).
Proof.
  unfold _unreserve_hw_fence. apply steps_bind; [auto with steps|]. intros f.
  destruct (flag _ _); [|apply steps_ret]. apply steps_bind; [auto with steps|]. intros _.
  apply steps_bind; [auto with steps|]. intros f'. destruct (hf_refcount f' =? 0).
  - apply steps_bind; [|steps_tac]. apply steps_cleaned_then. auto with steps.
  - steps_tac.
Qed.

#[export] Hint Resolve steps_destroy_refcount steps_unreserve : steps.

(** *** Signaling *)

Lemma steps_update_join h e : steps (_update_and_get_join_fence_signal_status h e).
Proof. unfold _update_and_get_join_fence_signal_status. steps_tac. Qed.

#[export] Hint Resolve steps_update_join : steps.

Lemma steps_signal_parent h hash e i : steps (signal_parent h hash e i).
Proof. unfold signal_parent. steps_tac. Qed.

#[export] Hint Resolve steps_signal_parent : steps.

Lemma steps_signal_parents h n hash e : steps (_signal_parent_fences h n hash e).
Proof. unfold _signal_parent_fences. steps_tac. Qed.

#[export] Hint Resolve steps_signal_parents : steps.

Lemma steps_signal_fence h hash e b : steps (_signal_fence_if_unsignaled h hash e b).
Proof. unfold _signal_fence_if_unsignaled. steps_tac. Qed.

#[export] Hint Resolve steps_signal_fence : steps.

(** *** Lookups *)

Lemma steps_lookup_next h s i m : steps (_hw_fence_lookup_next h s i m).
Proof. unfold _hw_fence_lookup_next. steps_tac. Qed.

#[export] Hint Resolve steps_lookup_next : steps.

Lemma steps_iterator_init c s a b : steps (_hw_fence_iterator_init c s a b).
Proof. unfold _hw_fence_iterator_init. steps_tac. Qed.

Lemma steps_iterator_next h c e b : steps (_hw_fence_iterator_next h c e b).
Proof. unfold _hw_fence_iterator_next. steps_tac. Qed.

#[export] Hint Resolve steps_iterator_init steps_iterator_next : steps.

Lemma steps_hw_fence_loop n body h i e b r :
  (forall h, steps (body h)) -> steps (hw_fence_loop n body h i e b r).
Proof.
  intros Hb. revert h i b r. induction n as [|n IH]; intros h i b r; cbn [hw_fence_loop]; steps_tac; auto.
Qed.

Lemma steps_lookup_and_process k c s h f : (forall h, steps (f h)) -> steps (_hw_fence_lookup_and_process k c s h f).
Proof.
  intros Hf. unfold _hw_fence_lookup_and_process, _hw_fence_lookup_and_process_range, for_each_hw_fence.
  steps_tac. apply steps_hw_fence_loop. intros x. unfold process_body, _hw_fence_match. steps_tac.
Qed.

Lemma steps_hw_fence_destroy k c s : steps (hw_fence_destroy k c s).
Proof.
  unfold hw_fence_destroy. apply steps_bind; [|steps_tac]. apply steps_lookup_and_process. apply steps_unreserve.
Qed.

#[export] Hint Resolve steps_hw_fence_destroy : steps.

(** *** Dropping references *)

#[export] Hint Extern 1 (steps (modifyM _)) =>
  apply steps_modifyM; intros ?; apply older_eq; reflexivity : steps.

Lemma steps_check_driver : steps hw_fence_check_hw_fence_driver.
Proof. unfold hw_fence_check_hw_fence_driver. steps_tac. Qed.

#[export] Hint Resolve steps_check_driver : steps.

Lemma steps_check_client ch : steps (hw_fence_check_valid_client ch).
Proof. unfold hw_fence_check_valid_client. steps_tac. Qed.

Lemma steps_clear_dma_flag f b : steps (clear_dma_flag f b).
Proof. by apply steps_update_dma_fence. Qed.

#[export] Hint Resolve steps_check_client steps_clear_dma_flag : steps.

Lemma steps_destroy ch f : steps (msm_hw_fence_destroy ch f).
Proof. unfold msm_hw_fence_destroy. steps_tac. Qed.

#[export] Hint Resolve steps_destroy : steps.

Lemma steps_release f : steps (_hw_fence_release f).
Proof. unfold _hw_fence_release. steps_tac. Qed.

#[export] Hint Resolve steps_release : steps.

(** The release deletes the fence; it runs when the last reference is put. *)
Lemma dbg_release_older d f a d' :
  ~ held (dd_env d) f -> hw_fence_dbg_release f d = Done a d' -> older d d'.
Proof.
  intros Hn. unfold hw_fence_dbg_release. unfold bind at 1.
  destruct (get_dma_fence f d) as [g d0|] eqn:Eg; [|done].
  assert (d0 = d) as ->.
  { revert Eg. unfold get_dma_fence, bind, get. by destruct (dd_dma_fences d !! f); intros [= _ <-]. }
  assert (steps (when test_dma_flag g MSM_HW_FENCE_FLAG_ENABLED_BIT do _hw_fence_release f)) as Hw by steps_tac.
  set (w := when test_dma_flag g MSM_HW_FENCE_FLAG_ENABLED_BIT do _hw_fence_release f) in *.
  unfold bind. destruct (w d) as [[] d1|] eqn:Er; [|done]. intros [= _ <-].
  pose proof (Hw _ _ _ Er) as Ho. transitivity d1; [done|].
  apply (older_other_dma d1 f); try done; [by rewrite (st_env _ _ (ol_stays _ _ Ho))|].
  intros x Hx. simpl. by rewrite lookup_delete_ne.
Qed.

Lemma steps_dma_fence_put f : steps (dma_fence_put f).
Proof.
  unfold dma_fence_put. apply steps_bind; [auto with steps|]. intros _ d a d'. unfold bind at 1, get.
  unfold bind at 1. destruct (tick d) as [n d1|] eqn:Et; [|done]. pose proof (steps_tick _ _ _ Et) as Ho.
  destruct (env_last_put (dd_env d) f n) eqn:El; [|by intros [= _ <-]].
  unfold bind. destruct (get_dma_fence f d1) as [g d2|] eqn:Eg; [|done].
  pose proof (steps_get_dma_fence f _ _ _ Eg) as Ho2. assert (older d d2) as Ho3 by (by etransitivity).
  destruct (df_hw_dma g); [|by intros [= _ <-]]. intros Hr. transitivity d2; [done|].
  eapply dbg_release_older, Hr. rewrite (st_env _ _ (ol_stays _ _ Ho3)). intros Hh. destruct (Hh n). congruence.
Qed.

Lemma steps_dma_fence_find h b : steps (hw_fence_dma_fence_find h b).
Proof. unfold hw_fence_dma_fence_find, dma_fence_get. steps_tac. Qed.

Lemma steps_dma_fence_set_error f e : steps (dma_fence_set_error f e).
Proof. unfold dma_fence_set_error. steps_tac. Qed.

#[export] Hint Resolve steps_dma_fence_put steps_dma_fence_find steps_dma_fence_set_error : steps.

Lemma steps_table_del h fl e : steps (hw_fence_dma_fence_table_del h fl e).
Proof. unfold hw_fence_dma_fence_table_del. steps_tac. Qed.

#[export] Hint Resolve steps_table_del : steps.

Lemma steps_disown h : steps (update_fence h (fun f => f <| hf_flags ::= fun x =>
                                                clear x MSM_HW_FENCE_FLAG_INTERNAL_OWNED |>)).
Proof. apply steps_update_fence, ages_disown. Qed.

#[export] Hint Resolve steps_disown : steps.

Lemma steps_put_and_unlock h : steps (hw_fence_put_and_unlock h).
Proof. unfold hw_fence_put_and_unlock. steps_tac. Qed.

#[export] Hint Resolve steps_put_and_unlock : steps.

Lemma steps_destroy_with_hash h : steps (hw_fence_destroy_with_hash h).
Proof. unfold hw_fence_destroy_with_hash. steps_tac. Qed.

#[export] Hint Resolve steps_destroy_with_hash : steps.

(** *** Cleaning up *)

Lemma steps_unwait h m : steps (update_fence h (fun f => f <| hf_wait_client_mask ::= fun x => clear x m |>)).
Proof. apply steps_update_fence. intros f. apply ages_unwait. Qed.

#[export] Hint Resolve steps_unwait : steps.

Lemma steps_cleanup_fence ch h fl : steps (hw_fence_utils_cleanup_fence ch h fl).
Proof. unfold hw_fence_utils_cleanup_fence. steps_tac. Qed.

#[export] Hint Resolve steps_cleanup_fence : steps.

(** *** Reset of the queues *)

Definition drained_at (sc : bool) (i : Z) (c : hw_fence_client) : Prop :=
  exists q, zget (cl_queues c) i = Some q /\ queue_drained sc q.

(** One half: the queue is replaced by a drained one. *)
Lemma reset_one_run d ch c i q (m : M hw_fence_queue unit) q' :
  drv_ok d -> zget (dd_clients d) ch = Some (Some c) -> zget (cl_queues c) i = Some q ->
  m q = Done tt q' -> queue_drained (dd_has_soccp d) q' -> q_skip_wr_idx q' = q_skip_wr_idx q ->
  let c' := c <| cl_queues ::= zset i q' |> in
  on_queue (ClientQueue ch i) m d = Done tt (client_moved ch c' (dd_tick d) [] d) /\
  client_ok (dd_has_soccp d) ch c' /\ drained_at (dd_has_soccp d) i c' /\
  (forall j, j <> i -> zget (cl_queues c') j = zget (cl_queues c) j).
Proof.
  intros Hd Ec Eq Em Hq' Hsk c'. split; [by apply (on_queue_run d ch c i q)|]. split; [|split].
  - eapply client_ok_set_queue; [by apply (do_clients d Hd)|done|by apply drained_ok|done].
  - exists q'. split; [|done]. simpl. apply zget_zset_eq. by eapply zget_Some.
  - intros j Hj. simpl. by apply zget_zset_ne.
Qed.

(** The Tx queue is emptied, and the Rx queue of a client that has one with a lock. *)
Lemma reset_queues_run d ch c :
  drv_ok d -> zget (dd_clients d) ch = Some (Some c) ->
  exists c', hw_fence_utils_reset_queues ch d = Done tt (client_moved ch c' (dd_tick d) [] d) /\
    client_ok (dd_has_soccp d) ch c' /\ same_client c c' /\ drained_at (dd_has_soccp d) 0 c' /\
    (cl_update_rxq c = true -> client_lock_idx (cl_client_id c) < dd_client_lock_tbl_cnt d ->
     drained_at (dd_has_soccp d) 1 c').
Proof.
  intros Hd Ec. pose proof (do_clients _ Hd _ _ Ec) as Hc. pose proof (ck_num _ _ _ Hc) as Hn.
  unfold hw_fence_utils_reset_queues. rewrite (bind_run get _ d d d) by done.
  change (HW_FENCE_TX_QUEUE - 1) with 0. change (HW_FENCE_RX_QUEUE - 1) with 1.
  destruct (zget_is_Some (cl_queues c) 0) as [q0 E0]; [lia|].
  destruct (reset_txq_ok (dd_has_soccp d) q0) as (q0' & R0 & D0 & S0); [by apply (ck_queue_ok _ _ _ Hc 0); [lia|]|].
  destruct (reset_one_run d ch c 0 q0 _ q0' Hd Ec E0 R0 D0 S0) as (Hr0 & Hc1 & Hd1 & Hoth).
  set (c1 := c <| cl_queues ::= zset 0 q0' |>) in *. set (d1 := client_moved ch c1 (dd_tick d) [] d).
  rewrite (bind_run _ _ _ _ _ Hr0). fold d1.
  assert (drv_ok d1) as Hd1ok by (by eapply drv_ok_moved).
  assert (zget (dd_clients d1) ch = Some (Some c1)) as Ec1
    by (simpl; apply zget_zset_eq; by eapply zget_Some).
  rewrite (bind_run _ _ _ _ _ (get_client_run _ _ _ Ec1)).
  change (cl_update_rxq c1) with (cl_update_rxq c). change (cl_client_id c1) with (cl_client_id c).
  destruct (cl_update_rxq c) eqn:Hrx; [|exists c1; split; [done|]; split; [done|]; split; [by destruct c|done]].
  set (li := client_lock_idx (cl_client_id c)). destruct (Z.leb_spec (dd_client_lock_tbl_cnt d) li).
  { exists c1. split; [done|]. split; [done|]. split; [by destruct c|]. split; [done|]. lia. }
  pose proof (ck_rx _ _ _ Hc Hrx) as Hn2. destruct (zget_is_Some (cl_queues c1) 1) as [q1 E1].
  { unfold c1. simpl. rewrite zlen_zset. lia. }
  assert (q_skip_wr_idx q1 = false) as Sk1.
  { destruct (q_skip_wr_idx q1) eqn:Sk; [|done]. by pose proof (ck_skip _ _ _ Hc1 _ _ E1 Sk). }
  destruct (reset_rxq_ok (dd_has_soccp d) q1) as (q1' & R1 & D1 & S1); [by apply (ck_queue_ok _ _ _ Hc1 1)|done|].
  destruct (zget_is_Some (dd_client_lock_tbl d1) li) as [w Ew].
  { change (dd_client_lock_tbl d1) with (dd_client_lock_tbl d). rewrite <- (do_lock_cnt _ Hd).
    split; [apply u32_range|done]. }
  pose proof (do_locks _ Hd1ok _ _ Ew) as Hw.
  rewrite (bind_run _ _ _ _ _ (lock_client_run _ _ _ Ew Hw)).
  set (dl := put_client_lock li (with_lo w 1) d1).
  set (c2 := c1 <| cl_queues ::= zset 1 q1' |>).
  rewrite (bind_run _ _ _ _ _ (on_queue_run dl ch c1 1 q1 (reset_rxq (dd_has_soccp d)) tt q1' Ec1 E1 R1)).
  fold c2. exists c2. split.
  { etransitivity; [exact (unlock_client_run (client_moved ch c2 (dd_tick d1) [] d1) li w Ew Hw)|].
    unfold d1. by rewrite client_moved_moved. }
  split; [by apply (client_ok_set_queue _ _ c1 1 q1); [|done|apply drained_ok|]|].
  split; [by destruct c|]. split.
  - destruct Hd1 as (q & Eq & Hq). exists q. split; [|done]. unfold c2. simpl. by rewrite zget_zset_ne by lia.
  - intros _ _. exists q1'. split; [|done]. unfold c2. simpl. apply zget_zset_eq. by eapply zget_Some.
Qed.

(** *** One entry of a reset *)

(** What a reset leaves of an entry: nobody of the client waits for it, and it is
    settled if the client created it, unless the client waited for it itself and gave
    its reference back. *)
Definition reset_done (c : hw_fence_client) (waited : bool) (f : msm_hw_fence) : Prop :=
  waits_for c f = false /\ (hf_fence_allocator f = cl_client_id c -> waited = false -> settled f).

Lemma waits_for_bit c f : 0 <= cl_client_id c -> waits_for c f = Z.testbit (hf_wait_client_mask f) (cl_client_id c).
Proof. intros. unfold waits_for. by apply flag_BIT. Qed.

Lemma ages_waits c f f' : 0 <= cl_client_id c -> ages f f' -> waits_for c f = false -> waits_for c f' = false.
Proof.
  intros Hc Ha. rewrite !waits_for_bit by done. intros Hf.
  destruct (Z.testbit (hf_wait_client_mask f') _) eqn:E; [|done]. apply (ag_waits _ _ Ha) in E. congruence.
Qed.

Lemma reset_done_ages c w f f' : 0 <= cl_client_id c -> ages f f' -> reset_done c w f -> reset_done c w f'.
Proof.
  intros Hc Ha [H1 H2]. split; [by eapply ages_waits|]. intros Ho Hw.
  destruct (ag_owner _ _ Ha) as [Heq|Hfree]; [|by right]. apply (ag_settled _ _ Ha), H2; congruence.
Qed.

Lemma unwait_not_waiting c f : 0 <= cl_client_id c -> waits_for c (unwait c f) = false.
Proof.
  intros Hc. unfold unwait. destruct (waits_for c f) eqn:E; [|done]. rewrite waits_for_bit by done.
  change (Z.testbit (Z.ldiff (hf_wait_client_mask f) (BIT (cl_client_id c))) (cl_client_id c) = false).
  rewrite Z.ldiff_spec, testbit_BIT, bool_decide_true by done. by rewrite andb_false_r.
Qed.

Definition keeps (reset_flags : Z) : bool := flag reset_flags MSM_HW_FENCE_RESET_WITHOUT_DESTROY.

Lemma cleanup_fence_resets d ch c h f reset_flags :
  drv_ok d -> zget (dd_clients d) ch = Some (Some c) -> 0 <= cl_client_id c -> fence_at d h = Some f ->
  exists r d' f', hw_fence_utils_cleanup_fence ch h reset_flags d = Done r d' /\ drv_ok d' /\ older d d' /\
    fence_at d' h = Some f' /\ reset_done c (waits_for c f && negb (keeps reset_flags)) f'.
Proof.
  intros Hd Ec Hc E. pose proof (fence_at_in _ _ _ (do_table _ Hd) E) as Hh.
  pose proof (cleanup_ok d ch c h reset_flags Hd Ec Hh) as Hw. apply wp_inv in Hw as (r & d' & Hr & Hd').
  pose proof (steps_cleanup_fence ch h reset_flags d r d' Hr) as Hol. exists r, d'.
  destruct (older_at _ _ _ _ Hol E) as (f' & E' & _). exists f'. split; [done|]. split; [done|]. split; [done|].
  split; [done|]. rewrite (cleanup_fence_locked d ch c h f reset_flags Hd Ec E) in Hr. fold (keeps reset_flags) in Hr.
  set (f1 := unwait c f) in *. set (d1 := put_fence h f1 d) in *.
  assert (fence_at d1 h = Some f1) as E1 by (by eapply fence_at_put_eq).
  assert (waits_for c f1 = false) as Hnw by (by apply unwait_not_waiting).
  assert (forall w, (hf_fence_allocator f1 = cl_client_id c -> w = false -> settled f1) -> reset_done c w f1) as Hf1
    by (by split).
  assert (forall A (m : DRV A) a w, steps m -> m d1 = Done a d' -> reset_done c w f1 -> reset_done c w f') as Hst.
  { intros A m a w Hm Hmr. destruct (older_at _ _ _ _ (Hm _ _ _ Hmr) E1) as (g & Eg & Ha).
    assert (g = f') as -> by congruence. intros Hrd. by apply (reset_done_ages c w f1). }
  destruct (waits_for c f && negb (keeps reset_flags)) eqn:Hw.
  { eapply Hst; [|exact Hr|by apply Hf1]. steps_tac. }
  destruct (Z.eqb_spec (hf_fence_allocator f) (cl_client_id c)) as [Ho|Ho].
  - assert (drv_ok d1) as Hd1 by (apply drv_ok_put; [done|]; apply unwait_ok; exact (entry_ok_at _ _ _ Hd E)).
    destruct (signal_fence_settles d1 h (reset_error reset_flags) true Hd1 Hh)
      as (d2 & ev & f2 & Hr2 & _ & _ & _ & E2 & Hs2).
    rewrite (bind_run _ _ _ _ _ Hr2) in Hr. pose proof (steps_signal_fence h h _ true d1 tt d2 Hr2) as Ho2.
    destruct (older_at _ _ _ _ Ho2 E1) as (g & Eg & Ha). assert (g = f2) as -> by congruence.
    assert (steps (if keeps reset_flags then ret 0 else hw_fence_destroy_with_hash h)) as Hm by steps_tac.
    destruct (older_at _ _ _ _ (Hm _ _ _ Hr) E2) as (g & Eg' & Ha'). assert (g = f') as -> by congruence.
    apply (reset_done_ages c false f2); [done|done|]. split; [by eapply ages_waits|done].
  - injection Hr as <- <-. assert (f' = f1) as -> by congruence. apply Hf1. intros Heq. exfalso. apply Ho.
    rewrite <- Heq. unfold f1, unwait. by case_match.
Qed.
