(* ===== verification/HwFenceJoin.v ===== *)
(** * Waiting for fences

    [src/hw_fence_drv_priv.c]: registering a client as a waiter of a fence and of
    an array of fences, for which a join fence is made. *)
From S2P Require Import Prelude HwFenceTypes HwFenceQueue HwFenceTable HwFenceRef.
From S2P Require Import HwFenceClient HwFenceSignal HwFenceCallback.
From stdpp Require Import gmap.
From Stdlib Require Import Lia.
#[local] Open Scope Z_scope.

(** ** Join fences *)

(** [array->fences[idx]] and [array->num_fences]. *)
Definition array_fences (g : dma_fence) : list Z := default [] (df_array g).

Definition array_get (array idx : Z) : DRV Z :=
  g <-- get_dma_fence array;
  if df_fences_null g then raise BadAccess else deref (zget (array_fences g) idx).

(** Returns the join fence and [*hash]. *)
Definition _hw_fence_process_join_fence (array hash0 : Z) (create : bool) : DRV (option Z * Z) :=
  g <-- get_dma_fence array;
  let context := df_context g in
  let seqno := df_seqno g in
  let pending_child_cnt := zlen (array_fences g) in
  let client_id := HW_FENCE_JOIN_FENCE_CLIENT_ID in
  if create then
    _hw_fence_lookup_and_create client_id array context seqno pending_child_cnt hash0
  else
    hw_fence_destroy_refcount hash0 HW_FENCE_FCTL_REFCOUNT;;;
    ret (None, hash0).

(** The turns [j], ..., 1 of the loop over the parents of a child. *)
Definition unlink_at (hash_join_fence : Z) (f : msm_hw_fence) (j : Z) : msm_hw_fence :=
  match zget (hf_parent_list f) (j - 1) with
  | Some p =>
      if p =? hash_join_fence then
        f <| hf_parent_list ::= zset (j - 1) HW_FENCE_INVALID_PARENT_FENCE |>
          <| hf_parents_cnt ::= fun c => if c =? 0 then c else u32 (c - 1) |>
      else f
  | None => f
  end.

Fixpoint unlink_from (hash_join_fence : Z) (j : nat) (f : msm_hw_fence) : msm_hw_fence :=
  match j with
  | O => f
  | S j' => unlink_from hash_join_fence j' (unlink_at hash_join_fence f (Z.of_nat j))
  end.

(** [j] starts at the count, an [int], and is cut to the maximum. *)
Definition unlink_parent (hash_join_fence : Z) (f : msm_hw_fence) : msm_hw_fence :=
  unlink_from hash_join_fence
    (Z.to_nat (Z.min (i32 (hf_parents_cnt f)) MSM_HW_FENCE_MAX_JOIN_PARENTS)) f.

(** One turn of the loop of [_cleanup_join_and_child_fences]; [hash] is carried. *)
Definition cleanup_child (client_id array hash_join_fence idx hash : Z) : DRV Z :=
  child_fence <-- array_get array idx;
  if child_fence =? 0 then ret hash
  else
    out <-- hw_fence_find_with_dma_fence client_id child_fence hash false;
    let '(o, child_is_signaled, hash) := out in
    if child_is_signaled : bool then ret hash
    else
      match o with
      | None => ret hash
      | Some hw_fence_child =>
          global_atomic_store (FenceLock hw_fence_child) true;;;
          update_fence hw_fence_child (unlink_parent hash_join_fence);;;
          hw_fence_put_and_unlock hash;;;
          ret hash
      end.

Definition _cleanup_join_and_child_fences (client_id iteration array hash_join_fence : Z) : DRV unit :=
  g <-- get_dma_fence array;
  (if df_fences_null g then ret tt
   else
     for_n (Z.to_nat (iteration + 1)) 0
       (fun k hash => cleanup_child client_id array hash_join_fence (iteration - k) hash) 0;;;
     ret tt);;;
  _hw_fence_process_join_fence array hash_join_fence false;;;
  ret tt.

(** The child becomes a child of the join fence; with too many parents the count goes
    back. *)
Definition add_parent (hash_join_fence : Z) (f : msm_hw_fence) : bool * msm_hw_fence :=
  let f := f <| hf_parents_cnt ::= fun c => u32 (c + 1) |> in
  if (MSM_HW_FENCE_MAX_JOIN_PARENTS <=? hf_parents_cnt f) || (hf_parents_cnt f <? 1) then
    (false, f <| hf_parents_cnt ::= fun c => u32 (c - 1) |>)
  else (true, f <| hf_parent_list ::= zset (hf_parents_cnt f - 1) hash_join_fence |>).

(** One turn of the loop of [hw_fence_process_fence_array].  [None]: the jump to
    [error_array]; else the new value of [signal_join_fence]. *)
Definition process_child (client_id join_fence hash_join_fence array i : Z)
    (signal_join_fence : bool) (hash : Z) : DRV (option bool * Z) :=
  child_fence <-- array_get array i;
  if child_fence =? 0 then ret (None, hash)
  else
    g <-- get_dma_fence child_fence;
    match df_array g with
    | Some _ => ret (None, hash)
    | None =>
        if negb (test_dma_flag g MSM_HW_FENCE_FLAG_ENABLED_BIT) then ret (None, hash)
        else
          out <-- hw_fence_find_with_dma_fence client_id child_fence hash false;
          let '(o, child_is_signaled, hash) := out in
          if child_is_signaled : bool then
            g <-- get_dma_fence child_fence;
            b <-- _update_and_get_join_fence_signal_status join_fence (u32 (df_error g));
            ret (Some b, hash)
          else
            match o with
            | None => ret (None, hash)
            | Some hw_fence_child =>
                global_atomic_store (FenceLock hw_fence_child) true;;;
                f <-- get_fence hw_fence_child;
                if flag (hf_flags f) MSM_HW_FENCE_FLAG_SIGNAL then
                  b <-- _update_and_get_join_fence_signal_status join_fence (hf_error f);
                  hw_fence_put_and_unlock hash;;;
                  ret (Some b, hash)
                else
                  let '(added, f') := add_parent hash_join_fence f in
                  set_fence hw_fence_child f';;;
                  hw_fence_put_and_unlock hash;;;
                  ret (if added then Some signal_join_fence else None, hash)
            end
    end.

(** The turns [i], [i + 1], ..., [n] of them left.  [inl i]: the jump to
    [error_array] in turn [i]. *)
Fixpoint process_children (n : nat) (client_id join_fence hash_join_fence array i : Z)
    (signal_join_fence : bool) (hash : Z) : DRV (Z + bool) :=
  match n with
  | O => ret (inr signal_join_fence)
  | S n' =>
      out <-- process_child client_id join_fence hash_join_fence array i signal_join_fence hash;
      match out.1 with
      | None => ret (inl i)
      | Some b => process_children n' client_id join_fence hash_join_fence array (i + 1) b out.2
      end
  end.

(** Client data with no slot for it is refused. *)
Definition bad_client_data (client_id_ext client_data : Z) : bool :=
  negb (client_data =? 0) &&
  (HW_FENCE_MAX_CLIENTS_WITH_DATA <=? hw_fence_get_client_data_id client_id_ext).

Definition put_client_data (client_id_ext client_data : Z) (f : msm_hw_fence) : msm_hw_fence :=
  if client_data =? 0 then f
  else f <| hf_client_data ::= zset (hw_fence_get_client_data_id client_id_ext) client_data |>.

(** [hash0] is what the automatic [hash] of the loop holds at first.  Returns the
    error code and [*hash_join_fence]. *)
Definition hw_fence_process_fence_array (ch array hash_join0 client_data : Z) : DRV (Z * Z) :=
  c <-- get_client ch;
  if bad_client_data (cl_client_id_ext c) client_data then ret (- EINVAL, hash_join0)
  else
    out <-- _hw_fence_process_join_fence array hash_join0 true;
    let '(o, hash_join_fence) := out in
    match o with
    | None => ret (- EINVAL, hash_join_fence)
    | Some join_fence =>
        global_atomic_store (FenceLock join_fence) true;;;
        update_fence join_fence (fun f => f <| hf_wait_client_mask ::=
                                              fun m => u64 (Z.lor m (BIT (cl_client_id c))) |>);;;
        global_atomic_store (FenceLock join_fence) false;;;
        g <-- get_dma_fence array;
        let num_fences := zlen (array_fences g) in
        r <-- process_children (Z.to_nat num_fences) (cl_client_id c) join_fence hash_join_fence
                array 0 false 0;
        let error_array i :=
          _cleanup_join_and_child_fences (cl_client_id c) i array hash_join_fence;;;
          ret (- EINVAL, hash_join_fence) in
        match r with
        | inl i => error_array i
        | inr signal_join_fence =>
            update_fence join_fence (put_client_data (cl_client_id_ext c) client_data);;;
            if signal_join_fence : bool then
              f <-- get_fence join_fence;
              _fence_ctl_signal ch join_fence hash_join_fence 0 client_data (hf_error f) true;;;
              set_dma_flag array MSM_HW_FENCE_FLAG_SIGNALED_BIT;;;
              _hw_fence_process_join_fence array hash_join_fence false;;;
              ret (0, hash_join_fence)
            else if num_fences =? 0 then error_array 0
            else ret (0, hash_join_fence)
        end
    end.

(** ** One fence *)

(** The end of [hw_fence_register_wait_client]: a fence that is signaled already is
    told at once. *)
Definition tell_waiter (fence : option Z) (ch hw_fence hash client_data : Z) (is_signaled : bool)
  : DRV (Z * Z) :=
  if is_signaled then
    match fence with
    | Some fence => set_dma_flag fence MSM_HW_FENCE_FLAG_SIGNALED_BIT
    | None => ret tt
    end;;;
    f <-- get_fence hw_fence;
    r <-- _fence_ctl_signal ch hw_fence hash 0 client_data (hf_error f) true;
    when negb (r =? 0) do (hw_fence_destroy_with_hash hash;;; ret tt);;;
    ret (r, hash)
  else ret (0, hash).

(** [fence] is [None] for a fence known by context and number only.  Returns the
    error code and [*hash]. *)
Definition hw_fence_register_wait_client (fence : option Z) (ch context seqno hash0 client_data : Z)
  : DRV (Z * Z) :=
  c <-- get_client ch;
  if bad_client_data (cl_client_id_ext c) client_data then ret (- EINVAL, hash0)
  else
    out <-- (match fence with
             | Some fence => hw_fence_find_with_dma_fence (cl_client_id c) fence hash0 true
             | None => out <-- msm_hw_fence_find context context seqno hash0;
                       ret (out.1, false, out.2)
             end);
    let '(o, is_signaled, hash) := out in
    match o with
    | None => ret (- EINVAL, hash)
    | Some hw_fence =>
        global_atomic_store (FenceLock hw_fence) true;;;
        f <-- get_fence hw_fence;
        is_signaled <--
          (if hf_fence_allocator f =? cl_client_id c then
             update_fence hw_fence (fun f => f <| hf_refcount ::= fun r => Z.lor r HW_FENCE_FCTL_REFCOUNT |>);;;
             ret is_signaled
           else
             update_fence hw_fence (fun f => f <| hf_wait_client_mask ::=
                                                 fun m => u64 (Z.lor m (BIT (cl_client_id c))) |>);;;
             t <-- hw_fence_get_qtime;
             update_fence hw_fence (fun f => put_client_data (cl_client_id_ext c) client_data
                                               (f <| hf_fence_wait_time := t |>));;;
             ret (flag (hf_flags f) MSM_HW_FENCE_FLAG_SIGNAL));
        global_atomic_store (FenceLock hw_fence) false;;;
        tell_waiter fence ch hw_fence hash client_data is_signaled
    end.

(** [drv_data] is never null here. *)
Definition hw_fence_process_fence (client_handle fence : option Z) (hash0 client_data : Z)
  : DRV (Z * Z) :=
  match client_handle, fence with
  | Some ch, Some fence =>
      g <-- get_dma_fence fence;
      if negb (test_dma_flag g MSM_HW_FENCE_FLAG_ENABLED_BIT) then ret (- EINVAL, hash0)
      else hw_fence_register_wait_client (Some fence) ch (df_context g) (df_seqno g) hash0 client_data
  | _, _ => ret (- EINVAL, hash0)
  end.

(** * Properties *)

(** ** A child that is in the table *)

(** The entry with one more parent. *)
Definition adopted (hash_join : Z) (f : msm_hw_fence) : msm_hw_fence :=
  f <| hf_parents_cnt := hf_parents_cnt f + 1 |>
    <| hf_parent_list ::= zset (hf_parents_cnt f) hash_join |>.

(** [cf] is a hardware fence the kernel has not signaled; entry [h] backs it, is
    unsignaled and referenced by somebody. *)
Record child_ready (d : driver_data) (cf h : Z) (f : msm_hw_fence) : Prop := {
  cr_fence : exists g k, dd_dma_fences d !! cf = Some g /\ df_array g = None /\
               test_dma_flag g MSM_HW_FENCE_FLAG_ENABLED_BIT = true /\
               find_step d (key_match d cf (df_context g) (df_seqno g)) (df_context g) (df_seqno g)
               = Some k /\ h = probe d (df_context g) (df_seqno g) k;
  cr_nonnull : cf <> 0;
  cr_kernel : forall n, env_dma_signaled (dd_env d) cf n = false;
  cr_entry : fence_at d h = Some f;
  cr_valid : hf_valid f <> 0;
  cr_unsignaled : is_signaled_hw f = false;
  cr_refs : exists r, refs_wf r /\ hf_refcount f = refs_word r /\ 0 < rf_hlos r < 2 ^ 30 - 1;
  cr_parents : 0 <= hf_parents_cnt f <= 2 }.

Lemma refs_saturated f r :
  refs_wf r -> hf_refcount f = refs_word r -> saturated f = (rf_hlos r =? 2 ^ 30 - 1).
Proof. intros Hr Ew. unfold saturated. by rewrite Ew, refs_word_hlos. Qed.

(** An update of an entry that neither reads nor writes its lock and its
    reference word. *)
Record detached (g : msm_hw_fence -> msm_hw_fence) : Prop := {
  de_lock : forall f, hf_lock (g f) = hf_lock f;
  de_set_lock : forall f w, g (f <| hf_lock := w |>) = (g f) <| hf_lock := w |>;
  de_refs : forall f, hf_refcount (g f) = hf_refcount f;
  de_set_refs : forall f w, g (f <| hf_refcount := w |>) = (g f) <| hf_refcount := w |> }.

(** Taking a reference and giving it back. *)
Lemma put_get_entry (g : msm_hw_fence -> msm_hw_fence) f r :
  refs_wf r -> hf_refcount f = refs_word r -> 0 < rf_hlos r < 2 ^ 30 - 1 ->
  detached g ->
  put_entry (g (get_ref f)) = g f /\ releases_dma (g (get_ref f)) = false /\
  flag (hf_refcount (g (get_ref f))) HW_FENCE_HLOS_REFCOUNT_MASK = true.
Proof.
  intros Hr Ew Hh Hg. set (r1 := r <| rf_hlos ::= Z.add 1 |>).
  assert (refs_wf r1) as Hr1 by (unfold refs_wf in *; simpl; lia).
  assert (get_ref f = f <| hf_refcount := refs_word r1 |>) as Eg1.
  { rewrite (get_ref_refs f r Hr Ew) by (rewrite (refs_saturated f r) by done; by apply Z.eqb_neq; lia).
    apply set_refs_live. unfold no_refs. simpl.
    destruct (Z.eqb_spec (1 + rf_hlos r) 0); [lia|]. by rewrite andb_false_r. }
  assert (hf_refcount (g (get_ref f)) = refs_word r1) as Ew1 by (rewrite (de_refs _ Hg); by rewrite Eg1).
  assert (drop_hlos (g (get_ref f)) = g f) as Ed.
  { assert (refs_word r1 = refs_word r + 1) as Ep by (unfold refs_word, r1; simpl; lia).
    assert (forall x, drop_hlos x = x <| hf_refcount := u32 (hf_refcount x - 1) |>) as -> by done.
    rewrite Ew1, Ep. replace (refs_word r + 1 - 1) with (refs_word r) by lia.
    rewrite u32_id by (by apply refs_word_u32). 
    transitivity ((g f) <| hf_refcount := refs_word r |>).
    { rewrite Eg1. pose proof (de_set_refs _ Hg f (refs_word r1)) as ->. done. }
    rewrite <- Ew, <- (de_refs _ Hg f). by destruct (g f). }
  assert (flag (hf_refcount (g f)) HW_FENCE_HLOS_REFCOUNT_MASK = true) as Hfl.
  { rewrite (de_refs _ Hg), Ew. unfold flag. rewrite refs_word_hlos by done.
    destruct (Z.eqb_spec (rf_hlos r) 0); [lia|done]. }
  assert (releases_dma (g (get_ref f)) = false) as Hrel.
  { unfold releases_dma. rewrite Ed, Hfl. by rewrite andb_false_r. }
  split; [|split; [done|]].
  - unfold put_entry. rewrite Hrel, Ed. unfold free_entry.
    rewrite (de_refs _ Hg f), Ew, refs_word_zero by done. unfold no_refs.
    destruct (Z.eqb_spec (rf_hlos r) 0); [lia|]. by rewrite andb_false_r.
  - rewrite Ew1. unfold flag. rewrite refs_word_hlos by done. simpl.
    destruct (Z.eqb_spec (1 + rf_hlos r) 0); [lia|done].
Qed.

(** Updating an entry under its lock and giving back the reference that was taken
    to find it. *)
Lemma update_and_put_run {B} d h f r g (k : Z -> DRV B) :
  drv_ok d -> fence_at d h = Some (get_ref f) ->
  refs_wf r -> hf_refcount f = refs_word r -> 0 < rf_hlos r < 2 ^ 30 - 1 -> detached g ->
  bind (hw_fence_put_and_unlock h) k (put_fence h (g (with_lock 1 (get_ref f))) (locked_at h d))
  = k 0 (put_fence h (g f) d).
Proof.
  intros Hd E Hr Ew Hh Hg. destruct (put_get_entry g f r Hr Ew Hh Hg) as (Hput & Hrel & Hfl).
  pose proof (lock_free_at _ _ _ (do_table _ Hd) E) as Hfree.
  set (d1 := put_fence h (g (get_ref f)) d).
  assert (fence_at d1 h = Some (g (get_ref f))) as E1 by (by eapply fence_at_put_eq).
  assert (lock_free (g (get_ref f))) as Hfree1 by (unfold lock_free in *; by rewrite (de_lock _ Hg)).
  assert (put_fence h (g (with_lock 1 (get_ref f))) (locked_at h d) = locked_at h d1) as ->.
  { unfold locked_at. rewrite E, E1. unfold d1. rewrite !put_put. f_equal.
    assert (forall x, with_lock 1 x = x <| hf_lock := with_lo (hf_lock x) 1 |>) as Hw by done.
    rewrite !Hw, (de_set_lock _ Hg), (de_lock _ Hg). done. }
  pose proof (put_and_unlock_run d1 h _ E1 Hfree1) as Hp. rewrite Hfl, Hrel, Hput in Hp.
  rewrite (bind_run _ _ _ _ _ Hp). unfold d1. by rewrite put_put.
Qed.

Lemma adopted_detached hash : detached (adopted hash).
Proof. by split. Qed.

Lemma id_detached : detached (fun f => f).
Proof. by split. Qed.

(** A member of an array the kernel has not signaled and whose entry a search finds:
    all of [child_ready] but what makes it a child. *)
Record member_found (d : driver_data) (cf h : Z) (f : msm_hw_fence) : Prop := {
  mf_fence : exists g k, dd_dma_fences d !! cf = Some g /\
               find_step d (key_match d cf (df_context g) (df_seqno g)) (df_context g) (df_seqno g)
               = Some k /\ h = probe d (df_context g) (df_seqno g) k;
  mf_nonnull : cf <> 0;
  mf_kernel : forall n, env_dma_signaled (dd_env d) cf n = false;
  mf_entry : fence_at d h = Some f;
  mf_valid : hf_valid f <> 0;
  mf_refs : exists r, refs_wf r /\ hf_refcount f = refs_word r /\ 0 < rf_hlos r < 2 ^ 30 - 1 }.

Lemma child_ready_found d cf h f : child_ready d cf h f -> member_found d cf h f.
Proof. intros [(g & k & Eg & _ & _ & Ek & Eh) ? ? ? ? ? ? ?]. split; try done. by exists g, k. Qed.

(** What stays of a ready child when its member can still be found. *)
Lemma child_ready_again d d' cf h f :
  child_ready d cf h f -> dd_dma_fences d' = dd_dma_fences d -> member_found d' cf h f ->
  child_ready d' cf h f.
Proof.
  intros [(g & k & Eg & Harr & Hen & _) ? ? ? ? ? ? ?] Edma [(g' & k' & Eg' & Ek' & Eh') ? ? ? ? ?].
  split; try done. assert (g' = g) as -> by (rewrite Edma in Eg'; congruence).
  exists g, k'. done.
Qed.

(** The search of a member. *)
Lemma member_find_run d cf h f g client_id hash0 :
  drv_ok d -> member_found d cf h f -> dd_dma_fences d !! cf = Some g ->
  exists t, hw_fence_find_with_dma_fence client_id cf hash0 false d
            = Done (Some h, false, h) (put_fence h (get_ref f) (at_tick t d)).
Proof.
  intros Hd [(g0 & k & Eg0 & Ek & Eh) _ Hsig E _ (r & Hr & Ew & Hrh)] Eg.
  assert (g0 = g) as -> by congruence.
  assert (saturated f = false) as Hs.
  { rewrite (refs_saturated f r) by done. apply Z.eqb_neq. lia. }
  destruct (find_with_dma_fence_run d g client_id cf hash0 false Hd Eg Hsig) as (out & d' & Hrun & Hf).
  { intros k' f' Ek' E'. unfold find_step in Ek. rewrite Ek in Ek'. injection Ek' as <-.
    rewrite <- Eh in E'. congruence. }
  rewrite Ek in Hf. cbv zeta in Hf. rewrite <- Eh in Hf. destruct Hf as (f' & t & E' & -> & -> & _).
  exists t. rewrite Hrun. by assert (f' = f) as -> by congruence.
Qed.

(** The found entry under its lock, with the reference the search took. *)
Lemma found_locked_run {B} d t h f g (k : DRV B) r :
  drv_ok d -> fence_at d h = Some f -> refs_wf r -> hf_refcount f = refs_word r ->
  0 < rf_hlos r < 2 ^ 30 - 1 -> detached g ->
  let d1 := put_fence h (get_ref f) (at_tick t d) in
  global_atomic_store (FenceLock h) true d1 = Done tt (locked_at h d1) /\
  fence_at (locked_at h d1) h = Some (with_lock 1 (get_ref f)) /\
  (hw_fence_put_and_unlock h;;; k) (put_fence h (g (with_lock 1 (get_ref f))) (locked_at h d1))
  = k (put_fence h (g f) (at_tick t d)).
Proof.
  intros Hd E Hr Ew Hh Hg d1.
  assert (drv_ok d1) as Hd1.
  { apply drv_ok_put; [auto with fence|]. apply get_ref_ok. by eapply (entry_ok_at d). }
  assert (fence_at d1 h = Some (get_ref f)) as E1 by (exact (fence_at_put_eq (at_tick t d) h _ f E)).
  split; [exact (locked_at_run _ _ _ E1 (lock_free_at _ _ _ (do_table _ Hd1) E1))|].
  split; [exact (locked_at_fence _ _ _ E1)|].
  rewrite (update_and_put_run d1 h f r g) by done. unfold d1. by rewrite put_put.
Qed.

Lemma add_parent_room j f :
  0 <= hf_parents_cnt f <= 1 -> add_parent j f = (true, adopted j f).
Proof.
  intros Hp. unfold add_parent, adopted, MSM_HW_FENCE_MAX_JOIN_PARENTS. simpl.
  rewrite u32_id by (unfold in_u32; lia).
  destruct (Z.leb_spec 3 (hf_parents_cnt f + 1)); [lia|].
  destruct (Z.ltb_spec (hf_parents_cnt f + 1) 1); [lia|]. cbv iota beta delta [orb].
  replace (hf_parents_cnt f + 1 - 1) with (hf_parents_cnt f) by lia. done.
Qed.

(** Counting a parent up and down again. *)
Definition recounted (f : msm_hw_fence) : msm_hw_fence :=
  f <| hf_parents_cnt ::= fun c => u32 (u32 (c + 1) - 1) |>.

Lemma recounted_detached : detached recounted.
Proof. by split. Qed.

Lemma add_parent_full j f : 2 <= hf_parents_cnt f < 2 ^ 32 -> add_parent j f = (false, recounted f).
Proof.
  intros Hp. unfold add_parent, MSM_HW_FENCE_MAX_JOIN_PARENTS. simpl.
  assert ((3 <=? u32 (hf_parents_cnt f + 1)) || (u32 (hf_parents_cnt f + 1) <? 1) = true) as ->; [|done].
  destruct (decide (hf_parents_cnt f = 2 ^ 32 - 1)) as [->|]; [done|].
  rewrite u32_id by (unfold in_u32; lia). destruct (Z.leb_spec 3 (hf_parents_cnt f + 1)); [done|lia].
Qed.

Lemma recounted_id f : in_u32 (hf_parents_cnt f) -> recounted f = f.
Proof.
  intros Hp. assert (u32 (u32 (hf_parents_cnt f + 1) - 1) = hf_parents_cnt f) as E.
  { unfold u32. rewrite Zminus_mod_idemp_l. replace (hf_parents_cnt f + 1 - 1) with (hf_parents_cnt f) by lia.
    by apply u32_id. }
  unfold recounted. destruct f. simpl in *. by rewrite E.
Qed.

(** One child is adopted: its entry gains the parent and nothing else changes. *)
Lemma process_child_run d client_id join hash_join array i sig hash0 cf h f ga :
  drv_ok d -> dd_dma_fences d !! array = Some ga -> df_fences_null ga = false ->
  zget (array_fences ga) i = Some cf -> child_ready d cf h f -> hf_parents_cnt f <= 1 ->
  exists t, process_child client_id join hash_join array i sig hash0 d
            = Done (Some sig, h) (put_fence h (adopted hash_join f) (at_tick t d)).
Proof.
  intros Hd Ea Hnull Ecf Hc Hroom. pose proof Hc as [(g & k & Eg & Harr & Hen & _) Hnz _ E _ Hs (r & Hr & Ew & Hrh) Hp].
  unfold process_child, array_get. rewrite bind_assoc, (bind_run _ _ _ _ _ (get_dma_fence_run _ _ _ Ea)), Hnull, Ecf.
  rewrite (bind_run _ _ d cf d) by done. destruct (Z.eqb_spec cf 0); [done|].
  rewrite (bind_run _ _ _ _ _ (get_dma_fence_run _ _ _ Eg)), Harr, Hen. cbv beta iota delta [negb].
  destruct (member_find_run d cf h f g client_id hash0 Hd (child_ready_found _ _ _ _ Hc) Eg) as (t & Hfind).
  rewrite (bind_run _ _ _ _ _ Hfind). cbv beta iota.
  destruct (found_locked_run d t h f (adopted hash_join) (ret (Some sig, h)) r Hd E Hr Ew Hrh
              (adopted_detached _)) as (Hl & E2 & Hput).
  set (d1 := put_fence h (get_ref f) (at_tick t d)) in *.
  rewrite (bind_run _ _ _ _ _ Hl), (bind_run _ _ _ _ _ (get_fence_run _ _ _ E2)).
  change (flag (hf_flags (with_lock 1 (get_ref f))) MSM_HW_FENCE_FLAG_SIGNAL) with (is_signaled_hw f).
  rewrite Hs. rewrite add_parent_room by (simpl; lia). cbv iota beta.
  erewrite bind_run by done. exists t. exact Hput.
Qed.

(** ** All children *)

(** The identity of an entry is what a search compares. *)
Lemma key_match_put d h f f0 t key context seqno x :
  fence_at d h = Some f0 -> hf_ctx_id f = hf_ctx_id f0 -> hf_seq_id f = hf_seq_id f0 ->
  key_match (put_fence h f (at_tick t d)) key context seqno x = key_match d key context seqno x.
Proof.
  intros E Hc Hq. unfold key_match. destruct (decide (x = h)) as [->|Hne].
  - erewrite (fence_at_put_eq (at_tick t d)) by exact E. rewrite E. simpl. by rewrite Hc, Hq.
  - by rewrite fence_at_put_ne by congruence.
Qed.

Lemma first_hit_ext pr hit hit' n : (forall x, hit x = hit' x) ->
  forall i, first_hit pr hit n i = first_hit pr hit' n i.
Proof. intros Hh. induction n as [|n IH]; intros i; simpl; [done|]. by rewrite Hh, IH. Qed.

Lemma find_step_ext d d' hit hit' context seqno :
  dd_hw_fences_tbl_cnt d = dd_hw_fences_tbl_cnt d' -> (forall x, hit x = hit' x) ->
  find_step d hit context seqno = find_step d' hit' context seqno.
Proof.
  intros Hc Hh. unfold find_step, probe. rewrite Hc. by apply first_hit_ext.
Qed.

Lemma member_found_put d cf h f x fx f0 t :
  member_found d cf h f -> x <> h -> fence_at d x = Some f0 ->
  hf_ctx_id fx = hf_ctx_id f0 -> hf_seq_id fx = hf_seq_id f0 ->
  member_found (put_fence x fx (at_tick t d)) cf h f.
Proof.
  intros [(g & k & Eg & Ek & Eh) Hnz Hsig E Hv Hr] Hne E0 Hc Hq.
  split; try done.
  - exists g, k. split; [done|]. split; [|done]. rewrite <- Ek.
    apply find_step_ext; [done|]. intros y. by eapply key_match_put.
  - by rewrite fence_at_put_ne by congruence.
Qed.

Lemma child_ready_put d cf h f x fx f0 t :
  child_ready d cf h f -> x <> h -> fence_at d x = Some f0 ->
  hf_ctx_id fx = hf_ctx_id f0 -> hf_seq_id fx = hf_seq_id f0 ->
  child_ready (put_fence x fx (at_tick t d)) cf h f.
Proof.
  intros Hc Hne E0 Hx Hq. apply (child_ready_again d); [done|done|].
  eapply member_found_put; try done. by apply child_ready_found.
Qed.

Lemma drv_ok_of_tick t s : drv_ok (at_tick t s) -> drv_ok s.
Proof. intros Hs. apply (drv_ok_at_tick (dd_tick s)) in Hs. destruct s. exact Hs. Qed.

Definition adopt_all (hash_join : Z) (hfs : list (Z * msm_hw_fence)) (d : driver_data) : driver_data :=
  foldl (fun d hf => put_fence hf.1 (adopted hash_join hf.2) d) d hfs.

Definition children_ready (d : driver_data) (cs : list Z) (hfs : list (Z * msm_hw_fence)) : Prop :=
  Forall2 (fun cf hf => child_ready d cf hf.1 hf.2) cs hfs /\ NoDup hfs.*1 /\
  Forall (fun hf => hf_parents_cnt hf.2 <= 1) hfs.

Lemma adopted_ok hash f : 0 <= hash -> entry_ok f -> entry_ok (adopted hash f).
Proof.
  intros Hh (Hl & Hcd & Hpl & Hpos). split; [done|]. split; [done|]. simpl. rewrite zlen_zset.
  split; [done|]. unfold zset. case_match; [by apply Forall_insert|done].
Qed.

Lemma children_ready_tick t d cs hfs : children_ready d cs hfs -> children_ready (at_tick t d) cs hfs.
Proof.
  intros [Hall Hrest]. split; [|done]. eapply Forall2_impl; [exact Hall|]. intros cf hf [].
  by split.
Qed.

Lemma children_ready_cons j d cf cs hfs :
  drv_ok d -> 0 <= j -> children_ready d (cf :: cs) hfs ->
  exists h f hfs', hfs = (h, f) :: hfs' /\ child_ready d cf h f /\ hf_parents_cnt f <= 1 /\
    children_ready (put_fence h (adopted j f) d) cs hfs' /\ drv_ok (put_fence h (adopted j f) d).
Proof.
  intros Hd Hj (Hall & Hnd & Hroom).
  apply Forall2_cons_inv_l in Hall as ([h f] & hfs' & Hc & Hall & ->). simpl in Hc.
  apply NoDup_cons in Hnd as [Hnew Hnd]. apply Forall_cons in Hroom as [Hr1 Hroom].
  pose proof (cr_entry _ _ _ _ Hc) as E. exists h, f, hfs'. do 3 (split; [done|]). split.
  - split; [|done]. apply Forall2_same_length_lookup_2; [by eapply Forall2_length|].
    intros n cf' [h' f'] E1 E2. pose proof (Forall2_lookup_lr _ _ _ _ _ _ Hall E1 E2) as Hc'. simpl in *.
    eapply (child_ready_put d _ _ _ _ (adopted j f) _ (dd_tick d)) in Hc' as Hc2; [| |exact E|reflexivity|reflexivity].
    + replace (at_tick (dd_tick d) d) with d in Hc2 by (by destruct d). exact Hc2.
    + intros ->. apply Hnew. apply list_elem_of_fmap. exists (h', f'). split; [done|].
      by eapply list_elem_of_lookup_2.
  - apply drv_ok_put; [done|]. apply adopted_ok; [done|]. by eapply (entry_ok_at d).
Qed.

Lemma adopt_all_at_tick j l t s : adopt_all j l (at_tick t s) = at_tick t (adopt_all j l s).
Proof. revert s. induction l as [|x l IH]; intros s; [done|]. simpl. by rewrite <- IH. Qed.

(** The turns of a part [cs] of the array, which starts at [i]. *)
Lemma process_children_run client_id join hash_join array sig ga cs hfs d i n hash0 :
  drv_ok d -> 0 <= hash_join -> dd_dma_fences d !! array = Some ga -> df_fences_null ga = false ->
  0 <= i -> (forall n cf, cs !! n = Some cf -> zget (array_fences ga) (i + Z.of_nat n) = Some cf) ->
  children_ready d cs hfs ->
  drv_ok (adopt_all hash_join hfs d) /\
  exists t hash, process_children (length cs + n) client_id join hash_join array i sig hash0 d
    = process_children n client_id join hash_join array (i + zlen cs) sig hash
        (at_tick t (adopt_all hash_join hfs d)).
Proof.
  intros Hd Hj Ea Hnull. revert d i hash0 hfs Hd Ea.
  induction cs as [|cf cs IH]; intros d i hash0 hfs Hd Ea Hi Hat Hch.
  { destruct Hch as [Hall _]. apply Forall2_nil_inv_l in Hall as ->. split; [done|].
    exists (dd_tick d), hash0. unfold zlen. simpl. rewrite Z.add_0_r. by destruct d. }
  destruct (children_ready_cons hash_join d cf cs hfs Hd Hj Hch) as (h & f & hfs' & -> & Hc & Hr1 & Hch1 & Hd1).
  assert (zget (array_fences ga) i = Some cf) as Ecf
    by (specialize (Hat 0%nat cf eq_refl); by rewrite Z.add_0_r in Hat).
  destruct (process_child_run d client_id join hash_join array i sig hash0 cf h f ga) as (t & Hrun); try done.
  destruct (IH (at_tick t (put_fence h (adopted hash_join f) d)) (i + 1) h hfs') as (Hok' & t' & hash' & Hrun');
    [by apply drv_ok_at_tick|done|lia| |by apply children_ready_tick|].
  { intros m cf' En. replace (i + 1 + Z.of_nat m) with (i + Z.of_nat (S m)) by lia. by apply Hat. }
  rewrite adopt_all_at_tick in Hok', Hrun'. split; [exact (drv_ok_of_tick _ _ Hok')|].
  exists t', hash'. cbn [length Nat.add process_children]. rewrite (bind_run _ _ _ _ _ Hrun). cbv beta iota.
  replace (i + zlen (cf :: cs)) with (i + 1 + zlen cs) by (unfold zlen; simpl; lia). exact Hrun'.
Qed.

(** ** The whole array *)

Lemma first_hit_weaken pr (hit hit' : Z -> bool) n i k :
  first_hit pr hit n i = Some k -> (forall x, hit' x = true -> hit x = true) ->
  hit' (pr k) = true -> first_hit pr hit' n i = Some k.
Proof.
  intros H Hw Hk. destruct (first_hit_Some _ _ _ _ _ H) as (Hr & _ & Hbefore).
  apply first_hit_complete; [done|done|]. intros j Hj. specialize (Hbefore j Hj).
  destruct (hit' (pr j)) eqn:E; [|done]. apply Hw in E. congruence.
Qed.

(** Making the join fence of [array] in the free slot [j] does not hide a
    member. *)
Lemma member_found_reserved d cf h f j fj array fr t :
  member_found d cf h f -> fence_at d j = Some fj -> hf_valid fj = 0 -> cf <> array ->
  member_found (put_key j array (put_fence j fr (at_tick t d))) cf h f.
Proof.
  intros [(g & k & Eg & Ek & Eh) Hnz Hsig E Hv Hr] Ej Hvj Hca.
  assert (h <> j) as Hne by (intros ->; congruence).
  set (d' := put_key j array (put_fence j fr (at_tick t d))).
  assert (forall x, x <> j -> key_match d' cf (df_context g) (df_seqno g) x
                              = key_match d cf (df_context g) (df_seqno g) x) as Hsame.
  { intros x Hx. unfold key_match, d'. rewrite fence_at_put_key, fence_at_put_ne by congruence.
    simpl. by rewrite zget_zset_ne by congruence. }
  split; try done.
  - exists g, k. split; [done|]. split; [|done].
    apply (first_hit_weaken _ _ _ _ _ _ Ek).
    + intros x. destruct (decide (x = j)) as [->|Hx]; [|by rewrite Hsame].
      intros Hm. exfalso. unfold key_match in Hm. destruct (fence_at d' j) as [f'|]; [|done].
      unfold d' in Hm. simpl in Hm. rewrite zget_zset in Hm. case_decide as Hd.
      * apply andb_true_iff in Hm as [_ Hm]. apply Z.eqb_eq in Hm. congruence.
      * destruct (zget (dd_hlos_key_tbl d) j) eqn:Eg'; [|done]. apply zget_Some in Eg'. lia.
    + change (probe d' (df_context g) (df_seqno g) k) with (probe d (df_context g) (df_seqno g) k).
      rewrite <- Eh, Hsame by done. destruct (first_hit_Some _ _ _ _ _ Ek) as (_ & Hm & _). by rewrite Eh.
  - unfold d'. by rewrite fence_at_put_key, fence_at_put_ne by congruence.
Qed.

Lemma child_ready_reserved d cf h f j fj array fr t :
  child_ready d cf h f -> fence_at d j = Some fj -> hf_valid fj = 0 -> cf <> array ->
  child_ready (put_key j array (put_fence j fr (at_tick t d))) cf h f.
Proof.
  intros Hc Ej Hv Hne. apply (child_ready_again d); [done|done|].
  eapply member_found_reserved; try done. by apply child_ready_found.
Qed.

Lemma children_ready_reserved d cs hfs j fj array fr t :
  children_ready d cs hfs -> fence_at d j = Some fj -> hf_valid fj = 0 -> array ∉ cs ->
  children_ready (put_key j array (put_fence j fr (at_tick t d))) cs hfs.
Proof.
  intros (Hall & Hnd & Hroom) Ej Hvj Ha. split; [|done].
  apply Forall2_same_length_lookup_2; [by eapply Forall2_length|].
  intros n cf hf E1 E2. pose proof (Forall2_lookup_lr _ _ _ _ _ _ Hall E1 E2) as Hc.
  eapply child_ready_reserved; [done..|]. intros <-. apply Ha. by eapply list_elem_of_lookup_2.
Qed.

Lemma child_neq_free d cs hfs j fj :
  children_ready d cs hfs -> fence_at d j = Some fj -> hf_valid fj = 0 -> j ∉ hfs.*1.
Proof.
  intros [Hall _] Ej Hv (hf & -> & Hin)%list_elem_of_fmap.
  apply list_elem_of_lookup in Hin as [n En].
  destruct (Forall2_lookup_r _ _ _ _ _ Hall En) as (cf & _ & Hc).
  apply (cr_valid _ _ _ _ Hc). pose proof (cr_entry _ _ _ _ Hc). congruence.
Qed.

Lemma adopt_all_other hash hfs d x : x ∉ hfs.*1 -> fence_at (adopt_all hash hfs d) x = fence_at d x.
Proof.
  revert d. induction hfs as [|[h f] hfs IH]; intros d Hx; [done|]. simpl in Hx.
  apply not_elem_of_cons in Hx as [Hne Hx]. simpl. rewrite IH by done. by apply fence_at_put_ne.
Qed.

Lemma adopt_all_in hash hfs d h f f0 :
  NoDup hfs.*1 -> (h, f) ∈ hfs -> fence_at d h = Some f0 ->
  fence_at (adopt_all hash hfs d) h = Some (adopted hash f).
Proof.
  revert d f0. induction hfs as [|[h' f'] hfs IH]; intros d f0 Hnd Hin E; [by apply not_elem_of_nil in Hin|].
  simpl in Hnd. apply NoDup_cons in Hnd as [Hnew Hnd]. simpl.
  apply elem_of_cons in Hin as [[= -> ->]|Hin].
  - rewrite adopt_all_other by done. eapply fence_at_put_eq. exact E.
  - eapply IH; [done|done|]. rewrite fence_at_put_ne; [exact E|]. intros <-. apply Hnew.
    apply list_elem_of_fmap. eexists. split; [|exact Hin]. done.
Qed.

(** The join fence entry the operation leaves. *)
Definition join_entry (c : hw_fence_client) (ga : dma_fence) (client_data t : Z) (fj : msm_hw_fence)
  : msm_hw_fence :=
  put_client_data (cl_client_id_ext c) client_data
    ((reserved HW_FENCE_JOIN_FENCE_CLIENT_ID (df_context ga) (df_seqno ga) (zlen (array_fences ga)) t fj)
       <| hf_wait_client_mask := BIT (cl_client_id c) |>).

Lemma adopt_all_frame hash hfs d :
  dd_hlos_key_tbl (adopt_all hash hfs d) = dd_hlos_key_tbl d.
Proof. revert d. induction hfs as [|hf hfs IH]; intros d; [done|]. simpl. by rewrite IH. Qed.

Lemma waited_ok m f : entry_ok f -> entry_ok (f <| hf_wait_client_mask ::= m |>).
Proof. done. Qed.

Lemma put_key_fence j key f d : put_key j key (put_fence j f d) = put_fence j f (put_key j key d).
Proof. done. Qed.

Lemma join_created d ga array hash0 client_id k fj :
  drv_ok d -> dd_dma_fences d !! array = Some ga ->
  find_step d (create_hit d array (df_context ga) (df_seqno ga)) (df_context ga) (df_seqno ga) = Some k ->
  let j := probe d (df_context ga) (df_seqno ga) k in
  fence_at d j = Some fj -> hf_valid fj = 0 ->
  let fr := reserved HW_FENCE_JOIN_FENCE_CLIENT_ID (df_context ga) (df_seqno ga)
              (zlen (array_fences ga)) (now (ticked d)) fj in
  let g f := f <| hf_wait_client_mask ::= fun m => u64 (Z.lor m (BIT client_id)) |> in
  forall B (rest : Z -> Z -> DRV B) (bad : Z -> DRV B),
  bind (_hw_fence_process_join_fence array hash0 true)
    (fun out => let '(o, hash_join_fence) := out in
      match o with
      | None => bad hash_join_fence
      | Some join_fence =>
          global_atomic_store (FenceLock join_fence) true;;;
          update_fence join_fence g;;;
          global_atomic_store (FenceLock join_fence) false;;;
          rest join_fence hash_join_fence
      end) d
  = rest j j (put_key j array (put_fence j (g fr) (at_tick (S (S (dd_tick d))) d))) /\
  entry_ok (g fr).
Proof.
  intros Hd Ea Ek j Ej Hv fr g B rest bad. pose proof (do_table _ Hd) as Hok.
  assert (_hw_fence_process_join_fence array hash0 true d
          = Done (Some j, j) (put_key j array (put_fence j fr (ticked (ticked d))))) as Hc.
  { unfold _hw_fence_process_join_fence. rewrite (bind_run _ _ _ _ _ (get_dma_fence_run _ _ _ Ea)).
    rewrite create_run by auto with fence. rewrite Ek. fold j. unfold create_result.
    by rewrite ticked_fence, Ej, Hv. }
  rewrite (bind_run _ _ _ _ _ Hc). cbv beta iota.
  set (d1 := put_key j array (put_fence j fr (ticked (ticked d)))).
  assert (fence_at d1 j = Some fr) as E1 by (exact (fence_at_put_eq (ticked (ticked d)) j fr fj Ej)).
  assert (entry_ok fr) as Hfr by (apply reserved_ok; exact (entry_ok_at _ _ _ Hd Ej)).
  split; [|by apply waited_ok].
  rewrite (locked_update_run d1 j fr g); [|done|apply Hfr|by apply lock_neutral_intro].
  assert (put_fence j (g fr) d1 = put_key j array (put_fence j (g fr) (at_tick (S (S (dd_tick d))) d)))
    as Heq by (by unfold d1; rewrite (put_key_fence j array fr), (put_key_fence j array (g fr)), put_put).
  exact (f_equal (rest j j) Heq).
Qed.

Lemma put_client_data_ok client_id_ext client_data f :
  entry_ok f -> entry_ok (put_client_data client_id_ext client_data f).
Proof.
  unfold put_client_data. case_match; [done|]. intros (Hl & Hcd & Hpl). split; [done|]. split; [|done].
  simpl. by rewrite zlen_zset.
Qed.

Lemma u64_bit_of_zero id : 0 <= id < 64 -> u64 (Z.lor 0 (BIT id)) = BIT id.
Proof.
  intros Hi. rewrite Z.lor_0_l. unfold u64, BIT. apply Z.mod_small. rewrite Z.shiftl_1_l.
  split; [apply Z.pow_nonneg; lia|]. apply Z.pow_lt_mono_r; lia.
Qed.

Lemma waited_first m f :
  hf_wait_client_mask f = 0 -> f <| hf_wait_client_mask ::= m |> = f <| hf_wait_client_mask := m 0 |>.
Proof. destruct f. simpl. by intros ->. Qed.

Lemma reserved_waited client_id context seqno pending t f id :
  0 <= id < 64 ->
  (reserved client_id context seqno pending t f) <| hf_wait_client_mask ::= fun m => u64 (Z.lor m (BIT id)) |>
  = (reserved client_id context seqno pending t f) <| hf_wait_client_mask := BIT id |>.
Proof.
  intros Hi. rewrite (waited_first (fun m => u64 (Z.lor m (BIT id)))) by reflexivity.
  by rewrite u64_bit_of_zero.
Qed.

Lemma array_not_child d cs hfs array ga :
  children_ready d cs hfs -> dd_dma_fences d !! array = Some ga -> df_array ga <> None -> array ∉ cs.
Proof.
  intros [Hall _] Ea Harr [n En]%list_elem_of_lookup.
  destruct (Forall2_lookup_l _ _ _ _ _ Hall En) as (hf & _ & Hc).
  destruct (cr_fence _ _ _ _ Hc) as (g & ? & Eg & Hn & _). congruence.
Qed.

(** Where the members of the array are. *)
Lemma array_prefix_at ga cs rest :
  array_fences ga = cs ++ rest ->
  forall n cf, cs !! n = Some cf -> zget (array_fences ga) (0 + Z.of_nat n) = Some cf.
Proof.
  intros -> n cf En. unfold zget. destruct (Z.leb_spec 0 (0 + Z.of_nat n)); [|lia].
  rewrite Z.add_0_l, Nat2Z.id. by apply lookup_app_l_Some.
Qed.

Lemma array_next_at ga cs x rest :
  array_fences ga = cs ++ x :: rest -> zget (array_fences ga) (zlen cs) = Some x.
Proof.
  intros ->. unfold zget, zlen. destruct (Z.leb_spec 0 (Z.of_nat (length cs))); [|lia].
  rewrite Nat2Z.id. by rewrite lookup_app_r, Nat.sub_diag by lia.
Qed.

Lemma ready_child_adopted j d cs hfs h f :
  children_ready d cs hfs -> (h, f) ∈ hfs -> fence_at (adopt_all j hfs d) h = Some (adopted j f).
Proof.
  intros (Hall & Hnd & _) Hin. apply list_elem_of_lookup in Hin as Hn. destruct Hn as [n En].
  destruct (Forall2_lookup_r _ _ _ _ _ Hall En) as (cf & _ & Hc).
  eapply adopt_all_in; [done|done|]. exact (cr_entry _ _ _ _ Hc).
Qed.

(** C15: waiting for an array of fences the kernel has not signaled.  The join
    fence is made in a free entry for the array; it waits for exactly the
    children of the array, on behalf of the client, and carries its data.  Every
    child keeps its references and gains the join fence as its last parent, and no
    other entry changes. *)
Theorem process_fence_array_spec d ch c array ga cs hfs hash0 client_data k fj :
  drv_ok d -> zget (dd_clients d) ch = Some (Some c) -> 0 <= cl_client_id c < 64 ->
  bad_client_data (cl_client_id_ext c) client_data = false ->
  dd_dma_fences d !! array = Some ga -> df_fences_null ga = false -> df_array ga = Some cs ->
  cs <> [] -> children_ready d cs hfs ->
  find_step d (create_hit d array (df_context ga) (df_seqno ga)) (df_context ga) (df_seqno ga) = Some k ->
  let j := probe d (df_context ga) (df_seqno ga) k in
  fence_at d j = Some fj -> hf_valid fj = 0 ->
  exists d', hw_fence_process_fence_array ch array hash0 client_data d = Done (0, j) d' /\ drv_ok d' /\
    fence_at d' j = Some (join_entry c ga client_data (now (ticked d)) fj) /\
    zget (dd_hlos_key_tbl d') j = Some array /\
    (forall h f, (h, f) ∈ hfs -> fence_at d' h = Some (adopted j f)) /\
    (forall x, x <> j -> x ∉ hfs.*1 -> fence_at d' x = fence_at d x).
Proof.
  intros Hd Ec Hid Hbad Ea Hnull Harr Hcs Hch Ek j Ej Hv. pose proof (do_table _ Hd) as Hok.
  pose proof (array_not_child _ _ _ _ _ Hch Ea ltac:(congruence)) as Hac.
  pose proof (child_neq_free _ _ _ _ _ Hch Ej Hv) as Hjn.
  unfold hw_fence_process_fence_array. rewrite (bind_run _ _ _ _ _ (get_client_run _ _ _ Ec)), Hbad.
  cbv iota.
  edestruct (join_created d ga array hash0 (cl_client_id c) k fj) as [Hrun Hfr]; [done..|].
  rewrite Hrun. clear Hrun. fold j in Hfr |- *. clearbody j. set (fr := reserved _ _ _ _ _ _) in *. cbv beta in Hfr.
  set (fj' := fr <| hf_wait_client_mask ::= _ |>) in *.
  set (d1 := put_key j array (put_fence j fj' (at_tick (S (S (dd_tick d))) d))).
  assert (drv_ok d1) as Hd1 by (apply drv_ok_put_key, drv_ok_put; auto with fence).
  assert (children_ready d1 cs hfs) as Hch1 by (eapply children_ready_reserved; done).
  assert (array_fences ga = cs) as Hcs' by (unfold array_fences; by rewrite Harr).
  rewrite (bind_run _ _ _ _ _ (get_dma_fence_run d1 array ga Ea)), Hcs'.
  assert (Z.to_nat (zlen cs) = length cs) as -> by (unfold zlen; lia).
  assert (0 <= j) as Hj by (pose proof (fence_at_bounds _ _ _ Ej); lia).
  destruct (process_children_run (cl_client_id c) j j array false ga cs hfs d1 0 0 0) as (Hd2 & t & hash & Hrun);
    [done..| |done|].
  { apply (array_prefix_at ga cs []). by rewrite app_nil_r. }
  rewrite Nat.add_0_r in Hrun. cbn [process_children] in Hrun.
  rewrite (bind_run _ _ _ _ _ Hrun). cbv beta iota zeta. set (d2 := at_tick t (adopt_all j hfs d1)).
  assert (fence_at d1 j = Some fj') as E1.
  { unfold d1. rewrite fence_at_put_key. eapply fence_at_put_eq. exact Ej. }
  assert (fence_at d2 j = Some fj') as E2 by (unfold d2; change (fence_at (adopt_all j hfs d1) j = Some fj');
    by rewrite adopt_all_other).
  rewrite (bind_run _ _ _ _ _ (update_fence_run _ _ _ _ E2)).
  destruct (Z.eqb_spec (zlen cs) 0) as [Hz|_]; [unfold zlen in Hz; destruct cs; [done|simpl in Hz; lia]|].
  set (fe := put_client_data _ _ fj').
  assert (fe = join_entry c ga client_data (now (ticked d)) fj) as Efe.
  { unfold join_entry. rewrite <- reserved_waited by done. reflexivity. }
  assert (entry_ok fe) as Hfe by (by apply put_client_data_ok). rewrite <- Efe. clear Efe. clearbody fe.
  clearbody fj'. clear fr Hrun.
  eexists. split; [done|]. split; [|split; [|split; [|split]]].
  - apply drv_ok_put; [by apply drv_ok_at_tick|done].
  - eapply fence_at_put_eq. exact E2.
  - change (zget (dd_hlos_key_tbl (adopt_all j hfs d1)) j = Some array). rewrite adopt_all_frame.
    unfold d1. simpl. apply zget_zset_eq. rewrite (tw_key _ (to_wf _ Hok)), <- (tw_tbl _ (to_wf _ Hok)).
    by eapply fence_at_bounds.
  - intros h f Hin. assert (h <> j) by (intros ->; apply Hjn; apply list_elem_of_fmap; by exists (j, f)).
    rewrite fence_at_put_ne by done. by eapply ready_child_adopted.
  - intros x Hx Hnin. rewrite fence_at_put_ne by done.
    change (fence_at (adopt_all j hfs d1) x = fence_at d x). rewrite adopt_all_other by done.
    unfold d1. by rewrite fence_at_put_key, fence_at_put_ne.
Qed.

(** ** Waiting for one fence *)

(** What an entry becomes for a client that waits for it from time [t] on. *)
Definition waiter (c : hw_fence_client) (client_data t : Z) (f : msm_hw_fence) : msm_hw_fence :=
  put_client_data (cl_client_id_ext c) client_data
    (f <| hf_wait_client_mask ::= fun m => u64 (Z.lor m (BIT (cl_client_id c))) |>
       <| hf_fence_wait_time := t |>).

Lemma waiter_fields c client_data t f :
  hf_lock (waiter c client_data t f) = hf_lock f /\ hf_flags (waiter c client_data t f) = hf_flags f /\
  hf_error (waiter c client_data t f) = hf_error f /\ hf_ctx_id (waiter c client_data t f) = hf_ctx_id f /\
  hf_seq_id (waiter c client_data t f) = hf_seq_id f.
Proof. unfold waiter, put_client_data. by case_match. Qed.

Lemma waiter_detached c client_data t : detached (waiter c client_data t).
Proof. split; intros; unfold waiter, put_client_data; by case_match. Qed.

Lemma waiter_ok c client_data t f : entry_ok f -> entry_ok (waiter c client_data t f).
Proof. intros Hf. unfold waiter. by apply put_client_data_ok. Qed.

Lemma notice_same_fence d c f f' hash fl err imp :
  hf_ctx_id f' = hf_ctx_id f -> hf_seq_id f' = hf_seq_id f ->
  notice d c f' hash fl err imp = notice d c f hash fl err imp.
Proof. intros Hc Hq. unfold notice. by rewrite Hc, Hq. Qed.

(** The wait bit, the time and the data are written under the entry's lock. *)
Lemma waiter_run {B} d h f c client_data b (k : bool -> DRV B) :
  fence_at d h = Some f -> lock_free f -> 
  (global_atomic_store (FenceLock h) true;;;
   f0 <-- get_fence h;
   is_signaled <--
     (if hf_fence_allocator f0 =? cl_client_id c then
        update_fence h (fun f => f <| hf_refcount ::= fun r => Z.lor r HW_FENCE_FCTL_REFCOUNT |>);;;
        ret b
      else
        update_fence h (fun f => f <| hf_wait_client_mask ::=
                                   fun m => u64 (Z.lor m (BIT (cl_client_id c))) |>);;;
        t <-- hw_fence_get_qtime;
        update_fence h (fun f => put_client_data (cl_client_id_ext c) client_data
                                   (f <| hf_fence_wait_time := t |>));;;
        ret (flag (hf_flags f0) MSM_HW_FENCE_FLAG_SIGNAL));
   global_atomic_store (FenceLock h) false;;;
   k is_signaled) d
  = if hf_fence_allocator f =? cl_client_id c
    then k b (put_fence h (f <| hf_refcount ::= fun r => Z.lor r HW_FENCE_FCTL_REFCOUNT |>) d)
    else k (is_signaled_hw f) (put_fence h (waiter c client_data (now d) f) (ticked d)).
Proof.
  intros E Hl. rewrite (bind_run _ _ _ _ _ (locked_at_run _ _ _ E Hl)).
  pose proof (locked_at_fence _ _ _ E) as E1. rewrite (bind_run _ _ _ _ _ (get_fence_run _ _ _ E1)).
  change (hf_fence_allocator (with_lock 1 f)) with (hf_fence_allocator f).
  change (flag (hf_flags (with_lock 1 f)) MSM_HW_FENCE_FLAG_SIGNAL) with (is_signaled_hw f).
  destruct (hf_fence_allocator f =? cl_client_id c).
  - rewrite bind_assoc, (bind_run _ _ _ _ _ (update_fence_run _ _ _ _ E1)). erewrite bind_run by done.
    set (g := fun f => f <| hf_refcount ::= fun r => Z.lor r HW_FENCE_FCTL_REFCOUNT |>).
    change (f <| hf_refcount ::= _ |>) with (g f).
    assert (lock_neutral g /\ forall f, lock_held (g (with_lock 1 f))) as [Hn Hh] by (by apply lock_neutral_intro).
    by rewrite (bind_run _ _ _ _ _ (unlock_after _ _ _ _ E Hl Hn (Hh f))).
  - set (g1 := fun f => f <| hf_wait_client_mask ::= fun m => u64 (Z.lor m (BIT (cl_client_id c))) |>).
    rewrite bind_assoc, (bind_run _ _ _ _ _ (update_fence_run _ _ _ g1 E1)).
    rewrite bind_assoc, (bind_run _ _ _ _ _ (qtime_run _)).
    set (d1 := put_fence h (g1 (with_lock 1 f)) (locked_at h d)).
    assert (fence_at (ticked d1) h = Some (g1 (with_lock 1 f))) as E2
      by (exact (fence_at_put_eq (locked_at h d) h _ _ E1)).
    rewrite bind_assoc, (bind_run _ _ _ _ _ (update_fence_run _ _ _ _ E2)). erewrite bind_run by done.
    set (t := u64 _).
    set (g := waiter c client_data t).
    assert (lock_neutral g /\ forall f, lock_held (g (with_lock 1 f))) as [Hn Hh].
    { unfold g, waiter, put_client_data. case_match; by apply lock_neutral_intro. }
    assert (fence_at (ticked d) h = Some f) as E' by done.
    pose proof (unlock_after _ _ _ _ E' Hl Hn (Hh f)) as Hu.
    assert (locked_at h (ticked d) = ticked (locked_at h d)) as Hlt.
    { unfold locked_at. rewrite ticked_fence, E. done. }
    rewrite Hlt in Hu.
    assert (put_fence h (put_client_data (cl_client_id_ext c) client_data
              ((g1 (with_lock 1 f)) <| hf_fence_wait_time := t |>)) (ticked d1)
            = put_fence h (g (with_lock 1 f)) (ticked (locked_at h d))) as ->.
    { change (ticked d1) with (put_fence h (g1 (with_lock 1 f)) (ticked (locked_at h d))). by rewrite put_put. }
    rewrite (bind_run _ _ _ _ _ Hu). by replace (now d) with t by (unfold t, d1, locked_at; by rewrite E).
Qed.

(** The state after the dma-fence was marked. *)
Definition mark_dma (fence bit : Z) (d : driver_data) : driver_data :=
  d <| dd_dma_fences ::= alter (fun g => g <| df_flags ::= fun x => Z.lor x (BIT bit) |>) fence |>.

Lemma set_dma_flag_run d fence g bit :
  dd_dma_fences d !! fence = Some g -> set_dma_flag fence bit d = Done tt (mark_dma fence bit d).
Proof.
  intros E. unfold set_dma_flag, update_dma_fence. rewrite (bind_run _ _ _ _ _ (get_dma_fence_run _ _ _ E)).
  unfold modifyM, mark_dma, bind, get, put. f_equal. destruct d. simpl in *. f_equal.
  apply map_eq. intros i. destruct (decide (i = fence)) as [->|].
  - by rewrite lookup_insert_eq, lookup_alter_eq, E.
  - by rewrite lookup_insert_ne, lookup_alter_ne by congruence.
Qed.

Lemma drv_ok_mark_dma fence bit d : drv_ok d -> drv_ok (mark_dma fence bit d).
Proof.
  intros [Ht Hl Hlc Hc Hr He Hg]. split; try done.
  - exact (table_ok_frame (mark_dma fence bit) d ltac:(done) Ht).
  - intros x g. simpl. rewrite lookup_alter_Some. intros [(<- & g0 & E & ->)|[_ E]]; [|by eapply Hg].
    by apply (Hg _ _ E).
Qed.

(** Giving back a reference that was taken on a live entry. *)
Lemma give_back_run d h f r g :
  table_ok d -> refs_wf r -> hf_refcount f = refs_word r -> 0 < rf_hlos r < 2 ^ 30 - 1 -> detached g ->
  fence_at d h = Some (g (get_ref f)) ->
  hw_fence_destroy_with_hash h d = Done 0 (put_fence h (g f) d).
Proof.
  intros Hok Hr Ew Hh Hg E. destruct (put_get_entry g f r Hr Ew Hh Hg) as (Hput & Hrel & Hfl).
  by rewrite (destroy_with_hash_run _ _ _ Hok E), Hfl, Hrel, Hput.
Qed.

Lemma mark_dma_flag fence bit d g :
  0 <= bit -> dd_dma_fences d !! fence = Some g ->
  exists g', dd_dma_fences (mark_dma fence bit d) !! fence = Some g' /\ test_dma_flag g' bit = true.
Proof.
  intros Hb E. eexists. split; [simpl; by rewrite lookup_alter_eq, E|].
  unfold test_dma_flag. simpl. unfold flag. apply negb_true_iff, Z.eqb_neq. intros H.
  apply (f_equal (fun z => Z.testbit z bit)) in H. revert H. unfold BIT.
  rewrite Z.land_spec, Z.lor_spec, Z.shiftl_1_l, Z.pow2_bits_true, Z.bits_0 by lia. by rewrite orb_true_r.
Qed.

(** A waiter of a fence that is signaled is told at once; a refused message gives the
    reference back. *)
Lemma tell_waiter_run d ch c fence g h f rf client_data t1 :
  let fw := waiter c client_data t1 (get_ref f) in
  drv_ok d -> zget (dd_clients d) ch = Some (Some c) -> dd_dma_fences d !! fence = Some g ->
  fence_at d h = Some fw -> entry_ok f -> refs_wf rf -> hf_refcount f = refs_word rf -> 0 < rf_hlos rf < 2 ^ 30 - 1 ->
  let told := notice_result d c (hf_error f) true in
  exists d', tell_waiter (Some fence) ch h h client_data true d = Done (told, h) d' /\ drv_ok d' /\
    (forall x, x <> h -> fence_at d' x = fence_at d x) /\
    dd_events d' = dd_events d ++ notice d c f h 0 (hf_error f) true /\
    (exists g', dd_dma_fences d' !! fence = Some g' /\ test_dma_flag g' MSM_HW_FENCE_FLAG_SIGNALED_BIT = true) /\
    fence_at d' h = Some (waiter c client_data t1 (if told =? 0 then get_ref f else f)).
Proof.
  intros fw Hd Ec Eg E Hf Hr Ew Hh told. unfold tell_waiter.
  rewrite (bind_run _ _ _ _ _ (set_dma_flag_run d fence g _ Eg)).
  set (d3 := mark_dma fence MSM_HW_FENCE_FLAG_SIGNALED_BIT d).
  rewrite (bind_run _ _ _ _ _ (get_fence_run d3 h fw E)).
  destruct (waiter_fields c client_data t1 (get_ref f)) as (_ & _ & Her & Hc & Hq).
  fold fw in Her, Hc, Hq.
  destruct (mark_dma_flag fence MSM_HW_FENCE_FLAG_SIGNALED_BIT d g) as (g' & Eg' & Hg'); [done|exact Eg|].
  destruct (fence_ctl_signal_run d3 ch c h fw h 0 client_data (hf_error fw) true)
    as (c' & t2 & Hsr & Hc' & Hsc); [by apply drv_ok_mark_dma|exact Ec|exact E|].
  rewrite (bind_run _ _ _ _ _ Hsr).
  assert (notice_result d3 c (hf_error fw) true = told) as Hres
    by (change (notice_result d c (hf_error fw) true = told); unfold told; by rewrite Her).
  assert (notice d3 c fw h 0 (hf_error fw) true = notice d c f h 0 (hf_error f) true) as Hno.
  { rewrite (notice_same_fence d3 c (get_ref f) fw) by done. rewrite Her.
    change (notice d c (get_ref f) h 0 (hf_error f) true = notice d c f h 0 (hf_error f) true).
    by apply notice_same_fence. }
  rewrite Hres, Hno. set (d4 := client_moved ch c' t2 _ d3).
  assert (drv_ok d4) as Hd4 by (eapply drv_ok_moved; [by apply drv_ok_mark_dma|exact Ec|exact Hc']).
  destruct (Z.eqb_spec told 0) as [Hz|Hz]; cbv beta iota delta [negb].
  - exists d4. split; [done|]. split; [done|]. split; [done|]. split; [done|]. split; [by exists g'|done].
  - pose proof (give_back_run d4 h f rf (waiter c client_data t1) (do_table _ Hd4) Hr Ew Hh
                  (waiter_detached _ _ _) E) as Hgb.
    rewrite bind_assoc, (bind_run _ _ _ _ _ Hgb). erewrite bind_run by done.
    eexists. split; [done|]. split; [|split; [|split; [done|split; [by exists g'|]]]].
    + apply drv_ok_put; [done|]. by apply waiter_ok.
    + intros x Hne. by rewrite fence_at_put_ne by congruence.
    + by eapply fence_at_put_eq.
Qed.

(** C23: registering a client as a waiter of a dma-fence made by another client
    and not yet signaled by the kernel.  The wait bit, the time and the data of the
    client are written and it holds one more reference of the entry.  When the
    entry is signaled already, the client is also told at once, with the error of
    the entry, and the dma-fence is marked; if the client's queue refuses the
    message the call fails and the reference is given back, while the wait bit
    stays.  No other entry changes. *)
Theorem register_wait_client_spec d ch c fence g hash0 client_data k f rf :
  drv_ok d -> zget (dd_clients d) ch = Some (Some c) ->
  bad_client_data (cl_client_id_ext c) client_data = false ->
  dd_dma_fences d !! fence = Some g -> (forall n, env_dma_signaled (dd_env d) fence n = false) ->
  find_step d (key_match d fence (df_context g) (df_seqno g)) (df_context g) (df_seqno g) = Some k ->
  let h := probe d (df_context g) (df_seqno g) k in
  fence_at d h = Some f -> hf_fence_allocator f <> cl_client_id c ->
  refs_wf rf -> hf_refcount f = refs_word rf -> 0 < rf_hlos rf < 2 ^ 30 - 1 ->
  let notices := notice d c f h 0 (hf_error f) true in
  let told_result := notice_result d c (hf_error f) true in
  exists t d',
    hw_fence_register_wait_client (Some fence) ch (df_context g) (df_seqno g) hash0 client_data d
    = Done (if is_signaled_hw f then told_result else 0, h) d' /\ drv_ok d' /\
    (forall x, x <> h -> fence_at d' x = fence_at d x) /\
    if is_signaled_hw f then
      dd_events d' = dd_events d ++ notices /\
      (exists g', dd_dma_fences d' !! fence = Some g' /\
                  test_dma_flag g' MSM_HW_FENCE_FLAG_SIGNALED_BIT = true) /\
      fence_at d' h = Some (waiter c client_data t (if told_result =? 0 then get_ref f else f))
    else
      dd_events d' = dd_events d /\ dd_clients d' = dd_clients d /\
      fence_at d' h = Some (waiter c client_data t (get_ref f)).
Proof.
  intros Hd Ec Hbad Eg Hsig Ek h E Hal Hr Ew Hh notices told_result.
  assert (saturated f = false) as Hs.
  { rewrite (refs_saturated f rf) by done. apply Z.eqb_neq. lia. }
  destruct (find_with_dma_fence_run d g (cl_client_id c) fence hash0 true Hd Eg Hsig) as (out & d' & Hrun & Hf).
  { intros k' f' Ek' E'. unfold find_step in Ek. rewrite Ek in Ek'. injection Ek' as <-.
    fold h in E'. congruence. }
  rewrite Ek in Hf. cbv zeta in Hf. fold h in Hf. clearbody h. destruct Hf as (f' & t & E' & -> & -> & _).
  assert (f' = f) as -> by congruence. clear E'.
  unfold hw_fence_register_wait_client. rewrite (bind_run _ _ _ _ _ (get_client_run _ _ _ Ec)), Hbad.
  cbv iota. rewrite (bind_run _ _ _ _ _ Hrun). cbv beta iota.
  set (d1 := put_fence h (get_ref f) (at_tick t d)).
  assert (entry_ok (get_ref f)) as Hgf by (apply get_ref_ok; exact (entry_ok_at _ _ _ Hd E)).
  assert (drv_ok d1) as Hd1 by (apply drv_ok_put; auto with fence).
  assert (fence_at d1 h = Some (get_ref f)) as E1 by (exact (fence_at_put_eq (at_tick t d) h _ f E)).
  rewrite (waiter_run d1 h (get_ref f) c client_data false _ E1) by apply Hgf.
  change (hf_fence_allocator (get_ref f)) with (hf_fence_allocator f).
  destruct (Z.eqb_spec (hf_fence_allocator f) (cl_client_id c)); [done|].
  change (is_signaled_hw (get_ref f)) with (is_signaled_hw f).
  set (t1 := now d1). exists t1. clearbody t1. set (fw := waiter c client_data t1 (get_ref f)).
  set (d2 := put_fence h fw (ticked d1)).
  assert (drv_ok d2) as Hd2 by (apply drv_ok_put; [auto with fence|by apply waiter_ok]).
  assert (fence_at d2 h = Some fw) as E2 by (exact (fence_at_put_eq (ticked d1) h _ _ E1)).
  assert (forall x, x <> h -> fence_at d2 x = fence_at d x) as Hx.
  { intros x Hne. unfold d2, d1. rewrite fence_at_put_ne by congruence.
    exact (fence_at_put_ne (at_tick t d) h x _ ltac:(done)). }
  destruct (is_signaled_hw f) eqn:Hsf; [|by exists d2].
  destruct (tell_waiter_run d2 ch c fence g h f rf client_data t1 Hd2 Ec Eg E2 (entry_ok_at _ _ _ Hd E) Hr Ew Hh)
    as (d' & Htell & Hd' & Hx' & Hev & Hdma & Eh).
  exists d'. split; [exact Htell|]. split; [done|]. split; [intros x Hne; by rewrite Hx', Hx|].
  split; [exact Hev|]. by split.
Qed.

(** ** Undoing an array *)

(** The slot the next parent goes to is empty, and the join fence [j] is not among
    the parents. *)
Record clean_slot (j : Z) (f : msm_hw_fence) : Prop := {
  cs_slot : zget (hf_parent_list f) (hf_parents_cnt f) = Some HW_FENCE_INVALID_PARENT_FENCE;
  cs_other : forall i, 0 <= i < hf_parents_cnt f -> zget (hf_parent_list f) i <> Some j }.

Lemma unlink_from_other j n f :
  (forall i, 0 <= i < Z.of_nat n -> zget (hf_parent_list f) i <> Some j) -> unlink_from j n f = f.
Proof.
  induction n as [|n IH]; intros Hn; [done|]. cbn [unlink_from].
  assert (unlink_at j f (Z.of_nat (S n)) = f) as ->.
  { unfold unlink_at. pose proof (Hn (Z.of_nat (S n) - 1) ltac:(lia)) as Hne.
    destruct (zget _ _) as [p|]; [|done]. destruct (Z.eqb_spec p j); [congruence|done]. }
  apply IH. intros i Hi. apply Hn. lia.
Qed.

(** Taking back the last parent. *)
Lemma unlink_adopted j f :
  0 <= hf_parents_cnt f <= 2 -> clean_slot j f -> unlink_parent j (adopted j f) = f.
Proof.
  intros Hc [Hs Ho]. pose proof (zget_Some _ _ _ Hs) as Hr.
  unfold unlink_parent. change (hf_parents_cnt (adopted j f)) with (hf_parents_cnt f + 1).
  replace (i32 (hf_parents_cnt f + 1)) with (hf_parents_cnt f + 1)
    by (assert (hf_parents_cnt f = 0 \/ hf_parents_cnt f = 1 \/ hf_parents_cnt f = 2) as [->|[->| ->]] by lia; done).
  replace (Z.to_nat (Z.min (hf_parents_cnt f + 1) MSM_HW_FENCE_MAX_JOIN_PARENTS))
    with (S (Z.to_nat (hf_parents_cnt f))) by (unfold MSM_HW_FENCE_MAX_JOIN_PARENTS; lia).
  cbn [unlink_from].
  assert (unlink_at j (adopted j f) (Z.of_nat (S (Z.to_nat (hf_parents_cnt f)))) = f) as ->.
  { replace (Z.of_nat (S (Z.to_nat (hf_parents_cnt f)))) with (hf_parents_cnt f + 1) by lia.
    unfold unlink_at. replace (hf_parents_cnt f + 1 - 1) with (hf_parents_cnt f) by lia.
    change (hf_parent_list (adopted j f)) with (zset (hf_parents_cnt f) j (hf_parent_list f)).
    rewrite zget_zset_eq by done. rewrite Z.eqb_refl. unfold adopted. destruct f; simpl in *.
    rewrite zset_zset, zset_id by done. f_equal.
    destruct (Z.eqb_spec (hf_parents_cnt + 1) 0); [lia|].
    rewrite u32_id by (unfold in_u32; lia). lia. }
  apply unlink_from_other. intros i Hi. apply Ho. lia.
Qed.

Lemma unlink_at_detached j i : detached (fun f => unlink_at j f i).
Proof. split; intros; unfold unlink_at; simpl; repeat case_match; done. Qed.

Lemma unlink_from_detached j n : detached (unlink_from j n).
Proof.
  induction n as [|n [IH1 IH2 IH3 IH4]]; [by apply id_detached|].
  destruct (unlink_at_detached j (Z.of_nat (S n))) as [H1 H2 H3 H4].
  split; intros; cbn [unlink_from];
    [by rewrite IH1, H1|by rewrite H2, IH2|by rewrite IH3, H3|by rewrite H4, IH4].
Qed.

Lemma unlink_parent_detached j : detached (unlink_parent j).
Proof.
  assert (forall n, detached (unlink_from j n)) as Hn by apply unlink_from_detached.
  unfold unlink_parent. split; intros.
  - apply (Hn _).
  - apply (de_set_lock _ (Hn _)).
  - apply (Hn _).
  - apply (de_set_refs _ (Hn _)).
Qed.

Lemma put_get_dma d h f fence g :
  dd_dma_fences d !! fence = Some g -> dd_dma_fences (put_fence h f d) !! fence = Some g.
Proof. done. Qed.

Lemma array_get_run d array ga i cf :
  dd_dma_fences d !! array = Some ga -> df_fences_null ga = false -> zget (array_fences ga) i = Some cf ->
  array_get array i d = Done cf d.
Proof.
  intros Ea Hn Ec. unfold array_get. by rewrite (bind_run _ _ _ _ _ (get_dma_fence_run _ _ _ Ea)), Hn, Ec.
Qed.

(** A member that is found loses the join fence as a parent. *)
Lemma cleanup_found_run d client_id j array i hash0 cf h f ga :
  drv_ok d -> dd_dma_fences d !! array = Some ga -> df_fences_null ga = false ->
  zget (array_fences ga) i = Some cf -> member_found d cf h f ->
  exists t, cleanup_child client_id array j i hash0 d = Done h (put_fence h (unlink_parent j f) (at_tick t d)).
Proof.
  intros Hd Ea Hnull Ecf Hm. pose proof Hm as [(g & k & Eg & _) Hnz _ E _ (r & Hr & Ew & Hh)].
  unfold cleanup_child. rewrite (bind_run _ _ _ _ _ (array_get_run d array ga i cf Ea Hnull Ecf)).
  destruct (Z.eqb_spec cf 0); [done|].
  destruct (member_find_run d cf h f g client_id hash0 Hd Hm Eg) as (t & Hfind).
  rewrite (bind_run _ _ _ _ _ Hfind). cbv beta iota. exists t.
  destruct (found_locked_run d t h f (unlink_parent j) (ret h) r Hd E Hr Ew Hh
              (unlink_parent_detached _)) as (Hl & E2 & Hput).
  set (d1 := put_fence h (get_ref f) (at_tick t d)) in *.
  rewrite (bind_run _ _ _ _ _ Hl), (bind_run _ _ _ _ _ (update_fence_run _ _ _ _ E2)). exact Hput.
Qed.

(** The adopted child of [S] goes back to what it was in [S]. *)
Lemma cleanup_child_run S t client_id j array i hash0 cf h f ga :
  drv_ok S -> 0 <= j -> dd_dma_fences S !! array = Some ga -> df_fences_null ga = false ->
  zget (array_fences ga) i = Some cf -> child_ready S cf h f -> hf_parents_cnt f <= 1 -> clean_slot j f ->
  exists t', cleanup_child client_id array j i hash0 (at_tick t (put_fence h (adopted j f) S))
            = Done h (at_tick t' S).
Proof.
  intros Hd Hj Ea Hnull Ecf Hc Hroom Hcl.
  pose proof Hc as [(g & k & Eg & Harr & Hen & Ek & Eh) Hnz Hsig E Hv Hs Hrefs Hp].
  set (D := at_tick t (put_fence h (adopted j f) S)).
  assert (drv_ok D) as HD.
  { apply drv_ok_at_tick, drv_ok_put; [done|]. apply adopted_ok; [done|]. exact (entry_ok_at _ _ _ Hd E). }
  assert (child_ready D cf h (adopted j f)) as HcD.
  { split; try done; [|by eapply fence_at_put_eq|simpl; lia].
    exists g, k. do 3 (split; [done|]). split; [|done]. rewrite <- Ek. apply find_step_ext; [done|].
    intros x. unfold key_match, D. change (fence_at (at_tick t ?s)) with (fence_at s).
    destruct (decide (x = h)) as [->|Hne]; [|by rewrite fence_at_put_ne by congruence].
    erewrite fence_at_put_eq by exact E. by rewrite E. }
  destruct (cleanup_found_run D client_id j array i hash0 cf h (adopted j f) ga) as (t' & ->);
    [done|done|done|done|by apply child_ready_found|].
  rewrite unlink_adopted by done. exists t'. unfold ret. f_equal. unfold D.
  change (put_fence h f (at_tick t' (at_tick t (put_fence h (adopted j f) S))))
    with (at_tick t' (put_fence h f (put_fence h (adopted j f) S))).
  by rewrite put_put, put_fence_id.
Qed.

Lemma adopt_all_snoc j hfs hf d :
  adopt_all j (hfs ++ [hf]) d = put_fence hf.1 (adopted j hf.2) (adopt_all j hfs d).
Proof. unfold adopt_all. by rewrite foldl_app. Qed.

Lemma for_n_snoc_run {A} n lo (body : Z -> A -> DRV A) acc a s s' :
  for_n n lo body acc s = Done a s' ->
  for_n (S n) lo body acc s = body (lo + Z.of_nat n) a s'.
Proof.
  revert lo acc s. induction n as [|n IH]; intros lo acc s H.
  - injection H as <- <-. simpl. rewrite Z.add_0_r. unfold bind, ret. by destruct (body lo acc s).
  - change (for_n (S (S n)) lo body acc) with (bind (body lo acc) (fun acc' => for_n (S n) (lo + 1) body acc')).
    change (for_n (S n) lo body acc) with (bind (body lo acc) (fun acc' => for_n n (lo + 1) body acc')) in H.
    unfold bind in H |- *. destruct (body lo acc s) as [a1 s1|]; [|done].
    rewrite (IH _ _ _ H). f_equal. lia.
Qed.

(** Taking back the children of a part of the array, the last one first. *)
Lemma cleanup_children_run client_id j array ga cs hfs d t i0 i k hash0 :
  drv_ok d -> 0 <= j -> dd_dma_fences d !! array = Some ga -> df_fences_null ga = false ->
  children_ready d cs hfs -> Forall (fun hf => clean_slot j hf.2) hfs ->
  0 <= i0 -> (forall n cf, cs !! n = Some cf -> zget (array_fences ga) (i0 + Z.of_nat n) = Some cf) ->
  i - k = i0 + zlen cs - 1 ->
  exists hash t', for_n (length cs) k
      (fun k hash => cleanup_child client_id array j (i - k) hash) hash0 (at_tick t (adopt_all j hfs d))
    = Done hash (at_tick t' d).
Proof.
  intros Hd Hj Ea Hnull. revert hfs d i0 t Hd Ea.
  induction cs as [|cf cs IH]; intros hfs d i0 t Hd Ea Hch Hcl Hi0 Hat Hi.
  { destruct Hch as [Hall _]. apply Forall2_nil_inv_l in Hall as ->. by exists hash0, t. }
  destruct (children_ready_cons j d cf cs hfs Hd Hj Hch) as (h & f & hfs' & -> & Hc & Hr1 & Hch1 & Hd1).
  apply Forall_cons in Hcl as [Hc1 Hcl]. simpl in Hc1.
  destruct (IH hfs' (put_fence h (adopted j f) d) (i0 + 1) t) as (hash & t1 & Hrun); [done..|lia| |unfold zlen in *; simpl in *; lia|].
  { intros n cf' En. replace (i0 + 1 + Z.of_nat n) with (i0 + Z.of_nat (S n)) by lia. by apply Hat. }
  simpl length. simpl adopt_all. rewrite (for_n_snoc_run _ _ _ _ _ _ _ Hrun).
  destruct (cleanup_child_run d t1 client_id j array i0 hash cf h f ga) as (t' & Hcr); try done.
  { specialize (Hat 0%nat cf eq_refl). by rewrite Z.add_0_r in Hat. }
  exists h, t'. rewrite <- Hcr. f_equal. unfold zlen in *. simpl in *. lia.
Qed.

Lemma first_hit_None_weaken pr (hit hit' : Z -> bool) n i :
  first_hit pr hit n i = None -> (forall x, hit' x = true -> hit x = true) -> first_hit pr hit' n i = None.
Proof.
  intros H Hw. revert i H. induction n as [|n IH]; intros i; simpl; [done|].
  destruct (hit (pr i)) eqn:E; [done|]. intros H. destruct (hit' (pr i)) eqn:E'; [|by apply IH].
  apply Hw in E'. congruence.
Qed.

Lemma adopt_all_key_match j hfs d cs key context seqno x :
  children_ready d cs hfs ->
  key_match (adopt_all j hfs d) key context seqno x = key_match d key context seqno x.
Proof.
  intros (Hall & Hnd & _). unfold key_match. rewrite adopt_all_frame.
  destruct (decide (x ∈ hfs.*1)) as [Hin|Hn]; [|by rewrite adopt_all_other].
  apply list_elem_of_fmap in Hin as ([h f] & -> & Hin). simpl.
  pose proof Hin as Hn. apply list_elem_of_lookup in Hn as [n En].
  destruct (Forall2_lookup_r _ _ _ _ _ Hall En) as (cf & _ & Hc). pose proof (cr_entry _ _ _ _ Hc) as E.
  simpl in E. by rewrite (adopt_all_in j hfs d h f f Hnd Hin E), E.
Qed.

(** A member of the array that cannot be waited for by the join fence [j], when [hs] are the
    entries of the members before it: a null pointer; a fence that is not in the table, of
    whatever kind; or one whose entry is found but which is itself an array, or not enabled
    as a hardware fence, or has no room for another parent.  Its entry does not have [j]
    as a parent already. *)
Inductive refused_child (d : driver_data) (j : Z) (hs : list Z) (cf : Z) : Prop :=
| refused_null : cf = 0 -> refused_child d j hs cf
| refused_absent g :
    dd_dma_fences d !! cf = Some g -> (forall n, env_dma_signaled (dd_env d) cf n = false) ->
    find_step d (key_match d cf (df_context g) (df_seqno g)) (df_context g) (df_seqno g) = None ->
    refused_child d j hs cf
| refused_found g h f :
    dd_dma_fences d !! cf = Some g -> member_found d cf h f -> h ∉ hs ->
    (forall i, 0 <= i < MSM_HW_FENCE_MAX_JOIN_PARENTS -> zget (hf_parent_list f) i <> Some j) ->
    (is_Some (df_array g) \/ test_dma_flag g MSM_HW_FENCE_FLAG_ENABLED_BIT = false \/
     (is_signaled_hw f = false /\ MSM_HW_FENCE_MAX_JOIN_PARENTS - 1 <= hf_parents_cnt f < 2 ^ 32)) ->
    refused_child d j hs cf.

Lemma absent_find_run d cf g client_id hash :
  drv_ok d -> dd_dma_fences d !! cf = Some g -> (forall n, env_dma_signaled (dd_env d) cf n = false) ->
  find_step d (key_match d cf (df_context g) (df_seqno g)) (df_context g) (df_seqno g) = None ->
  exists hash' t, hw_fence_find_with_dma_fence client_id cf hash false d
                  = Done (None, false, hash') (at_tick t d).
Proof.
  intros Hd Eg Hsig Ek.
  destruct (find_with_dma_fence_run d g client_id cf hash false Hd Eg Hsig) as (out & d' & Hrun & Hf).
  { intros k f Ek'. unfold find_step in Ek. congruence. }
  rewrite Ek in Hf. destruct Hf as (t & hash' & _ & -> & -> & _). by exists hash', t.
Qed.

(** The turn of a member without room: its count goes up and down again. *)
Lemma full_child_run d client_id join j i sig hash0 cf h f g array ga :
  drv_ok d -> dd_dma_fences d !! array = Some ga -> df_fences_null ga = false ->
  zget (array_fences ga) i = Some cf -> dd_dma_fences d !! cf = Some g -> df_array g = None ->
  test_dma_flag g MSM_HW_FENCE_FLAG_ENABLED_BIT = true -> member_found d cf h f ->
  is_signaled_hw f = false -> MSM_HW_FENCE_MAX_JOIN_PARENTS - 1 <= hf_parents_cnt f < 2 ^ 32 ->
  exists t, process_child client_id join j array i sig hash0 d = Done (None, h) (at_tick t d).
Proof.
  intros Hd Ea Hnull Ecf Eg Harr Hen Hm Hs Hp. pose proof Hm as [_ Hnz _ E _ (r & Hr & Ew & Hrh)].
  unfold process_child. rewrite (bind_run _ _ _ _ _ (array_get_run d array ga i cf Ea Hnull Ecf)).
  destruct (Z.eqb_spec cf 0); [done|].
  rewrite (bind_run _ _ _ _ _ (get_dma_fence_run _ _ _ Eg)), Harr, Hen. cbv beta iota delta [negb].
  destruct (member_find_run d cf h f g client_id hash0 Hd Hm Eg) as (t & Hfind).
  rewrite (bind_run _ _ _ _ _ Hfind). cbv beta iota.
  destruct (found_locked_run d t h f recounted (ret (None : option bool, h)) r Hd E Hr Ew Hrh recounted_detached)
    as (Hl & E2 & Hput).
  set (d1 := put_fence h (get_ref f) (at_tick t d)) in *.
  rewrite (bind_run _ _ _ _ _ Hl), (bind_run _ _ _ _ _ (get_fence_run _ _ _ E2)).
  change (flag (hf_flags (with_lock 1 (get_ref f))) MSM_HW_FENCE_FLAG_SIGNAL) with (is_signaled_hw f).
  rewrite Hs. unfold MSM_HW_FENCE_MAX_JOIN_PARENTS in Hp.
  rewrite add_parent_full by (simpl; lia). cbv iota beta.
  erewrite bind_run by done. exists t. rewrite (recounted_id f) in Hput by (unfold in_u32; lia).
  transitivity (ret (None : option bool, h) (put_fence h f (at_tick t d))); [exact Hput|].
  by rewrite (put_fence_id (at_tick t d)).
Qed.

Lemma refused_child_run d client_id join j hs array i sig hash ga cf :
  drv_ok d -> dd_dma_fences d !! array = Some ga -> df_fences_null ga = false ->
  zget (array_fences ga) i = Some cf -> refused_child d j hs cf ->
  exists hash' t, process_child client_id join j array i sig hash d = Done (None, hash') (at_tick t d).
Proof.
  intros Hd Ea Hnull Ecf Hbad.
  assert (forall g, dd_dma_fences d !! cf = Some g ->
    is_Some (df_array g) \/ test_dma_flag g MSM_HW_FENCE_FLAG_ENABLED_BIT = false \/
    (df_array g = None /\ test_dma_flag g MSM_HW_FENCE_FLAG_ENABLED_BIT = true)) as Hkind.
  { intros g _. destruct (df_array g); [by left; eexists|]. destruct (test_dma_flag g _); auto. }
  assert (forall g, dd_dma_fences d !! cf = Some g ->
    is_Some (df_array g) \/ test_dma_flag g MSM_HW_FENCE_FLAG_ENABLED_BIT = false ->
    process_child client_id join j array i sig hash d = Done (None, hash) d) as Hquick.
  { intros g Eg Hg. unfold process_child.
    rewrite (bind_run _ _ _ _ _ (array_get_run d array ga i cf Ea Hnull Ecf)).
    destruct (Z.eqb_spec cf 0); [done|]. rewrite (bind_run _ _ _ _ _ (get_dma_fence_run _ _ _ Eg)).
    destruct Hg as [[l ->]|Hen]; [done|]. destruct (df_array g); [done|]. by rewrite Hen. }
  assert (d = at_tick (dd_tick d) d) as Eself by (by destruct d).
  destruct Hbad as [->|g Eg Hsig Ek|g h f Eg Hm Hnew Hno Hwhy].
  - exists hash, (dd_tick d). rewrite <- Eself. unfold process_child.
    by rewrite (bind_run _ _ _ _ _ (array_get_run d array ga i 0 Ea Hnull Ecf)).
  - destruct (Hkind g Eg) as [Hk|[Hk|[Harr Hen]]];
      [exists hash, (dd_tick d); rewrite <- Eself; eauto..|].
    unfold process_child. rewrite (bind_run _ _ _ _ _ (array_get_run d array ga i cf Ea Hnull Ecf)).
    destruct (Z.eqb_spec cf 0); [exists hash, (dd_tick d); by rewrite <- Eself|].
    rewrite (bind_run _ _ _ _ _ (get_dma_fence_run _ _ _ Eg)), Harr, Hen. cbv beta iota delta [negb].
    destruct (absent_find_run d cf g client_id hash Hd Eg Hsig Ek) as (hash' & t & Hfind).
    rewrite (bind_run _ _ _ _ _ Hfind). by exists hash', t.
  - destruct (Hkind g Eg) as [Hk|[Hk|[Harr Hen]]];
      [exists hash, (dd_tick d); rewrite <- Eself; eauto..|].
    destruct Hwhy as [[l Hl]|[Hl|[Hs Hp]]]; [congruence|congruence|].
    destruct (full_child_run d client_id join j i sig hash cf h f g array ga) as (t & Hrun); [done..|].
    by exists h, t.
Qed.

Lemma refused_cleanup_run d client_id j hs array i hash ga cf :
  drv_ok d -> dd_dma_fences d !! array = Some ga -> df_fences_null ga = false ->
  zget (array_fences ga) i = Some cf -> refused_child d j hs cf ->
  exists hash' t, cleanup_child client_id array j i hash d = Done hash' (at_tick t d).
Proof.
  intros Hd Ea Hnull Ecf [->|g Eg Hsig Ek|g h f Eg Hm Hnew Hno _].
  - unfold cleanup_child. rewrite (bind_run _ _ _ _ _ (array_get_run d array ga i 0 Ea Hnull Ecf)).
    exists hash, (dd_tick d). by destruct d.
  - unfold cleanup_child. rewrite (bind_run _ _ _ _ _ (array_get_run d array ga i cf Ea Hnull Ecf)).
    destruct (Z.eqb_spec cf 0) as [->|Hnz]; [exists hash, (dd_tick d); by destruct d|].
    destruct (absent_find_run d cf g client_id hash Hd Eg Hsig Ek) as (hash' & t & Hfind).
    rewrite (bind_run _ _ _ _ _ Hfind). by exists hash', t.
  - destruct (cleanup_found_run d client_id j array i hash cf h f ga) as (t & Hrun); [done..|].
    exists h, t. rewrite Hrun. f_equal. assert (unlink_parent j f = f) as ->.
    { unfold unlink_parent. apply unlink_from_other. intros n Hn. apply Hno.
      unfold MSM_HW_FENCE_MAX_JOIN_PARENTS in *. lia. }
    apply (put_fence_id (at_tick t d)). exact (mf_entry _ _ _ _ Hm).
Qed.

(** Adopting the members before it changes nothing for a refused one. *)
Lemma adopt_all_same hash hfs : forall s,
  dd_dma_fences (adopt_all hash hfs s) = dd_dma_fences s /\ dd_env (adopt_all hash hfs s) = dd_env s /\
  dd_hw_fences_tbl_cnt (adopt_all hash hfs s) = dd_hw_fences_tbl_cnt s.
Proof. induction hfs as [|hf hfs IH]; intros s; [done|]. simpl. apply (IH (put_fence _ _ s)). Qed.

Lemma adopt_all_find j hfs d cs cf context seqno : children_ready d cs hfs ->
  find_step (adopt_all j hfs d) (key_match (adopt_all j hfs d) cf context seqno) context seqno
  = find_step d (key_match d cf context seqno) context seqno.
Proof.
  intros Hch. apply find_step_ext; [apply adopt_all_same|]. intros x.
  by eapply adopt_all_key_match.
Qed.

Lemma refused_child_adopt_all j hfs d cs cf t :
  children_ready d cs hfs -> refused_child d j hfs.*1 cf ->
  refused_child (at_tick t (adopt_all j hfs d)) j hfs.*1 cf.
Proof.
  intros Hch Hr. destruct (adopt_all_same j hfs d) as (Hf & He & Hc).
  destruct Hr as [->|g Eg Hsig Ek|g h f Eg Hm Hnew Hno Hwhy]; [by apply refused_null| |].
  - apply (refused_absent _ _ _ _ g); [simpl; by rewrite Hf|intros n; simpl; rewrite He; apply Hsig|].
    rewrite <- Ek. by eapply adopt_all_find.
  - apply (refused_found _ _ _ _ g h f); [simpl; by rewrite Hf| |done..].
    destruct Hm as [(g' & k & Eg' & Ek & Eh) Hnz Hsig E Hv Hrf]. split; try done.
    + exists g', k. split; [simpl; by rewrite Hf|]. split; [|by unfold probe in *; simpl; rewrite Hc].
      rewrite <- Ek. by eapply adopt_all_find.
    + intros n. simpl. rewrite He. apply Hsig.
    + change (fence_at (adopt_all j hfs d) h = Some f). by rewrite adopt_all_other.
Qed.

Lemma refused_child_reserved d j fj array fr t hs cf :
  refused_child d j hs cf -> fence_at d j = Some fj -> hf_valid fj = 0 -> cf <> array ->
  refused_child (put_key j array (put_fence j fr (at_tick t d))) j hs cf.
Proof.
  intros [->|g Eg Hsig Ek|g h f Eg Hm Hnew Hno Hwhy] Ej Hv Hne; [by apply refused_null| |].
  - apply (refused_absent _ _ _ _ g); [done|done|].
    eapply first_hit_None_weaken; [exact Ek|]. intros x.
    unfold key_match. rewrite fence_at_put_key. destruct (decide (x = j)) as [->|Hx].
    + erewrite (fence_at_put_eq (at_tick t d)) by exact Ej. destruct (zget _ j) eqn:Ekey; [|done].
      apply zget_Some in Ekey as Hb.
      simpl in Ekey. rewrite zget_zset_eq in Ekey by (simpl in Hb; by rewrite zlen_zset in Hb).
      injection Ekey as <-. intros [_ Hm]%andb_true_iff. apply Z.eqb_eq in Hm. congruence.
    + rewrite fence_at_put_ne by congruence. simpl. by rewrite zget_zset_ne by congruence.
  - apply (refused_found _ _ _ _ g h f); try done. by eapply member_found_reserved.
Qed.

(** The join fence entry of a wait that was given up. *)
Definition abandoned_join (c : hw_fence_client) (ga : dma_fence) (t : Z) (fj : msm_hw_fence) : msm_hw_fence :=
  set_refs (mk_refs false false 1)
    ((reserved HW_FENCE_JOIN_FENCE_CLIENT_ID (df_context ga) (df_seqno ga) (zlen (array_fences ga)) t fj)
       <| hf_wait_client_mask := BIT (cl_client_id c) |>).

(** The walk over an array up to the refused member, and back. *)
Lemma refused_array_run id j array ga cs bad rest hfs d :
  drv_ok d -> 0 <= j -> dd_dma_fences d !! array = Some ga -> df_fences_null ga = false ->
  array_fences ga = cs ++ bad :: rest -> children_ready d cs hfs -> Forall (fun hf => clean_slot j hf.2) hfs ->
  refused_child d j hfs.*1 bad ->
  exists t, let d2 := at_tick t (adopt_all j hfs d) in
    process_children (Z.to_nat (zlen (cs ++ bad :: rest))) id j j array 0 false 0 d = Done (inl (zlen cs)) d2 /\
    dd_dma_fences d2 !! array = Some ga /\
    exists hash t', for_n (Z.to_nat (zlen cs + 1)) 0 (fun k hash => cleanup_child id array j (zlen cs - k) hash) 0 d2
      = Done hash (at_tick t' d).
Proof.
  intros Hd Hj Ea Hnull Hcs Hch Hcl Hbad. pose proof (array_prefix_at ga cs (bad :: rest) Hcs) as Hat.
  pose proof (array_next_at ga cs bad rest Hcs) as Hatb.
  destruct (process_children_run id j j array false ga cs hfs d 0 (S (length rest)) 0)
    as (Hd2 & t & hash & Hrun); [done..|].
  replace (length cs + S (length rest))%nat with (Z.to_nat (zlen (cs ++ bad :: rest))) in Hrun
    by (unfold zlen; rewrite length_app; simpl; lia).
  rewrite Z.add_0_l in Hrun. set (d1 := at_tick t (adopt_all j hfs d)) in *.
  assert (drv_ok d1) as Hd1 by (by apply drv_ok_at_tick).
  pose proof (refused_child_adopt_all j hfs d cs bad t Hch Hbad) as Hbad1. fold d1 in Hbad1.
  assert (forall t', dd_dma_fences (at_tick t' (adopt_all j hfs d)) !! array = Some ga) as Ea2
    by (intros t'; simpl; by rewrite (proj1 (adopt_all_same j hfs d))).
  destruct (refused_child_run d1 id j j hfs.*1 array (zlen cs) false hash ga bad Hd1 (Ea2 t) Hnull Hatb Hbad1)
    as (hash1 & t1 & Hr1).
  exists t1. cbv zeta. change (at_tick t1 d1) with (at_tick t1 (adopt_all j hfs d)) in Hr1.
  set (d2 := at_tick t1 (adopt_all j hfs d)) in *.
  split; [|split; [apply Ea2|]].
  - rewrite Hrun. cbn [process_children]. by rewrite (bind_run _ _ _ _ _ Hr1).
  - destruct (refused_cleanup_run d2 id j hfs.*1 array (zlen cs) 0 ga bad) as (hash' & t' & Hrc);
      [by apply drv_ok_at_tick|apply Ea2|done|done|by eapply refused_child_adopt_all|].
    destruct (cleanup_children_run id j array ga cs hfs d t' 0 (zlen cs) 1 hash')
      as (hash'' & t'' & Hrl); [done..|lia|]. exists hash'', t''.
    replace (Z.to_nat (zlen cs + 1)) with (S (length cs)) by (unfold zlen; lia). cbn [for_n].
    rewrite Z.sub_0_r, (bind_run _ _ _ _ _ Hrc). exact Hrl.
Qed.

(** C20: an array with a member that cannot be waited for, after members that can: a null
    pointer, a fence that is not in the table, or one that is but is an array itself, is
    not enabled as a hardware fence or has no room for another parent.  The call fails,
    the children it had already taken and the refused member are put back exactly as they
    were, and nothing else in the driver changes, with one exception: the join
    fence stays in the table with its key.  Only the reference of the fence controller is
    taken back, so it keeps the reference of the caller, who is not given a handle to
    drop it. *)
Theorem process_fence_array_undoes d ch c array ga cs bad rest hfs hash0 client_data k fj :
  drv_ok d -> zget (dd_clients d) ch = Some (Some c) -> 0 <= cl_client_id c < 64 ->
  bad_client_data (cl_client_id_ext c) client_data = false ->
  dd_dma_fences d !! array = Some ga -> df_fences_null ga = false -> df_array ga = Some (cs ++ bad :: rest) ->
  children_ready d cs hfs -> bad <> array ->
  find_step d (create_hit d array (df_context ga) (df_seqno ga)) (df_context ga) (df_seqno ga) = Some k ->
  let j := probe d (df_context ga) (df_seqno ga) k in
  fence_at d j = Some fj -> hf_valid fj = 0 -> Forall (fun hf => clean_slot j hf.2) hfs ->
  refused_child d j hfs.*1 bad ->
  exists d' t, hw_fence_process_fence_array ch array hash0 client_data d = Done (- EINVAL, j) d' /\ drv_ok d' /\
    d' = put_key j array (put_fence j (abandoned_join c ga (now (ticked d)) fj) (at_tick t d)) /\
    forall x, x <> j -> fence_at d' x = fence_at d x.
Proof.
  intros Hd Ec Hid Hcdata Ea Hnull Harr Hch Hba Ek j Ej Hv Hcl Hbad. pose proof (do_table _ Hd) as Hok.
  pose proof (array_not_child _ _ _ _ _ Hch Ea ltac:(congruence)) as Hac.
  unfold hw_fence_process_fence_array. rewrite (bind_run _ _ _ _ _ (get_client_run _ _ _ Ec)), Hcdata.
  cbv iota.
  edestruct (join_created d ga array hash0 (cl_client_id c) k fj) as [Hrun Hfr]; [done..|].
  rewrite Hrun. clear Hrun. fold j in Hfr |- *. clearbody j. cbv beta in Hfr.
  assert (abandoned_join c ga (now (ticked d)) fj
    = set_refs (mk_refs false false 1)
        ((reserved HW_FENCE_JOIN_FENCE_CLIENT_ID (df_context ga) (df_seqno ga) (zlen (array_fences ga))
           (now (ticked d)) fj) <| hf_wait_client_mask ::= fun m => u64 (Z.lor m (BIT (cl_client_id c))) |>))
    as -> by (exact (eq_sym (f_equal (set_refs _) (reserved_waited _ _ _ _ _ fj _ Hid)))).
  set (fr := reserved _ _ _ _ _ _) in *. set (fj' := fr <| hf_wait_client_mask ::= _ |>) in *.
  assert (hf_refcount fj' = refs_word fresh_refs) as Ew by done. clearbody fj'. clear fr.
  set (d1 := put_key j array (put_fence j fj' (at_tick (S (S (dd_tick d))) d))).
  assert (drv_ok d1) as Hd1 by (apply drv_ok_put_key, drv_ok_put; auto with fence).
  assert (children_ready d1 cs hfs) as Hch1 by (eapply children_ready_reserved; done).
  assert (array_fences ga = cs ++ bad :: rest) as Hcs by (unfold array_fences; by rewrite Harr).
  rewrite (bind_run _ _ _ _ _ (get_dma_fence_run d1 array ga Ea)), Hcs.
  assert (0 <= j) as Hj by (pose proof (fence_at_bounds _ _ _ Ej); lia).
  destruct (refused_array_run (cl_client_id c) j array ga cs bad rest hfs d1)
    as (t & Hrun & Ea2 & hash & t'' & Hloop); [done..|by eapply refused_child_reserved|].
  set (d2 := at_tick t (adopt_all j hfs d1)) in *. rewrite (bind_run _ _ _ _ _ Hrun). cbv beta iota zeta.
  unfold _cleanup_join_and_child_fences. rewrite bind_assoc.
  rewrite (bind_run _ _ _ _ _ (get_dma_fence_run d2 array ga Ea2)), Hnull.
  rewrite !bind_assoc, (bind_run _ _ _ _ _ Hloop). set (d3 := at_tick t'' d1).
  assert (drv_ok d3) as Hd3 by (by apply drv_ok_at_tick).
  assert (fence_at d3 j = Some fj') as E3.
  { unfold d3, d1. change (fence_at (at_tick t'' ?s)) with (fence_at s). rewrite fence_at_put_key.
    eapply fence_at_put_eq. exact Ej. }
  erewrite bind_run by done. unfold _hw_fence_process_join_fence.
  rewrite !bind_assoc, (bind_run _ _ _ _ _ (get_dma_fence_run d3 array ga Ea)). cbv iota.
  pose proof (drop_fctl_refs_run d3 j fj' fresh_refs (do_table _ Hd3) E3 ltac:(done) Ew) as Hdr.
  change (rf_fctl fresh_refs) with true in Hdr. cbv iota in Hdr.
  rewrite bind_assoc, (bind_run _ _ _ _ _ Hdr). eexists _, t''. split; [done|]. split; [|split].
  - apply drv_ok_put; [done|]. erewrite <- clear_fctl_refs by done. apply clear_ref_ok. exact (entry_ok_at _ _ _ Hd3 E3).
  - unfold d3, d1. change (at_tick t'' (put_key ?j ?a (put_fence ?j ?f (at_tick _ ?d))))
      with (put_key j a (put_fence j f (at_tick t'' d))). rewrite !put_key_fence.
    change (put_fence j ?x (put_fence j fj' (put_key j array (at_tick t'' d))))
      with (put_fence j x (put_fence j fj' (put_key j array (at_tick t'' d)))). by rewrite put_put.
  - intros x Hx. rewrite fence_at_put_ne by congruence. unfold d3, d1.
    change (fence_at (at_tick t'' ?s)) with (fence_at s). rewrite fence_at_put_key.
    exact (fence_at_put_ne (at_tick (S (S (dd_tick d))) d) j x fj' ltac:(congruence)).
Qed.

(** ** Witnesses *)

(** Two hardware fences of client 3, an array of both and an array with a fence
    that is not a hardware fence. *)
Definition hw_dma (context seqno : Z) : dma_fence :=
  mk_dma_fence context seqno (BIT MSM_HW_FENCE_FLAG_ENABLED_BIT) 0 None false false false None 0 0.

Definition dma_array (context seqno : Z) (fences : list Z) : dma_fence :=
  mk_dma_fence context seqno 0 0 (Some fences) false false false None 0 0.

Definition array_fences_map : gmap Z dma_fence :=
  <[91 := hw_dma 7 1]> (<[92 := hw_dma 8 1]> (<[93 := plain_dma 11 1 0]>
    (<[90 := dma_array 9 1 [91; 92]]> {[94 := dma_array 12 1 [91; 93]]}))).

Definition arrays8 : driver_data := Eval vm_compute in
  after (_hw_fence_lookup_and_create 3 91 7 1 0 0;;; _hw_fence_lookup_and_create 3 92 8 1 0 0) clients8.

Definition arrays8_dma : driver_data := arrays8 <| dd_dma_fences := array_fences_map |>.

Lemma arrays8_ok : drv_ok arrays8_dma.
Proof.
  apply one_client_ok; [vm_compute; reflexivity|intros n; reflexivity|
                        vm_compute; reflexivity|vm_compute; reflexivity|].
  change (map_Forall (fun _ g => 0 <= df_cb_hash g) array_fences_map). unfold array_fences_map.
  repeat (apply map_Forall_insert_2; [vm_compute; discriminate|]).
  apply map_Forall_empty.
Qed.

Definition child1_h : Z := 2.
Definition child2_h : Z := 7.
Definition array_child (h : Z) : msm_hw_fence := entry_of arrays8 h.

Lemma array_child_ready cf h context seqno :
  array_fences_map !! cf = Some (hw_dma context seqno) -> cf <> 0 ->
  find_step arrays8_dma (key_match arrays8_dma cf context seqno) context seqno = Some 0 ->
  h = probe arrays8_dma context seqno 0 -> fence_at arrays8 h = Some (array_child h) ->
  hf_valid (array_child h) = 1 -> is_signaled_hw (array_child h) = false ->
  hf_refcount (array_child h) = refs_word fresh_refs -> hf_parents_cnt (array_child h) = 0 ->
  child_ready arrays8_dma cf h (array_child h).
Proof.
  intros Ec Hnz Ek Eh E Hv Hs Hr Hp. split; try done.
  - exists (hw_dma context seqno), 0. done.
  - by rewrite Hv.
  - by exists fresh_refs.
  - by rewrite Hp.
Qed.

Lemma child1_ready : child_ready arrays8_dma 91 child1_h (array_child child1_h).
Proof. by apply (array_child_ready _ _ 7 1); vm_compute. Qed.

Lemma child2_ready : child_ready arrays8_dma 92 child2_h (array_child child2_h).
Proof. by apply (array_child_ready _ _ 8 1); vm_compute. Qed.

Lemma process_fence_array_witness :
  exists d', hw_fence_process_fence_array 2 90 0 0 arrays8_dma = Done (0, 4) d' /\
    fence_at d' child2_h = Some (adopted 4 (array_child child2_h)).
Proof.
  destruct (process_fence_array_spec arrays8_dma 2 rx_client 90 (dma_array 9 1 [91; 92]) [91; 92]
              [(child1_h, array_child child1_h); (child2_h, array_child child2_h)] 0 0 0 blank_fence arrays8_ok)
    as (d' & Hr & _ & _ & _ & Hin & _).
  - reflexivity.
  - split; discriminate || reflexivity.
  - vm_compute. reflexivity.
  - vm_compute. reflexivity.
  - reflexivity.
  - reflexivity.
  - discriminate.
  - split; [constructor; [exact child1_ready|constructor; [exact child2_ready|constructor]]|].
    split; [apply (bool_decide_unpack _); vm_compute; exact I|].
    repeat constructor; vm_compute; discriminate.
  - vm_compute. reflexivity.
  - vm_compute. reflexivity.
  - reflexivity.
  - exists d'. split; [exact Hr|]. apply Hin. right. left.
Defined.

(** The same with two parents in the second child already: it has room for no more. *)
Definition full_child : msm_hw_fence :=
  (array_child child2_h) <| hf_parents_cnt := 2 |>
    <| hf_parent_list := [5; 6; HW_FENCE_INVALID_PARENT_FENCE] |>.

Definition full8 : driver_data := put_fence child2_h full_child arrays8_dma.

Lemma full8_ok : drv_ok full8.
Proof.
  apply drv_ok_put; [exact arrays8_ok|]. split; [vm_compute; reflexivity|].
  split; [vm_compute; reflexivity|]. split; [vm_compute; reflexivity|].
  repeat constructor; vm_compute; discriminate.
Qed.

Lemma full_child_found : member_found full8 92 child2_h full_child.
Proof.
  split.
  - exists (hw_dma 8 1), 0. split; [vm_compute; reflexivity|]. split; vm_compute; reflexivity.
  - discriminate.
  - intros n. reflexivity.
  - vm_compute. reflexivity.
  - vm_compute. discriminate.
  - exists fresh_refs. split; [split; vm_compute; (reflexivity || discriminate)|].
    split; [vm_compute; reflexivity|]. split; vm_compute; reflexivity.
Qed.

Lemma full8_child1_ready : child_ready full8 91 child1_h (array_child child1_h).
Proof.
  apply (child_ready_put _ _ _ _ child2_h full_child (array_child child2_h) (dd_tick arrays8_dma) child1_ready).
  - discriminate.
  - vm_compute. reflexivity.
  - reflexivity.
  - reflexivity.
Qed.

Lemma process_fence_array_undoes_witness :
  exists d', hw_fence_process_fence_array 2 90 0 0 full8 = Done (- EINVAL, 4) d' /\
    fence_at d' child1_h = fence_at full8 child1_h /\ fence_at d' child2_h = Some full_child.
Proof.
  destruct (process_fence_array_undoes full8 2 rx_client 90 (dma_array 9 1 [91; 92]) [91] 92 []
              [(child1_h, array_child child1_h)] 0 0 0 blank_fence full8_ok)
    as (d' & t & Hr & _ & _ & Hx).
  - reflexivity.
  - split; discriminate || reflexivity.
  - vm_compute. reflexivity.
  - vm_compute. reflexivity.
  - reflexivity.
  - reflexivity.
  - split; [constructor; [exact full8_child1_ready|constructor]|].
    split; [apply (bool_decide_unpack _); vm_compute; exact I|].
    repeat constructor; vm_compute; discriminate.
  - discriminate.
  - vm_compute. reflexivity.
  - vm_compute. reflexivity.
  - reflexivity.
  - constructor; [split; [vm_compute; reflexivity|]|constructor].
    change (hf_parents_cnt (child1_h, array_child child1_h).2) with 0. lia.
  - apply (refused_found _ _ _ _ (hw_dma 8 1) child2_h full_child).
    + vm_compute. reflexivity.
    + exact full_child_found.
    + apply (bool_decide_unpack _). vm_compute. exact I.
    + intros i Hi. change (probe full8 _ _ 0) with 4.
      assert (i = 0 \/ i = 1 \/ i = 2) as [-> | [-> | ->]]
        by (unfold MSM_HW_FENCE_MAX_JOIN_PARENTS in Hi; lia); vm_compute; discriminate.
    + right. right. split; [vm_compute; reflexivity|]. split; [vm_compute; discriminate|vm_compute; reflexivity].
  - exists d'. split; [exact Hr|]. split; [apply Hx; discriminate|]. rewrite (Hx child2_h) by discriminate.
    vm_compute. reflexivity.
Defined.

Lemma register_wait_client_witness :
  exists d', hw_fence_register_wait_client (Some 91) 2 7 1 0 0 arrays8_dma = Done (0, child1_h) d' /\
    drv_ok d'.
Proof.
  destruct (register_wait_client_spec arrays8_dma 2 rx_client 91 (hw_dma 7 1) 0 0 0 (array_child child1_h)
              fresh_refs arrays8_ok) as (t & d' & Hr & Hd' & _).
  - reflexivity.
  - vm_compute. reflexivity.
  - vm_compute. reflexivity.
  - intros n. reflexivity.
  - vm_compute. reflexivity.
  - vm_compute. reflexivity.
  - vm_compute. discriminate.
  - repeat split; vm_compute; discriminate || reflexivity.
  - vm_compute. reflexivity.
  - split; vm_compute; reflexivity.
  - exists d'. split; [exact Hr|exact Hd'].
Defined.
