(* ===== verification/HwFenceLayout.v ===== *)
(** * Memory layout and client numbering

    [src/hw_fence_drv_utils.c]: the device-tree properties of the client types, the
    numbering of the clients, the regions of the shared memory
    ([hw_fence_utils_reserve_mem]); [init_hw_fences_queues] of
    [src/hw_fence_drv_priv.c], which lays the queues out inside a region.

    The theorems: accepted properties give regions that hold their queues, are
    disjoint and fit below the size the driver reports as used; every configured
    client has a number of its own; fresh queues are empty queues. *)
From S2P Require Import Prelude HwFenceTypes HwFenceQueue.
From Stdlib Require Import Lia.
#[local] Open Scope Z_scope.

(** ** Sizes *)

Definition U32_MAX : Z := 2 ^ 32 - 1.

(** The page size of the kernel, and its rounding macro. *)
Definition PAGE_SIZE : Z := 4096.
Definition PAGE_ALIGN (x : Z) : Z := (x + (PAGE_SIZE - 1)) / PAGE_SIZE * PAGE_SIZE.

Definition HW_FENCE_MAX_CLIENT_TYPE_STATIC : Z := 3.
Definition HW_FENCE_MAX_CLIENT_TYPE_CONFIGURABLE : Z := 15.
Definition HW_FENCE_MAX_CLIENT_TYPE : Z :=
  HW_FENCE_MAX_CLIENT_TYPE_STATIC + HW_FENCE_MAX_CLIENT_TYPE_CONFIGURABLE.
Definition HW_FENCE_MAX_STATIC_CLIENTS_INDEX : Z := HW_FENCE_CLIENT_ID_IPE.
Definition HW_FENCE_MIN_RXQ_CLIENTS : Z := HW_FENCE_CLIENT_ID_VAL6.
Definition HW_FENCE_MIN_RXQ_CLIENT_TYPE : Z := 3.
Definition MAX_CLIENT_QUEUE_MEM_SIZE : Z := 1048576.
Definition HW_FENCE_MAX_EVENTS : Z := 1000.

(** [sizeof] of the two table headers, of the two queue headers, of an entry of the
    table and of an event. *)
Definition HW_FENCE_HFI_TABLE_HEADER_SIZE (has_soccp : bool) : Z := if has_soccp then 64 else 24.
Definition HW_FENCE_HFI_QUEUE_HEADER_SIZE (has_soccp : bool) : Z := if has_soccp then 192 else 56.
Definition HW_FENCE_HFI_CTRL_HEADERS_SIZE (has_soccp : bool) : Z :=
  HW_FENCE_HFI_TABLE_HEADER_SIZE has_soccp +
  HW_FENCE_HFI_QUEUE_HEADER_SIZE has_soccp * HW_FENCE_CTRL_QUEUES.
Definition HW_FENCE_HFI_CLIENT_HEADERS_SIZE (queues_num : Z) (has_soccp : bool) : Z :=
  HW_FENCE_HFI_TABLE_HEADER_SIZE has_soccp + HW_FENCE_HFI_QUEUE_HEADER_SIZE has_soccp * queues_num.
Definition SIZEOF_HW_FENCE : Z := 128.
Definition SIZEOF_EVENT : Z := 64.

(** ** Client types *)

Definition HW_FENCE_CLIENT_TYPE_MAX_GPU : Z := 1.
Definition HW_FENCE_CLIENT_TYPE_MAX_DPU : Z := 6.
Definition HW_FENCE_CLIENT_TYPE_MAX_VAL : Z := 7.
Definition HW_FENCE_CLIENT_TYPE_MAX_IPE : Z := 32.
Definition HW_FENCE_CLIENT_TYPE_MAX_VPU : Z := 32.
Definition HW_FENCE_CLIENT_TYPE_MAX_IFE : Z := 32.
Definition HW_FENCE_CLIENT_TYPE_MAX_IPA : Z := 32.

Definition client_type (init_id max_clients_num clients_num queues_num : Z) (skip_txq_wr_idx : bool)
  : client_type_desc :=
  mk_client_type init_id max_clients_num clients_num queues_num 0 0 0 0 0 0 skip_txq_wr_idx false.

(** The [i]-th of the twelve [ife] types. *)
Definition ife_type (i : Z) : client_type_desc :=
  client_type (HW_FENCE_CLIENT_ID_IFE0 + i * MSM_HW_FENCE_MAX_SIGNAL_PER_CLIENT)
    HW_FENCE_CLIENT_TYPE_MAX_IFE 0 1 true.

Definition hw_fence_client_types : list client_type_desc :=
  [ client_type HW_FENCE_CLIENT_ID_CTX0 HW_FENCE_CLIENT_TYPE_MAX_GPU HW_FENCE_CLIENT_TYPE_MAX_GPU
      HW_FENCE_CLIENT_QUEUES false;
    client_type HW_FENCE_CLIENT_ID_CTL0 HW_FENCE_CLIENT_TYPE_MAX_DPU HW_FENCE_CLIENT_TYPE_MAX_DPU
      HW_FENCE_CLIENT_QUEUES false;
    client_type HW_FENCE_CLIENT_ID_VAL0 HW_FENCE_CLIENT_TYPE_MAX_VAL HW_FENCE_CLIENT_TYPE_MAX_VAL
      HW_FENCE_CLIENT_QUEUES false;
    client_type HW_FENCE_CLIENT_ID_IPE HW_FENCE_CLIENT_TYPE_MAX_IPE 0 HW_FENCE_CLIENT_QUEUES false;
    client_type HW_FENCE_CLIENT_ID_VPU HW_FENCE_CLIENT_TYPE_MAX_VPU 0 HW_FENCE_CLIENT_QUEUES false;
    client_type HW_FENCE_CLIENT_ID_IPA HW_FENCE_CLIENT_TYPE_MAX_IPA 0 1 false;
    ife_type 0; ife_type 1; ife_type 2; ife_type 3; ife_type 4; ife_type 5;
    ife_type 6; ife_type 7; ife_type 8; ife_type 9; ife_type 10; ife_type 11 ].

Abbreviation LAYOUT := (M mem_layout).

(** ** Numbering of clients

    The numbers of the sub-clients of the configurable types follow each other.
    [None]: there is no such type. *)
Definition hw_fence_utils_get_client_id_priv (types : list client_type_desc) (client_id : Z)
  : option Z :=
  if client_id <? HW_FENCE_MAX_STATIC_CLIENTS_INDEX then Some client_id
  else
    let client_type := HW_FENCE_MAX_CLIENT_TYPE_STATIC +
      (client_id - HW_FENCE_MAX_STATIC_CLIENTS_INDEX) / MSM_HW_FENCE_MAX_SIGNAL_PER_CLIENT in
    let offset :=
      (client_id - HW_FENCE_MAX_STATIC_CLIENTS_INDEX) mod MSM_HW_FENCE_MAX_SIGNAL_PER_CLIENT in
    match zget types client_type with
    | None => None
    | Some desc =>
        if ct_clients_num desc <=? offset then Some HW_FENCE_CLIENT_MAX
        else
          Some (foldl (fun id d => u32 (id + ct_clients_num d))
                  (HW_FENCE_MAX_STATIC_CLIENTS_INDEX + offset)
                  (drop (Z.to_nat HW_FENCE_MAX_CLIENT_TYPE_STATIC)
                     (take (Z.to_nat client_type) types)))
    end.

(** ** Device-tree properties

    What the driver reads: a cell is an error code or a value, an array is [None]
    when the property is missing.  The properties of a type are found by its place
    in the table, as its name is. *)
Record device_tree := mk_device_tree {
  dt_soccp_controller : Z + Z;
  dt_table_entries : Z + Z;
  dt_queue_entries : Z + Z;
  dt_client_type : Z -> option (list Z);
  dt_client_type_extra : Z -> option (list Z) }.

(** [of_property_read_u32_array] for [n] cells: at least [n] must be there. *)
Definition read_u32_array (prop : option (list Z)) (n : nat) : option (list Z) :=
  match prop with
  | Some l => if (n <=? length l)%nat then Some (take n l) else None
  | None => None
  end.

(** The optional cells behind the first one, in their order: the end padding, the
    start of the Tx indices, whether they count payloads, whether references of the
    controller are skipped.  The flag says whether the indices count payloads. *)
Definition parse_extra_cells (tmp : list Z) (desc : client_type_desc)
  : option (client_type_desc * bool) :=
  let payload_size_u32 := 16 in
  let desc := match tmp !! 0%nat with Some v => desc <| ct_start_padding := v |> | None => desc end in
  let desc := match tmp !! 1%nat with Some v => desc <| ct_end_padding := v |> | None => desc end in
  let desc := match tmp !! 2%nat with Some v => desc <| ct_txq_idx_start := v |> | None => desc end in
  match tmp !! 3%nat with
  | None => Some (desc, false)
  | Some by_payload =>
      if 1 <? by_payload then None
      else
        let idx_by_payload := negb (by_payload =? 0) in
        let desc := desc <| ct_txq_idx_factor := if idx_by_payload then payload_size_u32 else 1 |> in
        match tmp !! 4%nat with
        | None => Some (desc, idx_by_payload)
        | Some skip => if 1 <? skip then None else Some (desc <| ct_skip_fctl_ref := true |>, idx_by_payload)
        end
  end.

(** The sums of sizes are of type [size_t]; the two paddings are added as [u32]. *)
Definition check_extra (has_soccp : bool) (desc : client_type_desc) (idx_by_payload : bool) : bool :=
  let headers := HW_FENCE_HFI_CLIENT_HEADERS_SIZE (ct_queues_num desc) has_soccp in
  let max_idx_from_zero :=
    if idx_by_payload then ct_queue_entries desc else u32 (ct_queue_entries desc * 16) in
  (ct_start_padding desc mod 4 =? 0) && (ct_end_padding desc mod 4 =? 0) &&
  (u32 (ct_start_padding desc + ct_end_padding desc) mod 8 =? 0) &&
  negb (u64 (U32_MAX - headers) <=? ct_start_padding desc) &&
  negb (u64 (U32_MAX - headers - ct_start_padding desc) <=? ct_end_padding desc) &&
  negb (u32 (U32_MAX - max_idx_from_zero) <=? ct_txq_idx_start desc).

(** [None] stands for [-EINVAL], the only error of this function and the next; what
    they leave in the description then is not used. *)
Definition _parse_client_queue_dt_props_extra (has_soccp : bool) (prop : option (list Z))
    (desc : client_type_desc) : option client_type_desc :=
  match prop with
  | None => Some desc
  | Some l =>
      let count := zlen l in
      if (count <=? 0) || (5 <? count) then None
      else
        match parse_extra_cells l desc with
        | None => None
        | Some (desc, idx_by_payload) =>
            if check_extra has_soccp desc idx_by_payload then Some desc else None
        end
  end.

(** What the property of the type itself sets. *)
Definition parse_type_cells (default_entries : Z) (prop : option (list Z)) (desc : client_type_desc)
  : option client_type_desc :=
  match read_u32_array prop 4 with
  | Some [clients_num; queues_num; queue_entries; skip_txq_wr_idx] =>
      if 1 <? skip_txq_wr_idx then None
      else Some (desc <| ct_clients_num := clients_num |> <| ct_queues_num := queues_num |>
                      <| ct_queue_entries := queue_entries |>
                      <| ct_skip_txq_wr_idx := negb (skip_txq_wr_idx =? 0) |>)
  | _ => Some (desc <| ct_queue_entries := default_entries |>)
  end.

(** The size of the region of one client; [None] when a check refuses it.
    [queue_size * queues_num] is a product of [u32], the other sums are [size_t]. *)
Definition client_mem_size (has_soccp : bool) (desc : client_type_desc) : option Z :=
  let queue_entries := ct_queue_entries desc in
  let queues_num := ct_queues_num desc in
  let fixed := HW_FENCE_HFI_CLIENT_HEADERS_SIZE queues_num has_soccp +
               ct_start_padding desc + ct_end_padding desc in
  if U32_MAX / PAYLOAD_BYTES <=? queue_entries then None
  else
    let queue_size := u32 (PAYLOAD_BYTES * queue_entries) in
    if u64 (U32_MAX / PAGE_SIZE * PAGE_SIZE - fixed) / queues_num <=? queue_size then None
    else
      let mem_size := u32 (PAGE_ALIGN (u64 (fixed + u32 (queue_size * queues_num)))) in
      if MAX_CLIENT_QUEUE_MEM_SIZE <? mem_size then None else Some mem_size.

Definition _parse_client_queue_dt_props_indv (has_soccp : bool) (default_entries : Z)
    (prop extra : option (list Z)) (desc : client_type_desc) : option client_type_desc :=
  match parse_type_cells default_entries prop desc with
  | None => None
  | Some desc =>
      if (ct_max_clients_num desc <? ct_clients_num desc) || (ct_queues_num desc =? 0) ||
         (HW_FENCE_CLIENT_QUEUES <? ct_queues_num desc) || (ct_queue_entries desc =? 0)
      then None
      else
        match _parse_client_queue_dt_props_extra has_soccp extra desc with
        | None => None
        | Some desc =>
            match client_mem_size has_soccp desc with
            | None => None
            | Some mem_size => Some (desc <| ct_mem_size := mem_size |>)
            end
        end
  end.

(** All types, with the number of their clients that have an Rx queue and the number
    of clients of the configurable types. *)
Fixpoint parse_types (has_soccp : bool) (default_entries : Z) (dt : device_tree) (i : Z)
    (types : list client_type_desc) (rxq configurable : Z)
  : option (list client_type_desc * Z * Z) :=
  match types with
  | [] => Some ([], rxq, configurable)
  | desc :: types =>
      match _parse_client_queue_dt_props_indv has_soccp default_entries (dt_client_type dt i)
              (dt_client_type_extra dt i) desc with
      | None => None
      | Some desc =>
          let rxq :=
            if (HW_FENCE_MIN_RXQ_CLIENT_TYPE <=? i) && (ct_queues_num desc =? HW_FENCE_CLIENT_QUEUES)
            then u32 (rxq + ct_clients_num desc) else rxq in
          let configurable :=
            if HW_FENCE_MAX_CLIENT_TYPE_STATIC <=? i
            then i32 (configurable + ct_clients_num desc) else configurable in
          match parse_types has_soccp default_entries dt (i + 1) types rxq configurable with
          | None => None
          | Some (types, rxq, configurable) => Some (desc :: types, rxq, configurable)
          end
      end
  end.

(** [hw_fence_client_queue_size[client_id] = {desc, start_offset}]. *)
Definition place_client (i j : Z) (desc : client_type_desc) (start_offset : Z) : LAYOUT Z :=
  l <-- get;
  let client_id_ext := ct_init_id desc + j in
  client_id <-- deref (hw_fence_utils_get_client_id_priv (ml_client_types l) client_id_ext);
  _ <-- deref (zget (ml_queue_size l) client_id);
  put (l <| ml_queue_size ::= zset client_id (Some i, start_offset) |>);;;
  ret (u32 (start_offset + ct_mem_size desc)).

Fixpoint place_types (i : Z) (types : list client_type_desc) (start_offset : Z) : LAYOUT Z :=
  match types with
  | [] => ret start_offset
  | desc :: types =>
      start_offset <-- for_n (Z.to_nat (ct_clients_num desc)) 0
                         (fun j start_offset => place_client i j desc start_offset) start_offset;
      place_types (i + 1) types start_offset
  end.

(** [alloc_fails]: the allocation of the size descriptors fails. *)
Definition _parse_client_queue_dt_props (dt : device_tree) (alloc_fails : bool) : LAYOUT Z :=
  l <-- get;
  match parse_types (ml_has_soccp l) (ml_queue_entries l) dt 0 hw_fence_client_types
          HW_FENCE_MIN_RXQ_CLIENTS 0 with
  | None => ret (- EINVAL)
  | Some (types, rxq, configurable) =>
      let clients_num := u32 (HW_FENCE_MAX_STATIC_CLIENTS_INDEX + configurable) in
      put (l <| ml_rxq_clients_num := rxq |> <| ml_client_types := types |>
             <| ml_clients_num := clients_num |>);;;
      if alloc_fails then ret (- ENOMEM)
      else
        modifyM (fun l => l <| ml_queue_size := replicate (Z.to_nat clients_num) (None, 0) |>);;;
        start_offset <-- place_types 0 types
          (u32 (PAGE_ALIGN (ml_ctrl_queues_size l + HW_FENCE_MEM_LOCKS_SIZE rxq + ml_fences_table_size l)));
        modifyM (fun l => l <| ml_used_mem_size := start_offset |>);;;
        ret 0
  end.

(** [fails] answers the two allocations in turn. *)
Definition hw_fence_utils_parse_dt_props (dt : device_tree) (fails : bool * bool) : LAYOUT Z :=
  match dt_soccp_controller dt with
  | inr ph => when negb (ph =? 0) do modifyM (fun l => l <| ml_has_soccp := true |>)
  | inl _ => ret tt
  end;;;
  match dt_table_entries dt with
  | inl err => ret err
  | inr val =>
      if val =? 0 then ret 0
      else
        modifyM (fun l => l <| ml_table_entries := val |>);;;
        if U32_MAX / SIZEOF_HW_FENCE <=? val then ret (- EINVAL)
        else
          modifyM (fun l => l <| ml_fences_table_size := u32 (SIZEOF_HW_FENCE * val) |>);;;
          match dt_queue_entries dt with
          | inl err => ret err
          | inr val =>
              if val =? 0 then ret 0
              else
                modifyM (fun l => l <| ml_queue_entries := val |>);;;
                if U32_MAX / PAYLOAD_BYTES <=? val then ret (- EINVAL)
                else
                  let ctrl_queue_size := u32 (PAYLOAD_BYTES * HW_FENCE_CTRL_QUEUE_ENTRIES) in
                  modifyM (fun l => l <| ml_ctrl_queue_size := ctrl_queue_size |>);;;
                  l <-- get;
                  let headers := HW_FENCE_HFI_CTRL_HEADERS_SIZE (ml_has_soccp l) in
                  if (U32_MAX - headers) / HW_FENCE_CTRL_QUEUES <=? ctrl_queue_size then ret (- EINVAL)
                  else
                    modifyM (fun l => l <| ml_ctrl_queues_size :=
                                             u32 (headers + HW_FENCE_CTRL_QUEUES * ctrl_queue_size) |>);;;
                    r <-- _parse_client_queue_dt_props dt fails.1;
                    if negb (r =? 0) then ret (- EINVAL)
                    else if fails.2 then ret (- ENOMEM) else ret 0
          end
  end.

(** ** Regions of the shared memory

    [enum hw_fence_mem_reserve]. *)
Inductive hw_fence_mem_reserve :=
| HW_FENCE_MEM_RESERVE_CTRL_QUEUE
| HW_FENCE_MEM_RESERVE_LOCKS_REGION
| HW_FENCE_MEM_RESERVE_TABLE
| HW_FENCE_MEM_RESERVE_CLIENT_QUEUE (client_id : Z)
| HW_FENCE_MEM_RESERVE_EVENTS_BUFF.

(** The region of a client: its type and start offset. *)
Definition client_region (l : mem_layout) (client_id : Z) : option (client_type_desc * Z) :=
  if ml_clients_num l <=? client_id then None
  else
    match zget (ml_queue_size l) client_id with
    | Some (Some i, start_offset) =>
        match zget (ml_client_types l) i with Some desc => Some (desc, start_offset) | None => None end
    | _ => None
    end.

(** The start offset and the size, or the error. *)
Definition reserve_request (l : mem_layout) (type : hw_fence_mem_reserve) : Z + (Z * Z) :=
  match type with
  | HW_FENCE_MEM_RESERVE_CTRL_QUEUE => inr (0, ml_ctrl_queues_size l)
  | HW_FENCE_MEM_RESERVE_LOCKS_REGION =>
      inr (ml_ctrl_queues_size l, u32 (HW_FENCE_MEM_LOCKS_SIZE (ml_rxq_clients_num l)))
  | HW_FENCE_MEM_RESERVE_TABLE =>
      inr (u32 (ml_ctrl_queues_size l + HW_FENCE_MEM_LOCKS_SIZE (ml_rxq_clients_num l)),
           ml_fences_table_size l)
  | HW_FENCE_MEM_RESERVE_CLIENT_QUEUE client_id =>
      match client_region l client_id with
      | Some (desc, start_offset) => inr (start_offset, ct_mem_size desc)
      | None => inl (- EINVAL)
      end
  | HW_FENCE_MEM_RESERVE_EVENTS_BUFF =>
      let start_offset := ml_used_mem_size l in
      let remaining_size_bytes := u32 (ml_size l - start_offset) in
      if (ml_size l <=? start_offset) || (remaining_size_bytes <? SIZEOF_EVENT) then inl (- ENOMEM)
      else inr (start_offset,
                SIZEOF_EVENT * Z.min (remaining_size_bytes / SIZEOF_EVENT) HW_FENCE_MAX_EVENTS)
  end.

(** The sum of the two [u32] wraps around. *)
Definition hw_fence_utils_reserve_mem (l : mem_layout) (type : hw_fence_mem_reserve) : Z + (Z * Z) :=
  match reserve_request l type with
  | inl err => inl err
  | inr (start_offset, size) =>
      if ml_size l <? u32 (start_offset + size) then inl (- ENOMEM) else inr (start_offset, size)
  end.

(** ** Queues in a region

    [region] is the memory of the region as dwords.  The header of queue [i] and its
    elements are parts of it. *)
Definition dwords (off len : Z) (region : list Z) : list Z :=
  take (Z.to_nat (len / 4)) (drop (Z.to_nat (off / 4)) region).

(** The parameters of the queues: the size of all headers, the size of a queue, the
    padding behind the table header, start, factor and kind of the Tx indices. *)
Record queue_params := mk_queue_params {
  qp_headers_size : Z;
  qp_queue_size : Z;
  qp_start_padding : Z;
  qp_txq_idx_start : Z;
  qp_txq_idx_factor : Z;
  qp_skip_txq_wr_idx : bool }.

Definition get_queue_params (l : mem_layout) (type : hw_fence_mem_reserve) (queues_num : Z)
  : option queue_params :=
  match type with
  | HW_FENCE_MEM_RESERVE_CTRL_QUEUE =>
      Some (mk_queue_params (HW_FENCE_HFI_CTRL_HEADERS_SIZE (ml_has_soccp l)) (ml_ctrl_queue_size l)
              0 0 1 false)
  | HW_FENCE_MEM_RESERVE_CLIENT_QUEUE client_id =>
      match client_region l client_id with
      | None => None
      | Some (desc, _) =>
          Some (mk_queue_params
                  (i32 (HW_FENCE_HFI_CLIENT_HEADERS_SIZE queues_num (ml_has_soccp l) +
                        i32 (ct_start_padding desc) + i32 (ct_end_padding desc)))
                  (i32 (PAYLOAD_BYTES * ct_queue_entries desc)) (i32 (ct_start_padding desc))
                  (ct_txq_idx_start desc)
                  (if ct_txq_idx_factor desc =? 0 then 1 else ct_txq_idx_factor desc)
                  (ct_skip_txq_wr_idx desc))
      end
  | _ => None
  end.

(** The header of queue [i], after the fields were written over [hdr]. *)
Definition init_header (has_soccp : bool) (p : queue_params) (i qphys : Z) (hdr : list Z) : list Z :=
  let '(rd_idx_ptr, wr_idx_ptr, tx_wm_ptr) := hw_fence_get_queue_idx_ptrs has_soccp in
  let hdr := zset 1 (u32 qphys) hdr in
  let hdr := zset 2 (if IS_HW_FENCE_TX_QUEUE i then HW_FENCE_TX_QUEUE else HW_FENCE_RX_QUEUE) hdr in
  let hdr := zset 3 (u32 (qp_queue_size p)) hdr in
  let hdr := zset 4 PAYLOAD_BYTES hdr in
  if negb (qp_txq_idx_start p =? 0) && IS_HW_FENCE_TX_QUEUE i &&
     (default 0 (zget hdr wr_idx_ptr) =? 0)
  then
    let hdr := if qp_skip_txq_wr_idx p then zset tx_wm_ptr (qp_txq_idx_start p) hdr else hdr in
    zset wr_idx_ptr (qp_txq_idx_start p) (zset rd_idx_ptr (qp_txq_idx_start p) hdr)
  else hdr.

(** [queues[i]], which was zeroed before. *)
Definition init_queue (has_soccp : bool) (p : queue_params) (phys : Z) (region : list Z) (i : Z)
  : hw_fence_queue :=
  let start_queue_offset := u32 (qp_headers_size p + i * qp_queue_size p) in
  let qphys := phys + start_queue_offset in
  let qhdr_size := HW_FENCE_HFI_QUEUE_HEADER_SIZE has_soccp in
  let hdr_offset := HW_FENCE_HFI_TABLE_HEADER_SIZE has_soccp + qp_start_padding p + i * qhdr_size in
  mk_queue (dwords start_queue_offset (qp_queue_size p) region) (u32 (qp_queue_size p))
    (Some (init_header has_soccp p i qphys (dwords hdr_offset qhdr_size region))) qphys
    (if IS_HW_FENCE_TX_QUEUE i then qp_txq_idx_start p else 0)
    (if IS_HW_FENCE_TX_QUEUE i then qp_txq_idx_factor p else 1)
    (IS_HW_FENCE_TX_QUEUE i && qp_skip_txq_wr_idx p).

(** The six fields of the table header. *)
Definition init_table_header (has_soccp : bool) (p : queue_params) (size queues_num : Z) : list Z :=
  [ 0; size; u32 (HW_FENCE_HFI_TABLE_HEADER_SIZE has_soccp + qp_start_padding p);
    HW_FENCE_HFI_QUEUE_HEADER_SIZE has_soccp; queues_num; queues_num ].

(** [mem] is the whole shared memory as dwords, [phys] its physical address.  The
    result: the memory descriptor (address and size), the table header and the
    queues. *)
Definition init_hw_fences_queues (l : mem_layout) (mem : list Z) (phys : Z)
    (type : hw_fence_mem_reserve) (queues_num : Z) : Z + (Z * Z * list Z * list hw_fence_queue) :=
  match get_queue_params l type queues_num with
  | None => inl (- EINVAL)
  | Some p =>
      match hw_fence_utils_reserve_mem l type with
      | inl _ => inl (- ENOMEM)
      | inr (start_offset, size) =>
          inr (phys + start_offset, size, init_table_header (ml_has_soccp l) p size queues_num,
               init_queue (ml_has_soccp l) p (phys + start_offset) (dwords start_offset size mem) <$>
                 (Z.of_nat <$> seq 0 (Z.to_nat queues_num)))
      end
  end.

(** [client_lock_tbl_cnt] and [hw_fences_tbl_cnt]. *)
Definition init_global_locks (l : mem_layout) : Z + Z :=
  match hw_fence_utils_reserve_mem l HW_FENCE_MEM_RESERVE_LOCKS_REGION with
  | inl _ => inl (- ENOMEM)
  | inr (_, size) => inr (size / 8)
  end.

Definition init_hw_fences_table (l : mem_layout) (alloc_fails : bool) : Z + Z :=
  match hw_fence_utils_reserve_mem l HW_FENCE_MEM_RESERVE_TABLE with
  | inl _ => inl (- ENOMEM)
  | inr (_, size) => if alloc_fails then inl (- ENOMEM) else inr (size / SIZEOF_HW_FENCE)
  end.

Definition init_hw_fences_events (l : mem_layout) : Z + Z :=
  match hw_fence_utils_reserve_mem l HW_FENCE_MEM_RESERVE_EVENTS_BUFF with
  | inl _ => inl (- ENOMEM)
  | inr (_, size) => inr (size / SIZEOF_EVENT)
  end.

Definition init_ctrl_queue (l : mem_layout) (mem : list Z) (phys : Z) : Z + (Z * Z * list Z * list hw_fence_queue) :=
  init_hw_fences_queues l mem phys HW_FENCE_MEM_RESERVE_CTRL_QUEUE HW_FENCE_CTRL_QUEUES.

Definition hw_fence_alloc_client_resources (l : mem_layout) (mem : list Z) (phys client_id : Z)
  : Z + (Z * Z * list Z * list hw_fence_queue) :=
  match client_region l client_id with
  | None => inl (- EINVAL)
  | Some (desc, _) =>
      init_hw_fences_queues l mem phys (HW_FENCE_MEM_RESERVE_CLIENT_QUEUE client_id) (ct_queues_num desc)
  end.

(** ** Properties of the client types the rest of the driver asks for *)

Definition hw_fence_utils_get_queues_num (l : mem_layout) (client_id : Z) : Z :=
  match client_region l client_id with Some (desc, _) => ct_queues_num desc | None => 0 end.

Definition hw_fence_utils_get_skip_fctl_ref (l : mem_layout) (client_id : Z) : bool :=
  match client_region l client_id with Some (desc, _) => ct_skip_fctl_ref desc | None => false end.

(** * Properties *)

(** ** The numbers of the clients *)

Definition sum_clients (l : list client_type_desc) : Z := foldr (fun d s => ct_clients_num d + s) 0 l.

Definition counts_ok (l : list client_type_desc) : Prop := Forall (fun d => 0 <= ct_clients_num d <= 64) l.

Lemma sum_clients_app l1 l2 : sum_clients (l1 ++ l2) = sum_clients l1 + sum_clients l2.
Proof. unfold sum_clients. induction l1; simpl; lia. Qed.

Lemma sum_clients_bound l : counts_ok l -> 0 <= sum_clients l <= 64 * zlen l.
Proof.
  unfold zlen. induction 1 as [|d l Hd _ IH]; [done|].
  change (sum_clients (d :: l)) with (ct_clients_num d + sum_clients l). simpl length. lia.
Qed.

Lemma fold_clients id l :
  0 <= id -> counts_ok l -> id + sum_clients l < 2 ^ 32 ->
  foldl (fun id d => u32 (id + ct_clients_num d)) id l = id + sum_clients l.
Proof.
  intros Hid Hl. revert id Hid. induction Hl as [|d l Hd Hl IH]; intros id Hid Hb; simpl in *; [lia|].
  pose proof (sum_clients_bound _ Hl). change (foldr _ 0 l) with (sum_clients l) in *.
  rewrite u32_id by (unfold in_u32; lia). rewrite IH by lia. lia.
Qed.

(** The place of an external id: its type and its offset there. *)
Definition ext_type (id : Z) : Z := (id - HW_FENCE_MAX_STATIC_CLIENTS_INDEX) / MSM_HW_FENCE_MAX_SIGNAL_PER_CLIENT.
Definition ext_offset (id : Z) : Z := (id - HW_FENCE_MAX_STATIC_CLIENTS_INDEX) mod MSM_HW_FENCE_MAX_SIGNAL_PER_CLIENT.

(** An external id in use: a static client, or one of the configured clients of its
    type. *)
Definition configured (types : list client_type_desc) (id : Z) : Prop :=
  0 <= id < HW_FENCE_MAX_STATIC_CLIENTS_INDEX \/
  HW_FENCE_MAX_STATIC_CLIENTS_INDEX <= id /\
  exists desc, zget (drop 3 types) (ext_type id) = Some desc /\ ext_offset id < ct_clients_num desc.

Lemma zget_drop {A} (l : list A) n k : 0 <= k -> zget (drop n l) k = zget l (Z.of_nat n + k).
Proof.
  intros Hk. unfold zget. destruct (Z.leb_spec 0 k), (Z.leb_spec 0 (Z.of_nat n + k)); try lia.
  rewrite lookup_drop. f_equal. lia.
Qed.

Lemma counts_ok_drop n l : counts_ok l -> counts_ok (drop n l).
Proof. apply Forall_drop. Qed.

Lemma counts_ok_take n l : counts_ok l -> counts_ok (take n l).
Proof. apply Forall_take. Qed.

Create HintDb layout.
#[export] Hint Resolve counts_ok_drop counts_ok_take : layout.

Lemma ext_parts id :
  HW_FENCE_MAX_STATIC_CLIENTS_INDEX <= id ->
  id = HW_FENCE_MAX_STATIC_CLIENTS_INDEX + 64 * ext_type id + ext_offset id /\
  0 <= ext_offset id < 64 /\ 0 <= ext_type id.
Proof.
  intros H. unfold ext_type, ext_offset, MSM_HW_FENCE_MAX_SIGNAL_PER_CLIENT.
  pose proof (Z.div_mod (id - HW_FENCE_MAX_STATIC_CLIENTS_INDEX) 64 ltac:(lia)).
  pose proof (Z.mod_pos_bound (id - HW_FENCE_MAX_STATIC_CLIENTS_INDEX) 64 ltac:(lia)).
  pose proof (Z.div_pos (id - HW_FENCE_MAX_STATIC_CLIENTS_INDEX) 64 ltac:(lia) ltac:(lia)). lia.
Qed.

Lemma client_number types id desc :
  counts_ok types -> zlen types = HW_FENCE_MAX_CLIENT_TYPE -> HW_FENCE_MAX_STATIC_CLIENTS_INDEX <= id ->
  zget (drop 3 types) (ext_type id) = Some desc -> ext_offset id < ct_clients_num desc ->
  hw_fence_utils_get_client_id_priv types id
  = Some (HW_FENCE_MAX_STATIC_CLIENTS_INDEX + ext_offset id
          + sum_clients (take (Z.to_nat (ext_type id)) (drop 3 types))).
Proof.
  intros Hc Hlen Hid E Ho. destruct (ext_parts id Hid) as (_ & Hob & Ht).
  unfold hw_fence_utils_get_client_id_priv. fold (ext_type id) (ext_offset id).
  destruct (Z.ltb_spec id HW_FENCE_MAX_STATIC_CLIENTS_INDEX); [lia|].
  rewrite zget_drop in E by done. change (Z.of_nat 3) with HW_FENCE_MAX_CLIENT_TYPE_STATIC in E. rewrite E.
  destruct (Z.leb_spec (ct_clients_num desc) (ext_offset id)); [lia|]. f_equal.
  change (Z.to_nat HW_FENCE_MAX_CLIENT_TYPE_STATIC) with 3%nat.
  replace (Z.to_nat (HW_FENCE_MAX_CLIENT_TYPE_STATIC + ext_type id)) with (3 + Z.to_nat (ext_type id))%nat
    by (unfold HW_FENCE_MAX_CLIENT_TYPE_STATIC; lia).
  rewrite <- firstn_skipn_comm.
  pose proof (sum_clients_bound (take (Z.to_nat (ext_type id)) (drop 3 types)) ltac:(auto with layout)) as Hb.
  assert (zlen (take (Z.to_nat (ext_type id)) (drop 3 types)) <= zlen types) as Hl.
  { unfold zlen. rewrite length_take, length_drop. lia. }
  unfold HW_FENCE_MAX_CLIENT_TYPE, HW_FENCE_MAX_STATIC_CLIENTS_INDEX, HW_FENCE_MAX_CLIENT_TYPE_STATIC,
    HW_FENCE_MAX_CLIENT_TYPE_CONFIGURABLE, HW_FENCE_CLIENT_ID_IPE in *.
  rewrite fold_clients by (lia || auto with layout). lia.
Qed.

(** The clients of the types before type [k]. *)
Lemma sum_clients_step l k desc :
  counts_ok l -> l !! k = Some desc ->
  forall m, (k < m)%nat -> sum_clients (take k l) + ct_clients_num desc <= sum_clients (take m l).
Proof.
  intros Hl E m Hm. rewrite <- (take_drop k (take m l)), sum_clients_app, take_take.
  replace (k `min` m)%nat with k by lia.
  assert ((take m l) !! k = Some desc) as E' by (by rewrite lookup_take_lt).
  rewrite (drop_S _ _ _ E'). change (sum_clients (desc :: ?r)) with (ct_clients_num desc + sum_clients r).
  pose proof (sum_clients_bound (drop (S k) (take m l)) ltac:(auto with layout)). lia.
Qed.

Lemma static_number types id :
  0 <= id < HW_FENCE_MAX_STATIC_CLIENTS_INDEX -> hw_fence_utils_get_client_id_priv types id = Some id.
Proof.
  intros Hi. unfold hw_fence_utils_get_client_id_priv.
  by destruct (Z.ltb_spec id HW_FENCE_MAX_STATIC_CLIENTS_INDEX); [|lia].
Qed.

Lemma configured_number types id :
  counts_ok types -> zlen types = HW_FENCE_MAX_CLIENT_TYPE -> configured types id ->
  exists n, hw_fence_utils_get_client_id_priv types id = Some n /\
    0 <= n < HW_FENCE_MAX_STATIC_CLIENTS_INDEX + sum_clients (drop 3 types).
Proof.
  intros Hc Hlen. pose proof (counts_ok_drop 3 _ Hc) as Hd. pose proof (sum_clients_bound _ Hd) as Hsum.
  intros [Hi|(Hi & desc & E & Ho)].
  - exists id. rewrite static_number by done. split; [done|]. lia.
  - eexists. split; [by eapply client_number|]. destruct (ext_parts id Hi) as (_ & Hob & Ht).
    unfold zget in E. destruct (Z.leb_spec 0 (ext_type id)); [|lia].
    pose proof (sum_clients_step _ _ _ Hd E (length (drop 3 types)) ltac:(by eapply lookup_lt_Some)) as Hs.
    rewrite (take_ge (drop 3 types) (length (drop 3 types))) in Hs by lia.
    pose proof (sum_clients_bound (take (Z.to_nat (ext_type id)) (drop 3 types)) ltac:(auto with layout)).
    unfold HW_FENCE_MAX_STATIC_CLIENTS_INDEX, HW_FENCE_CLIENT_ID_IPE in *. lia.
Qed.

(** The internal numbers of the clients.  With at most 64 clients of each
    configurable type, every external id in use has an internal number below the
    number of clients; different ids have different numbers, and an id whose type
    has fewer clients is refused. *)
Theorem client_numbers_distinct types :
  counts_ok types -> zlen types = HW_FENCE_MAX_CLIENT_TYPE ->
  (forall id, configured types id -> exists n, hw_fence_utils_get_client_id_priv types id = Some n /\
     0 <= n < HW_FENCE_MAX_STATIC_CLIENTS_INDEX + sum_clients (drop 3 types)) /\
  (forall id1 id2, configured types id1 -> configured types id2 ->
     hw_fence_utils_get_client_id_priv types id1 = hw_fence_utils_get_client_id_priv types id2 -> id1 = id2) /\
  (forall id, 0 <= id < HW_FENCE_CLIENT_MAX -> ~ configured types id ->
     hw_fence_utils_get_client_id_priv types id = Some HW_FENCE_CLIENT_MAX).
Proof.
  intros Hc Hlen. pose proof (counts_ok_drop 3 _ Hc) as Hd.
  pose proof (static_number types) as Hstatic. pose proof (sum_clients_bound _ Hd) as Hsum.
  split; [|split].
  - intros id. by apply configured_number.
  - assert (forall id1 id2, 0 <= id1 < HW_FENCE_MAX_STATIC_CLIENTS_INDEX ->
      HW_FENCE_MAX_STATIC_CLIENTS_INDEX <= id2 -> configured types id2 ->
      hw_fence_utils_get_client_id_priv types id2 <> Some id1) as Hmix.
    { intros id1 id2 H1 H2 [?|(_ & desc & E & Ho)] Heq; [lia|]. destruct (ext_parts id2 H2) as (_ & Hob & Ht).
      erewrite client_number in Heq by done. injection Heq.
      pose proof (sum_clients_bound (take (Z.to_nat (ext_type id2)) (drop 3 types)) ltac:(auto with layout)). lia. }
    intros id1 id2 H1 H2 Heq. pose proof H1 as H1'. pose proof H2 as H2'.
    destruct H1' as [Hi1|(Hi1 & d1 & E1 & Ho1)], H2' as [Hi2|(Hi2 & d2 & E2 & Ho2)].
    + rewrite !Hstatic in Heq by done. congruence.
    + rewrite (Hstatic id1) in Heq by done. by destruct (Hmix id1 id2).
    + rewrite (Hstatic id2) in Heq by done. by destruct (Hmix id2 id1).
    + rewrite (client_number types id1 d1), (client_number types id2 d2) in Heq by done. injection Heq as Heq.
      destruct (ext_parts id1 Hi1) as (Hid1 & Hb1 & Ht1), (ext_parts id2 Hi2) as (Hid2 & Hb2 & Ht2).
      unfold zget in E1, E2.
      destruct (Z.leb_spec 0 (ext_type id1)), (Z.leb_spec 0 (ext_type id2)); try lia.
      destruct (Z.lt_trichotomy (ext_type id1) (ext_type id2)) as [Hlt|[Heqt|Hlt]].
      * pose proof (sum_clients_step _ _ _ Hd E1 (Z.to_nat (ext_type id2)) ltac:(lia)). lia.
      * rewrite Heqt in Heq. lia.
      * pose proof (sum_clients_step _ _ _ Hd E2 (Z.to_nat (ext_type id1)) ltac:(lia)). lia.
  - intros id Hi Hn. unfold hw_fence_utils_get_client_id_priv.
    destruct (Z.ltb_spec id HW_FENCE_MAX_STATIC_CLIENTS_INDEX); [destruct Hn; left; lia|].
    fold (ext_type id) (ext_offset id). destruct (ext_parts id ltac:(lia)) as (Hid & Hb & Ht).
    destruct (zget_is_Some types (HW_FENCE_MAX_CLIENT_TYPE_STATIC + ext_type id)) as [desc E].
    { rewrite Hlen. vm_compute (HW_FENCE_CLIENT_MAX) in Hi.
      unfold HW_FENCE_MAX_CLIENT_TYPE, HW_FENCE_MAX_STATIC_CLIENTS_INDEX, HW_FENCE_MAX_CLIENT_TYPE_STATIC,
        HW_FENCE_MAX_CLIENT_TYPE_CONFIGURABLE, HW_FENCE_CLIENT_ID_IPE in *. lia. }
    rewrite E. destruct (Z.leb_spec (ct_clients_num desc) (ext_offset id)); [done|].
    destruct Hn. right. split; [lia|]. exists desc. split; [|done]. by rewrite zget_drop.
Qed.

(** ** The size of a client's region *)

Lemma PAGE_ALIGN_bounds x : 0 <= x -> x <= PAGE_ALIGN x < x + PAGE_SIZE /\ PAGE_ALIGN x mod PAGE_SIZE = 0.
Proof.
  intros Hx. unfold PAGE_ALIGN, PAGE_SIZE. rewrite Z.mod_mul by lia.
  pose proof (Z.div_mod (x + (4096 - 1)) 4096 ltac:(lia)).
  pose proof (Z.mod_pos_bound (x + (4096 - 1)) 4096 ltac:(lia)). lia.
Qed.

(** What the headers and the paddings of a client take. *)
Definition fixed_size (has_soccp : bool) (desc : client_type_desc) : Z :=
  HW_FENCE_HFI_CLIENT_HEADERS_SIZE (ct_queues_num desc) has_soccp + ct_start_padding desc + ct_end_padding desc.

(** The numbers of a description are [u32]. *)
Record desc_u32 (desc : client_type_desc) : Prop := {
  du_start : in_u32 (ct_start_padding desc);
  du_end : in_u32 (ct_end_padding desc);
  du_entries : in_u32 (ct_queue_entries desc) }.

(** C26: a region that is accepted holds the headers, the paddings and all queues of
    its client, in whole pages and at most a megabyte, as long as headers and
    paddings stay below the last page of the 32-bit range. *)
Theorem client_mem_size_sound has_soccp desc m :
  desc_u32 desc -> 0 < ct_queues_num desc <= HW_FENCE_CLIENT_QUEUES ->
  fixed_size has_soccp desc <= U32_MAX / PAGE_SIZE * PAGE_SIZE ->
  client_mem_size has_soccp desc = Some m ->
  fixed_size has_soccp desc + ct_queues_num desc * (PAYLOAD_BYTES * ct_queue_entries desc) <= m /\
  m <= MAX_CLIENT_QUEUE_MEM_SIZE /\ m mod PAGE_SIZE = 0.
Proof.
  intros [Hs He Hq] Hn Hf. unfold client_mem_size. fold (fixed_size has_soccp desc).
  assert (0 <= fixed_size has_soccp desc) as Hf0.
  { unfold fixed_size, HW_FENCE_HFI_CLIENT_HEADERS_SIZE, in_u32 in *. destruct has_soccp; simpl; lia. }
  destruct (Z.leb_spec (U32_MAX / PAYLOAD_BYTES) (ct_queue_entries desc)) as [|He'] ; [done|].
  change (U32_MAX / PAYLOAD_BYTES) with 67108863 in He'. unfold PAYLOAD_BYTES in *.
  unfold in_u32 in Hq. rewrite (u32_id (64 * ct_queue_entries desc)) by (unfold in_u32; lia).
  change (U32_MAX / PAGE_SIZE * PAGE_SIZE) with 4294963200 in *.
  rewrite (u64_id (4294963200 - _)) by (unfold in_u64; lia).
  destruct (Z.leb_spec ((4294963200 - fixed_size has_soccp desc) / ct_queues_num desc) (64 * ct_queue_entries desc))
    as [|Hlt]; [done|].
  assert (64 * ct_queue_entries desc * ct_queues_num desc < 4294963200 - fixed_size has_soccp desc) as Hmul.
  { pose proof (Z.mul_div_le (4294963200 - fixed_size has_soccp desc) (ct_queues_num desc) ltac:(lia)). nia. }
  assert (0 <= 64 * ct_queue_entries desc * ct_queues_num desc) by nia.
  rewrite (u32_id (64 * ct_queue_entries desc * ct_queues_num desc)) by (unfold in_u32; lia).
  rewrite u64_id by (unfold in_u64; lia).
  destruct (PAGE_ALIGN_bounds (fixed_size has_soccp desc + 64 * ct_queue_entries desc * ct_queues_num desc))
    as [Hpb Hpm]; [lia|].
  assert (PAGE_ALIGN (fixed_size has_soccp desc + 64 * ct_queue_entries desc * ct_queues_num desc)
          <= 4294963200) as Hpu.
  { unfold PAGE_SIZE in Hpb, Hpm. set (x := PAGE_ALIGN _) in *. pose proof (Z.div_mod x 4096 ltac:(lia)). lia. }
  rewrite u32_id by (unfold in_u32; lia).
  destruct (Z.ltb_spec MAX_CLIENT_QUEUE_MEM_SIZE
    (PAGE_ALIGN (fixed_size has_soccp desc + 64 * ct_queue_entries desc * ct_queues_num desc)));
    [done|]. intros [= <-]. split; [nia|]. split; [done|exact Hpm].
Qed.

(** Without that bound the check is no check: this padding is accepted with a region
    of two pages. *)
Example padding_overflow :
  let desc := (client_type 0 0 1 2 false) <| ct_queue_entries := 64 |> <| ct_start_padding := 4294963200 |> in
  check_extra false desc false = true /\ client_mem_size false desc = Some 8192.
Proof. vm_compute. done. Qed.

(** ** What the parsed types look like *)

Definition dt_wf (dt : device_tree) : Prop :=
  (forall i l, dt_client_type dt i = Some l -> Forall in_u32 l) /\
  (forall v, dt_table_entries dt = inr v -> in_u32 v).

(** [desc] is the built-in description [d0] with accepted properties. *)
Record parsed_from (d0 desc : client_type_desc) : Prop := {
  pf_init : ct_init_id desc = ct_init_id d0;
  pf_max : ct_max_clients_num desc = ct_max_clients_num d0;
  pf_num : 0 <= ct_clients_num desc <= ct_max_clients_num d0;
  pf_mem : 0 <= ct_mem_size desc <= MAX_CLIENT_QUEUE_MEM_SIZE }.

Lemma parse_extra_fields has_soccp prop desc desc' :
  _parse_client_queue_dt_props_extra has_soccp prop desc = Some desc' ->
  ct_init_id desc' = ct_init_id desc /\ ct_max_clients_num desc' = ct_max_clients_num desc /\
  ct_clients_num desc' = ct_clients_num desc.
Proof.
  unfold _parse_client_queue_dt_props_extra. destruct prop as [l|]; [|by intros [= <-]].
  case_match; [done|]. destruct (parse_extra_cells l desc) as [[d b]|] eqn:E; [|done].
  case_match; [|done]. intros [= <-]. unfold parse_extra_cells in E.
  repeat case_match; simplify_eq; done.
Qed.

Lemma client_mem_size_bound has_soccp desc m :
  client_mem_size has_soccp desc = Some m -> 0 <= m <= MAX_CLIENT_QUEUE_MEM_SIZE.
Proof.
  unfold client_mem_size. repeat (case_match; [done|]). intros [= <-].
  split; [|by apply Z.ltb_ge]. unfold u32. apply Z.mod_pos_bound. lia.
Qed.

Lemma parse_indv_from has_soccp n prop extra d0 desc :
  (forall l, prop = Some l -> Forall in_u32 l) -> 0 <= ct_clients_num d0 ->
  _parse_client_queue_dt_props_indv has_soccp n prop extra d0 = Some desc -> parsed_from d0 desc.
Proof.
  intros Hu H0. unfold _parse_client_queue_dt_props_indv.
  destruct (parse_type_cells n prop d0) as [d1|] eqn:E1; [|done].
  assert (ct_init_id d1 = ct_init_id d0 /\ ct_max_clients_num d1 = ct_max_clients_num d0 /\
          0 <= ct_clients_num d1) as (Hi & Hm & Hn).
  { unfold parse_type_cells, read_u32_array in E1. destruct prop as [l|]; [|by injection E1 as <-].
    specialize (Hu l eq_refl). destruct (Nat.leb_spec 4 (length l)); [|by injection E1 as <-].
    destruct l as [|a [|b [|c [|e l]]]]; simpl in *; try lia. case_match; [done|]. injection E1 as <-. simpl.
    apply Forall_cons in Hu as [Ha _]. unfold in_u32 in Ha. lia. }
  destruct (_ || _) eqn:Hb; [done|]. apply orb_false_iff in Hb as [[[Hb _]%orb_false_iff _]%orb_false_iff _].
  destruct (_parse_client_queue_dt_props_extra has_soccp extra d1) as [d2|] eqn:E2; [|done].
  destruct (parse_extra_fields _ _ _ _ E2) as (Hi2 & Hm2 & Hn2).
  destruct (client_mem_size has_soccp d2) as [m|] eqn:E3; [|done]. intros [= <-].
  pose proof (client_mem_size_bound _ _ _ E3). split; simpl; [congruence|congruence| |done].
  apply Z.ltb_ge in Hb. lia.
Qed.

Lemma parse_types_from has_soccp n dt i types0 rxq conf types rxq' conf' :
  dt_wf dt -> Forall (fun d => 0 <= ct_clients_num d) types0 ->
  parse_types has_soccp n dt i types0 rxq conf = Some (types, rxq', conf') ->
  Forall2 parsed_from types0 types.
Proof.
  intros Hdt Hn. revert i rxq conf types rxq' conf'.
  induction Hn as [|d0 types0 H0 _ IH]; intros i rxq conf types rxq' conf' H; simpl in H.
  { by injection H as <- _ _. }
  destruct (_parse_client_queue_dt_props_indv _ _ _ _ _) as [d|] eqn:E; [|done]. cbv zeta in H.
  destruct (parse_types _ _ _ _ _ _ _) as [[[types1 r] c]|] eqn:E1; [|done]. injection H as <- <- <-.
  constructor; [|by eapply IH]. eapply parse_indv_from; [|done|exact E]. intros l Hl. by eapply Hdt.
Qed.

(** The counters follow the types. *)
Definition rxq_clients (i : Z) (d : client_type_desc) : Z :=
  if (HW_FENCE_MIN_RXQ_CLIENT_TYPE <=? i) && (ct_queues_num d =? HW_FENCE_CLIENT_QUEUES)
  then ct_clients_num d else 0.

Lemma parse_types_counts has_soccp n dt i types0 rxq conf types rxq' conf' :
  dt_wf dt -> Forall (fun d => 0 <= ct_clients_num d /\ ct_max_clients_num d <= 64) types0 ->
  parse_types has_soccp n dt i types0 rxq conf = Some (types, rxq', conf') ->
  0 <= i -> 0 <= rxq -> rxq + 64 * zlen types0 < 2 ^ 31 -> 0 <= conf -> conf + 64 * zlen types0 < 2 ^ 31 ->
  rxq <= rxq' <= rxq + 64 * zlen types0 /\
  conf' = conf + sum_clients (drop (Z.to_nat (3 - i)) types).
Proof.
  intros Hdt Hn. revert i rxq conf types rxq' conf'.
  induction Hn as [|d0 types0 [H0 Hm] _ IH]; intros i rxq conf types rxq' conf' H Hi Hr Hrb Hc Hcb; simpl in H.
  { injection H as <- <- <-. rewrite drop_nil. simpl. unfold zlen. simpl. lia. }
  destruct (_parse_client_queue_dt_props_indv _ _ _ _ _) as [d|] eqn:E; [|done]. cbv zeta in H.
  apply parse_indv_from in E as [_ _ Hnum _]; [|intros l Hl; by eapply Hdt|done].
  assert (zlen (d0 :: types0) = zlen types0 + 1) as Hl by (unfold zlen; simpl; lia). rewrite Hl in *.
  pose proof (zlen_nonneg types0) as Hz.
  set (rxq1 := if _ && _ then u32 (rxq + ct_clients_num d) else rxq) in H.
  set (conf1 := if HW_FENCE_MAX_CLIENT_TYPE_STATIC <=? i then i32 (conf + ct_clients_num d) else conf) in H.
  assert (rxq <= rxq1 <= rxq + 64) as Hr1.
  { unfold rxq1. destruct (_ && _); [|lia]. rewrite u32_id by (unfold in_u32; lia). lia. }
  assert (conf1 = conf + if 3 <=? i then ct_clients_num d else 0) as Hc1.
  { unfold conf1, HW_FENCE_MAX_CLIENT_TYPE_STATIC. destruct (Z.leb_spec 3 i); [|lia]. unfold i32.
    rewrite Z.mod_small by lia. lia. }
  assert (conf <= conf1 <= conf + 64) as Hc2 by (rewrite Hc1; destruct (3 <=? i); lia).
  destruct (parse_types _ _ _ (i + 1) types0 rxq1 conf1) as [[[types1 r] c]|] eqn:E1; [|done].
  injection H as <- <- <-.
  destruct (IH _ _ _ _ _ _ E1) as [Hr' Hc']; [lia..|].
  split; [lia|]. rewrite Hc', Hc1. destruct (Z.leb_spec 3 i) as [H3|H3].
  - replace (Z.to_nat (3 - i)) with 0%nat by lia. replace (Z.to_nat (3 - (i + 1))) with 0%nat by lia.
    rewrite !drop_0. change (sum_clients (d :: types1)) with (ct_clients_num d + sum_clients types1). lia.
  - replace (Z.to_nat (3 - i)) with (S (Z.to_nat (3 - (i + 1)))) by lia. simpl. lia.
Qed.

(** ** Placing the clients *)

Definition disjoint (s1 z1 s2 z2 : Z) : Prop := s1 + z1 <= s2 \/ s2 + z2 <= s1.

(** The regions placed so far lie between [base] and [off] and do not overlap. *)
Record placed (base off : Z) (l : mem_layout) : Prop := {
  pl_bounds : forall a d s, client_region l a = Some (d, s) -> base <= s /\ s + ct_mem_size d <= off;
  pl_disjoint : forall a b d1 s1 d2 s2, a <> b ->
    client_region l a = Some (d1, s1) -> client_region l b = Some (d2, s2) ->
    disjoint s1 (ct_mem_size d1) s2 (ct_mem_size d2) }.

(** The layout with another table of regions of the same length. *)
Definition replaced (l l' : mem_layout) : Prop :=
  l' = l <| ml_queue_size := ml_queue_size l' |> /\ zlen (ml_queue_size l') = zlen (ml_queue_size l).

Lemma replaced_refl l : replaced l l.
Proof. split; [by destruct l|done]. Qed.

Lemma replaced_trans l l1 l2 : replaced l l1 -> replaced l1 l2 -> replaced l l2.
Proof. intros [E1 H1] [E2 H2]. split; [rewrite E2, E1; by destruct l2|congruence]. Qed.

Lemma place_client_run i j desc off l id :
  hw_fence_utils_get_client_id_priv (ml_client_types l) (ct_init_id desc + j) = Some id ->
  0 <= id < zlen (ml_queue_size l) -> 0 <= off -> 0 <= ct_mem_size desc -> off + ct_mem_size desc < 2 ^ 32 ->
  place_client i j desc off l = Done (off + ct_mem_size desc) (l <| ml_queue_size ::= zset id (Some i, off) |>).
Proof.
  intros Hid Hr Ho Hm Hb. unfold place_client. rewrite (bind_run _ _ l l l) by done. cbv zeta.
  rewrite Hid, (bind_run _ _ l id l) by done.
  destruct (zget_is_Some (ml_queue_size l) id Hr) as [x Ex].
  rewrite Ex, (bind_run _ _ l x l) by done. erewrite bind_run by done.
  unfold ret. rewrite u32_id by (unfold in_u32; lia). done.
Qed.

Lemma placed_step base off l id i desc :
  placed base off l -> base <= off -> zget (ml_client_types l) i = Some desc -> 0 <= ct_mem_size desc ->
  placed base (off + ct_mem_size desc) (l <| ml_queue_size ::= zset id (Some i, off) |>).
Proof.
  intros [Hb Hd] Hbo Ei Hm. set (l' := l <| ml_queue_size ::= _ |>).
  assert (forall a d s, client_region l' a = Some (d, s) ->
    (a = id /\ d = desc /\ s = off) \/ client_region l a = Some (d, s)) as Hcase.
  { intros a d s. unfold client_region, l'. simpl. destruct (ml_clients_num l <=? a); [done|].
    rewrite zget_zset. case_decide as Hdec; [|by right]. destruct Hdec as [<- _].
    rewrite Ei. intros [= <- <-]. by left. }
  split.
  - intros a d s H. destruct (Hcase _ _ _ H) as [(_ & -> & ->)|H']; [lia|]. specialize (Hb _ _ _ H'). lia.
  - intros a b d1 s1 d2 s2 Hne H1 H2. unfold disjoint.
    destruct (Hcase _ _ _ H1) as [(-> & -> & ->)|H1'], (Hcase _ _ _ H2) as [(-> & -> & ->)|H2']; [done| | |].
    + specialize (Hb _ _ _ H2'). lia.
    + specialize (Hb _ _ _ H1'). lia.
    + by eapply Hd.
Qed.

(** Every client of the type has a number in the table. *)
Definition numbered (l : mem_layout) (desc : client_type_desc) : Prop :=
  forall j, 0 <= j < ct_clients_num desc ->
    exists id, hw_fence_utils_get_client_id_priv (ml_client_types l) (ct_init_id desc + j) = Some id /\
      0 <= id < zlen (ml_queue_size l).

Lemma place_type_wp base i desc off l :
  placed base off l -> 0 <= base <= off -> zget (ml_client_types l) i = Some desc -> numbered l desc ->
  0 <= ct_clients_num desc -> 0 <= ct_mem_size desc ->
  off + ct_clients_num desc * ct_mem_size desc < 2 ^ 32 ->
  wp (for_n (Z.to_nat (ct_clients_num desc)) 0 (fun j off => place_client i j desc off) off)
    (fun off' l' => off' = off + ct_clients_num desc * ct_mem_size desc /\ placed base off' l' /\ replaced l l') l.
Proof.
  intros Hp Hbo Ei Hn Hc Hm Hb.
  set (I := fun j off' l' => off' = off + j * ct_mem_size desc /\ placed base off' l' /\ replaced l l').
  assert (I (0 + Z.of_nat (Z.to_nat (ct_clients_num desc))) = I (ct_clients_num desc)) as HI by (f_equal; lia).
  eapply wp_mono; [apply (wp_for_n I)|rewrite HI; done].
  - split; [lia|]. split; [done|apply replaced_refl].
  - intros j off' l' Hj (-> & Hpl & Hrep).
    destruct Hrep as [El' Hl']. destruct (Hn j ltac:(lia)) as (id & Eid & Hid).
    assert (ml_client_types l' = ml_client_types l) as Et by (by rewrite El').
    unfold wp. rewrite (place_client_run i j desc _ l' id); [|by rewrite Et|lia|nia|done|nia].
    split; [lia|]. split.
    + replace (off + (j + 1) * ct_mem_size desc) with (off + j * ct_mem_size desc + ct_mem_size desc) by lia.
      apply placed_step; [done|nia|by rewrite Et|done].
    + eapply replaced_trans; [by split|]. split; [by destruct l'|]. simpl. apply zlen_zset.
Qed.

Definition sum_mem (types : list client_type_desc) : Z :=
  foldr (fun d s => ct_clients_num d * ct_mem_size d + s) 0 types.

Lemma sum_mem_cons d l : sum_mem (d :: l) = ct_clients_num d * ct_mem_size d + sum_mem l.
Proof. done. Qed.

Definition sizes_ok (types : list client_type_desc) : Prop :=
  Forall (fun d => 0 <= ct_clients_num d /\ 0 <= ct_mem_size d) types.

Lemma sum_mem_nonneg types : sizes_ok types -> 0 <= sum_mem types.
Proof. induction 1 as [|d l [H1 H2] _ IH]; [done|]. rewrite sum_mem_cons. nia. Qed.

Lemma place_types_wp base suf : forall i off l,
  placed base off l -> 0 <= base <= off -> drop (Z.to_nat i) (ml_client_types l) = suf -> 0 <= i ->
  Forall (numbered l) suf -> sizes_ok suf -> off + sum_mem suf < 2 ^ 32 ->
  wp (place_types i suf off)
    (fun off' l' => off' = off + sum_mem suf /\ placed base off' l' /\ replaced l l') l.
Proof.
  induction suf as [|desc suf IH]; intros i off l Hp Hbo Hsuf Hi Hn Hs Hb.
  { apply wp_ret. unfold sum_mem. simpl. rewrite Z.add_0_r. split; [done|]. split; [done|apply replaced_refl]. }
  apply Forall_cons in Hn as [Hn1 Hn]. apply Forall_cons in Hs as [[Hc Hm] Hs].
  pose proof (sum_mem_nonneg _ Hs). rewrite sum_mem_cons in Hb |- *.
  assert (zget (ml_client_types l) i = Some desc) as Ei.
  { unfold zget. destruct (Z.leb_spec 0 i); [|lia]. rewrite <- (Nat.add_0_r (Z.to_nat i)), <- lookup_drop.
    by rewrite Hsuf. }
  cbn [place_types]. apply wp_bind. eapply wp_mono; [apply (place_type_wp base i desc off l); try done; lia|].
  intros off1 l1 (-> & Hp1 & Hrep). pose proof Hrep as [El1 Hl1].
  assert (ml_client_types l1 = ml_client_types l) as Et by (by rewrite El1).
  eapply wp_mono; [apply IH; [done|nia| |lia| |done|lia]|].
  - rewrite Et. replace (Z.to_nat (i + 1)) with (Z.to_nat i + 1)%nat by lia. by rewrite <- drop_drop, Hsuf.
  - eapply Forall_impl; [exact Hn|]. intros d Hd j Hj. destruct (Hd j Hj) as (id & E & Hid).
    exists id. rewrite Et, Hl1. done.
  - intros off2 l2 (-> & Hp2 & Hrep2). split; [lia|]. split; [done|]. by eapply replaced_trans.
Qed.

(** ** The whole layout *)

Lemma builtin_type n d0 :
  hw_fence_client_types !! n = Some d0 ->
  ((n < 3)%nat /\ 0 <= ct_init_id d0 /\
   ct_init_id d0 + ct_max_clients_num d0 <= HW_FENCE_MAX_STATIC_CLIENTS_INDEX) \/
  ((3 <= n)%nat /\ ct_init_id d0 = HW_FENCE_MAX_STATIC_CLIENTS_INDEX + 64 * Z.of_nat (n - 3)).
Proof.
  do 18 (destruct n as [|n];
    [intros [= <-]; (left; vm_compute; repeat split; discriminate || lia) ||
                    (right; split; [lia|vm_compute; reflexivity])|]).
  done.
Qed.

Lemma builtin_counts :
  Forall (fun d => 0 <= ct_clients_num d /\ ct_max_clients_num d <= 64) hw_fence_client_types.
Proof. repeat constructor; vm_compute; discriminate. Qed.

Lemma parsed_counts types :
  Forall2 parsed_from hw_fence_client_types types -> counts_ok types /\ zlen types = HW_FENCE_MAX_CLIENT_TYPE.
Proof.
  intros H. split.
  - apply Forall_lookup. intros n d E. destruct (Forall2_lookup_r _ _ _ _ _ H E) as (d0 & E0 & [_ _ Hn _]).
    pose proof (proj1 (Forall_lookup _ _) builtin_counts _ _ E0). simpl in *. lia.
  - unfold zlen. rewrite <- (Forall2_length _ _ _ H). done.
Qed.

Lemma parsed_numbered types l :
  Forall2 parsed_from hw_fence_client_types types -> ml_client_types l = types ->
  zlen (ml_queue_size l) = HW_FENCE_MAX_STATIC_CLIENTS_INDEX + sum_clients (drop 3 types) ->
  Forall (numbered l) types.
Proof.
  intros H Et Hl. destruct (parsed_counts _ H) as [Hc Hlen].
  apply Forall_lookup. intros n d E. destruct (Forall2_lookup_r _ _ _ _ _ H E) as (d0 & E0 & [Hi _ Hn _]).
  pose proof (proj1 (Forall_lookup _ _) builtin_counts _ _ E0) as [_ Hmax]. simpl in Hmax.
  pose proof (sum_clients_bound _ (counts_ok_drop 3 _ Hc)) as Hs.
  intros j Hj. rewrite Et, Hl.
  assert (configured types (ct_init_id d + j)) as Hconf; [|by apply configured_number].
  destruct (builtin_type _ _ E0) as [(_ & H0 & H1)|(H3 & H0)]; [left; lia|right].
  split; [unfold HW_FENCE_MAX_STATIC_CLIENTS_INDEX in *; lia|]. exists d.
  assert (ext_type (ct_init_id d + j) = Z.of_nat (n - 3) /\ ext_offset (ct_init_id d + j) = j) as [-> ->].
  { unfold ext_type, ext_offset, MSM_HW_FENCE_MAX_SIGNAL_PER_CLIENT. rewrite Hi, H0.
    replace (HW_FENCE_MAX_STATIC_CLIENTS_INDEX + 64 * Z.of_nat (n - 3) + j - HW_FENCE_MAX_STATIC_CLIENTS_INDEX)
      with (j + Z.of_nat (n - 3) * 64) by lia.
    rewrite Z.div_add, Z.mod_add by lia. rewrite Z.div_small, Z.mod_small by lia. lia. }
  split; [|lia]. rewrite zget_drop by lia. unfold zget. destruct (Z.leb_spec 0 (Z.of_nat 3 + Z.of_nat (n - 3))); [|lia].
  replace (Z.to_nat (Z.of_nat 3 + Z.of_nat (n - 3))) with n by lia. done.
Qed.

Lemma parsed_sizes types :
  Forall2 parsed_from hw_fence_client_types types -> sizes_ok types /\ sum_mem types <= 494 * MAX_CLIENT_QUEUE_MEM_SIZE.
Proof.
  intros H. assert (sizes_ok types) as Hs.
  { apply Forall_lookup. intros n d E. destruct (Forall2_lookup_r _ _ _ _ _ H E) as (d0 & _ & [_ _ Hn Hm]).
    split; lia. }
  split; [done|].
  assert (forall l0 l, Forall2 parsed_from l0 l ->
            sum_mem l <= foldr (fun d s => ct_max_clients_num d + s) 0 l0 * MAX_CLIENT_QUEUE_MEM_SIZE) as Hgen.
  { clear. induction 1 as [|d0 d l0 l [_ _ Hn Hm] _ IH]; [done|]. rewrite sum_mem_cons. simpl foldr.
    rewrite Z.mul_add_distr_r. apply Z.add_le_mono; [|done]. apply Z.mul_le_mono_nonneg; lia. }
  exact (Hgen _ _ H).
Qed.

(** What a parsed device tree leaves, for the regions of the memory. *)
Record laid_out (l : mem_layout) : Prop := {
  lo_ctrl : 0 <= ml_ctrl_queues_size l <= 2 ^ 14;
  lo_rxq : 0 <= ml_rxq_clients_num l <= 2 ^ 11;
  lo_table : 0 <= ml_fences_table_size l <= 2 ^ 31;
  lo_placed : placed (PAGE_ALIGN (ml_ctrl_queues_size l + HW_FENCE_MEM_LOCKS_SIZE (ml_rxq_clients_num l) +
                                  ml_fences_table_size l)) (ml_used_mem_size l) l;
  lo_base : PAGE_ALIGN (ml_ctrl_queues_size l + HW_FENCE_MEM_LOCKS_SIZE (ml_rxq_clients_num l) +
                        ml_fences_table_size l) <= ml_used_mem_size l;
  lo_used : ml_used_mem_size l < 2 ^ 32;
  lo_mem : forall a d s, client_region l a = Some (d, s) -> 0 <= ct_mem_size d }.

(** The totals of the parsed types. *)
Lemma parse_types_totals has_soccp n dt types rxq conf :
  dt_wf dt -> parse_types has_soccp n dt 0 hw_fence_client_types HW_FENCE_MIN_RXQ_CLIENTS 0 = Some (types, rxq, conf) ->
  Forall2 parsed_from hw_fence_client_types types /\ 0 <= rxq <= 2 ^ 11 /\
  u32 (HW_FENCE_MAX_STATIC_CLIENTS_INDEX + conf) = HW_FENCE_MAX_STATIC_CLIENTS_INDEX + sum_clients (drop 3 types) /\
  0 <= sum_clients (drop 3 types) /\ sizes_ok types /\ sum_mem types <= 2 ^ 29.
Proof.
  intros Hdt E.
  pose proof (parse_types_from _ _ _ _ _ _ _ _ _ _ Hdt
    (Forall_impl _ _ _ builtin_counts (fun d H => proj1 H)) E) as Hfrom.
  destruct (parse_types_counts _ _ _ _ _ _ _ _ _ _ Hdt builtin_counts E) as [Hrxq Hconf];
    [done|vm_compute; discriminate|vm_compute; reflexivity|done|vm_compute; reflexivity|].
  destruct (parsed_counts _ Hfrom) as [Hc Hlen]. destruct (parsed_sizes _ Hfrom) as [Hsz Hsum].
  pose proof (sum_clients_bound _ (counts_ok_drop 3 _ Hc)) as Hsc.
  assert (zlen (drop 3 types) <= 18) as Hdl.
  { unfold zlen in *. rewrite length_drop. unfold HW_FENCE_MAX_CLIENT_TYPE in Hlen.
    vm_compute (HW_FENCE_MAX_CLIENT_TYPE_STATIC + HW_FENCE_MAX_CLIENT_TYPE_CONFIGURABLE) in Hlen. lia. }
  change (Z.to_nat (3 - 0)) with 3%nat in Hconf. rewrite Z.add_0_l in Hconf. subst conf.
  change (zlen hw_fence_client_types) with 18 in Hrxq. unfold HW_FENCE_MIN_RXQ_CLIENTS, HW_FENCE_CLIENT_ID_VAL6 in Hrxq.
  split; [done|]. split; [lia|]. split; [|split; [lia|split; [done|unfold MAX_CLIENT_QUEUE_MEM_SIZE in Hsum; lia]]].
  apply u32_id. unfold in_u32, HW_FENCE_MAX_STATIC_CLIENTS_INDEX, HW_FENCE_CLIENT_ID_IPE. lia.
Qed.

(** The parsing of the clients places them all, unless a check refuses. *)
Lemma parse_clients_wp dt fails l :
  dt_wf dt -> 0 <= ml_ctrl_queues_size l <= 2 ^ 14 -> 0 <= ml_fences_table_size l <= 2 ^ 31 ->
  wp (_parse_client_queue_dt_props dt fails)
    (fun r l' => (r = 0 -> laid_out l' /\ ml_size l' = ml_size l) /\ (r = 0 \/ r = - EINVAL \/ r = - ENOMEM)) l.
Proof.
  intros Hdt Hcq Hft. unfold _parse_client_queue_dt_props. apply wp_bind, wp_get.
  destruct (parse_types _ _ _ _ _ _ _) as [[[types rxq] conf]|] eqn:E; [|apply wp_ret; split; [done|by right; left]].
  destruct (parse_types_totals _ _ _ _ _ _ Hdt E) as (Hfrom & Hrxq & Hcn & Hsc & Hsz & Hsum).
  apply wp_bind. eapply wp_done; [done|]. cbv beta.
  destruct fails; [apply wp_ret; split; [done|by right; right]|]. apply wp_bind, wp_modifyM.
  rewrite Hcn. match goal with |- wp _ _ ?s => set (l1 := s) end.
  set (base := PAGE_ALIGN _).
  assert (0 <= ml_ctrl_queues_size l + HW_FENCE_MEM_LOCKS_SIZE rxq + ml_fences_table_size l <= 2 ^ 31 + 2 ^ 20) as Hb0
    by (unfold HW_FENCE_MEM_LOCKS_SIZE, HW_FENCE_LOCK_IDX_OFFSET; lia).
  destruct (PAGE_ALIGN_bounds _ (proj1 Hb0)) as [Hpa _]. fold base in Hpa. unfold PAGE_SIZE in Hpa.
  rewrite (u32_id base) by (unfold in_u32; lia).
  assert (forall a, client_region l1 a = None) as Hnone.
  { intros a. unfold client_region, l1. simpl. destruct (_ <=? a); [done|].
    destruct (zget _ a) as [x|] eqn:Ex; [|done]. by apply zget_replicate_eq in Ex as ->. }
  apply wp_bind. eapply wp_mono; [apply (place_types_wp base types 0 base l1); try done|].
  - split; intros; simplify_eq; by rewrite Hnone in *.
  - lia.
  - apply (parsed_numbered types l1 Hfrom); [done|]. unfold l1. simpl. rewrite zlen_replicate.
    unfold HW_FENCE_MAX_STATIC_CLIENTS_INDEX, HW_FENCE_CLIENT_ID_IPE. lia.
  - lia.
  - intros off l2 (-> & Hp & Hrep & Hzl). apply wp_bind, wp_modifyM, wp_ret. split; [|by left]. intros _.
    pose proof (sum_mem_nonneg _ Hsz).
    assert (ml_ctrl_queues_size l2 = ml_ctrl_queues_size l /\ ml_rxq_clients_num l2 = rxq /\
            ml_fences_table_size l2 = ml_fences_table_size l /\ ml_client_types l2 = types /\
            ml_size l2 = ml_size l) as (E1 & E2 & E3 & E4 & E5) by (by rewrite Hrep).
    split; [|exact E5]. destruct Hp as [Hp1 Hp2].
    set (l3 := l2 <| ml_used_mem_size := base + sum_mem types |>).
    assert (ml_ctrl_queues_size l3 = ml_ctrl_queues_size l /\ ml_rxq_clients_num l3 = rxq /\
            ml_fences_table_size l3 = ml_fences_table_size l /\ ml_used_mem_size l3 = base + sum_mem types)
      as (F1 & F2 & F3 & F4) by (split; [exact E1|split; [exact E2|split; [exact E3|done]]]).
    split; rewrite ?F1, ?F2, ?F3, ?F4; fold base; try lia.
    + split; [exact Hp1|exact Hp2].
    + intros a d s. unfold client_region. simpl. destruct (ml_clients_num l2 <=? a); [done|].
      destruct (zget (ml_queue_size l2) a) as [[[i|] s']|]; try done.
      destruct (zget (ml_client_types l2) i) as [d'|] eqn:Ed; [|done]. intros [= -> _].
      rewrite E4 in Ed. unfold zget in Ed. destruct (0 <=? i); [|done].
      by apply (proj1 (Forall_lookup _ _) Hsz _ _ Ed).
Qed.

(** ** Reservations *)

(** Where a request lies, by its kind. *)
Lemma request_place l type s z :
  laid_out l -> 0 <= ml_size l < 2 ^ 32 -> reserve_request l type = inr (s, z) ->
  let c := ml_ctrl_queues_size l in
  let k := HW_FENCE_MEM_LOCKS_SIZE (ml_rxq_clients_num l) in
  let base := PAGE_ALIGN (c + k + ml_fences_table_size l) in
  c + k + ml_fences_table_size l <= base /\ 0 <= c /\ 0 <= k /\ 0 <= z /\ s + z < 2 ^ 32 /\
  match type with
  | HW_FENCE_MEM_RESERVE_CTRL_QUEUE => s = 0 /\ z = c
  | HW_FENCE_MEM_RESERVE_LOCKS_REGION => s = c /\ z = k
  | HW_FENCE_MEM_RESERVE_TABLE => s = c + k /\ z = ml_fences_table_size l
  | HW_FENCE_MEM_RESERVE_CLIENT_QUEUE a =>
      exists d, client_region l a = Some (d, s) /\ z = ct_mem_size d /\ base <= s /\ s + z <= ml_used_mem_size l
  | HW_FENCE_MEM_RESERVE_EVENTS_BUFF => s = ml_used_mem_size l /\ base <= s /\ s + z <= ml_size l
  end.
Proof.
  intros [Hc Hr Ht [Hp _] Hb Hu Hm] Hsz H c k base.
  assert (0 <= k <= 2 ^ 17) as Hk by (unfold k, HW_FENCE_MEM_LOCKS_SIZE, HW_FENCE_LOCK_IDX_OFFSET; lia).
  fold c in Hc. fold c k base in Hb, Hp.
  destruct (PAGE_ALIGN_bounds (c + k + ml_fences_table_size l) ltac:(lia)) as [Hpa _]. fold base in Hpa.
  do 3 (split; [lia|]). destruct type as [| | |a|]; simpl in H.
  - injection H as <- <-. fold c. repeat split; lia.
  - injection H as <- <-. fold c k. rewrite u32_id by (unfold in_u32; lia). repeat split; lia.
  - injection H as <- <-. fold c k. rewrite u32_id by (unfold in_u32; lia). repeat split; lia.
  - destruct (client_region l a) as [[d s']|] eqn:E; [|done]. injection H as <- <-.
    specialize (Hp _ _ _ E). specialize (Hm _ _ _ E). split; [lia|]. split; [lia|]. exists d. repeat split; lia.
  - destruct (_ || _) eqn:Eb; [done|]. apply orb_false_iff in Eb as [Eb1%Z.leb_gt Eb2%Z.ltb_ge].
    injection H as <- <-. rewrite u32_id in Eb2 |- * by (unfold in_u32; lia). unfold SIZEOF_EVENT in *.
    pose proof (Z.div_mod (ml_size l - ml_used_mem_size l) 64 ltac:(lia)) as Hdm.
    pose proof (Z.mod_pos_bound (ml_size l - ml_used_mem_size l) 64 ltac:(lia)) as Hmb.
    pose proof (Z.div_pos (ml_size l - ml_used_mem_size l) 64 ltac:(lia) ltac:(lia)) as Hdp.
    unfold HW_FENCE_MAX_EVENTS. repeat split; lia.
Qed.

Lemma reserve_mem_inv l type s z :
  laid_out l -> 0 <= ml_size l < 2 ^ 32 -> hw_fence_utils_reserve_mem l type = inr (s, z) ->
  reserve_request l type = inr (s, z) /\ s + z <= ml_size l.
Proof.
  intros Hl Hsz H. unfold hw_fence_utils_reserve_mem in H.
  destruct (reserve_request l type) as [e|[s' z']] eqn:E; [done|].
  destruct (request_place l type s' z' Hl Hsz E) as (_ & Hc & Hk & Hz & Hw & Hcase).
  assert (0 <= s').
  { destruct Hl as [Hlc Hlr Hlt _ Hlb _ _]. destruct type as [| | |a|].
    1-3: destruct Hcase as [-> _]; lia.
    all: pose proof (PAGE_ALIGN_bounds (ml_ctrl_queues_size l +
           HW_FENCE_MEM_LOCKS_SIZE (ml_rxq_clients_num l) + ml_fences_table_size l) ltac:(lia)) as [Hpa _].
    - destruct Hcase as (d & _ & _ & Hb & _). lia.
    - destruct Hcase as (_ & Hb & _). lia. }
  rewrite u32_id in H by (unfold in_u32; lia).
  destruct (Z.ltb_spec (ml_size l) (s' + z')); [done|]. injection H as <- <-. done.
Qed.

(** Where the driver starts. *)
Definition blank_layout (size : Z) : mem_layout := mk_layout false 0 0 0 0 0 [] 0 0 [] 0 size.

Lemma parse_dt_wp dt fails te qe size :
  dt_wf dt -> dt_table_entries dt = inr te -> 0 < te <= 2 ^ 24 -> dt_queue_entries dt = inr qe -> 0 < qe ->
  wp (hw_fence_utils_parse_dt_props dt fails)
    (fun r l' => r = 0 -> laid_out l' /\ ml_size l' = size) (blank_layout size).
Proof.
  intros Hdt Ete Hte Eqe Hqe. unfold hw_fence_utils_parse_dt_props.
  assert (exists b, (match dt_soccp_controller dt with
           | inr ph => when negb (ph =? 0) do modifyM (fun l => l <| ml_has_soccp := true |>)
           | inl _ => ret tt
           end) (blank_layout size) = Done tt ((blank_layout size) <| ml_has_soccp := b |>)) as [b Hb].
  { destruct (dt_soccp_controller dt) as [e|ph]; [by exists false|]. destruct (ph =? 0); [by exists false|by exists true]. }
  apply wp_bind. eapply wp_done; [exact Hb|]. rewrite Ete, Eqe.
  destruct (Z.eqb_spec te 0); [lia|]. apply wp_bind, wp_modifyM.
  change (U32_MAX / SIZEOF_HW_FENCE) with 33554431. destruct (Z.leb_spec 33554431 te); [by apply wp_ret|].
  apply wp_bind, wp_modifyM. destruct (Z.eqb_spec qe 0); [lia|]. apply wp_bind, wp_modifyM.
  destruct (U32_MAX / PAYLOAD_BYTES <=? qe); [by apply wp_ret|]. cbv zeta. apply wp_bind, wp_modifyM, wp_bind, wp_get.
  destruct (_ <=? u32 _); [by apply wp_ret|]. apply wp_bind, wp_modifyM, wp_bind.
  eapply wp_mono; [apply (parse_clients_wp dt fails.1)|].
  - done.
  - simpl. destruct b; vm_compute; split; discriminate.
  - simpl. unfold SIZEOF_HW_FENCE. rewrite u32_id by (unfold in_u32; lia). lia.
  - intros r l' [H0 _]. destruct (Z.eqb_spec r 0) as [->|]; [|by apply wp_ret].
    destruct fails.2; [by apply wp_ret|]. apply wp_ret. intros _. by destruct (H0 eq_refl).
Qed.

(** C25: the memory shared with the fence controller.  Parsing a device tree that asks for
    at least one and at most 2^24 table entries and for at least one queue entry, for a
    memory below 4 GiB, returns; when it succeeds, any two reservations that
    succeed - control queues, locks, table, the queues of any two clients, events -
    are disjoint and inside the memory.  (The code accepts the value 0 as well; then the
    region of the events overlaps the table.) *)
Theorem reservations_disjoint dt fails te qe size :
  dt_wf dt -> dt_table_entries dt = inr te -> 0 < te <= 2 ^ 24 -> dt_queue_entries dt = inr qe -> 0 < qe ->
  0 <= size < 2 ^ 32 ->
  exists r l, hw_fence_utils_parse_dt_props dt fails (blank_layout size) = Done r l /\
  (r = 0 -> forall t1 t2 s1 z1 s2 z2, t1 <> t2 ->
     hw_fence_utils_reserve_mem l t1 = inr (s1, z1) -> hw_fence_utils_reserve_mem l t2 = inr (s2, z2) ->
     disjoint s1 z1 s2 z2 /\ s1 + z1 <= size /\ s2 + z2 <= size).
Proof.
  intros Hdt Ete Hte Eqe Hqe Hsz.
  destruct (wp_inv _ _ _ (parse_dt_wp dt fails te qe size Hdt Ete Hte Eqe Hqe)) as (r & l & Hrun & Hl).
  exists r, l. split; [done|]. intros Hr. destruct (Hl Hr) as [Hlo Hls]. clear Hl.
  intros t1 t2 s1 z1 s2 z2 Hne H1 H2. rewrite <- Hls in Hsz |- *.
  destruct (reserve_mem_inv _ _ _ _ Hlo Hsz H1) as [R1 B1], (reserve_mem_inv _ _ _ _ Hlo Hsz H2) as [R2 B2].
  split; [|done]. pose proof (lo_table _ Hlo) as Ht. pose proof (lo_base _ Hlo) as Hbu.
  destruct (request_place l t1 s1 z1 Hlo Hsz R1) as (Hb1 & Hc1 & Hk1 & Hz1 & _ & C1).
  destruct (request_place l t2 s2 z2 Hlo Hsz R2) as (_ & _ & _ & Hz2 & _ & C2).
  unfold disjoint. destruct t1 as [| | |a1|], t2 as [| | |a2|]; try congruence;
    repeat match goal with H : exists _, _ |- _ => destruct H as (? & ? & ? & ? & ?) end;
    repeat match goal with H : _ /\ _ |- _ => destruct H end; subst; try lia.
  destruct (lo_placed _ Hlo) as [_ Hdis]. eapply Hdis; [|done..]. congruence.
Qed.

(** ** Fresh queues *)

Lemma dwords_zero n off len :
  0 <= off -> 0 <= len -> off + len <= 4 * n -> (4 | off) -> (4 | len) ->
  dwords off len (replicate (Z.to_nat n) 0) = replicate (Z.to_nat (len / 4)) 0.
Proof.
  intros Ho Hl Hb [a ->] [b ->]. unfold dwords. rewrite !Z.div_mul by lia.
  rewrite drop_replicate, take_replicate. f_equal. lia.
Qed.

(** The parameters of a queue that fits behind its headers. *)
Record params_ok (has_soccp : bool) (p : queue_params) (n i : Z) : Prop := {
  po_size : qp_queue_size p = 64 * n;
  po_slots : 1 < n /\ 64 * n < 2 ^ 31;
  po_queue : 0 <= i;
  po_padding : 0 <= qp_start_padding p /\ (4 | qp_start_padding p);
  po_headers : (4 | qp_headers_size p) /\
    HW_FENCE_HFI_TABLE_HEADER_SIZE has_soccp + qp_start_padding p +
      (i + 1) * HW_FENCE_HFI_QUEUE_HEADER_SIZE has_soccp <= qp_headers_size p;
  po_end : qp_headers_size p + (i + 1) * (64 * n) < 2 ^ 32;
  po_factor : 0 < qp_txq_idx_factor p /\ (qp_txq_idx_factor p | 16);
  po_start : 0 <= qp_txq_idx_start p /\ qp_txq_idx_start p + 16 * n < 2 ^ 32 }.

Ltac zget_zset_tac :=
  repeat first [rewrite zget_zset_eq by (rewrite ?zlen_zset; lia) | rewrite zget_zset_ne by lia].

(** A zeroed header of [n] dwords with its indices at [rd], [wr] and [wm]. *)
Ltac header_tac p i n rd wr wm :=
  match goal with |- context [replicate ?m 0] => change m with n end;
  assert (zget (replicate n 0) rd = Some 0 /\ zget (replicate n 0) wr = Some 0 /\
          zget (replicate n 0) wm = Some 0 /\ zlen (replicate n 0) = Z.of_nat n) as (H1 & H2 & H3 & Hl) by done;
  revert H1 H2 H3 Hl; generalize (replicate n 0); intros hdr H1 H2 H3 Hl;
  zget_zset_tac; rewrite H2; change (default 0 (Some 0) =? 0) with true; rewrite andb_true_r;
  destruct (Z.eqb_spec (qp_txq_idx_start p) 0) as [E0|], (IS_HW_FENCE_TX_QUEUE i), (qp_skip_txq_wr_idx p);
  cbv beta iota delta [andb negb]; zget_zset_tac; rewrite ?E0; done.

(** The indices of a header that was zero. *)
Lemma init_header_indices has_soccp p i qphys :
  let tx := IS_HW_FENCE_TX_QUEUE i in
  let skip := tx && qp_skip_txq_wr_idx p in
  let start := if tx then qp_txq_idx_start p else 0 in
  let '(rd, wr, wm) := hw_fence_get_queue_idx_ptrs has_soccp in
  let hdr := init_header has_soccp p i qphys
               (replicate (Z.to_nat (HW_FENCE_HFI_QUEUE_HEADER_SIZE has_soccp / 4)) 0) in
  zget hdr rd = Some start /\ zget hdr (if skip then wm else wr) = Some start /\ zget hdr wr = Some start.
Proof.
  unfold init_header. destruct has_soccp; simpl hw_fence_get_queue_idx_ptrs; cbv beta iota zeta.
  - header_tac p i 48%nat 16 32 7.
  - header_tac p i 14%nat 12 13 7.
Qed.

Lemma fresh_queue_shape has_soccp p phys i n size :
  params_ok has_soccp p n i -> qp_headers_size p + (i + 1) * (64 * n) <= 4 * size ->
  queue_shape has_soccp (init_queue has_soccp p phys (replicate (Z.to_nat size) 0) i) n 0 0.
Proof.
  intros [Hs Hn Hi [Hp Hpd] [Hhd Hh] He [Hf Hfd] Hst] Hsz.
  assert (0 < HW_FENCE_HFI_QUEUE_HEADER_SIZE has_soccp /\ 0 < HW_FENCE_HFI_TABLE_HEADER_SIZE has_soccp /\
          (4 | HW_FENCE_HFI_QUEUE_HEADER_SIZE has_soccp) /\ (4 | HW_FENCE_HFI_TABLE_HEADER_SIZE has_soccp))
    as (Hq0 & Ht0 & Hq4 & Ht4).
  { destruct has_soccp; simpl; repeat split; try lia; [by exists 48|by exists 16|by exists 14|by exists 6]. }
  set (q := init_queue _ _ _ _ _).
  assert (u32 (qp_headers_size p + i * qp_queue_size p) = qp_headers_size p + i * (64 * n)) as Hoff.
  { rewrite Hs. apply u32_id. unfold in_u32. nia. }
  assert (q_va_queue q = replicate (Z.to_nat (16 * n)) 0) as Emem.
  { unfold q, init_queue. simpl. rewrite Hoff, Hs, dwords_zero; [by replace (64 * n) with (16 * n * 4) by lia; rewrite Z.div_mul by lia|nia|lia|lia| |].
    - apply Z.divide_add_r; [done|]. exists (i * 16 * n). lia.
    - exists (16 * n). lia. }
  assert (q_va_header q = Some (init_header has_soccp p i (phys + (qp_headers_size p + i * (64 * n)))
            (replicate (Z.to_nat (HW_FENCE_HFI_QUEUE_HEADER_SIZE has_soccp / 4)) 0))) as Ehdr.
  { unfold q, init_queue. simpl. rewrite Hoff, dwords_zero; [done|nia|lia|nia| |done].
    apply Z.divide_add_r; [by apply Z.divide_add_r|by apply Z.divide_mul_r]. }
  pose proof (init_header_indices has_soccp p i (phys + (qp_headers_size p + i * (64 * n)))) as Hidx.
  assert (forall x, x = 0 -> custom_idx q x = if IS_HW_FENCE_TX_QUEUE i then qp_txq_idx_start p else 0) as Hcustom.
  { intros x ->. unfold custom_idx, REQUIRES_IDX_TRANSLATION, IDX_TRANSLATE_DEFAULT_TO_CUSTOM, q, init_queue. simpl.
    destruct (IS_HW_FENCE_TX_QUEUE i); [|done].
    destruct (Z.eqb_spec (qp_txq_idx_factor p) 0); [lia|]. rewrite Z.div_0_l by lia.
    rewrite Z.add_0_l, u32_id by (unfold in_u32; lia).
    destruct (Z.eqb_spec (qp_txq_idx_start p) 0) as [->|]; [|done]. by destruct (_ && _). }
  split.
  - lia.
  - lia.
  - lia.
  - unfold q, init_queue. simpl. rewrite Hs. apply u32_id. unfold in_u32. lia.
  - rewrite Emem, zlen_replicate. lia.
  - intros _. unfold q, init_queue. simpl. destruct (IS_HW_FENCE_TX_QUEUE i); [|].
    + repeat split; try lia; done.
    + repeat split; try lia. by exists 16.
  - unfold header_field, read_ptr. rewrite Ehdr, Hcustom by lia.
    destruct (hw_fence_get_queue_idx_ptrs has_soccp) as [[rd wr] wm]. simpl. apply Hidx.
  - unfold header_field, write_ptr. rewrite Ehdr, Hcustom by lia.
    change (q_skip_wr_idx q) with (IS_HW_FENCE_TX_QUEUE i && qp_skip_txq_wr_idx p).
    destruct (hw_fence_get_queue_idx_ptrs has_soccp) as [[rd wr] wm]. simpl. apply Hidx.
  - exists 0. split; [lia|]. unfold header_field, hw_write_ptr. rewrite Ehdr, Hcustom by lia.
    destruct (hw_fence_get_queue_idx_ptrs has_soccp) as [[rd wr] wm]. simpl. apply Hidx.
Qed.

(** The queues the driver lays out in zeroed memory are well formed and empty:
    their memory lies behind the headers, and the read and write indices both stand
    at the first slot, in the numbering the client type asks for. *)
Theorem fresh_queue_empty has_soccp p phys i n size :
  params_ok has_soccp p n i -> qp_headers_size p + (i + 1) * (64 * n) <= 4 * size ->
  queue_repr has_soccp (init_queue has_soccp p phys (replicate (Z.to_nat size) 0) i) n 0 [].
Proof. intros Hp Hs. exact (queue_shape_repr _ _ _ _ _ (fresh_queue_shape _ _ phys _ _ _ Hp Hs)). Qed.

(** ** The queues of a client

    The region of a client in a memory of [n] dwords, big enough for its headers and
    queues of [slots] slots. *)
Record region_fits (l : mem_layout) (n client_id slots start : Z) (desc : client_type_desc) (p : queue_params)
  : Prop := {
  rf_region : client_region l client_id = Some (desc, start);
  rf_params : get_queue_params l (HW_FENCE_MEM_RESERVE_CLIENT_QUEUE client_id) (ct_queues_num desc) = Some p;
  rf_reserve : hw_fence_utils_reserve_mem l (HW_FENCE_MEM_RESERVE_CLIENT_QUEUE client_id) = inr (start, ct_mem_size desc);
  rf_place : 0 <= start /\ 0 <= ct_mem_size desc /\ start + ct_mem_size desc <= 4 * n;
  rf_align : (4 | start) /\ (4 | ct_mem_size desc);
  rf_queues : forall i, 0 <= i < ct_queues_num desc ->
    params_ok (ml_has_soccp l) p slots i /\ qp_headers_size p + (i + 1) * (64 * slots) <= ct_mem_size desc }.

(** A queue that was just laid out. *)
Definition queue_fresh (has_soccp : bool) (slots i : Z) (q : hw_fence_queue) : Prop :=
  queue_shape has_soccp q slots 0 0 /\ (q_skip_wr_idx q = true -> i = 0).

Lemma queue_fresh_ok sc slots i q : queue_fresh sc slots i q -> queue_ok sc q.
Proof. intros [H _]. by exists slots, 0, 0. Qed.

Lemma queue_fresh_empty sc slots i q : queue_fresh sc slots i q -> queue_repr sc q slots 0 [].
Proof.
  intros [H _]. pose proof (queue_shape_repr _ _ _ _ _ H) as Hq. change (0 - 0) with 0 in Hq.
  rewrite Z.mod_0_l in Hq by (destruct H as [[? _] _ _ _ _ _ _ _ _]; lia). exact Hq.
Qed.

Lemma alloc_fresh l n phys client_id slots start desc p :
  region_fits l n client_id slots start desc p -> 0 <= ct_queues_num desc ->
  exists tbl queues,
    hw_fence_alloc_client_resources l (replicate (Z.to_nat n) 0) phys client_id
    = inr (phys + start, ct_mem_size desc, tbl, queues) /\
    zlen queues = ct_queues_num desc /\
    forall i q, zget queues i = Some q -> queue_fresh (ml_has_soccp l) slots i q.
Proof.
  intros [Hreg Hpar Hres Hpl [Hal Hal2] Hqs] Hnum. unfold hw_fence_alloc_client_resources, init_hw_fences_queues.
  rewrite Hreg, Hpar, Hres. do 2 eexists. split; [done|]. split.
  { unfold zlen. rewrite !length_fmap, length_seq. lia. }
  intros i q Eq. pose proof (zget_Some _ _ _ Eq) as Hi. unfold zlen in Hi. rewrite !length_fmap, length_seq in Hi.
  assert (q = init_queue (ml_has_soccp l) p (phys + start) (dwords start (ct_mem_size desc) (replicate (Z.to_nat n) 0)) i)
    as ->.
  { unfold zget in Eq. destruct (Z.leb_spec 0 i); [|lia]. rewrite !list_lookup_fmap in Eq.
    rewrite lookup_seq_lt in Eq by lia. simpl in Eq. injection Eq as <-. f_equal. lia. }
  rewrite dwords_zero by (done || lia). destruct (Hqs i) as [Hp Hsz]; [lia|]. split.
  - apply fresh_queue_shape; [done|]. destruct Hal2 as [k Hk]. rewrite Hk, Z.div_mul by lia. lia.
  - unfold init_queue, IS_HW_FENCE_TX_QUEUE. simpl. intros [H _]%andb_true_iff.
    apply Z.eqb_eq in H. unfold HW_FENCE_TX_QUEUE in H. lia.
Qed.

(** ** Witnesses *)

(** Three IPE clients, two VPU clients, two IFE0 clients with one queue each. *)
Definition example_dt : device_tree :=
  mk_device_tree (inr 1) (inr 8192) (inr 800)
    (fun i => if i =? 3 then Some [3; 2; 800; 0] else if i =? 4 then Some [2; 2; 800; 1]
              else if i =? 6 then Some [2; 1; 64; 1] else None) (fun _ => None).

Lemma example_dt_wf : dt_wf example_dt.
Proof.
  split; [|by intros v [= <-]]. intros i l. simpl.
  repeat (case_match; [intros [= <-]; repeat constructor; vm_compute; discriminate || done|]). done.
Qed.

Definition example_types : list client_type_desc := Eval vm_compute in
  match hw_fence_utils_parse_dt_props example_dt (false, false) (blank_layout (2 ^ 24)) with
  | Done _ l => ml_client_types l | Faulted _ => [] end.

Lemma client_numbers_witness :
  counts_ok example_types /\
  exists n, hw_fence_utils_get_client_id_priv example_types (HW_FENCE_CLIENT_ID_VPU + 1) = Some n /\ n = 19.
Proof.
  assert (counts_ok example_types) as Hc by (repeat constructor; vm_compute; discriminate).
  split; [exact Hc|].
  destruct (client_numbers_distinct example_types Hc ltac:(vm_compute; reflexivity)) as (H & _ & _).
  destruct (H (HW_FENCE_CLIENT_ID_VPU + 1)) as (n & E & _).
  - right. split; [vm_compute; discriminate|]. eexists. split; [vm_compute; reflexivity|]. vm_compute. reflexivity.
  - exists n. split; [exact E|]. vm_compute in E. injection E as <-. reflexivity.
Defined.

Definition ipe_type : client_type_desc :=
  (client_type HW_FENCE_CLIENT_ID_IPE HW_FENCE_CLIENT_TYPE_MAX_IPE 3 2 false) <| ct_queue_entries := 800 |>.

Lemma client_mem_size_witness : exists m, client_mem_size true ipe_type = Some m /\ 2 * (64 * 800) <= m.
Proof.
  exists 106496. split; [vm_compute; reflexivity|].
  destruct (client_mem_size_sound true ipe_type 106496) as (H & _ & _).
  - split; vm_compute; split; discriminate || reflexivity.
  - vm_compute. split; discriminate || reflexivity.
  - vm_compute. discriminate.
  - vm_compute. reflexivity.
  - vm_compute. discriminate.
Defined.

Lemma reservations_witness :
  exists l, hw_fence_utils_parse_dt_props example_dt (false, false) (blank_layout (2 ^ 24)) = Done 0 l /\
    disjoint 2551808 106496 2658304 106496.
Proof.
  destruct (reservations_disjoint example_dt (false, false) 8192 800 (2 ^ 24) example_dt_wf)
    as (r & l & E & H).
  - reflexivity.
  - split; vm_compute; reflexivity || discriminate.
  - reflexivity.
  - reflexivity.
  - split; vm_compute; reflexivity || discriminate.
  - exists l. pose proof E as E'. vm_compute in E'. injection E' as Er El.
    split; [rewrite E; congruence|].
    apply (H (eq_sym Er) (HW_FENCE_MEM_RESERVE_CLIENT_QUEUE 15) (HW_FENCE_MEM_RESERVE_CLIENT_QUEUE 16));
      [discriminate|rewrite <- El; vm_compute; reflexivity|rewrite <- El; vm_compute; reflexivity].
Defined.

Lemma fresh_queue_witness :
  queue_repr true (init_queue true (mk_queue_params 448 4096 0 16 16 false) 4096 (replicate (Z.to_nat 2160) 0) 0)
    64 0 [].
Proof.
  apply (fresh_queue_empty true (mk_queue_params 448 4096 0 16 16 false) 4096 0 64 2160).
  - split; simpl; try lia; repeat split; try lia; [by exists 0|by exists 112|by exists 1].
  - simpl. lia.
Defined.
