(* ===== verification/HwFenceIpc.v ===== *)
(** * Signals through the interrupt controller

    [src/hw_fence_drv_ipc.c] and [include/hw_fence_drv_ipc.h]: the tables that give a
    client its identity at the interrupt controller and its signal, the table built
    for the hardware revision and the configured clients, the registers that enable
    signals, and the mask of clients that signaled.

    The registers are mapped ([ipcc_io_mem] is not null): mapping them is part of the
    probe, which fails without them.  The pointer [ipc_clients_table] is null as long
    as the table is empty.

    The theorems: after the table is built every configured client has the row of its
    type with its own signal, so two clients never share an identity and a signal;
    enabling the signals of a client reaches exactly the clients that share its
    identity; the mask read in an interrupt is the union of what valid senders
    signaled. *)
From S2P Require Import Prelude HwFenceTypes HwFenceTable HwFenceLayout.
From stdpp Require Import gmap.
From Stdlib Require Import Lia.
#[local] Open Scope Z_scope.

Definition HW_FENCE_IPC_MAP_MAX : Z :=
  HW_FENCE_MAX_STATIC_CLIENTS_INDEX + HW_FENCE_MAX_CLIENT_TYPE_CONFIGURABLE.
Definition HW_FENCE_IPCC_MAX_LOOPS : Z := 100.

(** ** Identities *)

Definition HW_FENCE_IPC_CLIENT_ID_APPS_VID : Z := 8.
Definition HW_FENCE_IPC_CLIENT_ID_GPU_VID : Z := 9.
Definition HW_FENCE_IPC_CLIENT_ID_IPE_VID : Z := 11.
Definition HW_FENCE_IPC_CLIENT_ID_VPU_VID : Z := 12.
Definition HW_FENCE_IPC_CLIENT_ID_DPU_VID : Z := 25.
Definition HW_FENCE_IPC_CLIENT_ID_IPA_VID : Z := 26.
Definition HW_FENCE_IPC_CLIENT_ID_SOCCP_VID : Z := 46.
(** [HW_FENCE_IPC_CLIENT_ID_IFE0_VID] and its eleven successors. *)
Definition HW_FENCE_IPC_CLIENT_ID_IFE_VID (i : Z) : Z := 128 + i.

Definition HW_FENCE_IPC_CLIENT_ID_APPS_PID : Z := 3.
Definition HW_FENCE_IPC_CLIENT_ID_GPU_PID : Z := 4.
Definition HW_FENCE_IPC_CLIENT_ID_IPE_PID : Z := 5.
Definition HW_FENCE_IPC_CLIENT_ID_VPU_PID : Z := 8.
Definition HW_FENCE_IPC_CLIENT_ID_DPU_PID : Z := 9.
Definition HW_FENCE_IPC_CLIENT_ID_IFE_PID (i : Z) : Z := 11 + i.
Definition HW_FENCE_IPC_CLIENT_ID_SOCCP_PID : Z := 22.

Definition HW_FENCE_IPC_CLIENT_ID_IPE_PID_SUN : Z := 9.
Definition HW_FENCE_IPC_CLIENT_ID_DPU_PID_SUN : Z := 20.
Definition HW_FENCE_IPC_CLIENT_ID_APPS_PID_NIOBE : Z := 2.
Definition HW_FENCE_IPC_CLIENT_ID_DPU_PID_NIOBE : Z := 3.
Definition HW_FENCE_IPC_CLIENT_ID_IPA_PID_NIOBE : Z := 4.
Definition HW_FENCE_IPC_CLIENT_ID_GPU_PID_NIOBE : Z := 8.
Definition HW_FENCE_IPC_CLIENT_ID_IPE_PID_NIOBE : Z := 10.
Definition HW_FENCE_IPC_CLIENT_ID_VPU_PID_NIOBE : Z := 11.
Definition HW_FENCE_IPC_CLIENT_ID_SOCCP_PID_NIOBE : Z := 13.
Definition HW_FENCE_IPC_CLIENT_ID_IFE_PID_NIOBE (i : Z) : Z := 15 + i.

Definition HW_FENCE_IPC_COMPUTE_L1_PROTOCOL_ID_KALAMA : Z := 2.
Definition HW_FENCE_IPC_FENCE_PROTOCOL_ID_PINEAPPLE : Z := 4.
Definition HW_FENCE_IPC_FENCE_PROTOCOL_ID_SUN : Z := 4.
Definition HW_FENCE_IPC_FENCE_PROTOCOL_ID_NIOBE : Z := 4.

Definition HW_FENCE_IPCC_HW_REV_170 : Z := 67328.
Definition HW_FENCE_IPCC_HW_REV_203 : Z := 131075.
Definition HW_FENCE_IPCC_HW_REV_2A2 : Z := 133634.
Definition HW_FENCE_IPCC_HW_REV_2B4 : Z := 133892.

Definition HW_FENCE_IPC_RECV_ID_NONE : Z := 2 ^ 32 - 1.

(** Register offsets of protocol [p] and client [c]. *)
Definition IPC_PROTOCOLp_CLIENTc_CONFIG (p c : Z) : Z := 8 + 262144 * p + 4096 * c.
Definition IPC_PROTOCOLp_CLIENTc_RECV_SIGNAL_ENABLE (p c : Z) : Z := 20 + 262144 * p + 4096 * c.

(** ** The tables, per family of targets *)

Definition zero_row : client_ipc_map := mk_ipc_map 0 0 0 false false false false.

(** An array of [HW_FENCE_IPC_MAP_MAX] rows of which the first ones are given. *)
Definition ipc_map (rows : list client_ipc_map) : list client_ipc_map :=
  rows ++ replicate (Z.to_nat HW_FENCE_IPC_MAP_MAX - length rows) zero_row.

(** The rows of the display, validation and front-end clients. *)
Definition dpu_row (pid sig : Z) : client_ipc_map :=
  mk_ipc_map HW_FENCE_IPC_CLIENT_ID_DPU_VID pid sig false false true false.
Definition val_row (pid sig : Z) (signaled_send_ipc : bool) : client_ipc_map :=
  mk_ipc_map HW_FENCE_IPC_CLIENT_ID_APPS_VID pid sig true true signaled_send_ipc true.
Definition ife_row (pid : Z -> Z) (i : Z) : client_ipc_map :=
  mk_ipc_map (HW_FENCE_IPC_CLIENT_ID_IFE_VID i) (pid i) 0 false false true false.

(** The static clients: control queue, GPU, six display and seven validation
    clients. *)
Definition static_rows (apps_pid apps_sig gpu_pid dpu_pid : Z) (val_send_ipc : bool)
  : list client_ipc_map :=
  [ mk_ipc_map HW_FENCE_IPC_CLIENT_ID_APPS_VID apps_pid apps_sig true true true false;
    mk_ipc_map HW_FENCE_IPC_CLIENT_ID_GPU_VID gpu_pid 0 true false false true;
    dpu_row dpu_pid 0; dpu_row dpu_pid 1; dpu_row dpu_pid 2;
    dpu_row dpu_pid 3; dpu_row dpu_pid 4; dpu_row dpu_pid 5;
    val_row apps_pid 21 val_send_ipc; val_row apps_pid 22 val_send_ipc;
    val_row apps_pid 23 val_send_ipc; val_row apps_pid 24 val_send_ipc;
    val_row apps_pid 25 val_send_ipc; val_row apps_pid 26 val_send_ipc;
    val_row apps_pid 27 val_send_ipc ].

(** A row of the image, video and modem clients. *)
Definition core_row (vid pid : Z) : client_ipc_map := mk_ipc_map vid pid 0 true true true false.

Definition hw_fence_clients_ipc_map : list client_ipc_map :=
  ipc_map (static_rows HW_FENCE_IPC_CLIENT_ID_APPS_VID 1 HW_FENCE_IPC_CLIENT_ID_GPU_VID
             HW_FENCE_IPC_CLIENT_ID_DPU_VID false ++
           [ core_row HW_FENCE_IPC_CLIENT_ID_IPE_VID HW_FENCE_IPC_CLIENT_ID_IPE_VID;
             core_row HW_FENCE_IPC_CLIENT_ID_VPU_VID HW_FENCE_IPC_CLIENT_ID_VPU_VID ]).

Definition hw_fence_clients_ipc_map_v2 : list client_ipc_map :=
  ipc_map (static_rows HW_FENCE_IPC_CLIENT_ID_APPS_PID 1 HW_FENCE_IPC_CLIENT_ID_GPU_PID
             HW_FENCE_IPC_CLIENT_ID_DPU_PID false ++
           [ core_row HW_FENCE_IPC_CLIENT_ID_IPE_VID HW_FENCE_IPC_CLIENT_ID_IPE_PID;
             core_row HW_FENCE_IPC_CLIENT_ID_VPU_VID HW_FENCE_IPC_CLIENT_ID_VPU_PID;
             zero_row ] ++
           (ife_row HW_FENCE_IPC_CLIENT_ID_IFE_PID <$> [0; 1; 2; 3; 4; 5; 6; 7])).

Definition hw_fence_clients_ipc_map_sun : list client_ipc_map :=
  ipc_map (static_rows HW_FENCE_IPC_CLIENT_ID_APPS_PID 0 HW_FENCE_IPC_CLIENT_ID_GPU_PID
             HW_FENCE_IPC_CLIENT_ID_DPU_PID_SUN true ++
           [ core_row HW_FENCE_IPC_CLIENT_ID_IPE_VID HW_FENCE_IPC_CLIENT_ID_IPE_PID_SUN;
             core_row HW_FENCE_IPC_CLIENT_ID_VPU_VID HW_FENCE_IPC_CLIENT_ID_VPU_PID;
             zero_row ] ++
           (ife_row HW_FENCE_IPC_CLIENT_ID_IFE_PID <$> [0; 1; 2; 3; 4; 5; 6; 7])).

Definition hw_fence_clients_ipc_map_niobe : list client_ipc_map :=
  ipc_map (static_rows HW_FENCE_IPC_CLIENT_ID_APPS_PID_NIOBE 0 HW_FENCE_IPC_CLIENT_ID_GPU_PID_NIOBE
             HW_FENCE_IPC_CLIENT_ID_DPU_PID_NIOBE true ++
           [ core_row HW_FENCE_IPC_CLIENT_ID_IPE_VID HW_FENCE_IPC_CLIENT_ID_IPE_PID_NIOBE;
             core_row HW_FENCE_IPC_CLIENT_ID_VPU_VID HW_FENCE_IPC_CLIENT_ID_VPU_PID_NIOBE;
             core_row HW_FENCE_IPC_CLIENT_ID_IPA_VID HW_FENCE_IPC_CLIENT_ID_IPA_PID_NIOBE ] ++
           (ife_row HW_FENCE_IPC_CLIENT_ID_IFE_PID_NIOBE <$> [0; 1; 2; 3; 4; 5; 6; 7; 8; 9; 10; 11])).

(** ** What the rest of the driver asks for *)

(** A client id is compared as a [u32]. *)
Definition ipc_field {A} (p : client_ipc_map -> A) (bad : A) (client_id : Z) : DRV A :=
  d <-- get;
  if dd_clients_num d <=? u32 client_id then ret bad
  else row <-- deref (zget (dd_ipc_clients_table d) client_id); ret (p row).

Definition hw_fence_ipcc_get_client_virt_id : Z -> DRV Z := ipc_field im_ipc_client_id_virt (- EINVAL).
Definition hw_fence_ipcc_get_client_phys_id : Z -> DRV Z := ipc_field im_ipc_client_id_phys (- EINVAL).
Definition hw_fence_ipcc_get_signal_id : Z -> DRV Z := ipc_field im_ipc_signal_id (- EINVAL).
Definition hw_fence_ipcc_needs_rxq_update : Z -> DRV bool := ipc_field im_update_rxq false.
Definition hw_fence_ipcc_signaled_needs_rxq_update : Z -> DRV bool :=
  ipc_field im_signaled_update_rxq false.
Definition hw_fence_ipcc_signaled_needs_ipc_irq : Z -> DRV bool :=
  ipc_field im_signaled_send_ipc false.
Definition hw_fence_ipcc_txq_update_needs_ipc_irq : Z -> DRV bool :=
  ipc_field im_txq_update_send_ipc false.

(** ** Building the table *)

Definition with_signal (j : Z) (row : client_ipc_map) : client_ipc_map :=
  mk_ipc_map (im_ipc_client_id_virt row) (im_ipc_client_id_phys row) j (im_update_rxq row)
    (im_signaled_update_rxq row) (im_signaled_send_ipc row) (im_txq_update_send_ipc row).

(** The rows of the [n] clients of one type from its [j]-th on; [None]: there are
    more than the driver counts. *)
Fixpoint map_subclients (n : nat) (j : Z) (row : client_ipc_map) (map_idx : Z) : DRV (option Z) :=
  match n with
  | O => ret (Some map_idx)
  | S n =>
      d <-- get;
      if dd_clients_num d <=? map_idx then ret None
      else
        put (d <| dd_ipc_clients_table ::= zset map_idx (with_signal j row) |>);;;
        map_subclients n (j + 1) row (map_idx + 1)
  end.

(** The configurable types from the [i]-th on, [n] of them. *)
Fixpoint map_types (n : nat) (i : Z) (base_table : list client_ipc_map) (map_idx : Z) : DRV (option Z) :=
  match n with
  | O => ret (Some map_idx)
  | S n =>
      d <-- get;
      desc <-- deref (zget (ml_client_types (dd_layout d)) (HW_FENCE_MAX_CLIENT_TYPE_STATIC + i));
      let clients_num := i32 (ct_clients_num desc) in
      row <-- deref (zget base_table (HW_FENCE_MAX_STATIC_CLIENTS_INDEX + i));
      o <-- map_subclients (Z.to_nat clients_num) 0 row map_idx;
      match o with
      | None => ret None
      | Some map_idx => map_types n (i + 1) base_table map_idx
      end
  end.

(** The static rows are copied over a zeroed table, which must have room for them. *)
Definition _hw_fence_ipcc_init_map_with_configurable_clients (base_table : list client_ipc_map) : DRV Z :=
  p <-- kzalloc;
  d <-- get;
  match p with
  | None => put (d <| dd_ipc_clients_table := [] |>);;; ret (- ENOMEM)
  | Some _ =>
      if dd_clients_num d <? HW_FENCE_MAX_STATIC_CLIENTS_INDEX then raise BadAccess
      else
        put (d <| dd_ipc_clients_table :=
                    take (Z.to_nat HW_FENCE_MAX_STATIC_CLIENTS_INDEX) base_table ++
                    replicate (Z.to_nat (dd_clients_num d - HW_FENCE_MAX_STATIC_CLIENTS_INDEX)) zero_row |>);;;
        o <-- map_types (Z.to_nat HW_FENCE_MAX_CLIENT_TYPE_CONFIGURABLE) 0 base_table
                HW_FENCE_MAX_STATIC_CLIENTS_INDEX;
        match o with Some _ => ret 0 | None => ret (- EINVAL) end
  end.

(** The identities of the driver and of the fence controller, and the protocol. *)
Definition set_ids (client_vid client_pid fctl_vid fctl_pid protocol_id : Z) : DRV unit :=
  modifyM (fun d => d <| dd_ipcc_client_vid := client_vid |> <| dd_ipcc_client_pid := client_pid |>
                      <| dd_ipcc_fctl_vid := fctl_vid |> <| dd_ipcc_fctl_pid := fctl_pid |>
                      <| dd_protocol_id := protocol_id |>).

Definition _hw_fence_ipcc_hwrev_init (hwrev : Z) : DRV Z :=
  d <-- get;
  if hwrev =? HW_FENCE_IPCC_HW_REV_170 then
    set_ids HW_FENCE_IPC_CLIENT_ID_APPS_VID HW_FENCE_IPC_CLIENT_ID_APPS_VID
      HW_FENCE_IPC_CLIENT_ID_APPS_VID HW_FENCE_IPC_CLIENT_ID_APPS_VID
      HW_FENCE_IPC_COMPUTE_L1_PROTOCOL_ID_KALAMA;;;
    modifyM (fun d => d <| dd_ipc_clients_table := hw_fence_clients_ipc_map |>);;;
    ret 0
  else if hwrev =? HW_FENCE_IPCC_HW_REV_203 then
    set_ids HW_FENCE_IPC_CLIENT_ID_APPS_VID HW_FENCE_IPC_CLIENT_ID_APPS_PID
      HW_FENCE_IPC_CLIENT_ID_APPS_VID HW_FENCE_IPC_CLIENT_ID_APPS_PID
      HW_FENCE_IPC_FENCE_PROTOCOL_ID_PINEAPPLE;;;
    _hw_fence_ipcc_init_map_with_configurable_clients hw_fence_clients_ipc_map_v2
  else if hwrev =? HW_FENCE_IPCC_HW_REV_2A2 then
    set_ids HW_FENCE_IPC_CLIENT_ID_APPS_VID HW_FENCE_IPC_CLIENT_ID_APPS_PID
      (if dd_has_soccp d then HW_FENCE_IPC_CLIENT_ID_SOCCP_VID else HW_FENCE_IPC_CLIENT_ID_APPS_VID)
      (if dd_has_soccp d then HW_FENCE_IPC_CLIENT_ID_SOCCP_PID else HW_FENCE_IPC_CLIENT_ID_APPS_PID)
      HW_FENCE_IPC_FENCE_PROTOCOL_ID_SUN;;;
    _hw_fence_ipcc_init_map_with_configurable_clients hw_fence_clients_ipc_map_sun
  else if hwrev =? HW_FENCE_IPCC_HW_REV_2B4 then
    set_ids HW_FENCE_IPC_CLIENT_ID_APPS_VID HW_FENCE_IPC_CLIENT_ID_APPS_PID_NIOBE
      (if dd_has_soccp d then HW_FENCE_IPC_CLIENT_ID_SOCCP_VID else HW_FENCE_IPC_CLIENT_ID_APPS_VID)
      (if dd_has_soccp d then HW_FENCE_IPC_CLIENT_ID_SOCCP_PID_NIOBE
       else HW_FENCE_IPC_CLIENT_ID_APPS_PID_NIOBE)
      HW_FENCE_IPC_FENCE_PROTOCOL_ID_NIOBE;;;
    _hw_fence_ipcc_init_map_with_configurable_clients hw_fence_clients_ipc_map_niobe
  else ret (-1).

(** ** Enabling signals *)

Definition writel_relaxed (val reg : Z) : DRV unit := log_event (EvWritel reg val).

Definition _enable_client_signal_pair (rx_client_id_phys tx_client_id_vid signal_id : Z) : DRV Z :=
  d <-- get;
  if dd_protocol_id d =? 0 then ret (- EINVAL)
  else
    let val := u32 (Z.lor (Z.shiftl tx_client_id_vid 16) (Z.land signal_id 65535)) in
    writel_relaxed val
      (IPC_PROTOCOLp_CLIENTc_RECV_SIGNAL_ENABLE (dd_protocol_id d) rx_client_id_phys);;;
    ret 0.

(** There is no table, or no such client. *)
Definition no_ipc_client (d : driver_data) (client_id : Z) : bool :=
  (dd_protocol_id d =? 0) || (zlen (dd_ipc_clients_table d) =? 0) || (dd_clients_num d <=? u32 client_id).

Definition hw_fence_ipcc_enable_protocol (client_id : Z) : DRV Z :=
  d <-- get;
  if no_ipc_client d client_id then ret (- EINVAL)
  else
    row <-- deref (zget (dd_ipc_clients_table d) (u32 client_id));
    writel_relaxed 1 (IPC_PROTOCOLp_CLIENTc_CONFIG (dd_protocol_id d) (im_ipc_client_id_phys row));;;
    ret 0.

(** [ipc_ver]: the device-tree property, or the error of reading it. *)
Definition hw_fence_ipcc_enable_signaling (ipc_ver : Z + Z) : DRV Z :=
  match ipc_ver with
  | inl _ => ret (- EINVAL)
  | inr val =>
      if val =? 0 then ret (- EINVAL)
      else
        r <-- _hw_fence_ipcc_hwrev_init val;
        if negb (r =? 0) then ret (- EINVAL)
        else
          hw_fence_ipcc_enable_protocol 0;;;
          d <-- get;
          _enable_client_signal_pair (dd_ipcc_client_pid d) (dd_ipcc_fctl_vid d) 0;;;
          ret 0
  end.

(** The signals into one client: from the driver, and from the fence controller when
    that is another processor. *)
Definition enable_row (d : driver_data) (ipc_client_vid : Z) (row : client_ipc_map) : DRV unit :=
  when dd_has_soccp d || negb (ipc_client_vid =? dd_ipcc_client_vid d) do (
    _enable_client_signal_pair (im_ipc_client_id_phys row) (dd_ipcc_client_vid d)
      (im_ipc_signal_id row);;; ret tt);;;
  when negb (dd_ipcc_client_vid d =? dd_ipcc_fctl_vid d) do (
    _enable_client_signal_pair (im_ipc_client_id_phys row) (dd_ipcc_fctl_vid d)
      (im_ipc_signal_id row);;; ret tt).

(** The loop from client [i] on, which stops at the first client with another
    identity; [n] is the number of clients left. *)
Fixpoint enable_from (n : nat) (i ipc_client_vid : Z) : DRV unit :=
  match n with
  | O => ret tt
  | S n =>
      d <-- get;
      row <-- deref (zget (dd_ipc_clients_table d) i);
      if negb (im_ipc_client_id_virt row =? ipc_client_vid) then ret tt
      else enable_row d ipc_client_vid row;;; enable_from n (i + 1) ipc_client_vid
  end.

Definition hw_fence_ipcc_enable_client_signal_pairs (start_client : Z) : DRV Z :=
  d <-- get;
  if no_ipc_client d start_client then ret (- EINVAL)
  else
    row <-- deref (zget (dd_ipc_clients_table d) (u32 start_client));
    enable_from (Z.to_nat (dd_clients_num d - u32 start_client)) (u32 start_client)
      (im_ipc_client_id_virt row);;;
    ret 0.

(** ** The mask of signaled clients *)

Definition _is_invalid_signaling_client (d : driver_data) (client_id : Z) : bool :=
  negb (client_id =? dd_ipcc_fctl_vid d) && negb (client_id =? dd_ipcc_client_vid d).

Definition read_recv_id : DRV Z :=
  d <-- get;
  n <-- tick;
  ret (u32 (env_recv_id (dd_env d) n)).

(** The signals of the validation clients carry their client numbers.  The ids the
    interrupt controller gives are compared as [u32]. *)
Definition signal_bit (signal_id : Z) : DRV Z :=
  first <-- hw_fence_ipcc_get_signal_id HW_FENCE_CLIENT_ID_VAL0;
  if u32 first <=? signal_id then
    last <-- hw_fence_ipcc_get_signal_id HW_FENCE_CLIENT_ID_VAL6;
    if signal_id <=? u32 last then
      first <-- hw_fence_ipcc_get_signal_id HW_FENCE_CLIENT_ID_VAL0;
      ret (u32 (signal_id - first + HW_FENCE_CLIENT_ID_VAL0))
    else ret signal_id
  else ret signal_id.

(** Shifting by 64 or more has no meaning. *)
Definition checked_BIT (n : Z) : DRV Z := if n <? 64 then ret (BIT n) else raise Undefined.

Fixpoint read_signals (n : nat) (mask : Z) : DRV Z :=
  match n with
  | O => ret mask
  | S n =>
      reg_val <-- read_recv_id;
      if reg_val =? HW_FENCE_IPC_RECV_ID_NONE then ret mask
      else
        let client_id := Z.land (Z.shiftr reg_val 16) 65535 in
        let signal_id := Z.land reg_val 65535 in
        d <-- get;
        if _is_invalid_signaling_client d client_id then read_signals n mask
        else
          signal_id <-- signal_bit signal_id;
          bit <-- checked_BIT signal_id;
          read_signals n (Z.lor mask bit)
  end.

(** The error value [-1] is a mask with all bits set. *)
Definition hw_fence_ipcc_get_signaled_clients_mask : DRV Z :=
  d <-- get;
  if (dd_protocol_id d =? 0) || (dd_ipcc_client_pid d =? 0) || (dd_ipcc_fctl_vid d =? 0) ||
     negb (dd_has_soccp d)
  then ret (u64 (-1))
  else read_signals (Z.to_nat HW_FENCE_IPCC_MAX_LOOPS) 0.

(** * Properties *)

(** ** The table *)

Definition with_table (t : list client_ipc_map) (d : driver_data) : driver_data :=
  d <| dd_ipc_clients_table := t |>.

(** The rows the clients of one type get, and those of all types. *)
Fixpoint sub_rows (n : nat) (j : Z) (row : client_ipc_map) : list client_ipc_map :=
  match n with O => [] | S n => with_signal j row :: sub_rows n (j + 1) row end.

Definition base_row (base : list client_ipc_map) (i : Z) : client_ipc_map := default zero_row (zget base i).

Fixpoint type_rows (types : list client_type_desc) (i : Z) (base : list client_ipc_map)
  : list client_ipc_map :=
  match types with
  | [] => []
  | desc :: types =>
      sub_rows (Z.to_nat (ct_clients_num desc)) 0 (base_row base (HW_FENCE_MAX_STATIC_CLIENTS_INDEX + i)) ++
      type_rows types (i + 1) base
  end.

Lemma zlen_sub_rows n j row : zlen (sub_rows n j row) = Z.of_nat n.
Proof.
  unfold zlen. f_equal. revert j. induction n as [|n IH]; intros j; [done|]. simpl. by rewrite IH.
Qed.

Lemma zget_sub_rows n j row k :
  0 <= k < Z.of_nat n -> zget (sub_rows n j row) k = Some (with_signal (j + k) row).
Proof.
  revert j k. induction n as [|n IH]; intros j k Hk; [lia|].
  destruct (decide (k = 0)) as [->|Hne]; [by rewrite Z.add_0_r|].
  replace k with (k - 1 + 1) at 1 by lia. simpl sub_rows. rewrite zget_cons by lia.
  rewrite IH by lia. do 2 f_equal. lia.
Qed.

Lemma zset_app_r {A} (l1 l2 : list A) x y : zset (zlen l1) y (l1 ++ x :: l2) = l1 ++ y :: l2.
Proof.
  unfold zset, zlen. destruct (Z.leb_spec 0 (Z.of_nat (length l1))); [|lia].
  rewrite Nat2Z.id. induction l1 as [|a l1 IH]; [done|]. simpl. rewrite IH by lia. done.
Qed.

Lemma zget_app_r {A} (l1 l2 : list A) k : 0 <= k -> zget (l1 ++ l2) (zlen l1 + k) = zget l2 k.
Proof.
  intros Hk. unfold zget, zlen. destruct (Z.leb_spec 0 (Z.of_nat (length l1) + k)), (Z.leb_spec 0 k); try lia.
  rewrite lookup_app_r by lia. f_equal. lia.
Qed.

(** Writing the rows of one type behind those already there. *)
Lemma map_subclients_run n j row d pre rest :
  dd_ipc_clients_table d = pre ++ rest -> dd_clients_num d = zlen (pre ++ rest) -> (n <= length rest)%nat ->
  map_subclients n j row (zlen pre) d
  = Done (Some (zlen pre + Z.of_nat n)) (with_table (pre ++ sub_rows n j row ++ drop n rest) d).
Proof.
  revert j d pre rest. induction n as [|n IH]; intros j d pre rest Ht Hc Hn.
  - simpl. rewrite drop_0, <- Ht, Z.add_0_r. unfold with_table. destruct d. simpl. done.
  - destruct rest as [|x rest]; simpl in Hn; [lia|]. cbn [map_subclients].
    rewrite (bind_run get _ d d d) by done. rewrite Hc, zlen_app.
    destruct (Z.leb_spec (zlen pre + zlen (x :: rest)) (zlen pre)); [unfold zlen in *; simpl in *; lia|].
    rewrite (bind_run _ _ _ tt (with_table (pre ++ with_signal j row :: rest) d)).
    2: { unfold put, with_table. destruct d; simpl in *. subst. by rewrite zset_app_r. }
    replace (zlen pre + 1) with (zlen (pre ++ [with_signal j row])) by (by rewrite zlen_app).
    rewrite (IH _ _ _ rest).
    + rewrite zlen_app. change (zlen [_]) with 1. f_equal; [f_equal; lia|]. unfold with_table. simpl. by rewrite <- app_assoc.
    + simpl. by rewrite <- app_assoc.
    + simpl. rewrite Hc, !zlen_app. unfold zlen. simpl. lia.
    + lia.
Qed.

(** ... and refusing when the driver counts fewer clients. *)
Lemma map_subclients_refused n j row d pre rest :
  dd_ipc_clients_table d = pre ++ rest -> dd_clients_num d = zlen (pre ++ rest) -> (length rest < n)%nat ->
  exists d', map_subclients n j row (zlen pre) d = Done None d'.
Proof.
  revert j d pre rest. induction n as [|n IH]; intros j d pre rest Ht Hc Hn; [lia|].
  cbn [map_subclients]. rewrite (bind_run get _ d d d) by done. rewrite Hc, zlen_app.
  destruct (Z.leb_spec (zlen pre + zlen rest) (zlen pre)) as [|Hlt]; [by eexists|].
  destruct rest as [|x rest]; [unfold zlen in *; simpl in *; lia|].
  rewrite (bind_run _ _ _ tt (with_table (pre ++ with_signal j row :: rest) d)).
  2: { unfold put, with_table. destruct d; simpl in *. subst. by rewrite zset_app_r. }
  replace (zlen pre + 1) with (zlen (pre ++ [with_signal j row])) by (rewrite zlen_app; done).
  apply (IH _ _ _ rest).
  - simpl. by rewrite <- app_assoc.
  - simpl. rewrite Hc, !zlen_app. unfold zlen. simpl. lia.
  - simpl in Hn. lia.
Qed.

Lemma zlen_type_rows types i base : counts_ok types -> zlen (type_rows types i base) = sum_clients types.
Proof.
  intros Hc. revert i. induction Hc as [|desc types Hd _ IH]; intros i; [done|]. simpl type_rows.
  rewrite zlen_app, zlen_sub_rows, IH. change (sum_clients (desc :: types)) with (ct_clients_num desc + sum_clients types).
  lia.
Qed.

Lemma i32_id x : - 2 ^ 31 <= x < 2 ^ 31 -> i32 x = x.
Proof. intros. unfold i32. rewrite Z.mod_small by lia. lia. Qed.

Lemma map_types_run types base d pre rest i :
  counts_ok types -> zlen base = HW_FENCE_IPC_MAP_MAX -> 0 <= i -> i + zlen types = HW_FENCE_MAX_CLIENT_TYPE_CONFIGURABLE ->
  drop (Z.to_nat (HW_FENCE_MAX_CLIENT_TYPE_STATIC + i)) (ml_client_types (dd_layout d)) = types ->
  dd_ipc_clients_table d = pre ++ rest -> dd_clients_num d = zlen (pre ++ rest) -> zlen rest = sum_clients types ->
  map_types (length types) i base (zlen pre) d
  = Done (Some (zlen pre + sum_clients types)) (with_table (pre ++ type_rows types i base) d).
Proof.
  intros Hc Hb. revert d pre rest i. induction Hc as [|desc types Hd Hc IH]; intros d pre rest i Hi Hl Hdrop Ht Hn Hr.
  - simpl. change (sum_clients []) with 0 in Hr. destruct rest; [|unfold zlen in Hr; simpl in Hr; lia].
    rewrite <- Ht, Z.add_0_r. unfold with_table. by destruct d.
  - change (sum_clients (desc :: types)) with (ct_clients_num desc + sum_clients types) in *.
    pose proof (sum_clients_bound _ Hc) as Hsum. unfold zlen in Hl. simpl length in Hl. simpl length. cbn [map_types].
    rewrite (bind_run get _ d d d) by done.
    assert (zget (ml_client_types (dd_layout d)) (HW_FENCE_MAX_CLIENT_TYPE_STATIC + i) = Some desc) as E.
    { unfold zget, HW_FENCE_MAX_CLIENT_TYPE_STATIC in *. destruct (Z.leb_spec 0 (3 + i)); [|lia].
      rewrite <- (Nat.add_0_r (Z.to_nat (3 + i))), <- lookup_drop, Hdrop. done. }
    rewrite (bind_run _ _ _ desc d) by (by rewrite E). rewrite i32_id by lia.
    assert (is_Some (zget base (HW_FENCE_MAX_STATIC_CLIENTS_INDEX + i))) as [row Erow].
    { apply zget_is_Some. rewrite Hb. unfold HW_FENCE_IPC_MAP_MAX, HW_FENCE_MAX_STATIC_CLIENTS_INDEX,
        HW_FENCE_CLIENT_ID_IPE, HW_FENCE_MAX_CLIENT_TYPE_CONFIGURABLE in *. lia. }
    rewrite (bind_run _ _ _ row d) by (by rewrite Erow).
    assert (Z.to_nat (ct_clients_num desc) <= length rest)%nat as Hle by (unfold zlen in Hr; lia).
    erewrite bind_run by (by apply map_subclients_run). cbv beta iota.
    replace (zlen pre + Z.of_nat (Z.to_nat (ct_clients_num desc)))
      with (zlen (pre ++ sub_rows (Z.to_nat (ct_clients_num desc)) 0 row)) by (rewrite zlen_app, zlen_sub_rows; lia).
    rewrite (IH _ _ (drop (Z.to_nat (ct_clients_num desc)) rest)).
    + rewrite zlen_app, zlen_sub_rows. f_equal; [f_equal; lia|]. unfold with_table. simpl. unfold base_row.
      rewrite Erow. by rewrite <- app_assoc.
    + lia.
    + unfold zlen. lia.
    + simpl. replace (Z.to_nat (HW_FENCE_MAX_CLIENT_TYPE_STATIC + (i + 1)))
        with (Z.to_nat (HW_FENCE_MAX_CLIENT_TYPE_STATIC + i) + 1)%nat by (unfold HW_FENCE_MAX_CLIENT_TYPE_STATIC; lia).
      rewrite <- drop_drop, Hdrop. done.
    + simpl. by rewrite <- app_assoc.
    + simpl. rewrite Hn, !zlen_app, zlen_sub_rows. unfold zlen. rewrite length_drop. lia.
    + unfold zlen in *. rewrite length_drop. lia.
Qed.

(** The table of a hardware revision, and whether it is sized for the configured
    clients. *)
Definition base_of (hwrev : Z) : option (list client_ipc_map) :=
  if hwrev =? HW_FENCE_IPCC_HW_REV_203 then Some hw_fence_clients_ipc_map_v2
  else if hwrev =? HW_FENCE_IPCC_HW_REV_2A2 then Some hw_fence_clients_ipc_map_sun
  else if hwrev =? HW_FENCE_IPCC_HW_REV_2B4 then Some hw_fence_clients_ipc_map_niobe
  else None.

(** Rows of different types never share an identity, and those of static clients
    that do differ in the signal. *)
Definition rows_apart (i j : Z) (r1 r2 : client_ipc_map) : bool :=
  (im_ipc_client_id_virt r1 <=? 0) || negb (im_ipc_client_id_virt r1 =? im_ipc_client_id_virt r2) ||
  (i =? j) ||
  ((i <? HW_FENCE_MAX_STATIC_CLIENTS_INDEX) && (j <? HW_FENCE_MAX_STATIC_CLIENTS_INDEX) &&
   negb (im_ipc_signal_id r1 =? im_ipc_signal_id r2)).

Definition base_apart (base : list client_ipc_map) : bool :=
  forallb (fun i => forallb (fun j => rows_apart i j (base_row base i) (base_row base j))
                      (seqZ 0 HW_FENCE_IPC_MAP_MAX)) (seqZ 0 HW_FENCE_IPC_MAP_MAX).

Lemma base_apart_at base i j :
  base_apart base = true -> 0 <= i < HW_FENCE_IPC_MAP_MAX -> 0 <= j < HW_FENCE_IPC_MAP_MAX ->
  rows_apart i j (base_row base i) (base_row base j) = true.
Proof.
  unfold base_apart. rewrite forallb_forall. intros H Hi Hj.
  specialize (H i). rewrite forallb_forall in H. apply H; apply list_elem_of_In, elem_of_seqZ; lia.
Qed.

Lemma base_of_apart hwrev base :
  base_of hwrev = Some base -> base_apart base = true /\ zlen base = HW_FENCE_IPC_MAP_MAX.
Proof.
  unfold base_of. repeat case_match; intros E; try done; injection E as <-; by vm_compute.
Qed.

(** Where an external client id finds its row in the base table. *)
Definition base_index (id : Z) : Z :=
  if id <? HW_FENCE_MAX_STATIC_CLIENTS_INDEX then id else HW_FENCE_MAX_STATIC_CLIENTS_INDEX + ext_type id.

(** The row of a client: that of its type, with its own signal. *)
Definition client_row (base : list client_ipc_map) (id : Z) : client_ipc_map :=
  if id <? HW_FENCE_MAX_STATIC_CLIENTS_INDEX then base_row base id
  else with_signal (ext_offset id) (base_row base (base_index id)).

Lemma configured_base_index types id :
  zlen types = HW_FENCE_MAX_CLIENT_TYPE -> configured types id -> 0 <= base_index id < HW_FENCE_IPC_MAP_MAX.
Proof.
  unfold base_index, HW_FENCE_IPC_MAP_MAX, HW_FENCE_MAX_CLIENT_TYPE, HW_FENCE_MAX_CLIENT_TYPE_STATIC,
    HW_FENCE_MAX_CLIENT_TYPE_CONFIGURABLE.
  intros Hlen [Hi|(Hi & desc & E & Ho)]; destruct (Z.ltb_spec id HW_FENCE_MAX_STATIC_CLIENTS_INDEX); try lia.
  destruct (ext_parts id Hi) as (_ & _ & Ht). apply zget_Some in E.
  assert (zlen (drop 3 types) = zlen types - 3) by (unfold zlen in *; rewrite length_drop; lia).
  unfold HW_FENCE_MAX_STATIC_CLIENTS_INDEX, HW_FENCE_CLIENT_ID_IPE in *. lia.
Qed.

(** Two clients that share an identity and a signal are one. *)
Lemma client_row_inj types base id1 id2 :
  base_apart base = true -> zlen types = HW_FENCE_MAX_CLIENT_TYPE ->
  configured types id1 -> configured types id2 -> 0 < im_ipc_client_id_virt (client_row base id1) ->
  im_ipc_client_id_virt (client_row base id1) = im_ipc_client_id_virt (client_row base id2) ->
  im_ipc_signal_id (client_row base id1) = im_ipc_signal_id (client_row base id2) -> id1 = id2.
Proof.
  intros Hb Hlen H1 H2 Hpos Hvid Hsig.
  pose proof (base_apart_at base _ _ Hb (configured_base_index _ _ Hlen H1) (configured_base_index _ _ Hlen H2)) as Hr.
  pose proof (ext_parts id1) as P1. pose proof (ext_parts id2) as P2.
  assert (forall id, im_ipc_client_id_virt (client_row base id) = im_ipc_client_id_virt (base_row base (base_index id))) as Hv.
  { intros id. unfold client_row, base_index. by destruct (id <? _). }
  rewrite !Hv in *. unfold rows_apart in Hr. rewrite Hvid, Z.eqb_refl in Hr.
  destruct (Z.leb_spec (im_ipc_client_id_virt (base_row base (base_index id2))) 0); [lia|]. simpl in Hr.
  unfold client_row, base_index in *. destruct H1 as [H1|[H1 _]], H2 as [H2|[H2 _]];
    destruct (Z.ltb_spec id1 HW_FENCE_MAX_STATIC_CLIENTS_INDEX), (Z.ltb_spec id2 HW_FENCE_MAX_STATIC_CLIENTS_INDEX); try lia.
  simpl in Hsig. lia.
Qed.

Lemma zget_type_rows types i base k desc o :
  counts_ok types -> types !! k = Some desc -> 0 <= o < ct_clients_num desc ->
  zget (type_rows types i base) (sum_clients (take k types) + o)
  = Some (with_signal o (base_row base (HW_FENCE_MAX_STATIC_CLIENTS_INDEX + i + Z.of_nat k))).
Proof.
  intros Hc. revert i k. induction Hc as [|x types Hx Hc IH]; intros i k E Ho; [done|]. simpl type_rows.
  destruct k as [|k]; simpl in E.
  - injection E as ->. simpl take. change (sum_clients []) with 0.
    rewrite zget_app_l by (rewrite zlen_sub_rows; lia). rewrite zget_sub_rows by lia.
    by rewrite !Z.add_0_r.
  - simpl take. change (sum_clients (x :: take k types)) with (ct_clients_num x + sum_clients (take k types)).
    pose proof (sum_clients_bound (take k types) ltac:(auto with layout)).
    replace (ct_clients_num x + sum_clients (take k types) + o)
      with (zlen (sub_rows (Z.to_nat (ct_clients_num x)) 0 (base_row base (HW_FENCE_MAX_STATIC_CLIENTS_INDEX + i)))
            + (sum_clients (take k types) + o)) by (rewrite zlen_sub_rows; lia).
    rewrite zget_app_r by lia. rewrite (IH (i + 1) k E Ho). do 3 f_equal. lia.
Qed.

(** The table that is built. *)
Definition built_table (base : list client_ipc_map) (types : list client_type_desc) : list client_ipc_map :=
  take (Z.to_nat HW_FENCE_MAX_STATIC_CLIENTS_INDEX) base ++ type_rows (drop 3 types) 0 base.

Lemma zlen_static (base : list client_ipc_map) :
  zlen base = HW_FENCE_IPC_MAP_MAX ->
  zlen (take (Z.to_nat HW_FENCE_MAX_STATIC_CLIENTS_INDEX) base) = HW_FENCE_MAX_STATIC_CLIENTS_INDEX.
Proof.
  unfold zlen, HW_FENCE_IPC_MAP_MAX, HW_FENCE_MAX_STATIC_CLIENTS_INDEX, HW_FENCE_CLIENT_ID_IPE,
    HW_FENCE_MAX_CLIENT_TYPE_CONFIGURABLE. rewrite length_take. lia.
Qed.

Lemma zget_built base types id n :
  counts_ok types -> zlen types = HW_FENCE_MAX_CLIENT_TYPE -> zlen base = HW_FENCE_IPC_MAP_MAX ->
  configured types id -> hw_fence_utils_get_client_id_priv types id = Some n ->
  zget (built_table base types) n = Some (client_row base id).
Proof.
  intros Hc Hlen Hb Hid Hn. pose proof (zlen_static _ Hb) as Hs. unfold built_table, client_row, base_index.
  destruct Hid as [Hi|(Hi & desc & E & Ho)].
  - rewrite static_number in Hn by done. injection Hn as <-.
    destruct (Z.ltb_spec id HW_FENCE_MAX_STATIC_CLIENTS_INDEX); [|lia].
    rewrite zget_app_l by lia. unfold base_row.
    destruct (zget_is_Some base id) as [row Er].
    { unfold HW_FENCE_IPC_MAP_MAX in Hb. unfold HW_FENCE_MAX_CLIENT_TYPE_CONFIGURABLE in Hb. lia. }
    rewrite Er. simpl. revert Er. unfold zget. destruct (Z.leb_spec 0 id); [|lia].
    rewrite lookup_take_lt by lia. done.
  - destruct (Z.ltb_spec id HW_FENCE_MAX_STATIC_CLIENTS_INDEX); [lia|].
    destruct (ext_parts id Hi) as (_ & Hob & Ht). erewrite client_number in Hn by done. injection Hn as <-.
    pose proof (sum_clients_bound (take (Z.to_nat (ext_type id)) (drop 3 types)) ltac:(auto with layout)).
    set (st := take (Z.to_nat HW_FENCE_MAX_STATIC_CLIENTS_INDEX) base) in *.
    rewrite <- Hs, <- Z.add_assoc, zget_app_r, Z.add_comm by lia.
    unfold zget in E. destruct (Z.leb_spec 0 (ext_type id)); [|lia].
    erewrite zget_type_rows; [| |done|lia]; [|auto with layout]. do 3 f_equal. lia.
Qed.

Lemma init_map_run base d :
  zlen base = HW_FENCE_IPC_MAP_MAX -> counts_ok (ml_client_types (dd_layout d)) ->
  zlen (ml_client_types (dd_layout d)) = HW_FENCE_MAX_CLIENT_TYPE ->
  dd_clients_num d = HW_FENCE_MAX_STATIC_CLIENTS_INDEX + sum_clients (drop 3 (ml_client_types (dd_layout d))) ->
  env_alloc_fails (dd_env d) (dd_tick d) = false ->
  _hw_fence_ipcc_init_map_with_configurable_clients base d
  = Done 0 (with_table (built_table base (ml_client_types (dd_layout d))) (ticked d)).
Proof.
  intros Hb Hc Hlen Hn Ha. set (types := ml_client_types (dd_layout d)) in *.
  pose proof (counts_ok_drop 3 _ Hc) as Hd. pose proof (sum_clients_bound _ Hd) as Hsum.
  unfold _hw_fence_ipcc_init_map_with_configurable_clients.
  rewrite (bind_run _ _ _ (Some (env_new_addr (dd_env d) (dd_tick d))) (ticked d)).
  2: { unfold kzalloc, tick. cbv [bind get put ret]. by rewrite Ha. }
  rewrite (bind_run get _ (ticked d) (ticked d) (ticked d)) by done. cbv beta iota.
  change (dd_clients_num (ticked d)) with (dd_clients_num d).
  destruct (Z.ltb_spec (dd_clients_num d) HW_FENCE_MAX_STATIC_CLIENTS_INDEX); [lia|].
  set (pre := take (Z.to_nat HW_FENCE_MAX_STATIC_CLIENTS_INDEX) base).
  set (rest := replicate (Z.to_nat (dd_clients_num d - HW_FENCE_MAX_STATIC_CLIENTS_INDEX)) zero_row).
  assert (zlen pre = HW_FENCE_MAX_STATIC_CLIENTS_INDEX) as Hpre by by apply zlen_static.
  assert (zlen rest = sum_clients (drop 3 types)) as Hrest.
  { unfold zlen, rest. rewrite length_replicate. lia. }
  rewrite (bind_run _ _ _ tt (with_table (pre ++ rest) (ticked d))) by done. rewrite <- Hpre.
  assert (zlen (drop 3 types) = HW_FENCE_MAX_CLIENT_TYPE_CONFIGURABLE) as Hl3.
  { unfold zlen in Hlen |- *. rewrite length_drop.
    unfold HW_FENCE_MAX_CLIENT_TYPE, HW_FENCE_MAX_CLIENT_TYPE_STATIC, HW_FENCE_MAX_CLIENT_TYPE_CONFIGURABLE in *. lia. }
  replace (Z.to_nat HW_FENCE_MAX_CLIENT_TYPE_CONFIGURABLE) with (length (drop 3 types)) by (unfold zlen in Hl3; lia).
  erewrite bind_run.
  2: { apply (map_types_run (drop 3 types) base (with_table (pre ++ rest) (ticked d)) pre rest 0); try done.
       simpl. rewrite Hn, zlen_app. lia. }
  done.
Qed.

(** C31: Building the table for a hardware revision.  The signal table of the targets
    with configurable clients has, at the internal number of every configured
    client, the row of its type with the client's own signal; and no two configured
    clients share both their identity at the interrupt controller and their
    signal. *)
Theorem ipc_table_routes hwrev base d types :
  base_of hwrev = Some base -> ml_client_types (dd_layout d) = types -> counts_ok types ->
  zlen types = HW_FENCE_MAX_CLIENT_TYPE ->
  dd_clients_num d = HW_FENCE_MAX_STATIC_CLIENTS_INDEX + sum_clients (drop 3 types) ->
  env_alloc_fails (dd_env d) (dd_tick d) = false ->
  exists d', _hw_fence_ipcc_hwrev_init hwrev d = Done 0 d' /\
    (forall id n, configured types id -> hw_fence_utils_get_client_id_priv types id = Some n ->
       zget (dd_ipc_clients_table d') n = Some (client_row base id)) /\
    (forall id1 id2, configured types id1 -> configured types id2 ->
       0 < im_ipc_client_id_virt (client_row base id1) ->
       im_ipc_client_id_virt (client_row base id1) = im_ipc_client_id_virt (client_row base id2) ->
       im_ipc_signal_id (client_row base id1) = im_ipc_signal_id (client_row base id2) -> id1 = id2).
Proof.
  intros Hbase Ht Hc Hlen Hn Ha. destruct (base_of_apart _ _ Hbase) as [Hap Hb].
  assert (exists d1, _hw_fence_ipcc_hwrev_init hwrev d = Done 0 (with_table (built_table base types) d1)) as [d1 Hrun].
  { subst types. unfold _hw_fence_ipcc_hwrev_init. rewrite (bind_run get _ d d d) by done.
    unfold base_of in Hbase. destruct (Z.eqb_spec hwrev HW_FENCE_IPCC_HW_REV_170); [subst; done|].
    repeat case_match; try done; injection Hbase as <-;
      (erewrite bind_run by done; eexists; by rewrite init_map_run). }
  eexists. split; [done|]. split.
  - intros id n Hid Hp. by apply zget_built.
  - intros id1 id2. by apply client_row_inj with (types := types).
Qed.

(** On the first hardware revision the table is not sized for the configured
    clients.  The revision keeps the built-in table, so an internal client number
    finds the row of that number whatever its type: with two configured clients of
    the type [ipe] the second one gets the identity of the type [vpu], and a client
    number past the table is read out of its bounds. *)
Theorem kalama_table_unsized d types desc :
  counts_ok types -> zlen types = HW_FENCE_MAX_CLIENT_TYPE -> zget (drop 3 types) 0 = Some desc ->
  1 < ct_clients_num desc -> 16 < dd_clients_num d < 2 ^ 32 ->
  exists d', _hw_fence_ipcc_hwrev_init HW_FENCE_IPCC_HW_REV_170 d = Done 0 d' /\
    hw_fence_utils_get_client_id_priv types (HW_FENCE_CLIENT_ID_IPE + 1) = Some 16 /\
    hw_fence_ipcc_get_client_virt_id 16 d' = Done HW_FENCE_IPC_CLIENT_ID_VPU_VID d' /\
    (forall n, HW_FENCE_IPC_MAP_MAX <= n < dd_clients_num d ->
       hw_fence_ipcc_get_client_virt_id n d' = Faulted BadAccess).
Proof.
  intros Hc Hlen E Hd Hn.
  assert (exists d', _hw_fence_ipcc_hwrev_init HW_FENCE_IPCC_HW_REV_170 d = Done 0 d' /\
    dd_clients_num d' = dd_clients_num d /\ dd_ipc_clients_table d' = hw_fence_clients_ipc_map)
    as (d' & Hr & Hn' & Ht) by (eexists; split; [reflexivity|done]).
  exists d'. split; [done|]. split; [by rewrite (client_number _ _ desc)|].
  unfold hw_fence_ipcc_get_client_virt_id, ipc_field, bind, get. rewrite Hn', Ht. split.
  - destruct (Z.leb_spec (dd_clients_num d) (u32 16)) as [H|]; [|done]. change (u32 16) with 16 in H. lia.
  - intros n H. unfold HW_FENCE_IPC_MAP_MAX in H.
    change (HW_FENCE_MAX_STATIC_CLIENTS_INDEX + HW_FENCE_MAX_CLIENT_TYPE_CONFIGURABLE) with 30 in H.
    rewrite u32_id by (unfold in_u32; lia). destruct (Z.leb_spec (dd_clients_num d) n); [lia|].
    destruct (zget hw_fence_clients_ipc_map n) eqn:Er; [|done].
    apply zget_Some in Er. change (zlen hw_fence_clients_ipc_map) with 30 in Er. lia.
Qed.

(** ** Enabling the signals of a client *)

Definition with_events (l : list event) (d : driver_data) : driver_data := d <| dd_events ::= fun e => e ++ l |>.

(** The word that enables the signal [signal_id] of the sender [vid]. *)
Definition enable_word (vid signal_id : Z) : Z := u32 (Z.lor (Z.shiftl vid 16) (Z.land signal_id 65535)).

Definition row_enables (d : driver_data) (row : client_ipc_map) : list event :=
  let reg := IPC_PROTOCOLp_CLIENTc_RECV_SIGNAL_ENABLE (dd_protocol_id d) (im_ipc_client_id_phys row) in
  (if dd_has_soccp d || negb (im_ipc_client_id_virt row =? dd_ipcc_client_vid d)
   then [EvWritel reg (enable_word (dd_ipcc_client_vid d) (im_ipc_signal_id row))] else []) ++
  (if dd_ipcc_client_vid d =? dd_ipcc_fctl_vid d then []
   else [EvWritel reg (enable_word (dd_ipcc_fctl_vid d) (im_ipc_signal_id row))]).

(** The rows up to the first one with another identity. *)
Fixpoint same_identity (vid : Z) (rows : list client_ipc_map) : list client_ipc_map :=
  match rows with
  | row :: rows => if im_ipc_client_id_virt row =? vid then row :: same_identity vid rows else []
  | [] => []
  end.

Lemma with_events_nil d : with_events [] d = d.
Proof. unfold with_events. destruct d. simpl. by rewrite app_nil_r. Qed.

Lemma with_events_app l1 l2 d : with_events l2 (with_events l1 d) = with_events (l1 ++ l2) d.
Proof. unfold with_events. simpl. by rewrite app_assoc. Qed.

Lemma enable_pair_run d pid vid sig :
  dd_protocol_id d <> 0 ->
  _enable_client_signal_pair pid vid sig d
  = Done 0 (with_events [EvWritel (IPC_PROTOCOLp_CLIENTc_RECV_SIGNAL_ENABLE (dd_protocol_id d) pid)
                           (enable_word vid sig)] d).
Proof.
  intros H. unfold _enable_client_signal_pair. rewrite (bind_run get _ d d d) by done.
  by destruct (Z.eqb_spec (dd_protocol_id d) 0).
Qed.

Lemma enable_row_run d vid row :
  dd_protocol_id d <> 0 -> im_ipc_client_id_virt row = vid ->
  enable_row d vid row d = Done tt (with_events (row_enables d row) d).
Proof.
  intros Hp <-. unfold enable_row, row_enables.
  destruct (dd_has_soccp d || _).
  - erewrite bind_run by (erewrite bind_run by (by apply enable_pair_run); reflexivity).
    destruct (Z.eqb_spec (dd_ipcc_client_vid d) (dd_ipcc_fctl_vid d)); cbn [negb]; [done|].
    erewrite bind_run by (by apply enable_pair_run).
    by rewrite with_events_app.
  - rewrite (bind_run _ _ d tt d) by done.
    destruct (Z.eqb_spec (dd_ipcc_client_vid d) (dd_ipcc_fctl_vid d)); cbn [negb].
    + by rewrite with_events_nil.
    + by erewrite bind_run by (by apply enable_pair_run).
Qed.

Lemma enable_from_run n i vid d :
  dd_protocol_id d <> 0 -> 0 <= i -> i + Z.of_nat n <= zlen (dd_ipc_clients_table d) ->
  enable_from n i vid d
  = Done tt (with_events (same_identity vid (take n (drop (Z.to_nat i) (dd_ipc_clients_table d)))
                          ≫= row_enables d) d).
Proof.
  intros Hp. revert i d Hp. induction n as [|n IH]; intros i d Hp Hi Hl; cbn [enable_from].
  - rewrite take_0. simpl. by rewrite with_events_nil.
  - rewrite (bind_run get _ d d d) by done.
    destruct (zget_is_Some (dd_ipc_clients_table d) i) as [row E]; [lia|].
    rewrite (bind_run _ _ _ row d) by (by rewrite E).
    unfold zget in E. destruct (Z.leb_spec 0 i); [|lia]. rewrite (drop_S _ _ _ E). cbn [take same_identity].
    destruct (Z.eqb_spec (im_ipc_client_id_virt row) vid) as [Hv|]; cbn [negb].
    2: { simpl. by rewrite with_events_nil. }
    erewrite bind_run by by apply enable_row_run.
    rewrite IH; [|done|lia|simpl; lia]. rewrite with_events_app. cbn [mbind list_bind].
    change (dd_ipc_clients_table (with_events _ d)) with (dd_ipc_clients_table d).
    by replace (Z.to_nat (i + 1)) with (S (Z.to_nat i)) by lia.
Qed.

(** Enabling the signals of a client writes the enable register of exactly the
    clients that follow it with the same identity at the interrupt controller: one
    write for signals from the driver, unless the client is the driver's own
    processor without a separate controller, and one for signals from the fence
    controller when that has an identity of its own. *)
Theorem enable_signal_pairs_spec d start row :
  dd_protocol_id d <> 0 -> 0 <= start < dd_clients_num d -> dd_clients_num d < 2 ^ 32 ->
  dd_clients_num d <= zlen (dd_ipc_clients_table d) -> zget (dd_ipc_clients_table d) start = Some row ->
  hw_fence_ipcc_enable_client_signal_pairs start d
  = Done 0 (with_events (same_identity (im_ipc_client_id_virt row)
        (take (Z.to_nat (dd_clients_num d - start)) (drop (Z.to_nat start) (dd_ipc_clients_table d)))
      ≫= row_enables d) d).
Proof.
  intros Hp Hs Hn Hl E. unfold hw_fence_ipcc_enable_client_signal_pairs, no_ipc_client.
  rewrite (bind_run get _ d d d) by done. rewrite u32_id by (unfold in_u32; lia).
  destruct (Z.eqb_spec (dd_protocol_id d) 0); [done|].
  destruct (Z.eqb_spec (zlen (dd_ipc_clients_table d)) 0); [lia|].
  destruct (Z.leb_spec (dd_clients_num d) start); [lia|]. cbn [orb].
  rewrite (bind_run _ _ _ row d) by (by rewrite E).
  by erewrite bind_run by (apply enable_from_run; [done|lia|lia]).
Qed.

(** ** The mask of signaled clients *)

(** The [k]-th word the driver would read, its sender and its signal. *)
Definition recv_word (d : driver_data) (k : nat) : Z := u32 (env_recv_id (dd_env d) (dd_tick d + k)).
Definition sender (w : Z) : Z := Z.land (Z.shiftr w 16) 65535.
Definition signal_of (w : Z) : Z := Z.land w 65535.
Definition valid_sender (d : driver_data) (w : Z) : bool :=
  negb (_is_invalid_signaling_client d (sender w)).

(** The signals of the validation clients are [s0] to [s6]. *)
Definition val_signals (d : driver_data) (s0 s6 : Z) : Prop :=
  HW_FENCE_CLIENT_ID_VAL6 < dd_clients_num d /\ in_u32 s0 /\ in_u32 s6 /\
  (exists row, zget (dd_ipc_clients_table d) HW_FENCE_CLIENT_ID_VAL0 = Some row /\ im_ipc_signal_id row = s0) /\
  (exists row, zget (dd_ipc_clients_table d) HW_FENCE_CLIENT_ID_VAL6 = Some row /\ im_ipc_signal_id row = s6).

(** The bit of a signal. *)
Definition client_bit (s0 s6 signal : Z) : Z :=
  if (s0 <=? signal) && (signal <=? s6) then signal - s0 + HW_FENCE_CLIENT_ID_VAL0 else signal.

Definition ticks (n : nat) (d : driver_data) : driver_data := d <| dd_tick ::= Nat.add n |>.

Lemma recv_word_ticked d k : recv_word (ticked d) k = recv_word d (S k).
Proof. unfold recv_word, ticked. simpl. do 2 f_equal. lia. Qed.

Lemma ipc_field_run {A} (p : client_ipc_map -> A) bad id row d :
  zget (dd_ipc_clients_table d) id = Some row -> 0 <= id < dd_clients_num d -> in_u32 id ->
  ipc_field p bad id d = Done (p row) d.
Proof.
  intros E H Hu. unfold ipc_field. rewrite (bind_run get _ d d d) by done. rewrite u32_id by done.
  destruct (Z.leb_spec (dd_clients_num d) id); [lia|]. by rewrite E.
Qed.

Lemma signal_bit_run d s0 s6 signal :
  val_signals d s0 s6 -> 0 <= signal < 65536 -> signal_bit signal d = Done (client_bit s0 s6 signal) d.
Proof.
  intros (Hn & H0 & H6 & (r0 & E0 & <-) & (r6 & E6 & <-)) Hs. unfold signal_bit, client_bit, hw_fence_ipcc_get_signal_id.
  assert (forall m : Z -> DRV Z, bind (ipc_field im_ipc_signal_id (- EINVAL) HW_FENCE_CLIENT_ID_VAL0) m d
    = m (im_ipc_signal_id r0) d) as R0.
  { intros m. apply bind_run. apply ipc_field_run; [done| |done].
    unfold HW_FENCE_CLIENT_ID_VAL0, HW_FENCE_CLIENT_ID_VAL6 in *. lia. }
  rewrite R0, u32_id by done. destruct (Z.leb_spec (im_ipc_signal_id r0) signal); [|done]. cbn [andb].
  rewrite (bind_run _ _ _ (im_ipc_signal_id r6) d).
  2: { apply ipc_field_run; [done| |done]. unfold HW_FENCE_CLIENT_ID_VAL6 in *. lia. }
  rewrite u32_id by done. destruct (Z.leb_spec signal (im_ipc_signal_id r6)); [|done].
  rewrite R0. unfold ret. f_equal. unfold in_u32 in *. rewrite u32_id; [done|]. unfold in_u32, HW_FENCE_CLIENT_ID_VAL0. lia.
Qed.

Lemma signal_of_range w : 0 <= signal_of w < 65536.
Proof. unfold signal_of. change 65535 with (Z.ones 16). rewrite Z.land_ones by lia. apply Z.mod_pos_bound. lia. Qed.

Lemma client_bit_nonneg s0 s6 signal : 0 <= signal -> 0 <= client_bit s0 s6 signal.
Proof. intros H. unfold client_bit, HW_FENCE_CLIENT_ID_VAL0. destruct (Z.leb_spec s0 signal); case_match; simpl in *; lia. Qed.

(** Where the loop stops reading: at the first empty word, or after [n] words. *)
Definition stops_at (d : driver_data) (n k0 : nat) : Prop :=
  (forall k, (k < k0)%nat -> recv_word d k <> HW_FENCE_IPC_RECV_ID_NONE) /\
  (k0 = n \/ (k0 < n)%nat /\ recv_word d k0 = HW_FENCE_IPC_RECV_ID_NONE).

Lemma stops_at_S d n k0 :
  stops_at d (S n) (S k0) -> recv_word d 0 <> HW_FENCE_IPC_RECV_ID_NONE /\ stops_at (ticked d) n k0.
Proof.
  intros [H1 H2]. split; [apply H1; lia|]. split.
  - intros k Hk. rewrite recv_word_ticked. apply H1. lia.
  - rewrite recv_word_ticked. destruct H2 as [?|[? ?]]; [left; lia|right; split; [lia|done]].
Qed.

Lemma read_signals_run n k0 d mask s0 s6 :
  val_signals d s0 s6 -> stops_at d n k0 ->
  (forall k, (k < k0)%nat -> valid_sender d (recv_word d k) = true ->
     client_bit s0 s6 (signal_of (recv_word d k)) < 64) ->
  exists m, read_signals n mask d = Done m (ticks (Nat.min (S k0) n) d) /\
    forall b, 0 <= b -> (Z.testbit m b = true <-> Z.testbit mask b = true \/
      exists k, (k < k0)%nat /\ valid_sender d (recv_word d k) = true /\
        client_bit s0 s6 (signal_of (recv_word d k)) = b).
Proof.
  revert k0 d mask. induction n as [|n IH]; intros k0 d mask Hv Hst Hb.
  - exists mask. assert (k0 = 0)%nat as -> by (destruct Hst as [_ [?|[? _]]]; lia).
    split; [|intros b _; split; [by left|intros [?|(k & ? & _)]; [done|lia]]].
    unfold ticks. by destruct d.
  - cbn [read_signals]. rewrite (bind_run read_recv_id _ d (recv_word d 0) (ticked d)).
    2: { unfold read_recv_id, recv_word, bind, get, tick, put, ret. by rewrite Nat.add_0_r. }
    destruct k0 as [|k0].
    { destruct Hst as [_ [?|[_ E]]]; [lia|]. rewrite E, Z.eqb_refl. exists mask. split; [done|].
      intros b _. split; [by left|intros [?|(k & ? & _)]; [done|lia]]. }
    destruct (stops_at_S _ _ _ Hst) as [Hne Hst']. apply Z.eqb_neq in Hne. rewrite Hne.
    rewrite (bind_run get _ (ticked d) (ticked d) (ticked d)) by done.
    fold (sender (recv_word d 0)) (signal_of (recv_word d 0)).
    change (_is_invalid_signaling_client (ticked d)) with (_is_invalid_signaling_client d).
    assert (forall k, recv_word (ticked d) k = recv_word d (S k)) as Hw by (intros; apply recv_word_ticked).
    assert (forall mask', exists m, read_signals n mask' (ticked d)
        = Done m (ticks (Nat.min (S (S k0)) (S n)) d) /\
      forall b, 0 <= b -> (Z.testbit m b = true <-> Z.testbit mask' b = true \/
        exists k, (k < k0)%nat /\ valid_sender d (recv_word d (S k)) = true /\
          client_bit s0 s6 (signal_of (recv_word d (S k))) = b)) as Hrest.
    { intros mask'. destruct (IH k0 (ticked d) mask') as (m & Hr & Hm); [done|done| |].
      - intros k Hk. rewrite Hw. apply Hb. lia.
      - exists m. split.
        + rewrite Hr. f_equal. unfold ticks, ticked. simpl. by rewrite <- Nat.add_succ_comm.
        + intros b Hb0. rewrite (Hm b Hb0). by setoid_rewrite Hw. }
    destruct (_is_invalid_signaling_client d (sender (recv_word d 0))) eqn:Hinv.
    + destruct (Hrest mask) as (m & Hr & Hm). exists m. split; [done|]. intros b Hb0. rewrite (Hm b Hb0).
      split; (intros [?|(k & Hk & Hk')]; [by left|right]).
      * exists (S k). split; [lia|done].
      * destruct k as [|k]; [|exists k; split; [lia|done]]. destruct Hk' as [Hk' _]. unfold valid_sender in Hk'. by rewrite Hinv in Hk'.
    + pose proof (signal_of_range (recv_word d 0)) as Hsr.
      rewrite (bind_run _ _ _ (client_bit s0 s6 (signal_of (recv_word d 0))) (ticked d)) by by apply signal_bit_run.
      set (c := client_bit s0 s6 (signal_of (recv_word d 0))).
      assert (0 <= c < 64) as Hc.
      { split; [apply client_bit_nonneg; lia|]. apply Hb; [lia|]. unfold valid_sender. by rewrite Hinv. }
      rewrite (bind_run _ _ _ (BIT c) (ticked d)).
      2: { unfold checked_BIT. by destruct (Z.ltb_spec c 64); [|lia]. }
      destruct (Hrest (Z.lor mask (BIT c))) as (m & Hr & Hm). exists m. split; [done|]. intros b Hb0.
      rewrite (Hm b Hb0), Z.lor_spec, testbit_BIT, orb_true_iff, bool_decide_eq_true by lia. split.
      * intros [[?|<-]|(k & Hk & Hk')]; [by left| |right; exists (S k); split; [lia|done]].
        right. exists 0%nat. split; [lia|]. split; [|done]. unfold valid_sender. by rewrite Hinv.
      * intros [?|(k & Hk & Hk1 & Hk2)]; [by left; left|]. destruct k as [|k]; [by left; right|].
        right. exists k. split; [lia|done].
Qed.

(** C32: The mask of signaled clients.  Reading the interrupt controller consumes its
    words up to the first empty one, at most a hundred, and returns exactly the bits
    of the clients that valid senders signaled; the signals of validation clients
    stand for their client numbers.  Words of other senders are dropped. *)
Theorem signaled_mask_bits d k0 s0 s6 :
  dd_protocol_id d <> 0 -> dd_ipcc_client_pid d <> 0 -> dd_ipcc_fctl_vid d <> 0 -> dd_has_soccp d = true ->
  val_signals d s0 s6 -> stops_at d 100 k0 ->
  (forall k, (k < k0)%nat -> valid_sender d (recv_word d k) = true ->
     client_bit s0 s6 (signal_of (recv_word d k)) < 64) ->
  exists m, hw_fence_ipcc_get_signaled_clients_mask d
            = Done m (ticks (Nat.min (S k0) 100) d) /\
    forall b, 0 <= b -> (Z.testbit m b = true <->
      exists k, (k < k0)%nat /\ valid_sender d (recv_word d k) = true /\
        client_bit s0 s6 (signal_of (recv_word d k)) = b).
Proof.
  intros H1 H2 H3 H4 Hv Hst Hb.
  destruct (read_signals_run 100 k0 d 0 s0 s6 Hv Hst Hb) as (m & Hr & Hm). exists m. split.
  - unfold hw_fence_ipcc_get_signaled_clients_mask. rewrite (bind_run get _ d d d) by done.
    apply Z.eqb_neq in H1, H2, H3. by rewrite H1, H2, H3, H4.
  - intros b Hb0. rewrite (Hm b Hb0). rewrite Z.testbit_0_l. split; [intros [?|?]; done|by right].
Qed.

(** * Witnesses *)

(** Two clients of type [ipe] and one of type [ife0] beside the static ones. *)
Definition ipc_types : list client_type_desc :=
  <[3%nat := client_type HW_FENCE_CLIENT_ID_IPE 32 2 2 false]>
    (<[6%nat := client_type HW_FENCE_CLIENT_ID_IFE0 32 1 1 true]> hw_fence_client_types).

Definition ipc8 : driver_data :=
  (blank_driver 8) <| dd_layout ::= fun l => l <| ml_client_types := ipc_types |> |>
                   <| dd_clients_num := 18 |>.

Lemma ipc_types_ok : counts_ok ipc_types.
Proof. apply Forall_forall. intros x Hx. repeat (apply elem_of_cons in Hx as [->|Hx]; [vm_compute; split; congruence|]). by apply not_elem_of_nil in Hx. Qed.

Lemma ipc_table_routes_witness :
  base_of HW_FENCE_IPCC_HW_REV_2A2 = Some hw_fence_clients_ipc_map_sun /\
  exists d', _hw_fence_ipcc_hwrev_init HW_FENCE_IPCC_HW_REV_2A2 ipc8 = Done 0 d' /\
    zget (dd_ipc_clients_table d') 16
    = Some (client_row hw_fence_clients_ipc_map_sun (HW_FENCE_CLIENT_ID_IPE + 1)).
Proof.
  split; [done|].
  destruct (ipc_table_routes HW_FENCE_IPCC_HW_REV_2A2 hw_fence_clients_ipc_map_sun ipc8 ipc_types)
    as (d' & Hr & Hrow & _); [done|done|apply ipc_types_ok|done|done|done|].
  exists d'. split; [done|]. apply Hrow; [|done]. right. split; [done|].
  eexists. split; [reflexivity|by vm_compute].
Defined.

Lemma kalama_witness :
  exists d', _hw_fence_ipcc_hwrev_init HW_FENCE_IPCC_HW_REV_170 ipc8 = Done 0 d' /\
    hw_fence_ipcc_get_client_virt_id 16 d' = Done HW_FENCE_IPC_CLIENT_ID_VPU_VID d'.
Proof.
  destruct (kalama_table_unsized ipc8 ipc_types (client_type HW_FENCE_CLIENT_ID_IPE 32 2 2 false))
    as (d' & Hr & _ & Hv & _); [apply ipc_types_ok|done|done|done|by vm_compute; split|].
  by exists d'.
Defined.

(** The driver of [sun] with its table built; the controller signals the control
    queue and the third validation client, another processor something else. *)
Definition sun8 : driver_data :=
  with_table (built_table hw_fence_clients_ipc_map_sun ipc_types)
    (ipc8 <| dd_protocol_id := 4 |> <| dd_ipcc_client_vid := 8 |> <| dd_ipcc_client_pid := 3 |>
          <| dd_ipcc_fctl_vid := 46 |> <| dd_ipcc_fctl_pid := 22 |>
          <| dd_env ::= fun e => e <| env_recv_id := fun n =>
               nth n [46 * 65536; 46 * 65536 + 23; 9 * 65536 + 1] (2 ^ 32 - 1) |> |>).

Lemma signal_pairs_witness :
  hw_fence_ipcc_enable_client_signal_pairs 15 sun8
  = Done 0 (with_events [EvWritel (20 + 262144 * 4 + 4096 * 9) (8 * 65536);
                         EvWritel (20 + 262144 * 4 + 4096 * 9) (46 * 65536);
                         EvWritel (20 + 262144 * 4 + 4096 * 9) (8 * 65536 + 1);
                         EvWritel (20 + 262144 * 4 + 4096 * 9) (46 * 65536 + 1)] sun8).
Proof.
  rewrite (enable_signal_pairs_spec sun8 15 (client_row hw_fence_clients_ipc_map_sun HW_FENCE_CLIENT_ID_IPE));
    [|done|by vm_compute; split|done|by vm_compute|done].
  f_equal.
Defined.

Lemma signaled_mask_witness :
  exists m, hw_fence_ipcc_get_signaled_clients_mask sun8 = Done m (ticks 4 sun8) /\
    Z.testbit m 0 = true /\ Z.testbit m (HW_FENCE_CLIENT_ID_VAL0 + 2) = true /\ Z.testbit m 1 = false.
Proof.
  destruct (signaled_mask_bits sun8 3 21 27) as (m & Hr & Hm); [done|done|done|done| | | |].
  - split; [done|]. split; [by vm_compute; split|]. split; [by vm_compute; split|].
    split; (eexists; split; reflexivity).
  - split; [|right; split; [lia|done]]. intros k Hk. destruct k as [|[|[|k]]]; [done|done|done|lia].
  - intros k Hk _. destruct k as [|[|[|k]]]; [done|done|done|lia].
  - exists m. split; [done|]. split; [|split].
    + apply Hm; [done|]. exists 0%nat. split; [lia|done].
    + apply Hm; [done|]. exists 1%nat. split; [lia|done].
    + apply not_true_is_false. rewrite Hm by done.
      intros (k & Hk & Hv & Hb). destruct k as [|[|[|k]]]; [done|done|done|lia].
Defined.
