(* ===== verification/HwFenceSoccp.v ===== *)
(** * The fence controller: its messages, its power and its restarts

    [src/hw_fence_drv_utils.c]: the messages the fence controller sends through the
    control queue, the dispatch of the clients that signaled, the votes that keep the
    controller awake, the message that boots it and the notifications of its
    restarts.

    Assumed: a kernel of version 6.1.25 or later, so that votes are supported.  The
    mutex of the votes is free whenever it is taken, because it is released on
    every path.  [rproc_set_state] and [rproc_get_by_phandle] of the kernel answer from
    the environment.

    The theorems: votes refine a counter, and the controller is awake exactly while
    it is not zero; the control queue is drained first in, first out, each message
    handled as its type asks; a client that signaled is served once; over a restart
    the controller is marked down, every fence is settled, and the message that
    follows the next power-up brings it back. *)
From S2P Require Import Prelude HwFenceTypes HwFenceQueue HwFenceTable HwFenceRef.
From S2P Require Import HwFenceClient HwFenceSignal HwFenceCallback HwFenceLayout HwFenceIpc.
From stdpp Require Import gmap.
From Stdlib Require Import Lia.
#[local] Open Scope Z_scope.

Definition HW_FENCE_CLIENT_ID_CTRL_QUEUE : Z := 0.
Definition HW_FENCE_SIGNALED_CLIENTS_LAST : Z := HW_FENCE_CLIENT_ID_VAL6.
Definition HW_FENCE_MAX_ITER_READ : Z := 100.

(** ** Messages from the controller *)

Definition _process_fence_error_payload (payload : queue_payload) : DRV Z :=
  d <-- get;
  if negb (pl_type payload =? HW_FENCE_PAYLOAD_TYPE_2) then ret (- EINVAL)
  else if (pl_client_data payload <? HW_FENCE_CLIENT_ID_CTX0) ||
          (dd_clients_num d <=? pl_client_data payload) then ret (- EINVAL)
  else
    let client_id := u32 (pl_client_data payload) in
    o <-- get_client_opt client_id;
    match o with
    | None => ret (- EINVAL)
    | Some _ =>
        hw_fence_utils_fence_error_cb client_id (pl_ctxt_id payload) (pl_seqno payload)
          (pl_hash payload) (pl_flags payload) (pl_error payload)
    end.

Definition _process_init_soccp_payload (payload : queue_payload) : DRV Z :=
  d <-- get;
  if negb (dd_has_soccp d) ||
     negb ((pl_type payload =? HW_FENCE_PAYLOAD_TYPE_3) || (pl_type payload =? HW_FENCE_PAYLOAD_TYPE_4))
  then ret (- EINVAL)
  else if (pl_type payload =? HW_FENCE_PAYLOAD_TYPE_4) && (dd_ssr_cnt d =? 0) then ret (- EINVAL)
  else
    put (d <| dd_fctl_ready := true |>);;;
    log_event EvWakeSsrWaiters;;;
    ret 0.

Definition process_ctrl_payload (payload : queue_payload) : DRV Z :=
  if pl_type payload =? HW_FENCE_PAYLOAD_TYPE_2 then _process_fence_error_payload payload
  else if (pl_type payload =? HW_FENCE_PAYLOAD_TYPE_3) || (pl_type payload =? HW_FENCE_PAYLOAD_TYPE_4)
  then _process_init_soccp_payload payload
  else ret (- EINVAL).

(** The loop with [n] turns left; [r] is the result of the last message. *)
Fixpoint ctrl_rx_loop (n : nat) (r : Z) : DRV Z :=
  match n with
  | O => ret r
  | S n =>
      d <-- get;
      out <-- on_queue (CtrlQueue (HW_FENCE_RX_QUEUE - 1)) (hw_fence_read_queue_helper (dd_has_soccp d));
      let '(read, payload) := out in
      if read <? 0 then ret 0
      else
        payload <-- deref payload;
        r <-- process_ctrl_payload payload;
        if read =? 0 then ret r else ctrl_rx_loop n r
  end.

Definition _process_ctrl_rx_queue : DRV Z := ctrl_rx_loop (Z.to_nat HW_FENCE_MAX_ITER_READ) 0.

(** ** Clients that signaled *)

Definition _process_signaled_client_id (client_id : Z) : DRV Z :=
  if client_id =? HW_FENCE_CLIENT_ID_CTRL_QUEUE then _process_ctrl_rx_queue
  else if is_val_client client_id then process_validation_client_loopback client_id
  else ret (- EINVAL).

(** From [id] on, [n] ids left: a served bit is cleared, and nothing is left to do
    when the mask is empty. *)
Fixpoint process_mask_from (n : nat) (id mask : Z) : DRV unit :=
  match n with
  | O => ret tt
  | S n =>
      if flag mask (Z.shiftl 1 id) then
        _process_signaled_client_id id;;;
        let mask := clear mask (Z.shiftl 1 id) in
        if mask =? 0 then ret tt else process_mask_from n (id + 1) mask
      else process_mask_from n (id + 1) mask
  end.

Definition hw_fence_utils_process_signaled_clients_mask (signaled_clients_mask : Z) : DRV unit :=
  process_mask_from (Z.to_nat (HW_FENCE_SIGNALED_CLIENTS_LAST + 1)) HW_FENCE_CLIENT_ID_CTRL_QUEUE
    signaled_clients_mask.

(** The doorbell callback; the arguments are what the doorbell driver answers. *)
Definition _hw_fence_cb (dbl_ret clear_flags : Z) : DRV unit :=
  if negb (dbl_ret =? 0) then ret tt else hw_fence_utils_process_signaled_clients_mask clear_flags.

(** The interrupt handler leaves the mask to the listener thread. *)
Definition hw_fence_soccp_irq_handler : DRV unit :=
  mask <-- hw_fence_ipcc_get_signaled_clients_mask;
  modifyM (fun d => d <| dd_signaled_clients_mask ::= fun m => Z.lor m (u32 mask) |>);;;
  log_event EvWakeListener.

(** One turn of [hw_fence_soccp_listener]; the thread sleeps while the mask is
    empty. *)
Definition hw_fence_soccp_listener_turn : DRV unit :=
  d <-- get;
  let mask := dd_signaled_clients_mask d in
  if negb (dd_has_soccp d) || (mask =? 0) then ret tt
  else
    put (d <| dd_signaled_clients_mask := 0 |>);;;
    hw_fence_utils_process_signaled_clients_mask mask.

(** ** Power votes *)

(** An answer of the remoteproc framework. *)
Definition rproc_answer : DRV Z :=
  d <-- get;
  n <-- tick;
  ret (env_rproc_ret (dd_env d) n).

Definition _set_intended_soccp_state : DRV Z :=
  d <-- get;
  let intended_state := 1 <? dd_usage_cnt d in
  if Bool.eqb intended_state (dd_is_awake d) then ret 0
  else if negb (dd_rproc d) then ret (- EINVAL)
  else
    log_event (EvRprocState intended_state);;;
    r <-- rproc_answer;
    when r =? 0 do modifyM (fun d => d <| dd_is_awake := intended_state |>);;;
    ret r.

(** The counter is a [refcount_t] below its saturation.  A failure of the vote itself
    is not reported. *)
Definition hw_fence_utils_set_power_vote (state : bool) : DRV Z :=
  d <-- get;
  if negb (dd_has_soccp d) then ret (- EINVAL)
  else if negb state && (dd_usage_cnt d =? 1) then ret (- EINVAL)
  else
    put (d <| dd_usage_cnt ::= fun n => if state then n + 1 else n - 1 |>);;;
    _set_intended_soccp_state;;;
    ret 0.

(** ** Booting the controller *)

(** [hw_fence_wait_event_timeout] on [fctl_ready]: the listener may have set it
    meanwhile. *)
Definition wait_fctl_ready : DRV unit :=
  d <-- get;
  n <-- tick;
  when env_fctl_answers (dd_env d) n do modifyM (fun d => d <| dd_fctl_ready := true |>).

Definition _send_bootup_ctrl_txq_msg (payload_type : Z) : DRV Z :=
  d <-- get;
  if dd_fctl_ready d then ret 0
  else
    r <-- hw_fence_utils_set_power_vote true;
    if negb (r =? 0) then ret (- EINVAL)
    else
      d <-- get;
      if negb (dd_is_awake d) then hw_fence_utils_set_power_vote false;;; ret (- EINVAL)
      else
        r <-- hw_fence_update_queue_helper 0 (CtrlQueue (HW_FENCE_TX_QUEUE - 1)) payload_type
                0 0 0 0 0 0 (HW_FENCE_TX_QUEUE - 1);
        if negb (r =? 0) then ret r
        else
          d <-- get;
          signal_id <-- hw_fence_ipcc_get_signal_id 0;
          hw_fence_ipcc_trigger_signal (dd_ipcc_client_pid d) (dd_ipcc_fctl_vid d) signal_id;;;
          wait_fctl_ready;;;
          r <-- hw_fence_utils_set_power_vote false;
          d <-- get;
          ret (if dd_fctl_ready d then r else - EINVAL).

(** ** Restarts *)

Definition _set_soccp_rproc : DRV Z :=
  d <-- get;
  if dd_rproc d then ret 0
  else
    r <-- rproc_answer;
    if 0 <? r then modifyM (fun d => d <| dd_rproc := true |>);;; ret 0
    else ret (if r =? 0 then - EINVAL else r).

(** The notifications of the subsystem-restart framework, and its answers. *)
Inductive ssr_action :=
| QCOM_SSR_BEFORE_POWERUP
| QCOM_SSR_AFTER_POWERUP
| QCOM_SSR_BEFORE_SHUTDOWN
| QCOM_SSR_AFTER_SHUTDOWN
| QCOM_SSR_OTHER.

Inductive notify_result := NOTIFY_OK | NOTIFY_BAD.

Definition hw_fence_notify_ssr (action : ssr_action) : DRV notify_result :=
  r <-- match action with
        | QCOM_SSR_BEFORE_POWERUP => ret 0
        | QCOM_SSR_AFTER_POWERUP =>
            _set_soccp_rproc;;;
            d <-- get;
            _send_bootup_ctrl_txq_msg
              (if dd_ssr_cnt d =? 0 then HW_FENCE_PAYLOAD_TYPE_3 else HW_FENCE_PAYLOAD_TYPE_4)
        | QCOM_SSR_BEFORE_SHUTDOWN =>
            modifyM (fun d => d <| dd_fctl_ready := false |> <| dd_ssr_cnt ::= fun n => u32 (n + 1) |>);;;
            ret 0
        | QCOM_SSR_AFTER_SHUTDOWN =>
            d <-- get;
            when dd_rproc d do log_event EvRprocPut;;;
            modifyM (fun d => d <| dd_rproc := false |> <| dd_is_awake := false |>);;;
            hw_fence_ssr_cleanup_table (dd_hw_fence_table_entries d) HW_FENCE_FCTL_LOCK_VALUE
        | QCOM_SSR_OTHER => ret 0
        end;
  ret (if r =? 0 then NOTIFY_OK else NOTIFY_BAD).

(** At probe; [notifier_fails]: the error of registering the notifier. *)
Definition hw_fence_utils_register_soccp_ssr_notifier (notifier_fails : option Z) : DRV Z :=
  d <-- get;
  if negb (dd_has_soccp d) then ret (- EINVAL)
  else
    put (d <| dd_usage_cnt := 1 |>);;;
    match notifier_fails with
    | Some err => ret err
    | None =>
        r <-- _set_soccp_rproc;
        if negb (r =? 0) then ret 0
        else _send_bootup_ctrl_txq_msg HW_FENCE_PAYLOAD_TYPE_3;;; ret 0
    end.

(** * Properties *)

(** ** Power votes *)

(** [n] votes are standing, and the controller is as they ask. *)
Definition votes_standing (n : Z) (d : driver_data) : Prop :=
  dd_usage_cnt d = n + 1 /\ dd_is_awake d = (0 <? n).

(** The remoteproc framework is there and obeys from now on. *)
Definition rproc_obeys (d : driver_data) : Prop :=
  dd_has_soccp d = true /\ dd_rproc d = true /\
  forall t, (dd_tick d <= t)%nat -> env_rproc_ret (dd_env d) t = 0.

(** The abstract counter: adding a vote, or taking one back that stands. *)
Definition vote (state : bool) (n : Z) : Z * Z :=
  if state then (0, n + 1) else if n =? 0 then (- EINVAL, 0) else (0, n - 1).

(** The requests it makes: only when the first vote comes or the last one goes. *)
Definition vote_requests (state : bool) (n : Z) : list event :=
  if state then if n =? 0 then [EvRprocState true] else []
  else if n =? 1 then [EvRprocState false] else [].

Fixpoint run_votes (bs : list bool) : DRV (list Z) :=
  match bs with
  | [] => ret []
  | b :: bs => r <-- hw_fence_utils_set_power_vote b; rs <-- run_votes bs; ret (r :: rs)
  end.

Fixpoint votes (bs : list bool) (n : Z) : list Z * Z * list event :=
  match bs with
  | [] => ([], n, [])
  | b :: bs =>
      let '(r, n') := vote b n in
      let '(rs, n'', ev) := votes bs n' in
      (r :: rs, n'', vote_requests b n ++ ev)
  end.

(** What votes change. *)
Definition voted (n : Z) (t : nat) (ev : list event) (d : driver_data) : driver_data :=
  d <| dd_usage_cnt := n + 1 |> <| dd_is_awake := 0 <? n |> <| dd_tick := t |>
    <| dd_events ::= fun l => l ++ ev |>.

Lemma voted_voted n1 t1 e1 n2 t2 e2 d :
  voted n2 t2 e2 (voted n1 t1 e1 d) = voted n2 t2 (e1 ++ e2) d.
Proof. unfold voted. simpl. by rewrite app_assoc. Qed.

Lemma voted_standing n t ev d : votes_standing n (voted n t ev d).
Proof. done. Qed.

Lemma voted_obeys n t ev d : rproc_obeys d -> (dd_tick d <= t)%nat -> rproc_obeys (voted n t ev d).
Proof.
  intros (H1 & H2 & H3) Ht. split; [done|]. split; [done|]. intros t' Ht'. apply H3. simpl in Ht'. lia.
Qed.

Lemma voted_id n d : votes_standing n d -> d = voted n (dd_tick d) [] d.
Proof. intros [H1 H2]. unfold voted. rewrite <- H1, <- H2. destruct d. simpl. by rewrite app_nil_r. Qed.

Lemma rproc_answer_run d : rproc_answer d = Done (env_rproc_ret (dd_env d) (dd_tick d)) (ticked d).
Proof. done. Qed.

(** Bringing the controller to the intended state. *)
Lemma set_intended_run n awake d :
  rproc_obeys d -> dd_usage_cnt d = n + 1 -> dd_is_awake d = awake ->
  exists t r, (dd_tick d <= t)%nat /\ _set_intended_soccp_state d
    = Done r (voted n t (if Bool.eqb (0 <? n) awake then [] else [EvRprocState (0 <? n)]) d).
Proof.
  intros (Hs & Hp & Ho) Hu Ha. unfold _set_intended_soccp_state. rewrite (bind_run get _ d d d) by done.
  rewrite Hu, Ha, Hp. assert ((1 <? n + 1) = (0 <? n)) as -> by lia.
  destruct (Bool.eqb (0 <? n) awake) eqn:E.
  - apply Bool.eqb_prop in E. exists (dd_tick d), 0. split; [done|]. unfold ret. f_equal. apply voted_id.
    split; [done|congruence].
  - exists (S (dd_tick d)), 0. split; [lia|]. cbn [negb].
    rewrite (bind_run _ _ _ tt (logged (EvRprocState (0 <? n)) d)) by done.
    rewrite (bind_run _ _ _ _ _ (rproc_answer_run _)).
    change (env_rproc_ret _ _) with (env_rproc_ret (dd_env d) (dd_tick d)). rewrite Ho by done.
    unfold ret. f_equal. unfold voted, logged, ticked. rewrite <- Hu. by destruct d.
Qed.

Lemma set_power_vote_run b n d :
  0 <= n -> rproc_obeys d -> votes_standing n d ->
  exists t, (dd_tick d <= t)%nat /\
    hw_fence_utils_set_power_vote b d = Done (vote b n).1 (voted (vote b n).2 t (vote_requests b n) d).
Proof.
  intros Hn Hr Hst. pose proof Hr as (Hs & _ & _). pose proof Hst as [Hu Ha].
  unfold hw_fence_utils_set_power_vote. rewrite (bind_run get _ d d d) by done. rewrite Hs, Hu. cbn [negb].
  unfold vote, vote_requests. destruct b; cbn [negb andb].
  - destruct (set_intended_run (n + 1) (0 <? n) (d <| dd_usage_cnt ::= fun n => n + 1 |>)) as (t & r & Ht & H);
      [done|simpl; lia|done|].
    exists t. split; [done|]. rewrite (bind_run _ _ _ tt (d <| dd_usage_cnt ::= fun n => n + 1 |>)) by done.
    rewrite (bind_run _ _ _ _ _ H). unfold ret. f_equal. unfold voted. simpl.
    destruct (Z.ltb_spec 0 (n + 1)); [|lia]. destruct (Z.ltb_spec 0 n), (Z.eqb_spec n 0); try lia; done.
  - assert ((n + 1 =? 1) = (n =? 0)) as -> by lia. destruct (Z.eqb_spec n 0) as [->|Hne].
    + exists (dd_tick d). split; [done|]. unfold ret. f_equal. by apply voted_id.
    + destruct (set_intended_run (n - 1) (0 <? n) (d <| dd_usage_cnt ::= fun n => n - 1 |>)) as (t & r & Ht & H);
        [done|simpl; lia|done|].
      exists t. split; [done|]. rewrite (bind_run _ _ _ tt (d <| dd_usage_cnt ::= fun n => n - 1 |>)) by done.
      rewrite (bind_run _ _ _ _ _ H). unfold ret. f_equal. unfold voted. simpl.
      destruct (Z.ltb_spec 0 n); [|lia]. destruct (Z.ltb_spec 0 (n - 1)), (Z.eqb_spec n 1); try lia; done.
Qed.

Lemma vote_nonneg b n : 0 <= n -> 0 <= (vote b n).2.
Proof. intros H. unfold vote. destruct b; simpl; [lia|]. destruct (Z.eqb_spec n 0); simpl; lia. Qed.

(** C27: The votes refine a counter.  While the remoteproc framework obeys, any
    sequence of votes returns what a counter returns - taking back a vote that was
    not given is refused - and leaves the controller awake exactly when a vote is
    standing; the framework is asked only when the first vote comes and when the
    last one goes. *)
Theorem power_votes_refine_counter bs n d :
  0 <= n -> rproc_obeys d -> votes_standing n d ->
  exists d', run_votes bs d = Done (votes bs n).1.1 d' /\ votes_standing (votes bs n).1.2 d' /\
    dd_events d' = dd_events d ++ (votes bs n).2.
Proof.
  revert n d. induction bs as [|b bs IH]; intros n d Hn Hr Hst; simpl.
  - exists d. by rewrite app_nil_r.
  - destruct (set_power_vote_run b n d Hn Hr Hst) as (t & Ht & Hv).
    pose proof (vote_nonneg b n Hn) as Hn'. destruct (vote b n) as [r n']. simpl in Hv, Hn'.
    rewrite (bind_run _ _ _ _ _ Hv).
    destruct (IH n' (voted n' t (vote_requests b n) d)) as (d' & Hrun & Hst' & Hev);
      [done|by apply voted_obeys|apply voted_standing|].
    rewrite (bind_run _ _ _ _ _ Hrun). destruct (votes bs n') as [[rs n''] ev]. simpl in *.
    exists d'. split; [done|]. split; [done|]. by rewrite Hev, app_assoc.
Qed.

(** ** Serving the clients that signaled *)

Fixpoint serve (ids : list Z) : DRV unit :=
  match ids with
  | [] => ret tt
  | id :: ids => _process_signaled_client_id id;;; serve ids
  end.

Lemma filter_ext_Forall {A} (P Q : A -> Prop) `{!forall x, Decision (P x), !forall x, Decision (Q x)} l :
  Forall (fun x => P x <-> Q x) l -> filter P l = filter Q l.
Proof. induction 1 as [|x l Hx _ IH]; [done|]. rewrite !filter_cons, IH. repeat case_decide; (done || tauto). Qed.

Lemma shiftl_BIT id : Z.shiftl 1 id = BIT id.
Proof. done. Qed.

Lemma process_mask_serves n id mask d :
  0 <= id -> 0 <= mask ->
  process_mask_from n id mask d = serve (filter (fun i => Z.testbit mask i = true) (seqZ id (Z.of_nat n))) d.
Proof.
  revert id mask d. induction n as [|n IH]; intros id mask d Hid Hm; [done|].
  rewrite seqZ_cons by lia. replace (Z.pred (Z.of_nat (S n))) with (Z.of_nat n) by lia.
  cbn [process_mask_from]. rewrite shiftl_BIT, flag_BIT by done. rewrite filter_cons.
  destruct (Z.testbit mask id) eqn:E; (case_decide as Hd; [|]); try done.
  - cbn [serve]. unfold bind. destruct (_process_signaled_client_id id d) as [r d'|]; [|done].
    assert (filter (fun i => Z.testbit mask i = true) (seqZ (Z.succ id) (Z.of_nat n))
      = filter (fun i => Z.testbit (clear mask (BIT id)) i = true) (seqZ (Z.succ id) (Z.of_nat n))) as ->.
    { apply filter_ext_Forall, Forall_forall. intros i Hi%elem_of_seqZ.
      unfold clear. rewrite Z.ldiff_spec, testbit_BIT by done.
      rewrite bool_decide_eq_false_2 by lia. by rewrite andb_true_r. }
    assert (0 <= clear mask (BIT id)) as Hc by (unfold clear; apply Z.ldiff_nonneg; lia).
    destruct (Z.eqb_spec (clear mask (BIT id)) 0) as [->|].
    + assert (filter (fun i => Z.testbit 0 i = true) (seqZ (Z.succ id) (Z.of_nat n)) = []) as ->; [|done].
      induction (seqZ (Z.succ id) (Z.of_nat n)) as [|i l IHl]; [done|].
      rewrite filter_cons, Z.testbit_0_l. by case_decide.
    + by rewrite (IH (id + 1)) by lia.
  - by rewrite (IH (id + 1)) by lia.
Qed.

(** Serving a mask.  The loop over the mask of signaled clients, which clears the
    bits it has served and stops when none is left, serves exactly the clients from
    the control queue to the last validation client whose bit is set, each once, in
    ascending order; other bits are ignored. *)
Theorem signaled_mask_serves mask d :
  0 <= mask ->
  hw_fence_utils_process_signaled_clients_mask mask d
  = serve (filter (fun i => Z.testbit mask i = true) (seqZ 0 (HW_FENCE_CLIENT_ID_VAL6 + 1))) d.
Proof. intros H. unfold hw_fence_utils_process_signaled_clients_mask. by rewrite process_mask_serves. Qed.

(** ** The messages of the controller *)

(** What a message does: the callback it reaches, or the controller coming up. *)
Definition error_target (d : driver_data) (p : queue_payload) : option hw_fence_client :=
  if (pl_type p =? HW_FENCE_PAYLOAD_TYPE_2) && (HW_FENCE_CLIENT_ID_CTX0 <=? pl_client_data p) &&
     (pl_client_data p <? dd_clients_num d)
  then match zget (dd_clients d) (pl_client_data p) with Some (Some c) => Some c | _ => None end
  else None.

Definition msg_ready (d : driver_data) (p : queue_payload) : bool :=
  dd_has_soccp d && ((pl_type p =? HW_FENCE_PAYLOAD_TYPE_3) ||
                     (pl_type p =? HW_FENCE_PAYLOAD_TYPE_4) && negb (dd_ssr_cnt d =? 0)).

Definition msg_events (d : driver_data) (p : queue_payload) : list event :=
  match error_target d p with
  | Some c =>
      if by_callback c (pl_error p)
      then [EvErrorCb (cl_fence_error_cb c) (cl_fence_error_cb_userdata c) (pl_hash p) (pl_error p)
              (pl_ctxt_id p) (pl_seqno p) (pl_flags p)] else []
  | None => if msg_ready d p then [EvWakeSsrWaiters] else []
  end.

Definition msg_result (d : driver_data) (p : queue_payload) : Z :=
  match error_target d p with
  | Some c => if by_callback c (pl_error p) then 0 else - EINVAL
  | None => if msg_ready d p then 0 else - EINVAL
  end.

(** The state after messages: [q] is the queue they came through. *)
Definition handled (q : hw_fence_queue) (l : list queue_payload) (d : driver_data) : driver_data :=
  d <| dd_ctrl_queues ::= zset (HW_FENCE_RX_QUEUE - 1) q |>
    <| dd_fctl_ready ::= orb (existsb (msg_ready d) l) |>
    <| dd_events ::= fun e => e ++ (l ≫= msg_events d) |>.

(** The clients the messages can reach. *)
Definition clients_reachable (d : driver_data) : Prop :=
  dd_clients_num d <= zlen (dd_clients d) /\ dd_clients_num d < 2 ^ 32 /\
  forall id c, zget (dd_clients d) id = Some (Some c) -> cl_error_cb_lock c = false.

Lemma error_cb_any d ch c ctx seq hash fl error :
  zget (dd_clients d) ch = Some (Some c) -> cl_error_cb_lock c = false ->
  hw_fence_utils_fence_error_cb ch ctx seq hash fl error d
  = Done (if by_callback c error then 0 else - EINVAL)
      (with_events (if by_callback c error
         then [EvErrorCb (cl_fence_error_cb c) (cl_fence_error_cb_userdata c) hash error ctx seq fl]
         else []) d).
Proof.
  intros Ec Hm. destruct (by_callback c error) eqn:Hb.
  - rewrite (error_cb_run _ _ _ _ _ _ _ _ Ec Hm Hb). f_equal. unfold client_moved, with_events.
    destruct d. simpl in *. by rewrite zset_id.
  - unfold hw_fence_utils_fence_error_cb, lock_error_cb.
    set (c1 := c <| cl_error_cb_lock := true |>). set (d1 := d <| dd_clients ::= zset ch (Some c1) |>).
    rewrite bind_assoc, (bind_run _ _ _ _ _ (get_client_run _ _ _ Ec)). rewrite Hm.
    rewrite (bind_run _ _ d tt d1) by done.
    assert (get_client ch d1 = Done c1 d1) as Hg.
    { apply get_client_run. simpl. apply zget_zset_eq. by eapply zget_Some. }
    rewrite (bind_run _ _ _ _ _ Hg). change (cl_fence_error_cb c1) with (cl_fence_error_cb c).
    assert ((error =? 0) || (cl_fence_error_cb c =? 0) = true) as ->.
    { unfold by_callback in Hb. by destruct (error =? 0), (cl_fence_error_cb c =? 0). }
    rewrite (bind_run _ _ _ (- EINVAL) d1) by done. unfold unlock_error_cb, update_client.
    rewrite bind_assoc, (bind_run _ _ _ _ _ Hg).
    rewrite (bind_run _ _ d1 tt d); [by rewrite with_events_nil|].
    unfold set_client, modifyM. f_equal. unfold d1. destruct d. simpl in *.
    f_equal. rewrite zset_zset. apply zset_id. rewrite Ec. do 2 f_equal. unfold c1. by destruct c; simpl in *; subst.
Qed.

(** One message, before the queue is taken into account. *)
Definition answered (p : queue_payload) (d : driver_data) : driver_data :=
  with_events (msg_events d p) (d <| dd_fctl_ready ::= orb (msg_ready d p) |>).

Lemma answered_nothing p d : msg_events d p = [] -> msg_ready d p = false -> answered p d = d.
Proof. intros H1 H2. unfold answered. rewrite H1, H2, with_events_nil. by destruct d. Qed.

Lemma process_ctrl_payload_run d p :
  clients_reachable d -> process_ctrl_payload p d = Done (msg_result d p) (answered p d).
Proof.
  intros (Hz & Hn & Hm). unfold process_ctrl_payload, msg_result.
  destruct (Z.eqb_spec (pl_type p) HW_FENCE_PAYLOAD_TYPE_2) as [Ht|Ht].
  - assert (msg_ready d p = false) as Hr by (unfold msg_ready; rewrite Ht; by destruct (dd_has_soccp d)).
    unfold _process_fence_error_payload. rewrite (bind_run get _ d d d) by done.
    assert (forall r, r = - EINVAL -> error_target d p = None -> ret r d = Done (match error_target d p with
      Some c => if by_callback c (pl_error p) then 0 else - EINVAL
      | None => if msg_ready d p then 0 else - EINVAL end) (answered p d)) as Hno.
    { intros r -> E. rewrite E, Hr, answered_nothing; [done| |done]. unfold msg_events. by rewrite E, Hr. }
    rewrite Ht. cbn [Z.eqb negb Pos.eqb HW_FENCE_PAYLOAD_TYPE_2].
    destruct ((pl_client_data p <? HW_FENCE_CLIENT_ID_CTX0) || (dd_clients_num d <=? pl_client_data p)) eqn:Eb.
    { apply Hno; [done|]. unfold error_target. destruct (_ && _ && _) eqn:E; [lia|done]. }
    assert (0 <= pl_client_data p < zlen (dd_clients d)) as Hb by (unfold HW_FENCE_CLIENT_ID_CTX0 in *; lia).
    rewrite u32_id by (unfold in_u32; lia). destruct (zget_is_Some _ _ Hb) as [o Eo].
    rewrite (bind_run _ _ _ _ _ (get_client_opt_run _ _ _ Eo)).
    assert (error_target d p = o) as Et.
    { unfold error_target. rewrite Ht, Eo. change (HW_FENCE_PAYLOAD_TYPE_2 =? HW_FENCE_PAYLOAD_TYPE_2) with true.
      destruct (_ && _ && _) eqn:E; [by destruct o|]. lia. }
    destruct o as [c|]; [|by apply Hno].
    rewrite (error_cb_any _ _ _ _ _ _ _ _ Eo) by eauto. rewrite Et. f_equal.
    unfold answered, msg_events. rewrite Et, Hr. destruct d; done.
  - assert (error_target d p = None) as Et.
    { unfold error_target. by destruct (Z.eqb_spec (pl_type p) HW_FENCE_PAYLOAD_TYPE_2). }
    unfold _process_init_soccp_payload. rewrite Et. unfold answered, msg_events. rewrite Et. unfold msg_ready.
    destruct (pl_type p =? HW_FENCE_PAYLOAD_TYPE_3) eqn:E3, (pl_type p =? HW_FENCE_PAYLOAD_TYPE_4) eqn:E4; cbn [orb andb].
    4: { rewrite andb_false_r. cbn [orb]. rewrite with_events_nil. unfold ret. f_equal. by destruct d. }
    all: rewrite (bind_run get _ d d d) by done; rewrite ?E3, ?E4; cbn [orb andb negb]; rewrite ?orb_false_r;
      destruct (dd_has_soccp d); cbn [negb andb];
      try (rewrite with_events_nil; unfold ret; f_equal; by destruct d).
    all: destruct (dd_ssr_cnt d =? 0); cbn [negb]; try done; try (rewrite with_events_nil; unfold ret; f_equal; by destruct d).
    all: apply Z.eqb_eq in E3; rewrite E3 in E4; done.
Qed.

(** A plain queue holding [l]: the driver reads it in the default numbering. *)
Definition ctrl_rx_is (d : driver_data) (n : Z) (l : list queue_payload) (q : hw_fence_queue) : Prop :=
  zget (dd_ctrl_queues d) (HW_FENCE_RX_QUEUE - 1) = Some q /\ q_skip_wr_idx q = false /\
  REQUIRES_IDX_TRANSLATION q = false /\ exists r, queue_repr (dd_has_soccp d) q n r l.

(** The result of the loop: that of the last message. *)
Definition msgs_result (d : driver_data) (l : list queue_payload) : Z :=
  foldl (fun _ p => msg_result d p) 0 l.

Lemma on_ctrl_queue_run {A} d i q (m : M hw_fence_queue A) a q' :
  zget (dd_ctrl_queues d) i = Some q -> m q = Done a q' ->
  on_queue (CtrlQueue i) m d = Done a (d <| dd_ctrl_queues ::= zset i q' |>).
Proof.
  intros E Em. unfold on_queue, get_queue.
  rewrite bind_assoc, (bind_run get _ d d d), (bind_run _ _ _ q d) by (done || by rewrite E). by rewrite Em.
Qed.

Lemma handled_step q1 q' p l d :
  handled q' l (answered p (d <| dd_ctrl_queues ::= zset (HW_FENCE_RX_QUEUE - 1) q1 |>)) = handled q' (p :: l) d.
Proof.
  unfold handled, answered, with_events. destruct d. simpl. rewrite zset_zset.
  f_equal; [by destruct (msg_ready _ p), (existsb _ l)|by rewrite <- app_assoc].
Qed.

Lemma ctrl_rx_loop_run l : forall k r0 d n q,
  ctrl_rx_is d n l q -> clients_reachable d -> (length l < k)%nat ->
  exists q', ctrl_rx_loop k r0 d = Done (msgs_result d l) (handled q' l d) /\
    ctrl_rx_is (handled q' l d) n [] q'.
Proof.
  induction l as [|p l IH]; intros k r0 d n q (Eq & Hsk & Hpl & r & Hq) Hc Hk;
    (destruct k as [|k]; [simpl in Hk; lia|]); cbn [ctrl_rx_loop]; rewrite (bind_run get _ d d d) by done.
  - rewrite (bind_run _ _ _ _ _ (on_ctrl_queue_run _ _ _ _ _ _ Eq (read_queue_nil _ _ _ _ Hq Hsk))).
    exists q. assert (handled q [] d = d <| dd_ctrl_queues ::= zset (HW_FENCE_RX_QUEUE - 1) q |>) as E.
    { unfold handled. destruct d. simpl. by rewrite app_nil_r. }
    rewrite E. split; [done|]. split; [simpl; by eapply zset_lookup_same|]. eauto.
  - pose proof (qr_n _ _ _ _ _ Hq). pose proof (qr_r _ _ _ _ _ Hq). pose proof (qr_len _ _ _ _ _ Hq).
    pose proof (read_queue_cons _ _ _ _ _ _ Hq Hsk) as Er. rewrite read_status_plain in Er by (done || lia).
    rewrite (bind_run _ _ _ _ _ (on_ctrl_queue_run _ _ _ _ _ _ Eq Er)). cbv beta iota.
    set (q1 := dequeued (dd_has_soccp d) q n r) in *.
    set (d1 := d <| dd_ctrl_queues ::= zset (HW_FENCE_RX_QUEUE - 1) q1 |>).
    assert (((if zlen l =? 0 then 0 else 1) <? 0) = false) as -> by (by destruct (zlen l =? 0)).
    rewrite (bind_run _ _ d1 p d1) by done.
    assert (clients_reachable d1) as Hc1 by exact Hc.
    rewrite (bind_run _ _ _ _ _ (process_ctrl_payload_run d1 p Hc1)).
    change (msg_result d1 p) with (msg_result d p).
    assert (ctrl_rx_is (answered p d1) n l q1) as Hrx.
    { split; [simpl; by eapply zset_lookup_same|]. split; [done|]. split; [done|].
      eexists. eapply queue_repr_dequeued. exact Hq. }
    destruct l as [|p' l].
    + change (zlen []) with 0. cbn [Z.eqb]. exists q1.
      assert (answered p d1 = handled q1 [p] d) as E.
      { unfold handled, answered, with_events, d1. destruct d. simpl.
        f_equal; [by rewrite orb_false_r|by rewrite app_nil_r]. }
      rewrite <- E. split; [done|exact Hrx].
    + assert ((if zlen (p' :: l) =? 0 then 0 else 1) = 1) as ->.
      { destruct (Z.eqb_spec (zlen (p' :: l)) 0); [unfold zlen in *; simpl in *; lia|done]. }
      cbn [Z.eqb]. destruct (IH k (msg_result d p) (answered p d1) n q1) as (q' & Hr & Hd); [done|done|simpl in *; lia|].
      exists q'. rewrite Hr. unfold d1 in *. rewrite handled_step in *. split; [done|exact Hd].
Qed.

(** C29: Draining the control queue.  The interrupt of the fence controller empties
    its queue first in, first out, as long as at most 99 messages are pending.
    Every message is handled as its type asks: an error message calls the callback of
    the client it names, if there is one; an initialisation message - a restart's
    only after a restart - marks the controller up and wakes those who wait for it;
    anything else is refused.  The result is that of the last message. *)
Theorem ctrl_queue_drained d n l q :
  ctrl_rx_is d n l q -> clients_reachable d -> zlen l < HW_FENCE_MAX_ITER_READ ->
  exists q', _process_ctrl_rx_queue d = Done (msgs_result d l) (handled q' l d) /\
    ctrl_rx_is (handled q' l d) n [] q'.
Proof.
  intros Hq Hc Hl. eapply ctrl_rx_loop_run; [done|done|]. unfold zlen, HW_FENCE_MAX_ITER_READ in *. lia.
Qed.

(** ** Restarts *)

(** What the driver keeps about the controller. *)
Definition fctl_state (d : driver_data) : bool * Z * Z * bool * bool :=
  (dd_fctl_ready d, dd_ssr_cnt d, dd_usage_cnt d, dd_is_awake d, dd_rproc d).

Definition with_fctl (ready : bool) (ssr_cnt usage_cnt : Z) (awake rproc : bool) (d : driver_data) : driver_data :=
  d <| dd_fctl_ready := ready |> <| dd_ssr_cnt := ssr_cnt |> <| dd_usage_cnt := usage_cnt |>
    <| dd_is_awake := awake |> <| dd_rproc := rproc |>.

Lemma drv_ok_with_fctl a b c e f d : drv_ok d -> drv_ok (with_fctl a b c e f d).
Proof. intros [? ? ? ? ? ? ?]. split; try done. by apply (table_ok_frame (with_fctl a b c e f)). Qed.


(** The message that boots the controller. *)
Lemma ctrl_tx_run d q n r l type :
  zget (dd_ctrl_queues d) (HW_FENCE_TX_QUEUE - 1) = Some q -> queue_repr (dd_has_soccp d) q n r l ->
  zlen l + 1 < n ->
  exists p, hw_fence_update_queue_helper 0 (CtrlQueue (HW_FENCE_TX_QUEUE - 1)) type 0 0 0 0 0 0
              (HW_FENCE_TX_QUEUE - 1) d
    = Done 0 (ticked (d <| dd_ctrl_queues ::= zset (HW_FENCE_TX_QUEUE - 1) (enqueued (dd_has_soccp d) q n r l p) |>)) /\
    pl_type p = u16 type.
Proof.
  intros E Hq Hroom.
  destruct (update_queue_room _ _ _ _ _ type 0 0 0 0 0 0 (now d) Hq Hroom) as [rsv Hrun].
  exists (new_payload type 0 0 0 0 0 0 (now d) rsv). split; [|done].
  unfold hw_fence_update_queue_helper. rewrite (bind_run get _ d d d) by done.
  assert (get_queue (CtrlQueue (HW_FENCE_TX_QUEUE - 1)) d = Done q d) as Hg.
  { unfold get_queue. rewrite (bind_run get _ d d d) by done. by rewrite E. }
  rewrite (bind_run _ _ _ _ _ Hg). rewrite (queue_repr_params _ _ _ _ _ Hq).
  change (_lock_client_queue (HW_FENCE_TX_QUEUE - 1)) with false. cbv iota.
  rewrite (bind_run get _ d d d) by done.
  by rewrite (bind_run _ _ _ _ _ (on_ctrl_queue_run _ _ _ _ _ _ E Hrun)).
Qed.

Lemma obeys_intro d t0 :
  dd_has_soccp d = true -> dd_rproc d = true -> (t0 <= dd_tick d)%nat ->
  (forall t, (t0 <= t)%nat -> env_rproc_ret (dd_env d) t = 0) -> rproc_obeys d.
Proof. intros H1 H2 H3 H4. split; [done|]. split; [done|]. intros t Ht. apply H4. lia. Qed.

(** A vote, whatever the controller does at the moment. *)
Lemma vote_up_run n awake d :
  0 <= n -> rproc_obeys d -> dd_usage_cnt d = n + 1 -> dd_is_awake d = awake ->
  exists t, (dd_tick d <= t)%nat /\ hw_fence_utils_set_power_vote true d
    = Done 0 (voted (n + 1) t (if awake then [] else [EvRprocState true]) d).
Proof.
  intros Hn Hr Hu Ha. pose proof Hr as (Hs & _ & _).
  unfold hw_fence_utils_set_power_vote. rewrite (bind_run get _ d d d) by done. rewrite Hs. cbn [negb andb].
  destruct (set_intended_run (n + 1) awake (d <| dd_usage_cnt ::= fun n => n + 1 |>)) as (t & r & Ht & H);
    [done|simpl; lia|done|].
  exists t. split; [done|]. rewrite (bind_run _ _ _ tt (d <| dd_usage_cnt ::= fun n => n + 1 |>)) by done.
  rewrite (bind_run _ _ _ _ _ H). unfold ret. f_equal. destruct (Z.ltb_spec 0 (n + 1)); [|lia].
  by destruct awake.
Qed.

(** Sending it, whether the controller sleeps or not. *)
Lemma send_bootup_run d n awake a q nq r l row type :
  0 <= n -> rproc_obeys d -> dd_usage_cnt d = n + 1 -> dd_is_awake d = awake -> dd_fctl_ready d = false ->
  (forall t, env_fctl_answers (dd_env d) t = a) ->
  zget (dd_ctrl_queues d) (HW_FENCE_TX_QUEUE - 1) = Some q -> queue_repr (dd_has_soccp d) q nq r l ->
  zlen l + 1 < nq -> zget (dd_ipc_clients_table d) 0 = Some row -> 0 < dd_clients_num d ->
  exists t p, _send_bootup_ctrl_txq_msg type d
    = Done (if a then 0 else - EINVAL)
        (voted n t ((if awake then [] else [EvRprocState true]) ++
                    [EvIpc (dd_ipcc_client_pid d) (dd_ipcc_fctl_vid d) (im_ipc_signal_id row)] ++
                    vote_requests false (n + 1))
           (d <| dd_fctl_ready := a |>
              <| dd_ctrl_queues ::= zset (HW_FENCE_TX_QUEUE - 1) (enqueued (dd_has_soccp d) q nq r l p) |>)) /\
    pl_type p = u16 type.
Proof.
  intros Hn Hob Hu Haw Hready Ha Eq Hq Hroom Erow Hcn. unfold _send_bootup_ctrl_txq_msg.
  rewrite (bind_run get _ d d d) by done. rewrite Hready.
  destruct (vote_up_run n awake d Hn Hob Hu Haw) as (t1 & Ht1 & R1).
  rewrite (bind_run _ _ _ _ _ R1). cbn [Z.eqb negb].
  set (d1 := voted (n + 1) t1 (if awake then [] else [EvRprocState true]) d) in *.
  rewrite (bind_run get _ d1 d1 d1) by done.
  change (dd_is_awake d1) with (0 <? n + 1). destruct (Z.ltb_spec 0 (n + 1)); [|lia]. cbn [negb].
  destruct (ctrl_tx_run d1 q nq r l type Eq Hq Hroom) as (p & R2 & Hp).
  rewrite (bind_run _ _ _ _ _ R2). cbn [Z.eqb negb]. change (dd_has_soccp d1) with (dd_has_soccp d).
  set (d2 := ticked _). rewrite (bind_run get _ d2 d2 d2) by done.
  assert (hw_fence_ipcc_get_signal_id 0 d2 = Done (im_ipc_signal_id row) d2) as R3.
  { apply ipc_field_run; [exact Erow|split; [done|exact Hcn]|done]. }
  rewrite (bind_run _ _ _ _ _ R3).
  set (d3 := logged (EvIpc (dd_ipcc_client_pid d) (dd_ipcc_fctl_vid d) (im_ipc_signal_id row)) d2).
  rewrite (bind_run _ _ _ tt d3) by done.
  set (d4 := (ticked d3) <| dd_fctl_ready := a |>).
  assert (wait_fctl_ready d3 = Done tt d4) as R4.
  { unfold wait_fctl_ready. rewrite (bind_run get _ d3 d3 d3), (bind_run tick _ d3 (dd_tick d3) (ticked d3)) by done.
    change (dd_env d3) with (dd_env d). rewrite Ha. destruct a; [done|].
    unfold ret, d4. f_equal. rewrite <- Hready. change (dd_fctl_ready d) with (dd_fctl_ready (ticked d3)).
    generalize (ticked d3). intros x. by destruct x. }
  rewrite (bind_run _ _ _ _ _ R4).
  assert (rproc_obeys d4) as Hob4.
  { destruct Hob as (H1 & H2 & H3). apply (obeys_intro d4 t1); [done|done| |].
    - change (dd_tick d4) with (S (S t1)). lia.
    - intros t Ht. apply H3. lia. }
  destruct (set_power_vote_run false (n + 1) d4 ltac:(lia) Hob4) as (t5 & Ht5 & R5).
  { split; [done|]. change (dd_is_awake d4) with (0 <? n + 1). done. }
  cbn [vote] in R5. destruct (Z.eqb_spec (n + 1) 0); [lia|]. cbn [fst snd] in R5.
  rewrite (bind_run _ _ _ _ _ R5). replace (n + 1 - 1) with n by lia.
  set (d5 := voted n t5 (vote_requests false (n + 1)) d4). rewrite (bind_run get _ d5 d5 d5) by done.
  change (dd_fctl_ready d5) with a. exists t5, p. split; [|done]. unfold ret. f_equal.
  unfold d5, d4, d3, d2, d1. clear. unfold voted, logged, ticked. destruct d. simpl. by rewrite <- !app_assoc.
Qed.

(** Booting the controller after a power-up.  Once the remoteproc framework gives
    its handle and obeys, the notification wakes the controller, puts one message into
    its control queue - of the restart's type after a restart -, signals it, and takes
    its own vote back: the votes stand as before and the controller stays awake exactly
    if there are any.  The notification succeeds and the driver is up if and only if
    the controller answered in time. *)
Theorem ssr_powerup_boots d n a q nq r l row :
  0 <= n -> dd_has_soccp d = true -> fctl_state d = (false, dd_ssr_cnt d, n + 1, false, false) ->
  0 < env_rproc_ret (dd_env d) (dd_tick d) ->
  (forall t, (dd_tick d < t)%nat -> env_rproc_ret (dd_env d) t = 0) ->
  (forall t, env_fctl_answers (dd_env d) t = a) ->
  zget (dd_ctrl_queues d) (HW_FENCE_TX_QUEUE - 1) = Some q -> queue_repr (dd_has_soccp d) q nq r l ->
  zlen l + 1 < nq -> zget (dd_ipc_clients_table d) 0 = Some row -> 0 < dd_clients_num d ->
  exists d' p, hw_fence_notify_ssr QCOM_SSR_AFTER_POWERUP d = Done (if a then NOTIFY_OK else NOTIFY_BAD) d' /\
    fctl_state d' = (a, dd_ssr_cnt d, n + 1, 0 <? n, true) /\
    zget (dd_ctrl_queues d') (HW_FENCE_TX_QUEUE - 1) = Some (enqueued (dd_has_soccp d) q nq r l p) /\
    pl_type p = (if dd_ssr_cnt d =? 0 then HW_FENCE_PAYLOAD_TYPE_3 else HW_FENCE_PAYLOAD_TYPE_4) /\
    dd_events d' = dd_events d ++ [EvRprocState true;
      EvIpc (dd_ipcc_client_pid d) (dd_ipcc_fctl_vid d) (im_ipc_signal_id row)] ++ vote_requests false (n + 1).
Proof.
  intros Hn Hs Hf Hp H0 Ha Eq Hq Hroom Erow Hcn. unfold fctl_state in Hf.
  injection Hf as Hready Hu Haw Hrp. set (d1 := (ticked d) <| dd_rproc := true |>).
  set (type := if dd_ssr_cnt d =? 0 then HW_FENCE_PAYLOAD_TYPE_3 else HW_FENCE_PAYLOAD_TYPE_4).
  assert (rproc_obeys d1) as Hob.
  { apply (obeys_intro d1 (S (dd_tick d))); [done|done|done|]. intros t Ht. apply H0. lia. }
  destruct (send_bootup_run d1 n false a q nq r l row type Hn Hob Hu Haw Hready Ha Eq Hq Hroom Erow Hcn)
    as (t & p & R & Htype).
  eexists _, p. split.
  - unfold hw_fence_notify_ssr.
    assert (_set_soccp_rproc d = Done 0 d1) as R0.
    { unfold _set_soccp_rproc. rewrite (bind_run get _ d d d) by done. rewrite Hrp.
      rewrite (bind_run _ _ _ _ _ (rproc_answer_run d)). by destruct (Z.ltb_spec 0 (env_rproc_ret (dd_env d) (dd_tick d))); [|lia]. }
    rewrite bind_assoc, (bind_run _ _ _ _ _ R0), bind_assoc, (bind_run get _ d1 d1 d1) by done.
    change (dd_ssr_cnt d1) with (dd_ssr_cnt d). fold type. rewrite (bind_run _ _ _ _ _ R). by destruct a.
  - split; [done|]. split; [simpl; by eapply zset_lookup_same|]. split.
    + rewrite Htype. unfold type. by destruct (dd_ssr_cnt d =? 0).
    + done.
Qed.

(** A full control queue costs a vote.  When the boot message finds no room the
    notification fails, as it should, but the vote it gave is not taken back: the
    controller is kept awake from then on. *)
Theorem boot_full_queue_leaks_vote d n q nq r l :
  0 <= n -> dd_has_soccp d = true -> fctl_state d = (false, dd_ssr_cnt d, n + 1, false, false) ->
  0 < env_rproc_ret (dd_env d) (dd_tick d) ->
  (forall t, (dd_tick d < t)%nat -> env_rproc_ret (dd_env d) t = 0) ->
  zget (dd_ctrl_queues d) (HW_FENCE_TX_QUEUE - 1) = Some q -> queue_repr (dd_has_soccp d) q nq r l ->
  zlen l + 1 = nq ->
  exists d', hw_fence_notify_ssr QCOM_SSR_AFTER_POWERUP d = Done NOTIFY_BAD d' /\
    dd_usage_cnt d' = dd_usage_cnt d + 1 /\ dd_is_awake d' = true.
Proof.
  intros Hn Hs Hf Hp H0 Eq Hq Hfull. unfold fctl_state in Hf.
  injection Hf as Hready Hu Haw Hrp. set (d1 := (ticked d) <| dd_rproc := true |>).
  assert (rproc_obeys d1) as Hob.
  { apply (obeys_intro d1 (S (dd_tick d))); [done|done|done|]. intros t Ht. apply H0. lia. }
  destruct (vote_up_run n false d1 Hn Hob Hu Haw) as (t & Ht & R1).
  set (d2 := voted (n + 1) t [EvRprocState true] d1) in *.
  assert (_set_soccp_rproc d = Done 0 d1) as R0.
  { unfold _set_soccp_rproc. rewrite (bind_run get _ d d d) by done. rewrite Hrp.
    rewrite (bind_run _ _ _ _ _ (rproc_answer_run d)). by destruct (Z.ltb_spec 0 (env_rproc_ret (dd_env d) (dd_tick d))); [|lia]. }
  assert (forall type, _send_bootup_ctrl_txq_msg type d1 = Done (- EINVAL) d2) as R2.
  { intros type. unfold _send_bootup_ctrl_txq_msg. rewrite (bind_run get _ d1 d1 d1) by done.
    change (dd_fctl_ready d1) with (dd_fctl_ready d). rewrite Hready, (bind_run _ _ _ _ _ R1). cbn [Z.eqb negb].
    rewrite (bind_run get _ d2 d2 d2) by done. change (dd_is_awake d2) with (0 <? n + 1).
    destruct (Z.ltb_spec 0 (n + 1)); [|lia]. cbn [negb].
    assert (zget (dd_ctrl_queues d2) (HW_FENCE_TX_QUEUE - 1) = Some q) as Eq2 by exact Eq.
    rewrite (bind_run _ _ _ (- EINVAL) d2); [done|].
    unfold hw_fence_update_queue_helper. rewrite (bind_run get _ d2 d2 d2) by done.
    assert (get_queue (CtrlQueue (HW_FENCE_TX_QUEUE - 1)) d2 = Done q d2) as Hg.
    { unfold get_queue. rewrite (bind_run get _ d2 d2 d2) by done. by rewrite Eq2. }
    rewrite (bind_run _ _ _ _ _ Hg). change (dd_has_soccp d2) with (dd_has_soccp d).
    rewrite (queue_repr_params _ _ _ _ _ Hq).
    change (_lock_client_queue (HW_FENCE_TX_QUEUE - 1)) with false. cbv iota.
    rewrite (bind_run get _ d2 d2 d2) by done.
    rewrite (bind_run _ _ _ _ _ (on_ctrl_queue_run _ _ _ _ _ _ Eq2
      (update_queue_full _ _ _ _ _ type 0 0 0 0 0 0 (now d2) Hq ltac:(lia)))).
    assert (d2 <| dd_ctrl_queues ::= zset (HW_FENCE_TX_QUEUE - 1) q |> = d2) as ->; [|done].
    revert Eq2. generalize d2. intros x Ex. destruct x. simpl in *. by rewrite zset_id. }
  exists d2. unfold hw_fence_notify_ssr.
  rewrite bind_assoc, (bind_run _ _ _ _ _ R0), bind_assoc, (bind_run get _ d1 d1 d1) by done.
  rewrite (bind_run _ _ _ _ _ (R2 _)). split; [done|]. split; [|simpl; by destruct (Z.ltb_spec 0 (n + 1)); [|lia]].
  change (dd_usage_cnt d2) with (n + 1 + 1). lia.
Qed.

(** * Witnesses *)

(** Two messages: the controller is up, and an error for client 2, which registered a
    callback. *)
Definition init_msg : queue_payload := new_payload 3 0 0 0 0 0 0 0 0.
Definition error_msg : queue_payload := new_payload 2 7 9 5 0 2 4 0 0.

Definition two_msgs_queue : hw_fence_queue :=
  enqueued true (enqueued true example_queue 3 0 [] init_msg) 3 0 [init_msg] error_msg.

Lemma two_msgs_repr : queue_repr true two_msgs_queue 3 0 [init_msg; error_msg].
Proof.
  apply (queue_repr_enqueued true _ 3 0 [init_msg]).
  - apply (queue_repr_enqueued true example_queue 3 0 []); [apply example_queue_repr|done|].
    repeat split; vm_compute; congruence.
  - done.
  - repeat split; vm_compute; congruence.
Qed.

Definition callback_client : hw_fence_client :=
  rx_client <| cl_fence_error_cb := 77 |> <| cl_fence_error_cb_userdata := 78 |>.

(** The controller asleep and down, its queue pending. *)
Definition soccp8 : driver_data :=
  (with_fctl false 0 1 false true sun8)
    <| dd_ctrl_queues := [example_queue; two_msgs_queue] |>
    <| dd_clients := replicate 2 None ++ Some callback_client :: replicate 15 None |>
    <| dd_env ::= fun e => e <| env_rproc_ret := fun n => if (n =? 0)%nat then 1 else 0 |> |>.

Lemma power_votes_witness :
  exists d', run_votes [true; true; false; false; false] (ticked soccp8) = Done [0; 0; 0; 0; - EINVAL] d' /\
    votes_standing 0 d' /\ dd_events d' = [EvRprocState true; EvRprocState false].
Proof.
  apply (power_votes_refine_counter [true; true; false; false; false] 0 (ticked soccp8)); [done| |done].
  split; [done|]. split; [done|]. intros t Ht. destruct t; [simpl in Ht; lia|done].
Defined.

Lemma signaled_mask_serves_witness :
  hw_fence_utils_process_signaled_clients_mask (2 ^ 20 + 2 ^ 9 + 1) soccp8 = serve [0; 9] soccp8.
Proof. rewrite (signaled_mask_serves (2 ^ 20 + 2 ^ 9 + 1)) by done. f_equal. Defined.

Lemma ctrl_queue_drained_witness :
  exists q', _process_ctrl_rx_queue soccp8 = Done 0 (handled q' [init_msg; error_msg] soccp8) /\
    dd_fctl_ready (handled q' [init_msg; error_msg] soccp8) = true /\
    dd_events (handled q' [init_msg; error_msg] soccp8)
    = [EvWakeSsrWaiters; EvErrorCb 77 78 (Z.lor 5 (BIT 31)) 4 7 9 0].
Proof.
  destruct (ctrl_queue_drained soccp8 3 [init_msg; error_msg] two_msgs_queue) as (q' & Hr & _).
  - split; [done|]. split; [done|]. split; [done|]. exists 0. apply two_msgs_repr.
  - split; [vm_compute; discriminate|]. split; [done|]. intros id c E%zget_elem.
    apply list_elem_of_In in E.
    change (Some c ∈ replicate 2 None ++ Some callback_client :: replicate 15 None) in E.
    apply elem_of_app in E as [[? _]%elem_of_replicate|[E|[? _]%elem_of_replicate]%elem_of_cons]; [done| |done].
    assert (c = callback_client) as -> by congruence. reflexivity.
  - done.
  - exists q'. assert (msgs_result soccp8 [init_msg; error_msg] = 0) as E by (vm_compute; reflexivity).
    rewrite E in Hr. split; [exact Hr|]. split; vm_compute; reflexivity.
Defined.

Definition held8 : driver_data :=
  with_fctl true (dd_ssr_cnt joined8) (dd_usage_cnt joined8) (dd_is_awake joined8) true joined8.

Lemma held8_ok : drv_ok held8.
Proof.
  unfold held8. apply drv_ok_with_fctl, joined8_ok.
Qed.


(** The same after a stop with one vote standing. *)
Definition stopped8 : driver_data := with_fctl false 1 2 false false soccp8.

Lemma ssr_powerup_witness :
  exists d' p, hw_fence_notify_ssr QCOM_SSR_AFTER_POWERUP stopped8 = Done NOTIFY_OK d' /\
    fctl_state d' = (true, 1, 2, true, true) /\ pl_type p = HW_FENCE_PAYLOAD_TYPE_4 /\
    dd_events d' = [EvRprocState true; EvIpc 3 46 0].
Proof.
  destruct (ssr_powerup_boots stopped8 1 true example_queue 3 0 []
              (client_row hw_fence_clients_ipc_map_sun 0)) as (d' & p & Hr & Hf & _ & Hp & He); try done.
  - intros t Ht. destruct t; [simpl in Ht; lia|done].
  - apply example_queue_repr.
  - by exists d', p.
Defined.

Lemma boot_full_queue_witness :
  exists d', hw_fence_notify_ssr QCOM_SSR_AFTER_POWERUP
      (stopped8 <| dd_ctrl_queues := [two_msgs_queue; two_msgs_queue] |>) = Done NOTIFY_BAD d' /\
    dd_usage_cnt d' = 3 /\ dd_is_awake d' = true.
Proof.
  destruct (boot_full_queue_leaks_vote (stopped8 <| dd_ctrl_queues := [two_msgs_queue; two_msgs_queue] |>)
              1 two_msgs_queue 3 0 [init_msg; error_msg]) as (d' & Hr & Hu & Ha); try done.
  - intros t Ht. destruct t; [simpl in Ht; lia|done].
  - apply two_msgs_repr.
  - by exists d'.
Defined.
