(* ===== verification/HwFenceApi.v ===== *)
(** * The interface to clients

    [src/msm_hw_fence.c]: registering and deregistering a client, creating and
    destroying fences, waiting, resetting, the Tx queue and the error callback; and
    the initialisation of a client in [src/hw_fence_drv_priv.c].

    A client handle is the index of its client, [None] a handle that is null or an
    error.  The mutex of the client list is free whenever it is taken, because it is
    released on every path.  What the driver finds in the shared memory when it lays a
    client's queues out is an answer of the environment, as other processors write
    it.

    The theorems: a first registration makes a client known as its row of the
    interrupt controller's table says, with empty queues in its region; further
    registrations share it and the last deregistration frees it; a reset leaves no
    fence that waits for the client and no unsignaled fence of its own; an error
    callback comes and goes; and two ways the interface fails its caller: an error for
    a queued fence is never written, and a failed wait without handles crashes. *)
From S2P Require Import Prelude HwFenceTypes HwFenceQueue HwFenceTable HwFenceRef.
From S2P Require Import HwFenceClient HwFenceSignal HwFenceCallback HwFenceFrame HwFenceJoin HwFenceLayout.
From S2P Require Import HwFenceIpc HwFenceSoccp.
From stdpp Require Import gmap.
From Stdlib Require Import Lia.
#[local] Open Scope Z_scope.

(** ** Registration *)

Definition _set_power_vote_if_needed (client_id : Z) (state : bool) : DRV Z :=
  d <-- get;
  if dd_has_soccp d && is_val_client client_id then hw_fence_utils_set_power_vote state else ret 0.

Definition hw_fence_cleanup_client (ch : Z) : DRV unit :=
  c <-- get_client ch;
  modifyM (fun d => d <| dd_clients ::= zset (cl_client_id c) None |>).

(** [kref_put] with [msm_hw_fence_client_destroy]; says whether it was the last
    reference. *)
Definition client_kref_put (ch : Z) : DRV bool :=
  update_client ch (fun c => c <| cl_kref ::= fun n => n - 1 |>);;;
  c <-- get_client ch;
  if cl_kref c =? 0 then hw_fence_cleanup_client ch;;; ret true else ret false.

(** A zeroed client with one reference. *)
Definition zero_queue : hw_fence_queue := mk_queue [] 0 None 0 0 0 false.
Definition fresh_client : hw_fence_client :=
  mk_client 0 0 (0, 0) [zero_queue; zero_queue] 0 0 0 false 0 0 0 false false false false false 0 0 1 0.

(** The queues and the memory descriptor of a client, in the memory as it is found. *)
Definition alloc_client_resources (ch : Z) : DRV Z :=
  c <-- get_client ch;
  d <-- get;
  n <-- tick;
  match hw_fence_alloc_client_resources (layout_of d) (env_shared_mem (dd_env d) n) (dd_res_start d)
          (cl_client_id c) with
  | inl err => ret err
  | inr (addr, size, _, queues) =>
      update_client ch (fun c => c <| cl_mem_descriptor := (addr, size) |>
        <| cl_queues ::= fun old => queues ++ drop (length queues) old |>);;;
      ret 0
  end.

(** The signals are enabled once for all validation clients and once for all display
    clients. *)
Definition hw_fence_init_controller_signal (ch : Z) : DRV Z :=
  c <-- get_client ch;
  d <-- get;
  let id := cl_client_id_ext c in
  if id =? HW_FENCE_CLIENT_ID_CTX0 then ret 0
  else if is_val_client id then
    when negb (dd_ipcc_val_initialized d) do (
      put (d <| dd_ipcc_val_initialized := true |>);;;
      client_id <-- deref (hw_fence_utils_get_client_id_priv (ml_client_types (dd_layout d))
                             HW_FENCE_CLIENT_ID_VAL0);
      when dd_has_soccp d do (hw_fence_ipcc_enable_client_signal_pairs client_id;;; ret tt));;;
    ret 0
  else if (HW_FENCE_CLIENT_ID_CTL0 <=? id) && (id <=? HW_FENCE_CLIENT_ID_CTL5) then
    when negb (dd_ipcc_dpu_initialized d) do (
      put (d <| dd_ipcc_dpu_initialized := true |>);;;
      client_id <-- deref (hw_fence_utils_get_client_id_priv (ml_client_types (dd_layout d))
                             HW_FENCE_CLIENT_ID_CTL0);
      hw_fence_ipcc_enable_protocol client_id;;;
      hw_fence_ipcc_enable_client_signal_pairs client_id;;;
      ret tt);;;
    ret 0
  else if (HW_FENCE_CLIENT_ID_IPE <=? id) &&
          (id <=? HW_FENCE_CLIENT_ID_IFE11 + MSM_HW_FENCE_MAX_SIGNAL_PER_CLIENT - 1) then ret 0
  else ret (- EINVAL).

Definition hw_fence_init_controller_resources : DRV Z := ret 0.

(** How the interrupt controller knows the client. *)
Definition init_client_ipc (client_id : Z) : DRV Z :=
  vid <-- hw_fence_ipcc_get_client_virt_id client_id;
  pid <-- hw_fence_ipcc_get_client_phys_id client_id;
  update_client client_id (fun c => c <| cl_ipc_client_vid := vid |> <| cl_ipc_client_pid := pid |>);;;
  if (vid <=? 0) || (pid <=? 0) then ret (- EINVAL)
  else
    signal_id <-- hw_fence_ipcc_get_signal_id client_id;
    update_client client_id (fun c => c <| cl_ipc_signal_id := signal_id |>);;;
    if signal_id <? 0 then ret (- EINVAL)
    else
      update_rxq <-- hw_fence_ipcc_needs_rxq_update client_id;
      signaled_update_rxq <-- hw_fence_ipcc_signaled_needs_rxq_update client_id;
      signaled_send_ipc <-- hw_fence_ipcc_signaled_needs_ipc_irq client_id;
      txq_update_send_ipc <-- hw_fence_ipcc_txq_update_needs_ipc_irq client_id;
      update_client client_id (fun c => c <| cl_update_rxq := update_rxq |>
        <| cl_signaled_update_rxq := signaled_update_rxq |> <| cl_signaled_send_ipc := signaled_send_ipc |>
        <| cl_txq_update_send_ipc := txq_update_send_ipc |>);;;
      ret 0.

(** Which queues it has; a client without an Rx queue is not told through it. *)
Definition init_client_queues (client_id : Z) : DRV Z :=
  d <-- get;
  let queues_num := hw_fence_utils_get_queues_num (layout_of d) client_id in
  update_client client_id (fun c => c <| cl_queues_num := queues_num |>);;;
  if queues_num =? 0 then ret (- EINVAL)
  else
    when queues_num <? HW_FENCE_CLIENT_QUEUES do
      update_client client_id (fun c => c <| cl_update_rxq := false |> <| cl_signaled_update_rxq := false |>);;;
    update_client client_id (fun c =>
      c <| cl_skip_fctl_ref := hw_fence_utils_get_skip_fctl_ref (layout_of d) client_id |>);;;
    alloc_client_resources client_id.

(** The part of the registration behind the insertion into the list of clients. *)
Definition init_client (client_id client_id_ext : Z) : DRV Z :=
  update_client client_id (fun c => c <| cl_client_id := client_id |> <| cl_client_id_ext := client_id_ext |>);;;
  r <-- init_client_ipc client_id;
  if negb (r =? 0) then ret r
  else
    r <-- init_client_queues client_id;
    if negb (r =? 0) then ret r
    else
      r <-- hw_fence_init_controller_signal client_id;
      if negb (r =? 0) then ret r
      else
        r <-- hw_fence_init_controller_resources;
        if negb (r =? 0) then ret r
        else
          d <-- get;
          put (d <| dd_next_context ::= fun n => u64 (n + 1) |>);;;
          update_client client_id (fun c => c <| cl_context_id := dd_next_context d |>
                                              <| cl_error_cb_lock := false |>);;;
          _set_power_vote_if_needed client_id_ext true.

(** The client a further registration shares: one that is not being freed. *)
Definition registered (o : option hw_fence_client) : option hw_fence_client :=
  match o with Some c => if cl_kref c =? 0 then None else Some c | None => None end.

(** The handle and the memory descriptor for the caller, or the error. *)
Definition msm_hw_fence_register (client_id_ext : Z) : DRV (Z + Z * (Z * Z)) :=
  d <-- get;
  if negb (dd_driver_enable d) then ret (inl (- ENODEV))
  else
    r <-- hw_fence_check_hw_fence_driver;
    if negb (r =? 0) then ret (inl r)
    else if HW_FENCE_CLIENT_MAX <=? client_id_ext then ret (inl (- EINVAL))
    else
      client_id <-- deref (hw_fence_utils_get_client_id_priv (ml_client_types (dd_layout d)) client_id_ext);
      if HW_FENCE_CLIENT_MAX <=? client_id then ret (inl (- EINVAL))
      else
        p <-- kzalloc;
        match p with
        | None => ret (inl (- ENOMEM))
        | Some _ =>
            o <-- get_client_opt client_id;
            match registered o with
            | Some c =>
                set_client client_id (c <| cl_kref ::= fun n => n + 1 |>);;;
                ret (inr (client_id, cl_mem_descriptor c))
            | None =>
                set_client client_id fresh_client;;;
                r <-- init_client client_id client_id_ext;
                if negb (r =? 0) then client_kref_put client_id;;; ret (inl r)
                else
                  c <-- get_client client_id;
                  ret (inr (client_id, cl_mem_descriptor c))
            end
        end.

Definition msm_hw_fence_deregister (client_handle : option Z) : DRV Z :=
  r <-- hw_fence_check_valid_client client_handle;
  if negb (r =? 0) then ret r
  else
    ch <-- deref client_handle;
    c <-- get_client ch;
    d <-- get;
    if dd_clients_num d <=? cl_client_id c then ret (- EINVAL)
    else
      destroyed <-- client_kref_put ch;
      when destroyed do (_set_power_vote_if_needed (cl_client_id_ext c) false;;; ret tt);;;
      ret 0.

(** ** Fences of a client *)

(** [struct msm_hw_fence_create_params]: the dma-fence, and what [handle] points to. *)
Record create_params := mk_create_params {
  cp_fence : option Z;
  cp_handle : option Z }.

(** Returns the error code and [*params->handle]. *)
Definition msm_hw_fence_create (client_handle : option Z) (params : option create_params) : DRV (Z * option Z) :=
  r <-- hw_fence_check_valid_fctl client_handle;
  if negb (r =? 0) then ret (r, None)
  else
    match params with
    | Some (mk_create_params fence (Some handle)) =>
        ch <-- deref client_handle;
        match fence with
        | None =>
            out <-- hw_fence_internal_dma_fence_create ch handle;
            ret (match out.1 with inl err => err | inr _ => 0 end, Some out.2)
        | Some fence =>
            g <-- get_dma_fence fence;
            match df_array g with
            | Some _ => ret (- EINVAL, Some handle)
            | None =>
                if test_dma_flag g MSM_HW_FENCE_FLAG_ENABLED_BIT then ret (- EINVAL, Some handle)
                else
                  c <-- get_client ch;
                  out <-- hw_fence_create c fence (df_context g) (df_seqno g) handle;
                  let '(r, handle) := out in
                  if negb (r =? 0) then ret (r, Some handle)
                  else
                    r <-- hw_fence_add_callback fence handle;
                    if negb (r =? 0) then
                      hw_fence_destroy_refcount handle HW_FENCE_FCTL_REFCOUNT;;;
                      hw_fence_destroy_with_hash handle;;;
                      ret (r, Some handle)
                    else
                      set_dma_flag fence MSM_HW_FENCE_FLAG_ENABLED_BIT;;;
                      ret (r, Some handle)
            end
        end
    | _ => ret (- EINVAL, None)
    end.

Definition msm_hw_fence_destroy_with_handle (client_handle : option Z) (handle : Z) : DRV Z :=
  r <-- hw_fence_check_valid_client client_handle;
  if negb (r =? 0) then ret r
  else
    ch <-- deref client_handle;
    c <-- get_client ch;
    d <-- get;
    if dd_clients_num d <=? cl_client_id c then ret (- EINVAL)
    else hw_fence_destroy_with_hash handle.

(** ** Waiting *)

(** One element of the list; the local [hash] is not initialised and only used after
    it was written. *)
Definition wait_one (ch : Z) (fence : option Z) (client_data : Z) : DRV (Z * Z) :=
  match fence with
  | None => hw_fence_process_fence (Some ch) None 0 client_data
  | Some f =>
      g <-- get_dma_fence f;
      match df_array g with
      | Some _ => hw_fence_process_fence_array ch f 0 client_data
      | None => hw_fence_process_fence (Some ch) (Some f) 0 client_data
      end
  end.

(** The list from index [i] on, [n] elements: the result, the index reached and what
    [handles] points to. *)
Fixpoint wait_all (n : nat) (i ch : Z) (fence_list : list (option Z)) (client_data_list : option (list Z))
    (handles : option (list Z)) : DRV (Z * Z * option (list Z)) :=
  match n with
  | O => ret (0, i, handles)
  | S n =>
      fence <-- deref (zget fence_list i);
      client_data <-- (match client_data_list with Some l => deref (zget l i) | None => ret 0 end);
      out <-- wait_one ch fence client_data;
      let '(r, hash) := out in
      if negb (r =? 0) then ret (r, i, handles)
      else
        match handles with
        | Some hs =>
            _ <-- deref (zget hs i);
            wait_all n (i + 1) ch fence_list client_data_list (Some (zset i hash hs))
        | None => wait_all n (i + 1) ch fence_list client_data_list None
        end
  end.

(** Giving the references of the first [i] fences back. *)
Definition unwait_all (i : Z) (handles : option (list Z)) : DRV unit :=
  for_n (Z.to_nat i) 0 (fun j _ =>
    h <-- deref (match handles with Some hs => zget hs j | None => None end);
    hw_fence_destroy_with_hash h;;; ret tt) tt.

(** Returns the error code and what [handles] points to. *)
Definition msm_hw_fence_wait_update_v2 (client_handle : option Z) (fence_list : option (list (option Z)))
    (handles : option (list Z)) (client_data_list : option (list Z)) (num_fences : Z)
  : DRV (Z * option (list Z)) :=
  r <-- hw_fence_check_valid_fctl client_handle;
  if negb (r =? 0) then ret (r, handles)
  else
    match fence_list with
    | None => ret (- EINVAL, handles)
    | Some fence_list =>
        first <-- deref (zget fence_list 0);
        match first with
        | None => ret (- EINVAL, handles)
        | Some _ =>
            ch <-- deref client_handle;
            c <-- get_client ch;
            let data_id := hw_fence_get_client_data_id (cl_client_id_ext c) in
            if (match client_data_list with Some _ => true | None => false end) &&
               (HW_FENCE_MAX_CLIENTS_WITH_DATA <=? data_id) then ret (- EINVAL, handles)
            else
              out <-- wait_all (Z.to_nat num_fences) 0 ch fence_list client_data_list handles;
              let '(r, i, handles) := out in
              if negb (r =? 0) then unwait_all i handles;;; ret (r, handles)
              else ret (0, handles)
        end
    end.

(** The fences from index [i] on, [n] of them, one call each. *)
Fixpoint wait_each (n : nat) (i : Z) (client_handle : option Z) (fence_list : list (option Z)) : DRV Z :=
  match n with
  | O => ret 0
  | S n =>
      out <-- msm_hw_fence_wait_update_v2 client_handle (Some (drop (Z.to_nat i) fence_list)) (Some [0]) None 1;
      if negb (out.1 =? 0) then ret out.1
      else
        handle <-- deref (match out.2 with Some hs => zget hs 0 | None => None end);
        r <-- msm_hw_fence_destroy_with_handle client_handle handle;
        if negb (r =? 0) then ret r else wait_each n (i + 1) client_handle fence_list
  end.

Definition msm_hw_fence_wait_update (client_handle : option Z) (fence_list : list (option Z)) (num_fences : Z)
  : DRV Z :=
  wait_each (Z.to_nat num_fences) 0 client_handle fence_list.

(** ** Reset *)

Definition msm_hw_fence_reset_client (client_handle : option Z) (reset_flags : Z) : DRV Z :=
  r <-- hw_fence_check_valid_client client_handle;
  if negb (r =? 0) then ret r
  else
    ch <-- deref client_handle;
    d <-- get;
    for_n (Z.to_nat (dd_hw_fences_tbl_cnt d)) 0
      (fun i _ => hw_fence_utils_cleanup_fence ch i reset_flags;;; ret tt) tt;;;
    hw_fence_utils_reset_queues ch;;;
    ret 0.

Definition msm_hw_fence_reset_client_by_id (client_id_ext reset_flags : Z) : DRV Z :=
  r <-- hw_fence_check_hw_fence_driver;
  if negb (r =? 0) then ret r
  else if HW_FENCE_CLIENT_MAX <=? client_id_ext then ret (- EINVAL)
  else
    d <-- get;
    client_id <-- deref (hw_fence_utils_get_client_id_priv (ml_client_types (dd_layout d)) client_id_ext);
    if HW_FENCE_CLIENT_MAX <=? client_id then ret (- EINVAL)
    else
      o <-- get_client_opt client_id;
      msm_hw_fence_reset_client (match o with Some _ => Some client_id | None => None end) reset_flags.

(** ** Tx queue, signals and callbacks *)

(** The result of the queue is not looked at. *)
Definition msm_hw_fence_update_txq (client_handle : option Z) (handle flags error : Z) : DRV Z :=
  r <-- hw_fence_check_valid_client client_handle;
  if negb (r =? 0) then ret r
  else
    d <-- get;
    if dd_hw_fences_tbl_cnt d <=? handle then ret (- EINVAL)
    else
      ch <-- deref client_handle;
      f <-- get_fence handle;
      hw_fence_update_queue ch (hf_ctx_id f) (hf_seq_id f) handle flags 0 error (HW_FENCE_TX_QUEUE - 1);;;
      ret 0.

Definition msm_hw_fence_update_txq_error (client_handle : option Z) (handle error update_flags : Z) : DRV Z :=
  r <-- hw_fence_check_valid_client client_handle;
  if negb (r =? 0) then ret r
  else
    d <-- get;
    if (dd_hw_fences_tbl_cnt d <=? handle) || (error =? 0) then ret (- EINVAL)
    else if negb (update_flags =? MSM_HW_FENCE_UPDATE_ERROR_WITH_MOVE) then ret (- EINVAL)
    else
      ch <-- deref client_handle;
      on_queue (ClientQueue ch (HW_FENCE_TX_QUEUE - 1))
        (hw_fence_update_existing_txq_payload (dd_has_soccp d) handle error);;;
      ret 0.

Definition msm_hw_fence_trigger_signal (client_handle : option Z) (tx_client_pid rx_client_vid signal_id : Z)
  : DRV Z :=
  r <-- hw_fence_check_valid_client client_handle;
  if negb (r =? 0) then ret r
  else hw_fence_ipcc_trigger_signal tx_client_pid rx_client_vid signal_id;;; ret 0.

(** A callback or a user-data pointer that is null or an error is 0 here. *)
Definition msm_hw_fence_register_error_cb (client_handle : option Z) (cb data : Z) : DRV Z :=
  r <-- hw_fence_check_valid_client client_handle;
  if negb (r =? 0) then ret r
  else if (cb =? 0) || (data =? 0) then ret (- EINVAL)
  else
    ch <-- deref client_handle;
    c <-- get_client ch;
    if negb (cl_fence_error_cb c =? 0) then ret (- EINVAL)
    else
      update_client ch (fun c => c <| cl_fence_error_cb_userdata := data |> <| cl_fence_error_cb := cb |>);;;
      ret 0.

(** [mutex_trylock]; the result of the failed case is dropped. *)
Definition msm_hw_fence_deregister_error_cb (client_handle : option Z) : DRV Z :=
  r <-- hw_fence_check_valid_client client_handle;
  if negb (r =? 0) then ret r
  else
    ch <-- deref client_handle;
    c <-- get_client ch;
    if cl_error_cb_lock c then ret (- EAGAIN)
    else
      lock_error_cb ch;;;
      when negb (cl_fence_error_cb c =? 0) do
        update_client ch (fun c => c <| cl_fence_error_cb := 0 |> <| cl_fence_error_cb_userdata := 0 |>);;;
      unlock_error_cb ch;;;
      ret 0.

(** ** Debugging *)

(** The fence is printed between the lookup and the release. *)
Definition msm_hw_fence_dump_fence (client_handle : option Z) (fence : Z) : DRV Z :=
  r <-- hw_fence_check_valid_client client_handle;
  if negb (r =? 0) then ret r
  else
    g <-- get_dma_fence fence;
    if negb (test_dma_flag g MSM_HW_FENCE_FLAG_ENABLED_BIT) then ret (- EINVAL)
    else
      out <-- msm_hw_fence_find fence (df_context g) (df_seqno g) 0;
      match out.1 with
      | None => ret (- EINVAL)
      | Some _ => msm_hw_fence_destroy_with_handle client_handle out.2;;; ret 0
      end.

Definition msm_hw_fence_driver_doorbell_sim (db_mask : Z) : DRV Z :=
  r <-- hw_fence_check_hw_fence_driver;
  if negb (r =? 0) then ret r
  else hw_fence_utils_process_signaled_clients_mask db_mask;;; ret 0.

(** * Properties *)

(** ** Checks *)

Lemma check_client_run d ch : dd_resources_ready d = true -> hw_fence_check_valid_client (Some ch) d = Done 0 d.
Proof.
  intros H. unfold hw_fence_check_valid_client, hw_fence_check_hw_fence_driver.
  rewrite bind_assoc, (bind_run get _ d d d) by done. rewrite H. done.
Qed.

Lemma check_fctl_run d ch :
  dd_resources_ready d = true -> dd_fctl_ready d = true -> hw_fence_check_valid_fctl (Some ch) d = Done 0 d.
Proof.
  intros H1 H2. unfold hw_fence_check_valid_fctl. rewrite (bind_run _ _ _ _ _ (check_client_run _ _ H1)).
  cbn [Z.eqb negb]. rewrite (bind_run get _ d d d) by done. by rewrite H2.
Qed.

(** ** The error callback *)

Definition put_client (ch : Z) (c : hw_fence_client) (d : driver_data) : driver_data :=
  d <| dd_clients ::= zset ch (Some c) |>.

Lemma put_client_at d ch c c' :
  zget (dd_clients d) ch = Some (Some c) -> zget (dd_clients (put_client ch c' d)) ch = Some (Some c').
Proof. intros E. simpl. apply zget_zset_eq. by eapply zget_Some. Qed.

Lemma put_put_client ch c1 c2 d : put_client ch c2 (put_client ch c1 d) = put_client ch c2 d.
Proof. unfold put_client. simpl. by rewrite zset_zset. Qed.

Lemma put_client_id d ch c : zget (dd_clients d) ch = Some (Some c) -> put_client ch c d = d.
Proof. intros E. unfold put_client. destruct d. simpl in *. by rewrite zset_id. Qed.

Lemma update_client_run d ch c g :
  zget (dd_clients d) ch = Some (Some c) -> update_client ch g d = Done tt (put_client ch (g c) d).
Proof. intros E. unfold update_client. by rewrite (bind_run _ _ _ _ _ (get_client_run _ _ _ E)). Qed.

Definition with_error_cb (cb data : Z) (c : hw_fence_client) : hw_fence_client :=
  c <| cl_fence_error_cb_userdata := data |> <| cl_fence_error_cb := cb |>.

Lemma register_error_cb_run d ch c cb data :
  dd_resources_ready d = true -> zget (dd_clients d) ch = Some (Some c) -> cb <> 0 -> data <> 0 ->
  msm_hw_fence_register_error_cb (Some ch) cb data d
  = if cl_fence_error_cb c =? 0 then Done 0 (put_client ch (with_error_cb cb data c) d) else Done (- EINVAL) d.
Proof.
  intros Hr E Hcb Hd. unfold msm_hw_fence_register_error_cb. rewrite (bind_run _ _ _ _ _ (check_client_run _ _ Hr)).
  apply Z.eqb_neq in Hcb, Hd. rewrite Hcb, Hd. cbn [Z.eqb negb orb].
  rewrite (bind_run _ _ d ch d) by done. rewrite (bind_run _ _ _ _ _ (get_client_run _ _ _ E)).
  destruct (cl_fence_error_cb c =? 0); cbn [negb]; [|done].
  by rewrite (bind_run _ _ _ _ _ (update_client_run _ _ _ _ E)).
Qed.

Lemma deregister_error_cb_run d ch c :
  dd_resources_ready d = true -> zget (dd_clients d) ch = Some (Some c) -> cl_error_cb_lock c = false ->
  msm_hw_fence_deregister_error_cb (Some ch) d
  = Done 0 (if cl_fence_error_cb c =? 0 then d else put_client ch (with_error_cb 0 0 c) d).
Proof.
  intros Hr E Hl. unfold msm_hw_fence_deregister_error_cb. rewrite (bind_run _ _ _ _ _ (check_client_run _ _ Hr)).
  cbn [Z.eqb negb]. rewrite (bind_run _ _ d ch d) by done.
  rewrite (bind_run _ _ _ _ _ (get_client_run _ _ _ E)). rewrite Hl.
  set (c1 := c <| cl_error_cb_lock := true |>).
  rewrite (bind_run _ _ d tt (put_client ch c1 d)).
  2: { unfold lock_error_cb. rewrite (bind_run _ _ _ _ _ (get_client_run _ _ _ E)). by rewrite Hl. }
  pose proof (put_client_at d ch c c1 E) as E1. unfold unlock_error_cb.
  destruct (cl_fence_error_cb c =? 0); cbn [negb].
  - rewrite (bind_run _ _ (put_client ch c1 d) tt (put_client ch c1 d)) by done.
    rewrite (bind_run _ _ _ _ _ (update_client_run _ _ _ _ E1)), put_put_client. unfold ret. f_equal.
    rewrite <- (put_client_id d ch c E) at 2. f_equal. unfold c1. destruct c. simpl in *. by subst.
  - rewrite (bind_run _ _ _ _ _ (update_client_run _ _ _ _ E1)), put_put_client.
    set (c2 := c1 <| cl_fence_error_cb := 0 |> <| cl_fence_error_cb_userdata := 0 |>).
    pose proof (put_client_at d ch c c2 E) as E2.
    rewrite (bind_run _ _ _ _ _ (update_client_run _ _ _ _ E2)), put_put_client. unfold ret. do 2 f_equal.
    unfold c2, c1, with_error_cb. destruct c. simpl in *. by subst.
Qed.

(** The life of an error callback.  Registering a callback for a client without one
    stores it; a second registration is refused and changes nothing; deregistering
    brings the client back to what it was.  Deregistering once more is reported as
    success too, although no callback is registered. *)
Theorem error_cb_cycle d ch c cb data :
  dd_resources_ready d = true -> zget (dd_clients d) ch = Some (Some c) -> cl_error_cb_lock c = false ->
  cl_fence_error_cb c = 0 -> cl_fence_error_cb_userdata c = 0 -> cb <> 0 -> data <> 0 ->
  exists d1, msm_hw_fence_register_error_cb (Some ch) cb data d = Done 0 d1 /\
    zget (dd_clients d1) ch = Some (Some (with_error_cb cb data c)) /\
    (forall cb2 data2, cb2 <> 0 -> data2 <> 0 ->
       msm_hw_fence_register_error_cb (Some ch) cb2 data2 d1 = Done (- EINVAL) d1) /\
    msm_hw_fence_deregister_error_cb (Some ch) d1 = Done 0 d /\
    msm_hw_fence_deregister_error_cb (Some ch) d = Done 0 d.
Proof.
  intros Hr E Hl Hcb Hud Hc Hd. set (c1 := with_error_cb cb data c). exists (put_client ch c1 d).
  pose proof (put_client_at d ch c c1 E) as E1.
  assert ((cl_fence_error_cb c1 =? 0) = false) as Hne by (by apply Z.eqb_neq).
  split; [rewrite (register_error_cb_run d ch c) by done; by rewrite Hcb|]. split; [done|]. split; [|split].
  - intros cb2 data2 H1 H2. rewrite (register_error_cb_run _ ch c1) by done. by rewrite Hne.
  - rewrite (deregister_error_cb_run _ ch c1), Hne, put_put_client by done. f_equal.
    rewrite <- (put_client_id d ch c E) at 2. f_equal. unfold c1, with_error_cb. destruct c. simpl in *. by subst.
  - rewrite (deregister_error_cb_run _ ch c) by done. by rewrite Hcb.
Qed.

(** ** The Tx queue *)

(** An error for a queued fence never arrives.  The driver writes a fence's handle
    to the Tx queue with the synx flag, bit 31, and searches the queue for the handle
    without it: as long as every pending message was written by the driver,
    [msm_hw_fence_update_txq_error] finds none of them, changes nothing and reports
    success. *)
Theorem txq_error_never_matches d ch c q n r l handle error :
  dd_resources_ready d = true -> zget (dd_clients d) ch = Some (Some c) ->
  zget (cl_queues c) (HW_FENCE_TX_QUEUE - 1) = Some q -> queue_repr (dd_has_soccp d) q n r l ->
  Forall payload_wf l -> Forall (fun p => exists h, pl_hash p = Z.lor h SYNX_HW_FENCE_HANDLE_FLAG) l ->
  0 <= handle < dd_hw_fences_tbl_cnt d -> dd_hw_fences_tbl_cnt d < 2 ^ 31 -> error <> 0 ->
  msm_hw_fence_update_txq_error (Some ch) handle error MSM_HW_FENCE_UPDATE_ERROR_WITH_MOVE d = Done 0 d.
Proof.
  intros Hr E Eq Hq Hwf Hflag Hh Hcnt He. unfold msm_hw_fence_update_txq_error.
  rewrite (bind_run _ _ _ _ _ (check_client_run _ _ Hr)). cbn [Z.eqb negb].
  rewrite (bind_run get _ d d d) by done. apply Z.eqb_neq in He. rewrite He, Z.eqb_refl.
  destruct (Z.leb_spec (dd_hw_fences_tbl_cnt d) handle); [lia|]. cbn [orb negb].
  rewrite (bind_run _ _ d ch d) by done.
  assert (forall p, p ∈ l -> pl_hash p <> handle) as Hne.
  { intros p Hp Hx. rewrite Forall_forall in Hflag. destruct (Hflag p Hp) as [h Eh].
    assert (Z.testbit handle 31 = true) as Hb.
    { rewrite <- Hx, Eh, Z.lor_spec. unfold SYNX_HW_FENCE_HANDLE_FLAG.
      rewrite testbit_BIT by done. by rewrite orb_true_r. }
    rewrite Z.testbit_true in Hb by done. rewrite Z.div_small in Hb by lia. done. }
  pose proof (update_existing_spec _ _ _ _ _ handle error Hq Hwf) as Hu.
  assert (move_to_head handle error l = None) as Hm.
  { destruct l as [|p1 l]; [done|]. unfold move_to_head. destruct (Z.eqb_spec (pl_hash p1) handle) as [Hx|].
    - by destruct (Hne p1 ltac:(left)).
    - destruct l as [|p2 l]; [done|]. destruct (Z.eqb_spec (pl_hash p2) handle) as [Hx|]; [|done].
      by destruct (Hne p2 ltac:(right; left)). }
  rewrite Hm in Hu. apply wp_inv in Hu as (res & q' & Hrun & -> & ->).
  rewrite (bind_run _ _ _ _ _ (on_queue_run _ _ _ _ _ _ _ _ E Eq Hrun)).
  assert (client_moved ch (c <| cl_queues ::= zset (HW_FENCE_TX_QUEUE - 1) q |>) (dd_tick d) [] d = d) as Ed.
  { assert (c <| cl_queues ::= zset (HW_FENCE_TX_QUEUE - 1) q |> = c) as ->.
    { clear - Eq. destruct c. simpl in *. by rewrite zset_id. }
    by apply client_moved_id. }
  by rewrite Ed.
Qed.

(** ** The life of a client *)

Inductive client_op := Register | Deregister.

(** What one operation returns to its caller, as an error code. *)
Definition run_client_op (client_id_ext ch : Z) (o : client_op) : DRV Z :=
  match o with
  | Register => r <-- msm_hw_fence_register client_id_ext;
                ret (match r with inl err => err | inr (h, _) => if h =? ch then 0 else - EINVAL end)
  | Deregister => msm_hw_fence_deregister (Some ch)
  end.

Fixpoint run_client_ops (client_id_ext ch : Z) (os : list client_op) : DRV (list Z) :=
  match os with
  | [] => ret []
  | o :: os => r <-- run_client_op client_id_ext ch o; rs <-- run_client_ops client_id_ext ch os; ret (r :: rs)
  end.

(** The abstract count of registrations; [None]: an operation after the last
    deregistration. *)
Fixpoint count_ops (os : list client_op) (k : Z) : option Z :=
  match os with
  | [] => Some k
  | o :: os => if k =? 0 then None else count_ops os (match o with Register => k + 1 | Deregister => k - 1 end)
  end.

(** The client with [k] registrations; none left, it is gone. *)
Definition with_kref (k : Z) (c : hw_fence_client) : hw_fence_client := c <| cl_kref := k |>.

Definition with_refs (ch k : Z) (c : hw_fence_client) (t : nat) (d : driver_data) : driver_data :=
  d <| dd_clients ::= zset ch (if k =? 0 then None else Some (with_kref k c)) |> <| dd_tick := t |>.

(** A driver in use, and a client of it that takes no part in power votes. *)
Record client_in_use (d : driver_data) (client_id_ext ch : Z) (c : hw_fence_client) : Prop := {
  cu_enable : dd_driver_enable d = true;
  cu_ready : dd_resources_ready d = true;
  cu_alloc : forall t, env_alloc_fails (dd_env d) t = false;
  cu_ext : client_id_ext < HW_FENCE_CLIENT_MAX;
  cu_number : hw_fence_utils_get_client_id_priv (ml_client_types (dd_layout d)) client_id_ext = Some ch;
  cu_ch : 0 <= ch < dd_clients_num d /\ ch < HW_FENCE_CLIENT_MAX;
  cu_slot : 0 <= ch < zlen (dd_clients d);
  cu_id : cl_client_id c = ch;
  cu_votes : is_val_client (cl_client_id_ext c) = false }.

Lemma register_shared_run d client_id_ext ch c k t :
  client_in_use d client_id_ext ch c -> 0 < k ->
  msm_hw_fence_register client_id_ext (with_refs ch k c t d)
  = Done (inr (ch, cl_mem_descriptor c)) (with_refs ch (k + 1) c (S t) d).
Proof.
  intros [He Hr Ha Hx Hn [Hc Hm] Hs Hi Hv] Hk. set (d1 := with_refs ch k c t d).
  unfold msm_hw_fence_register. rewrite (bind_run get _ d1 d1 d1) by done.
  change (dd_driver_enable d1) with (dd_driver_enable d). rewrite He. cbn [negb].
  rewrite (bind_run hw_fence_check_hw_fence_driver _ d1 0 d1).
  2: { unfold hw_fence_check_hw_fence_driver. rewrite (bind_run get _ d1 d1 d1) by done.
       change (dd_resources_ready d1) with (dd_resources_ready d). by rewrite Hr. }
  cbn [Z.eqb negb]. destruct (Z.leb_spec HW_FENCE_CLIENT_MAX client_id_ext); [lia|].
  rewrite (bind_run _ _ d1 ch d1) by (change (dd_layout d1) with (dd_layout d); by rewrite Hn).
  destruct (Z.leb_spec HW_FENCE_CLIENT_MAX ch); [lia|].
  set (d2 := with_refs ch k c (S t) d).
  rewrite (bind_run kzalloc _ d1 (Some (env_new_addr (dd_env d) t)) d2).
  2: { transitivity (Done (if env_alloc_fails (dd_env d) t then None else Some (env_new_addr (dd_env d) t)) d2);
         [done|]. by rewrite Ha. }
  assert (zget (dd_clients d2) ch = Some (Some (with_kref k c))) as E2.
  { simpl. destruct (Z.eqb_spec k 0); [lia|]. by apply zget_zset_eq. }
  rewrite (bind_run _ _ _ _ _ (get_client_opt_run _ _ _ E2)).
  assert (registered (Some (with_kref k c)) = Some (with_kref k c)) as ->.
  { unfold registered. change (cl_kref (with_kref k c)) with k. destruct (Z.eqb_spec k 0); [lia|done]. }
  rewrite (bind_run _ _ d2 tt (with_refs ch (k + 1) c (S t) d)); [done|].
  unfold set_client, modifyM, with_refs. f_equal. destruct d. simpl. rewrite zset_zset.
  destruct (Z.eqb_spec (k + 1) 0); [lia|done].
Qed.

Lemma deregister_run d client_id_ext ch c k t :
  client_in_use d client_id_ext ch c -> 0 < k ->
  msm_hw_fence_deregister (Some ch) (with_refs ch k c t d) = Done 0 (with_refs ch (k - 1) c t d).
Proof.
  intros [He Hr Ha Hx Hn [Hc Hm] Hs Hi Hv] Hk. set (d1 := with_refs ch k c t d).
  unfold msm_hw_fence_deregister. rewrite (bind_run _ _ d1 0 d1) by by apply check_client_run.
  cbn [Z.eqb negb]. rewrite (bind_run _ _ d1 ch d1) by done.
  assert (zget (dd_clients d1) ch = Some (Some (with_kref k c))) as E1.
  { simpl. destruct (Z.eqb_spec k 0); [lia|]. by apply zget_zset_eq. }
  rewrite (bind_run _ _ _ _ _ (get_client_run _ _ _ E1)), (bind_run get _ d1 d1 d1) by done.
  change (cl_client_id (with_kref k c)) with (cl_client_id c). rewrite Hi.
  change (dd_clients_num d1) with (dd_clients_num d). destruct (Z.leb_spec (dd_clients_num d) ch); [lia|].
  set (d2 := put_client ch (with_kref (k - 1) c) d1).
  pose proof (put_client_at d1 ch _ (with_kref (k - 1) c) E1) as E2. fold d2 in E2.
  rewrite (bind_run _ _ d1 (k - 1 =? 0) (with_refs ch (k - 1) c t d)).
  - destruct (k - 1 =? 0); [|done].
    assert (_set_power_vote_if_needed (cl_client_id_ext (with_kref k c)) false (with_refs ch (k - 1) c t d)
      = Done 0 (with_refs ch (k - 1) c t d)) as Hvote.
    { unfold _set_power_vote_if_needed. rewrite (bind_run get _ _ _ _ eq_refl).
      change (cl_client_id_ext (with_kref k c)) with (cl_client_id_ext c). rewrite Hv. by rewrite andb_false_r. }
    rewrite bind_assoc. by rewrite (bind_run _ _ _ _ _ Hvote).
  - unfold client_kref_put. rewrite (bind_run _ _ d1 tt d2).
    2: { rewrite (update_client_run _ _ _ _ E1). done. }
    rewrite (bind_run _ _ _ _ _ (get_client_run _ _ _ E2)).
    change (cl_kref (with_kref (k - 1) c)) with (k - 1). unfold with_refs. destruct (Z.eqb_spec (k - 1) 0).
    + unfold hw_fence_cleanup_client. rewrite bind_assoc, (bind_run _ _ _ _ _ (get_client_run _ _ _ E2)).
      change (cl_client_id (with_kref (k - 1) c)) with (cl_client_id c). rewrite Hi.
      unfold modifyM, bind, ret. f_equal. unfold d2, d1, put_client, with_refs. destruct d. simpl. by rewrite !zset_zset.
    + unfold ret. f_equal. unfold d2, d1, put_client, with_refs. destruct d. simpl. by rewrite !zset_zset.
Qed.

Lemma client_ops_run os : forall d client_id_ext ch c k m t,
  client_in_use d client_id_ext ch c -> 0 < k \/ os = [] -> 0 <= k -> count_ops os k = Some m ->
  exists t', run_client_ops client_id_ext ch os (with_refs ch k c t d)
    = Done (replicate (length os) 0) (with_refs ch m c t' d).
Proof.
  induction os as [|o os IH]; intros d client_id_ext ch c k m t Hu Hk H0 Hm.
  - injection Hm as <-. by exists t.
  - destruct Hk as [Hk|]; [|done]. cbn [count_ops] in Hm. destruct (Z.eqb_spec k 0); [lia|].
    assert (exists t1, run_client_op client_id_ext ch o (with_refs ch k c t d)
      = Done 0 (with_refs ch (match o with Register => k + 1 | Deregister => k - 1 end) c t1 d)) as [t1 H1].
    { destruct o; cbn [run_client_op].
      - exists (S t). rewrite (bind_run _ _ _ _ _ (register_shared_run _ _ _ _ _ _ Hu Hk)). by rewrite Z.eqb_refl.
      - exists t. by apply (deregister_run d client_id_ext). }
    cbn [run_client_ops]. rewrite (bind_run _ _ _ _ _ H1).
    destruct (IH d client_id_ext ch c (match o with Register => k + 1 | Deregister => k - 1 end) m t1) as [t2 H2];
      [done| |destruct o; lia|done|].
    { destruct os as [|o' os]; [by right|]. left. destruct o; [lia|]. cbn [count_ops] in Hm.
      destruct (Z.eqb_spec (k - 1) 0); [done|lia]. }
    exists t2. by rewrite (bind_run _ _ _ _ _ H2).
Qed.

(** C28: Registrations are counted.  Registering a client that exists gives every caller
    the same handle; after any sequence of further registrations and deregistrations
    the client is there, otherwise unchanged, exactly if more registrations than
    deregistrations were made, and it is freed by the last deregistration. *)
Theorem client_registrations_counted d client_id_ext ch c os m :
  client_in_use d client_id_ext ch c -> zget (dd_clients d) ch = Some (Some c) -> 0 < cl_kref c ->
  count_ops os (cl_kref c) = Some m ->
  exists t, run_client_ops client_id_ext ch os d = Done (replicate (length os) 0) (with_refs ch m c t d).
Proof.
  intros Hu E Hk Hm. assert (d = with_refs ch (cl_kref c) c (dd_tick d) d) as Hd.
  { unfold with_refs. destruct (Z.eqb_spec (cl_kref c) 0); [lia|]. unfold with_kref.
    replace (c <| cl_kref := cl_kref c |>) with c by (by destruct c). destruct d. simpl in *. by rewrite zset_id. }
  destruct (client_ops_run os d client_id_ext ch c (cl_kref c) m (dd_tick d)) as [t Ht]; [done|by left|lia|done|].
  exists t. by rewrite <- Hd in Ht.
Qed.

(** ** Waiting *)

Lemma wait_v2_run d ch c l f0 handles r i handles' d1 n :
  dd_resources_ready d = true -> dd_fctl_ready d = true -> zget (dd_clients d) ch = Some (Some c) ->
  zget l 0 = Some (Some f0) -> wait_all (Z.to_nat n) 0 ch l None handles d = Done (r, i, handles') d1 ->
  msm_hw_fence_wait_update_v2 (Some ch) (Some l) handles None n d
  = (if r =? 0 then ret (0, handles') else unwait_all i handles';;; ret (r, handles')) d1.
Proof.
  intros Hr Hf Ec El Hw. unfold msm_hw_fence_wait_update_v2.
  rewrite (bind_run _ _ _ _ _ (check_fctl_run d ch Hr Hf)). cbn [Z.eqb negb].
  rewrite (bind_run _ _ d (Some f0) d) by (by rewrite El). rewrite (bind_run _ _ d ch d) by done.
  rewrite (bind_run _ _ _ _ _ (get_client_run _ _ _ Ec)). cbn [andb].
  rewrite (bind_run _ _ _ _ _ Hw). by destruct (Z.eqb_spec r 0).
Qed.

(** A failed wait without handles crashes.  A caller that does not ask for the
    handles may pass none; when a fence behind the first one cannot be waited for,
    giving back the references already taken reads the missing array. *)
Theorem wait_failure_without_handles d ch c l f0 r i handles' d1 n :
  dd_resources_ready d = true -> dd_fctl_ready d = true -> zget (dd_clients d) ch = Some (Some c) ->
  zget l 0 = Some (Some f0) -> wait_all (Z.to_nat n) 0 ch l None None d = Done (r, i, handles') d1 ->
  r <> 0 -> 0 < i ->
  msm_hw_fence_wait_update_v2 (Some ch) (Some l) None None n d = Faulted BadAccess.
Proof.
  intros Hr Hf Ec El Hw Hne Hi. rewrite (wait_v2_run _ _ _ _ _ _ _ _ _ _ _ Hr Hf Ec El Hw).
  apply Z.eqb_neq in Hne. rewrite Hne.
  assert (forall k i0 d0 r' i' h' d', wait_all k i0 ch l None None d0 = Done (r', i', h') d' -> h' = None) as Hnone.
  { clear. induction k as [|k IH]; intros i0 d0 r' i' h' d' H; cbn [wait_all] in H; [by injection H|].
    unfold bind, deref, ret in H. destruct (zget l i0); [|done]. destruct (wait_one _ _ _ _) as [[r1 h1] d2|]; [|done].
    destruct (negb (r1 =? 0)); [by injection H|]. by eapply IH. }
  rewrite (Hnone _ _ _ _ _ _ _ Hw). unfold unwait_all.
  destruct (Z.to_nat i) as [|k] eqn:Ek; [lia|]. done.
Qed.

(** ** Reset *)

Lemma reset_done_id c c' w f : cl_client_id c' = cl_client_id c -> reset_done c' w f -> reset_done c w f.
Proof. unfold reset_done, waits_for. by intros ->. Qed.

(** Was the entry one the client waited for and gave its reference back for? *)
Definition gave_back (d : driver_data) (c : hw_fence_client) (reset_flags h : Z) : bool :=
  waits_for c (entry_of d h) && negb (keeps reset_flags).

Lemma entry_of_at d h f : fence_at d h = Some f -> entry_of d h = f.
Proof. unfold entry_of. by intros ->. Qed.

(** One turn of the sweep, from any state the sweep has led to. *)
Lemma reset_turn d d1 ch c i reset_flags :
  drv_ok d1 -> older d d1 -> zget (dd_clients d) ch = Some (Some c) -> 0 <= cl_client_id c ->
  0 <= i < dd_hw_fences_tbl_cnt d1 ->
  exists r d2 f', hw_fence_utils_cleanup_fence ch i reset_flags d1 = Done r d2 /\ drv_ok d2 /\ older d1 d2 /\
    fence_at d2 i = Some f' /\ reset_done c (gave_back d c reset_flags i) f'.
Proof.
  intros Hd1 Hol Ec Hc Hi. destruct (older_client _ _ _ _ Hol Ec) as (c1 & Ec1 & Hid).
  destruct (fence_at_is_Some d1 i) as [f1 E1]; [auto with fence|done|].
  destruct (older_from _ _ _ _ Hol E1) as (f & E & Ha).
  destruct (cleanup_fence_resets d1 ch c1 i f1 reset_flags Hd1 Ec1) as (r & d2 & f' & Hr & Hd2 & Ho2 & E2 & H1 & H2);
    [lia|done|].
  exists r, d2, f'. do 4 (split; [done|]). apply (reset_done_id _ c1); [done|]. split; [done|].
  intros Hall Hgave. apply H2; [done|]. unfold gave_back in Hgave. rewrite (entry_of_at _ _ _ E) in Hgave.
  destruct (keeps reset_flags); [by rewrite andb_false_r|]. rewrite andb_true_r in *.
  apply (ages_waits c1 f); [lia|done|]. unfold waits_for in *. by rewrite Hid.
Qed.

Lemma reset_sweep d ch c reset_flags :
  drv_ok d -> zget (dd_clients d) ch = Some (Some c) -> 0 <= cl_client_id c ->
  wp (for_n (Z.to_nat (dd_hw_fences_tbl_cnt d)) 0
        (fun i _ => hw_fence_utils_cleanup_fence ch i reset_flags;;; ret tt) tt)
    (fun _ d' => drv_ok d' /\ older d d' /\
       forall h f', fence_at d' h = Some f' -> reset_done c (gave_back d c reset_flags h) f') d.
Proof.
  intros Hd Ec Hc. pose proof (tw_cnt _ (to_wf _ (do_table _ Hd))) as Hcnt.
  set (n := Z.to_nat (dd_hw_fences_tbl_cnt d)).
  set (I := fun (i : Z) (_ : unit) d' => drv_ok d' /\ older d d' /\
              dd_hw_fences_tbl_cnt d' = dd_hw_fences_tbl_cnt d /\
              forall h f', 0 <= h < i -> fence_at d' h = Some f' -> reset_done c (gave_back d c reset_flags h) f').
  eapply wp_mono.
  - apply (wp_for_n I); [split; [done|]; split; [reflexivity|]; split; [done|lia]|].
    intros i [] d1 Hi (Hd1 & Hol & Hct & Hdone).
    destruct (reset_turn d d1 ch c i reset_flags) as (r & d2 & f' & Hr & Hd2 & Ho2 & E2 & Hf'); try done; [lia|].
    apply wp_bind. eapply wp_done; [done|]. apply wp_ret. split; [done|]. split; [by transitivity d1|].
    assert (dd_hw_fences_tbl_cnt d2 = dd_hw_fences_tbl_cnt d1) as Hct2.
    { pose proof (fence_at_in _ _ _ (do_table _ Hd2) E2). rewrite <- (tw_tbl d1), <- (tw_tbl d2) by auto with fence.
      symmetry. by apply older_len. }
    split; [congruence|]. intros h g Hh Eg. destruct (decide (h = i)) as [->|]; [by assert (g = f') as -> by congruence|].
    destruct (older_from _ _ _ _ Ho2 Eg) as (g1 & Eg1 & Ha). apply (reset_done_ages c _ g1); [done|done|].
    apply Hdone; [lia|done].
  - intros [] d' (Hd' & Hol & Hct & Hdone). split; [done|]. split; [done|]. intros h f' E'. apply Hdone; [|done].
    pose proof (fence_at_in _ _ _ (do_table _ Hd') E'). lia.
Qed.

(** C13: A reset leaves nothing of the client behind.  It returns 0 with every lock free;
    afterwards no fence of the table waits for the client, every fence the client
    created is signaled or free - unless the client waited for that fence itself and the
    reset gave its reference back, then the fence is left unsignaled -, its Tx queue is
    empty, and so is its Rx queue if the driver writes it ([cl_update_rxq]) and its lock is
    in the lock table; any other Rx queue is not reset.  No other client starts to
    wait for anything, and no signaled fence becomes unsignaled. *)
Theorem reset_client_clears d ch c reset_flags :
  drv_ok d -> dd_resources_ready d = true -> zget (dd_clients d) ch = Some (Some c) -> 0 <= cl_client_id c ->
  exists d' c', msm_hw_fence_reset_client (Some ch) reset_flags d = Done 0 d' /\ drv_ok d' /\ older d d' /\
    (forall h f', fence_at d' h = Some f' ->
       waits_for c f' = false /\
       (hf_fence_allocator f' = cl_client_id c -> gave_back d c reset_flags h = false -> settled f')) /\
    zget (dd_clients d') ch = Some (Some c') /\ drained_at (dd_has_soccp d') 0 c' /\
    (cl_update_rxq c' = true -> client_lock_idx (cl_client_id c') < dd_client_lock_tbl_cnt d' ->
     drained_at (dd_has_soccp d') 1 c').
Proof.
  intros Hd Hr Ec Hc. pose proof (reset_sweep d ch c reset_flags Hd Ec Hc) as Hw.
  apply wp_inv in Hw as ([] & d1 & Hrun & Hd1 & Hol & Hdone).
  destruct (older_client _ _ _ _ Hol Ec) as (c1 & Ec1 & Hid).
  destruct (reset_queues_run d1 ch c1 Hd1 Ec1) as (c' & Hq & Hc' & Hsame & Htx & Hrx).
  pose proof (steps_reset_queues ch d1 tt _ Hq) as Ho2. set (d' := client_moved ch c' _ [] d1) in *.
  exists d', c'. split; [|split; [by eapply drv_ok_moved|split; [by transitivity d1|split]]].
  - unfold msm_hw_fence_reset_client. rewrite (bind_run _ _ _ _ _ (check_client_run _ _ Hr)).
    cbn [Z.eqb negb]. rewrite (bind_run _ _ d ch d), (bind_run get _ d d d) by done.
    rewrite (bind_run _ _ _ _ _ Hrun). by rewrite (bind_run _ _ _ _ _ Hq).
  - intros h f' E'. exact (Hdone h f' E').
  - split; [simpl; apply zget_zset_eq; by eapply zget_Some|]. split; [done|].
    unfold same_client in Hsame. rewrite Hsame. exact Hrx.
Qed.

(** ** A new client *)

(** The signals of the client are enabled or need no enabling. *)
Definition signals_ready (d : driver_data) (id : Z) : bool :=
  (id =? HW_FENCE_CLIENT_ID_CTX0) ||
  (negb (is_val_client id) &&
   (((HW_FENCE_CLIENT_ID_CTL0 <=? id) && (id <=? HW_FENCE_CLIENT_ID_CTL5) && dd_ipcc_dpu_initialized d) ||
    ((HW_FENCE_CLIENT_ID_IPE <=? id) && (id <=? HW_FENCE_CLIENT_ID_IFE11 + MSM_HW_FENCE_MAX_SIGNAL_PER_CLIENT - 1)))).

(** A driver in use, a free place for the client, its row at the interrupt controller,
    and its region, in a memory of [n] dwords. *)
Record can_register (d : driver_data) (client_id_ext ch : Z) (row : client_ipc_map) (n slots start : Z)
    (desc : client_type_desc) (p : queue_params) : Prop := {
  cr_enable : dd_driver_enable d = true;
  cr_ready : dd_resources_ready d = true;
  cr_alloc : env_alloc_fails (dd_env d) (dd_tick d) = false;
  cr_ext : client_id_ext < HW_FENCE_CLIENT_MAX;
  cr_number : hw_fence_utils_get_client_id_priv (ml_client_types (dd_layout d)) client_id_ext = Some ch;
  cr_ch : 0 <= ch < dd_clients_num d /\ ch < HW_FENCE_CLIENT_MAX;
  cr_slot : exists o, zget (dd_clients d) ch = Some o /\ registered o = None;
  cr_row : zget (dd_ipc_clients_table d) ch = Some row;
  cr_ids : 0 < im_ipc_client_id_virt row /\ 0 < im_ipc_client_id_phys row /\ 0 <= im_ipc_signal_id row;
  cr_mem : env_shared_mem (dd_env d) (S (dd_tick d)) = replicate (Z.to_nat n) 0;
  cr_region : region_fits (layout_of d) n ch slots start desc p;
  cr_queues : 0 < ct_queues_num desc <= HW_FENCE_CLIENT_QUEUES;
  cr_signals : signals_ready d client_id_ext = true }.

Definition new_client (d : driver_data) (client_id_ext ch : Z) (row : client_ipc_map) (desc : client_type_desc)
    (start : Z) (queues : list hw_fence_queue) : hw_fence_client :=
  let rx := negb (ct_queues_num desc <? HW_FENCE_CLIENT_QUEUES) in
  mk_client ch client_id_ext (dd_res_start d + start, ct_mem_size desc)
    (queues ++ drop (length queues) [zero_queue; zero_queue]) (ct_queues_num desc) 0 0 false
    (im_ipc_signal_id row) (im_ipc_client_id_virt row) (im_ipc_client_id_phys row)
    (rx && im_update_rxq row) (rx && im_signaled_update_rxq row) (im_signaled_send_ipc row)
    (im_txq_update_send_ipc row) (ct_skip_fctl_ref desc) (dd_next_context d) 0 1 0.

(** The driver with client [c] at [ch], after [t] observations. *)
Definition with_client (ch : Z) (c : hw_fence_client) (t : nat) (d : driver_data) : driver_data :=
  put_client ch c (at_tick t d).

Section new_client.
Context (d : driver_data) (client_id_ext ch : Z) (row : client_ipc_map) (n slots start : Z)
  (desc : client_type_desc) (p : queue_params).
Context (Hcr : can_register d client_id_ext ch row n slots start desc p).

Lemma with_client_at c t : zget (dd_clients (with_client ch c t d)) ch = Some (Some c).
Proof. destruct (cr_slot _ _ _ _ _ _ _ _ _ Hcr) as (o & E & _). simpl. apply zget_zset_eq. by eapply zget_Some. Qed.

Lemma update_with_client g c t :
  update_client ch g (with_client ch c t d) = Done tt (with_client ch (g c) t d).
Proof.
  rewrite (update_client_run _ _ _ _ (with_client_at c t)). unfold with_client. by rewrite put_put_client.
Qed.

Lemma get_with_client c t : get_client ch (with_client ch c t d) = Done c (with_client ch c t d).
Proof. apply get_client_run, with_client_at. Qed.

Lemma field_with_client {A} (f : client_ipc_map -> A) bad c t :
  ipc_field f bad ch (with_client ch c t d) = Done (f row) (with_client ch c t d).
Proof.
  destruct (cr_ch _ _ _ _ _ _ _ _ _ Hcr) as [H1 H2].
  apply ipc_field_run; [exact (cr_row _ _ _ _ _ _ _ _ _ Hcr)|exact H1|].
  assert (HW_FENCE_CLIENT_MAX < 2 ^ 32) by done. unfold in_u32. lia.
Qed.

Lemma init_client_ipc_run c t :
  init_client_ipc ch (with_client ch c t d)
  = Done 0 (with_client ch (c <| cl_ipc_client_vid := im_ipc_client_id_virt row |>
      <| cl_ipc_client_pid := im_ipc_client_id_phys row |> <| cl_ipc_signal_id := im_ipc_signal_id row |>
      <| cl_update_rxq := im_update_rxq row |> <| cl_signaled_update_rxq := im_signaled_update_rxq row |>
      <| cl_signaled_send_ipc := im_signaled_send_ipc row |>
      <| cl_txq_update_send_ipc := im_txq_update_send_ipc row |>) t d).
Proof.
  destruct (cr_ids _ _ _ _ _ _ _ _ _ Hcr) as (H1 & H2 & H3).
  unfold init_client_ipc, hw_fence_ipcc_get_client_virt_id, hw_fence_ipcc_get_client_phys_id, hw_fence_ipcc_get_signal_id,
    hw_fence_ipcc_needs_rxq_update, hw_fence_ipcc_signaled_needs_rxq_update,
    hw_fence_ipcc_signaled_needs_ipc_irq, hw_fence_ipcc_txq_update_needs_ipc_irq.
  rewrite (bind_run _ _ _ _ _ (field_with_client _ _ _ _)), (bind_run _ _ _ _ _ (field_with_client _ _ _ _)).
  rewrite (bind_run _ _ _ _ _ (update_with_client _ _ _)).
  destruct (Z.leb_spec (im_ipc_client_id_virt row) 0); [lia|].
  destruct (Z.leb_spec (im_ipc_client_id_phys row) 0); [lia|]. cbn [orb].
  rewrite (bind_run _ _ _ _ _ (field_with_client _ _ _ _)), (bind_run _ _ _ _ _ (update_with_client _ _ _)).
  destruct (Z.ltb_spec (im_ipc_signal_id row) 0); [lia|].
  do 4 rewrite (bind_run _ _ _ _ _ (field_with_client _ _ _ _)).
  by rewrite (bind_run _ _ _ _ _ (update_with_client _ _ _)).
Qed.

Lemma controller_signal_run c t :
  cl_client_id_ext c = client_id_ext ->
  hw_fence_init_controller_signal ch (with_client ch c t d) = Done 0 (with_client ch c t d).
Proof.
  intros Hid. pose proof (cr_signals _ _ _ _ _ _ _ _ _ Hcr) as Hs. unfold signals_ready in Hs.
  unfold hw_fence_init_controller_signal. rewrite (bind_run _ _ _ _ _ (get_with_client c t)).
  rewrite (bind_run get _ _ _ _ eq_refl). rewrite Hid.
  change (dd_ipcc_dpu_initialized (with_client ch c t d)) with (dd_ipcc_dpu_initialized d).
  destruct (client_id_ext =? HW_FENCE_CLIENT_ID_CTX0); [done|]. cbn [orb] in Hs.
  destruct (is_val_client client_id_ext); [done|]. cbn [negb andb] in Hs.
  destruct ((HW_FENCE_CLIENT_ID_CTL0 <=? client_id_ext) && (client_id_ext <=? HW_FENCE_CLIENT_ID_CTL5)) eqn:Hctl.
  - destruct (dd_ipcc_dpu_initialized d); [done|]. cbn [andb orb] in Hs. exfalso.
    apply andb_true_iff in Hs as [H1%Z.leb_le _]. apply andb_true_iff in Hctl as [_ H2%Z.leb_le].
    assert (HW_FENCE_CLIENT_ID_CTL5 < HW_FENCE_CLIENT_ID_IPE) by done. lia.
  - cbn [andb orb] in Hs. by rewrite Hs.
Qed.

Lemma init_queues_run c t :
  cl_client_id c = ch -> t = S (dd_tick d) -> cl_queues c = [zero_queue; zero_queue] ->
  exists queues, zlen queues = ct_queues_num desc /\
    (forall i q, zget queues i = Some q -> queue_fresh (dd_has_soccp d) slots i q) /\
    init_client_queues ch (with_client ch c t d)
    = Done 0 (with_client ch
        (let rx := negb (ct_queues_num desc <? HW_FENCE_CLIENT_QUEUES) in
         c <| cl_queues_num := ct_queues_num desc |>
           <| cl_update_rxq ::= fun b => rx && b |> <| cl_signaled_update_rxq ::= fun b => rx && b |>
           <| cl_skip_fctl_ref := ct_skip_fctl_ref desc |>
           <| cl_mem_descriptor := (dd_res_start d + start, ct_mem_size desc) |>
           <| cl_queues := queues ++ drop (length queues) [zero_queue; zero_queue] |>) (S t) d).
Proof.
  intros Hid Ht Hqs. pose proof (cr_region _ _ _ _ _ _ _ _ _ Hcr) as Hreg.
  pose proof (rf_region _ _ _ _ _ _ _ Hreg) as Hrg. pose proof (cr_queues _ _ _ _ _ _ _ _ _ Hcr) as Hn.
  destruct (alloc_fresh (layout_of d) n (dd_res_start d) ch slots start desc p Hreg ltac:(lia))
    as (tbl & queues & Hal & Hlen & Hq). exists queues. split; [done|]. split; [exact Hq|].
  unfold init_client_queues. rewrite (bind_run get _ _ _ _ eq_refl).
  change (layout_of (with_client ch c t d)) with (layout_of d).
  unfold hw_fence_utils_get_queues_num, hw_fence_utils_get_skip_fctl_ref. rewrite Hrg.
  rewrite (bind_run _ _ _ _ _ (update_with_client _ _ _)).
  destruct (Z.eqb_spec (ct_queues_num desc) 0); [lia|].
  set (rx := negb (ct_queues_num desc <? HW_FENCE_CLIENT_QUEUES)).
  set (c1 := c <| cl_queues_num := ct_queues_num desc |> <| cl_update_rxq ::= fun b => rx && b |>
               <| cl_signaled_update_rxq ::= fun b => rx && b |>).
  rewrite (bind_run _ _ _ tt (with_client ch c1 t d)).
  2: { unfold c1, rx. destruct (ct_queues_num desc <? HW_FENCE_CLIENT_QUEUES).
       - by rewrite update_with_client.
       - by destruct c. }
  rewrite (bind_run _ _ _ _ _ (update_with_client _ _ _)). set (c2 := c1 <| cl_skip_fctl_ref := _ |>).
  unfold alloc_client_resources. rewrite (bind_run _ _ _ _ _ (get_with_client c2 t)).
  rewrite (bind_run get _ _ _ _ eq_refl). rewrite (bind_run tick _ _ t (with_client ch c2 (S t) d)) by done.
  change (layout_of (with_client ch c2 t d)) with (layout_of d).
  change (dd_env (with_client ch c2 t d)) with (dd_env d).
  change (dd_res_start (with_client ch c2 t d)) with (dd_res_start d).
  change (cl_client_id c2) with (cl_client_id c). rewrite Hid, Ht, (cr_mem _ _ _ _ _ _ _ _ _ Hcr), Hal, <- Ht.
  rewrite (bind_run _ _ _ _ _ (update_with_client _ _ _)). unfold ret. do 2 f_equal.
  unfold c2, c1. destruct c. simpl in *. by subst.
Qed.

Lemma init_client_run :
  exists queues, zlen queues = ct_queues_num desc /\
    (forall i q, zget queues i = Some q -> queue_fresh (dd_has_soccp d) slots i q) /\
    init_client ch client_id_ext (with_client ch fresh_client (S (dd_tick d)) d)
    = Done 0 ((with_client ch (new_client d client_id_ext ch row desc start queues) (S (S (dd_tick d))) d)
                <| dd_next_context ::= fun n => u64 (n + 1) |>).
Proof.
  set (c0 := fresh_client <| cl_client_id := ch |> <| cl_client_id_ext := client_id_ext |>).
  pose proof (init_client_ipc_run c0 (S (dd_tick d))) as Hipc. set (c1 := c0 <| cl_ipc_client_vid := _ |> <| cl_ipc_client_pid := _ |>
    <| cl_ipc_signal_id := _ |> <| cl_update_rxq := _ |> <| cl_signaled_update_rxq := _ |>
    <| cl_signaled_send_ipc := _ |> <| cl_txq_update_send_ipc := _ |>) in Hipc.
  destruct (init_queues_run c1 (S (dd_tick d)) eq_refl eq_refl eq_refl) as (queues & Hlen & Hq & Hqs).
  exists queues. split; [done|]. split; [done|].
  unfold init_client. rewrite (bind_run _ _ _ _ _ (update_with_client _ _ _)). fold c0.
  rewrite (bind_run _ _ _ _ _ Hipc). cbn [Z.eqb negb]. rewrite (bind_run _ _ _ _ _ Hqs). cbn [Z.eqb negb].
  match type of Hqs with _ = Done 0 (with_client ch ?c _ _) => set (c2 := c) end.
  rewrite (bind_run _ _ _ _ _ (controller_signal_run c2 (S (S (dd_tick d))) eq_refl)). cbn [Z.eqb negb].
  rewrite (bind_run hw_fence_init_controller_resources _ _ 0 _ eq_refl). cbn [Z.eqb negb].
  set (d2 := with_client ch c2 (S (S (dd_tick d))) d). rewrite (bind_run get _ d2 d2 d2) by done.
  set (d3 := d2 <| dd_next_context ::= fun n => u64 (n + 1) |>). rewrite (bind_run _ _ d2 tt d3) by done.
  assert (zget (dd_clients d3) ch = Some (Some c2)) as E3 by (exact (with_client_at c2 _)).
  rewrite (bind_run _ _ _ _ _ (update_client_run d3 ch c2 _ E3)).
  unfold _set_power_vote_if_needed. rewrite (bind_run get _ _ _ _ eq_refl).
  pose proof (cr_signals _ _ _ _ _ _ _ _ _ Hcr) as Hs. unfold signals_ready in Hs.
  assert (is_val_client client_id_ext = false) as ->.
  { destruct (Z.eqb_spec client_id_ext HW_FENCE_CLIENT_ID_CTX0) as [->|]; [done|]. cbn [orb] in Hs.
    by destruct (is_val_client client_id_ext). }
  rewrite andb_false_r. unfold ret. f_equal. unfold d3, d2, with_client, put_client.
  destruct d. simpl. rewrite zset_zset. reflexivity.
Qed.

Lemma new_client_ok queues :
  zlen queues = ct_queues_num desc ->
  (forall i q, zget queues i = Some q -> queue_fresh (dd_has_soccp d) slots i q) ->
  client_ok (dd_has_soccp d) ch (new_client d client_id_ext ch row desc start queues).
Proof.
  intros Hlen Hq. pose proof (cr_queues _ _ _ _ _ _ _ _ _ Hcr) as Hn.
  set (all := queues ++ drop (length queues) [zero_queue; zero_queue]).
  assert (forall i q, zget all i = Some q -> i < ct_queues_num desc -> queue_fresh (dd_has_soccp d) slots i q) as Hin.
  { intros i q E Hi. apply Hq. unfold all in E. by rewrite zget_app_l in E by lia. }
  split; simpl; try done.
  - fold all. unfold all. rewrite zlen_app. pose proof (zlen_nonneg (drop (length queues) [zero_queue; zero_queue])). lia.
  - intros [Hrx _]%andb_true_iff. apply negb_true_iff, Z.ltb_ge in Hrx. unfold HW_FENCE_CLIENT_QUEUES in Hrx. lia.
  - fold all. intros i q E Hsk. destruct (decide (i < ct_queues_num desc)); [by apply (Hin i q E)|].
    assert (q = zero_queue) as ->; [|done]. unfold all in E.
    replace i with (zlen queues + (i - zlen queues)) in E by lia. rewrite zget_app_r in E by lia.
    apply zget_elem, list_elem_of_In in E.
    assert (Forall (fun x => x = zero_queue) (drop (length queues) [zero_queue; zero_queue])) as Hz
      by (apply Forall_drop; by repeat constructor).
    rewrite Forall_forall in Hz. by apply Hz.
  - fold all. intros i q Hi E. by eapply queue_fresh_ok, Hin.
Qed.

Lemma register_new_run :
  exists queues, zlen queues = ct_queues_num desc /\
    (forall i q, zget queues i = Some q -> queue_fresh (dd_has_soccp d) slots i q) /\
    msm_hw_fence_register client_id_ext d
    = Done (inr (ch, (dd_res_start d + start, ct_mem_size desc)))
        ((with_client ch (new_client d client_id_ext ch row desc start queues) (S (S (dd_tick d))) d)
           <| dd_next_context ::= fun n => u64 (n + 1) |>).
Proof.
  destruct init_client_run as (queues & Hlen & Hq & Hrun). exists queues. split; [done|]. split; [done|].
  destruct (cr_slot _ _ _ _ _ _ _ _ _ Hcr) as (o & Eo & Ho). destruct (cr_ch _ _ _ _ _ _ _ _ _ Hcr) as [Hc Hm].
  unfold msm_hw_fence_register. rewrite (bind_run get _ d d d) by done.
  rewrite (cr_enable _ _ _ _ _ _ _ _ _ Hcr). cbn [negb].
  rewrite (bind_run hw_fence_check_hw_fence_driver _ d 0 d).
  2: { unfold hw_fence_check_hw_fence_driver. rewrite (bind_run get _ d d d) by done.
       by rewrite (cr_ready _ _ _ _ _ _ _ _ _ Hcr). }
  cbn [Z.eqb negb]. pose proof (cr_ext _ _ _ _ _ _ _ _ _ Hcr).
  destruct (Z.leb_spec HW_FENCE_CLIENT_MAX client_id_ext); [lia|].
  rewrite (bind_run _ _ d ch d) by (by rewrite (cr_number _ _ _ _ _ _ _ _ _ Hcr)).
  destruct (Z.leb_spec HW_FENCE_CLIENT_MAX ch); [lia|].
  rewrite (bind_run kzalloc _ d (Some (env_new_addr (dd_env d) (dd_tick d))) (ticked d)).
  2: { unfold kzalloc, bind, get, tick, put, ret. simpl. by rewrite (cr_alloc _ _ _ _ _ _ _ _ _ Hcr). }
  rewrite (bind_run _ _ (ticked d) o (ticked d)) by (by apply get_client_opt_run). rewrite Ho.
  rewrite (bind_run _ _ (ticked d) tt (with_client ch fresh_client (S (dd_tick d)) d)) by done.
  rewrite (bind_run _ _ _ _ _ Hrun). cbn [Z.eqb negb].
  set (c := new_client d client_id_ext ch row desc start queues).
  match goal with |- bind _ _ ?d' = _ => assert (zget (dd_clients d') ch = Some (Some c)) as Ec
    by (exact (with_client_at c _)) end.
  by rewrite (bind_run _ _ _ _ _ (get_client_run _ _ _ Ec)).
Qed.
End new_client.

(** C24: Registering a client for the first time.  In a driver in use, with the client's
    place free and its region of the shared memory still zero, the call returns the
    client's handle and the address and size of its queues; the new client is known to
    the interrupt controller as its row of the table says, has one registration, takes
    part in Rx-queue messages only if it has an Rx queue, and every queue it has is
    empty; the driver is good again. *)
Theorem register_new_client d client_id_ext ch row n slots start desc p :
  drv_ok d -> can_register d client_id_ext ch row n slots start desc p ->
  exists d' c, msm_hw_fence_register client_id_ext d
      = Done (inr (ch, (dd_res_start d + start, ct_mem_size desc))) d' /\
    drv_ok d' /\ zget (dd_clients d') ch = Some (Some c) /\
    (forall id, id <> ch -> zget (dd_clients d') id = zget (dd_clients d) id) /\
    dd_hw_fences_tbl d' = dd_hw_fences_tbl d /\ dd_next_context d' = u64 (dd_next_context d + 1) /\
    cl_client_id_ext c = client_id_ext /\ cl_kref c = 1 /\ cl_context_id c = dd_next_context d /\
    cl_ipc_client_vid c = im_ipc_client_id_virt row /\ cl_ipc_client_pid c = im_ipc_client_id_phys row /\
    cl_ipc_signal_id c = im_ipc_signal_id row /\
    cl_update_rxq c = (im_update_rxq row && (1 <? ct_queues_num desc)) /\
    forall i, 0 <= i < ct_queues_num desc ->
      exists q, zget (cl_queues c) i = Some q /\ queue_repr (dd_has_soccp d) q slots 0 [].
Proof.
  intros Hd Hcr. destruct (register_new_run _ _ _ _ _ _ _ _ _ Hcr) as (queues & Hlen & Hq & Hrun).
  set (c := new_client d client_id_ext ch row desc start queues) in *. set (d' := modify _ _ _) in Hrun.
  pose proof (new_client_ok _ _ _ _ _ _ _ _ _ Hcr queues Hlen Hq) as Hck. fold c in Hck.
  pose proof (cr_queues _ _ _ _ _ _ _ _ _ Hcr) as Hn.
  exists d', c. split; [done|]. split.
  { destruct Hd as [Ht Hl Hlc Hc Hr He Hg]. split; simpl; try done.
    - by apply (table_ok_frame (fun d => (with_client ch c (S (S (dd_tick d))) d) <| dd_next_context ::= fun n => u64 (n + 1) |>) d).
    - intros id c0. rewrite zget_zset. case_decide as Hdd; [|apply Hc].
      intros [= <-]. by destruct Hdd as [<- _].
    - by rewrite zlen_zset. }
  split; [exact (with_client_at _ _ _ _ _ _ _ _ _ Hcr c _)|].
  split; [intros id Hid; simpl; by rewrite zget_zset_ne by done|]. do 8 (split; [done|]). split.
  - change (cl_update_rxq c) with (negb (ct_queues_num desc <? HW_FENCE_CLIENT_QUEUES) && im_update_rxq row).
    rewrite andb_comm. f_equal. unfold HW_FENCE_CLIENT_QUEUES in *. lia.
  - intros i Hi. destruct (zget_is_Some queues i) as [q Eq]; [lia|]. exists q. split.
    + change (cl_queues c) with (queues ++ drop (length queues) [zero_queue; zero_queue]).
      by rewrite zget_app_l by lia.
    + by eapply queue_fresh_empty, Hq.
Qed.

(** ** Witnesses *)

Lemma error_cb_witness :
  exists d1, msm_hw_fence_register_error_cb (Some 2) 77 78 joined8 = Done 0 d1 /\
    zget (dd_clients d1) 2 = Some (Some callback_client) /\
    msm_hw_fence_deregister_error_cb (Some 2) d1 = Done 0 joined8.
Proof.
  destruct (error_cb_cycle joined8 2 rx_client 77 78) as (d1 & H1 & H2 & _ & H3 & _); try done.
  by exists d1.
Defined.

(** A Tx queue with a message of the driver for the fence with handle 5. *)
Definition flagged_payload : queue_payload :=
  new_payload 1 7 9 (Z.lor 5 SYNX_HW_FENCE_HANDLE_FLAG) 0 0 0 0 0.

Definition flagged_queue : hw_fence_queue := enqueued true example_queue 3 0 [] flagged_payload.

Definition pending8 : driver_data :=
  joined8 <| dd_has_soccp := true |>
          <| dd_clients := [None; None; Some (rx_client <| cl_queues := [flagged_queue; example_queue] |>)] |>.

Lemma txq_error_witness :
  msm_hw_fence_update_txq_error (Some 2) 5 (- EINVAL) MSM_HW_FENCE_UPDATE_ERROR_WITH_MOVE pending8
  = Done 0 pending8.
Proof.
  apply (txq_error_never_matches pending8 2 (rx_client <| cl_queues := [flagged_queue; example_queue] |>)
           flagged_queue 3 0 [flagged_payload]); try done.
  - apply (queue_repr_enqueued true example_queue 3 0 []); [apply example_queue_repr|done|].
    by vm_compute.
  - repeat constructor; vm_compute; done.
  - constructor; [|done]. by exists 5.
Defined.

(** The driver in use, the client registered once. *)
Definition in_use8 : driver_data :=
  joined8 <| dd_driver_enable := true |> <| dd_clients_num := 3 |>.

Lemma client_registrations_witness :
  exists t, run_client_ops 2 2 [Register; Deregister; Register; Deregister; Deregister] in_use8
    = Done [0; 0; 0; 0; 0] (with_refs 2 0 rx_client t in_use8).
Proof.
  apply (client_registrations_counted in_use8 2 2 rx_client [Register; Deregister; Register; Deregister; Deregister] 0);
    [|done..]. split; done.
Defined.

Lemma wait_failure_witness :
  msm_hw_fence_wait_update_v2 (Some 2) (Some [Some 91; Some 93]) None None 2 arrays8_dma = Faulted BadAccess.
Proof.
  apply (wait_failure_without_handles arrays8_dma 2 rx_client [Some 91; Some 93] 91 (- EINVAL) 1 None
           (after (wait_one 2 (Some 91) 0) arrays8_dma)); [done..| |done|done].
  vm_compute; reflexivity.
Defined.

(** The reset of a client that waits for the join fence. *)
Lemma reset_client_witness :
  exists d', msm_hw_fence_reset_client (Some 2) 0 joined8 = Done 0 d' /\
    waits_for rx_client (entry_of d' join_h) = false /\ waits_for rx_client (entry_of joined8 join_h) = true.
Proof.
  destruct (reset_client_clears joined8 2 rx_client 0 joined8_ok) as (d' & c' & Hr & Hd' & Hol & Hdone & _);
    [done|done|by vm_compute|].
  exists d'. split; [done|]. split; [|vm_compute; reflexivity].
  unfold entry_of. destruct (fence_at d' join_h) as [f|] eqn:E; [|done]. by apply (Hdone _ _ E).
Defined.

(** The memory laid out as the example device tree says, and still zero. *)
Definition example_layout : mem_layout := Eval vm_compute in
  match hw_fence_utils_parse_dt_props example_dt (false, false) (blank_layout (2 ^ 24)) with
  | Done _ l => l | Faulted _ => no_layout end.

Definition reg8 : driver_data :=
  joined8 <| dd_driver_enable := true |> <| dd_clients_num := 3 |> <| dd_layout := example_layout |>
    <| dd_ipc_clients_table := take 3 hw_fence_clients_ipc_map_sun |>
    <| dd_env ::= fun e => e <| env_shared_mem := fun _ => replicate (Z.to_nat 524288) 0 |> |>.

Lemma reg8_ok : drv_ok reg8.
Proof.
  apply one_client_ok; [vm_compute; reflexivity|intros n; reflexivity|reflexivity|reflexivity|].
  intros fence g E. change (dd_dma_fences reg8) with (∅ : gmap Z dma_fence) in E.
  by rewrite lookup_empty in E.
Qed.

Definition ctx0_type : client_type_desc := mk_client_type 1 1 1 2 800 0 0 106496 0 0 false false.

Definition ctx0_params : queue_params := mk_queue_params 448 51200 0 0 1 false.

Lemma ctx0_region :
  region_fits (layout_of reg8) 524288 1 800 1060864 (ctx0_type) ctx0_params.
Proof.
  split; [vm_compute; reflexivity|vm_compute; reflexivity|vm_compute; reflexivity|vm_compute; split; [|split]; discriminate| |].
  - split; [exists 265216; reflexivity|exists 26624; reflexivity].
  - intros i Hi. assert (i = 0 \/ i = 1) as Hcase by (change (ct_queues_num (ctx0_type)) with 2 in Hi; lia).
    split; [|change (ct_mem_size (ctx0_type)) with 106496; simpl; lia].
    change (ml_has_soccp (layout_of reg8)) with true.
    split; simpl; try lia; repeat split; try lia; [by exists 0|by exists 112|by exists 16].
Qed.

Lemma register_new_witness :
  exists d', msm_hw_fence_register HW_FENCE_CLIENT_ID_CTX0 reg8 = Done (inr (1, (1060864, 106496))) d' /\
    exists c q, zget (dd_clients d') 1 = Some (Some c) /\ zget (cl_queues c) 1 = Some q /\ queue_repr true q 800 0 [].
Proof.
  destruct (register_new_client reg8 HW_FENCE_CLIENT_ID_CTX0 1
              (mk_ipc_map HW_FENCE_IPC_CLIENT_ID_GPU_VID HW_FENCE_IPC_CLIENT_ID_GPU_PID 0 true false false true)
              524288 800 1060864 (ctx0_type) ctx0_params reg8_ok)
    as (d' & c & Hr & _ & Ec & _ & _ & _ & _ & _ & _ & _ & _ & _ & _ & Hq).
  - split; [reflexivity|reflexivity|reflexivity|done|reflexivity|done| |reflexivity|done|reflexivity|
            exact ctx0_region|done|reflexivity].
    exists None. split; reflexivity.
  - exists d'. split; [exact Hr|]. destruct (Hq 1) as (q & Eq & Hrepr); [done|]. by exists c, q.
Defined.
