(* ===== verification/HwFenceSafe.v ===== *)
(** * Every call of a client returns

    The calls of [src/msm_hw_fence.c] from any good state of the driver, with whatever
    arguments a client may pass: they return, take no lock twice, leave no array, and the
    state is good again.

    [safe pre m post]: from a good state with [pre], [m] returns with [post] in a good
    state, without ending a client or a dma-fence that is [held].  It has the rules of a
    program logic; a precondition is carried through a sequence when it is [Stable], that
    is, kept by everything [stays] allows.  What is left to show of each
    operation is that it returns in a good state ([HwFenceCallback]) and what it leaves
    alone ([HwFenceFrame]). *)
From S2P Require Import Prelude HwFenceTypes HwFenceQueue HwFenceTable HwFenceRef.
From S2P Require Import HwFenceClient HwFenceSignal HwFenceCallback HwFenceFrame HwFenceJoin.
From S2P Require Import HwFenceLayout HwFenceApi.
From stdpp Require Import gmap.
From Stdlib Require Import Lia.
#[local] Open Scope Z_scope.

(** * Properties *)

(** ** Frames of the operations that create *)

Lemma stays_eq d d' :
  dd_clients d' = dd_clients d -> fixed_of d' = fixed_of d -> dd_dma_fences d' = dd_dma_fences d -> stays d d'.
Proof.
  intros Hc He Hd. split; [done|intros ch; unfold client_ids; by rewrite Hc|]. rewrite Hd. eauto.
Qed.

Lemma frames_modify_eq g :
  (forall d, dd_clients (g d) = dd_clients d /\ fixed_of (g d) = fixed_of d /\ dd_dma_fences (g d) = dd_dma_fences d) ->
  frames (modifyM g).
Proof.
  intros H. apply (steps_modifyM (R := stays)). intros d. destruct (H d) as (? & ? & ?). by apply stays_eq.
Qed.

#[export] Hint Extern 2 (frames (modifyM _)) => apply frames_modify_eq; intros ?; split_and!; reflexivity : steps.

Lemma frames_set_fence h f : frames (set_fence h f).
Proof. apply frames_modify_eq. by intros d. Qed.

Lemma frames_set_hlos_key h k : frames (set_hlos_key h k).
Proof. apply frames_modify_eq. by intros d. Qed.

#[export] Hint Resolve frames_set_fence frames_set_hlos_key : steps.

Lemma frames_update_fence h g : frames (update_fence h g).
Proof. unfold update_fence. steps_tac. Qed.

#[export] Hint Resolve frames_update_fence : steps.

Lemma steps_qtime : steps hw_fence_get_qtime.
Proof. unfold hw_fence_get_qtime. steps_tac. Qed.

Lemma steps_kzalloc : steps kzalloc.
Proof. unfold kzalloc. steps_tac. Qed.

Lemma steps_fence_found h : steps (_fence_found h).
Proof. unfold _fence_found. steps_tac. Qed.

#[export] Hint Resolve steps_qtime steps_kzalloc steps_fence_found : steps.

Lemma frames_create_body a b c d e f h : frames (create_body a b c d e f h).
Proof. unfold create_body, _reserve_hw_fence, _hw_fence_match. steps_tac. Qed.

Lemma frames_hw_fence_loop n body h i e b r :
  (forall h, frames (body h)) -> frames (hw_fence_loop n body h i e b r).
Proof.
  intros Hb. revert h i b r. induction n as [|n IH]; intros h i b r; cbn [hw_fence_loop]; steps_tac; auto.
Qed.

Lemma frames_create_range a b c d e h s t f : frames (_hw_fence_lookup_and_create_range a b c d e h s t f).
Proof.
  unfold _hw_fence_lookup_and_create_range, for_each_hw_fence. steps_tac.
  apply frames_hw_fence_loop. intros x. apply frames_create_body.
Qed.

#[export] Hint Resolve frames_create_range : steps.

Lemma frames_create a b c d e h : frames (_hw_fence_lookup_and_create a b c d e h).
Proof. unfold _hw_fence_lookup_and_create. steps_tac. Qed.

Lemma steps_process_range k c s h st e fn : (forall h, steps (fn h)) -> steps (_hw_fence_lookup_and_process_range k c s h st e fn).
Proof.
  intros Hf. unfold _hw_fence_lookup_and_process_range, for_each_hw_fence.
  steps_tac. apply steps_hw_fence_loop. intros x. unfold process_body, _hw_fence_match. steps_tac.
Qed.

Lemma steps_find k c s h : steps (msm_hw_fence_find k c s h).
Proof. apply steps_lookup_and_process. auto with steps. Qed.

#[export] Hint Resolve frames_create steps_find : steps.

Lemma frames_create_signaled id f h : frames (_create_signaled_hw_fence id f h).
Proof. unfold _create_signaled_hw_fence. steps_tac. Qed.

#[export] Hint Resolve frames_create_signaled : steps.
#[export] Hint Extern 1 (steps (_hw_fence_lookup_and_process_range _ _ _ _ _ _ _)) =>
  apply steps_process_range, steps_fence_found : steps.

Lemma frames_find_loop n id f s h (b : bool) : frames (find_with_dma_fence_loop n id f s h b).
Proof.
  revert s h. induction n as [|n IH]; intros s h; cbn [find_with_dma_fence_loop].
  - steps_tac.
  - steps_tac; apply IH.
Qed.

Lemma steps_find_loop n id f s h : steps (find_with_dma_fence_loop n id f s h false).
Proof.
  revert s h. induction n as [|n IH]; intros s h; cbn [find_with_dma_fence_loop].
  - steps_tac.
  - steps_tac; apply IH.
Qed.

#[export] Hint Resolve frames_find_loop steps_find_loop : steps.

Lemma frames_find_dma id f h b : frames (hw_fence_find_with_dma_fence id f h b).
Proof. unfold hw_fence_find_with_dma_fence. steps_tac. Qed.

Lemma steps_find_dma id f h : steps (hw_fence_find_with_dma_fence id f h false).
Proof. unfold hw_fence_find_with_dma_fence. steps_tac. Qed.

Lemma frames_hw_fence_create c k x s h : frames (hw_fence_create c k x s h).
Proof. unfold hw_fence_create. steps_tac. Qed.

Lemma steps_hw_fence_signal f h e b : steps (hw_fence_signal_fence f h e b).
Proof. unfold hw_fence_signal_fence. steps_tac. Qed.

#[export] Hint Resolve frames_find_dma steps_find_dma frames_hw_fence_create steps_hw_fence_signal : steps.

Lemma steps_signal_callback f h : steps (msm_hw_fence_signal_callback f h).
Proof. unfold msm_hw_fence_signal_callback. steps_tac. Qed.

Lemma steps_add_kernel_cb f h : steps (dma_fence_add_callback f h).
Proof. unfold dma_fence_add_callback. steps_tac. Qed.

#[export] Hint Resolve steps_signal_callback steps_add_kernel_cb : steps.

Lemma frames_add_callback f h : frames (hw_fence_add_callback f h).
Proof. unfold hw_fence_add_callback. steps_tac. Qed.

Lemma steps_set_dma_flag f b : steps (set_dma_flag f b).
Proof. by apply steps_update_dma_fence. Qed.

Lemma steps_check_fctl ch : steps (hw_fence_check_valid_fctl ch).
Proof. unfold hw_fence_check_valid_fctl. steps_tac. Qed.

#[export] Hint Resolve frames_add_callback steps_set_dma_flag steps_check_fctl : steps.

Lemma frames_dma_init ch x s : frames (hw_dma_fence_init ch x s).
Proof.
  unfold hw_dma_fence_init. apply steps_bind; [auto with steps|]. intros [l|]; [|apply steps_ret].
  intros d a d'. unfold kzalloc, bind, get, tick, put, ret. simpl. destruct (env_alloc_fails _ _).
  { intros [= _ <-]. by apply stays_eq. }
  unfold modifyM. intros [= _ <-]. split; [done|done|]. simpl. intros fence g Hh Eg.
  rewrite lookup_insert_ne; [eauto|]. by destruct (Hh (dd_tick d)).
Qed.

Lemma steps_table_add f h : steps (hw_fence_dma_fence_table_add f h).
Proof. unfold hw_fence_dma_fence_table_add. steps_tac. Qed.


#[export] Hint Resolve frames_dma_init steps_table_add : steps.

(** Writing a client derived from the one just read. *)
Lemma frames_with_client {A} ch g (k : hw_fence_client -> DRV A) :
  (forall c, cl_client_id (g c) = cl_client_id c) -> (forall c, frames (k c)) ->
  frames (c <-- get_client ch; set_client ch (g c);;; k c).
Proof.
  intros Hg Hk d a d'. unfold get_client, get_client_opt, bind, get.
  destruct (zget (dd_clients d) ch) as [[c|]|] eqn:E; [|done|done]. unfold deref, ret, set_client, modifyM.
  intros Hr. transitivity (d <| dd_clients ::= zset ch (Some (g c)) |>); [|by eapply Hk].
  by apply ol_stays, (older_set_client d ch c).
Qed.

Lemma frames_internal_create ch h : frames (hw_fence_internal_dma_fence_create ch h).
Proof.
  apply (frames_with_client ch (fun c => c <| cl_seqno := i32 (cl_seqno c + 1) |>)); [done|].
  intros c. steps_tac.
Qed.

(** ** Safe calls *)

#[export] Instance stable_older P : Stable stays P -> Stable older P | 5.
Proof. intros HP d d' [_ _ Hs]. by apply HP. Qed.

Abbreviation safe_older := (safe_in drv_ok older).
Abbreviation safe := (safe_in drv_ok stays).

Section intro.
Context {St : Type} {ok : St -> Prop} {R : relation St}.
Implicit Types (pre : St -> Prop).

(** What an operation needs beside its result is known of it. *)
Lemma safe_intro {A} pre (m : M St A) (Q : A -> St -> Prop) :
  steps_in R m -> (forall s, ok s -> pre s -> wp m (fun a s' => ok s' /\ Q a s') s) -> safe_in ok R pre m Q.
Proof.
  intros Hr Hm s Hs Hp. pose proof (Hm s Hs Hp) as Hw. apply wp_inv in Hw as (a & s' & E & Hs' & HQ).
  eapply wp_done; [exact E|]. split; [done|]. split; [by eapply Hr|done].
Qed.

Lemma safe_ok {A} pre (m : M St A) :
  steps_in R m -> (forall s, ok s -> pre s -> wp m (fun _ => ok) s) -> safe_in ok R pre m anything.
Proof.
  intros Hr Hm. apply safe_intro; [done|]. intros s Hs Hp. eapply wp_mono; [by apply Hm|]. done.
Qed.
End intro.

Lemma safe_weaken {A} pre (m : DRV A) Q : safe_older pre m Q -> safe pre m Q.
Proof.
  intros Hm d Hd Hp. eapply wp_mono; [by apply Hm|]. intros a d' (? & Hr & ?). split; [done|].
  split; [apply Hr|done].
Qed.

(** *** What a client's arguments name *)

Definition client_at (ch : Z) (d : driver_data) : Prop := exists c, zget (dd_clients d) ch = Some (Some c).

Definition in_table (h : Z) (d : driver_data) : Prop := 0 <= h < dd_hw_fences_tbl_cnt d.

Definition dma_at (fence : Z) (d : driver_data) : Prop :=
  held (dd_env d) fence /\ is_Some (dd_dma_fences d !! fence).

(** The dma-fence is not an array, or it is an array of fences that are there; the
    kernel makes no empty arrays.  0 is a null pointer. *)
Definition array_at (fence : Z) (l : list Z) (d : driver_data) : Prop :=
  held (dd_env d) fence /\ l <> [] /\
  (exists g, dd_dma_fences d !! fence = Some g /\ df_array g = Some l /\ df_fences_null g = false) /\
  Forall (fun x => x = 0 \/ dma_at x d) l.

Definition plain_at (fence : Z) (d : driver_data) : Prop :=
  held (dd_env d) fence /\ exists g, dd_dma_fences d !! fence = Some g /\ df_array g = None.

#[export] Instance stable_client ch : Stable stays (client_at ch).
Proof. intros d d' Hs [c Ec]. destruct (stays_client _ _ _ _ Hs Ec) as (c' & E & _). by exists c'. Qed.

#[export] Instance stable_in_table h : Stable stays (in_table h).
Proof. intros d d' Hs. unfold in_table. by rewrite (st_cnt _ _ Hs). Qed.

#[export] Instance stable_dma fence : Stable stays (dma_at fence).
Proof.
  intros d d' Hs [Hh [g Eg]]. split; [by rewrite (st_env _ _ Hs)|].
  destruct (st_dma _ _ Hs fence g Hh Eg) as (g' & E & _). by exists g'.
Qed.

#[export] Instance stable_array fence l : Stable stays (array_at fence l).
Proof.
  intros d d' Hs (Hh & Hl & (g & Eg & Ha & Hn) & Hf). split; [by rewrite (st_env _ _ Hs)|]. split; [done|]. split.
  - destruct (st_dma _ _ Hs fence g Hh Eg) as (g' & E & Ha' & Hn'). exists g'. split; [done|]. split; congruence.
  - eapply Forall_impl; [exact Hf|]. intros x [->|Hx]; [by left|right]. by eapply stable.
Qed.

#[export] Instance stable_plain fence : Stable stays (plain_at fence).
Proof.
  intros d d' Hs [Hh (g & Eg & Ha)]. split; [by rewrite (st_env _ _ Hs)|].
  destruct (st_dma _ _ Hs fence g Hh Eg) as (g' & E & Ha' & _). exists g'. split; [done|]. congruence.
Qed.

Lemma plain_dma_at fence d : plain_at fence d -> dma_at fence d.
Proof. intros [Hh (g & Eg & _)]. split; [done|by exists g]. Qed.

Lemma array_dma_at fence l d : array_at fence l d -> dma_at fence d.
Proof. intros (Hh & _ & (g & Eg & _) & _). split; [done|by exists g]. Qed.

Lemma in_table_fence d h : drv_ok d -> in_table h d -> exists f, fence_at d h = Some f.
Proof. intros Hd Hh. apply fence_at_is_Some; [auto with fence|done]. Qed.

(** ** The operations *)

Section reading.
Context {R : relation driver_data} `{!PreOrder R}.
Implicit Types (pre : driver_data -> Prop).

Lemma safe_get_client pre ch :
  (forall d, pre d -> client_at ch d) ->
  safe_in drv_ok R pre (get_client ch) (fun c d => zget (dd_clients d) ch = Some (Some c)).
Proof. intros Hc. apply safe_read. intros d _ Hp. destruct (Hc d Hp) as [c E]. exists c. by rewrite (get_client_run _ _ _ E). Qed.

Lemma safe_get_dma pre fence :
  (forall d, pre d -> dma_at fence d) ->
  safe_in drv_ok R pre (get_dma_fence fence) (fun g d => dd_dma_fences d !! fence = Some g).
Proof. intros Hc. apply safe_read. intros d _ Hp. destruct (Hc d Hp) as [_ [g E]]. exists g. by rewrite (get_dma_fence_run _ _ _ E). Qed.

Lemma safe_get_fence pre h :
  (forall d, pre d -> in_table h d) -> safe_in drv_ok R pre (get_fence h) (fun f d => fence_at d h = Some f).
Proof.
  intros Hc. apply safe_read. intros d Hd Hp. destruct (in_table_fence d h Hd (Hc d Hp)) as [f E].
  exists f. by rewrite (get_fence_run _ _ _ E).
Qed.
End reading.

Lemma safe_update_join pre h error :
  (forall d, pre d -> in_table h d) ->
  safe_older pre (_update_and_get_join_fence_signal_status h error) anything.
Proof.
  intros Hc. apply safe_ok; [auto with steps|]. intros d Hd Hp. destruct (in_table_fence d h Hd (Hc d Hp)) as [f E].
  pose proof (entry_ok_at _ _ _ Hd E) as Hf. unfold wp. rewrite (update_join_run d h f) by (done || apply Hf).
  apply drv_ok_put; [done|]. by apply child_done_ok.
Qed.

Lemma safe_find_dma pre id fence h0 :
  (forall d, pre d -> dma_at fence d) ->
  safe_older pre (hw_fence_find_with_dma_fence id fence h0 false) (found_at fence).
Proof.
  intros Hc. apply safe_intro; [auto with steps|]. intros d Hd Hp. apply find_with_dma_fence_ok; [done|apply Hc, Hp].
Qed.

(** An entry that is locked, changed and given back. *)
Lemma put_and_unlock_ok d h f g :
  drv_ok d -> fence_at d h = Some f -> detached g -> entry_ok (g f) ->
  wp (hw_fence_put_and_unlock h) (fun _ => drv_ok) (put_fence h (g (with_lock 1 f)) (locked_at h d)).
Proof.
  intros Hd E Hg Hgf. pose proof (fence_at_in _ _ _ (do_table _ Hd) E) as Hh.
  set (d1 := put_fence h (g f) d). assert (drv_ok d1) as Hd1 by (by apply drv_ok_put).
  assert (fence_at d1 h = Some (g f)) as E1 by (by eapply fence_at_put_eq).
  assert (put_fence h (g (with_lock 1 f)) (locked_at h d) = locked_at h d1) as ->.
  { unfold locked_at. rewrite E, E1. unfold d1. rewrite !put_put. f_equal.
    assert (forall x, with_lock 1 x = x <| hf_lock := with_lo (hf_lock x) 1 |>) as Hw by done.
    by rewrite !Hw, (de_set_lock _ Hg), (de_lock _ Hg). }
  pose proof (destroy_with_hash_ok d1 h Hd1 (proj1 Hh)) as Hw. unfold hw_fence_destroy_with_hash in Hw.
  apply wp_inv in Hw as (a & d' & Hr & Hd'). rewrite (bind_run _ _ d1 d1 d1) in Hr by done.
  rewrite (get_hw_fence_in d1 h) in Hr by (apply Hd1 || done).
  rewrite (bind_run _ _ _ _ _ (locked_at_run _ _ _ E1 (proj1 Hgf))) in Hr. by eapply wp_done.
Qed.

Lemma older_locked_put d h f f' g :
  fence_at d h = Some f -> ages f g -> f' = with_lock 1 g -> older d (put_fence h f' (locked_at h d)).
Proof.
  intros E Ha ->. rewrite (put_locked d h _ f E). apply (older_put_fence d h f); [done|]. etransitivity; [exact Ha|].
  by apply ages_lock.
Qed.

Lemma add_parent_detached j f :
  0 <= j ->
  exists g, (add_parent j f).2 = g f /\ detached g /\ (forall x, entry_ok x -> entry_ok (g x)) /\
    forall x, ages x (g x).
Proof.
  intros Hj. unfold add_parent. set (f1 := f <| hf_parents_cnt ::= fun c => u32 (c + 1) |>). cbv zeta.
  destruct (_ || _); cbn [snd].
  - exists recounted. split; [done|]. split; [apply recounted_detached|]. by split; [|split; auto].
  - set (cnt := hf_parents_cnt f1).
    exists (fun x => x <| hf_parents_cnt ::= fun c => u32 (c + 1) |> <| hf_parent_list ::= zset (cnt - 1) j |>).
    split; [done|]. split; [by split|]. split; [|by split; auto].
    intros x (Hl & Hd & Hp & Hf). split; [exact Hl|]. split; [exact Hd|]. simpl. rewrite zlen_zset. split; [done|].
    unfold zset. case_match; [by apply Forall_insert|done].
Qed.

(** Linking a child, or counting it at the join fence if a firmware signaled it, under its lock. *)
Lemma child_section_ok d h j (s : bool) :
  drv_ok d -> in_table h d -> in_table j d -> h <> j ->
  wp (global_atomic_store (FenceLock h) true;;;
      f <-- get_fence h;
      if flag (hf_flags f) MSM_HW_FENCE_FLAG_SIGNAL then
        b <-- _update_and_get_join_fence_signal_status j (hf_error f);
        hw_fence_put_and_unlock h;;;
        ret (Some b, h)
      else
        let '(added, f') := add_parent j f in
        set_fence h f';;;
        hw_fence_put_and_unlock h;;;
        ret (if added then Some s else None, h)) (fun _ d' => drv_ok d' /\ older d d') d.
Proof.
  intros Hd Hh Hj Hne. destruct (in_table_fence d h Hd Hh) as [f E]. pose proof (entry_ok_at _ _ _ Hd E) as Hf.
  destruct (in_table_fence d j Hd Hj) as [fj Ej]. pose proof (entry_ok_at _ _ _ Hd Ej) as Hfj.
  pose proof (locked_at_fence _ _ _ E) as E1. set (fl := with_lock 1 f) in *.
  assert (forall (g : msm_hw_fence -> msm_hw_fence) d1 (out : option bool * Z),
    drv_ok d1 -> older d d1 -> fence_at d1 h = Some f -> detached g -> entry_ok (g f) -> ages f (g f) ->
    wp (hw_fence_put_and_unlock h;;; ret out) (fun _ d' => drv_ok d' /\ older d d')
       (put_fence h (g fl) (locked_at h d1))) as Hput.
  { intros g d1 out Hd1 Ho Ef Hg Hgf Ha. apply wp_bind.
    assert (steps (hw_fence_put_and_unlock h)) as Hst by auto with steps.
    pose proof (put_and_unlock_ok d1 h f g Hd1 Ef Hg Hgf) as Hw. fold fl in Hw. apply wp_inv in Hw as (a & d' & Hr & Hd').
    eapply wp_done; [exact Hr|]. apply wp_ret. split; [done|]. transitivity d1; [done|].
    transitivity (put_fence h (g fl) (locked_at h d1)); [|exact (Hst _ _ _ Hr)].
    apply (older_locked_put d1 h f _ (g f) Ef Ha). unfold fl.
    assert (forall x, with_lock 1 x = x <| hf_lock := with_lo (hf_lock x) 1 |>) as Hw by done.
    by rewrite !Hw, (de_set_lock _ Hg), (de_lock _ Hg). }
  apply wp_bind. eapply wp_done; [by apply (locked_at_run d h f); [|apply Hf]|].
  apply wp_bind. eapply wp_done; [by apply get_fence_run|]. change (hf_flags fl) with (hf_flags f).
  destruct (flag _ _).
  - apply wp_bind. set (d1 := put_fence j (child_done (hf_error fl) fj) d).
    assert (drv_ok d1) as Hd1 by (apply drv_ok_put; [done|by apply child_done_ok]).
    assert (fence_at d1 h = Some f) as Ef by (unfold d1; by rewrite fence_at_put_ne).
    eapply wp_done; [apply (update_join_run _ j fj); [|apply Hfj]|].
    { unfold locked_at. rewrite E. by rewrite fence_at_put_ne. }
    replace (put_fence j (child_done (hf_error fl) fj) (locked_at h d)) with (put_fence h fl (locked_at h d1)).
    2: { unfold locked_at. rewrite E, Ef, put_put. unfold d1, put_fence. simpl. f_equal. by rewrite zset_comm. }
    apply (Hput (fun x => x)); [done| |done|apply id_detached|done|reflexivity].
    apply (older_put_fence d j fj); [done|]. by split; auto.
  - destruct (add_parent_detached j fl (proj1 Hj)) as (g & Eg & Hg & Hgok & Hga).
    destruct (add_parent j fl) as [added f']. simpl in Eg. subst f'.
    apply wp_bind, wp_modifyM. fold (put_fence h (g fl) (locked_at h d)).
    apply Hput; [done|reflexivity|done..|by apply Hgok|apply Hga].
Qed.

(** The key of the join fence stays that of its array, so no child is the join fence itself. *)
Definition owns_key (j array : Z) (d : driver_data) : Prop :=
  forall k, zget (dd_hlos_key_tbl d) j = Some k -> k = 0 \/ k = array.

#[export] Instance stable_owns_key j array : Stable older (owns_key j array).
Proof. intros d d' [_ Hk _] Ho k E. destruct (Hk j k E) as [->|E']; [by left|by apply Ho]. Qed.

Definition joining (array : Z) (l : list Z) (j : Z) (d : driver_data) : Prop :=
  array_at array l d /\ in_table j d /\ owns_key j array d.

#[export] Instance stable_joining array l j : Stable older (joining array l j).
Proof. apply stable_and; [exact _|]. by apply stable_and; exact _. Qed.

Lemma safe_array_get {R} `{!PreOrder R} pre array l i :
  (forall d, pre d -> array_at array l d) -> 0 <= i < zlen l ->
  safe_in drv_ok R pre (array_get array i) (fun x d => x = 0 \/ dma_at x d).
Proof.
  intros Hc Hi. apply safe_read. intros d _ Hp. destruct (Hc d Hp) as (_ & _ & (g & Eg & Ha & Hn) & Hf).
  destruct (zget_is_Some l i Hi) as [x Ex]. exists x. split.
  - unfold array_get. rewrite (bind_run _ _ _ _ _ (get_dma_fence_run _ _ _ Eg)), Hn. unfold array_fences.
    rewrite Ha. simpl. by rewrite Ex.
  - rewrite Forall_forall in Hf. apply Hf. unfold zget in Ex. case_match; [|done]. by eapply list_elem_of_lookup_2.
Qed.

Lemma safe_process_child id j array l i (s : bool) hash :
  0 <= i < zlen l ->
  safe_older (joining array l j) (process_child id j j array i s hash) anything.
Proof.
  intros Hi. unfold process_child. eapply safe_bind; [exact _|by eapply safe_array_get; [intros d [H _]; exact H|]|].
  intros x. cbv beta. destruct (Z.eqb_spec x 0) as [->|Hx0]; [by apply safe_ret|].
  apply (safe_pre _ (fun d => joining array l j d /\ dma_at x d)); [by intros d _ [Hj [Hx|Hx]]|].
  eapply safe_bind; [exact _|by apply safe_get_dma; intros d [_ ?]|]. intros g. cbv beta.
  destruct (df_array g) as [l'|] eqn:Ea; [by apply safe_ret|]. destruct (negb _); [by apply safe_ret|].
  apply (safe_pre _ (fun d => joining array l j d /\ plain_at x d)).
  { intros d _ [[Hj [Hh _]] Eg]. split; [done|]. split; [done|]. by exists g. }
  eapply safe_bind; [exact _|apply safe_find_dma; intros d [_ ?]; by apply plain_dma_at|].
  intros [[o b] hash']. destruct b.
  - apply (safe_pre _ (fun d => joining array l j d /\ plain_at x d)); [by intros d _ [? _]|].
    eapply safe_bind; [exact _|apply safe_get_dma; intros d [_ ?]; by apply plain_dma_at|]. intros g'.
    apply (safe_pre _ (joining array l j)); [by intros d _ [[? _] _]|].
    eapply safe_bind; [exact _|apply safe_update_join; by intros d (_ & ? & _)|]. intros b. by apply safe_ret.
  - destruct o as [h|]; [|by apply safe_ret]. intros d Hd [[(Har & Hj & Ho) Hpl] Hfound].
    destruct (Hfound h eq_refl) as (Eh & Hh & Hkey). simpl in Eh, Hkey. subst hash'. specialize (Hkey eq_refl).
    assert (h <> j) as Hne.
    { intros ->. destruct (Ho x Hkey) as [->| ->]; [done|]. destruct Har as (_ & _ & (ga & Ega & Haa & _) & _).
      destruct Hpl as (_ & gp & Egp & Hap). congruence. }
    eapply wp_mono; [by apply (child_section_ok d h j s)|]. intros a d' [? ?]. by split.
Qed.

Lemma safe_process_children n id j array l i (s : bool) hash :
  0 <= i -> i + Z.of_nat n = zlen l ->
  safe_older (joining array l j) (process_children n id j j array i s hash)
    (fun out _ => forall i, out = inl i -> 0 <= i < zlen l).
Proof.
  revert i s hash. induction n as [|n IH]; intros i s hash Hi Hn; cbn [process_children]; [by apply safe_ret|].
  eapply safe_bind; [exact _|apply safe_process_child; lia|]. intros [[b|] h]; cbv beta.
  - apply (safe_pre _ (joining array l j)); [by intros d _ [? _]|]. apply IH; lia.
  - apply safe_ret. intros d _ k [= <-]. lia.
Qed.

Lemma unlink_at_ok j f i : entry_ok f -> entry_ok (unlink_at j f i).
Proof.
  intros (Hl & Hd & Hp & Hf). unfold unlink_at. destruct (zget _ _) as [p|]; [|done]. destruct (p =? j); [|done].
  split; [exact Hl|]. split; [exact Hd|]. simpl. rewrite zlen_zset. split; [done|].
  unfold zset. case_match; [|done]. by apply Forall_insert.
Qed.

Lemma unlink_parent_ok j f : entry_ok f -> entry_ok (unlink_parent j f).
Proof.
  unfold unlink_parent. generalize (Z.to_nat (Z.min (i32 (hf_parents_cnt f)) MSM_HW_FENCE_MAX_JOIN_PARENTS)).
  intros n. revert f. induction n as [|n IH]; intros f Hf; simpl; [done|]. by apply IH, unlink_at_ok.
Qed.

Lemma safe_cleanup_child id array l j i hash :
  0 <= i < zlen l -> safe (array_at array l) (cleanup_child id array j i hash) anything.
Proof.
  intros Hi. unfold cleanup_child. eapply safe_bind; [exact _|by apply (safe_array_get _ array l)|].
  intros x. cbv beta. destruct (Z.eqb_spec x 0) as [->|Hx0]; [by apply safe_ret|].
  apply (safe_pre _ (dma_at x)); [by intros d _ [_ [Hx|Hx]]|].
  eapply safe_bind; [exact _|by apply safe_weaken, safe_find_dma|]. intros [[o b] hash'].
  destruct b; [by apply safe_ret|]. destruct o as [h|]; [|by apply safe_ret].
  apply safe_ok; [steps_tac|]. intros d Hd [_ Hfound]. destruct (Hfound h eq_refl) as (Eh & Hh & _). simpl in Eh.
  subst hash'. destruct (in_table_fence d h Hd Hh) as [f E]. pose proof (entry_ok_at _ _ _ Hd E) as Hf.
  apply wp_bind. eapply wp_done; [by apply (locked_at_run d h f); [|apply Hf]|].
  apply wp_bind. eapply wp_done; [by apply update_fence_run, locked_at_fence|]. apply wp_bind.
  eapply wp_mono with (Q := fun _ => drv_ok); [|done].
  apply (put_and_unlock_ok d h f (unlink_parent j)); [done|done|apply unlink_parent_detached|by apply unlink_parent_ok].
Qed.

Lemma safe_destroy_refcount pre h ref : 0 <= h -> safe pre (hw_fence_destroy_refcount h ref) anything.
Proof. intros Hh. apply safe_ok; [auto with steps|]. intros d Hd _. by apply destroy_refcount_ok. Qed.

Lemma safe_destroy_hash pre h : 0 <= h -> safe pre (hw_fence_destroy_with_hash h) anything.
Proof. intros Hh. apply safe_ok; [auto with steps|]. intros d Hd _. by apply destroy_with_hash_ok. Qed.

Lemma safe_drop_join pre array j :
  (forall d, pre d -> dma_at array d) -> Stable stays pre -> 0 <= j ->
  safe pre (_hw_fence_process_join_fence array j false) anything.
Proof.
  intros Hc Hs Hj. unfold _hw_fence_process_join_fence. eapply safe_bind; [exact _|by apply safe_get_dma|].
  intros g. cbv beta. apply (safe_pre _ pre); [by intros d _ [? _]|].
  eapply safe_bind; [exact _|by apply safe_destroy_refcount|]. intros r. by apply safe_ret.
Qed.

Lemma safe_cleanup_join id i array l j :
  0 <= i < zlen l -> 0 <= j ->
  safe (array_at array l) (_cleanup_join_and_child_fences id i array j) anything.
Proof.
  intros Hi Hj. unfold _cleanup_join_and_child_fences.
  eapply safe_bind; [exact _|by apply safe_get_dma; apply array_dma_at|]. intros g. cbv beta.
  apply (safe_pre _ (array_at array l)); [by intros d _ [? _]|].
  eapply (safe_bind _ _ _ (fun _ _ => True)); [exact _| |].
  - destruct (df_fences_null g); [by apply safe_ret|].
    eapply safe_bind; [exact _| |intros a; by apply safe_ret].
    eapply (safe_for_n (array_at array l) _ _ _ _ (fun _ => True)); [exact _|done|].
    intros k h Hk _. eapply safe_post; [apply safe_cleanup_child; lia|done].
  - intros []. apply (safe_pre _ (array_at array l)); [by intros d _ [? _]|].
    eapply safe_bind; [exact _|by apply safe_drop_join; [apply array_dma_at|exact _|]|]. intros o. by apply safe_ret.
Qed.

Lemma safe_ctl_signal pre ch h hash fl cd e b :
  (forall d, pre d -> client_at ch d /\ in_table h d) -> safe pre (_fence_ctl_signal ch h hash fl cd e b) anything.
Proof.
  intros Hc. apply safe_ok; [auto with steps|]. intros d Hd Hp. destruct (Hc d Hp) as [[c Ec] Hh].
  destruct (in_table_fence d h Hd Hh) as [f E].
  destruct (fence_ctl_signal_run d ch c h f hash fl cd e b Hd Ec E) as (c' & t & Hr & Hc' & Hs). unfold wp. rewrite Hr.
  by eapply drv_ok_moved.
Qed.

(** Updating an entry, with or without its lock. *)
Lemma safe_update_fence pre h g :
  (forall d, pre d -> in_table h d) -> (forall f, entry_ok f -> entry_ok (g f)) ->
  safe pre (update_fence h g) anything.
Proof.
  intros Hc Hg. apply safe_ok; [auto with steps|]. intros d Hd Hp. destruct (in_table_fence d h Hd (Hc d Hp)) as [f E].
  eapply wp_done; [by apply update_fence_run|]. apply drv_ok_put; [done|]. by apply Hg, (entry_ok_at d h).
Qed.

Lemma safe_locked_update {B} (pre : driver_data -> Prop) h g (k : unit -> DRV B) Q :
  (forall d, pre d -> in_table h d) -> (forall f, entry_ok f -> entry_ok (g f)) ->
  (lock_neutral g /\ forall f, lock_held (g (with_lock 1 f))) ->
  (forall d f, pre d -> pre (put_fence h f d)) -> safe pre (k tt) Q ->
  safe pre (global_atomic_store (FenceLock h) true;;;
            update_fence h g;;;
            bind (global_atomic_store (FenceLock h) false) k) Q.
Proof.
  intros Hc Hok Hg Hput Hk d Hd Hp. destruct (in_table_fence d h Hd (Hc d Hp)) as [f E].
  pose proof (entry_ok_at _ _ _ Hd E) as Hf. unfold wp. rewrite (locked_update_run d h f) by (done || apply Hf).
  match goal with |- match ?m ?d1 with _ => _ end => change (wp m (fun a d' => drv_ok d' /\ stays d d' /\ Q a d') d1) end.
  eapply wp_mono; [apply Hk; [apply drv_ok_put; [done|by apply Hok]|by apply Hput]|].
  intros a d' (? & Hs & ?). split; [done|]. split; [|done]. etransitivity; [|exact Hs]. by apply stays_eq.
Qed.

(** The join fence of an array, when there is room for one. *)
Lemma safe_make_join pre array h0 :
  (forall d, pre d -> dma_at array d) ->
  safe pre (_hw_fence_process_join_fence array h0 true)
    (fun out d => forall j, out.1 = Some j -> out.2 = j /\ in_table j d /\ owns_key j array d).
Proof.
  intros Hc. apply safe_intro; [unfold _hw_fence_process_join_fence; steps_tac|]. intros d Hd Hp.
  pose proof (do_table _ Hd) as Hok. destruct (Hc d Hp) as [_ [g Eg]]. unfold _hw_fence_process_join_fence.
  apply wp_bind. eapply wp_done; [by apply get_dma_fence_run|]. unfold wp. rewrite create_run by auto with fence.
  destruct (find_step _ _ _ _) as [k|]; [|by split; [apply drv_ok_ticked|]].
  set (h := probe d (df_context g) (df_seqno g) k).
  assert (0 <= h < dd_hw_fences_tbl_cnt d) as Hh by (apply probe_range; auto with fence).
  destruct (fence_at_is_Some d h) as [f E]; [auto with fence|done|]. unfold create_result. rewrite ticked_fence, E.
  change (flag 0 MSM_HW_FENCE_FLAG_CREATE_SIGNALED) with false.
  destruct (hf_valid f =? 0); [|by split; [apply drv_ok_ticked|]]. split.
  - apply drv_ok_put_key, drv_ok_put; [auto with fence|]. apply reserved_ok. by eapply (entry_ok_at d).
  - intros j [= <-]. split; [done|]. split; [exact Hh|]. intros x. simpl. rewrite zget_zset_eq.
    + intros [= <-]. by right.
    + rewrite (tw_key d) by auto with fence. done.
Qed.

(** Reading which fences an array has. *)
Lemma safe_get_array {B} (pre : driver_data -> Prop) array l (k : dma_fence -> DRV B) Q :
  (forall d, pre d -> array_at array l d) ->
  (forall g, array_fences g = l -> safe pre (k g) Q) -> safe pre (bind (get_dma_fence array) k) Q.
Proof.
  intros Hc Hk d Hd Hp. destruct (Hc d Hp) as (_ & _ & (g & Eg & Ha & _) & _).
  apply wp_bind. eapply wp_done; [by apply get_dma_fence_run|]. apply Hk; [|done..].
  unfold array_fences. by rewrite Ha.
Qed.

(** The part of [hw_fence_process_fence_array] behind the making of the join fence. *)
Lemma safe_join_children ch c array l j cd :
  l <> [] -> 0 <= j ->
  safe (fun d => client_at ch d /\ joining array l j d)
    (g <-- get_dma_fence array;
     let num_fences := zlen (array_fences g) in
     r <-- process_children (Z.to_nat num_fences) (cl_client_id c) j j array 0 false 0;
     let error_array i :=
       _cleanup_join_and_child_fences (cl_client_id c) i array j;;; ret (- EINVAL, j) in
     match r with
     | inl i => error_array i
     | inr signal_join_fence =>
         update_fence j (put_client_data (cl_client_id_ext c) cd);;;
         if signal_join_fence : bool then
           f <-- get_fence j;
           _fence_ctl_signal ch j j 0 cd (hf_error f) true;;;
           set_dma_flag array MSM_HW_FENCE_FLAG_SIGNALED_BIT;;;
           _hw_fence_process_join_fence array j false;;;
           ret (0, j)
         else if num_fences =? 0 then error_array 0
         else ret (0, j)
     end) (fun out _ => out.2 = j).
Proof.
  intros Hl Hj. set (pre := fun d => client_at ch d /\ joining array l j d).
  set (pre2 := fun d => client_at ch d /\ array_at array l d /\ in_table j d).
  assert (Stable stays pre2) as Hst by (unfold pre2; exact _).
  assert (forall B (m : DRV B) (r : Z), safe pre2 m anything -> safe pre2 (m;;; ret (r, j)) (fun out _ => out.2 = j)) as Hret.
  { intros B m r Hm. eapply safe_bind; [exact _|exact Hm|]. intros a. by apply safe_ret. }
  assert (forall d, pre2 d -> dma_at array d) as Hdma by (intros d (_ & ? & _); by eapply array_dma_at).
  apply (safe_get_array _ array l); [by intros d (_ & ? & _)|]. intros g Eg. cbv zeta. rewrite Eg.
  assert (0 < zlen l) as Hlen by (destruct l; [done|unfold zlen; simpl; lia]).
  eapply (safe_seq pre pre2); [by intros d (? & ? & ? & _)|exact _| |].
  { apply (safe_pre _ (joining array l j)); [by intros d _ [_ ?]|]. apply safe_weaken, safe_process_children; lia. }
  intros [i|b]; cbv beta.
  - apply (safe_fact (0 <= i < zlen l)); [intros d [_ Hi]; by apply Hi|]. intros Hi.
    apply (safe_pre _ pre2); [by intros d _ [? _]|]. apply Hret.
    apply (safe_pre _ (array_at array l)); [by intros d _ (_ & ? & _)|]. by apply safe_cleanup_join.
  - apply (safe_pre _ pre2); [by intros d _ [? _]|].
    eapply (safe_seq pre2 pre2); [done|exact _|apply safe_update_fence; [by intros d (_ & _ & ?)|apply put_client_data_ok]|].
    intros []. apply (safe_pre _ pre2); [by intros d _ [? _]|]. destruct b.
    2: { destruct (Z.eqb_spec (zlen l) 0); [lia|]. by apply safe_ret. }
    eapply (safe_seq pre2 pre2); [done|exact _|by apply safe_get_fence; intros d (_ & _ & ?)|].
    intros f. apply (safe_pre _ pre2); [by intros d _ [? _]|].
    eapply (safe_seq pre2 pre2); [done|exact _|by apply safe_ctl_signal; intros d (? & _ & ?)|].
    intros r. apply (safe_pre _ pre2); [by intros d _ [? _]|].
    eapply (safe_seq pre2 pre2 _ _ anything); [done|exact _| |].
    + apply safe_ok; [auto with steps|]. intros d Hd Hp. destruct (Hdma d Hp) as [_ [ga Ega]].
      eapply wp_done; [by eapply set_dma_flag_run|]. by apply drv_ok_mark_dma.
    + intros []. apply (safe_pre _ pre2); [by intros d _ [? _]|]. apply Hret. by apply safe_drop_join.
Qed.

Lemma safe_process_array pre ch array l h0 cd :
  (forall d, pre d -> client_at ch d /\ array_at array l d) ->
  safe pre (hw_fence_process_fence_array ch array h0 cd) (fun out _ => out.1 = 0 -> 0 <= out.2).
Proof.
  intros Hc. set (pre2 := fun d => client_at ch d /\ array_at array l d).
  apply (safe_pre _ pre2); [by intros d _ ?; apply Hc|]. unfold hw_fence_process_fence_array.
  eapply (safe_seq pre2 pre2); [done|unfold pre2; exact _|by apply safe_get_client; intros d [? _]|].
  intros c. apply (safe_pre _ pre2); [by intros d _ [? _]|]. destruct (bad_client_data _ _); [by apply safe_ret|].
  eapply (safe_seq pre2 pre2); [done|unfold pre2; exact _|apply safe_make_join; intros d [_ ?]; by eapply array_dma_at|].
  intros [o j]. destruct o as [j'|].
  - apply (safe_fact (l <> [] /\ j = j' /\ 0 <= j)).
    { intros d [[_ (_ & Hl & _)] Hj]. destruct (Hj j' eq_refl) as (E & Hi & _). simpl in E. subst j'.
      split; [done|]. split; [done|]. apply Hi. }
    intros (Hl & <- & Hj).
    apply (safe_pre _ (fun d => client_at ch d /\ joining array l j d)).
    { intros d _ [[? ?] Hfound]. destruct (Hfound j eq_refl) as (_ & ? & ?). by split. }
    apply (safe_locked_update (fun d => client_at ch d /\ joining array l j d)).
    + by intros d (_ & _ & ? & _).
    + intros f. apply waited_ok.
    + by apply lock_neutral_intro.
    + intros d f (Hcl & Ha & Hi & Ho). split; [done|]. split; [|by split]. eapply stable, Ha. by apply stays_eq.
    + eapply safe_post; [by apply (safe_join_children ch c array l j cd)|]. intros [r j2] d _ Hj2 _. simpl in *. lia.
  - by apply safe_ret.
Qed.

(** *** One fence *)

Lemma waiter_stays d h f' t : stays d (put_fence h f' (at_tick t d)).
Proof. by apply stays_eq. Qed.

Lemma or_fctl_ok f : entry_ok f -> entry_ok (f <| hf_refcount ::= fun r => Z.lor r HW_FENCE_FCTL_REFCOUNT |>).
Proof. done. Qed.

Lemma safe_find pre k c s h0 :
  safe pre (msm_hw_fence_find k c s h0)
    (fun out d => forall h, out.1 = Some h -> out.2 = h /\ in_table h d).
Proof.
  apply safe_intro; [apply frames_of_steps; auto with steps|]. intros d Hd _. unfold wp. rewrite find_run by auto with fence.
  destruct (find_step _ _ _ _) as [x|]; [|by split; [apply drv_ok_ticked|]]. cbv zeta.
  set (h := probe d c s x). assert (in_table h d) as Hh by (apply probe_range; auto with fence).
  destruct (in_table_fence d h Hd Hh) as [f E]. rewrite E. destruct (saturated f); [by split; [apply drv_ok_ticked|]|].
  split; [apply drv_ok_put; [auto with fence|]; apply get_ref_ok; by eapply (entry_ok_at d)|].
  by intros y [= <-].
Qed.

Lemma safe_find_create pre id fence h0 :
  (forall d, pre d -> dma_at fence d) ->
  safe pre (hw_fence_find_with_dma_fence id fence h0 true) (found_at fence).
Proof.
  intros Hc. apply safe_intro; [auto with steps|]. intros d Hd Hp. apply find_with_dma_fence_ok; [done|apply Hc, Hp].
Qed.

(** [fence]: a dma-fence that is there, when there is one. *)
Definition opt_dma_at (fence : option Z) (d : driver_data) : Prop :=
  match fence with Some f => dma_at f d | None => True end.

#[export] Instance stable_opt_dma fence : Stable stays (opt_dma_at fence).
Proof. destruct fence; [exact _|by intros d d' _]. Qed.

(** Telling a waiter at once. *)
Lemma safe_tell_waiter pre fence ch h cd b :
  (forall d, pre d -> client_at ch d /\ opt_dma_at fence d /\ in_table h d) -> 0 <= h ->
  safe pre (tell_waiter fence ch h h cd b) (fun out _ => out.1 = 0 -> 0 <= out.2).
Proof.
  intros Hc Hh. set (pre3 := fun d => client_at ch d /\ opt_dma_at fence d /\ in_table h d).
  assert (Stable stays pre3) as Hst by (unfold pre3; exact _). apply (safe_pre _ pre3); [by intros d _ ?; apply Hc|].
  unfold tell_waiter. destruct b; [|by apply safe_ret].
  apply (safe_then _ _ _ anything); [exact _| |].
  { destruct fence as [f|]; [|by apply safe_ret]. apply safe_ok; [auto with steps|]. intros d Hd (_ & [_ [g Eg]] & _).
    eapply wp_done; [by eapply set_dma_flag_run|]. by apply drv_ok_mark_dma. }
  intros []. eapply safe_then; [exact _|by apply safe_get_fence; intros d (_ & _ & ?)|]. intros f.
  eapply safe_then; [exact _|by apply safe_ctl_signal; intros d (? & _ & ?)|]. intros r.
  eapply (safe_then _ _ _ anything); [exact _| |by intros []; apply safe_ret].
  destruct (negb (r =? 0)); [|by apply safe_ret].
  eapply safe_then; [exact _|by apply safe_destroy_hash|]. intros a. by apply safe_ret.
Qed.

Lemma safe_register_wait pre ch fence x s h0 cd :
  (forall d, pre d -> client_at ch d /\ opt_dma_at fence d) ->
  safe pre (hw_fence_register_wait_client fence ch x s h0 cd) (fun out _ => out.1 = 0 -> 0 <= out.2).
Proof.
  intros Hc. set (pre2 := fun d => client_at ch d /\ opt_dma_at fence d).
  assert (Stable stays pre2) as Hst by (unfold pre2; exact _).
  apply (safe_pre _ pre2); [by intros d _ ?; apply Hc|]. unfold hw_fence_register_wait_client.
  eapply (safe_seq pre2 pre2); [done|exact _|by apply safe_get_client; intros d [? _]|].
  intros c. apply (safe_pre _ pre2); [by intros d _ [? _]|]. destruct (bad_client_data _ _); [by apply safe_ret|].
  eapply (safe_seq pre2 pre2 _ _ (fun out d => forall h, out.1.1 = Some h -> out.2 = h /\ in_table h d)); [done|exact _| |].
  { destruct fence as [f|].
    - eapply safe_post; [apply safe_find_create; by intros d [_ ?]|]. intros out d _ Ho h Eh.
      by destruct (Ho h Eh) as (? & ? & _).
    - eapply (safe_seq pre2 pre2); [done|exact _|apply safe_find|]. intros out. apply safe_ret.
      intros d [_ Ho] h Eh. by apply Ho. }
  intros [[o b] hash]. destruct o as [h|]; [|by apply safe_ret].
  apply (safe_fact (hash = h /\ 0 <= h)); [intros d [_ Ho]; by destruct (Ho h eq_refl) as (? & ? & _)|].
  intros [-> Hh0]. set (pre3 := fun d => pre2 d /\ in_table h d).
  assert (Stable stays pre3) as Hst3 by (unfold pre3; exact _).
  apply (safe_pre _ pre3); [intros d _ [? Ho]; split; [done|by apply Ho]|].
  set (K := tell_waiter fence ch h h cd).
  assert (forall b, safe pre3 (K b) (fun out _ => out.1 = 0 -> 0 <= out.2)) as HK
    by (intros b'; apply safe_tell_waiter; [by intros d [[? ?] ?]|done]).
  intros d Hd [Hp Hi]. destruct (in_table_fence d h Hd Hi) as [f E]. pose proof (entry_ok_at _ _ _ Hd E) as Hf.
  pose proof (waiter_run d h f c cd b K E (proj1 Hf)) as Hrun.
  assert (forall f' t, entry_ok f' -> wp (K (if hf_fence_allocator f =? cl_client_id c then b else is_signaled_hw f))
    (fun out d' => drv_ok d' /\ stays d d' /\ (out.1 = 0 -> 0 <= out.2)) (put_fence h f' (at_tick t d))) as Hend.
  { intros f' t Hf'. pose proof (waiter_stays d h f' t) as Hs.
    eapply wp_mono; [apply HK; [apply drv_ok_put; auto with fence|split; [by eapply stable|exact Hi]]|].
    intros out d' (? & ? & ?). split; [done|]. split; [by etransitivity|done]. }
  unfold wp. match type of Hrun with ?m = _ => change (match m with Done a d' => drv_ok d' /\ stays d d' /\
    (a.1 = 0 -> 0 <= a.2) | Faulted _ => False end) end. rewrite Hrun. clear Hrun.
  destruct (hf_fence_allocator f =? cl_client_id c).
  - pose proof (Hend _ (dd_tick d) (or_fctl_ok f Hf)) as Hw. replace (at_tick (dd_tick d) d) with d in Hw by (by destruct d).
    exact Hw.
  - exact (Hend _ (S (dd_tick d)) (waiter_ok c cd (now d) f Hf)).
Qed.

Lemma safe_process_fence pre ch fence h0 cd :
  (forall d, pre d -> client_at ch d /\ opt_dma_at fence d) ->
  safe pre (hw_fence_process_fence (Some ch) fence h0 cd) (fun out _ => out.1 = 0 -> 0 <= out.2).
Proof.
  intros Hc. set (pre2 := fun d => client_at ch d /\ opt_dma_at fence d).
  assert (Stable stays pre2) as Hst by (unfold pre2; exact _).
  apply (safe_pre _ pre2); [by intros d _ ?; apply Hc|]. unfold hw_fence_process_fence.
  destruct fence as [f|]; [|by apply safe_ret].
  eapply (safe_seq pre2 pre2); [done|exact _|by apply safe_get_dma; intros d [_ ?]|]. intros g. cbv beta.
  destruct (negb _); [by apply safe_ret|]. apply (safe_pre _ pre2); [by intros d _ [? _]|]. by apply safe_register_wait.
Qed.

(** ** The calls of the client interface *)

Lemma safe_set_dma_flag pre fence bit :
  (forall d, pre d -> dma_at fence d) -> safe pre (set_dma_flag fence bit) anything.
Proof.
  intros Hc. apply safe_ok; [auto with steps|]. intros d Hd Hp. destruct (Hc d Hp) as [_ [g Eg]].
  eapply wp_done; [by eapply set_dma_flag_run|]. by apply drv_ok_mark_dma.
Qed.

Lemma safe_add_callback pre fence h :
  (forall d, pre d -> dma_at fence d) -> 0 <= h -> safe pre (hw_fence_add_callback fence h) anything.
Proof.
  intros Hc Hh. apply safe_ok; [auto with steps|]. intros d Hd Hp. destruct (Hc d Hp) as [_ Hf]. by apply add_callback_ok.
Qed.


Lemma drv_ok_set_client d ch c c' :
  drv_ok d -> zget (dd_clients d) ch = Some (Some c) -> client_ok (dd_has_soccp d) ch c' ->
  drv_ok (d <| dd_clients ::= zset ch (Some c') |>).
Proof.
  intros Hd E Hc'. pose proof (drv_ok_moved d ch c c' (dd_tick d) [] Hd E Hc') as H.
  unfold client_moved in H. by destruct d; simpl in *; rewrite app_nil_r in H.
Qed.

Lemma drv_ok_chain g d : drv_ok d -> drv_ok (d <| dd_dma_fence_table ::= g |>).
Proof.
  intros [? ? ? ? ? ? ?]. split; try done.
  by apply (table_ok_frame (fun d => d <| dd_dma_fence_table ::= g |>)).
Qed.

Lemma table_add_ok d fence g h :
  drv_ok d -> dd_dma_fences d !! fence = Some g -> 0 <= h ->
  wp (hw_fence_dma_fence_table_add fence h)
     (fun _ d' => drv_ok d' /\ is_Some (dd_dma_fences d' !! fence)) d.
Proof.
  intros Hd Eg Hh. unfold hw_fence_dma_fence_table_add, update_dma_fence. apply wp_bind, wp_bind.
  eapply wp_done; [by apply get_dma_fence_run|]. apply wp_modifyM, wp_bind, wp_modifyM, wp_ret. split.
  - apply drv_ok_chain. by apply drv_ok_put_dma.
  - simpl. rewrite lookup_insert_eq. by eexists.
Qed.

(** Putting the new dma-fence back when its fence could not be made. *)
Lemma put_new_ok {A} d fence (out : A) :
  drv_ok d -> is_Some (dd_dma_fences d !! fence) -> wp (dma_fence_put fence;;; ret out) (fun _ => drv_ok) d.
Proof.
  intros Hd [g Eg]. apply wp_bind. eapply wp_mono; [by eapply dma_fence_put_ok|]. intros [] d' Hd'. by apply wp_ret.
Qed.

(** [hw_fence_internal_dma_fence_create] once the entry is there. *)
Lemma attach_new_ok d fence h :
  drv_ok d -> is_Some (dd_dma_fences d !! fence) -> in_table h d ->
  wp (global_atomic_store (FenceLock h) true;;;
      update_fence h (fun f => f
        <| hf_flags ::= fun x => Z.lor x MSM_HW_FENCE_FLAG_INTERNAL_OWNED |>
        <| hf_refcount ::= fun r => Z.lor r HW_FENCE_DMA_FENCE_REFCOUNT |>);;;
      global_atomic_store (FenceLock h) false;;;
      set_dma_flag fence MSM_HW_FENCE_FLAG_ENABLED_BIT;;;
      hw_fence_dma_fence_table_add fence h;;;
      r <-- dma_fence_add_callback fence h;
      if negb (r =? 0) then dma_fence_put fence;;; ret (inl r, h)
      else ret (inr fence : Z + Z, h)) (fun _ => drv_ok) d.
Proof.
  intros Hd [g Eg] Hh. destruct (in_table_fence d h Hd Hh) as [f E]. pose proof (entry_ok_at _ _ _ Hd E) as Hf.
  unfold wp. rewrite (locked_update_run d h f owned) by (done || apply Hf || apply owned_neutral).
  match goal with |- match ?m ?d1 with _ => _ end => change (wp m (fun _ => drv_ok) d1) end.
  assert (drv_ok (put_fence h (owned f) d)) as Hd1 by (by apply drv_ok_put).
  apply wp_bind. eapply wp_done; [by apply (set_dma_flag_run _ _ g)|]. apply wp_bind.
  set (d2 := mark_dma fence MSM_HW_FENCE_FLAG_ENABLED_BIT (put_fence h (owned f) d)).
  assert (drv_ok d2) as Hd2 by (by apply drv_ok_mark_dma).
  eapply wp_mono; [eapply (table_add_ok d2 fence); [done| |apply Hh]|].
  { unfold d2. simpl. rewrite lookup_alter_eq, Eg. done. }
  intros r d3 [Hd3 Hf3]. apply wp_bind. unfold dma_fence_add_callback. apply wp_bind.
  eapply (wp_done _ _ _ _ (ticked d3)); [done|]. destruct (env_dma_signaled _ _ _).
  - apply wp_ret. change (negb (- ENOENT =? 0)) with true. cbv iota. apply put_new_ok; [auto with fence|done].
  - apply wp_bind, wp_modifyM, wp_ret. exact (drv_ok_logged (EvDmaAddCb fence h) _ (drv_ok_ticked _ Hd3)).
Qed.

Lemma internal_create_ok d ch h0 :
  drv_ok d -> client_at ch d -> dd_fctl_ready d = true ->
  wp (hw_fence_internal_dma_fence_create ch h0) (fun _ => drv_ok) d.
Proof.
  intros Hd [c Ec] Hr. unfold hw_fence_internal_dma_fence_create.
  apply wp_bind. eapply wp_done; [by apply get_client_run|]. cbv zeta. apply wp_bind, wp_modifyM, wp_bind.
  set (d0 := d <| dd_clients ::= zset ch (Some (c <| cl_seqno := i32 (cl_seqno c + 1) |>)) |>).
  assert (drv_ok d0) as Hd0.
  { apply (drv_ok_set_client d ch c); [done..|]. destruct (do_clients _ Hd _ _ Ec). by split. }
  unfold hw_dma_fence_init. apply wp_bind. eapply (wp_done _ _ _ _ (ticked d0)); [done|].
  destruct (env_alloc_fails _ _); [by apply wp_ret, wp_ret, drv_ok_ticked|]. apply wp_bind.
  eapply (wp_done _ _ _ _ (ticked (ticked d0))); [done|].
  destruct (env_alloc_fails _ _); [by apply wp_ret, wp_ret, drv_ok_ticked, drv_ok_ticked|].
  apply wp_bind, wp_modifyM, wp_ret. set (fence := env_new_addr _ _).
  match goal with |- wp _ _ ?x => set (d1 := x) end.
  assert (drv_ok d1) as Hd1 by (apply drv_ok_put_dma; [auto with fence|done]).
  assert (is_Some (dd_dma_fences d1 !! fence)) as Hf1 by (simpl; rewrite lookup_insert_eq; by eexists).
  apply wp_bind. eapply wp_mono; [by apply create_ok|]. intros [r h] d2 (Hd2 & Hh & Hs).
  assert (is_Some (dd_dma_fences d2 !! fence)) as Hf2 by (rewrite Hs; [done|by left]). simpl in Hh.
  destruct (negb (r =? 0)); [by apply put_new_ok|]. apply wp_bind, wp_get.
  destruct (decide (h < dd_hw_fences_tbl_cnt d2)).
  - rewrite (get_hw_fence_in d2 h) by (apply Hd2 || done). by apply attach_new_ok.
  - rewrite get_hw_fence_out by (apply Hd2 || lia). by apply put_new_ok.
Qed.

(** The checks at the entry of a call. *)
Lemma check_client_answers ch d :
  exists e, hw_fence_check_valid_client ch d = Done e d /\ (e = 0 -> is_Some ch).
Proof.
  unfold hw_fence_check_valid_client, hw_fence_check_hw_fence_driver, bind, get, ret.
  destruct (dd_resources_ready d); [|by exists (- EINVAL)]. destruct ch; eexists; by split.
Qed.

Lemma check_fctl_answers ch d :
  exists e, hw_fence_check_valid_fctl ch d = Done e d /\ (e = 0 -> is_Some ch /\ dd_fctl_ready d = true).
Proof.
  unfold hw_fence_check_valid_fctl. destruct (check_client_answers ch d) as (e & E & He).
  rewrite (bind_run _ _ _ _ _ E). destruct (Z.eqb_spec e 0) as [->|]; cbn [negb]; [|by exists e].
  exists (if dd_fctl_ready d then 0 else - EAGAIN). split; [done|]. destruct (dd_fctl_ready d); [|done]. auto.
Qed.

Lemma safe_check_client {A} (pre : driver_data -> Prop) ch (bad : Z -> DRV A) good Q :
  (forall e, e <> 0 -> safe pre (bad e) Q) -> (forall h, ch = Some h -> safe pre good Q) ->
  safe pre (r <-- hw_fence_check_valid_client ch; if negb (r =? 0) then bad r else good) Q.
Proof.
  intros Hbad Hgood d Hd Hp. destruct (check_client_answers ch d) as (e & E & He). apply wp_bind.
  eapply wp_done; [exact E|]. destruct (Z.eqb_spec e 0) as [->|]; cbn [negb]; [|by apply Hbad].
  destruct (He eq_refl) as [h ->]. by apply (Hgood h).
Qed.

Lemma safe_check_fctl {A} (pre : driver_data -> Prop) ch (bad : Z -> DRV A) good Q :
  (forall e, e <> 0 -> safe pre (bad e) Q) ->
  (forall h, ch = Some h -> safe (fun d => pre d /\ dd_fctl_ready d = true) good Q) ->
  safe pre (r <-- hw_fence_check_valid_fctl ch; if negb (r =? 0) then bad r else good) Q.
Proof.
  intros Hbad Hgood d Hd Hp. destruct (check_fctl_answers ch d) as (e & E & He). apply wp_bind.
  eapply wp_done; [exact E|]. destruct (Z.eqb_spec e 0) as [->|]; cbn [negb]; [|by apply Hbad].
  destruct (He eq_refl) as [[h ->] Hr]. by apply (Hgood h).
Qed.

(** A client handle that is null or of a client. *)
Definition handle_at (ch : option Z) (d : driver_data) : Prop :=
  match ch with Some h => client_at h d | None => True end.

#[export] Instance stable_handle ch : Stable stays (handle_at ch).
Proof. destruct ch; [exact _|by intros d d' _]. Qed.

(** A dma-fence argument: an ordinary fence or an array. *)
Definition fence_arg (fence : Z) (d : driver_data) : Prop :=
  plain_at fence d \/ exists l, array_at fence l d.

#[export] Instance stable_fence_arg fence : Stable stays (fence_arg fence).
Proof. intros d d' Hs [H|[l H]]; [left|right; exists l]; by eapply stable. Qed.

Definition opt_arg (fence : option Z) (d : driver_data) : Prop :=
  match fence with Some f => fence_arg f d | None => True end.

#[export] Instance stable_opt_arg fence : Stable stays (opt_arg fence).
Proof. destruct fence; [exact _|by intros d d' _]. Qed.

Lemma fence_arg_dma fence d : fence_arg fence d -> dma_at fence d.
Proof. intros [H|[l H]]; [by apply plain_dma_at|by eapply array_dma_at]. Qed.

(** [msm_hw_fence_create] *)

Lemma safe_external_create c fence x s h0 :
  safe (dma_at fence)
    (out <-- hw_fence_create c fence x s h0;
     let '(r, handle) := out in
     if negb (r =? 0) then ret (r, Some handle)
     else
       r <-- hw_fence_add_callback fence handle;
       if negb (r =? 0) then
         hw_fence_destroy_refcount handle HW_FENCE_FCTL_REFCOUNT;;;
         hw_fence_destroy_with_hash handle;;;
         ret (r, Some handle)
       else set_dma_flag fence MSM_HW_FENCE_FLAG_ENABLED_BIT;;; ret (r, Some handle))
    anything.
Proof.
  eapply (safe_seq (dma_at fence) (dma_at fence) _ _ (fun out _ => 0 <= out.2)); [done|exact _| |].
  { apply safe_intro; [auto with steps|]. intros d Hd _. eapply wp_mono; [by apply create_ok|]. by intros ? ? (? & ? & _). }
  intros [r h]. apply (safe_fact (0 <= h)); [by intros d [_ ?]|]. intros Hh.
  apply (safe_pre _ (dma_at fence)); [by intros d _ [? _]|]. destruct (negb (r =? 0)); [by apply safe_ret|].
  eapply safe_then; [exact _|by apply safe_add_callback|]. intros r'. destruct (negb (r' =? 0)).
  - eapply safe_then; [exact _|by apply safe_destroy_refcount|]. intros ?.
    eapply safe_then; [exact _|by apply safe_destroy_hash|]. intros ?. by apply safe_ret.
  - eapply safe_then; [exact _|by apply safe_set_dma_flag|]. intros ?. by apply safe_ret.
Qed.

Definition create_arg (params : option create_params) (d : driver_data) : Prop :=
  match params with Some p => opt_arg (cp_fence p) d | None => True end.

#[export] Instance stable_create_arg params : Stable stays (create_arg params).
Proof. destruct params as [p|]; [apply stable_opt_arg|by intros d d' _]. Qed.

Lemma safe_create pre ch params :
  (forall d, pre d -> handle_at ch d /\ create_arg params d) -> safe pre (msm_hw_fence_create ch params) anything.
Proof.
  intros Hc. set (pre2 := fun d => handle_at ch d /\ create_arg params d).
  apply (safe_pre _ pre2); [by intros d _ ?; apply Hc|]. unfold msm_hw_fence_create.
  apply safe_check_fctl; [intros e He; by apply safe_ret|]. intros h ->.
  destruct params as [[fence [handle|]]|]; try by apply safe_ret. apply safe_deref_value.
  destruct fence as [f|].
  - apply (safe_pre _ (fun d => client_at h d /\ fence_arg f d)); [by intros d _ [[? ?] _]|].
    eapply safe_then; [exact _|apply safe_get_dma; intros d [_ ?]; by apply fence_arg_dma|]. intros g.
    destruct (df_array g); [by apply safe_ret|]. destruct (test_dma_flag _ _); [by apply safe_ret|].
    eapply safe_then; [exact _|by apply safe_get_client; intros d [? _]|]. intros c.
    apply (safe_pre _ (dma_at f)); [intros d _ [_ ?]; by apply fence_arg_dma|]. apply safe_external_create.
  - eapply (safe_seq _ (fun _ => True) _ _ anything); [done|by intros d d' _| |intros out; by apply safe_ret].
    apply safe_ok; [apply frames_internal_create|]. intros d Hd [[Hh _] Hr]. by apply internal_create_ok.
Qed.

(** [msm_hw_fence_destroy], [msm_hw_fence_destroy_with_handle] *)

Lemma safe_destroy_handle pre ch h :
  (forall d, pre d -> handle_at ch d) -> 0 <= h -> safe pre (msm_hw_fence_destroy_with_handle ch h) anything.
Proof.
  intros Hc Hh. apply (safe_pre _ (handle_at ch)); [by intros d _ ?; apply Hc|].
  unfold msm_hw_fence_destroy_with_handle. apply safe_check_client; [intros e He; by apply safe_ret|].
  intros c ->. apply safe_deref_value. eapply safe_then; [exact _|by apply safe_get_client|]. intros cl.
  apply safe_get. intros d _ _. destruct (_ <=? _); [by apply safe_ret|]. by apply safe_destroy_hash.
Qed.

Lemma safe_destroy pre ch fence :
  (forall d, pre d -> handle_at ch d /\ opt_arg fence d) -> safe pre (msm_hw_fence_destroy ch fence) anything.
Proof.
  intros Hc. set (pre2 := fun d => handle_at ch d /\ opt_arg fence d).
  apply (safe_pre _ pre2); [by intros d _ ?; apply Hc|]. unfold msm_hw_fence_destroy.
  apply safe_check_client; [intros e He; by apply safe_ret|]. intros h ->. destruct fence as [f|]; [|by apply safe_ret].
  apply (safe_pre _ (fun d => client_at h d /\ dma_at f d)); [intros d _ [? ?]; split; [done|by apply fence_arg_dma]|].
  eapply safe_then; [exact _|by apply safe_get_dma; intros d [_ ?]|]. intros g. destruct (df_array g); [by apply safe_ret|].
  destruct (negb _); [by apply safe_ret|]. destruct (df_hw_dma g); [by apply safe_ret|].
  eapply safe_then; [exact _|by apply safe_get_client; intros d [? _]|]. intros c.
  eapply (safe_then _ _ _ anything); [exact _| |].
  { apply safe_ok; [auto with steps|]. intros d Hd _. by apply destroy_ok. }
  intros r. destruct (negb (r =? 0)); [by apply safe_ret|].
  eapply (safe_then _ _ _ anything); [exact _| |intros a; by apply safe_ret].
  apply safe_ok; [auto with steps|]. intros d Hd [_ [_ [g' Eg]]]. unfold clear_dma_flag, update_dma_fence.
  apply wp_bind. eapply wp_done; [by apply get_dma_fence_run|]. apply wp_modifyM.
  apply (drv_ok_put_dma f _ d Hd). exact (do_dma _ Hd _ _ Eg).
Qed.

(** [msm_hw_fence_wait_update_v2] *)

Lemma safe_wait_one ch fence cd :
  safe (fun d => client_at ch d /\ opt_arg fence d) (wait_one ch fence cd) (fun out _ => out.1 = 0 -> 0 <= out.2).
Proof.
  unfold wait_one. destruct fence as [f|]; [|apply safe_process_fence; by intros d [? _]].
  intros d Hd [Hc [Hp|[l Ha]]].
  - pose proof Hp as (_ & g & Eg & Ha). apply wp_bind. eapply wp_done; [by apply get_dma_fence_run|]. rewrite Ha.
    apply (safe_process_fence (fun d => client_at ch d /\ plain_at f d)); [|done|by split].
    intros d' [? ?]. split; [done|]. by apply plain_dma_at.
  - pose proof Ha as (_ & _ & (g & Eg & Hl & _) & _). apply wp_bind.
    eapply wp_done; [by apply get_dma_fence_run|]. rewrite Hl.
    by apply (safe_process_array (fun d => client_at ch d /\ array_at f l d) ch f l).
Qed.

Definition args_at (l : list (option Z)) (d : driver_data) : Prop := Forall (fun f => opt_arg f d) l.

#[export] Instance stable_args l : Stable stays (args_at l).
Proof. intros d d' Hs H. eapply Forall_impl; [exact H|]. intros f. by apply stable_opt_arg. Qed.

(** The first [n] handles name entries. *)
Definition handles_ok (n : Z) (hs : list Z) : Prop := forall j, 0 <= j < n -> exists h, zget hs j = Some h /\ 0 <= h.

Lemma handles_ok_snoc n h hs : 0 <= n < zlen hs -> 0 <= h -> handles_ok n hs -> handles_ok (n + 1) (zset n h hs).
Proof.
  intros Hn Hh Hok j Hj. destruct (decide (j = n)) as [->|].
  - exists h. split; [|done]. by apply zget_zset_eq.
  - rewrite zget_zset_ne by done. apply Hok. lia.
Qed.

(** The list of client data, when there is one, has a value for every fence. *)
Definition data_for (n : Z) (cds : option (list Z)) : Prop := forall l, cds = Some l -> n <= zlen l.

Lemma safe_wait_all n ch l cds : forall i hs,
  0 <= i -> i + Z.of_nat n <= zlen l -> i + Z.of_nat n <= zlen hs -> data_for (i + Z.of_nat n) cds -> handles_ok i hs ->
  safe (fun d => client_at ch d /\ args_at l d) (wait_all n i ch l cds (Some hs))
    (fun out _ => i <= out.1.2 <= i + Z.of_nat n /\ (out.1.1 = 0 -> out.1.2 = i + Z.of_nat n) /\
       exists hs', out.2 = Some hs' /\ handles_ok out.1.2 hs').
Proof.
  induction n as [|n IH]; intros i hs Hi Hl Hhs Hcd Hok; cbn [wait_all].
  { apply safe_ret. intros d _. simpl. split; [lia|]. split; [lia|by exists hs]. }
  destruct (zget_is_Some l i) as [f Ef]; [lia|]. rewrite Ef. apply safe_deref_value.
  apply (safe_then _ _ _ anything); [exact _| |].
  { destruct cds as [ds|]; [|by apply safe_ret]. specialize (Hcd _ eq_refl).
    destruct (zget_is_Some ds i) as [x Ex]; [lia|]. rewrite Ex. by apply safe_ret. }
  intros cd. eapply (safe_seq _ (fun d => client_at ch d /\ args_at l d)); [done|exact _| |].
  { eapply safe_pre; [|apply (safe_wait_one ch f cd)]. intros d _ [? Ha]. split; [done|].
    unfold args_at in Ha. rewrite Forall_forall in Ha. apply Ha. unfold zget in Ef. case_match; [|done].
    by eapply list_elem_of_lookup_2. }
  intros [r h]. destruct (Z.eqb_spec r 0) as [->|Hr]; cbn [negb].
  - apply (safe_fact (0 <= h)); [intros d [_ H]; by apply H|]. intros Hh.
    apply (safe_pre _ (fun d => client_at ch d /\ args_at l d)); [by intros d _ [? _]|].
    destruct (zget_is_Some hs i) as [x Ex]; [lia|]. rewrite Ex. apply safe_deref_value.
    eapply safe_post; [apply (IH (i + 1) (zset i h hs)); rewrite ?zlen_zset; try lia|].
    + intros ds Hds. specialize (Hcd ds Hds). lia.
    + by apply handles_ok_snoc; [lia|..].
    + cbv beta. intros out d _ (H1 & H2 & H3). split; [lia|]. split; [intros H0; specialize (H2 H0); lia|done].
  - apply safe_ret. intros d _. simpl. split; [lia|]. split; [done|]. by exists hs.
Qed.

Lemma safe_unwait_all i hs :
  0 <= i -> handles_ok i hs -> safe (fun _ => True) (unwait_all i (Some hs)) anything.
Proof.
  intros Hi Hok. unfold unwait_all.
  eapply safe_post; [apply (safe_for_n (fun _ => True) _ _ _ _ (fun _ => True)); [by intros d d' _|done|]|done].
  intros j [] Hj _. destruct (Hok j) as (h & Eh & Hh); [lia|]. rewrite Eh. apply safe_deref_value.
  eapply (safe_then _ _ _ anything); [by intros d d' _|by apply safe_destroy_hash|]. intros r. by apply safe_ret.
Qed.

(** Lists that are long enough for [n] fences. *)
Definition wait_arg (l : list (option Z)) (hs : list Z) (cds : option (list Z)) (n : Z) : Prop :=
  0 < zlen l /\ n <= zlen l /\ n <= zlen hs /\ forall ds, cds = Some ds -> n <= zlen ds.

Lemma safe_wait_v2 pre ch l hs cds n :
  (forall d, pre d -> handle_at ch d /\ args_at l d) -> 0 <= n -> wait_arg l hs cds n ->
  safe pre (msm_hw_fence_wait_update_v2 ch (Some l) (Some hs) cds n)
    (fun out _ => out.1 = 0 -> exists hs', out.2 = Some hs' /\ handles_ok n hs').
Proof.
  intros Hc Hn0 (Hl0 & Hl & Hhs & Hcd). set (pre2 := fun d => handle_at ch d /\ args_at l d).
  apply (safe_pre _ pre2); [by intros d _ ?; apply Hc|]. unfold msm_hw_fence_wait_update_v2.
  destruct (zget_is_Some l 0) as [f0 Ef]; [lia|]. rewrite Ef.
  apply safe_check_fctl; [intros e He; by apply safe_ret|]. intros h ->. apply safe_deref_value.
  destruct f0 as [f0|]; [|by apply safe_ret]. apply safe_deref_value.
  set (pre3 := fun d => client_at h d /\ args_at l d).
  apply (safe_pre _ pre3); [by intros d _ [? _]|].
  eapply (safe_then pre3); [unfold pre3; exact _|by apply safe_get_client; intros d [? _]|]. intros c. cbv zeta.
  destruct (_ && _); [by apply safe_ret|].
  eapply (safe_seq pre3 (fun _ => True)); [done|by intros d d' _|apply (safe_wait_all (Z.to_nat n) h l cds 0 hs)|].
  1-3: lia.
  { intros ds Hds. specialize (Hcd ds Hds). lia. }
  { intros j Hj. lia. }
  intros [[r i] hs']. eapply safe_fact; [by intros d [_ H]; exact H|]. simpl. intros (Hi & H0 & hs2 & -> & Hok).
  apply (safe_pre _ (fun _ => True)); [done|]. destruct (Z.eqb_spec r 0) as [->|Hr]; cbn [negb].
  - apply safe_ret. intros d _ _. exists hs2. split; [done|]. rewrite H0 in Hok by done.
    by replace (0 + Z.of_nat (Z.to_nat n)) with n in Hok by lia.
  - eapply (safe_then (fun _ => True)); [by intros d d' _|by apply safe_unwait_all; [lia|]|]. intros []. by apply safe_ret.
Qed.

(** [msm_hw_fence_wait_update]: one call per fence. *)
Lemma safe_wait_each n ch l : forall i,
  0 <= i -> i + Z.of_nat n <= zlen l ->
  safe (fun d => handle_at ch d /\ args_at l d) (wait_each n i ch l) anything.
Proof.
  set (pre := fun d => handle_at ch d /\ args_at l d).
  induction n as [|n IH]; intros i Hi Hl; cbn [wait_each]; [by apply safe_ret|].
  assert (zlen (drop (Z.to_nat i) l) = zlen l - i) as Hd by (unfold zlen in *; rewrite length_drop; lia).
  eapply (safe_seq pre pre); [done|unfold pre; exact _| |].
  { apply (safe_wait_v2 _ ch (drop (Z.to_nat i) l) [0] None 1); [|lia|].
    - intros d [? Ha]. split; [done|]. by apply Forall_drop.
    - split_and!; [lia|lia|by unfold zlen|done]. }
  intros [r hs]. simpl. destruct (Z.eqb_spec r 0) as [->|]; cbn [negb]; [|by apply safe_ret].
  eapply safe_fact; [by intros d [_ H]; exact (H eq_refl)|]. intros (hs' & -> & Hok).
  destruct (Hok 0) as (h & Eh & Hh); [lia|]. rewrite Eh. apply safe_deref_value.
  apply (safe_pre _ pre); [by intros d _ [? _]|].
  eapply (safe_then pre); [unfold pre; exact _|by apply safe_destroy_handle; [intros d [? _]|]|]. intros r.
  destruct (negb (r =? 0)); [by apply safe_ret|]. apply IH; lia.
Qed.

(** The Tx queue of a client. *)
Lemma update_txq_ok d ch x s h fl cd e :
  drv_ok d -> client_at ch d -> wp (hw_fence_update_queue ch x s h fl cd e (HW_FENCE_TX_QUEUE - 1)) (fun _ => drv_ok) d.
Proof.
  intros Hd [c Ec]. pose proof (do_clients _ Hd _ _ Ec) as Hc. pose proof (ck_num _ _ _ Hc) as Hn.
  unfold hw_fence_update_queue. apply wp_bind. eapply wp_done; [by apply get_client_run|].
  change (HW_FENCE_TX_QUEUE - 1) with 0. destruct (Z.leb_spec (cl_queues_num c) 0); [lia|].
  destruct (zget_is_Some (cl_queues c) 0) as [q Eq]; [lia|].
  assert (queue_ok (dd_has_soccp d) q) as Hq by (by apply (ck_queue_ok _ _ _ Hc 0)).
  unfold hw_fence_update_queue_helper. apply wp_bind, wp_get, wp_bind.
  eapply wp_done; [by eapply get_queue_run|]. cbv zeta. destruct (params_is_Some _ _ Hq) as [ps ->].
  change (_lock_client_queue 0) with false. cbv iota. apply wp_bind, wp_get, wp_bind.
  destruct (update_queue_ok (dd_has_soccp d) q HW_FENCE_PAYLOAD_TYPE_1 x s h fl cd e (now d) Hq)
    as (r & q' & Er & Hq' & Hsk & _).
  eapply wp_done; [by eapply on_queue_run|].
  assert (drv_ok (client_moved ch (c <| cl_queues ::= zset 0 q' |>) (dd_tick d) [] d)) as Hd'
    by (eapply drv_ok_moved; [done|done|by eapply client_ok_set_queue]).
  apply wp_bind. destruct (r =? 0); [|by apply wp_ret, wp_ret].
  apply wp_bind. eapply wp_done; [done|]. by apply wp_ret, wp_ret, drv_ok_ticked.
Qed.

Lemma safe_update_txq pre ch h fl e :
  (forall d, pre d -> handle_at ch d) -> 0 <= h -> safe pre (msm_hw_fence_update_txq ch h fl e) anything.
Proof.
  intros Hc Hh. apply (safe_pre _ (handle_at ch)); [by intros d _ ?; apply Hc|]. unfold msm_hw_fence_update_txq.
  apply safe_check_client; [intros ? He; by apply safe_ret|]. intros c ->. apply safe_get. intros d Hd Hp.
  destruct (Z.leb_spec (dd_hw_fences_tbl_cnt d) h); [by apply safe_ret|]. apply safe_deref_value.
  apply (safe_pre _ (fun d => client_at c d /\ in_table h d)); [by intros ? _ <-|].
  eapply (safe_then (fun d => client_at c d /\ in_table h d)); [exact _|by apply safe_get_fence; intros ? [_ ?]|].
  intros f. eapply (safe_then _ _ _ anything); [exact _| |intros ?; by apply safe_ret].
  apply safe_ok; [auto with steps|]. intros d' Hd' [? _]. by apply update_txq_ok.
Qed.

(** Resets. *)
Lemma safe_reset pre ch fl :
  (forall d, pre d -> handle_at ch d) -> safe pre (msm_hw_fence_reset_client ch fl) anything.
Proof.
  intros Hc. apply (safe_pre _ (handle_at ch)); [by intros d _ ?; apply Hc|]. unfold msm_hw_fence_reset_client.
  apply safe_check_client; [intros ? He; by apply safe_ret|]. intros c ->. apply safe_deref_value.
  apply safe_get. intros d Hd Hp. set (n := dd_hw_fences_tbl_cnt d). pose proof (tw_cnt _ (to_wf _ (do_table _ Hd))) as Hn.
  set (live := fun d' => client_at c d' /\ dd_hw_fences_tbl_cnt d' = n).
  assert (Stable stays live) as Hst.
  { apply stable_and; [exact _|]. intros d1 d2 Hs. by rewrite (st_cnt _ _ Hs). }
  apply (safe_pre _ live); [by intros ? _ <-|].
  eapply (safe_then live); [exact _| |].
  { eapply (safe_for_n live _ _ _ _ (fun _ => True)); [exact _|done|]. intros i [] Hi _.
    eapply (safe_seq live (fun _ => True) _ _ anything); [done|by intros ? ? _| |intros ?; by apply safe_ret].
    apply safe_ok; [auto with steps|]. intros d' Hd' [[cl Ecl] Hcnt]. eapply cleanup_ok; [done|exact Ecl|lia]. }
  intros []. eapply (safe_then live _ _ anything); [exact _| |intros ?; by apply safe_ret].
  apply safe_ok; [auto with steps|]. intros d' Hd' [[cl Ecl] _].
  destruct (reset_queues_run d' c cl Hd' Ecl) as (cl' & Hr & Hcl & _). eapply wp_done; [exact Hr|]. by eapply drv_ok_moved.
Qed.

(** The device tree says what type the client is of. *)
Definition id_known (id : Z) (d : driver_data) : Prop :=
  id < HW_FENCE_CLIENT_MAX -> exists n, hw_fence_utils_get_client_id_priv (ml_client_types (dd_layout d)) id = Some n /\
    (n < HW_FENCE_CLIENT_MAX -> exists o, zget (dd_clients d) n = Some o).

#[export] Instance stable_id_known id : Stable stays (id_known id).
Proof.
  intros d d' Hs Hk Hid. destruct (Hk Hid) as (n & E & Hn). exists n. split.
  - by rewrite (f_equal (fun x => x.1.1.2) (st_fixed _ _ Hs) : dd_layout d' = dd_layout d).
  - intros Hmax. destruct (Hn Hmax) as [o Eo]. pose proof (st_clients _ _ Hs n) as Hc. unfold client_ids in Hc.
    rewrite Eo in Hc. destruct (zget (dd_clients d') n) as [o'|]; [by exists o'|done].
Qed.

Lemma safe_reset_by_id pre id fl :
  (forall d, pre d -> id_known id d) -> safe pre (msm_hw_fence_reset_client_by_id id fl) anything.
Proof.
  intros Hc. unfold msm_hw_fence_reset_client_by_id.
  eapply (safe_seq _ (id_known id) _ _ anything); [done|exact _| |].
  { apply safe_ok; [auto with steps|]. by intros d Hd _. }
  intros r. destruct (negb (r =? 0)); [by apply safe_ret|]. destruct (Z.leb_spec HW_FENCE_CLIENT_MAX id); [by apply safe_ret|].
  apply safe_get. intros d Hd [Hk _]. destruct (Hk ltac:(lia)) as (n & -> & Hn). apply safe_deref_value.
  destruct (Z.leb_spec HW_FENCE_CLIENT_MAX n); [by apply safe_ret|]. destruct (Hn ltac:(lia)) as [o Eo].
  intros d' Hd' <-. apply wp_bind. unfold get_client_opt. apply wp_bind, wp_get. rewrite Eo. apply wp_ret.
  apply (safe_reset (handle_at (match o with Some _ => Some n | None => None end))); [done|done|].
  destruct o as [c|]; [by exists c|done].
Qed.

(** The interrupt controller and the error callback. *)
Lemma safe_trigger pre ch t r s : safe pre (msm_hw_fence_trigger_signal ch t r s) anything.
Proof.
  unfold msm_hw_fence_trigger_signal. apply safe_check_client; [intros ? He; by apply safe_ret|]. intros h ->.
  eapply (safe_seq pre (fun _ => True) _ _ anything); [done|by intros ? ? _| |intros ?; by apply safe_ret].
  apply safe_ok; [auto with steps|]. intros d Hd _. by apply drv_ok_logged.
Qed.

(** What a call writes to the client's own record. *)
Lemma safe_update_client pre ch g :
  (forall d, pre d -> client_at ch d) -> (forall c, cl_client_id (g c) = cl_client_id c) ->
  (forall sc c, client_ok sc ch c -> client_ok sc ch (g c)) -> safe pre (update_client ch g) anything.
Proof.
  intros Hc Hid Hg. apply safe_ok; [apply frames_of_steps; by apply steps_update_client|].
  intros d Hd Hp. destruct (Hc d Hp) as [c Ec]. unfold update_client. apply wp_bind.
  eapply wp_done; [by apply get_client_run|]. apply wp_modifyM. eapply drv_ok_set_client; [done|done|].
  apply Hg. by apply (do_clients _ Hd).
Qed.

Lemma safe_register_cb pre ch cb data :
  (forall d, pre d -> handle_at ch d) -> safe pre (msm_hw_fence_register_error_cb ch cb data) anything.
Proof.
  intros Hc. apply (safe_pre _ (handle_at ch)); [by intros d _ ?; apply Hc|].
  unfold msm_hw_fence_register_error_cb. apply safe_check_client; [intros ? He; by apply safe_ret|]. intros h ->.
  destruct (_ || _); [by apply safe_ret|]. apply safe_deref_value.
  eapply safe_then; [exact _|by apply safe_get_client|]. intros c. destruct (negb _); [by apply safe_ret|].
  eapply safe_then; [exact _| |intros ?; by apply safe_ret]. apply safe_update_client; [done|done|].
  by intros sc c0 [? ? ? ? ? ?].
Qed.

Lemma safe_deregister_cb pre ch :
  (forall d, pre d -> handle_at ch d) -> safe pre (msm_hw_fence_deregister_error_cb ch) anything.
Proof.
  intros Hc. apply (safe_pre _ (handle_at ch)); [by intros d _ ?; apply Hc|]. intros d Hd Hp.
  destruct (dd_resources_ready d) eqn:Hr.
  2: { destruct (check_client_answers ch d) as (e & E & He). unfold msm_hw_fence_deregister_error_cb.
       apply wp_bind. eapply wp_done; [exact E|]. revert E.
       unfold hw_fence_check_valid_client, hw_fence_check_hw_fence_driver. rewrite bind_assoc, (bind_run get _ d d d), Hr by done.
       intros [= <-]. by apply wp_ret. }
  destruct ch as [h|].
  - destruct Hp as [c Ec]. pose proof (do_clients _ Hd _ _ Ec) as Hk.
    eapply wp_done; [by apply (deregister_error_cb_run d h c); [..|apply (ck_mutex _ _ _ Hk)]|].
    destruct (_ =? 0); [by split; [|split]|]. split; [|split; [|done]].
    + eapply drv_ok_set_client; [done|done|]. by destruct Hk.
    + by apply ol_stays, (older_set_client d h c).
  - eapply (wp_done _ _ _ (- EINVAL) d); [|by split; [|split]].
    unfold msm_hw_fence_deregister_error_cb, hw_fence_check_valid_client, hw_fence_check_hw_fence_driver.
    unfold bind, get, ret. by rewrite Hr.
Qed.

Lemma safe_dump pre ch fence :
  (forall d, pre d -> handle_at ch d /\ dma_at fence d) -> safe pre (msm_hw_fence_dump_fence ch fence) anything.
Proof.
  intros Hc. set (pre2 := fun d => handle_at ch d /\ dma_at fence d).
  apply (safe_pre _ pre2); [by intros d _ ?; apply Hc|]. unfold msm_hw_fence_dump_fence.
  apply safe_check_client; [intros ? He; by apply safe_ret|]. intros h ->.
  eapply (safe_then pre2); [unfold pre2; exact _|by apply safe_get_dma; intros d [_ ?]|]. intros g.
  destruct (negb _); [by apply safe_ret|].
  eapply (safe_seq pre2 (handle_at (Some h))); [by intros d [? _]|exact _|by apply safe_find|].
  intros [[x|] y]; [|by apply safe_ret]. simpl. intros d Hd [Hh Hx]. destruct (Hx x eq_refl) as [-> [Hx0 _]].
  revert d Hd Hh Hx. intros d Hd Hh _.
  apply (safe_then (handle_at (Some h)) _ _ anything); [exact _|by apply safe_destroy_handle|intros ?; by apply safe_ret|done|done].
Qed.

(** ** Sequences of calls *)

(** The calls of a client on the fences; registering and its end are
    [HwFenceApi.run_client_op]. *)
Inductive api_op :=
| ACreate (params : option create_params)
| ADestroy (fence : option Z)
| ADestroyHandle (handle : Z)
| AWaitV2 (fences : list (option Z)) (handles : list Z) (client_data : option (list Z)) (num_fences : Z)
| AWait (fences : list (option Z)) (num_fences : Z)
| AReset (flags : Z)
| AResetById (client_id_ext flags : Z)
| AUpdateTxq (handle flags error : Z)
| ATrigger (tx_client_pid rx_client_vid signal_id : Z)
| ARegisterCb (cb data : Z)
| ADeregisterCb
| ADump (fence : Z).

Definition run_api_op (ch : option Z) (o : api_op) : DRV unit :=
  match o with
  | ACreate params => msm_hw_fence_create ch params;;; ret tt
  | ADestroy fence => msm_hw_fence_destroy ch fence;;; ret tt
  | ADestroyHandle h => msm_hw_fence_destroy_with_handle ch h;;; ret tt
  | AWaitV2 l hs cds n => msm_hw_fence_wait_update_v2 ch (Some l) (Some hs) cds n;;; ret tt
  | AWait l n => msm_hw_fence_wait_update ch l n;;; ret tt
  | AReset fl => msm_hw_fence_reset_client ch fl;;; ret tt
  | AResetById id fl => msm_hw_fence_reset_client_by_id id fl;;; ret tt
  | AUpdateTxq h fl e => msm_hw_fence_update_txq ch h fl e;;; ret tt
  | ATrigger t r s => msm_hw_fence_trigger_signal ch t r s;;; ret tt
  | ARegisterCb cb data => msm_hw_fence_register_error_cb ch cb data;;; ret tt
  | ADeregisterCb => msm_hw_fence_deregister_error_cb ch;;; ret tt
  | ADump fence => msm_hw_fence_dump_fence ch fence;;; ret tt
  end.

Fixpoint run_api_ops (os : list (option Z * api_op)) : DRV unit :=
  match os with
  | [] => ret tt
  | (ch, o) :: os => run_api_op ch o;;; run_api_ops os
  end.

(** What the caller vouches for. *)
Definition api_pre (ch : option Z) (o : api_op) (d : driver_data) : Prop :=
  handle_at ch d /\
  match o with
  | ACreate params => create_arg params d
  | ADestroy fence => opt_arg fence d
  | ADestroyHandle h | AUpdateTxq h _ _ => 0 <= h
  | AWaitV2 l hs cds n => args_at l d /\ 0 <= n /\ wait_arg l hs cds n
  | AWait l n => args_at l d /\ n <= zlen l
  | AResetById id _ => id_known id d
  | ADump fence => dma_at fence d
  | AReset _ | ATrigger _ _ _ | ARegisterCb _ _ | ADeregisterCb => True
  end.

#[export] Instance stable_api_pre ch o : Stable stays (api_pre ch o).
Proof. destruct o; apply stable_and; exact _. Qed.

Lemma safe_unit {A} pre (m : DRV A) P : safe pre m P -> safe pre (m;;; ret tt) anything.
Proof.
  intros Hm. eapply (safe_seq pre (fun _ => True)); [done|by intros ? ? _|exact Hm|]. intros ?. by apply safe_ret.
Qed.

Lemma safe_api_op ch o : safe (api_pre ch o) (run_api_op ch o) anything.
Proof.
  destruct o; simpl; eapply safe_unit.
  - apply safe_create. by intros d [? ?].
  - apply safe_destroy. by intros d [? ?].
  - apply (safe_fact (0 <= handle)); [by intros d [_ ?]|]. intros ?. apply safe_destroy_handle; [by intros d [? _]|done].
  - eapply safe_fact; [intros d (_ & _ & H); exact H|]. intros [? ?]. apply safe_wait_v2; [|done..].
    by intros d (? & ? & _).
  - eapply safe_fact; [intros d (_ & _ & H); exact H|]. intros ?. unfold msm_hw_fence_wait_update.
    eapply safe_pre; [|apply (safe_wait_each _ _ _ 0); [done|]]; [by intros d _ (? & ? & _)|].
    pose proof (zlen_nonneg fences). lia.
  - apply safe_reset. by intros d [? _].
  - apply safe_reset_by_id. by intros d [_ ?].
  - apply (safe_fact (0 <= handle)); [by intros d [_ ?]|]. intros ?. apply safe_update_txq; [by intros d [? _]|done].
  - apply safe_trigger.
  - apply safe_register_cb. by intros d [? _].
  - apply safe_deregister_cb. by intros d [? _].
  - apply safe_dump. by intros d [? ?].
Qed.

Lemma frames_update_hsynx h x w : frames (hw_fence_update_hsynx h x w).
Proof. unfold hw_fence_update_hsynx. steps_tac. Qed.

#[export] Hint Resolve frames_update_hsynx : steps.

(** What the driver does beside the calls of clients - it learns that a fence signaled,
    the kernel calls it back, another driver finds or releases a fence - needs arguments
    as they are there: handles are unsigned, dma-fences are held. *)
Definition fence_op_at (o : fence_op) (d : driver_data) : Prop :=
  match o with
  | FCreate _ _ _ _ | FDestroy _ _ _ => True
  | FSignal fence hash _ _ => 0 <= hash /\ opt_dma_at fence d
  | FCallback fence hash | FAddCallback fence hash => 0 <= hash /\ dma_at fence d
  | FDestroyHash hash | FHsynx hash _ _ => 0 <= hash
  | FFind _ fence _ => dma_at fence d
  | FCleanup ch hash _ => in_table hash d /\ client_at ch d
  end.

#[export] Instance stable_fence_op_at o : Stable stays (fence_op_at o).
Proof. destruct o; unfold fence_op_at; exact _. Qed.

Lemma fence_op_at_pre o d : fence_op_at o d -> fence_op_pre d o.
Proof.
  destruct o; simpl; try done.
  - intros [? Hf]. split; [done|]. intros x ->. apply Hf.
  - by intros [? [? ?]].
  - by intros [? [? ?]].
  - by intros [? ?].
Qed.

Lemma frames_fence_op o : frames (run_fence_op o).
Proof. destruct o; simpl; steps_tac. Qed.

Lemma safe_fence_op o : safe (fence_op_at o) (run_fence_op o) anything.
Proof.
  apply safe_ok; [apply frames_fence_op|]. intros d Hd Hp. apply fence_ops_keep_ok; [done|by apply fence_op_at_pre].
Qed.

(** What happens to the driver, one after the other. *)
Inductive drv_op :=
| Call (ch : option Z) (o : api_op)
| Inside (o : fence_op).

Definition run_drv_op (o : drv_op) : DRV unit :=
  match o with Call ch o => run_api_op ch o | Inside o => run_fence_op o end.

Fixpoint run_drv_ops (os : list drv_op) : DRV unit :=
  match os with [] => ret tt | o :: os => run_drv_op o;;; run_drv_ops os end.

Definition drv_pre (d : driver_data) (o : drv_op) : Prop :=
  match o with Call ch o => api_pre ch o d | Inside o => fence_op_at o d end.

Lemma drv_pre_stays d d' o : stays d d' -> drv_pre d o -> drv_pre d' o.
Proof. destruct o as [ch o|o]; [apply (stable_api_pre ch o)|apply (stable_fence_op_at o)]. Qed.

(** C8: the driver survives its clients.  From any good state, every sequence of calls
    of clients - creation, release, waiting for fences and arrays of them, resets,
    queue updates, triggers, error callbacks, dumps - and of signals, kernel callbacks,
    lookups and releases by others between them comes to its end, whatever the kernel
    answers on the way: no lock is taken twice or left, no array is left, no null
    pointer is followed, and the state is good again.  The
    clients are those there were, the table and the layout too, and no dma-fence that
    somebody holds went away.  The callers vouch for what they pass in the state the
    sequence starts in: client handles of registered clients, dma-fences they hold, no
    empty array, unsigned fence handles, lists as long as they say. *)
Theorem calls_keep_ok d os :
  drv_ok d -> Forall (drv_pre d) os ->
  exists d', run_drv_ops os d = Done tt d' /\ drv_ok d' /\ stays d d'.
Proof.
  revert d. induction os as [|o os IH]; intros d Hd Hp; [by exists d|].
  apply Forall_cons in Hp as [Ho Hos]. cbn [run_drv_ops].
  assert (wp (run_drv_op o) (fun _ d' => drv_ok d' /\ stays d d' /\ True) d) as Hw.
  { destruct o as [ch o|o]; [by apply safe_api_op|by apply safe_fence_op]. }
  apply wp_inv in Hw as ([] & d1 & Hr & Hd1 & Hs1 & _). rewrite (bind_run _ _ _ _ _ Hr).
  destruct (IH d1 Hd1) as (d' & Hr' & Hd' & Hs').
  { eapply Forall_impl; [exact Hos|]. intros x. by apply drv_pre_stays. }
  exists d'. split; [done|]. split; [done|]. by transitivity d1.
Qed.

(** A client waits for the two fences of an array and for one that is no hardware
    fence, makes a fence of its own, and is reset; between the calls the kernel
    signals a child. *)
Lemma calls_keep_ok_witness :
  exists d', run_drv_ops
    [Call (Some 2) (AWaitV2 [Some 90; Some 93] [0; 0] None 2); Inside (FCallback 91 child1_h);
     Call (Some 2) (ACreate (Some (mk_create_params None (Some 0)))); Call (Some 2) (ADump 92);
     Call (Some 2) (AReset 0)] arrays8_dma = Done tt d' /\ drv_ok d' /\ stays arrays8_dma d'.
Proof.
  assert (forall f, f < 1000 -> held (dd_env arrays8_dma) f) as Hh.
  { intros f Hf n. split; [done|]. change (4096 + Z.of_nat n <> f). lia. }
  assert (client_at 2 arrays8_dma) as Hc by (by exists rx_client).
  assert (forall f, f < 1000 -> is_Some (array_fences_map !! f) -> dma_at f arrays8_dma) as Hdma
    by (intros f Hf Hg; split; [by apply Hh|exact Hg]).
  assert (opt_arg (Some 90) arrays8_dma) as H90.
  { right. exists [91; 92]. split; [by apply Hh|]. split; [done|]. split; [by exists (dma_array 9 1 [91; 92])|].
    apply Forall_cons. split; [right; apply Hdma; [done|by eexists]|].
    apply Forall_cons. split; [right; apply Hdma; [done|by eexists]|by apply Forall_nil]. }
  assert (opt_arg (Some 93) arrays8_dma) as H93
    by (left; split; [by apply Hh|by exists (plain_dma 11 1 0)]).
  apply (calls_keep_ok arrays8_dma); [exact arrays8_ok|].
  apply Forall_cons. split; [split; [done|]|].
  { split; [by apply Forall_cons; split; [|apply Forall_cons; split; [|apply Forall_nil]]|]. by split; [|split_and!]. }
  apply Forall_cons. split; [split; [done|apply Hdma; [done|by eexists]]|].
  apply Forall_cons. split; [done|]. apply Forall_cons. split; [split; [done|apply Hdma; [done|by eexists]]|].
  apply Forall_cons. by split.
Defined.
