(* ===== verification/SynxGlobal.v ===== *)
(** * The global table of synx objects

    [synx-kernel/msm/synx/synx_global.c] and [synx_global.h]: synx objects shared by
    all processors, in shared memory - a bitmap of used indices and a table of
    entries with a status, references, waiting cores and, for a composite object,
    the number of children it still waits for; with the bit operations of [ipclite.c]
    and the handle encoding of [synx_util.c] it uses, and
    [synx_internal_get_handle_status] of [synx.c], the door to hardware fences.

    A [struct synx_global_coredata *] is the index of the entry; the table pointer is
    null as long as the table is empty.  Entry 0 is never given out: its field
    [subscribers] holds the owner of the lock.  One hardware spinlock guards the
    table; taking it can time out, because another processor stopped inside
    ([sy_hwlock] is held) or keeps it for too long (an answer of the environment).
    Between two critical sections of one operation the other processors change
    nothing, except for the indices they allocate, which the allocation loop is
    written for.  Sending a message and recovering the transport are events.

    This file holds the data and the operations; what they keep is in
    [SynxKeeps], the composite objects in [SynxPending]. *)

From stdpp Require Import base list list_numbers.
From S2P Require Import Prelude.
From Stdlib Require Import Lia.
#[local] Open Scope Z_scope.

(** ** Constants *)

Definition SYNX_CORE_APSS : Z := 0.
Definition SYNX_CORE_NSP : Z := 1.
Definition SYNX_CORE_EVA : Z := 2.
Definition SYNX_CORE_IRIS : Z := 3.
Definition SYNX_CORE_ICP : Z := 4.
Definition SYNX_CORE_SOCCP : Z := 5.
Definition SYNX_CORE_MAX : Z := 6.

Definition IPCMEM_APPS : Z := 0.
Definition IPCMEM_SOCCP : Z := 4.
Definition IPCMEM_CDSP : Z := 5.
Definition IPCMEM_CVP : Z := 6.
Definition IPCMEM_CAM : Z := 7.
Definition IPCMEM_VPU : Z := 8.
Definition IPCMEM_NUM_HOSTS : Z := 9.

Definition SYNX_HANDLE_INDEX_BITS : Z := 16.
Definition SYNX_HANDLE_CORE_BITS : Z := 4.
Definition SYNX_HANDLE_INDEX_MASK : Z := BIT SYNX_HANDLE_INDEX_BITS - 1.
Definition SYNX_GLOBAL_MAX_OBJS : Z := 4096.
Definition SYNX_GLOBAL_MAX_PARENTS : Z := 4.
Definition SHRD_MEM_DUMP_NUM_BMAP_WORDS : Z := 10.

Definition SYNX_STATE_INVALID : Z := 0.
Definition SYNX_STATE_ACTIVE : Z := 1.
Definition SYNX_STATE_SIGNALED_SUCCESS : Z := 2.
Definition SYNX_STATE_SIGNALED_ERROR : Z := 3.
Definition SYNX_STATE_SIGNALED_SSR : Z := 6.
Definition SYNX_STATE_SIGNALED_MAX : Z := 64.

Definition SYNX_NOENT : Z := 2.
Definition SYNX_NOMEM : Z := ENOMEM.
Definition SYNX_INVALID : Z := EINVAL.
Definition SYNX_ALREADY : Z := EALREADY.
Definition ETIMEDOUT : Z := 110.

(** ** The shared memory *)

Record synx_global_coredata := mk_coredata {
  sg_status : Z;
  sg_handle : Z;
  sg_refcount : Z;
  sg_num_child : Z;
  sg_subscribers : Z;
  sg_waiters : Z;
  sg_parents : list Z;
  sg_h_hwfence : Z }.

#[export] Instance eta_coredata : Eta synx_global_coredata := fun e =>
  mk_coredata (sg_status e) (sg_handle e) (sg_refcount e) (sg_num_child e) (sg_subscribers e)
    (sg_waiters e) (sg_parents e) (sg_h_hwfence e).

#[export] Instance coredata_eq_dec : EqDecision synx_global_coredata.
Proof. solve_decision. Defined.

Definition no_parents : list Z := [0; 0; 0; 0].

(** An entry after [memset]. *)
Definition zero_coredata : synx_global_coredata := mk_coredata 0 0 0 0 0 0 no_parents 0.

Inductive synx_event :=
| EvMsgSend (host data : Z)
| EvRecover (host : Z).

(** What the rest of the system answers the [n]-th time it is asked. *)
Record synx_environment := mk_synx_env {
  env_lock_busy : nat -> bool;          (* the lock stays taken until the time-out *)
  env_taken : nat -> list Z;            (* indices other processors take meanwhile *)
  env_partition : nat -> Z;             (* result of [get_global_partition_info] *)
  env_no_hwlock : nat -> bool;          (* [hwspin_lock_request_specific] fails *)
  env_no_memory : nat -> bool }.        (* [kzalloc] fails *)

(** [sy_hwlock]: null, or whether it is held. *)
Record synx_state := mk_synx {
  sy_bitmap : list Z;
  sy_table : list synx_global_coredata;
  sy_hwlock : option bool;
  sy_tick : nat;
  sy_env : synx_environment;
  sy_events : list synx_event }.

#[export] Instance eta_synx : Eta synx_state := fun s =>
  mk_synx (sy_bitmap s) (sy_table s) (sy_hwlock s) (sy_tick s) (sy_env s) (sy_events s).

Abbreviation SYNX := (M synx_state).

Definition synx_tick : SYNX nat :=
  s <-- get;
  put (s <| sy_tick ::= S |>);;;
  ret (sy_tick s).

Definition synx_log (ev : synx_event) : SYNX unit :=
  modifyM (fun s => s <| sy_events ::= fun l => l ++ [ev] |>).

Definition get_entry (idx : Z) : SYNX synx_global_coredata :=
  s <-- get;
  deref (zget (sy_table s) idx).

Definition set_entry (idx : Z) (e : synx_global_coredata) : SYNX unit :=
  modifyM (fun s => s <| sy_table ::= zset idx e |>).

Definition update_entry (idx : Z) (f : synx_global_coredata -> synx_global_coredata) : SYNX unit :=
  e <-- get_entry idx;
  set_entry idx (f e).

Definition synx_is_valid_idx (idx : Z) : bool := idx <? SYNX_GLOBAL_MAX_OBJS.

Definition no_table (s : synx_state) : bool := zlen (sy_table s) =? 0.

(** ** The lock *)

Definition synx_gmem_lock_owner : SYNX Z :=
  e <-- get_entry 0;
  ret (sg_subscribers e).

Definition synx_gmem_lock_owner_set : SYNX unit :=
  update_entry 0 (fun e => e <| sg_subscribers := SYNX_CORE_APSS |>).

Definition synx_gmem_lock_owner_clear : SYNX unit :=
  update_entry 0 (fun e => e <| sg_subscribers := SYNX_CORE_MAX |>).

Definition synx_gmem_lock : SYNX Z :=
  s <-- get;
  match sy_hwlock s with
  | None => ret (- SYNX_INVALID)
  | Some held =>
      n <-- synx_tick;
      if held || env_lock_busy (sy_env s) n then ret (- ETIMEDOUT)
      else
        put (s <| sy_tick ::= S |> <| sy_hwlock := Some true |>);;;
        synx_gmem_lock_owner_set;;;
        ret 0
  end.

Definition hwspin_unlock : SYNX unit := modifyM (fun s => s <| sy_hwlock := Some false |>).

Definition synx_gmem_unlock : SYNX unit :=
  synx_gmem_lock_owner_clear;;;
  hwspin_unlock.

(** [rc = synx_gmem_lock(idx, &flags); if (rc) return on_error(rc); body;
    synx_gmem_unlock(idx, &flags);] *)
Definition locked {A} (on_error : Z -> A) (body : SYNX A) : SYNX A :=
  rc <-- synx_gmem_lock;
  if negb (rc =? 0) then ret (on_error rc)
  else
    a <-- body;
    synx_gmem_unlock;;;
    ret a.

(** The checks an operation starts with. *)
Definition on_table {A} (null : A) (k : SYNX A) : SYNX A :=
  s <-- get;
  if no_table s then ret null else k.

(** ** The bitmap *)

(** The first number from [i] on, of [n] numbers, where [p] holds, or the end. *)
Fixpoint scan (n : nat) (i : Z) (p : Z -> bool) : Z :=
  match n with
  | O => i
  | S n => if p i then i else scan n (i + 1) p
  end.

Definition bitmap_bit (bm : list Z) (i : Z) : bool :=
  match zget bm (i / 32) with Some w => Z.testbit w (i mod 32) | None => false end.

Definition find_first_zero_bit (bm : list Z) (size : Z) : Z :=
  scan (Z.to_nat size) 0 (fun i => negb (bitmap_bit bm i)).

Definition find_next_bit (bm : list Z) (size offset : Z) : Z :=
  scan (Z.to_nat (size - offset)) offset (bitmap_bit bm).

(** On the word [w] of the bitmap; the result is what the word held. *)
Definition ipclite_global_test_and_set_bit (nr w : Z) : SYNX Z :=
  s <-- get;
  x <-- deref (zget (sy_bitmap s) w);
  put (s <| sy_bitmap ::= zset w (Z.lor x (BIT nr)) |>);;;
  ret x.

Definition ipclite_global_test_and_clear_bit (nr w : Z) : SYNX Z :=
  s <-- get;
  x <-- deref (zget (sy_bitmap s) w);
  put (s <| sy_bitmap ::= zset w (clear x (BIT nr)) |>);;;
  ret x.

Definition clear_index (idx : Z) : SYNX unit :=
  ipclite_global_test_and_clear_bit (idx mod 32) (idx / 32);;;
  ret tt.

(** ** Setting up *)

Definition synx_gmem_init : SYNX Z :=
  on_table (- SYNX_NOMEM)
    (s <-- get;
     n <-- synx_tick;
     if env_no_hwlock (sy_env s) n then ret (- SYNX_NOMEM)
     else
       modifyM (fun s => s <| sy_hwlock := Some false |>);;;
       ipclite_global_test_and_set_bit 0 0;;;
       set_entry 0 zero_coredata;;;
       ret 0).

Definition synx_global_mem_init : SYNX Z :=
  s <-- get;
  n <-- synx_tick;
  let rc := env_partition (sy_env s) n in
  if negb (rc =? 0) then ret rc
  else
    modifyM (fun s =>
      s <| sy_bitmap := replicate (Z.to_nat (SYNX_GLOBAL_MAX_OBJS / 32)) 0 |>
        <| sy_table := replicate (Z.to_nat SYNX_GLOBAL_MAX_OBJS) zero_coredata |>);;;
    synx_gmem_init.

Definition synx_global_map_core_id (id : Z) : Z :=
  if id =? SYNX_CORE_APSS then IPCMEM_APPS
  else if id =? SYNX_CORE_NSP then IPCMEM_CDSP
  else if id =? SYNX_CORE_IRIS then IPCMEM_VPU
  else if id =? SYNX_CORE_EVA then IPCMEM_CVP
  else if id =? SYNX_CORE_ICP then IPCMEM_CAM
  else if id =? SYNX_CORE_SOCCP then IPCMEM_SOCCP
  else IPCMEM_NUM_HOSTS.

(** ** Allocation *)

(** The other processors that take [l] before the next atomic access to the bitmap. *)
Definition take_bit (bm : list Z) (i : Z) : list Z :=
  match zget bm (i / 32) with Some w => zset (i / 32) (Z.lor w (BIT (i mod 32))) bm | None => bm end.

Definition others_allocate : SYNX unit :=
  s <-- get;
  n <-- synx_tick;
  modifyM (fun s' => s' <| sy_bitmap ::= fun bm => fold_left take_bit (env_taken (sy_env s) n) bm |>).

(** The error code, and the index on success. *)
Fixpoint alloc_loop (fuel : nat) : SYNX (Z * option Z) :=
  match fuel with
  | O => raise OutOfFuel
  | S fuel =>
      s <-- get;
      let index := find_first_zero_bit (sy_bitmap s) SYNX_GLOBAL_MAX_OBJS in
      if SYNX_GLOBAL_MAX_OBJS <=? index then ret (- SYNX_NOMEM, None)
      else
        others_allocate;;;
        prev <-- ipclite_global_test_and_set_bit (index mod 32) (index / 32);
        if negb (flag prev (BIT (index mod 32))) then ret (0, Some index)
        else alloc_loop fuel
  end.

(** A lost race means that another processor took an index, so there are at most
    as many turns as indices, and one to see that none is left. *)
Definition synx_global_alloc_index : SYNX (Z * option Z) :=
  on_table (- SYNX_NOMEM, None) (alloc_loop (S (Z.to_nat SYNX_GLOBAL_MAX_OBJS))).

Definition entry_cleared (e : synx_global_coredata) : bool :=
  (sg_status e =? 0) && (sg_refcount e =? 0) && (sg_subscribers e =? 0) && (sg_handle e =? 0) &&
  bool_decide (zget (sg_parents e) 0 = Some 0).

Definition fresh_coredata (h_synx : Z) : synx_global_coredata :=
  zero_coredata <| sg_status := SYNX_STATE_ACTIVE |> <| sg_refcount := 1 |>
    <| sg_subscribers := BIT SYNX_CORE_APSS |> <| sg_handle := h_synx |>.

Definition synx_global_init_coredata (h_synx : Z) : SYNX Z :=
  let idx := Z.land h_synx SYNX_HANDLE_INDEX_MASK in
  on_table (- SYNX_NOMEM)
    (if negb (synx_is_valid_idx idx) then ret (- SYNX_INVALID)
     else locked Datatypes.id
       (e <-- get_entry idx;
        if negb (entry_cleared e) then ret (- SYNX_INVALID)
        else set_entry idx (fresh_coredata h_synx);;; ret 0)).

(** [synx_util.c] *)
Definition synx_encode_handle (idx core_id : Z) (global_idx : bool) : Z :=
  if SYNX_GLOBAL_MAX_OBJS <=? idx then 0
  else
    let handle := if global_idx then u32 (Z.shiftl 1 SYNX_HANDLE_CORE_BITS) else 0 in
    Z.lor (u32 (Z.shiftl (Z.lor handle core_id) SYNX_HANDLE_INDEX_BITS)) idx.

Definition synx_util_is_global_handle (h_synx : Z) : bool := flag h_synx (BIT 20).

Definition synx_util_global_idx (h_synx : Z) : Z := Z.land h_synx (BIT 16 - 1).

Definition synx_alloc_global_handle : SYNX (Z * option Z) :=
  out <-- synx_global_alloc_index;
  match out with
  | (rc, Some idx) =>
      let new_synx := synx_encode_handle idx SYNX_CORE_APSS true in
      rc <-- synx_global_init_coredata new_synx;
      ret (rc, Some new_synx)
  | (rc, None) => ret (rc, None)
  end.

(** ** Cores of an entry *)

(** An array of [SYNX_CORE_MAX] flags: those of the cores in [word] are set. *)
Definition mark_cores (word : Z) (cores : list bool) : list bool :=
  zip_with orb cores (map (fun i => flag word (BIT i)) (seqZ 0 SYNX_CORE_MAX)).

Definition no_cores : list bool := replicate (Z.to_nat SYNX_CORE_MAX) false.

Definition synx_global_get_waiting_cores_locked (idx : Z) (cores : list bool) : SYNX (list bool) :=
  e <-- get_entry idx;
  set_entry idx (e <| sg_waiters := 0 |>);;;
  ret (mark_cores (sg_waiters e) cores).

Definition synx_global_get_waiting_cores (idx : Z) (cores : list bool) : SYNX (Z * list bool) :=
  on_table (- SYNX_NOMEM, cores)
    (if negb (synx_is_valid_idx idx) then ret (- SYNX_INVALID, cores)
     else locked (fun rc => (rc, cores))
       (cores <-- synx_global_get_waiting_cores_locked idx cores; ret (0, cores))).

Definition synx_global_set_waiting_core (idx id : Z) : SYNX Z :=
  on_table (- SYNX_NOMEM)
    (if (SYNX_CORE_MAX <=? id) || negb (synx_is_valid_idx idx) then ret (- SYNX_INVALID)
     else locked Datatypes.id
       (update_entry idx (fun e => e <| sg_waiters ::= fun w => Z.lor w (BIT id) |>);;; ret 0)).

Definition synx_global_get_subscribed_cores (idx : Z) (cores : list bool) : SYNX (Z * list bool) :=
  on_table (- SYNX_NOMEM, cores)
    (if negb (synx_is_valid_idx idx) then ret (- SYNX_INVALID, cores)
     else locked (fun rc => (rc, cores))
       (e <-- get_entry idx; ret (0, mark_cores (sg_subscribers e) cores))).

Definition synx_global_set_subscribed_core (idx id : Z) : SYNX Z :=
  on_table (- SYNX_NOMEM)
    (if (SYNX_CORE_MAX <=? id) || negb (synx_is_valid_idx idx) then ret (- SYNX_INVALID)
     else locked Datatypes.id
       (update_entry idx (fun e => e <| sg_subscribers ::= fun w => Z.lor w (BIT id) |>);;; ret 0)).

Definition synx_global_clear_subscribed_core (idx id : Z) : SYNX Z :=
  on_table (- SYNX_NOMEM)
    (if (SYNX_CORE_MAX <=? id) || negb (synx_is_valid_idx idx) then ret (- SYNX_INVALID)
     else locked Datatypes.id
       (update_entry idx (fun e => e <| sg_subscribers ::= fun w => clear w (BIT id) |>);;; ret 0)).

(** ** Reading an entry *)

Definition synx_global_fetch_handle_details (idx : Z) : SYNX (Z * option Z) :=
  on_table (- SYNX_NOMEM, None)
    (if negb (synx_is_valid_idx idx) then ret (- SYNX_INVALID, None)
     else locked (fun rc => (rc, None)) (e <-- get_entry idx; ret (0, Some (sg_handle e)))).

Definition synx_fetch_global_shared_memory_handle_details (synx_handle : Z)
  : SYNX (bool * option synx_global_coredata) :=
  on_table (false, None)
    (let idx := Z.land synx_handle SYNX_HANDLE_INDEX_MASK in
     if negb (synx_is_valid_idx idx) then ret (false, None)
     else locked (fun _ => (false, None)) (e <-- get_entry idx; ret (true, Some e))).

(** The result is a [u32]: an error code wraps around. *)
Definition synx_global_get_parents_num (idx : Z) : SYNX Z :=
  on_table 0
    (if negb (synx_is_valid_idx idx) then ret 0
     else locked u32
       (e <-- get_entry idx; ret (zlen (filter (fun p => p <> 0) (sg_parents e))))).

Definition synx_global_get_parents (idx : Z) : SYNX (Z * option (list Z)) :=
  on_table (- SYNX_NOMEM, None)
    (if negb (synx_is_valid_idx idx) then ret (- SYNX_INVALID, None)
     else locked (fun rc => (rc, None)) (e <-- get_entry idx; ret (0, Some (sg_parents e)))).

Definition synx_global_get_status (idx : Z) : SYNX Z :=
  on_table 0
    (if negb (synx_is_valid_idx idx) then ret 0
     else locked u32
       (e <-- get_entry idx;
        ret (if negb (sg_status e =? SYNX_STATE_ACTIVE) && (sg_num_child e =? 0)
             then sg_status e else SYNX_STATE_ACTIVE))).

(** The dump only prints: what is left is the lock and the reads. *)
Fixpoint dump_turns (n : nat) (idx : Z) (read : Z -> SYNX unit) : SYNX Z :=
  match n with
  | O => ret 0
  | S n =>
      rc <-- locked Datatypes.id (read idx;;; ret 0);
      if negb (rc =? 0) then ret rc else dump_turns n (idx + 1) read
  end.

Definition synx_global_dump_shared_memory : SYNX Z :=
  on_table (- SYNX_INVALID)
    (rc <-- dump_turns (Z.to_nat SHRD_MEM_DUMP_NUM_BMAP_WORDS) 0
       (fun idx => s <-- get; deref (zget (sy_bitmap s) idx);;; ret tt);
     if negb (rc =? 0) then ret rc
     else dump_turns (Z.to_nat (SHRD_MEM_DUMP_NUM_BMAP_WORDS * 4 * 8)) 0
       (fun idx => get_entry idx;;; ret tt)).

(** ** Waiting *)

(** An object that has not been signaled, or waits for children. *)
Definition unsettled (e : synx_global_coredata) : bool :=
  (sg_status e =? SYNX_STATE_ACTIVE) || negb (sg_num_child e =? 0).

Definition synx_global_test_status_set_wait (idx id : Z) : SYNX Z :=
  on_table 0
    (if (SYNX_CORE_MAX <=? id) || negb (synx_is_valid_idx idx) then ret 0
     else locked (fun _ => 0)
       (e <-- get_entry idx;
        if unsettled e then
          set_entry idx (e <| sg_waiters ::= fun w => Z.lor w (BIT id) |>);;;
          ret SYNX_STATE_ACTIVE
        else ret (sg_status e))).

(** The [u32] status goes out as an [int]. *)
Definition synx_global_test_status_update_coredata (idx id h_hwfence : Z) (is_waiter : bool) : SYNX Z :=
  on_table (- SYNX_NOMEM)
    (if (SYNX_CORE_MAX <=? id) || negb (synx_is_valid_idx idx) then ret (- SYNX_INVALID)
     else locked Datatypes.id
       (e <-- get_entry idx;
        if unsettled e then
          set_entry idx
            (e <| sg_refcount ::= fun r => u16 (r + 1) |>
               <| sg_subscribers ::= fun w => Z.lor w (BIT id) |>
               <| sg_waiters ::= fun w => if is_waiter then Z.lor w (BIT id) else w |>
               <| sg_h_hwfence := h_hwfence |>);;;
          ret SYNX_STATE_ACTIVE
        else ret (i32 (sg_status e)))).

(** [synx.c]: what a driver of hardware fences sees of a synx handle.  [h_synx] is the
    handle of the fence in [params], 0 if it has none.  The error code, and the
    handle and the signal status where they are written.  [status] is a [u32], so
    [status < 0] never holds. *)
Definition synx_internal_get_handle_status (h_synx h_hwfence : Z) (is_waiter : bool)
  : SYNX (Z * option Z * option Z) :=
  if (h_synx =? 0) || negb (synx_util_is_global_handle h_synx) then ret (- SYNX_INVALID, None, None)
  else
    r <-- synx_global_test_status_update_coredata (synx_util_global_idx h_synx) SYNX_CORE_SOCCP
            h_hwfence is_waiter;
    let status := u32 r in
    if negb (status =? SYNX_STATE_ACTIVE) then
      if status <? 0 then ret (status, None, None) else ret (0, None, Some status)
    else ret (0, Some h_synx, Some status).

Definition synx_internal_share_handle_status (h_synx h_hwfence : Z) : SYNX (Z * option Z * option Z) :=
  synx_internal_get_handle_status h_synx h_hwfence true.

(** ** Signaling *)

Definition is_error_status (status : Z) : bool :=
  (SYNX_STATE_SIGNALED_SUCCESS <? status) && (status <=? SYNX_STATE_SIGNALED_MAX).

(** A child of the composite entry was signaled with [status]. *)
Definition child_notified (status : Z) (e : synx_global_coredata) : synx_global_coredata :=
  e <| sg_num_child ::= fun n => u16 (n - 1) |>
    <| sg_status ::= fun st =>
         if (st =? SYNX_STATE_ACTIVE) || is_error_status status then status else st |>.

(** What the critical section finds out: the message ([data]), whether the entry was
    freed, who waits for it and its parents. *)
Definition signal_outcome : Type := Z * bool * list bool * list Z.

Definition entry_data (e : synx_global_coredata) : Z := Z.lor (u64 (Z.shiftl (sg_handle e) 32)) (sg_status e).

Definition signal_entry (idx status : Z) : SYNX signal_outcome :=
  e <-- get_entry idx;
  if negb (sg_num_child e =? 0) then
    let e := child_notified status e in
    set_entry idx e;;;
    if sg_num_child e =? 0 then
      let data := entry_data e in
      wait_cores <-- synx_global_get_waiting_cores_locked idx no_cores;
      update_entry idx (fun e => e <| sg_refcount ::= fun r => u16 (r - 1) |>);;;
      e' <-- get_entry idx;
      if sg_refcount e' =? 0 then
        set_entry idx zero_coredata;;;
        ret (data, true, wait_cores, sg_parents e)
      else ret (data, false, wait_cores, sg_parents e)
    else ret (0, false, no_cores, no_parents)
  else
    let e := e <| sg_status := status |> in
    set_entry idx e;;;
    wait_cores <-- synx_global_get_waiting_cores_locked idx no_cores;
    ret (entry_data e, false, wait_cores, sg_parents e).

(** Core [i], ..., of the [cores] left. *)
Fixpoint send_from (i : Z) (cores : list bool) (data : Z) : SYNX unit :=
  match cores with
  | [] => ret tt
  | c :: cores =>
      when c do synx_log (EvMsgSend (synx_global_map_core_id i) data);;;
      send_from (i + 1) cores data
  end.

Definition notify_cores (status data : Z) (wait_cores : list bool) : SYNX unit :=
  if data =? 0 then ret tt
  else if status =? SYNX_STATE_SIGNALED_SSR then send_from 0 wait_cores data
  else send_from 1 (drop 1 wait_cores) data.

(** [for (i = 0; i < SYNX_GLOBAL_MAX_PARENTS; i++)] over the parents found. *)
Fixpoint notify_parents (signal : Z -> SYNX Z) (parents : list Z) : SYNX unit :=
  match parents with
  | [] => ret tt
  | p :: parents =>
      (if p =? 0 then ret tt else signal p;;; ret tt);;;
      notify_parents signal parents
  end.

(** The recursion goes from a child to its parents. *)
Fixpoint synx_global_update_status_core (fuel : nat) (idx status : Z) : SYNX Z :=
  match fuel with
  | O => raise OutOfFuel
  | S fuel =>
      out <-- locked inl (o <-- signal_entry idx status; ret (inr o));
      match out with
      | inl rc => ret rc
      | inr (data, cleared, wait_cores, h_parents) =>
          when cleared do clear_index idx;;;
          notify_cores status data wait_cores;;;
          notify_parents (fun p => synx_global_update_status_core fuel p status) h_parents;;;
          ret 0
      end
  end.

(** [None]: go on with the update.  The lock leaves 0 in [rc], which is what a composite
    object answers. *)
Definition synx_global_update_status (idx status : Z) : SYNX Z :=
  on_table (- SYNX_NOMEM)
    (if negb (synx_is_valid_idx idx) || (status <=? SYNX_STATE_ACTIVE) then ret (- SYNX_INVALID)
     else
       out <-- locked Some
         (e <-- get_entry idx;
          ret (if negb (sg_num_child e =? 0) then Some 0
               else if negb (sg_status e =? SYNX_STATE_ACTIVE) then Some (- SYNX_ALREADY)
               else None));
       match out with
       | Some rc => ret rc
       | None => synx_global_update_status_core (Z.to_nat SYNX_GLOBAL_MAX_OBJS) idx status
       end).

(** ** References *)

Definition synx_global_get_ref (idx : Z) : SYNX Z :=
  on_table (- SYNX_NOMEM)
    (if negb (synx_is_valid_idx idx) then ret (- SYNX_INVALID)
     else locked Datatypes.id
       (e <-- get_entry idx;
        if negb (sg_handle e =? 0) && negb (sg_refcount e =? 0) then
          set_entry idx (e <| sg_refcount ::= fun r => u16 (r + 1) |>);;;
          ret 0
        else ret (- SYNX_NOENT))).

(** Whether the entry was freed. *)
Definition drop_ref (idx : Z) : SYNX bool :=
  update_entry idx (fun e => e <| sg_refcount ::= fun r => u16 (r - 1) |>);;;
  e <-- get_entry idx;
  if sg_refcount e =? 0 then set_entry idx zero_coredata;;; ret true else ret false.

Definition synx_global_put_ref (idx : Z) : SYNX unit :=
  on_table tt
    (if negb (synx_is_valid_idx idx) then ret tt
     else
       cleared <-- locked (fun _ => false) (drop_ref idx);
       when cleared do clear_index idx).

(** ** Composite objects *)

Definition first_slot (p : Z) (parents : list Z) : option Z :=
  let i := scan 4 0 (fun i => bool_decide (zget parents i = Some p)) in
  if i <? SYNX_GLOBAL_MAX_PARENTS then Some i else None.

Definition set_parent (old new : Z) (e : synx_global_coredata) : synx_global_coredata :=
  match first_slot old (sg_parents e) with
  | Some i => e <| sg_parents ::= zset i new |>
  | None => e
  end.

(** The status of the composite after one more child. *)
Definition merge_status (parent_status : Z) (e : synx_global_coredata) : Z :=
  if sg_status e =? SYNX_STATE_ACTIVE then parent_status
  else if is_error_status (sg_status e) then sg_status e
  else if parent_status =? SYNX_STATE_ACTIVE then sg_status e
  else parent_status.

(** One child: whether it had a free slot, and the entry it was. *)
Definition merge_child (idx p_idx : Z) : SYNX (Z + bool * synx_global_coredata) :=
  locked inl
    (e <-- get_entry idx;
     set_entry idx (set_parent 0 p_idx e);;;
     ret (inr (bool_decide (is_Some (first_slot 0 (sg_parents e))), e))).

(** [inl (rc, num_child)]: the jump to [fail]; [inr]: the loop is over.  [rc] is
    carried from child to child. *)
Fixpoint merge_children (idx_list : list Z) (p_idx rc num_child parent_status : Z)
  : SYNX (Z * Z + Z * Z) :=
  match idx_list with
  | [] => ret (inr (num_child, parent_status))
  | idx :: idx_list =>
      if negb (synx_is_valid_idx idx) then ret (inl (rc, num_child))
      else
        out <-- merge_child idx p_idx;
        match out with
        | inl rc => ret (inl (rc, num_child))
        | inr (found, e) =>
            let parent_status := merge_status parent_status e in
            let num_child := if unsettled e then u32 (num_child + 1) else num_child in
            if negb found then ret (inl (- SYNX_NOMEM, num_child))
            else merge_children idx_list p_idx 0 num_child parent_status
        end
  end.

(** [while (num_child--)] *)
Fixpoint merge_fail (n : nat) (idx_list : list Z) (p_idx : Z) : SYNX unit :=
  match n with
  | O => ret tt
  | S n =>
      idx <-- deref (zget idx_list (Z.of_nat n));
      locked (fun _ => tt) (update_entry idx (set_parent p_idx 0));;;
      merge_fail n idx_list p_idx
  end.

Definition composite_of (num_child parent_status : Z) (e : synx_global_coredata)
  : synx_global_coredata :=
  let num := u16 (sg_num_child e + num_child) in
  e <| sg_num_child := num |>
    <| sg_refcount ::= fun r => if num =? 0 then r else u16 (r + 1) |>
    <| sg_status := parent_status |>.

(** [num_list] is the length of the list. *)
Definition synx_global_merge (idx_list : list Z) (p_idx : Z) : SYNX Z :=
  on_table (- SYNX_NOMEM)
    (if negb (synx_is_valid_idx p_idx) then ret (- SYNX_INVALID)
     else if zlen idx_list =? 0 then ret 0
     else
       out <-- merge_children idx_list p_idx (- SYNX_INVALID) 0 SYNX_STATE_ACTIVE;
       let fail rc num_child := merge_fail (Z.to_nat num_child) idx_list p_idx;;; ret rc in
       match out with
       | inl (rc, num_child) => fail rc num_child
       | inr (num_child, parent_status) =>
           rc <-- locked Datatypes.id
             (update_entry p_idx (composite_of num_child parent_status);;; ret 0);
           if negb (rc =? 0) then fail rc num_child else ret 0
       end).

(** ** Recovering from a core that stopped *)

(** The critical section of one entry: whether it was freed, whether it is to be
    signaled. *)
Definition recover_entry (core_id idx : Z) : SYNX (bool * bool) :=
  e <-- get_entry idx;
  if negb (sg_refcount e =? 0) && flag (sg_subscribers e) (BIT core_id) then
    set_entry idx (e <| sg_subscribers ::= fun w => clear w (BIT core_id) |>);;;
    freed <-- drop_ref idx;
    ret (freed, negb freed && (sg_status e =? SYNX_STATE_ACTIVE))
  else ret (false, false).

(** From the used index [idx] on: the error code, and the indices to clear. *)
Fixpoint recover_loop (fuel : nat) (core_id idx : Z) (clear_idx : list Z) : SYNX (Z * list Z) :=
  if SYNX_GLOBAL_MAX_OBJS <=? idx then ret (0, clear_idx)
  else
    match fuel with
    | O => raise OutOfFuel
    | S fuel =>
        out <-- locked inl (o <-- recover_entry core_id idx; ret (inr o));
        match out with
        | inl rc => ret (rc, clear_idx)
        | inr (freed, update) =>
            when update do (synx_global_update_status idx SYNX_STATE_SIGNALED_SSR;;; ret tt);;;
            s <-- get;
            recover_loop fuel core_id (find_next_bit (sy_bitmap s) SYNX_GLOBAL_MAX_OBJS (idx + 1))
              (if freed : bool then clear_idx ++ [idx] else clear_idx)
        end
    end.

Fixpoint clear_indices (l : list Z) : SYNX unit :=
  match l with
  | [] => ret tt
  | idx :: l => clear_index idx;;; clear_indices l
  end.

(** [hwspin_unlock_raw] of a null lock is a bug check. *)
Definition recover_lock (core_id : Z) : SYNX unit :=
  owner <-- synx_gmem_lock_owner;
  if owner =? core_id then
    synx_gmem_lock_owner_clear;;;
    s <-- get;
    match sy_hwlock s with None => raise BadAccess | Some _ => hwspin_unlock end
  else ret tt.

Definition synx_global_recover (core_id : Z) : SYNX Z :=
  on_table (- SYNX_NOMEM)
    (s <-- get;
     n <-- synx_tick;
     if env_no_memory (sy_env s) n then ret (- SYNX_NOMEM)
     else
       synx_log (EvRecover (synx_global_map_core_id core_id));;;
       recover_lock core_id;;;
       s <-- get;
       out <-- recover_loop (Z.to_nat SYNX_GLOBAL_MAX_OBJS) core_id
                 (find_next_bit (sy_bitmap s) SYNX_GLOBAL_MAX_OBJS 1) [];
       let '(rc, clear_idx) := out in
       when rc =? 0 do clear_indices clear_idx;;;
       ret rc).
