(* ===== verification/SynxKeeps.v ===== *)
(** * What every operation on synx objects keeps

    The invariant of the shared table of [SynxGlobal]: entries and bitmap words keep
    their widths, parents are table indices, the parent pointers have no cycle, and
    the lock is free.  The order of the table that shows the absence of cycles is
    also what bounds the recursion of [synx_global_update_status_core]. *)

From stdpp Require Import base list list_numbers.
From S2P Require Import Prelude.
From S2P Require Import SynxGlobal.
From Stdlib Require Import Lia.
#[local] Open Scope Z_scope.

Definition in_u16 (x : Z) : Prop := 0 <= x < 2 ^ 16.

(** ** The invariant *)

Record coredata_wf (e : synx_global_coredata) : Prop := {
  ew_status : in_u32 (sg_status e);
  ew_handle : in_u32 (sg_handle e);
  ew_refcount : in_u16 (sg_refcount e);
  ew_num_child : in_u16 (sg_num_child e);
  ew_subscribers : in_u16 (sg_subscribers e);
  ew_waiters : in_u16 (sg_waiters e);
  ew_parents_len : length (sg_parents e) = 4%nat;
  ew_parents : Forall (fun p => 0 <= p < SYNX_GLOBAL_MAX_OBJS) (sg_parents e);
  ew_hwfence : in_u32 (sg_h_hwfence e) }.

Record mem_wf (s : synx_state) : Prop := {
  mw_table : zlen (sy_table s) = SYNX_GLOBAL_MAX_OBJS;
  mw_bitmap : zlen (sy_bitmap s) = SYNX_GLOBAL_MAX_OBJS / 32;
  mw_words : forall w x, zget (sy_bitmap s) w = Some x -> in_u32 x;
  mw_entries : forall i e, zget (sy_table s) i = Some e -> coredata_wf e }.

(** [c] comes before [p] in the order [l]. *)
Definition before (l : list Z) (c p : Z) : Prop := exists l1 l2, l = l1 ++ c :: l2 /\ p ∈ l2.

(** An order of the table in which parents come after their children. *)
Record topo (l : list Z) (s : synx_state) : Prop := {
  to_perm : l ≡ₚ seqZ 0 SYNX_GLOBAL_MAX_OBJS;
  to_edge : forall c e p, zget (sy_table s) c = Some e -> p ∈ sg_parents e -> p <> 0 -> before l c p }.

(** Inside ([b]) and outside a critical section. *)
Record ordered (l : list Z) (b : bool) (s : synx_state) : Prop := {
  or_mem : mem_wf s;
  or_topo : topo l s;
  or_lock : sy_hwlock s = Some b }.

Definition synx_ok (s : synx_state) : Prop := exists l, ordered l false s.

(** What an update of an entry may do: no new parents. *)
Definition tamer (e e' : synx_global_coredata) : Prop :=
  coredata_wf e -> coredata_wf e' /\ (forall p, p ∈ sg_parents e' -> p <> 0 -> p ∈ sg_parents e).

(** ** Ranges *)

Lemma u16_range x : in_u16 (u16 x).
Proof. apply Z.mod_pos_bound. lia. Qed.

(** A [w]-bit number has no bit from [w] on. *)
Lemma range_bits w x : 0 <= w -> 0 <= x < 2 ^ w <-> 0 <= x /\ forall n, w <= n -> Z.testbit x n = false.
Proof.
  intros Hw. split.
  - intros Hx. split; [lia|]. intros n Hn. destruct (decide (x = 0)) as [->|]; [apply Z.testbit_0_l|].
    apply Z.bits_above_log2; [lia|]. apply Z.log2_lt_pow2; [lia|].
    eapply Z.lt_le_trans; [apply Hx|]. apply Z.pow_le_mono_r; lia.
  - intros [H0 Hb]. split; [done|]. destruct (decide (x = 0)) as [->|]; [apply Z.pow_pos_nonneg; lia|].
    apply Z.log2_lt_pow2; [lia|]. destruct (Z.lt_ge_cases (Z.log2 x) w) as [|Hge]; [done|].
    specialize (Hb _ Hge). rewrite Z.bit_log2 in Hb by lia. done.
Qed.

Lemma range_lor w x y : 0 <= w -> 0 <= x < 2 ^ w -> 0 <= y < 2 ^ w -> 0 <= Z.lor x y < 2 ^ w.
Proof.
  intros Hw. rewrite !range_bits by done. intros [? Hx] [? Hy]. split; [by apply Z.lor_nonneg|].
  intros n Hn. by rewrite Z.lor_spec, Hx, Hy.
Qed.

Lemma range_clear w x y : 0 <= w -> 0 <= x < 2 ^ w -> 0 <= clear x y < 2 ^ w.
Proof.
  intros Hw. rewrite !range_bits by done. intros [? Hx]. unfold clear.
  split; [apply Z.ldiff_nonneg; by left|]. intros n Hn. by rewrite Z.ldiff_spec, Hx.
Qed.

Lemma range_BIT w i : 0 <= i < w -> 0 <= BIT i < 2 ^ w.
Proof.
  intros Hi. apply range_bits; [lia|]. split; [apply Z.lt_le_incl, BIT_pos; lia|].
  intros n Hn. rewrite testbit_BIT by lia. apply bool_decide_eq_false. lia.
Qed.

Lemma u16_lor_core x id : in_u16 x -> 0 <= id < SYNX_CORE_MAX -> in_u16 (Z.lor x (BIT id)).
Proof. unfold SYNX_CORE_MAX. intros. apply range_lor; [done..|]. apply range_BIT. lia. Qed.

Lemma u16_clear x y : in_u16 x -> in_u16 (clear x y).
Proof. by apply range_clear. Qed.

Lemma u16_small x : 0 <= x < 2 ^ 16 -> u16 x = x.
Proof. apply Z.mod_small. Qed.

Create HintDb synx discriminated.
#[export] Hint Constants Opaque : synx.
#[export] Hint Resolve u16_range u32_range u16_lor_core u16_clear : synx.

(** ** Entries *)

Section entries.
Implicit Types e : synx_global_coredata.

Lemma zero_wf : coredata_wf zero_coredata.
Proof. by split; unfold in_u32, in_u16, zero_coredata; simpl; try lia; repeat constructor. Qed.

Lemma tamer_zero e : tamer e zero_coredata.
Proof.
  intros _. split; [apply zero_wf|]. simpl. intros p Hp ?. exfalso. revert Hp. unfold no_parents. rewrite !elem_of_cons, elem_of_nil. tauto.
Qed.

Lemma tamer_id e : tamer e e.
Proof. by intros H. Qed.

Lemma tamer_trans e1 e2 e3 : tamer e1 e2 -> tamer e2 e3 -> tamer e1 e3.
Proof. intros H1 H2 Hw. destruct (H1 Hw) as [Hw2 ?], (H2 Hw2). naive_solver. Qed.

Lemma tamer_fields e st rc n sub w hf :
  (coredata_wf e -> in_u32 st /\ in_u16 rc /\ in_u16 n /\ in_u16 sub /\ in_u16 w /\ in_u32 hf) ->
  tamer e (mk_coredata st (sg_handle e) rc n sub w (sg_parents e) hf).
Proof. intros H Hw. destruct (H Hw) as (?&?&?&?&?&?), Hw. by split. Qed.
End entries.

#[export] Hint Resolve tamer_zero tamer_id : synx.

Ltac tame :=
  first
    [ solve [auto with synx]
    | apply tamer_fields; intros []; simpl; split_and!; repeat case_match;
      first [assumption | solve [auto with synx] | unfold in_u16, in_u32, SYNX_STATE_ACTIVE, SYNX_CORE_MAX, SYNX_CORE_APSS in *; lia] ].

(** ** One update at a time *)

Section updates.
Implicit Types (s : synx_state) (l : list Z).

Lemma entry_at s i : mem_wf s -> 0 <= i < SYNX_GLOBAL_MAX_OBJS -> exists e, zget (sy_table s) i = Some e.
Proof. intros Hm Hi. apply zget_is_Some. by rewrite (mw_table s Hm). Qed.

Lemma mem_wf_set s i e e' :
  mem_wf s -> zget (sy_table s) i = Some e -> coredata_wf e' -> mem_wf (s <| sy_table ::= zset i e' |>).
Proof.
  intros [Ht Hb Hw He] Hi He'. split; simpl; [by rewrite zlen_zset|done..|].
  intros j ej Hj. rewrite zget_zset in Hj. case_decide; [by injection Hj as <-|eauto].
Qed.

Lemma set_entry_ordered l b s i e e' :
  ordered l b s -> zget (sy_table s) i = Some e -> tamer e e' ->
  ordered l b (s <| sy_table ::= zset i e' |>).
Proof.
  intros [Hm [Hp Hedge] Hl] Hi Ht. pose proof (mw_entries s Hm _ _ Hi) as Hw.
  destruct (Ht Hw) as [Hw' Hpar]. split; [by eapply mem_wf_set| |done].
  split; [done|]. simpl. intros c ec p Hc Hpc Hp0. rewrite zget_zset in Hc. case_decide as Hd.
  - injection Hc as <-. destruct Hd as [<- _]. eauto.
  - eauto.
Qed.

Lemma wp_get_entry l b s i (Q : synx_global_coredata -> synx_state -> Prop) :
  ordered l b s -> 0 <= i < SYNX_GLOBAL_MAX_OBJS ->
  (forall e, zget (sy_table s) i = Some e -> coredata_wf e -> Q e s) -> wp (get_entry i) Q s.
Proof.
  intros Ho Hi HQ. destruct (entry_at s i (or_mem _ _ _ Ho) Hi) as [e He].
  unfold get_entry. apply wp_bind, wp_get. eapply wp_deref; [done|].
  apply HQ; [done|]. by eapply mw_entries; [apply Ho|].
Qed.

Lemma wp_set_entry l b s i e e' (Q : unit -> synx_state -> Prop) :
  ordered l b s -> zget (sy_table s) i = Some e -> tamer e e' ->
  (forall s', s' = s <| sy_table ::= zset i e' |> -> ordered l b s' -> zget (sy_table s') i = Some e' -> Q tt s') ->
  wp (set_entry i e') Q s.
Proof.
  intros Ho Hi Ht HQ. apply wp_modifyM. apply HQ; [done|by eapply set_entry_ordered|].
  simpl. apply zget_zset_eq. by eapply zget_Some.
Qed.

Lemma wp_update_entry l b s i f (Q : unit -> synx_state -> Prop) :
  ordered l b s -> 0 <= i < SYNX_GLOBAL_MAX_OBJS -> (forall e, tamer e (f e)) ->
  (forall s', ordered l b s' -> Q tt s') -> wp (update_entry i f) Q s.
Proof.
  intros Ho Hi Ht HQ. unfold update_entry. apply wp_bind. eapply wp_get_entry; [done..|].
  intros e He _. eapply wp_set_entry; [done..|apply Ht|]. auto.
Qed.

Lemma ordered_tick l b s : ordered l b s -> ordered l b (s <| sy_tick ::= S |>).
Proof. intros [[] [] ?]. split; [by split|by split|done]. Qed.

Lemma ordered_log l b s ev : ordered l b s -> ordered l b (s <| sy_events ::= fun evs => evs ++ [ev] |>).
Proof. intros [[] [] ?]. split; [by split|by split|done]. Qed.

Lemma ordered_lock l b b' s : ordered l b s -> ordered l b' (s <| sy_hwlock := Some b' |>).
Proof. intros [[] [] ?]. split; [by split|by split|done]. Qed.

Lemma gmem_lock_free s : sy_hwlock s = Some false ->
  synx_gmem_lock s =
    if env_lock_busy (sy_env s) (sy_tick s) then Done (- ETIMEDOUT) (s <| sy_tick ::= S |>)
    else (synx_gmem_lock_owner_set;;; ret 0) (s <| sy_tick ::= S |> <| sy_hwlock := Some true |>).
Proof.
  intros Hl. unfold synx_gmem_lock. rewrite (bind_run get _ s s s) by done. rewrite Hl.
  rewrite (bind_run synx_tick _ s (sy_tick s) (s <| sy_tick ::= S |>)) by done.
  cbn [orb]. by case_match.
Qed.

Lemma wp_gmem_lock l s (Q : Z -> synx_state -> Prop) :
  ordered l false s ->
  (forall s', ordered l true s' -> Q 0 s') ->
  (forall s', ordered l false s' -> Q (- ETIMEDOUT) s') -> wp synx_gmem_lock Q s.
Proof.
  intros Ho H0 H1. unfold wp. rewrite gmem_lock_free by apply Ho. apply ordered_tick in Ho.
  destruct (env_lock_busy _ _); [by apply H1|].
  change (wp (synx_gmem_lock_owner_set;;; ret 0) Q (s <| sy_tick ::= S |> <| sy_hwlock := Some true |>)).
  apply wp_bind. eapply wp_update_entry; [by eapply ordered_lock|unfold SYNX_GLOBAL_MAX_OBJS; lia|intros; tame|].
  auto.
Qed.

Lemma wp_gmem_unlock l b s (Q : unit -> synx_state -> Prop) :
  ordered l b s -> (forall s', ordered l false s' -> Q tt s') -> wp synx_gmem_unlock Q s.
Proof.
  intros Ho HQ. unfold synx_gmem_unlock, synx_gmem_lock_owner_clear. apply wp_bind.
  eapply wp_update_entry; [done|unfold SYNX_GLOBAL_MAX_OBJS; lia|intros; tame|].
  intros s' Ho'. apply wp_modifyM, HQ. by eapply ordered_lock.
Qed.

(** The critical section keeps the invariant if its body does. *)
Lemma wp_locked {A} l s (f : Z -> A) (body : SYNX A) (Q : A -> synx_state -> Prop) :
  ordered l false s ->
  (forall s', ordered l true s' ->
     wp body (fun a s2 => ordered l true s2 /\ forall s3, ordered l false s3 -> Q a s3) s') ->
  (forall s', ordered l false s' -> Q (f (- ETIMEDOUT)) s') ->
  wp (locked f body) Q s.
Proof.
  intros Ho Hbody Hfail. unfold locked. apply wp_bind. eapply wp_gmem_lock; [done| |].
  - intros s' Ho'. cbn [Z.eqb negb]. apply wp_bind. eapply wp_mono; [by apply Hbody|].
    intros a s2 [Ho2 HQ]. apply wp_bind. eapply wp_gmem_unlock; [done|]. auto.
  - intros s' Ho'. cbn [Z.eqb negb]. apply wp_ret. auto.
Qed.

Lemma wp_on_table {A} l b s null (k : SYNX A) Q :
  ordered l b s -> wp k Q s -> wp (on_table null k) Q s.
Proof.
  intros Ho Hk. unfold on_table. apply wp_bind, wp_get. unfold no_table.
  rewrite (mw_table s (or_mem _ _ _ Ho)). done.
Qed.
End updates.

(** ** Operations *)

Section operations.
Context (l : list Z).
Implicit Types (s : synx_state).

Abbreviation keeps m := (preserves (ordered l false) m).

Lemma valid_idx idx : 0 <= idx -> synx_is_valid_idx idx = true -> 0 <= idx < SYNX_GLOBAL_MAX_OBJS.
Proof. unfold synx_is_valid_idx. intros ? ?%Z.ltb_lt. lia. Qed.

Lemma keeps_on_table {A} (null : A) k : keeps k -> keeps (on_table null k).
Proof. intros Hk s Ho. eapply wp_on_table; [done|]. by apply Hk. Qed.

Lemma keeps_locked {A} (f : Z -> A) (body : SYNX A) :
  (forall s, ordered l true s -> wp body (fun _ s' => ordered l true s') s) -> keeps (locked f body).
Proof.
  intros Hb s Ho. eapply wp_locked; [done| |auto].
  intros s' Ho'. eapply wp_mono; [by apply Hb|]. auto.
Qed.

Lemma keeps_guard {A} (b : bool) (a : A) m : (b = false -> keeps m) -> keeps (if b then ret a else m).
Proof. intros Hm. destruct b; [apply preserves_ret|by apply Hm]. Qed.

(** The shape of most operations: one update of one entry under the lock. *)
Lemma keeps_update {A} (f : Z -> A) idx g (a : A) :
  0 <= idx < SYNX_GLOBAL_MAX_OBJS -> (forall e, tamer e (g e)) ->
  keeps (locked f (update_entry idx g;;; ret a)).
Proof.
  intros Hi Hg. apply keeps_locked. intros s Ho. apply wp_bind.
  eapply wp_update_entry; [done..|]. auto.
Qed.

(** Reading an entry and, in some cases, updating it. *)
Lemma keeps_test {A} (f : Z -> A) idx (k : synx_global_coredata -> SYNX A) :
  0 <= idx < SYNX_GLOBAL_MAX_OBJS ->
  (forall e, (exists a, k e = ret a) \/ exists g a, tamer e g /\ k e = (set_entry idx g;;; ret a)) ->
  keeps (locked f (e <-- get_entry idx; k e)).
Proof.
  intros Hi Hk. apply keeps_locked. intros s Ho. apply wp_bind. eapply wp_get_entry; [done..|].
  intros e He _. destruct (Hk e) as [[a ->]|(g & a & Ht & ->)]; [by apply wp_ret|].
  apply wp_bind. eapply wp_set_entry; [done..|]. intros. by apply wp_ret.
Qed.

Lemma wp_set_bit s b nr w (Q : Z -> synx_state -> Prop) :
  ordered l b s -> 0 <= nr < 32 -> 0 <= w < SYNX_GLOBAL_MAX_OBJS / 32 ->
  (forall x, zget (sy_bitmap s) w = Some x -> ordered l b (s <| sy_bitmap ::= zset w (Z.lor x (BIT nr)) |>) ->
     Q x (s <| sy_bitmap ::= zset w (Z.lor x (BIT nr)) |>)) ->
  wp (ipclite_global_test_and_set_bit nr w) Q s.
Proof.
  intros [[Ht Hb Hw He] Hto Hl] Hnr Hi HQ. unfold ipclite_global_test_and_set_bit.
  destruct (zget_is_Some (sy_bitmap s) w) as [x Hx]; [lia|].
  apply wp_bind, wp_get, wp_bind. eapply wp_deref; [done|].
  apply wp_bind. unfold put. apply HQ; [done|]. split; [|by destruct Hto|done]. split; simpl; [done|by rewrite zlen_zset| |done].
  intros j y Hj. rewrite zget_zset in Hj. case_decide; [|by eauto]. injection Hj as <-.
  apply range_lor; [done|by eapply Hw|by apply range_BIT].
Qed.

Lemma wp_clear_bit s b nr w (Q : Z -> synx_state -> Prop) :
  ordered l b s -> 0 <= w < SYNX_GLOBAL_MAX_OBJS / 32 ->
  (forall x s', ordered l b s' -> Q x s') -> wp (ipclite_global_test_and_clear_bit nr w) Q s.
Proof.
  intros [[Ht Hb Hw He] Hto Hl] Hi HQ. unfold ipclite_global_test_and_clear_bit.
  destruct (zget_is_Some (sy_bitmap s) w) as [x Hx]; [lia|].
  apply wp_bind, wp_get, wp_bind. eapply wp_deref; [done|].
  apply wp_bind. unfold put. apply HQ. split; [|by destruct Hto|done]. split; simpl; [done|by rewrite zlen_zset| |done].
  intros j y Hj. rewrite zget_zset in Hj. case_decide; [|by eauto]. injection Hj as <-.
  apply range_clear; [done|by eapply Hw].
Qed.

Lemma idx_word idx : 0 <= idx < SYNX_GLOBAL_MAX_OBJS -> 0 <= idx / 32 < SYNX_GLOBAL_MAX_OBJS / 32.
Proof.
  unfold SYNX_GLOBAL_MAX_OBJS. intros [? ?]. change (4096 / 32) with 128.
  split; [apply Z.div_pos; lia|]. apply Z.div_lt_upper_bound; lia.
Qed.

Lemma keeps_clear_index idx : 0 <= idx < SYNX_GLOBAL_MAX_OBJS -> keeps (clear_index idx).
Proof.
  intros Hi s Ho. unfold clear_index. apply wp_bind. eapply wp_clear_bit; [done|by apply idx_word|].
  intros. by apply wp_ret.
Qed.

Lemma keeps_log ev : keeps (synx_log ev).
Proof. intros s Ho. apply wp_modifyM. by apply ordered_log. Qed.

Lemma keeps_tick : keeps synx_tick.
Proof.
  intros s Ho. unfold synx_tick. apply wp_bind, wp_get, wp_bind. unfold put. apply wp_ret. by apply ordered_tick.
Qed.

Lemma keeps_send i cores data : keeps (send_from i cores data).
Proof.
  revert i. induction cores as [|c cores IH]; intros i; [apply preserves_ret|].
  simpl. apply preserves_bind; [|auto]. apply preserves_if; [apply keeps_log|apply preserves_ret].
Qed.

Lemma keeps_notify_cores status data cores : keeps (notify_cores status data cores).
Proof.
  unfold notify_cores. apply preserves_if; [apply preserves_ret|]. apply preserves_if; apply keeps_send.
Qed.
End operations.

(** ** Signaling *)

Lemma NoDup_app_cons_inj {A} (x : A) l1 l2 k1 k2 :
  NoDup (l1 ++ x :: l2) -> l1 ++ x :: l2 = k1 ++ x :: k2 -> k1 = l1 /\ k2 = l2.
Proof.
  revert k1. induction l1 as [|y l1 IH]; intros [|z k1] Hnd Heq; simplify_list_eq; [done| | |].
  - apply NoDup_cons in Hnd as [[] _]. apply elem_of_app. right. left.
  - apply NoDup_cons in Hnd as [[] _]. apply elem_of_app. right. left.
  - apply NoDup_cons in Hnd as [_ Hnd]. match goal with H : _ = _ |- _ => by destruct (IH k1 Hnd H) as [-> ->] end.
Qed.

Section signaling.
Context (l : list Z).
Implicit Types (s : synx_state).

Abbreviation keeps m := (preserves (ordered l false) m).

Lemma get_waiting_keeps s idx cores (Q : list bool -> synx_state -> Prop) e :
  ordered l true s -> zget (sy_table s) idx = Some e ->
  (forall c s', ordered l true s' -> zget (sy_table s') idx = Some (e <| sg_waiters := 0 |>) -> Q c s') ->
  wp (synx_global_get_waiting_cores_locked idx cores) Q s.
Proof.
  intros Ho He HQ. unfold synx_global_get_waiting_cores_locked.
  apply wp_bind. unfold get_entry. apply wp_bind, wp_get. eapply wp_deref; [done|].
  apply wp_bind. eapply wp_set_entry; [done|done|tame|]. intros. apply wp_ret. auto.
Qed.

Lemma tamer_child_notified status e : in_u32 status -> tamer e (child_notified status e).
Proof.
  intros Hs. apply (tamer_fields e). intros []. simpl. split_and!; try done; [by case_match|apply u16_range].
Qed.

(** The parents found in the critical section are those of the entry. *)
Definition parents_after (idx : Z) (parents : list Z) : Prop :=
  Forall (fun p => p <> 0 -> 0 <= p < SYNX_GLOBAL_MAX_OBJS /\ before l idx p) parents.

Lemma parents_after_entry b s idx e :
  ordered l b s -> zget (sy_table s) idx = Some e -> parents_after idx (sg_parents e).
Proof.
  intros Ho He. apply Forall_forall. intros p Hp Hp0. split.
  - pose proof (ew_parents e (mw_entries s (or_mem _ _ _ Ho) _ _ He)) as Hf.
    rewrite Forall_forall in Hf. by apply Hf.
  - eapply to_edge; [apply Ho|done..].
Qed.

Lemma signal_entry_keeps s idx status :
  ordered l true s -> 0 <= idx < SYNX_GLOBAL_MAX_OBJS -> in_u32 status ->
  wp (signal_entry idx status) (fun o s' => ordered l true s' /\ parents_after idx o.2) s.
Proof.
  intros Ho Hi Hst. unfold signal_entry. apply wp_bind. eapply wp_get_entry; [done..|].
  intros e He Hw. pose proof (parents_after_entry _ _ _ _ Ho He) as Hpar.
  destruct (negb _).
  - pose proof (tamer_child_notified status e Hst) as Ht.
    apply wp_bind. eapply wp_set_entry; [done..|]. intros s1 _ Ho1 He1.
    destruct (_ =? 0).
    + apply wp_bind. eapply get_waiting_keeps; [done..|]. intros c s2 Ho2 He2.
      apply wp_bind. eapply wp_update_entry; [done..|intros; tame|]. intros s3 Ho3.
      apply wp_bind. eapply wp_get_entry; [done..|]. intros e3 He3 _.
      destruct (_ =? 0).
      * apply wp_bind. eapply wp_set_entry; [done..|tame|]. intros. by apply wp_ret.
      * by apply wp_ret.
    + apply wp_ret. split; [done|]. by repeat constructor.
  - apply wp_bind. eapply wp_set_entry; [done..|tame|]. intros s1 _ Ho1 He1.
    apply wp_bind. eapply get_waiting_keeps; [done..|]. intros. by apply wp_ret.
Qed.

Lemma keeps_notify_parents (signal : Z -> SYNX Z) parents :
  Forall (fun p => p <> 0 -> keeps (signal p)) parents -> keeps (notify_parents signal parents).
Proof.
  induction 1 as [|p parents Hp _ IH]; [apply preserves_ret|]. simpl.
  apply preserves_bind; [|done]. destruct (Z.eqb_spec p 0); [apply preserves_ret|].
  apply preserves_bind; [by apply Hp|]. intros. apply preserves_ret.
Qed.

(** The recursion goes up the order, so what is left of it behind the entry bounds
    the depth: what holds of a call when it holds of the calls for all entries further
    up holds of every call with enough fuel. *)
Lemma climb_ind (P : nat -> Z -> Prop) :
  NoDup l ->
  (forall fuel idx, 0 <= idx < SYNX_GLOBAL_MAX_OBJS ->
     (forall p, 0 <= p < SYNX_GLOBAL_MAX_OBJS -> before l idx p -> P fuel p) -> P (S fuel) idx) ->
  forall fuel l1 idx l2, l = l1 ++ idx :: l2 -> (length l2 < fuel)%nat ->
    0 <= idx < SYNX_GLOBAL_MAX_OBJS -> P fuel idx.
Proof.
  intros Hnd Hstep fuel. induction fuel as [|fuel IH]; intros l1 idx l2 Hl Hf Hi; [lia|].
  apply Hstep; [done|]. intros p Hpi (m1 & m2 & Hm & Hin).
  assert (m1 = l1 /\ m2 = l2) as [-> ->].
  { rewrite Hl in Hm, Hnd. apply (NoDup_app_cons_inj idx); [done|by rewrite <- Hm]. }
  apply list_elem_of_split in Hin as (k1 & k2 & ->).
  apply (IH (l1 ++ idx :: k1) p k2); [by rewrite Hl, <- app_assoc| |done].
  rewrite length_app in Hf. simpl in Hf. lia.
Qed.

Lemma topo_nodup s : topo l s -> NoDup l.
Proof. intros [Hp _]. rewrite Hp. apply NoDup_seqZ. Qed.

Lemma topo_length s : topo l s -> length l = Z.to_nat SYNX_GLOBAL_MAX_OBJS.
Proof. intros [Hp _]. by rewrite Hp, length_seqZ. Qed.

Lemma topo_split s idx : topo l s -> 0 <= idx < SYNX_GLOBAL_MAX_OBJS -> exists l1 l2, l = l1 ++ idx :: l2.
Proof. intros [Hp _] Hi. apply list_elem_of_split. rewrite Hp. apply elem_of_seqZ. lia. Qed.

(** The fuel of the code is enough for every entry of an ordered table. *)
Lemma climb (P : nat -> Z -> Prop) s :
  topo l s ->
  (forall fuel idx, 0 <= idx < SYNX_GLOBAL_MAX_OBJS ->
     (forall p, 0 <= p < SYNX_GLOBAL_MAX_OBJS -> before l idx p -> P fuel p) -> P (S fuel) idx) ->
  forall idx, 0 <= idx < SYNX_GLOBAL_MAX_OBJS -> P (Z.to_nat SYNX_GLOBAL_MAX_OBJS) idx.
Proof.
  intros Ht Hstep idx Hi. destruct (topo_split s idx Ht Hi) as (l1 & l2 & Hl).
  eapply climb_ind; [by eapply topo_nodup|done|done| |done].
  rewrite <- (topo_length s Ht), Hl, length_app. simpl. lia.
Qed.

Lemma keeps_core_step fuel idx status :
  in_u32 status -> 0 <= idx < SYNX_GLOBAL_MAX_OBJS ->
  (forall p, 0 <= p < SYNX_GLOBAL_MAX_OBJS -> before l idx p -> keeps (synx_global_update_status_core fuel p status)) ->
  keeps (synx_global_update_status_core (S fuel) idx status).
Proof.
  intros Hst Hi IH s Ho. simpl. apply wp_bind. eapply wp_locked; [done| |].
  2:{ intros s' Ho'. apply wp_ret. done. }
  intros s1 Ho1. apply wp_bind. eapply wp_mono; [by apply signal_entry_keeps|].
  intros [[[data cleared] cores] parents] s2 [Ho2 Hpar]. apply wp_ret. split; [done|].
  intros s3 Ho3. revert s3 Ho3. change (keeps (when cleared do clear_index idx;;;
    notify_cores status data cores;;;
    notify_parents (fun p => synx_global_update_status_core fuel p status) parents;;; ret 0)).
  apply preserves_bind; [apply preserves_if; [by apply keeps_clear_index|apply preserves_ret]|].
  intros _. apply preserves_bind; [apply keeps_notify_cores|]. intros _.
  apply preserves_bind; [|intros; apply preserves_ret].
  apply keeps_notify_parents. eapply Forall_impl; [exact Hpar|]. simpl. intros p Hp Hp0.
  destruct (Hp Hp0). by apply IH.
Qed.

Lemma keeps_signal idx status :
  0 <= idx < SYNX_GLOBAL_MAX_OBJS -> in_u32 status ->
  keeps (synx_global_update_status_core (Z.to_nat SYNX_GLOBAL_MAX_OBJS) idx status).
Proof.
  intros Hi Hst s Ho.
  apply (climb (fun fuel idx => keeps (synx_global_update_status_core fuel idx status)) s); [apply Ho| |done..].
  intros. by apply keeps_core_step.
Qed.

Lemma keeps_update_status idx status :
  0 <= idx -> in_u32 status -> keeps (synx_global_update_status idx status).
Proof.
  intros Hi Hst. apply keeps_on_table, keeps_guard. intros [Hv _]%orb_false_iff.
  apply negb_false_iff, (valid_idx _ Hi) in Hv. apply preserves_bind.
  - apply keeps_test; [done|]. intros e. left. eauto.
  - intros [rc|]; [apply preserves_ret|]. by apply keeps_signal.
Qed.
End signaling.

(** ** Allocation *)

(** Scanning finds the first number where the test holds, or the end. *)
Lemma scan_spec n i p :
  (i <= scan n i p <= i + Z.of_nat n) /\
  (forall j, i <= j < scan n i p -> p j = false) /\
  (scan n i p < i + Z.of_nat n -> p (scan n i p) = true).
Proof.
  revert i. induction n as [|n IH]; intros i; simpl; [split_and!; lia|].
  destruct (p i) eqn:E; [split_and!; [lia..|done]|].
  destruct (IH (i + 1)) as (H1 & H2 & H3). split_and!; [lia|lia| |intros; apply H3; lia].
  intros j Hj. destruct (decide (j = i)) as [->|]; [done|]. apply H2. lia.
Qed.

Lemma find_first_zero_spec bm n :
  0 <= n ->
  0 <= find_first_zero_bit bm n <= n /\
  (find_first_zero_bit bm n < n -> bitmap_bit bm (find_first_zero_bit bm n) = false) /\
  (find_first_zero_bit bm n = n -> forall i, 0 <= i < n -> bitmap_bit bm i = true).
Proof.
  intros Hn. unfold find_first_zero_bit.
  destruct (scan_spec (Z.to_nat n) 0 (fun i => negb (bitmap_bit bm i))) as (H1 & H2 & H3).
  rewrite Z2Nat.id, Z.add_0_l in * by done. split_and!; [lia|lia| |].
  - intros H. by apply negb_true_iff, H3.
  - intros H i Hi. apply negb_false_iff, H2. rewrite H. lia.
Qed.

(** How many indices are free. *)
Definition zeros (bm : list Z) : nat :=
  length (filter (fun i => bitmap_bit bm i = false) (seqZ 0 SYNX_GLOBAL_MAX_OBJS)).

(** Bits are only set from [bm] to [bm']. *)
Definition fuller (bm bm' : list Z) : Prop := forall i, bitmap_bit bm i = true -> bitmap_bit bm' i = true.

Lemma filter_shrinks {A} (P Q : A -> Prop) `{!forall x, Decision (P x), !forall x, Decision (Q x)} (l : list A) :
  (forall x, Q x -> P x) ->
  (length (filter Q l) <= length (filter P l))%nat /\
  forall x, x ∈ l -> P x -> ~ Q x -> (length (filter Q l) < length (filter P l))%nat.
Proof.
  intros HQP. induction l as [|y l [IH1 IH2]]; [split; [done|]; by intros x ?%elem_of_nil|].
  rewrite !filter_cons. split.
  - destruct (decide (Q y)), (decide (P y)); simpl; try lia. naive_solver.
  - intros x [->|Hx]%elem_of_cons HP HnQ; destruct (decide (Q _)), (decide (P _)); simpl; try lia; try naive_solver;
      specialize (IH2 x Hx HP HnQ); lia.
Qed.

Lemma zeros_fuller bm bm' : fuller bm bm' -> (zeros bm' <= zeros bm)%nat.
Proof.
  intros H. apply filter_shrinks. intros x Hx. destruct (bitmap_bit bm x) eqn:E; [|done].
  apply H in E. congruence.
Qed.

Lemma zeros_lt bm bm' i :
  fuller bm bm' -> 0 <= i < SYNX_GLOBAL_MAX_OBJS -> bitmap_bit bm i = false -> bitmap_bit bm' i = true ->
  (zeros bm' < zeros bm)%nat.
Proof.
  intros H Hi H0 H1. eapply (proj2 (filter_shrinks _ _ _ _) i).
  Unshelve.
  - apply elem_of_seqZ. lia.
  - done.
  - congruence.
  - intros x Hx. destruct (bitmap_bit bm x) eqn:E; [|done]. apply H in E. congruence.
Qed.

Lemma zeros_bound bm : (zeros bm <= Z.to_nat SYNX_GLOBAL_MAX_OBJS)%nat.
Proof. unfold zeros. etrans; [apply length_filter|]. by rewrite length_seqZ. Qed.

Lemma bitmap_bit_set bm i j w :
  zget bm (i / 32) = Some w ->
  bitmap_bit (zset (i / 32) (Z.lor w (BIT (i mod 32))) bm) j = bitmap_bit bm j || bool_decide (j = i).
Proof.
  intros Hw. unfold bitmap_bit. pose proof (zget_Some _ _ _ Hw) as Hb. pose proof (Z.mod_pos_bound i 32).
  rewrite zget_zset. case_decide as Hd.
  - destruct Hd as [Hd _]. rewrite <- Hd, Hw, Z.lor_spec, testbit_BIT by lia. f_equal.
    apply bool_decide_ext.
    pose proof (Z.div_mod i 32). pose proof (Z.div_mod j 32). split; [lia|by intros ->].
  - rewrite (bool_decide_eq_false_2 (j = i)) by (intros ->; by apply Hd). by rewrite orb_false_r.
Qed.

Lemma take_bit_fuller bm i : fuller bm (take_bit bm i).
Proof.
  intros j Hj. unfold take_bit. case_match eqn:E; [|done]. by rewrite (bitmap_bit_set _ _ _ _ E), Hj.
Qed.

Lemma fuller_trans bm1 bm2 bm3 : fuller bm1 bm2 -> fuller bm2 bm3 -> fuller bm1 bm3.
Proof. unfold fuller. naive_solver. Qed.

Lemma take_bits_fuller l bm : fuller bm (fold_left take_bit l bm).
Proof.
  revert bm. induction l as [|i l IH]; intros bm; simpl; [by intros ?|].
  eapply fuller_trans; [apply take_bit_fuller|apply IH].
Qed.

Definition bitmap_wf (bm : list Z) : Prop :=
  zlen bm = SYNX_GLOBAL_MAX_OBJS / 32 /\ forall w x, zget bm w = Some x -> in_u32 x.

Lemma take_bit_wf bm i : bitmap_wf bm -> bitmap_wf (take_bit bm i).
Proof.
  intros [Hl Hw]. unfold take_bit. case_match eqn:E; [|done]. split; [by rewrite zlen_zset|].
  intros w x Hx. rewrite zget_zset in Hx. case_decide; [|by eauto]. injection Hx as <-.
  pose proof (Z.mod_pos_bound i 32). apply range_lor; [done|by eapply Hw|apply range_BIT; lia].
Qed.

Lemma take_bits_wf l bm : bitmap_wf bm -> bitmap_wf (fold_left take_bit l bm).
Proof. revert bm. induction l; intros bm Hb; simpl; [done|]. by apply IHl, take_bit_wf. Qed.

Lemma ordered_bitmap l b s bm :
  ordered l b s -> bitmap_wf bm -> ordered l b (s <| sy_bitmap := bm |>).
Proof. intros [[] [] ?] []. split; [by split|by split|done]. Qed.

Lemma ordered_bitmap_wf l b s : ordered l b s -> bitmap_wf (sy_bitmap s).
Proof. intros [[] _ _]. by split. Qed.

(** What the allocation promises: an index that was free the moment it was taken, or
    the answer that there is none. *)
Definition alloc_result (bm : list Z) (out : Z * option Z) (bm' : list Z) : Prop :=
  match out with
  | (rc, Some i) => rc = 0 /\ 0 <= i < SYNX_GLOBAL_MAX_OBJS /\ bitmap_bit bm i = false /\
      exists bm1, fuller bm bm1 /\ bitmap_bit bm1 i = false /\ bm' = take_bit bm1 i
  | (rc, None) => rc = - SYNX_NOMEM /\ fuller bm bm' /\
      forall i, 0 <= i < SYNX_GLOBAL_MAX_OBJS -> bitmap_bit bm' i = true
  end.

Lemma alloc_result_fuller bm0 bm out bm' :
  fuller bm0 bm -> alloc_result bm out bm' -> alloc_result bm0 out bm'.
Proof.
  intros Hf. destruct out as [rc [i|]]; simpl.
  - intros (-> & Hi & H0 & bm1 & H1 & ?). split_and!; [done|lia..| |].
    + destruct (bitmap_bit bm0 i) eqn:E; [|done]. apply Hf in E. congruence.
    + exists bm1. split; [by eapply fuller_trans|done].
  - intros (-> & H1 & ?). split_and!; [done|by eapply fuller_trans|done].
Qed.

Lemma set_bit_done s i :
  bitmap_wf (sy_bitmap s) -> 0 <= i < SYNX_GLOBAL_MAX_OBJS -> exists x,
    ipclite_global_test_and_set_bit (i mod 32) (i / 32) s = Done x (s <| sy_bitmap ::= fun bm => take_bit bm i |>) /\
    flag x (BIT (i mod 32)) = bitmap_bit (sy_bitmap s) i.
Proof.
  intros [Hl _] Hi. pose proof (idx_word i Hi). destruct (zget_is_Some (sy_bitmap s) (i / 32)) as [x Hx]; [lia|].
  exists x. split.
  - unfold ipclite_global_test_and_set_bit. rewrite (bind_run get _ s s s) by done.
    unfold take_bit, modify, bind, deref, ret, put. simpl. by rewrite Hx.
  - pose proof (Z.mod_pos_bound i 32). rewrite flag_BIT by lia. unfold bitmap_bit. by rewrite Hx.
Qed.

Lemma alloc_loop_spec l fuel s :
  ordered l false s -> (zeros (sy_bitmap s) < fuel)%nat ->
  wp (alloc_loop fuel)
     (fun out s' => ordered l false s' /\ sy_table s' = sy_table s /\ sy_env s' = sy_env s /\
                    alloc_result (sy_bitmap s) out (sy_bitmap s')) s.
Proof.
  revert s. induction fuel as [|fuel IH]; intros s Ho Hf; [lia|]. simpl. apply wp_bind, wp_get.
  destruct (find_first_zero_spec (sy_bitmap s) SYNX_GLOBAL_MAX_OBJS) as (Hr & H0 & H1); [done|].
  set (i := find_first_zero_bit _ _) in *. destruct (Z.leb_spec SYNX_GLOBAL_MAX_OBJS i) as [Hge|Hlt].
  { apply wp_ret. split_and!; [done..|]. split_and!; [done|by intros ?|apply H1; lia]. }
  specialize (H0 Hlt). clear H1.
  apply wp_bind. unfold others_allocate, synx_tick. apply wp_bind, wp_get, wp_bind, wp_bind, wp_get, wp_bind.
  unfold put. unfold wp at 1, wp at 1. apply wp_modifyM.
  set (s1 := _ <| sy_bitmap ::= _ |>).
  assert (Ho1 : ordered l false s1).
  { apply (ordered_bitmap l false (s <| sy_tick ::= S |>)); [by apply ordered_tick|].
    apply take_bits_wf. exact (ordered_bitmap_wf _ _ _ Ho). }
  assert (Hf1 : fuller (sy_bitmap s) (sy_bitmap s1)) by apply take_bits_fuller.
  destruct (set_bit_done s1 i) as (x & Hrun & Hx); [by eapply ordered_bitmap_wf|lia|].
  apply wp_bind. eapply wp_done; [done|]. rewrite Hx.
  set (s2 := s1 <| sy_bitmap ::= _ |>) in *.
  assert (Ho2 : ordered l false s2) by (apply (ordered_bitmap l false s1); [done|apply take_bit_wf, (ordered_bitmap_wf _ _ _ Ho1)]).
  destruct (bitmap_bit (sy_bitmap s1) i) eqn:E; simpl.
  - assert (fuller (sy_bitmap s) (sy_bitmap s2)) as Hf2.
    { eapply fuller_trans; [done|apply take_bit_fuller]. }
    eapply wp_mono; [apply IH; [done|]|].
    + eapply Nat.lt_le_trans; [|apply Nat.lt_succ_r, Hf]. apply (zeros_lt _ _ i); [done|lia|done|].
      by apply take_bit_fuller.
    + intros out s' (? & ? & ? & ?). split_and!; [done..|]. by eapply alloc_result_fuller.
  - apply wp_ret. split_and!; [done..|]. split_and!; [done|lia..|done|]. by exists (sy_bitmap s1).
Qed.

(** ** References and initialisation *)

Section references.
Context (l : list Z).
Abbreviation keeps m := (preserves (ordered l false) m).

Lemma keeps_alloc_index : keeps synx_global_alloc_index.
Proof.
  apply keeps_on_table. intros s Ho. eapply wp_mono; [apply alloc_loop_spec; [done|]|].
  - apply Nat.lt_succ_r, zeros_bound.
  - by intros out s' [? _].
Qed.

Lemma tamer_fresh e h : in_u32 h -> tamer e (fresh_coredata h).
Proof.
  intros Hh Hw. split; [|exact (proj2 (tamer_zero e Hw))].
  destruct zero_wf. by split.
Qed.

Lemma index_mask_range h : 0 <= Z.land h SYNX_HANDLE_INDEX_MASK.
Proof. apply Z.land_nonneg. by right. Qed.

Lemma keeps_init_coredata h : in_u32 h -> keeps (synx_global_init_coredata h).
Proof.
  intros Hh. apply keeps_on_table, keeps_guard. intros Hv%negb_false_iff.
  apply (valid_idx _ (index_mask_range h)) in Hv. apply keeps_test; [done|].
  intros e. destruct (negb (entry_cleared e)); [left; eauto|right].
  exists (fresh_coredata h), 0. split; [by apply tamer_fresh|done].
Qed.

Lemma wp_drop_ref s idx (Q : bool -> synx_state -> Prop) :
  ordered l true s -> 0 <= idx < SYNX_GLOBAL_MAX_OBJS ->
  (forall freed s', ordered l true s' -> Q freed s') -> wp (drop_ref idx) Q s.
Proof.
  intros Ho Hi HQ. unfold drop_ref. apply wp_bind. eapply wp_update_entry; [done..|intros; tame|].
  intros s1 Ho1. apply wp_bind. eapply wp_get_entry; [done..|]. intros e He _.
  case_match; [|by apply wp_ret, HQ]. apply wp_bind. eapply wp_set_entry; [done..|tame|].
  intros. by apply wp_ret, HQ.
Qed.

Lemma keeps_put_ref idx : 0 <= idx -> keeps (synx_global_put_ref idx).
Proof.
  intros Hi. apply keeps_on_table, keeps_guard. intros Hv%negb_false_iff.
  apply (valid_idx _ Hi) in Hv. apply preserves_bind.
  - apply keeps_locked. intros s Ho. eapply wp_drop_ref; [done..|]. done.
  - intros cleared. apply preserves_if; [by apply keeps_clear_index|apply preserves_ret].
Qed.

Lemma keeps_get_ref idx : 0 <= idx -> keeps (synx_global_get_ref idx).
Proof.
  intros Hi. apply keeps_on_table, keeps_guard. intros Hv%negb_false_iff.
  apply (valid_idx _ Hi) in Hv. apply keeps_test; [done|].
  intros e. case_match; [right|left; eauto]. do 2 eexists. split; [|done]. tame.
Qed.

(** ** Recovery *)

Lemma keeps_recover_entry core idx :
  0 <= idx < SYNX_GLOBAL_MAX_OBJS ->
  forall s, ordered l true s -> wp (recover_entry core idx) (fun _ s' => ordered l true s') s.
Proof.
  intros Hi s Ho. unfold recover_entry. apply wp_bind. eapply wp_get_entry; [done..|]. intros e He _.
  case_match; [|by apply wp_ret]. apply wp_bind. eapply wp_set_entry; [done..|tame|]. intros s1 _ Ho1 _.
  apply wp_bind. eapply wp_drop_ref; [done..|]. intros. by apply wp_ret.
Qed.

Lemma find_next_bit_range bm idx :
  0 <= idx <= SYNX_GLOBAL_MAX_OBJS -> idx <= find_next_bit bm SYNX_GLOBAL_MAX_OBJS idx <= SYNX_GLOBAL_MAX_OBJS.
Proof.
  intros Hi. unfold find_next_bit.
  pose proof (scan_spec (Z.to_nat (SYNX_GLOBAL_MAX_OBJS - idx)) idx (bitmap_bit bm)). lia.
Qed.

Lemma recover_loop_keeps fuel core idx cl s :
  ordered l false s -> 0 <= idx <= SYNX_GLOBAL_MAX_OBJS -> SYNX_GLOBAL_MAX_OBJS - idx <= Z.of_nat fuel ->
  Forall (fun i => 0 <= i < SYNX_GLOBAL_MAX_OBJS) cl ->
  wp (recover_loop fuel core idx cl)
     (fun out s' => ordered l false s' /\ Forall (fun i => 0 <= i < SYNX_GLOBAL_MAX_OBJS) out.2) s.
Proof.
  revert idx cl s. induction fuel as [|fuel IH]; intros idx cl s Ho Hi Hf Hcl; simpl;
    destruct (Z.leb_spec SYNX_GLOBAL_MAX_OBJS idx); try (by apply wp_ret); [lia|].
  apply wp_bind. eapply wp_locked; [done| |by intros; apply wp_ret].
  intros s1 Ho1. apply wp_bind. eapply wp_mono; [apply keeps_recover_entry; [lia|done]|].
  intros [freed update] s2 Ho2. apply wp_ret. split; [done|]. intros s3 Ho3.
  apply wp_bind. eapply wp_mono.
  { apply (preserves_if (ordered l false)); [|apply preserves_ret|done].
    apply preserves_bind; [apply keeps_update_status; [lia|done]|intros; apply preserves_ret]. }
  intros ? s4 Ho4. apply wp_bind, wp_get.
  pose proof (find_next_bit_range (sy_bitmap s4) (idx + 1)). apply IH; [done|lia|lia|].
  destruct freed; [|done]. apply Forall_app. split; [done|]. by constructor; [lia|].
Qed.

Lemma keeps_clear_indices cl :
  Forall (fun i => 0 <= i < SYNX_GLOBAL_MAX_OBJS) cl -> keeps (clear_indices cl).
Proof.
  induction 1; simpl; [apply preserves_ret|]. apply preserves_bind; [by apply keeps_clear_index|done].
Qed.

Lemma wp_recover_lock core s (Q : unit -> synx_state -> Prop) b :
  ordered l b s -> (b = true -> exists e, zget (sy_table s) 0 = Some e /\ sg_subscribers e = core) ->
  (forall s', ordered l false s' -> Q tt s') -> wp (recover_lock core) Q s.
Proof.
  intros Ho Hown HQ. unfold recover_lock, synx_gmem_lock_owner. apply wp_bind, wp_bind.
  eapply wp_get_entry; [done|unfold SYNX_GLOBAL_MAX_OBJS; lia|]. intros e He _. apply wp_ret.
  case_match eqn:E.
  - apply wp_bind. eapply wp_update_entry; [done|unfold SYNX_GLOBAL_MAX_OBJS; lia|intros; tame|].
    intros s' Ho'. apply wp_bind, wp_get. rewrite (or_lock _ _ _ Ho'). apply wp_modifyM, HQ.
    by eapply ordered_lock.
  - apply wp_ret. destruct b; [|auto]. destruct (Hown eq_refl) as (e' & He' & Hc).
    apply Z.eqb_neq in E. congruence.
Qed.

(** Recovery also repairs the lock the core stopped with. *)
Lemma recover_keeps core b s :
  ordered l b s -> (b = true -> env_no_memory (sy_env s) (sy_tick s) = false /\
    exists e, zget (sy_table s) 0 = Some e /\ sg_subscribers e = core) ->
  wp (synx_global_recover core) (fun _ s' => ordered l false s') s.
Proof.
  intros Ho Hown. unfold synx_global_recover. eapply wp_on_table; [done|].
  apply wp_bind, wp_get, wp_bind. unfold synx_tick. apply wp_bind, wp_get, wp_bind. unfold put, wp at 1.
  apply wp_ret. apply ordered_tick in Ho. destruct (env_no_memory _ _).
  { apply wp_ret. destruct b; [by destruct (Hown eq_refl)|done]. }
  apply wp_bind. apply wp_modifyM. apply wp_bind. eapply wp_recover_lock; [by apply ordered_log|intros Hb; apply Hown, Hb|].
  intros s1 Ho1. apply wp_bind, wp_get, wp_bind.
  pose proof (find_next_bit_range (sy_bitmap s1) 1 ltac:(unfold SYNX_GLOBAL_MAX_OBJS; lia)).
  eapply wp_mono; [apply recover_loop_keeps; [done|lia| |constructor]|].
  { rewrite Z2Nat.id; [lia|done]. }
  intros [rc cl] s2 [Ho2 Hcl]. apply wp_bind. eapply wp_mono.
  { apply (preserves_if (ordered l false)); [by apply keeps_clear_indices|apply preserves_ret|done]. }
  intros. by apply wp_ret.
Qed.
End references.

(** ** Composite objects *)

(** [p] at the end of the order. *)
Definition moved_last (l : list Z) (p : Z) : list Z := filter (fun c => c <> p) l ++ [p].

Section merging.
Context (l : list Z) (p_idx : Z) (Hp : 0 <= p_idx < SYNX_GLOBAL_MAX_OBJS).
Abbreviation keeps m := (preserves (ordered l false) m).

Lemma before_moved l0 c q : before l0 c q -> c <> p_idx -> q <> p_idx -> before (moved_last l0 p_idx) c q.
Proof.
  intros (l1 & l2 & -> & Hq) Hc Hqp. unfold moved_last.
  exists (filter (fun c => c <> p_idx) l1), (filter (fun c => c <> p_idx) l2 ++ [p_idx]).
  rewrite filter_app, filter_cons_True by done. rewrite <- app_assoc. split; [done|].
  apply elem_of_app. left. by apply list_elem_of_filter.
Qed.

Lemma before_last l0 c : c ∈ l0 -> c <> p_idx -> before (moved_last l0 p_idx) c p_idx.
Proof.
  intros (l1 & l2 & ->)%list_elem_of_split Hc. unfold moved_last.
  exists (filter (fun c => c <> p_idx) l1), (filter (fun c => c <> p_idx) l2 ++ [p_idx]).
  rewrite filter_app, filter_cons_True by done. rewrite <- app_assoc. split; [done|].
  apply elem_of_app. right. left.
Qed.

Lemma filter_ne_perm (l0 : list Z) : NoDup l0 -> p_idx ∈ l0 -> moved_last l0 p_idx ≡ₚ l0.
Proof.
  intros Hnd (l1 & l2 & ->)%list_elem_of_split. unfold moved_last.
  apply NoDup_app in Hnd as (_ & H1 & H2). apply NoDup_cons in H2 as [H2 _].
  assert (forall k : list Z, p_idx ∉ k -> filter (fun c => c <> p_idx) k = k) as Hf.
  { induction k as [|y k IH]; [done|]. intros [Hne Hk]%not_elem_of_cons.
    rewrite filter_cons_True by (by intros ->). by rewrite IH. }
  rewrite filter_app, filter_cons_False by (intros []; done). rewrite !Hf; [|done|].
  - rewrite <- app_assoc. rewrite <- Permutation_cons_append. done.
  - intros Hin. apply (H1 _ Hin). left.
Qed.

(** An entry without parents may go to the end of the order. *)
Lemma ordered_moved b s e :
  ordered l b s -> zget (sy_table s) p_idx = Some e -> (forall q, q ∈ sg_parents e -> q = 0) ->
  ordered (moved_last l p_idx) b s.
Proof.
  intros [Hm [Hperm Hedge] Hl] He Hpar. split; [done| |done].
  assert (p_idx ∈ l) by (rewrite Hperm; apply elem_of_seqZ; lia).
  assert (NoDup l) by (rewrite Hperm; apply NoDup_seqZ). split; [by rewrite filter_ne_perm|].
  intros c ec q Hc Hq Hq0. specialize (Hedge _ _ _ Hc Hq Hq0).
  destruct (decide (c = p_idx)) as [->|Hcp]; [naive_solver|].
  destruct (decide (q = p_idx)) as [->|]; [|by apply before_moved].
  apply before_last; [|done]. destruct Hedge as (l1 & l2 & -> & _). apply elem_of_app. right. left.
Qed.

Lemma set_parent_wf old new e :
  coredata_wf e -> 0 <= new < SYNX_GLOBAL_MAX_OBJS ->
  coredata_wf (set_parent old new e) /\
  forall q, q ∈ sg_parents (set_parent old new e) -> q = new \/ q ∈ sg_parents e.
Proof.
  intros [] Hnew. unfold set_parent. case_match; [|split; [by split|by right]]. split.
  - split; simpl; try done.
    + unfold zset. case_match; [by rewrite length_insert|done].
    + unfold zset. case_match; [|done]. by apply Forall_insert.
  - simpl. intros q Hq. apply list_elem_of_lookup_1 in Hq as [k Hk]. unfold zset in Hk.
    case_match; [|right; by eapply list_elem_of_lookup_2].
    apply list_lookup_insert_Some in Hk as [(? & ? & ?)|[_ Hk]]; [by left|].
    right. by eapply list_elem_of_lookup_2.
Qed.

(** A child that comes before [p_idx] in the order gets it as a parent. *)
Lemma link_ordered b s i e old :
  ordered l b s -> zget (sy_table s) i = Some e -> before l i p_idx ->
  ordered l b (s <| sy_table ::= zset i (set_parent old p_idx e) |>).
Proof.
  intros [Hm [Hperm Hedge] Hl] He Hb.
  destruct (set_parent_wf old p_idx e (mw_entries s Hm _ _ He) Hp) as [Hw Hq].
  split; [by eapply mem_wf_set| |done]. split; [done|]. simpl. intros c ec q Hc Hin Hq0.
  rewrite zget_zset in Hc. case_decide as Hd; [|by eauto].
  injection Hc as <-. destruct Hd as [<- _]. destruct (Hq q Hin) as [->|]; [done|]. eauto.
Qed.

Lemma tamer_unlink old e : tamer e (set_parent old 0 e).
Proof.
  intros Hw. destruct (set_parent_wf old 0 e Hw) as [Hw' Hq]; [done|]. split; [done|].
  intros q Hin Hq0. by destruct (Hq q Hin).
Qed.

Lemma merge_status_u32 st e : coredata_wf e -> in_u32 st -> in_u32 (merge_status st e).
Proof. intros [] ?. unfold merge_status. by repeat case_match. Qed.

Definition child_idx (i : Z) : Prop := 0 <= i < SYNX_GLOBAL_MAX_OBJS /\ before l i p_idx.

(** Everything counted has been visited. *)
Definition counted (list : list Z) (n : Z) : Prop :=
  0 <= n <= zlen list /\ Forall child_idx (take (Z.to_nat n) list).

Lemma counted_app pre rest n : 0 <= n <= zlen pre -> Forall child_idx pre -> counted (pre ++ rest) n.
Proof.
  intros Hn Hpre. split; [rewrite zlen_app; pose proof (zlen_nonneg rest); lia|].
  rewrite take_app_le by (unfold zlen in Hn; lia). by apply Forall_take.
Qed.

Lemma merge_children_keeps pre rest rc n st s :
  ordered l false s -> Forall child_idx pre -> 0 <= n <= zlen pre -> in_u32 st ->
  zlen (pre ++ rest) < 2 ^ 32 -> (forall i, i ∈ rest -> 0 <= i /\ i <> p_idx) ->
  (forall i, 0 <= i < SYNX_GLOBAL_MAX_OBJS -> i <> p_idx -> before l i p_idx) ->
  wp (merge_children rest p_idx rc n st)
     (fun out s' => ordered l false s' /\
        match out with inl (_, n) => counted (pre ++ rest) n | inr (n, st) => counted (pre ++ rest) n /\ in_u32 st end) s.
Proof.
  intros Ho Hpre Hn Hst Hlen Hrest Hbefore. revert pre rc n st s Ho Hpre Hn Hst Hlen.
  induction rest as [|i rest IH]; intros pre rc n st s Ho Hpre Hn Hst Hlen; simpl.
  { apply wp_ret. split; [done|]. split; [by apply counted_app|done]. }
  destruct (Hrest i) as [Hi0 Hip]; [left|].
  destruct (synx_is_valid_idx i) eqn:Hv; simpl; [|apply wp_ret; split; [done|by apply counted_app]].
  apply (valid_idx _ Hi0) in Hv. apply wp_bind. unfold merge_child. eapply wp_locked; [done| |].
  2:{ intros s1 Ho1. apply wp_ret. split; [done|by apply counted_app]. }
  intros s1 Ho1. apply wp_bind. eapply wp_get_entry; [done..|]. intros e He Hw.
  apply wp_bind. apply wp_modifyM, wp_ret. split; [apply link_ordered; auto|]. intros s2 Ho2.
  set (n' := if unsettled e then u32 (n + 1) else n).
  assert (0 <= n' <= zlen (pre ++ [i])) as Hn'.
  { rewrite zlen_app in *. change (zlen [i]) with 1. pose proof (zlen_nonneg rest).
    assert (zlen (i :: rest) = 1 + zlen rest) by (unfold zlen; simpl; lia).
    unfold n'. case_match; [|lia]. rewrite u32_id by (unfold in_u32; lia). lia. }
  assert (Forall child_idx (pre ++ [i])) as Hpre'.
  { apply Forall_app. split; [done|]. constructor; [|done]. split; [done|auto]. }
  replace (pre ++ i :: rest) with ((pre ++ [i]) ++ rest) in * by (by rewrite <- app_assoc).
  case_match; simpl; [apply wp_ret; split; [done|by apply counted_app]|].
  apply IH; [|done|done|done|by apply merge_status_u32|done]. intros j Hj. apply Hrest. by right.
Qed.

Lemma keeps_merge_fail n list :
  Forall child_idx (take n list) -> (n <= length list)%nat -> keeps (merge_fail n list p_idx).
Proof.
  induction n as [|n IH]; intros Hc Hn; simpl; [apply preserves_ret|].
  destruct (lookup_lt_is_Some_2 list n) as [i Hi]; [lia|].
  rewrite (take_S_r _ _ i) in Hc by done. apply Forall_app in Hc as [Hc Hi'].
  apply Forall_singleton in Hi' as [Hi' _].
  assert (zget list (Z.of_nat n) = Some i) as Hz.
  { unfold zget. rewrite Nat2Z.id. by destruct (Z.leb_spec 0 (Z.of_nat n)); [|lia]. }
  intros s Ho. apply wp_bind. eapply wp_deref; [done|]. revert s Ho.
  change (keeps (locked (fun _ => tt) (update_entry i (set_parent p_idx 0));;; merge_fail n list p_idx)).
  apply preserves_bind; [|intros; apply IH; [done|lia]].
  apply keeps_locked. intros s Ho. eapply wp_update_entry; [done..|apply tamer_unlink|done].
Qed.

Lemma tamer_composite n st e : in_u32 st -> tamer e (composite_of n st e).
Proof.
  intros Hs. apply (tamer_fields e). intros []. simpl.
  split_and!; [done|case_match; [done|apply u16_range]|apply u16_range|done..].
Qed.
End merging.

(** Merging into an entry without parents that is not among the children. *)
Lemma merge_keeps l idx_list p s :
  ordered l false s -> 0 <= p -> zlen idx_list < 2 ^ 32 -> (forall i, i ∈ idx_list -> 0 <= i /\ i <> p) ->
  (forall e, zget (sy_table s) p = Some e -> forall q, q ∈ sg_parents e -> q = 0) ->
  wp (synx_global_merge idx_list p) (fun _ s' => synx_ok s') s.
Proof.
  intros Ho Hp0 Hlen Hl Hpar. unfold synx_global_merge. eapply wp_on_table; [done|].
  destruct (synx_is_valid_idx p) eqn:Hv; simpl; [|apply wp_ret; by exists l].
  apply (valid_idx _ Hp0) in Hv. case_match; [apply wp_ret; by exists l|].
  destruct (entry_at s p (or_mem _ _ _ Ho) Hv) as [e He].
  assert (forall i, 0 <= i < SYNX_GLOBAL_MAX_OBJS -> i <> p -> before (moved_last l p) i p) as Hb.
  { intros i Hi Hne. apply before_last; [|done].
    rewrite (to_perm _ _ (or_topo _ _ _ Ho)). apply elem_of_seqZ. lia. }
  apply (ordered_moved l p Hv _ _ _ Ho He) in Hpar as Ho'; [|by eauto].
  set (l' := moved_last l p) in *.
  assert (forall rc n s1, ordered l' false s1 -> counted l' p idx_list n ->
    wp (merge_fail (Z.to_nat n) idx_list p;;; ret (rc : Z)) (fun _ s' => synx_ok s') s1) as Hfail.
  { intros rc n s1 Ho1 [Hn Hc]. apply wp_bind. eapply wp_mono.
    - eapply keeps_merge_fail; [exact Hc|unfold zlen in Hn; lia|exact Ho1].
    - intros ? s2 ?. apply wp_ret. by exists l'. }
  apply wp_bind. eapply wp_mono.
  { apply (merge_children_keeps l' p Hv [] idx_list); try done. }
  intros [[rc n]|[n st]] s1 [Ho1 Hc]; [by apply Hfail|]. destruct Hc as [Hc Hst].
  apply wp_bind. eapply wp_locked; [done| |].
  - intros s2 Ho2. apply wp_bind. eapply wp_update_entry; [done..|intros; by apply tamer_composite|].
    intros s3 Ho3. apply wp_ret. split; [done|]. intros s4 Ho4. apply wp_ret. by exists l'.
  - intros s2 Ho2. by apply Hfail.
Qed.

(** ** All operations *)

Inductive synx_op :=
| OpAlloc
| OpInit (h_synx : Z)
| OpGetWaiting (idx : Z) (cores : list bool)
| OpSetWaiting (idx id : Z)
| OpGetSubscribed (idx : Z) (cores : list bool)
| OpSetSubscribed (idx id : Z)
| OpClearSubscribed (idx id : Z)
| OpFetch (idx : Z)
| OpParents (idx : Z)
| OpParentsNum (idx : Z)
| OpStatus (idx : Z)
| OpDump
| OpTestWait (idx id : Z)
| OpShare (h_synx h_hwfence : Z) (is_waiter : bool)
| OpSignal (idx status : Z)
| OpGetRef (idx : Z)
| OpPutRef (idx : Z)
| OpMerge (idx_list : list Z) (p_idx : Z)
| OpRecover (core_id : Z).

Definition run_synx_op (op : synx_op) : SYNX unit :=
  match op with
  | OpAlloc => synx_alloc_global_handle;;; ret tt
  | OpInit h => synx_global_init_coredata h;;; ret tt
  | OpGetWaiting idx cores => synx_global_get_waiting_cores idx cores;;; ret tt
  | OpSetWaiting idx id => synx_global_set_waiting_core idx id;;; ret tt
  | OpGetSubscribed idx cores => synx_global_get_subscribed_cores idx cores;;; ret tt
  | OpSetSubscribed idx id => synx_global_set_subscribed_core idx id;;; ret tt
  | OpClearSubscribed idx id => synx_global_clear_subscribed_core idx id;;; ret tt
  | OpFetch idx => synx_global_fetch_handle_details idx;;; ret tt
  | OpParents idx => synx_global_get_parents idx;;; ret tt
  | OpParentsNum idx => synx_global_get_parents_num idx;;; ret tt
  | OpStatus idx => synx_global_get_status idx;;; ret tt
  | OpDump => synx_global_dump_shared_memory;;; ret tt
  | OpTestWait idx id => synx_global_test_status_set_wait idx id;;; ret tt
  | OpShare h hw w => synx_internal_get_handle_status h hw w;;; ret tt
  | OpSignal idx status => synx_global_update_status idx status;;; ret tt
  | OpGetRef idx => synx_global_get_ref idx;;; ret tt
  | OpPutRef idx => synx_global_put_ref idx
  | OpMerge idx_list p_idx => synx_global_merge idx_list p_idx;;; ret tt
  | OpRecover core => synx_global_recover core;;; ret tt
  end.

(** The arguments are [u32]; a composite object is merged into an entry of its own, not
    in the list, that has no parents yet.  [synx_global_merge] checks neither. *)
Definition op_args (op : synx_op) (s : synx_state) : Prop :=
  match op with
  | OpAlloc | OpDump | OpRecover _ => True
  | OpInit h => in_u32 h
  | OpGetWaiting idx _ | OpGetSubscribed idx _ | OpFetch idx | OpParents idx | OpParentsNum idx
  | OpStatus idx | OpGetRef idx | OpPutRef idx => in_u32 idx
  | OpSetWaiting idx id | OpSetSubscribed idx id | OpClearSubscribed idx id | OpTestWait idx id =>
      in_u32 idx /\ in_u32 id
  | OpShare h hw _ => in_u32 h /\ in_u32 hw
  | OpSignal idx status => in_u32 idx /\ in_u32 status
  | OpMerge idx_list p =>
      in_u32 p /\ zlen idx_list < 2 ^ 32 /\ (forall i, i ∈ idx_list -> in_u32 i /\ i <> p) /\
      (forall e, zget (sy_table s) p = Some e -> forall q, q ∈ sg_parents e -> q = 0)
  end.

Definition is_merge (op : synx_op) : bool := match op with OpMerge _ _ => true | _ => false end.

Section all_operations.
Context (l : list Z).
Abbreviation keeps m := (preserves (ordered l false) m).

(** An operation on entry [idx] by core [id]. *)
Lemma keeps_core_op {A} (null bad : A) idx id m :
  0 <= idx -> 0 <= id ->
  (0 <= idx < SYNX_GLOBAL_MAX_OBJS -> 0 <= id < SYNX_CORE_MAX -> keeps m) ->
  keeps (on_table null (if (SYNX_CORE_MAX <=? id) || negb (synx_is_valid_idx idx) then ret bad else m)).
Proof.
  intros Hi Hid Hm. apply keeps_on_table, keeps_guard. intros [Hc Hv]%orb_false_iff.
  apply Z.leb_gt in Hc. apply negb_false_iff, (valid_idx _ Hi) in Hv. auto with lia.
Qed.

(** An operation that reads entry [idx]. *)
Lemma keeps_read_op {A} (null bad : A) idx m :
  0 <= idx -> (0 <= idx < SYNX_GLOBAL_MAX_OBJS -> keeps m) ->
  keeps (on_table null (if negb (synx_is_valid_idx idx) then ret bad else m)).
Proof.
  intros Hi Hm. apply keeps_on_table, keeps_guard. intros Hv%negb_false_iff.
  apply (valid_idx _ Hi) in Hv. auto.
Qed.

Lemma keeps_waiters idx cores (f : Z -> Z * list bool) :
  0 <= idx < SYNX_GLOBAL_MAX_OBJS ->
  keeps (locked f (c <-- synx_global_get_waiting_cores_locked idx cores; ret (0, c))).
Proof.
  intros Hi. apply keeps_locked. intros s Ho. apply wp_bind.
  destruct (entry_at s idx (or_mem _ _ _ Ho) Hi) as [e He].
  eapply get_waiting_keeps; [done..|]. intros. by apply wp_ret.
Qed.

Lemma keeps_dump_turns n idx read :
  (forall i, idx <= i < idx + Z.of_nat n -> forall s, ordered l true s -> wp (read i) (fun _ s' => ordered l true s') s) ->
  keeps (dump_turns n idx read).
Proof.
  revert idx. induction n as [|n IH]; intros idx Hr; simpl; [apply preserves_ret|].
  apply preserves_bind.
  - apply keeps_locked. intros s Ho. apply wp_bind. eapply wp_mono; [apply Hr; [lia|done]|]. done.
  - intros rc. apply preserves_if; [apply preserves_ret|]. apply IH. intros i Hi. apply Hr. lia.
Qed.

Lemma keeps_dump : keeps synx_global_dump_shared_memory.
Proof.
  apply keeps_on_table, preserves_bind.
  - apply keeps_dump_turns. intros i Hi s Ho. apply wp_bind, wp_get.
    destruct (zget_is_Some (sy_bitmap s) i) as [x Hx].
    { rewrite (mw_bitmap s (or_mem _ _ _ Ho)). revert Hi. vm_compute (SYNX_GLOBAL_MAX_OBJS / 32).
      unfold SHRD_MEM_DUMP_NUM_BMAP_WORDS. lia. }
    apply wp_bind. eapply wp_deref; [done|]. by apply wp_ret.
  - intros rc. apply preserves_if; [apply preserves_ret|]. apply keeps_dump_turns.
    intros i Hi s Ho. apply wp_bind. eapply wp_get_entry; [done| |intros; by apply wp_ret].
    revert Hi. unfold SHRD_MEM_DUMP_NUM_BMAP_WORDS, SYNX_GLOBAL_MAX_OBJS. lia.
Qed.

Lemma keeps_update_coredata idx id hw w :
  0 <= idx -> 0 <= id -> in_u32 hw -> keeps (synx_global_test_status_update_coredata idx id hw w).
Proof.
  intros Hi Hid Hw. apply keeps_core_op; [done..|]. intros Hv Hc. apply keeps_test; [done|].
  intros e. case_match; [right|left; eauto]. do 2 eexists. split; [|done].
  apply (tamer_fields e). intros []. simpl.
  split_and!; [done|apply u16_range|done|by apply u16_lor_core|case_match; [by apply u16_lor_core|done]|done].
Qed.

Lemma synx_global_idx_range h : 0 <= synx_util_global_idx h.
Proof. apply Z.land_nonneg. by right. Qed.

Lemma keeps_share h hw w : in_u32 hw -> keeps (synx_internal_get_handle_status h hw w).
Proof.
  intros Hw. apply keeps_guard. intros _. apply preserves_bind.
  - apply keeps_update_coredata; [apply synx_global_idx_range|done|done].
  - intros r. apply preserves_if; [|apply preserves_ret]. apply preserves_if; apply preserves_ret.
Qed.

Lemma encode_handle_u32 idx : 0 <= idx < SYNX_GLOBAL_MAX_OBJS -> in_u32 (synx_encode_handle idx SYNX_CORE_APSS true).
Proof.
  intros Hi. unfold synx_encode_handle. case_match; [done|]. apply range_lor; [done|apply u32_range|].
  revert Hi. unfold SYNX_GLOBAL_MAX_OBJS. lia.
Qed.

Lemma keeps_alloc_handle : keeps synx_alloc_global_handle.
Proof.
  intros s Ho. unfold synx_alloc_global_handle. apply wp_bind.
  assert (wp synx_global_alloc_index (fun out s' => ordered l false s' /\
    match out.2 with Some i => 0 <= i < SYNX_GLOBAL_MAX_OBJS | None => True end) s) as H.
  { eapply wp_on_table; [done|]. eapply wp_mono; [apply alloc_loop_spec; [done|apply Nat.lt_succ_r, zeros_bound]|].
    intros [rc [i|]] s' (? & _ & _ & Hr); [|done]. split; [done|]. apply Hr. }
  eapply wp_mono; [exact H|]. intros [rc [i|]] s1 [Ho1 Hi]; [|by apply wp_ret].
  apply wp_bind. eapply wp_mono; [apply keeps_init_coredata; [by apply encode_handle_u32|done]|]. done.
Qed.

(** Everything but merging keeps the order. *)
Lemma keeps_synx_op op s :
  is_merge op = false -> ordered l false s -> op_args op s ->
  wp (run_synx_op op) (fun _ s' => ordered l false s') s.
Proof.
  intros Hmerge Ho Hargs. revert s Ho Hargs. destruct op; intros s Ho Hargs; simpl in *; unfold in_u32 in *;
    try (apply (preserves_bind (ordered l false)); [|intros; apply preserves_ret|exact Ho]).
  - apply keeps_alloc_handle.
  - by apply keeps_init_coredata.
  - apply keeps_read_op; [lia|]. apply keeps_waiters.
  - apply keeps_core_op; [lia..|]. intros. apply keeps_update; [done|intros; tame].
  - apply keeps_read_op; [lia|]. intros. apply keeps_test; [done|]. eauto.
  - apply keeps_core_op; [lia..|]. intros. apply keeps_update; [done|intros; tame].
  - apply keeps_core_op; [lia..|]. intros. apply keeps_update; [done|intros; tame].
  - apply keeps_read_op; [lia|]. intros. apply keeps_test; [done|]. eauto.
  - apply keeps_read_op; [lia|]. intros. apply keeps_test; [done|]. eauto.
  - apply keeps_read_op; [lia|]. intros. apply keeps_test; [done|]. eauto.
  - apply keeps_read_op; [lia|]. intros. apply keeps_test; [done|]. eauto.
  - apply keeps_dump.
  - apply keeps_core_op; [lia..|]. intros. apply keeps_test; [done|]. intros e.
    case_match; [right|left; eauto]. do 2 eexists. split; [|done]. tame.
  - apply keeps_share, Hargs.
  - apply keeps_update_status; [lia|apply Hargs].
  - apply keeps_get_ref. lia.
  - apply keeps_put_ref; [lia|done].
  - done.
  - intros s' Ho'. by eapply recover_keeps.
Qed.
End all_operations.

(** * Properties *)

(** C9: From any good state of the shared table every operation - with any [u32]
    arguments, whenever the lock times out, whatever other processors allocate -
    returns, and the table is good again: the fields keep their widths, every parent
    is an index, the parent pointers have no cycle, and the lock is free.  Of a merge the
    caller owes that the composite entry is not in its own list and has no parents yet:
    the code checks neither, and merging an object into itself makes a cycle
    ([SynxCheck.merge_into_itself_cycles]). *)
Theorem synx_ops_keep_ok op s :
  synx_ok s -> op_args op s -> wp (run_synx_op op) (fun _ s' => synx_ok s') s.
Proof.
  intros [l Ho] Hargs. destruct (is_merge op) eqn:Hm.
  - destruct op; try done. simpl in *. destruct Hargs as (Hp & Hlen & Hl & Hpar). unfold in_u32 in *.
    apply wp_bind. eapply wp_mono; [eapply merge_keeps; [done|lia|done| |done]|done].
    intros i Hi. split; [apply (Hl i Hi)|]. by apply Hl.
  - eapply wp_mono; [by eapply keeps_synx_op|]. intros ? s' ?. by exists l.
Qed.
