(* ===== verification/SynxPending.v ===== *)
(** * Composite synx objects

    A composite object counts its unsettled children ([sg_num_child]); the last child
    that is signaled settles it and, through it, its own parents.  This file proves
    that the counts are right: between operations the count of an entry is the
    number of pending slots, the parent slots of unsettled entries that name it.
    While a signal travels up, a slot that has stopped pending but was not yet counted
    down is a debt, and every call of [synx_global_update_status_core] pays one.

    The lock is responsive here: it is never held for longer than the time-out.  What
    still holds otherwise is in [SynxKeeps]; what goes wrong then is in [SynxCheck]. *)

From stdpp Require Import base list list_numbers.
From S2P Require Import Prelude.
From S2P Require Import SynxGlobal.
From S2P Require Import SynxKeeps.
From Stdlib Require Import Lia.
#[local] Open Scope Z_scope.

Definition responsive (s : synx_state) : Prop := forall n, env_lock_busy (sy_env s) n = false.

(** Only the owner field in entry 0, the lock and the clock differ. *)
Record quiet (s s' : synx_state) : Prop := {
  qu_entry : forall i, i <> 0 -> zget (sy_table s') i = zget (sy_table s) i;
  qu_zero : forall e, zget (sy_table s) 0 = Some e ->
    exists sub, zget (sy_table s') 0 = Some (e <| sg_subscribers := sub |>);
  qu_bitmap : sy_bitmap s' = sy_bitmap s;
  qu_events : sy_events s' = sy_events s;
  qu_env : sy_env s' = sy_env s }.

(** ** Pending slots *)

Definition count (p : Z) (l : list Z) : Z := zlen (filter (fun q => q = p) l).

(** The slots of an entry that wait for [p] to be told. *)
Definition slots (p : Z) (e : synx_global_coredata) : Z :=
  if unsettled e then count p (sg_parents e) else 0.

Definition pend (t : list synx_global_coredata) (p : Z) : Z :=
  foldr (fun e n => slots p e + n) 0 t.

(** With the debts [D]. *)
Definition pending_with (D : list Z) (s : synx_state) : Prop :=
  forall p e, p <> 0 -> zget (sy_table s) p = Some e -> sg_num_child e = pend (sy_table s) p + count p D.

Definition pending_ok (s : synx_state) : Prop := pending_with [] s.

(** Entry 0 is no object. *)
Definition idle_zero (s : synx_state) : Prop :=
  forall e, zget (sy_table s) 0 = Some e -> unsettled e = false.

Section pending.
Implicit Types (s : synx_state) (e : synx_global_coredata) (t : list synx_global_coredata).

Lemma count_nonneg p l : 0 <= count p l.
Proof. apply zlen_nonneg. Qed.

Lemma count_app p l1 l2 : count p (l1 ++ l2) = count p l1 + count p l2.
Proof. unfold count. by rewrite filter_app, zlen_app. Qed.

Lemma count_cons p q l : count p (q :: l) = (if decide (q = p) then 1 else 0) + count p l.
Proof.
  unfold count. rewrite filter_cons. case_decide; [|lia]. unfold zlen. simpl. lia.
Qed.

Lemma slots_nonneg p e : 0 <= slots p e.
Proof. unfold slots. case_match; [apply count_nonneg|lia]. Qed.

Lemma pend_nonneg p t : 0 <= pend t p.
Proof. induction t as [|e t IH]; simpl; [lia|]. pose proof (slots_nonneg p e). lia. Qed.

Lemma pend_insert t i e e' p :
  t !! i = Some e -> pend (<[i := e']> t) p = pend t p - slots p e + slots p e'.
Proof.
  revert i. induction t as [|f t IH]; intros [|i] Hi; simplify_eq/=; [lia|]. rewrite (IH i Hi). lia.
Qed.

Lemma pend_set t i e e' p :
  zget t i = Some e -> pend (zset i e' t) p = pend t p - slots p e + slots p e'.
Proof. unfold zget, zset. case_match; [|done]. apply pend_insert. Qed.

Lemma pend_ge t i e p : zget t i = Some e -> slots p e <= pend t p.
Proof.
  intros He. pose proof (pend_nonneg p (zset i zero_coredata t)) as H.
  rewrite (pend_set _ _ _ _ _ He) in H. change (slots p zero_coredata) with 0 in H. lia.
Qed.

Lemma quiet_refl s : quiet s s.
Proof. split; try done. intros e He. exists (sg_subscribers e). by destruct e. Qed.

Lemma quiet_trans s1 s2 s3 : quiet s1 s2 -> quiet s2 s3 -> quiet s1 s3.
Proof.
  intros [He1 H01 Hb1 Hv1 Hn1] [He2 H02 Hb2 Hv2 Hn2]. split; try congruence.
  - intros i Hi. by rewrite He2, He1.
  - intros e He. destruct (H01 e He) as [sub Hs]. destruct (H02 _ Hs) as [sub' Hs']. by exists sub'.
Qed.

Lemma list_zget_ext {A} (l1 l2 : list A) : (forall i, zget l1 i = zget l2 i) -> l1 = l2.
Proof.
  intros H. apply list_eq. intros i. specialize (H (Z.of_nat i)). unfold zget in H.
  rewrite Nat2Z.id in H. by destruct (Z.leb_spec 0 (Z.of_nat i)); [|lia].
Qed.

Lemma quiet_table s s' e :
  quiet s s' -> zget (sy_table s) 0 = Some e ->
  exists sub, sy_table s' = zset 0 (e <| sg_subscribers := sub |>) (sy_table s).
Proof.
  intros Hq He. destruct (qu_zero _ _ Hq e He) as [sub Hs]. exists sub.
  pose proof (zget_Some _ _ _ He). apply list_zget_ext. intros i. rewrite zget_zset. case_decide as Hd.
  - destruct Hd as [<- _]. done.
  - apply (qu_entry _ _ Hq). lia.
Qed.
End pending.

(** ** The lock, exactly *)

Section quietly.
Context (l : list Z).
Implicit Types (s : synx_state).

Lemma zero_entry b s : ordered l b s -> exists e, zget (sy_table s) 0 = Some e.
Proof. intros Ho. apply entry_at; [apply Ho|done]. Qed.

Lemma quiet_pend b s s' p : ordered l b s -> quiet s s' -> pend (sy_table s') p = pend (sy_table s) p.
Proof.
  intros Ho Hq. destruct (zero_entry b s Ho) as [e He].
  destruct (quiet_table s s' e Hq He) as [sub ->]. rewrite (pend_set _ _ e) by done.
  change (slots p (e <| sg_subscribers := sub |>)) with (slots p e). lia.
Qed.

Lemma quiet_pending b s s' D : ordered l b s -> quiet s s' -> pending_with D s -> pending_with D s'.
Proof.
  intros Ho Hq HD p e Hp He. rewrite (quiet_pend b s s') by done.
  rewrite (qu_entry _ _ Hq p Hp) in He. by apply HD.
Qed.

Lemma get_entry_run s i e : zget (sy_table s) i = Some e -> get_entry i s = Done e s.
Proof. intros He. unfold get_entry. rewrite (bind_run get _ s s s) by done. by rewrite He. Qed.

Lemma update_entry_run s i e f :
  zget (sy_table s) i = Some e -> update_entry i f s = Done tt (s <| sy_table ::= zset i (f e) |>).
Proof. intros He. unfold update_entry. by rewrite (bind_run _ _ _ _ _ (get_entry_run s i e He)). Qed.

Lemma quiet_owner s e sub :
  zget (sy_table s) 0 = Some e -> quiet s (s <| sy_table ::= zset 0 (e <| sg_subscribers := sub |>) |>).
Proof.
  intros He. pose proof (zget_Some _ _ _ He). split; try done; simpl.
  - intros i Hi. by apply zget_zset_ne.
  - intros e' He'. rewrite zget_zset_eq by done. exists sub. by rewrite He in He'; injection He' as <-.
Qed.

Lemma quiet_same s s' :
  sy_table s' = sy_table s -> sy_bitmap s' = sy_bitmap s -> sy_events s' = sy_events s ->
  sy_env s' = sy_env s -> quiet s s'.
Proof.
  intros Ht Hb He Hn. split; try done; rewrite Ht; [done|].
  intros e H0. exists (sg_subscribers e). by destruct e.
Qed.

(** A critical section changes nothing but what its body does; the lock may time out. *)
Lemma wp_locked_frame {A} s (f : Z -> A) (body : SYNX A) (Q : A -> synx_state -> Prop) :
  ordered l false s ->
  (env_lock_busy (sy_env s) (sy_tick s) = true ->
     forall s', ordered l false s' -> quiet s s' -> Q (f (- ETIMEDOUT)) s') ->
  (forall s1, ordered l true s1 -> quiet s s1 ->
     wp body (fun a s2 => ordered l true s2 /\ forall s3, ordered l false s3 -> quiet s2 s3 -> Q a s3) s1) ->
  wp (locked f body) Q s.
Proof.
  intros Ho Hbusy Hbody. unfold locked. apply wp_bind. unfold wp. rewrite gmem_lock_free by apply Ho.
  destruct (env_lock_busy _ _); [by apply Hbusy; [|apply ordered_tick|apply quiet_same]|]. set (s0 := _ <| sy_hwlock := Some true |>).
  assert (ordered l true s0) as Ho0 by (eapply ordered_lock, ordered_tick, Ho).
  destruct (zero_entry false s Ho) as [e0 He0].
  unfold synx_gmem_lock_owner_set. rewrite (bind_run _ _ _ _ _ (update_entry_run s0 0 e0 _ He0)).
  unfold ret at 1. cbn [Z.eqb negb].
  match goal with |- match bind _ _ ?x with _ => _ end => set (s1 := x) end.
  change (wp (a <-- body; synx_gmem_unlock;;; ret a) Q s1). apply wp_bind.
  eapply wp_mono; [apply (Hbody s1)|].
  - eapply set_entry_ordered; [done..|tame].
  - eapply quiet_trans; [|apply (quiet_owner s0 e0 SYNX_CORE_APSS He0)]. by apply quiet_same.
  - intros a s2 [Ho2 HQ]. destruct (zero_entry true s2 Ho2) as [e2 He2].
    unfold synx_gmem_unlock, synx_gmem_lock_owner_clear. apply wp_bind, wp_bind.
    eapply wp_done; [by apply update_entry_run|]. apply wp_modifyM. apply HQ.
    + eapply ordered_lock, set_entry_ordered; [done..|tame].
    + eapply quiet_trans; [by apply (quiet_owner s2 e2 SYNX_CORE_MAX)|]. by apply quiet_same.
Qed.

(** Behind a responsive lock it is entered. *)
Lemma wp_locked_quiet {A} s (f : Z -> A) (body : SYNX A) (Q : A -> synx_state -> Prop) :
  ordered l false s -> responsive s ->
  (forall s1, ordered l true s1 -> quiet s s1 ->
     wp body (fun a s2 => ordered l true s2 /\ forall s3, ordered l false s3 -> quiet s2 s3 -> Q a s3) s1) ->
  wp (locked f body) Q s.
Proof. intros Ho Hr Hbody. apply wp_locked_frame; [done|by rewrite Hr|done]. Qed.

Lemma quiet_idle b s s' : ordered l b s -> quiet s s' -> idle_zero s -> idle_zero s'.
Proof.
  intros Ho Hq Hz e' He'. destruct (zero_entry b s Ho) as [e He].
  destruct (qu_zero _ _ Hq e He) as [sub Hs]. replace e' with (e <| sg_subscribers := sub |>) by congruence.
  exact (Hz e He).
Qed.

Lemma quiet_responsive s s' : quiet s s' -> responsive s -> responsive s'.
Proof. intros Hq Hr n. rewrite (qu_env _ _ Hq). apply Hr. Qed.
End quietly.

(** ** What a signal does to entries *)

(** The critical section of [synx_global_update_status_core], as a function. *)
Definition signaled_entry (status : Z) (e : synx_global_coredata)
  : synx_global_coredata * signal_outcome :=
  if negb (sg_num_child e =? 0) then
    let e1 := child_notified status e in
    if sg_num_child e1 =? 0 then
      let e2 := e1 <| sg_waiters := 0 |> <| sg_refcount ::= fun r => u16 (r - 1) |> in
      (if sg_refcount e2 =? 0 then zero_coredata else e2,
       (entry_data e1, sg_refcount e2 =? 0, mark_cores (sg_waiters e1) no_cores, sg_parents e1))
    else (e1, (0, false, no_cores, no_parents))
  else
    let e1 := e <| sg_status := status |> in
    (e1 <| sg_waiters := 0 |>, (entry_data e1, false, mark_cores (sg_waiters e1) no_cores, sg_parents e1)).

(** The message a waiting core gets when the object with handle [h] ends with [st]. *)
Definition wake_message (k h st : Z) : synx_event :=
  EvMsgSend (synx_global_map_core_id k) (Z.lor (u64 (Z.shiftl h 32)) st).

(** The cores that a signal with [status] is sent to: this one only after a restart. *)
Definition hears (status k : Z) (e : synx_global_coredata) : Prop :=
  0 <= k < SYNX_CORE_MAX /\ Z.testbit (sg_waiters e) k = true /\
  (k <> SYNX_CORE_APSS \/ status = SYNX_STATE_SIGNALED_SSR).

(** The status after a signal with [status]: a composite object keeps the status it has
    unless it has none yet or [status] is an error. *)
Definition next_status (status : Z) (e : synx_global_coredata) : Z :=
  if (sg_num_child e =? 0) || (sg_status e =? SYNX_STATE_ACTIVE) || is_error_status status
  then status else sg_status e.

(** An entry while signals with [status] travel: left alone, counted down, or
    settled with its waiting cores told. *)
Inductive entry_step (status : Z) (evs : list synx_event) (e : synx_global_coredata)
  : synx_global_coredata -> Prop :=
| step_same : entry_step status evs e e
| step_count n st :
    0 < n < sg_num_child e -> st = next_status status e ->
    entry_step status evs e (e <| sg_num_child := n |> <| sg_status := st |>)
| step_settle st e' :
    unsettled e = true -> st = next_status status e -> st <> SYNX_STATE_ACTIVE ->
    (sg_handle e <> 0 -> forall k, hears status k e -> wake_message k (sg_handle e) st ∈ evs) ->
    e' = zero_coredata \/
    (exists rc, e' = e <| sg_num_child := 0 |> <| sg_status := st |> <| sg_waiters := 0 |>
                       <| sg_refcount := rc |>) ->
    entry_step status evs e e'.

Record spreads (status : Z) (s s' : synx_state) : Prop := {
  ev_entry : forall i e e', i <> 0 -> zget (sy_table s) i = Some e -> zget (sy_table s') i = Some e' ->
    entry_step status (sy_events s') e e';
  ev_events : exists evs, sy_events s' = sy_events s ++ evs;
  ev_env : sy_env s' = sy_env s;
  ev_zero : idle_zero s -> idle_zero s' }.

Section signals.
Context (l : list Z) (status : Z).
Implicit Types (s : synx_state) (e : synx_global_coredata).

Lemma signal_entry_run s idx e :
  zget (sy_table s) idx = Some e ->
  signal_entry idx status s =
    Done (signaled_entry status e).2 (s <| sy_table ::= zset idx (signaled_entry status e).1 |>).
Proof.
  intros He. pose proof (zget_Some _ _ _ He) as Hr. unfold signal_entry, signaled_entry.
  rewrite (bind_run _ _ _ _ _ (get_entry_run s idx e He)).
  assert (forall e1, zget (sy_table (s <| sy_table ::= zset idx e1 |>)) idx = Some e1) as Hz.
  { intros e1. by apply zget_zset_eq. }
  assert (forall e1 e2, s <| sy_table ::= zset idx e1 |> <| sy_table ::= zset idx e2 |> =
                        s <| sy_table ::= zset idx e2 |>) as Hzz.
  { intros e1 e2. unfold modify. simpl. by rewrite zset_zset. }
  assert (forall e1 c, synx_global_get_waiting_cores_locked idx c (s <| sy_table ::= zset idx e1 |>) =
     Done (mark_cores (sg_waiters e1) c) (s <| sy_table ::= zset idx (e1 <| sg_waiters := 0 |>) |>)) as Hw.
  { intros e1 c. unfold synx_global_get_waiting_cores_locked.
    rewrite (bind_run _ _ _ _ _ (get_entry_run _ _ _ (Hz e1))).
    unfold set_entry. rewrite (bind_run _ _ _ tt (s <| sy_table ::= zset idx (e1 <| sg_waiters := 0 |>) |>)); [done|].
    unfold modifyM. by rewrite Hzz. }
  destruct (negb (sg_num_child e =? 0)).
  - set (e1 := child_notified status e).
    rewrite (bind_run (set_entry idx e1) _ _ tt (s <| sy_table ::= zset idx e1 |>)) by done.
    destruct (sg_num_child e1 =? 0); [|done].
    rewrite (bind_run _ _ _ _ _ (Hw e1 no_cores)).
    rewrite (bind_run _ _ _ _ _ (update_entry_run _ _ _ _ (Hz _))), Hzz.
    rewrite (bind_run _ _ _ _ _ (get_entry_run _ _ _ (Hz _))).
    match goal with |- context [sg_refcount ?x =? 0] => set (e2 := x) end.
    destruct (sg_refcount e2 =? 0) eqn:E; cbn [fst snd].
    + unfold set_entry. rewrite (bind_run _ _ _ tt (s <| sy_table ::= zset idx zero_coredata |>)); [done|].
      unfold modifyM. by rewrite Hzz.
    + done.
  - set (e1 := e <| sg_status := status |>).
    rewrite (bind_run (set_entry idx e1) _ _ tt (s <| sy_table ::= zset idx e1 |>)) by done.
    by rewrite (bind_run _ _ _ _ _ (Hw e1 no_cores)).
Qed.

Lemma send_from_run i cores data s :
  exists evs, send_from i cores data s = Done tt (s <| sy_events ::= fun l => l ++ evs |>) /\
    forall k, i <= k -> zget cores (k - i) = Some true ->
      EvMsgSend (synx_global_map_core_id k) data ∈ evs.
Proof.
  revert i s. induction cores as [|c cores IH]; intros i s.
  - exists []. split; [unfold modify, eta_synx; simpl; rewrite app_nil_r; by destruct s|].
    intros k _. unfold zget. by case_match.
  - simpl. destruct c.
    + destruct (IH (i + 1) (s <| sy_events ::= fun l => l ++ [EvMsgSend (synx_global_map_core_id i) data] |>))
        as (evs & Hrun & Hin).
      exists (EvMsgSend (synx_global_map_core_id i) data :: evs). split.
      * rewrite (bind_run _ _ s tt (s <| sy_events ::= fun l => l ++ [EvMsgSend (synx_global_map_core_id i) data] |>)) by done.
        rewrite Hrun. unfold modify, eta_synx. simpl. by rewrite <- app_assoc.
      * intros k Hk Hg. destruct (decide (k = i)) as [->|]; [left|]. right. apply Hin; [lia|].
        replace (k - i) with (k - (i + 1) + 1) in Hg by lia. by rewrite zget_cons in Hg by lia.
    + destruct (IH (i + 1) s) as (evs & Hrun & Hin). exists evs. split.
      * by rewrite (bind_run _ _ s tt s).
      * intros k Hk Hg. destruct (decide (k = i)) as [->|]; [by rewrite Z.sub_diag in Hg|]. apply Hin; [lia|].
        replace (k - i) with (k - (i + 1) + 1) in Hg by lia. by rewrite zget_cons in Hg by lia.
Qed.

Lemma mark_cores_at w k : 0 <= k < SYNX_CORE_MAX ->
  zget (mark_cores w no_cores) k = Some (Z.testbit w k).
Proof.
  intros Hk. rewrite <- flag_BIT by lia. revert Hk. unfold SYNX_CORE_MAX. intros Hk.
  assert (k = 0 \/ k = 1 \/ k = 2 \/ k = 3 \/ k = 4 \/ k = 5) as Hc by lia.
  by destruct Hc as [->|[->|[->|[->|[->| ->]]]]].
Qed.

(** Every waiting core that is to hear of it gets the message. *)
Lemma notify_cores_run data e s :
  exists evs, notify_cores status data (mark_cores (sg_waiters e) no_cores) s =
                Done tt (s <| sy_events ::= fun l => l ++ evs |>) /\
    (data <> 0 -> forall k, hears status k e -> EvMsgSend (synx_global_map_core_id k) data ∈ evs).
Proof.
  assert (s <| sy_events ::= fun l => l ++ [] |> = s) as Hs.
  { unfold modify, eta_synx. simpl. rewrite app_nil_r. by destruct s. }
  unfold notify_cores. destruct (Z.eqb_spec data 0) as [->|Hd].
  { exists []. rewrite Hs. done. }
  destruct (Z.eqb_spec status SYNX_STATE_SIGNALED_SSR) as [E|E].
  - destruct (send_from_run 0 (mark_cores (sg_waiters e) no_cores) data s) as (evs & Hrun & Hin).
    exists evs. split; [done|]. intros _ k (Hk & Hb & _). apply Hin; [lia|].
    by rewrite Z.sub_0_r, mark_cores_at, Hb.
  - destruct (send_from_run 1 (drop 1 (mark_cores (sg_waiters e) no_cores)) data s) as (evs & Hrun & Hin).
    exists evs. split; [done|]. intros _ k (Hk & Hb & [H0|]); [|done]. unfold SYNX_CORE_APSS in H0.
    apply Hin; [lia|]. rewrite <- Hb, <- mark_cores_at by done. unfold zget.
    destruct (Z.leb_spec 0 (k - 1)), (Z.leb_spec 0 k); try lia.
    rewrite lookup_drop. f_equal. lia.
Qed.
End signals.

(** ** Debts are paid *)

(** What a call for [idx] is given: an unsettled object, and, unless it is a plain
    one, a debt to it. *)
Definition owed (idx : Z) (D0 D : list Z) (s : synx_state) : Prop :=
  forall e, zget (sy_table s) idx = Some e ->
    unsettled e = true /\ D0 = if sg_num_child e =? 0 then D else idx :: D.

Section paying.
Context (l : list Z) (status : Z) (Hst : in_u32 status) (Hst1 : SYNX_STATE_ACTIVE < status).
Implicit Types (s : synx_state) (e : synx_global_coredata).

Lemma count_no_parents p : p <> 0 -> count p no_parents = 0.
Proof. intros Hp. unfold no_parents. rewrite !count_cons. rewrite decide_False by done. done. Qed.

Lemma notified_num e : coredata_wf e -> sg_num_child e <> 0 ->
  sg_num_child (child_notified status e) = sg_num_child e - 1.
Proof. intros [] Hn. unfold in_u16 in *. apply u16_small. lia. Qed.

Lemma notified_status e : sg_status (child_notified status e) <> SYNX_STATE_ACTIVE.
Proof.
  simpl. destruct (Z.eqb_spec (sg_status e) SYNX_STATE_ACTIVE); simpl; [lia|]. case_match; [lia|done].
Qed.

Lemma notified_next e : sg_num_child e <> 0 -> sg_status (child_notified status e) = next_status status e.
Proof. intros Hn. unfold next_status. by destruct (Z.eqb_spec (sg_num_child e) 0). Qed.

(** One signal counts once for the status, however often it arrives. *)
Lemma next_status_again e n :
  0 < sg_num_child e -> n <> 0 ->
  next_status status (e <| sg_num_child := n |> <| sg_status := next_status status e |>) = next_status status e.
Proof.
  intros Hn Hn'. unfold next_status. simpl. destruct (Z.eqb_spec n 0), (Z.eqb_spec (sg_num_child e) 0); try lia. simpl.
  destruct (sg_status e =? SYNX_STATE_ACTIVE) eqn:E, (is_error_status status); simpl; try done.
  - by rewrite orb_true_r.
  - by destruct (status =? _).
  - by rewrite orb_true_r.
  - by rewrite E.
Qed.

Lemma settled_slots e p :
  sg_status e <> SYNX_STATE_ACTIVE -> sg_num_child e = 0 -> slots p e = 0.
Proof.
  intros H1 H2. unfold slots, unsettled. rewrite H2. by destruct (Z.eqb_spec (sg_status e) SYNX_STATE_ACTIVE).
Qed.

Lemma unsettled_slots e p : unsettled e = true -> slots p e = count p (sg_parents e).
Proof. unfold slots. by intros ->. Qed.

Lemma counting_unsettled e : sg_num_child e <> 0 -> unsettled e = true.
Proof.
  intros Hn. unfold unsettled. destruct (Z.eqb_spec (sg_num_child e) 0); [done|apply orb_true_r].
Qed.

(** The books still balance: what the entry no longer waits for is owed instead. *)
Lemma signaled_balance idx D0 D s e :
  pending_with D0 s -> owed idx D0 D s -> zget (sy_table s) idx = Some e -> coredata_wf e ->
  pending_with ((signaled_entry status e).2.2 ++ D)
    (s <| sy_table ::= zset idx (signaled_entry status e).1 |>).
Proof.
  intros HD Howed He Hw p ep Hp Hep. destruct (Howed e He) as [Hu HD0].
  pose proof (zget_Some _ _ _ He) as Hr. simpl in *. rewrite (pend_set _ _ e) by done.
  rewrite count_app, (unsettled_slots e p Hu).
  assert (sg_num_child ep = pend (sy_table s) p + count p D0 +
     (if decide (p = idx) then sg_num_child (signaled_entry status e).1 - sg_num_child e else 0)) as ->.
  { rewrite zget_zset in Hep. case_decide as Hd.
    - destruct Hd as [<- _]. rewrite decide_True by done. injection Hep as <-. rewrite <- (HD idx e) by done. lia.
    - rewrite (HD p ep) by done. case_decide; [subst; by destruct Hd|lia]. }
  clear Hep. unfold signaled_entry. destruct (Z.eqb_spec (sg_num_child e) 0) as [E0|E0]; cbn [negb].
  - cbn [fst snd]. rewrite settled_slots; [|simpl; lia|done]. subst D0. simpl. case_decide; lia.
  - subst D0. rewrite count_cons. pose proof (notified_num e Hw E0) as Hn.
    destruct (Z.eqb_spec (sg_num_child (child_notified status e)) 0) as [E1|E1]; cbn [fst snd].
    + set (e2 := child_notified status e <| sg_waiters := 0 |> <| sg_refcount ::= fun r => u16 (r - 1) |>).
      assert (forall e3, e3 = (if sg_refcount e2 =? 0 then zero_coredata else e2) ->
        slots p e3 = 0 /\ sg_num_child e3 = 0) as H3.
      { intros e3 ->. case_match; [done|]. split; [|done].
        apply settled_slots; [apply (notified_status e)|done]. }
      match goal with |- context [slots p ?x] => destruct (H3 x eq_refl) as [-> ->] end. simpl. repeat case_decide; lia.
    + rewrite count_no_parents by done. rewrite unsettled_slots by by apply counting_unsettled.
      rewrite Hn. simpl. repeat case_decide; lia.
Qed.

Lemma data_nonzero h st : in_u32 h -> h <> 0 -> Z.lor (u64 (Z.shiftl h 32)) st <> 0.
Proof.
  intros Hh H0 [H _]%Z.lor_eq_0_iff. unfold in_u32 in Hh. rewrite Z.shiftl_mul_pow2 in H by lia.
  rewrite u64_id in H; unfold in_u64; lia.
Qed.

Lemma signaled_step e evs :
  coredata_wf e -> unsettled e = true ->
  (let '(data, _, _, _) := (signaled_entry status e).2 in
   data <> 0 -> forall k, hears status k e -> EvMsgSend (synx_global_map_core_id k) data ∈ evs) ->
  entry_step status evs e (signaled_entry status e).1.
Proof.
  intros Hw Hu Hev. unfold signaled_entry in *. destruct (Z.eqb_spec (sg_num_child e) 0) as [E0|E0]; cbn [negb] in *.
  - cbn [fst snd] in *. apply (step_settle _ _ _ status); [done| |lia| |].
    + unfold next_status. by rewrite E0.
    + intros Hh k Hk. exact (Hev (data_nonzero _ _ (ew_handle _ Hw) Hh) k Hk).
    + right. exists (sg_refcount e). destruct e; simpl in *. by subst.
  - pose proof (notified_num e Hw E0) as Hn.
    destruct (Z.eqb_spec (sg_num_child (child_notified status e)) 0) as [E1|E1]; cbn [fst snd] in *.
    + apply (step_settle _ _ _ (sg_status (child_notified status e))); [done|by apply notified_next|apply notified_status| |].
      * intros Hh k Hk. exact (Hev (data_nonzero _ _ (ew_handle _ Hw) Hh) k Hk).
      * case_match; [by left|right]. eexists. unfold modify, eta_coredata. simpl in *. by rewrite E1.
    + replace (child_notified status e) with
        (e <| sg_num_child := sg_num_child (child_notified status e) |>
           <| sg_status := sg_status (child_notified status e) |>) by by destruct e.
      apply step_count; [|by apply notified_next]. rewrite Hn in *. destruct Hw. unfold in_u16 in *. lia.
Qed.

Lemma unsettled_zero : unsettled zero_coredata = false.
Proof. done. Qed.

Lemma step_from_settled evs e e' : entry_step status evs e e' -> unsettled e = false -> e' = e.
Proof.
  intros [|n st Hn _|st e2 Hu]; try done; try congruence. intros Hs.
  rewrite counting_unsettled in Hs by lia. done.
Qed.

Lemma settled_after e e' st rc :
  e' = zero_coredata \/ e' = e <| sg_num_child := 0 |> <| sg_status := st |> <| sg_waiters := 0 |> <| sg_refcount := rc |> ->
  st <> SYNX_STATE_ACTIVE -> unsettled e' = false.
Proof.
  intros [->| ->] Hs; [done|]. unfold unsettled. simpl. by destruct (Z.eqb_spec st SYNX_STATE_ACTIVE).
Qed.

Lemma step_trans evs evs' e1 e2 e3 :
  entry_step status evs e1 e2 -> (forall ev, ev ∈ evs -> ev ∈ evs') -> entry_step status evs' e2 e3 ->
  entry_step status evs' e1 e3.
Proof.
  intros H1 Hevs H2. destruct H1 as [|n st Hn Hnx|st e2 Hu Hnx Hs Hm He2]; [done| |].
  - assert (forall st', st' = next_status status (e1 <| sg_num_child := n |> <| sg_status := st |>) ->
      st' = next_status status e1) as Hagain.
    { intros st' ->. rewrite Hnx. apply next_status_again; lia. }
    inversion H2 as [|n' st' Hn' Hnx'|st' e' Hu' Hnx' Hs' Hm' He'].
    + by apply step_count.
    + apply (step_count _ _ e1 n' st'); [simpl in *; lia|by apply Hagain].
    + apply (step_settle _ _ _ st'); [|by apply Hagain|done|done|].
      * apply counting_unsettled. lia.
      * destruct He' as [->|[rc ->]]; [by left|]. right. by exists rc.
  - assert (e3 = e2) as ->.
    { apply (step_from_settled evs'); [done|]. destruct He2 as [->|[rc ->]]; [done|].
      by apply (settled_after e1 _ st rc); [right|]. }
    apply (step_settle _ _ _ st); [done|done|done| |done]. intros Hh k Hk. by apply Hevs, Hm.
Qed.

Lemma spreads_trans s1 s2 s3 :
  zlen (sy_table s1) = zlen (sy_table s2) -> spreads status s1 s2 -> spreads status s2 s3 -> spreads status s1 s3.
Proof.
  intros Hlen [He1 [v1 Hv1] Hn1 Hz1] [He2 [v2 Hv2] Hn2 Hz2].
  split; [|exists (v1 ++ v2); by rewrite Hv2, Hv1, app_assoc|congruence|by auto].
  intros i e1 e3 Hi H1 H3. destruct (zget_is_Some (sy_table s2) i) as [e2 H2].
  { rewrite <- Hlen. by eapply zget_Some. }
  eapply step_trans; [by eapply He1| |by eapply He2]. intros ev. rewrite Hv2. intros. apply elem_of_app. by left.
Qed.

Lemma spreads_same s s' :
  (forall i, i <> 0 -> zget (sy_table s') i = zget (sy_table s) i) ->
  (exists evs, sy_events s' = sy_events s ++ evs) -> sy_env s' = sy_env s ->
  (idle_zero s -> idle_zero s') -> spreads status s s'.
Proof.
  intros Ht Hev Hn Hz. split; [|done..]. intros i e e' Hi He He'. rewrite Ht in He' by done.
  replace e' with e by congruence. apply step_same.
Qed.

Lemma spreads_refl s : spreads status s s.
Proof. apply spreads_same; [done|exists []; by rewrite app_nil_r|done..]. Qed.
End paying.

(** What signaling an object and its parents gives: only composite objects change,
    but for [x] itself. *)
Definition plain_kept (x : Z) (s s' : synx_state) : Prop :=
  forall j e, j <> 0 -> j <> x -> zget (sy_table s) j = Some e -> sg_num_child e = 0 ->
    zget (sy_table s') j = Some e.

Record paid (l : list Z) (status x : Z) (D : list Z) (s s' : synx_state) : Prop := {
  pd_ordered : ordered l false s';
  pd_pending : pending_with D s';
  pd_spreads : spreads status s s';
  pd_plain : plain_kept x s s' }.

Section travelling.
Context (l : list Z) (status : Z) (Hst : in_u32 status) (Hst1 : SYNX_STATE_ACTIVE < status).
Implicit Types (s : synx_state) (e : synx_global_coredata).

Lemma ordered_zlen b s : ordered l b s -> zlen (sy_table s) = SYNX_GLOBAL_MAX_OBJS.
Proof. intros Ho. apply Ho. Qed.

Lemma paid_trans s1 s2 s3 x D1 D2 : ordered l false s1 ->
  paid l status x D1 s1 s2 -> paid l status 0 D2 s2 s3 -> paid l status x D2 s1 s3.
Proof.
  intros Ho1 [Ho2 _ H12 Hk1] [Ho3 HD H23 Hk2]. split; [done|done| |].
  - apply (spreads_trans status s1 s2 s3); [by rewrite (ordered_zlen _ _ Ho1), (ordered_zlen _ _ Ho2)|done..].
  - intros j e Hj Hx He Hn. apply Hk2; [done..| |done]. by apply Hk1.
Qed.

Lemma spreads_responsive s s' : spreads status s s' -> responsive s -> responsive s'.
Proof. intros [_ _ Hn _] Hr n. rewrite Hn. apply Hr. Qed.

Lemma owed_parent p D s b :
  ordered l b s -> 0 <= p < SYNX_GLOBAL_MAX_OBJS -> p <> 0 -> pending_with (p :: D) s -> owed p (p :: D) D s.
Proof.
  intros Ho Hp Hp0 HD e He. pose proof (HD p e Hp0 He) as Hn. rewrite count_cons, decide_True in Hn by done.
  pose proof (pend_nonneg p (sy_table s)). pose proof (count_nonneg p D).
  split; [apply counting_unsettled; lia|]. by destruct (Z.eqb_spec (sg_num_child e) 0); [lia|].
Qed.

(** A list of parents is paid one by one. *)
Lemma notify_parents_paid (signal : Z -> SYNX Z) parents D s :
  Forall (fun p => p <> 0 -> forall D s, ordered l false s -> responsive s -> pending_with (p :: D) s ->
     wp (signal p) (fun _ s' => paid l status 0 D s s') s) parents ->
  ordered l false s -> responsive s -> pending_with (parents ++ D) s ->
  wp (notify_parents signal parents) (fun _ s' => paid l status 0 D s s') s.
Proof.
  intros Hall. revert s. induction Hall as [|p parents Hp _ IH]; intros s Ho Hr HD; simpl in *.
  { apply wp_ret. split; [done..|by apply spreads_refl|by intros ?]. }
  apply wp_bind. destruct (Z.eqb_spec p 0) as [->|Hp0].
  - apply wp_ret, IH; [done..|]. intros q e Hq He. rewrite (HD q e Hq He), count_cons.
    by rewrite decide_False by congruence.
  - apply wp_bind. eapply wp_mono; [by apply (Hp Hp0)|]. intros ? s1 Hpaid. apply wp_ret.
    eapply wp_mono; [apply IH|].
    + apply Hpaid.
    + eapply spreads_responsive; [apply Hpaid|done].
    + apply Hpaid.
    + intros ? s2 Hpaid2. by apply (paid_trans s s1 s2 0 (parents ++ D) D).
Qed.

Lemma clear_index_run b s idx :
  ordered l b s -> 0 <= idx < SYNX_GLOBAL_MAX_OBJS ->
  exists bm, clear_index idx s = Done tt (s <| sy_bitmap := bm |>) /\ ordered l b (s <| sy_bitmap := bm |>) /\
    bitmap_bit bm idx = false /\ forall i, 0 <= i -> i <> idx -> bitmap_bit bm i = bitmap_bit (sy_bitmap s) i.
Proof.
  intros Ho Hi. pose proof (idx_word idx Hi) as Hw. destruct (ordered_bitmap_wf _ _ _ Ho) as [Hl Hu].
  destruct (zget_is_Some (sy_bitmap s) (idx / 32)) as [x Hx]; [lia|].
  pose proof (Z.mod_pos_bound idx 32).
  exists (zset (idx / 32) (clear x (BIT (idx mod 32))) (sy_bitmap s)). split_and!.
  - unfold clear_index, ipclite_global_test_and_clear_bit.
    erewrite bind_run; [reflexivity|]. rewrite (bind_run get _ s s s) by done. by rewrite Hx.
  - apply ordered_bitmap; [done|]. split; [by rewrite zlen_zset|]. intros w y Hy. rewrite zget_zset in Hy.
    case_decide; [|by eapply Hu]. injection Hy as <-. apply range_clear; [done|]. by eapply Hu.
  - unfold bitmap_bit, clear. rewrite zget_zset_eq by lia. rewrite Z.ldiff_spec, testbit_BIT by lia.
    rewrite bool_decide_true by done. apply andb_false_r.
  - intros i Hi0 Hne. unfold bitmap_bit. rewrite zget_zset. case_decide as Hd; [|done].
    destruct Hd as [Hd _]. rewrite <- Hd, Hx. unfold clear. rewrite Z.ldiff_spec, testbit_BIT by lia.
    rewrite bool_decide_false; [apply andb_true_r|].
    pose proof (Z.div_mod i 32). pose proof (Z.div_mod idx 32). lia.
Qed.

(** Behind the critical section: the index is given back and the waiting cores are told. *)
Lemma announce_run s idx (cleared : bool) data cores e :
  ordered l false s -> 0 <= idx < SYNX_GLOBAL_MAX_OBJS ->
  (cores = mark_cores (sg_waiters e) no_cores \/ data = 0) ->
  exists (s1 s2 : synx_state) (evs : list synx_event), (when cleared do clear_index idx) s = Done tt s1 /\
    notify_cores status data cores s1 = Done tt s2 /\ ordered l false s2 /\
    sy_table s2 = sy_table s /\ sy_env s2 = sy_env s /\ sy_events s2 = sy_events s ++ evs /\
    (data <> 0 -> forall k, hears status k e -> EvMsgSend (synx_global_map_core_id k) data ∈ evs).
Proof.
  intros Ho Hi Hcores.
  assert (exists s1 : synx_state, (when cleared do clear_index idx) s = Done tt s1 /\ ordered l false s1 /\
    sy_table s1 = sy_table s /\ sy_env s1 = sy_env s /\ sy_events s1 = sy_events s) as (s1 & H1 & Ho1 & Ht & Hn & Hev).
  { destruct cleared; [|by exists s]. destruct (clear_index_run false s idx Ho Hi) as (bm & Hrun & Hob & _).
    by exists (s <| sy_bitmap := bm |>). }
  assert (exists evs, notify_cores status data cores s1 = Done tt (s1 <| sy_events ::= fun l => l ++ evs |>) /\
    (data <> 0 -> forall k, hears status k e -> EvMsgSend (synx_global_map_core_id k) data ∈ evs)) as (evs & H2 & Hh).
  { destruct Hcores as [->| ->]; [apply notify_cores_run|]. exists []. split; [|done].
    unfold notify_cores, ret, modify, eta_synx. simpl. rewrite app_nil_r. by destruct s1. }
  do 2 eexists. exists evs. split_and!; [exact H1|exact H2| |done|done|by simpl; rewrite Hev|done].
  destruct Ho1 as [[] [] ?]. split; [by split|by split|done].
Qed.

(** The whole climb: all debts of the call are paid, and nothing else changes. *)
Definition pays (fuel : nat) (idx : Z) : Prop :=
  idx <> 0 -> forall D0 D s, ordered l false s -> responsive s -> pending_with D0 s -> owed idx D0 D s ->
  wp (synx_global_update_status_core fuel idx status)
     (fun rc s' => rc = 0 /\ paid l status idx D s s' /\
        forall e, zget (sy_table s) idx = Some e -> sg_num_child e = 0 ->
          zget (sy_table s') idx = Some (e <| sg_status := status |> <| sg_waiters := 0 |>)) s.

(** The entry is changed in one critical section and announced after another. *)
Lemma section_paid idx e e' D s s1 s3 s5 evs :
  idx <> 0 -> ordered l false s -> ordered l true s1 -> quiet s s1 ->
  zget (sy_table s) idx = Some e -> let s2 := s1 <| sy_table ::= zset idx e' |> in
  ordered l true s2 -> quiet s2 s3 -> pending_with D s2 ->
  ordered l false s5 -> sy_table s5 = sy_table s3 -> sy_env s5 = sy_env s -> sy_events s5 = sy_events s3 ++ evs ->
  entry_step status (sy_events s5) e e' -> paid l status idx D s s5.
Proof.
  intros Hi0 Ho Ho1 Hq1 He s2 Ho2 Hq3 HD2 Ho5 Ht5 Hn Hev5 Hstep.
  pose proof (quiet_pending l true s2 s3 _ Ho2 Hq3 HD2) as HD3.
  split; [done|intros p ep Hp0 Hep; rewrite Ht5 in *; exact (HD3 p ep Hp0 Hep)| |].
  2:{ intros j ej Hj Hji Hej _. rewrite Ht5, (qu_entry _ _ Hq3 j Hj). unfold s2. simpl.
      rewrite zget_zset_ne by done. by rewrite (qu_entry _ _ Hq1 j Hj). }
  split; [|exists evs; by rewrite Hev5, (qu_events _ _ Hq3), <- (qu_events _ _ Hq1)|done|].
  2:{ intros Hz e0. rewrite Ht5. apply (quiet_idle l true s2 s3 Ho2 Hq3). intros e0'. unfold s2. simpl.
      rewrite zget_zset_ne by done. apply (quiet_idle l false s s1 Ho Hq1 Hz). }
  intros i ei ei' Hi0' Hei Hei'. rewrite Ht5, (qu_entry _ _ Hq3 i Hi0') in Hei'.
  unfold s2 in Hei'. simpl in Hei'. rewrite zget_zset in Hei'. case_decide as Hd.
  - destruct Hd as [<- _]. injection Hei' as <-. by replace ei with e by congruence.
  - rewrite (qu_entry _ _ Hq1 i Hi0') in Hei'. replace ei' with ei by congruence. apply step_same.
Qed.

(** What the way up through one parent pays, seen from below. *)
Lemma pays_parent fuel p :
  0 <= p < SYNX_GLOBAL_MAX_OBJS -> p <> 0 -> pays fuel p ->
  forall D s, ordered l false s -> responsive s -> pending_with (p :: D) s ->
  wp (synx_global_update_status_core fuel p status) (fun _ s' => paid l status 0 D s s') s.
Proof.
  intros Hp Hp0 Hpays D s Ho Hr HD.
  eapply wp_mono; [apply (Hpays Hp0 (p :: D) D s); try done; by eapply owed_parent|].
  intros ? s7 (_ & [Ho7 HD7 He7 Hk7] & _). split; [done..|]. intros j ej Hj _ Hej Hnj. apply Hk7; [done| |done..].
  intros ->. destruct (owed_parent p D s false Ho Hp Hp0 HD ej Hej) as [_ Ho']. rewrite Hnj in Ho'. simpl in Ho'.
  apply (f_equal length) in Ho'. simpl in Ho'. lia.
Qed.

(** A leaf that is settled stays as it is. *)
Lemma leaf_stays idx e D s5 s6 :
  0 <= idx < SYNX_GLOBAL_MAX_OBJS -> idx <> 0 -> sg_num_child e = 0 -> paid l status 0 D s5 s6 ->
  zget (sy_table s5) idx = Some (e <| sg_status := status |> <| sg_waiters := 0 |>) ->
  zget (sy_table s6) idx = Some (e <| sg_status := status |> <| sg_waiters := 0 |>).
Proof.
  intros Hi Hi0 Hn0 Hpaid6 He5.
  destruct (entry_at s6 idx (or_mem _ _ _ (pd_ordered _ _ _ _ _ _ Hpaid6)) Hi) as [e6 He6]. rewrite He6. f_equal.
  eapply step_from_settled; [by apply (ev_entry _ _ _ (pd_spreads _ _ _ _ _ _ Hpaid6) idx)|].
  unfold unsettled. simpl. rewrite Hn0. by destruct (Z.eqb_spec status SYNX_STATE_ACTIVE); [lia|].
Qed.

Lemma update_core_paid fuel idx :
  0 <= idx < SYNX_GLOBAL_MAX_OBJS ->
  (forall p, 0 <= p < SYNX_GLOBAL_MAX_OBJS -> before l idx p -> pays fuel p) -> pays (S fuel) idx.
Proof.
  intros Hi IH Hi0 D0 D s Ho Hr HD Howed.
  cbn [synx_global_update_status_core]. apply wp_bind. eapply wp_locked_quiet; [done..|].
  intros s1 Ho1 Hq1. destruct (entry_at s1 idx (or_mem _ _ _ Ho1) Hi) as [e He1].
  pose proof (qu_entry _ _ Hq1 idx Hi0) as He. rewrite He1 in He. symmetry in He.
  pose proof (mw_entries _ (or_mem _ _ _ Ho1) _ _ He1) as Hw. destruct (Howed e He) as [Hu _].
  pose proof (signal_entry_run status s1 idx e He1) as Hrun.
  pose proof (signal_entry_keeps l s1 idx status Ho1 Hi Hst) as Hkeep. unfold wp in Hkeep. rewrite Hrun in Hkeep.
  destruct Hkeep as [Ho2 Hpar]. set (s2 := s1 <| sy_table ::= _ |>) in *.
  assert (pending_with ((signaled_entry status e).2.2 ++ D) s2) as HD2.
  { apply (signaled_balance status Hst1 idx D0); [by apply (quiet_pending l false s)| |done..].
    intros e'. rewrite (qu_entry _ _ Hq1 idx Hi0). apply Howed. }
  pose proof (fun evs => signaled_step status Hst1 e evs Hw Hu) as Hstep.
  assert ((signaled_entry status e).2.1.2 = mark_cores (sg_waiters e) no_cores \/ (signaled_entry status e).2.1.1.1 = 0) as Hcores.
  { unfold signaled_entry. repeat case_match; simpl; auto. }
  assert (sg_num_child e = 0 -> (signaled_entry status e).1 = e <| sg_status := status |> <| sg_waiters := 0 |>) as Hleaf.
  { intros Hn0. unfold signaled_entry. by rewrite Hn0. }
  destruct (signaled_entry status e) as [e' [[[data cleared] cores] parents]]. cbn [fst snd] in *.
  apply wp_bind. eapply wp_done; [exact Hrun|]. apply wp_ret. split; [done|]. intros s3 Ho3 Hq3.
  destruct (announce_run s3 idx cleared data cores e Ho3 Hi Hcores) as (s4 & s5 & evs & H4 & H5 & Ho5 & Ht5 & Hn5 & Hev5 & Hh).
  apply wp_bind. eapply wp_done; [exact H4|]. apply wp_bind. eapply wp_done; [exact H5|].
  assert (sy_env s5 = sy_env s) as Hn by by rewrite Hn5, (qu_env _ _ Hq3), <- (qu_env _ _ Hq1).
  assert (paid l status idx (parents ++ D) s s5) as Hpaid.
  { apply (section_paid idx e e' _ s s1 s3 s5 evs); try done. apply Hstep. intros Hd k Hk.
    rewrite Hev5. apply elem_of_app. right. by apply Hh. }
  apply wp_bind. eapply wp_mono; [eapply (notify_parents_paid _ parents D)|].
  - eapply Forall_impl; [exact Hpar|]. simpl. intros p Hp Hp0 D' s6 Ho6 Hr6 HD6.
    destruct (Hp Hp0) as [Hpi Hbp]. apply (pays_parent fuel p Hpi Hp0 (IH p Hpi Hbp)); done.
  - done.
  - intros n. rewrite Hn. apply Hr.
  - apply Hpaid.
  - intros ? s6 Hpaid6. apply wp_ret. split; [done|]. split; [by apply (paid_trans s s5 s6 idx (parents ++ D) D)|].
    intros e0 He0 Hn0. replace e0 with e in * by congruence. specialize (Hleaf Hn0) as ->.
    apply (leaf_stays idx e D s5 s6); [done..|].
    rewrite Ht5, (qu_entry _ _ Hq3 idx Hi0). apply zget_zset_eq. by eapply zget_Some.
Qed.
End travelling.

(** ** Good states *)

Record synx_good (s : synx_state) : Prop := {
  good_ok : synx_ok s;
  good_responsive : responsive s;
  good_pending : pending_ok s;
  good_zero : idle_zero s }.

Section good_states.
Implicit Types (s : synx_state) (e : synx_global_coredata).

Lemma good_quiet l s s' : synx_good s -> ordered l false s -> ordered l false s' -> quiet s s' -> synx_good s'.
Proof.
  intros [Hok Hr Hp Hz] Ho Ho' Hq. split.
  - by exists l.
  - by eapply quiet_responsive.
  - by apply (quiet_pending l false s s').
  - by apply (quiet_idle l false s s').
Qed.

Lemma quiet_spreads l b status s s' : ordered l b s -> quiet s s' -> spreads status s s'.
Proof.
  intros Ho Hq. apply spreads_same; [apply Hq|exists []; by rewrite app_nil_r, (qu_events _ _ Hq)|apply Hq|].
  by apply (quiet_idle l b s s').
Qed.

Lemma paid_good l status x s s' : synx_good s -> paid l status x [] s s' -> synx_good s'.
Proof.
  intros [Hok Hr Hp Hz] [Ho HD He _]. split.
  - by exists l.
  - by eapply spreads_responsive.
  - done.
  - by apply (ev_zero _ _ _ He).
Qed.

(** Looking at an object under the lock. *)
Lemma wp_look {A} l s (f : Z -> A) idx (k : synx_global_coredata -> A) (Q : A -> synx_state -> Prop) :
  ordered l false s -> responsive s -> 0 <= idx < SYNX_GLOBAL_MAX_OBJS ->
  (forall s' e sub, ordered l false s' -> quiet s s' -> zget (sy_table s) idx = Some e ->
     (idx <> 0 -> sub = sg_subscribers e) -> Q (k (e <| sg_subscribers := sub |>)) s') ->
  wp (locked f (e <-- get_entry idx; ret (k e))) Q s.
Proof.
  intros Ho Hr Hi HQ. eapply wp_locked_quiet; [done..|]. intros s1 Ho1 Hq1.
  destruct (entry_at s idx (or_mem _ _ _ Ho) Hi) as [e He].
  assert (exists sub, (idx <> 0 -> sub = sg_subscribers e) /\
     zget (sy_table s1) idx = Some (e <| sg_subscribers := sub |>)) as (sub & Hsub & He1).
  { destruct (decide (idx = 0)) as [->|H0].
    - destruct (qu_zero _ _ Hq1 e He) as [sub Hs]. by exists sub.
    - exists (sg_subscribers e). split; [done|]. rewrite (qu_entry _ _ Hq1 idx H0), He. by destruct e. }
  apply wp_bind. eapply wp_done; [by apply get_entry_run|]. apply wp_ret. split; [done|].
  intros s3 Ho3 Hq3. apply HQ; [done|by eapply quiet_trans|done..].
Qed.

(** Signaling anything, with what is true of a plain active object. *)
Lemma update_status_good s idx status :
  synx_good s -> 0 <= idx -> in_u32 status ->
  wp (synx_global_update_status idx status)
     (fun rc s' => synx_good s' /\ spreads status s s' /\ plain_kept idx s s' /\
        forall e, idx <> 0 -> zget (sy_table s) idx = Some e -> SYNX_STATE_ACTIVE < status ->
          sg_status e = SYNX_STATE_ACTIVE -> sg_num_child e = 0 ->
          rc = 0 /\ zget (sy_table s') idx = Some (e <| sg_status := status |> <| sg_waiters := 0 |>)) s.
Proof.
  intros Hg Hi0 Hst. destruct (good_ok s Hg) as [l Ho]. unfold synx_global_update_status.
  eapply wp_on_table; [done|].
  destruct (synx_is_valid_idx idx) eqn:Hv; cbn [negb orb].
  2:{ apply wp_ret. split_and!; [done|apply spreads_refl|by intros ?|]. intros e _ He. exfalso.
      apply zget_Some in He. rewrite (ordered_zlen _ _ _ Ho) in He. unfold synx_is_valid_idx in Hv. lia. }
  apply (valid_idx _ Hi0) in Hv. destruct (Z.leb_spec status SYNX_STATE_ACTIVE) as [|Hst1].
  { apply wp_ret. split_and!; [done|apply spreads_refl|by intros ?|]. intros; lia. }
  apply wp_bind. eapply wp_look; [done|apply Hg|done|]. intros s1 e sub Ho1 Hq1 He Hsub. cbn [sg_num_child sg_status modify eta_coredata].
  pose proof (good_quiet l s s1 Hg Ho Ho1 Hq1) as Hg1.
  pose proof (quiet_spreads l false status s s1 Ho Hq1) as Hev1.
  assert (plain_kept 0 s s1) as Hk1 by (intros j ej Hj _; by rewrite (qu_entry _ _ Hq1 j Hj)).
  destruct (sg_num_child e =? 0) eqn:En; [destruct (sg_status e =? SYNX_STATE_ACTIVE) eqn:Es|]; cbn [negb].
  2,3: apply wp_ret; cbv beta; split_and!; [done..|by intros j ej Hj _; apply Hk1|]; intros e' _ He' _ Ha Hn; replace e' with e in * by congruence; exfalso; lia.
  assert (idx <> 0) as Hne.
  { intros ->. pose proof (good_zero s Hg e He) as Hz. unfold unsettled in Hz. by rewrite Es in Hz. }
  assert (zget (sy_table s1) idx = Some e) as He1 by by rewrite (qu_entry _ _ Hq1 idx Hne).
  eapply wp_mono.
  - apply (climb l (pays l status) s1 (or_topo _ _ _ Ho1) (update_core_paid l status Hst Hst1) idx Hv Hne [] []);
      [done|apply Hg1..|].
    intros e' He'. replace e' with e by congruence. rewrite En. unfold unsettled. by rewrite Es.
  - intros rc s2 (-> & Hpaid & Hleaf). split_and!.
    + by eapply paid_good.
    + apply (spreads_trans status s s1 s2); [by rewrite (ordered_zlen _ _ _ Ho), (ordered_zlen _ _ _ Ho1)|done|apply Hpaid].
    + intros j ej Hj Hji Hej Hnj. apply (pd_plain _ _ _ _ _ _ Hpaid); [done..| |done]. by apply Hk1.
    + intros e' _ He' _ _ Hn. replace e' with e in * by congruence. split; [done|]. by apply Hleaf.
Qed.

(** A composite object in a good state has not settled exactly while a slot pends. *)
Lemma evolved_composite status s s' p e e' :
  p <> 0 -> pending_ok s' -> spreads status s s' -> zget (sy_table s) p = Some e -> sg_num_child e <> 0 ->
  zget (sy_table s') p = Some e' -> unsettled e' = true <-> 0 < pend (sy_table s') p.
Proof.
  intros Hp Hpend Hev He Hn He'. pose proof (Hpend p e' Hp He') as Hc. simpl in Hc.
  change (count p []) with 0 in Hc. pose proof (pend_nonneg p (sy_table s')).
  destruct (ev_entry _ _ _ Hev p e e' Hp He He') as [|n st Hn' _|st e' Hu _ Hs _ He2].
  - split; [lia|]. intros _. by apply counting_unsettled.
  - split; [simpl in Hc; lia|]. intros _. apply counting_unsettled. simpl. lia.
  - destruct He2 as [->|[rc ->]]; simpl in Hc; [split; [done|lia]|].
    split; [|lia]. unfold unsettled. simpl. by destruct (Z.eqb_spec st SYNX_STATE_ACTIVE).
Qed.
End good_states.

(** C2: Signaling an active object returns 0 in a good state; the object has the status
    and its waiting cores were told; every composite object it belongs to, directly or
    not, is counted down, and is unsettled exactly while one of its children still is;
    no other plain object changes. *)
Theorem update_status_spec s idx e status :
  synx_good s -> idx <> 0 -> zget (sy_table s) idx = Some e ->
  sg_status e = SYNX_STATE_ACTIVE -> sg_num_child e = 0 -> SYNX_STATE_ACTIVE < status -> in_u32 status ->
  wp (synx_global_update_status idx status)
     (fun rc s' => rc = 0 /\ synx_good s' /\ spreads status s s' /\ plain_kept idx s s' /\
        zget (sy_table s') idx = Some (e <| sg_status := status |> <| sg_waiters := 0 |>) /\
        forall p ep ep', p <> 0 -> zget (sy_table s) p = Some ep -> sg_num_child ep <> 0 ->
          zget (sy_table s') p = Some ep' -> unsettled ep' = true <-> 0 < pend (sy_table s') p) s.
Proof.
  intros Hg Hi He Ha Hn Hst1 Hst. pose proof (zget_Some _ _ _ He).
  eapply wp_mono; [apply update_status_good; [done|lia|done]|].
  intros rc s' (Hg' & Hev & Hkept & Hleaf). destruct (Hleaf e) as [-> He']; [done..|].
  split_and!; [done..|]. intros p ep ep' Hp Hep Hnp Hep'.
  by apply (evolved_composite status s s' p ep ep'); [|apply Hg'| | | |].
Qed.

(** ** Waiting cores are woken *)

(** An edit that plays no part in the counts. *)
Definition same_books (e e' : synx_global_coredata) : Prop :=
  (forall p, p <> 0 -> slots p e' = slots p e) /\ sg_num_child e' = sg_num_child e.

Section waking.
Implicit Types (s : synx_state) (e : synx_global_coredata).

Lemma good_edit s i e e' :
  synx_good s -> i <> 0 -> zget (sy_table s) i = Some e -> same_books e e' ->
  (forall p e0, p <> 0 -> zget (zset i e' (sy_table s)) p = Some e0 ->
     sg_num_child e0 = pend (zset i e' (sy_table s)) p).
Proof.
  intros Hg Hi He [Hsl Hs] p e0 Hp He0. rewrite (pend_set _ _ _ _ _ He), Hsl by done. rewrite zget_zset in He0. case_decide as Hd.
  - destruct Hd as [<- _]. injection He0 as <-. rewrite Hs.
    rewrite (good_pending s Hg i e Hi He). change (count i []) with 0. lia.
  - rewrite (good_pending s Hg p e0 Hp He0). change (count p []) with 0. lia.
Qed.

(** A critical section that makes such an edit of one entry. *)
Lemma wp_edit {A} l s (f : Z -> A) idx e e' (a : A) (body : SYNX A) (Q : A -> synx_state -> Prop) :
  synx_good s -> ordered l false s -> idx <> 0 -> zget (sy_table s) idx = Some e -> tamer e e' -> same_books e e' ->
  (forall s1, zget (sy_table s1) idx = Some e -> body s1 = Done a (s1 <| sy_table ::= zset idx e' |>)) ->
  (forall s', synx_good s' -> ordered l false s' -> quiet (s <| sy_table ::= zset idx e' |>) s' -> Q a s') ->
  wp (locked f body) Q s.
Proof.
  intros Hg Ho Hi He Ht Hs Hk HQ. eapply wp_locked_quiet; [done|apply Hg|]. intros s1 Ho1 Hq1.
  assert (zget (sy_table s1) idx = Some e) as He1 by by rewrite (qu_entry _ _ Hq1 idx Hi).
  eapply wp_done; [by apply Hk|]. split; [by eapply set_entry_ordered|]. intros s3 Ho3 Hq3.
  assert (quiet (s <| sy_table ::= zset idx e' |>) s3) as Hq.
  { eapply quiet_trans; [|exact Hq3]. destruct Hq1 as [H1 H0 Hb Hev Hn]. split; try done; simpl.
    - intros j Hj. rewrite !zget_zset, (H1 j Hj).
      by rewrite (ordered_zlen _ _ _ Ho), (ordered_zlen _ _ _ Ho1).
    - intros e0. rewrite !zget_zset_ne by done. apply H0. }
  assert (ordered l false (s <| sy_table ::= zset idx e' |>)) as Ho' by by eapply set_entry_ordered.
  apply HQ; [|done..]. split.
  - by exists l.
  - eapply quiet_responsive; [exact Hq|]. intros n. apply Hg.
  - apply (quiet_pending l false (s <| sy_table ::= zset idx e' |>) s3); [done..|]. intros p e0 Hp He0.
    change (count p []) with 0. rewrite Z.add_0_r. by apply (good_edit s idx e e').
  - apply (quiet_idle l false (s <| sy_table ::= zset idx e' |>) s3); [done..|]. intros e0. simpl.
    rewrite zget_zset_ne by done. apply Hg.
Qed.

(** Any signals, one after the other, whatever they answer. *)
Fixpoint run_signals (sigs : list (Z * Z)) : SYNX unit :=
  match sigs with
  | [] => ret tt
  | (c, status) :: sigs => synx_global_update_status c status;;; run_signals sigs
  end.

(** Core [id] still waits for the object with handle [h], or has got its message. *)
Definition waits_or_woken (id h idx : Z) (s : synx_state) : Prop :=
  exists e, zget (sy_table s) idx = Some e /\
    ((unsettled e = true /\ Z.testbit (sg_waiters e) id = true /\ sg_handle e = h) \/
     (unsettled e = false /\ exists st, wake_message id h st ∈ sy_events s)).

Lemma spreads_woken status id h idx s s' :
  idx <> 0 -> h <> 0 -> SYNX_CORE_APSS < id < SYNX_CORE_MAX -> zlen (sy_table s') = zlen (sy_table s) ->
  spreads status s s' -> waits_or_woken id h idx s -> waits_or_woken id h idx s'.
Proof.
  intros Hi Hh Hid Hlen Hev (e & He & Hw). destruct (zget_is_Some (sy_table s') idx) as [e' He'].
  { rewrite Hlen. by eapply zget_Some. }
  exists e'. split; [done|]. pose proof (ev_entry _ _ _ Hev idx e e' Hi He He') as Hstep.
  destruct (ev_events _ _ _ Hev) as [evs Hevs]. destruct Hw as [(Hu & Hb & <-)|(Hu & st & Hin)].
  - destruct Hstep as [|n st Hn _|st e' Hu' _ Hs Hm He2]; [by left|left|right].
    + split; [|done]. apply counting_unsettled. simpl. lia.
    + split.
      * destruct He2 as [->|[rc ->]]; [done|]. by apply (settled_after e _ st rc); [right|].
      * exists st. apply Hm; [done|]. unfold SYNX_CORE_APSS in *. split; [lia|]. split; [done|]. left. unfold SYNX_CORE_APSS. lia.
  - right. assert (e' = e) as -> by by eapply step_from_settled. split; [done|]. exists st.
    rewrite Hevs. apply elem_of_app. by left.
Qed.

Lemma run_signals_woken sigs id h idx s :
  synx_good s -> Forall (fun sg => 0 <= sg.1 /\ in_u32 sg.2) sigs -> idx <> 0 -> h <> 0 ->
  SYNX_CORE_APSS < id < SYNX_CORE_MAX -> waits_or_woken id h idx s ->
  wp (run_signals sigs) (fun _ s' => synx_good s' /\ waits_or_woken id h idx s') s.
Proof.
  intros Hg Hall Hi Hh Hid Hw. revert s Hg Hw. induction Hall as [|[c st] sigs [Hc Hst] _ IH]; intros s Hg Hw; simpl in *.
  { by apply wp_ret. }
  apply wp_bind. eapply wp_mono; [by apply update_status_good|]. intros rc s1 (Hg1 & Hev & _).
  apply IH; [done|]. eapply spreads_woken; [done..| |done|done].
  destruct (good_ok s Hg) as [l Ho], (good_ok s1 Hg1) as [l1 Ho1]. by rewrite (ordered_zlen _ _ _ Ho), (ordered_zlen _ _ _ Ho1).
Qed.
End waking.

(** C6: No wake-up is lost: when [synx_global_test_status_set_wait] answers a remote core
    that the object is active, then after any sequence of signals the object is
    unsettled and the core still waits for it, or it has settled and the message for
    the core was sent. *)
Theorem no_lost_wakeup s idx e id sigs :
  synx_good s -> idx <> 0 -> zget (sy_table s) idx = Some e -> unsettled e = true -> sg_handle e <> 0 ->
  SYNX_CORE_APSS < id < SYNX_CORE_MAX -> Forall (fun sg => 0 <= sg.1 /\ in_u32 sg.2) sigs ->
  wp (st <-- synx_global_test_status_set_wait idx id; run_signals sigs;;; ret st)
     (fun st s' => st = SYNX_STATE_ACTIVE /\ synx_good s' /\ waits_or_woken id (sg_handle e) idx s') s.
Proof.
  intros Hg Hi He Hu Hh Hid Hall. destruct (good_ok s Hg) as [l Ho].
  pose proof (zget_Some _ _ _ He) as Hr. rewrite (ordered_zlen _ _ _ Ho) in Hr.
  apply wp_bind. eapply wp_on_table; [done|].
  destruct (Z.leb_spec SYNX_CORE_MAX id); [lia|]. unfold synx_is_valid_idx.
  destruct (Z.ltb_spec idx SYNX_GLOBAL_MAX_OBJS); [|lia]. cbn [orb negb].
  set (e' := e <| sg_waiters ::= fun w => Z.lor w (BIT id) |>).
  eapply (wp_edit l s _ idx e e'); [done|done|done|done| |done| |].
  { assert (0 <= id < SYNX_CORE_MAX) by (unfold SYNX_CORE_APSS in *; lia). tame. }
  { intros s1 He1. rewrite (bind_run _ _ _ _ _ (get_entry_run s1 idx e He1)). by rewrite Hu. }
  intros s1 Hg1 Ho1 Hq1. apply wp_bind. eapply wp_mono.
  { apply (run_signals_woken sigs id (sg_handle e) idx); [done..|]. exists e'. split.
    - rewrite (qu_entry _ _ Hq1 idx Hi). simpl. rewrite zget_zset_eq; [done|]. rewrite (ordered_zlen _ _ _ Ho). done.
    - left. split_and!; [done|..|done]. simpl. unfold SYNX_CORE_APSS in *.
      rewrite Z.lor_spec, testbit_BIT by lia. rewrite bool_decide_true by done. apply orb_true_r. }
  intros ? s2 [Hg2 Hw2]. by apply wp_ret.
Qed.

(** ** Merging *)

(** How many of the children are unsettled, and the status they give together. *)
Definition pending_children (es : list synx_global_coredata) : Z := zlen (filter (fun e => unsettled e = true) es).

Definition merged_status (es : list synx_global_coredata) (st : Z) : Z := foldl merge_status st es.

Lemma first_slot_Some q parents i : first_slot q parents = Some i -> zget parents i = Some q.
Proof.
  unfold first_slot. destruct (scan_spec 4 0 (fun i => bool_decide (zget parents i = Some q))) as (H1 & H2 & H3).
  set (k := scan _ _ _) in *. case_match eqn:E; [|done]. intros [= <-].
  unfold SYNX_GLOBAL_MAX_PARENTS in E. specialize (H3 ltac:(lia)). by apply bool_decide_eq_true in H3.
Qed.

Lemma count_insert q parents i x y :
  zget parents i = Some x ->
  count q (zset i y parents) = count q parents - (if decide (x = q) then 1 else 0) + (if decide (y = q) then 1 else 0).
Proof.
  unfold zget, zset. case_match; [|done]. generalize (Z.to_nat i). clear. induction parents as [|z t IH]; intros [|n] Hn; simplify_eq/=.
  - rewrite !count_cons. lia.
  - rewrite !count_cons, (IH n Hn). lia.
Qed.

Lemma u32_small x : 0 <= x < 2 ^ 32 -> u32 x = x.
Proof. apply Z.mod_small. Qed.

Lemma pending_children_cons e es : pending_children (e :: es) = (if unsettled e then 1 else 0) + pending_children es.
Proof.
  unfold pending_children. rewrite filter_cons. destruct (unsettled e).
  - rewrite decide_True by done. unfold zlen. simpl. lia.
  - by rewrite decide_False.
Qed.

Lemma pending_children_bound es : 0 <= pending_children es <= zlen es.
Proof. unfold pending_children, zlen. pose proof (length_filter (fun e => unsettled e = true) es). lia. Qed.

Section merge_counts.
Context (l : list Z) (p : Z) (Hp : 0 <= p < SYNX_GLOBAL_MAX_OBJS) (Hp0 : p <> 0).
Implicit Types (s : synx_state) (e : synx_global_coredata).

Lemma slots_link e q : q <> 0 -> is_Some (first_slot 0 (sg_parents e)) ->
  slots q (set_parent 0 p e) = slots q e + (if decide (q = p) then if unsettled e then 1 else 0 else 0).
Proof.
  intros Hq [i Hi]. unfold set_parent, slots. rewrite Hi.
  change (unsettled (e <| sg_parents ::= zset i p |>)) with (unsettled e). destruct (unsettled e); [|by case_decide].
  simpl. rewrite (count_insert q _ i 0 p) by by apply first_slot_Some.
  rewrite (decide_False (P := 0 = q)) by congruence. repeat case_decide; try congruence; lia.
Qed.

(** While the children are linked: [n] slots pend for the composite, uncounted. *)
Definition linking (n : Z) (s : synx_state) : Prop :=
  forall q e, q <> 0 -> zget (sy_table s) q = Some e ->
    sg_num_child e + (if decide (q = p) then n else 0) = pend (sy_table s) q.

(** The children of [pre] have the composite as a parent, other entries are as in [s]. *)
Definition linked (pre : list Z) (s s' : synx_state) : Prop :=
  forall j, j <> 0 -> zget (sy_table s') j = (if decide (j ∈ pre) then set_parent 0 p else fun e => e) <$> zget (sy_table s) j.

Lemma linking_step s i e n :
  linking n s -> i <> 0 -> i <> p -> zget (sy_table s) i = Some e -> is_Some (first_slot 0 (sg_parents e)) ->
  linking (n + if unsettled e then 1 else 0) (s <| sy_table ::= zset i (set_parent 0 p e) |>).
Proof.
  intros Hl Hi Hip He Hs q eq Hq Heq. simpl in *. rewrite (pend_set _ _ e) by done. rewrite slots_link by done.
  assert (sg_num_child eq + (if decide (q = p) then n else 0) = pend (sy_table s) q) as Hn.
  { rewrite zget_zset in Heq. case_decide as Hd; [|by apply Hl]. destruct Hd as [<- _]. injection Heq as <-.
    rewrite <- (Hl i e Hi He). f_equal. unfold set_parent. by case_match. }
  repeat case_decide; lia.
Qed.

Lemma quiet_linking b s s' n : ordered l b s -> quiet s s' -> linking n s -> linking n s'.
Proof.
  intros Ho Hq Hl q e Hq0 He. rewrite (quiet_pend l b s s') by done.
  rewrite (qu_entry _ _ Hq q Hq0) in He. by apply Hl.
Qed.

(** Nothing but table entries differs. *)
Definition same_rest (s s' : synx_state) : Prop :=
  sy_bitmap s' = sy_bitmap s /\ sy_events s' = sy_events s /\ sy_env s' = sy_env s /\ (idle_zero s -> idle_zero s').

Lemma quiet_rest b s s' : ordered l b s -> quiet s s' -> same_rest s s'.
Proof. intros Ho Hq. split_and!; [apply Hq..|by apply (quiet_idle l b s s')]. Qed.

Lemma set_rest s i e : i <> 0 -> same_rest s (s <| sy_table ::= zset i e |>).
Proof. intros Hi. split_and!; [done..|]. intros Hz e0. simpl. rewrite zget_zset_ne by done. apply Hz. Qed.

Lemma rest_trans s1 s2 s3 : same_rest s1 s2 -> same_rest s2 s3 -> same_rest s1 s3.
Proof. intros (?&?&?&?) (?&?&?&?). split_and!; [congruence..|auto]. Qed.

Lemma linked_step pre s0 s i e :
  linked pre s0 s -> i <> 0 -> i ∉ pre -> zget (sy_table s0) i = Some e ->
  linked (pre ++ [i]) s0 (s <| sy_table ::= zset i (set_parent 0 p e) |>).
Proof.
  intros Hl Hi Hin He j Hj. simpl. pose proof (Hl i Hi) as Hli. rewrite decide_False, He in Hli by done.
  rewrite zget_zset. pose proof (zget_Some _ _ _ Hli). case_decide as Hd.
  - destruct Hd as [<- _]. rewrite decide_True; [by rewrite He|]. apply elem_of_app. right. left.
  - rewrite (Hl j Hj). destruct (decide (j ∈ pre)), (decide (j ∈ pre ++ [i])) as [Hin'|Hin']; try done.
    + exfalso. apply Hin'. apply elem_of_app. by left.
    + exfalso. apply elem_of_app in Hin' as [|Hin']; [done|]. apply list_elem_of_singleton in Hin' as ->. by apply Hd.
Qed.

(** A child that can be linked, as the entry it is in [s0]. *)
Definition child_of (s0 : synx_state) (i : Z) (e : synx_global_coredata) : Prop :=
  0 < i < SYNX_GLOBAL_MAX_OBJS /\ i <> p /\ before l i p /\ zget (sy_table s0) i = Some e /\ is_Some (first_slot 0 (sg_parents e)).

Lemma merge_child_run s0 pre s i e n :
  ordered l false s -> responsive s -> linking n s -> linked pre s0 s -> same_rest s0 s ->
  child_of s0 i e -> i ∉ pre ->
  wp (merge_child i p)
     (fun out s' => out = inr (true, e) /\ ordered l false s' /\ linking (n + if unsettled e then 1 else 0) s' /\
        linked (pre ++ [i]) s0 s' /\ same_rest s0 s') s.
Proof.
  intros Ho Hr Hl Hpre Hsame (Hir & Hip & Hb & He0 & Hs) Hin. unfold merge_child. assert (i <> 0) as Hi by lia.
  assert (zget (sy_table s) i = Some e) as He by (rewrite (Hpre i Hi), decide_False by done; by rewrite He0).
  eapply wp_locked_quiet; [done..|]. intros s1 Ho1 Hq1.
  assert (zget (sy_table s1) i = Some e) as He1 by by rewrite (qu_entry _ _ Hq1 i Hi).
  apply wp_bind. eapply wp_done; [by apply get_entry_run|]. apply wp_bind, wp_modifyM, wp_ret.
  set (s2 := s1 <| sy_table ::= _ |>). assert (ordered l true s2) as Ho2 by by apply link_ordered.
  split; [done|]. intros s3 Ho3 Hq3.
  assert (linked pre s0 s1) as Hpre1 by (intros j Hj; by rewrite (qu_entry _ _ Hq1 j Hj), Hpre).
  split_and!; [by rewrite bool_decide_true|done|..].
  - apply (quiet_linking true s2); [done..|]. apply linking_step; [|done..]. by apply (quiet_linking false s).
  - intros j Hj. rewrite (qu_entry _ _ Hq3 j Hj). by apply linked_step.
  - eapply rest_trans; [exact Hsame|]. eapply rest_trans; [by apply (quiet_rest false s s1)|].
    eapply rest_trans; [by apply set_rest|by apply (quiet_rest true s2 s3)].
Qed.

Lemma merge_children_linked s0 pre rest es rc n st s :
  ordered l false s -> responsive s -> linking n s -> linked pre s0 s -> same_rest s0 s ->
  Forall2 (child_of s0) rest es -> NoDup (pre ++ rest) -> 0 <= n -> n + zlen rest < 2 ^ 32 ->
  wp (merge_children rest p rc n st)
     (fun out s' => out = inr (n + pending_children es, merged_status es st) /\ ordered l false s' /\
        linking (n + pending_children es) s' /\ linked (pre ++ rest) s0 s' /\ same_rest s0 s') s.
Proof.
  intros Ho Hr Hl Hpre Hsame Hall Hnd Hn Hlen. revert pre rc n st s Ho Hr Hl Hpre Hsame Hnd Hn Hlen.
  induction Hall as [|i e rest es Hc _ IH]; intros pre rc n st s Ho Hr Hl Hpre Hsame Hnd Hn Hlen; simpl.
  { change (pending_children []) with 0. rewrite Z.add_0_r, app_nil_r. apply wp_ret. by split_and!. }
  assert (zlen (i :: rest) = 1 + zlen rest) as Hz by (unfold zlen; simpl; lia).
  pose proof (zlen_nonneg rest). pose proof Hc as (Hir & _). unfold synx_is_valid_idx.
  destruct (Z.ltb_spec i SYNX_GLOBAL_MAX_OBJS); [|lia]. cbn [negb].
  assert (i ∉ pre) as Hin.
  { apply NoDup_app in Hnd as (_ & Hd & _). intros Hin. apply (Hd i Hin). left. }
  apply wp_bind. eapply wp_mono; [by apply (merge_child_run s0 pre s i e n)|].
  intros out s1 (-> & Ho1 & Hl1 & Hpre1 & Hsame1). cbn [negb].
  assert ((if unsettled e then u32 (n + 1) else n) = n + if unsettled e then 1 else 0) as ->.
  { case_match; [apply u32_small; lia|lia]. }
  eapply wp_mono; [apply (IH (pre ++ [i])); [done| |done|done|done|..]|].
  - intros k. destruct Hsame1 as (_ & _ & -> & _). destruct Hsame as (_ & _ & <- & _). apply Hr.
  - by rewrite <- app_assoc.
  - case_match; lia.
  - case_match; lia.
  - intros out s2 (-> & Ho2 & Hl2 & Hpre2 & Hsame2). rewrite pending_children_cons, Z.add_assoc. simpl.
    rewrite <- app_assoc in Hpre2. by split_and!.
Qed.

Lemma merged_status_u32 es st : in_u32 st -> Forall coredata_wf es -> in_u32 (merged_status es st).
Proof.
  intros Hst Hes. revert st Hst. induction Hes as [|e es He _ IH]; intros st Hst; [done|].
  simpl. by apply IH, merge_status_u32.
Qed.

(** The count of the composite makes the books balance again. *)
Lemma linking_done n st s e :
  linking n s -> zget (sy_table s) p = Some e -> sg_num_child e = 0 -> sg_parents e = no_parents ->
  0 <= n < 2 ^ 16 -> pending_ok (s <| sy_table ::= zset p (composite_of n st e) |>).
Proof.
  intros Hl He Hn Hpar Hr q eq Hq Heq. simpl in *. change (count q []) with 0.
  rewrite (pend_set _ _ e) by done.
  assert (slots q e = 0) as ->.
  { unfold slots. rewrite Hpar. case_match; [by apply count_no_parents|done]. }
  assert (slots q (composite_of n st e) = 0) as ->.
  { unfold slots. simpl. rewrite Hpar. case_match; [by apply count_no_parents|done]. }
  rewrite zget_zset in Heq. case_decide as Hd.
  - destruct Hd as [<- _]. injection Heq as <-. rewrite <- (Hl p e) by done. rewrite decide_True by done.
    simpl. rewrite Hn, u16_small by lia. lia.
  - rewrite <- (Hl q eq) by done. rewrite decide_False; [lia|]. intros ->. apply Hd. split; [done|].
    by eapply zget_Some.
Qed.
End merge_counts.

(** The last critical section turns the entry into the composite. *)
Lemma merge_commit l p (Hp : 0 < p < SYNX_GLOBAL_MAX_OBJS) n st s e :
  ordered l false s -> responsive s -> linking p n s -> zget (sy_table s) p = Some e ->
  sg_num_child e = 0 -> sg_parents e = no_parents -> 0 <= n < 2 ^ 16 -> in_u32 st ->
  wp (locked Datatypes.id (update_entry p (composite_of n st);;; ret 0))
     (fun rc s' => rc = 0 /\ ordered l false s' /\ pending_ok s' /\ same_rest s s' /\
        zget (sy_table s') p = Some (composite_of n st e) /\
        forall j, j <> 0 -> j <> p -> zget (sy_table s') j = zget (sy_table s) j) s.
Proof.
  intros Ho Hr Hl He Hn Hpar Hn16 Hst. assert (p <> 0) as Hp0 by lia.
  eapply wp_locked_quiet; [done..|]. intros s2 Ho2 Hq2.
  assert (zget (sy_table s2) p = Some e) as He2 by by rewrite (qu_entry _ _ Hq2 p Hp0).
  apply wp_bind. eapply wp_done; [by apply update_entry_run|]. apply wp_ret. set (s3 := s2 <| sy_table ::= _ |>).
  assert (ordered l true s3) as Ho3 by (eapply set_entry_ordered; [done..|by apply tamer_composite]).
  split; [done|]. intros s4 Ho4 Hq4.
  assert (pending_ok s3) as Hp3.
  { apply (linking_done p ltac:(lia) ltac:(lia) n st s2 e); try done. by apply (quiet_linking l p false s). }
  split_and!; [done|done|by apply (quiet_pending l true s3 s4)| | |].
  - eapply rest_trans; [by apply (quiet_rest l false s s2)|].
    eapply rest_trans; [by apply (set_rest s2 p)|by apply (quiet_rest l true s3 s4)].
  - rewrite (qu_entry _ _ Hq4 p Hp0). apply zget_zset_eq. by eapply zget_Some.
  - intros j Hj Hjp. rewrite (qu_entry _ _ Hq4 j Hj). simpl. rewrite zget_zset_ne by done.
    by apply (qu_entry _ _ Hq2 j Hj).
Qed.

Lemma NoDup_bound (k : list Z) n : NoDup k -> (forall i, i ∈ k -> 0 <= i < n) -> zlen k <= n \/ k = [].
Proof.
  intros Hnd Hk. destruct k as [|x k']; [by right|left]. assert (0 <= n) by (pose proof (Hk x ltac:(left)); lia).
  assert (x :: k' ⊆+ seqZ 0 n) as Hs%submseteq_length.
  { apply NoDup_submseteq; [done|]. intros i Hi. apply elem_of_seqZ. specialize (Hk i Hi). lia. }
  rewrite length_seqZ in Hs. unfold zlen. lia.
Qed.

(** C4: Merging distinct objects with a free parent slot each, the composite object not
    among them, into a composite object without children and parents returns 0
    in a good state and leaves one: every child has the composite as a parent, the
    composite counts exactly its unsettled children, holds one more reference if there
    are any, and has the status its signaled children give; nothing else changes. *)
Theorem merge_spec s p ep idx_list es :
  synx_good s -> 0 < p < SYNX_GLOBAL_MAX_OBJS -> zget (sy_table s) p = Some ep ->
  sg_num_child ep = 0 -> sg_parents ep = no_parents -> idx_list <> [] -> NoDup idx_list ->
  Forall2 (fun i e => 0 < i < SYNX_GLOBAL_MAX_OBJS /\ i <> p /\ zget (sy_table s) i = Some e /\
             is_Some (first_slot 0 (sg_parents e))) idx_list es ->
  wp (synx_global_merge idx_list p)
     (fun rc s' => rc = 0 /\ synx_good s' /\ pend (sy_table s') p = pending_children es /\
        zget (sy_table s') p =
          Some (composite_of (pending_children es) (merged_status es SYNX_STATE_ACTIVE) ep) /\
        (forall j, j <> 0 -> j <> p -> zget (sy_table s') j =
           (if decide (j ∈ idx_list) then set_parent 0 p else fun e => e) <$> zget (sy_table s) j) /\
        sy_bitmap s' = sy_bitmap s /\ sy_events s' = sy_events s) s.
Proof.
  intros Hg Hp Hep Hn Hpar Hne Hnd Hall. destruct (good_ok s Hg) as [l0 Ho0].
  assert (ordered (moved_last l0 p) false s) as Ho.
  { apply (ordered_moved l0 p ltac:(lia) false s ep Ho0 Hep). rewrite Hpar. unfold no_parents.
    intros q. rewrite !elem_of_cons, elem_of_nil. tauto. }
  assert (Forall2 (child_of (moved_last l0 p) p s) idx_list es) as Hch.
  { eapply Forall2_impl; [exact Hall|]. intros i e (Hi & Hip & He & Hs). split_and!; try done; try lia.
    apply before_last; [|done]. rewrite (to_perm _ _ (or_topo _ _ _ Ho0)). apply elem_of_seqZ. lia. }
  set (l := moved_last l0 p) in *. clearbody l. clear Ho0 l0.
  assert (forall i, i ∈ idx_list -> 0 <= i < SYNX_GLOBAL_MAX_OBJS /\ i <> p) as Hin.
  { intros i (k & Hk)%list_elem_of_lookup. destruct (Forall2_lookup_l _ _ _ _ _ Hall Hk) as (e & _ & Hi & Hip & _).
    split; [lia|done]. }
  assert (0 < zlen idx_list <= SYNX_GLOBAL_MAX_OBJS) as Hlen.
  { destruct (NoDup_bound idx_list SYNX_GLOBAL_MAX_OBJS Hnd) as [|]; [by apply Hin| |done].
    split; [|done]. destruct idx_list; [done|]. unfold zlen. simpl. lia. }
  assert (p ∉ idx_list) as Hpin by (intros H; by apply (Hin p H)).
  assert (0 <= pending_children es < 2 ^ 16) as Hn16.
  { pose proof (pending_children_bound es). apply Forall2_length in Hall.
    revert Hlen. unfold zlen, SYNX_GLOBAL_MAX_OBJS in *. lia. }
  unfold synx_global_merge. eapply wp_on_table; [done|]. unfold synx_is_valid_idx.
  destruct (Z.ltb_spec p SYNX_GLOBAL_MAX_OBJS); [|lia]. destruct (Z.eqb_spec (zlen idx_list) 0) as [|_]; [lia|]. cbn [negb].
  apply wp_bind. eapply wp_mono.
  { apply (merge_children_linked l p ltac:(lia) ltac:(lia) s [] idx_list es); try done.
    - apply Hg.
    - intros q e Hq He. rewrite (good_pending s Hg q e Hq He). change (count q []) with 0. case_decide; lia.
    - intros j Hj. rewrite decide_False by apply not_elem_of_nil. by destruct (zget (sy_table s) j).
    - revert Hlen. unfold SYNX_GLOBAL_MAX_OBJS. lia. }
  intros out s1 (-> & Ho1 & Hl1 & Hpre1 & Hsame1). rewrite Z.add_0_l in *. cbn [app] in *.
  set (n := pending_children es) in *. set (st := merged_status es SYNX_STATE_ACTIVE) in *.
  assert (responsive s1) as Hr1 by (intros k; destruct Hsame1 as (_ & _ & -> & _); apply Hg).
  assert (zget (sy_table s1) p = Some ep) as Hep1.
  { rewrite (Hpre1 p) by lia. by rewrite decide_False, Hep. }
  assert (in_u32 st) as Hst.
  { apply merged_status_u32; [done|]. apply Forall_forall. intros e (k & Hk)%list_elem_of_lookup.
    destruct (Forall2_lookup_r _ _ _ _ _ Hall Hk) as (i & _ & _ & _ & He & _).
    destruct (good_ok s Hg) as [l1 Ho']. by eapply mw_entries; [apply Ho'|]. }
  apply wp_bind. eapply wp_mono; [by apply (merge_commit l p Hp n st s1 ep)|].
  intros rc s4 (-> & Ho4 & Hp4 & Hsame4 & Hep4 & Hother). apply wp_ret.
  destruct (rest_trans _ _ _ Hsame1 Hsame4) as (Hb & Hev & Hn4 & Hz). split_and!; [done| | |done| |done|done].
  - split; [by exists l|intros k; rewrite Hn4; apply Hg|done|apply Hz, Hg].
  - pose proof (Hp4 p _ ltac:(lia) Hep4) as Hc. change (count p []) with 0 in Hc. simpl in Hc.
    rewrite Hn, u16_small in Hc by lia. lia.
  - intros j Hj Hjp. rewrite Hother by done. by apply Hpre1.
Qed.
