(* ===== verification/SynxLife.v ===== *)
(** * The life of a synx object

    Allocation, references and recovery of the objects of [SynxGlobal]: an index is
    given out once, its handle names it, an entry is freed with its last reference and
    its index becomes free with it, and after the recovery from a core that stopped no
    object belongs to that core. *)

From stdpp Require Import base list list_numbers.
From S2P Require Import Prelude.
From S2P Require Import SynxGlobal.
From S2P Require Import SynxKeeps.
From S2P Require Import SynxPending.
From Stdlib Require Import Lia.
#[local] Open Scope Z_scope.

(** ** References *)

Inductive ref_op := GetRef | PutRef.

(** The specification: a counter that is dead at zero.  [None]: somebody drops what
    he does not own, or there are too many references. *)
Fixpoint ref_spec (n : Z) (ops : list ref_op) : option (list Z * Z) :=
  match ops with
  | [] => Some ([], n)
  | GetRef :: ops =>
      if n =? 0 then '(rs, n') ← ref_spec n ops; Some (- SYNX_NOENT :: rs, n')
      else if 2 ^ 16 <=? n + 1 then None
      else '(rs, n') ← ref_spec (n + 1) ops; Some (0 :: rs, n')
  | PutRef :: ops =>
      if n =? 0 then None else '(rs, n') ← ref_spec (n - 1) ops; Some (0 :: rs, n')
  end.

Definition run_ref_op (idx : Z) (op : ref_op) : SYNX Z :=
  match op with
  | GetRef => synx_global_get_ref idx
  | PutRef => synx_global_put_ref idx;;; ret 0
  end.

Fixpoint run_ref_ops (idx : Z) (ops : list ref_op) : SYNX (list Z) :=
  match ops with
  | [] => ret []
  | op :: ops => r <-- run_ref_op idx op; rs <-- run_ref_ops idx ops; ret (r :: rs)
  end.

(** The entry with [n] references left. *)
Definition refs_left (n : Z) (e : synx_global_coredata) : synx_global_coredata :=
  if n =? 0 then zero_coredata else e <| sg_refcount := n |>.

(** Entry [idx] has [n] references; the index is free exactly when it has none; the
    other entries and indices are those of [s0]. *)
Record has_refs (idx : Z) (e : synx_global_coredata) (n : Z) (s0 s : synx_state) : Prop := {
  hr_entry : zget (sy_table s) idx = Some (refs_left n e);
  hr_bit : bitmap_bit (sy_bitmap s) idx = negb (n =? 0);
  hr_others : forall j, j <> 0 -> j <> idx -> zget (sy_table s) j = zget (sy_table s0) j;
  hr_bits : forall j, 0 <= j -> j <> idx -> bitmap_bit (sy_bitmap s) j = bitmap_bit (sy_bitmap s0) j }.

(** The entry with one reference less. *)
Definition dropped (e : synx_global_coredata) : synx_global_coredata :=
  let e := e <| sg_refcount ::= fun r => u16 (r - 1) |> in
  if sg_refcount e =? 0 then zero_coredata else e.

Lemma drop_ref_done s idx e : zget (sy_table s) idx = Some e ->
  drop_ref idx s = Done (u16 (sg_refcount e - 1) =? 0) (s <| sy_table ::= zset idx (dropped e) |>).
Proof.
  intros He. unfold drop_ref. rewrite (bind_run _ _ _ _ _ (update_entry_run s idx _ _ He)).
  set (e1 := e <| sg_refcount ::= fun r => u16 (r - 1) |>).
  assert (zget (sy_table (s <| sy_table ::= zset idx e1 |>)) idx = Some e1) as He1.
  { apply zget_zset_eq. by eapply zget_Some. }
  rewrite (bind_run _ _ _ _ _ (get_entry_run _ idx _ He1)). unfold dropped. fold e1. cbv zeta.
  change (sg_refcount e1) with (u16 (sg_refcount e - 1)). case_match; [|done].
  unfold set_entry. erewrite bind_run by done. unfold ret, modify. simpl. by rewrite zset_zset.
Qed.

Section references.
Context (idx : Z) (Hidx : 0 < idx < SYNX_GLOBAL_MAX_OBJS).
Context (e : synx_global_coredata) (s0 : synx_state).
Context (Hhandle : sg_handle e <> 0) (Hchild : sg_num_child e = 0).
Context (Hslots : forall p, p <> 0 -> slots p e = 0).
Implicit Types (s : synx_state).

Lemma refs_left_slots n p : p <> 0 -> slots p (refs_left n e) = 0.
Proof. intros Hp. unfold refs_left. case_match; [done|]. by apply Hslots. Qed.

Lemma refs_left_books n n' : same_books (refs_left n e) (refs_left n' e).
Proof.
  split; [intros; by rewrite !refs_left_slots|]. unfold refs_left. repeat case_match; simpl; congruence.
Qed.

(** What an edit of the references leaves. *)
Lemma has_refs_edit l n n' s s1 :
  ordered l false s -> has_refs idx e n s0 s -> (n =? 0) = (n' =? 0) ->
  quiet (s <| sy_table ::= zset idx (refs_left n' e) |>) s1 -> has_refs idx e n' s0 s1.
Proof.
  intros Ho [He Hb Hj Hbj] Hn Hq. pose proof (zget_Some _ _ _ He). split.
  - rewrite (qu_entry _ _ Hq idx) by lia. by apply zget_zset_eq.
  - rewrite (qu_bitmap _ _ Hq), <- Hn. done.
  - intros j Hj0 Hji. rewrite (qu_entry _ _ Hq j Hj0). simpl. rewrite zget_zset_ne by done. by apply Hj.
  - intros j Hj0 Hji. rewrite (qu_bitmap _ _ Hq). by apply Hbj.
Qed.

Lemma refs_left_tamer n n' : n <> 0 -> 0 <= n' < 2 ^ 16 -> tamer (refs_left n e) (refs_left n' e).
Proof.
  intros H Hn'. unfold refs_left. destruct (Z.eqb_spec n 0); [done|].
  destruct (Z.eqb_spec n' 0); [apply tamer_zero|]. intros []. split; [|done]. by split.
Qed.

Lemma valid_idx_true : synx_is_valid_idx idx = true.
Proof. unfold synx_is_valid_idx. lia. Qed.

Lemma get_ref_run n s :
  synx_good s -> has_refs idx e n s0 s -> 0 <= n -> n + 1 < 2 ^ 16 ->
  wp (synx_global_get_ref idx)
     (fun r s' => r = (if n =? 0 then - SYNX_NOENT else 0) /\ synx_good s' /\
        has_refs idx e (if n =? 0 then 0 else n + 1) s0 s') s.
Proof.
  intros Hg Hr Hn Hn1. destruct (good_ok s Hg) as [l Ho]. eapply wp_on_table; [done|].
  rewrite valid_idx_true. cbn [negb]. set (n' := if n =? 0 then 0 else n + 1).
  assert ((n =? 0) = (n' =? 0)) as Hz by (unfold n'; destruct (Z.eqb_spec n 0); lia).
  eapply (wp_edit l s _ idx (refs_left n e) (refs_left n' e) (if n =? 0 then - SYNX_NOENT else 0)); [done|done|lia|apply Hr| |apply refs_left_books| |].
  - unfold n'. destruct (Z.eqb_spec n 0) as [->|]; [apply tamer_id|]. apply refs_left_tamer; lia.
  - intros s1 He1. rewrite (bind_run _ _ _ _ _ (get_entry_run s1 idx _ He1)). unfold n'.
    destruct (Z.eqb_spec n 0) as [->|E].
    + change (refs_left 0 e) with zero_coredata in *. unfold ret, modify, eta_synx. simpl.
      rewrite zset_id by done. by destruct s1.
    + unfold refs_left. destruct (Z.eqb_spec n 0); [done|]. destruct (Z.eqb_spec (n + 1) 0); [lia|].
      change (sg_handle (e <| sg_refcount := n |>)) with (sg_handle e).
      change (sg_refcount (e <| sg_refcount := n |>)) with n.
      destruct (Z.eqb_spec (sg_handle e) 0); [done|]. destruct (Z.eqb_spec n 0); [done|]. cbn [negb andb].
      unfold set_entry. erewrite bind_run by done. unfold ret. unfold modify, eta_coredata, eta_synx.
      cbn [sg_status sg_handle sg_refcount sg_num_child sg_subscribers sg_waiters sg_parents sg_h_hwfence].
      by rewrite u16_small by lia.
  - intros s1 Hg1 Ho1 Hq1. split; [done|]. split; [done|]. by apply (has_refs_edit l n n' s s1).
Qed.

Lemma good_bitmap l s bm : synx_good s -> ordered l false (s <| sy_bitmap := bm |>) -> synx_good (s <| sy_bitmap := bm |>).
Proof. intros [_ Hr Hp Hz] Ho. by split; [exists l|..]. Qed.

Lemma drop_ref_run s n : 0 < n < 2 ^ 16 -> zget (sy_table s) idx = Some (refs_left n e) ->
  drop_ref idx s = Done (n =? 1) (s <| sy_table ::= zset idx (refs_left (n - 1) e) |>).
Proof.
  intros Hn He. rewrite (drop_ref_done s idx _ He). unfold dropped, refs_left.
  destruct (Z.eqb_spec n 0); [lia|]. simpl. rewrite u16_small by lia.
  by destruct (Z.eqb_spec (n - 1) 0), (Z.eqb_spec n 1); try lia.
Qed.

Lemma put_ref_run n s :
  synx_good s -> has_refs idx e n s0 s -> 0 < n < 2 ^ 16 ->
  wp (synx_global_put_ref idx) (fun _ s' => synx_good s' /\ has_refs idx e (n - 1) s0 s') s.
Proof.
  intros Hg Hr Hn. destruct (good_ok s Hg) as [l Ho]. eapply wp_on_table; [done|].
  rewrite valid_idx_true. cbn [negb]. apply wp_bind.
  eapply (wp_edit l s _ idx (refs_left n e) (refs_left (n - 1) e) (n =? 1)); [done|done|lia|apply Hr| |apply refs_left_books| |].
  - apply refs_left_tamer; lia.
  - intros s1 He1. by apply drop_ref_run.
  - intros s1 Hg1 Ho1 Hq1. destruct Hr as [He Hb Hj Hbj]. pose proof (zget_Some _ _ _ He).
    assert (zget (sy_table s1) idx = Some (refs_left (n - 1) e)) as He1.
    { rewrite (qu_entry _ _ Hq1 idx) by lia. by apply zget_zset_eq. }
    assert (forall j, j <> 0 -> j <> idx -> zget (sy_table s1) j = zget (sy_table s0) j) as Hj1.
    { intros j Hj0 Hji. rewrite (qu_entry _ _ Hq1 j Hj0). simpl. rewrite zget_zset_ne by done. by apply Hj. }
    destruct (Z.eqb_spec n 1) as [->|Hne].
    + destruct (clear_index_run l false s1 idx Ho1 ltac:(lia)) as (bm & Hrun & Hob & Hc & Hcj).
      eapply wp_done; [exact Hrun|]. split; [by eapply good_bitmap|]. split; [done|done|done|].
      intros j Hj0 Hji. simpl. rewrite Hcj by done. rewrite (qu_bitmap _ _ Hq1). by apply Hbj.
    + apply wp_ret. split; [done|]. split; [done| |done|].
      * rewrite (qu_bitmap _ _ Hq1). simpl. rewrite Hb. by destruct (Z.eqb_spec n 0), (Z.eqb_spec (n - 1) 0); try lia.
      * intros j Hj0 Hji. rewrite (qu_bitmap _ _ Hq1). by apply Hbj.
Qed.

Lemma ref_ops_run ops n rs n' s :
  ref_spec n ops = Some (rs, n') -> 0 <= n < 2 ^ 16 -> synx_good s -> has_refs idx e n s0 s ->
  wp (run_ref_ops idx ops) (fun rs' s' => rs' = rs /\ synx_good s' /\ has_refs idx e n' s0 s') s.
Proof.
  revert n rs s. induction ops as [|op ops IH]; intros n rs s Hspec Hn Hg Hr; cbn [ref_spec run_ref_ops] in *.
  { injection Hspec as <- <-. by apply wp_ret. }
  assert (exists r n1 rs1, rs = r :: rs1 /\ ref_spec n1 ops = Some (rs1, n') /\ 0 <= n1 < 2 ^ 16 /\
    wp (run_ref_op idx op) (fun r' s' => r' = r /\ synx_good s' /\ has_refs idx e n1 s0 s') s)
    as (r & n1 & rs1 & -> & Hspec1 & Hn1 & Hop).
  { destruct op.
    - destruct (Z.eqb_spec n 0) as [->|H0].
      + apply bind_Some in Hspec as ([rs1 n1] & Hs & [= <- <-]). exists (- SYNX_NOENT), 0, rs1.
        split_and!; [done..|]. by apply (get_ref_run 0).
      + destruct (Z.leb_spec (2 ^ 16) (n + 1)); [done|].
        apply bind_Some in Hspec as ([rs1 n1] & Hs & [= <- <-]). exists 0, (n + 1), rs1.
        split_and!; [done|done|lia|lia|]. eapply wp_mono; [apply (get_ref_run n); [done|done|lia|lia]|].
        intros r' s'. by destruct (Z.eqb_spec n 0).
    - destruct (Z.eqb_spec n 0) as [->|H0]; [done|].
      apply bind_Some in Hspec as ([rs1 n1] & Hs & [= <- <-]). exists 0, (n - 1), rs1.
      split_and!; [done|done|lia|lia|]. apply wp_bind. eapply wp_mono; [apply (put_ref_run n); [done|done|lia]|].
      intros ? s' ?. by apply wp_ret. }
  apply wp_bind. eapply wp_mono; [exact Hop|]. intros r' s1 (-> & Hg1 & Hr1).
  apply wp_bind. eapply wp_mono; [by apply (IH n1 rs1)|]. intros rs' s2 (-> & Hg2 & Hr2). by apply wp_ret.
Qed.
End references.

(** C11: Any sequence of [synx_global_get_ref] and [synx_global_put_ref] on an object
    that no composite waits for refines a counter: the entry is wiped and its index
    becomes free with the last reference, a dead object cannot be revived, and no other
    entry or index is touched. *)
Theorem object_refs_refine_counter idx e ops rs n' s :
  synx_good s -> 0 < idx < SYNX_GLOBAL_MAX_OBJS -> zget (sy_table s) idx = Some e ->
  sg_handle e <> 0 -> sg_refcount e <> 0 -> sg_num_child e = 0 ->
  (unsettled e = false \/ sg_parents e = no_parents) -> bitmap_bit (sy_bitmap s) idx = true ->
  ref_spec (sg_refcount e) ops = Some (rs, n') ->
  wp (run_ref_ops idx ops) (fun rs' s' => rs' = rs /\ synx_good s' /\ has_refs idx e n' s s') s.
Proof.
  intros Hg Hi He Hh Hr Hn Hs Hb Hspec. destruct (good_ok s Hg) as [l Ho].
  pose proof (mw_entries _ (or_mem _ _ _ Ho) _ _ He) as Hw.
  apply (ref_ops_run idx Hi e s Hh Hn) with (n := sg_refcount e); [|done| |done|].
  - intros p Hp. unfold slots. destruct Hs as [->| ->]; [done|]. case_match; [by apply count_no_parents|done].
  - apply Hw.
  - split; [|by rewrite Hb; destruct (Z.eqb_spec (sg_refcount e) 0)|done..].
    unfold refs_left. destruct (Z.eqb_spec (sg_refcount e) 0); [done|]. rewrite He. by destruct e.
Qed.

(** ** Allocation *)

(** C21: The allocation returns, however many races it loses to other processors: with an
    index that was free and that nobody else took, or with the answer that none is
    left; the table is not touched. *)
Theorem alloc_index_spec s :
  synx_ok s ->
  wp synx_global_alloc_index
     (fun out s' => synx_ok s' /\ sy_table s' = sy_table s /\
                    alloc_result (sy_bitmap s) out (sy_bitmap s')) s.
Proof.
  intros [l Ho]. eapply wp_on_table; [done|].
  eapply wp_mono; [apply alloc_loop_spec; [done|apply Nat.lt_succ_r, zeros_bound]|].
  intros out s' (? & ? & _ & ?). split_and!; [by exists l|done..].
Qed.

(** A handle encodes its index. *)
Lemma handle_facts i : 0 <= i < SYNX_GLOBAL_MAX_OBJS ->
  synx_util_global_idx (synx_encode_handle i SYNX_CORE_APSS true) = i /\
  Z.land (synx_encode_handle i SYNX_CORE_APSS true) SYNX_HANDLE_INDEX_MASK = i /\
  synx_util_is_global_handle (synx_encode_handle i SYNX_CORE_APSS true) = true.
Proof.
  intros Hi. assert (forallb (fun i =>
    let h := synx_encode_handle i SYNX_CORE_APSS true in
    (synx_util_global_idx h =? i) && (Z.land h SYNX_HANDLE_INDEX_MASK =? i) && synx_util_is_global_handle h)
    (seqZ 0 SYNX_GLOBAL_MAX_OBJS) = true) as H by by vm_compute.
  rewrite forallb_forall in H. specialize (H i). rewrite <- list_elem_of_In, elem_of_seqZ in H.
  specialize (H ltac:(lia)). cbv beta zeta in H. apply andb_true_iff in H as [[H1 H2]%andb_true_iff H3].
  split_and!; [lia|lia|done].
Qed.

(** The entries of free indices are wiped. *)
Definition free_cleared (s : synx_state) : Prop :=
  forall i, 0 < i < SYNX_GLOBAL_MAX_OBJS -> bitmap_bit (sy_bitmap s) i = false ->
    zget (sy_table s) i = Some zero_coredata.

Lemma init_coredata_run s i :
  synx_good s -> 0 < i < SYNX_GLOBAL_MAX_OBJS -> zget (sy_table s) i = Some zero_coredata ->
  let h := synx_encode_handle i SYNX_CORE_APSS true in
  wp (synx_global_init_coredata h)
     (fun rc s' => rc = 0 /\ synx_good s' /\ quiet (s <| sy_table ::= zset i (fresh_coredata h) |>) s') s.
Proof.
  intros Hg Hi He h. destruct (handle_facts i ltac:(lia)) as (_ & Hidx & _). fold h in Hidx.
  destruct (good_ok s Hg) as [l Ho]. unfold synx_global_init_coredata. rewrite Hidx.
  eapply wp_on_table; [done|]. unfold synx_is_valid_idx.
  destruct (Z.ltb_spec i SYNX_GLOBAL_MAX_OBJS); [|lia]. cbn [negb].
  eapply (wp_edit l s _ i zero_coredata (fresh_coredata h) 0); [done|done|lia|done| | | |].
  - apply tamer_fresh, encode_handle_u32. lia.
  - split; [|done]. intros p Hp. by apply count_no_parents.
  - intros s1 He1. by rewrite (bind_run _ _ _ _ _ (get_entry_run s1 i _ He1)).
  - by intros.
Qed.

(** C16: A new handle names a free index of its own: decoding it gives the index back,
    the entry is a fresh active object with one reference of this processor, nothing
    else in the table changes, and the table is good again. *)
Theorem alloc_handle_names_index s :
  synx_good s -> free_cleared s -> bitmap_bit (sy_bitmap s) 0 = true ->
  wp synx_alloc_global_handle
     (fun out s' => synx_good s' /\
        match out with
        | (rc, Some h) =>
            let i := synx_util_global_idx h in
            rc = 0 /\ synx_util_is_global_handle h = true /\ 0 < i < SYNX_GLOBAL_MAX_OBJS /\
            bitmap_bit (sy_bitmap s) i = false /\ bitmap_bit (sy_bitmap s') i = true /\
            zget (sy_table s') i = Some (fresh_coredata h) /\
            forall j, j <> 0 -> j <> i -> zget (sy_table s') j = zget (sy_table s) j
        | (rc, None) => rc = - SYNX_NOMEM
        end) s.
Proof.
  intros Hg Hfree H0. destruct (good_ok s Hg) as [l Ho]. unfold synx_alloc_global_handle. apply wp_bind.
  eapply wp_on_table; [done|].
  eapply wp_mono; [apply (alloc_loop_spec l); [done|apply Nat.lt_succ_r, zeros_bound]|].
  intros out s1 (Ho1 & Ht & Hn & Hres).
  assert (synx_good s1) as Hg1.
  { split; [by exists l|intros n; rewrite Hn; apply Hg|intros p e Hp; rewrite Ht; by apply Hg|].
    intros e. rewrite Ht. apply Hg. }
  destruct out as [rc [i|]]; [|apply wp_ret; split; [done|apply Hres]].
  destruct Hres as (-> & Hi & Hbit & bm1 & Hf & _ & Hbm).
  assert (0 < i < SYNX_GLOBAL_MAX_OBJS) as Hi0 by (destruct (decide (i = 0)) as [->|]; [congruence|lia]).
  destruct (handle_facts i Hi) as (Hidx & _ & Hglob).
  apply wp_bind. eapply wp_mono; [apply (init_coredata_run s1 i); [done|done|rewrite Ht; by apply Hfree]|].
  intros rc s2 (-> & Hg2 & Hq). apply wp_ret. split; [done|]. cbv zeta. rewrite Hidx.
  assert (zlen (sy_table s1) = SYNX_GLOBAL_MAX_OBJS) as Hlen by apply (ordered_zlen _ _ _ Ho1).
  split_and!; [done|done|lia|lia|done| | |].
  - rewrite (qu_bitmap _ _ Hq). simpl. rewrite Hbm. unfold take_bit.
    destruct (zget bm1 (i / 32)) as [w|] eqn:Ew; [by rewrite (bitmap_bit_set _ _ _ _ Ew), bool_decide_true, orb_true_r|].
    exfalso. pose proof (idx_word i Hi). pose proof (mw_bitmap _ (or_mem _ _ _ Ho1)) as Hbl. rewrite Hbm in Hbl.
    unfold take_bit in Hbl. rewrite Ew in Hbl. destruct (zget_is_Some bm1 (i / 32)) as [w Hw]; [lia|congruence].
  - rewrite (qu_entry _ _ Hq i) by lia. simpl. apply zget_zset_eq. lia.
  - intros j Hj Hji. rewrite (qu_entry _ _ Hq j Hj). simpl. rewrite zget_zset_ne by done. by rewrite Ht.
Qed.

(** ** Recovery *)

(** [core] holds a reference to the entry. *)
Definition subscribed (core : Z) (e : synx_global_coredata) : bool := flag (sg_subscribers e) (BIT core).

(** Only entries from [lo] on can be subscribed by [core], and they are in use. *)
Definition owned_from (core lo : Z) (s : synx_state) : Prop :=
  forall i e, i <> 0 -> zget (sy_table s) i = Some e -> subscribed core e = true ->
    lo <= i /\ bitmap_bit (sy_bitmap s) i = true /\ sg_refcount e <> 0.

(** An edit that gives [core] nothing. *)
Definition no_gain (core : Z) (e e' : synx_global_coredata) : Prop :=
  subscribed core e' = true -> subscribed core e = true /\ (sg_refcount e <> 0 -> sg_refcount e' <> 0).

(** What is said of single entries while recovery runs. *)
Definition entry_claim : Type := Z -> synx_global_coredata -> Prop.

Definition claimed (R : entry_claim) (s : synx_state) : Prop :=
  forall i e, i <> 0 -> zget (sy_table s) i = Some e -> R i e.

Section recovery.
Context (l : list Z) (core : Z) (env : synx_environment).
Implicit Types (s : synx_state) (e : synx_global_coredata) (R : entry_claim).

Record recovering (R : entry_claim) (b : bool) (lo : Z) (s : synx_state) : Prop := {
  rc_ordered : ordered l b s;
  rc_owned : owned_from core lo s;
  rc_env : sy_env s = env;
  rc_claim : claimed R s }.

Lemma quiet_owned lo s s' : quiet s s' -> owned_from core lo s -> owned_from core lo s'.
Proof.
  intros Hq Ho i e Hi He Hs. rewrite (qu_entry _ _ Hq i Hi) in He. rewrite (qu_bitmap _ _ Hq). by apply Ho.
Qed.

Lemma recovering_quiet R b b' lo s s' :
  recovering R b lo s -> ordered l b' s' -> quiet s s' -> recovering R b' lo s'.
Proof.
  intros [_ Hw He Hc] Ho Hq. split; [done|by eapply quiet_owned|by rewrite (qu_env _ _ Hq)|].
  intros i e Hi Hie. rewrite (qu_entry _ _ Hq i Hi) in Hie. by apply Hc.
Qed.

Lemma recovering_weaken R R' b lo s :
  recovering R b lo s -> (forall i e, i <> 0 -> R i e -> R' i e) -> recovering R' b lo s.
Proof. intros [Ho Hw He Hc] H. split; [done..|]. intros i e Hi Hie. apply H; [done|]. by apply Hc. Qed.

Lemma subscribed_zero : subscribed core zero_coredata = false.
Proof. done. Qed.

Lemma no_gain_zero e : no_gain core e zero_coredata.
Proof. intros H. by rewrite subscribed_zero in H. Qed.

(** Entry [i] changes, and with it what is claimed. *)
Lemma recovering_set R R' b lo s i e e' :
  recovering R b lo s -> zget (sy_table s) i = Some e -> ordered l b (s <| sy_table ::= zset i e' |>) ->
  no_gain core e e' -> (R i e -> R' i e') -> (forall j ej, j <> 0 -> j <> i -> R j ej -> R' j ej) ->
  recovering R' b lo (s <| sy_table ::= zset i e' |>).
Proof.
  intros [Ho Hw Hen Hc] He Ho' Hng Hi Hj. split; [done| |done|].
  - intros j ej Hj0 Hej Hs. simpl in *.
    rewrite zget_zset in Hej. case_decide as Hd; [|by apply Hw]. destruct Hd as [<- _]. injection Hej as <-.
    destruct (Hng Hs) as [Hs' Hr]. destruct (Hw i e Hj0 He Hs') as (? & ? & ?). by split_and!; [..|apply Hr].
  - intros j ej Hj0 Hej. simpl in Hej. rewrite zget_zset in Hej. case_decide as Hd.
    + destruct Hd as [<- _]. injection Hej as <-. apply Hi. by apply Hc.
    + destruct (decide (j = i)) as [->|Hne]; [|by apply Hj, Hc].
      pose proof (zget_Some _ _ _ He). destruct Hd. by split.
Qed.

(** A critical section keeps the invariant if its body does; it is skipped only when the
    lock is busy. *)
Lemma recovering_locked {A} R lo s (f : Z -> A) (body : SYNX A) (Q : A -> synx_state -> Prop) :
  recovering R false lo s ->
  ((exists n, env_lock_busy env n = true) -> forall s', recovering R false lo s' -> Q (f (- ETIMEDOUT)) s') ->
  (forall s1, recovering R true lo s1 ->
     wp body (fun a s2 => exists R' lo', recovering R' true lo' s2 /\
       forall s3, recovering R' false lo' s3 -> quiet s2 s3 -> Q a s3) s1) ->
  wp (locked f body) Q s.
Proof.
  intros Hr Hfail Hbody. eapply wp_locked_frame; [apply Hr| |].
  - intros Hb s' Ho' Hq. apply Hfail; [|by eapply recovering_quiet].
    rewrite (rc_env _ _ _ _ Hr) in Hb. by eexists.
  - intros s1 Ho1 Hq1. eapply wp_mono; [apply Hbody; by eapply recovering_quiet|].
    intros a s2 (R' & lo' & Hr2 & HQ). split; [apply Hr2|]. intros s3 Ho3 Hq3. apply HQ; [|done].
    by eapply recovering_quiet.
Qed.

Lemma signaled_no_gain status e : no_gain core e (signaled_entry status e).1 /\
  ((signaled_entry status e).2.1.1.2 = true -> (signaled_entry status e).1 = zero_coredata).
Proof.
  unfold signaled_entry. destruct (negb _); [|by split].
  set (e2 := (child_notified status e) <| sg_waiters := 0 |> <| sg_refcount ::= fun r => u16 (r - 1) |>).
  destruct (_ =? 0); cbn [fst snd]; [|by split].
  match goal with |- context [if ?c =? 0 then _ else ?x] => destruct (Z.eqb_spec c 0) as [E|E] end.
  - split; [apply no_gain_zero|done].
  - split; [|done]. intros Hs. by split.
Qed.

Lemma recovering_clear R lo s idx :
  recovering R false lo s -> 0 < idx < SYNX_GLOBAL_MAX_OBJS ->
  (forall e, zget (sy_table s) idx = Some e -> subscribed core e = false) ->
  exists s', clear_index idx s = Done tt s' /\ recovering R false lo s' /\ sy_table s' = sy_table s /\
    forall i, 0 <= i -> bitmap_bit (sy_bitmap s') i = bitmap_bit (sy_bitmap s) i && negb (i =? idx).
Proof.
  intros [Ho Hw Hen Hc] Hi Hns.
  destruct (clear_index_run l false s idx Ho ltac:(lia)) as (bm & Hrun & Hob & Hbit & Hbits).
  eexists. split; [exact Hrun|]. split; [|split; [done|]].
  - split; [done| |done|done]. intros i e Hi0 He Hs. simpl in *.
    pose proof (zget_Some _ _ _ He). destruct (decide (i = idx)) as [->|Hne]; [rewrite (Hns e He) in Hs; done|].
    rewrite Hbits by (lia || done). by apply Hw.
  - intros i Hi0. simpl. destruct (Z.eqb_spec i idx) as [->|Hne]; [by rewrite Hbit, andb_false_r|].
    by rewrite Hbits, andb_true_r.
Qed.

Lemma recovering_notify R lo status data cores s :
  recovering R false lo s -> wp (notify_cores status data cores) (fun _ s' => recovering R false lo s') s.
Proof.
  intros [Ho Hw Hen Hc]. assert (forall i k, wp (send_from i k data) (fun _ s' => recovering R false lo s') s) as H.
  { intros i k. destruct (send_from_run i k data s) as (evs & Hrun & _). eapply wp_done; [done|].
    split; [|done..]. destruct Ho as [[] [] ?]. split; [by split|by split|done]. }
  unfold notify_cores. repeat case_match; [by apply wp_ret|apply H..].
Qed.

Lemma recovering_parents R lo (signal : Z -> SYNX Z) parents s :
  Forall (fun p => p <> 0 -> forall s, recovering R false lo s -> wp (signal p) (fun _ s' => recovering R false lo s') s) parents ->
  recovering R false lo s -> wp (notify_parents signal parents) (fun _ s' => recovering R false lo s') s.
Proof.
  intros Hall. revert s. induction Hall as [|p parents Hp _ IH]; intros s Hr; simpl; [by apply wp_ret|].
  apply wp_bind. destruct (Z.eqb_spec p 0); [by apply wp_ret, IH|].
  apply wp_bind. eapply wp_mono; [by apply Hp|]. intros ? s1 Hr1. by apply wp_ret, IH.
Qed.

(** The claim [R] turns into [R'] when [idx] is signaled with [status]. *)
Record signals_claim (status idx : Z) (R R' : entry_claim) : Prop := {
  si_on : forall e, R idx e -> R' idx (signaled_entry status e).1;
  si_off : forall j e, j <> idx -> R j e -> R' j e;
  si_busy : (exists n, env_lock_busy env n = true) -> forall e, R idx e -> R' idx e }.

Lemma recovering_core fuel idx status lo R R' :
  in_u32 status -> 0 <= idx < SYNX_GLOBAL_MAX_OBJS -> signals_claim status idx R R' ->
  (forall p, 0 <= p < SYNX_GLOBAL_MAX_OBJS -> before l idx p -> p <> 0 -> forall s, recovering R' false lo s ->
     wp (synx_global_update_status_core fuel p status) (fun _ s' => recovering R' false lo s') s) ->
  idx <> 0 -> forall s, recovering R false lo s ->
  wp (synx_global_update_status_core (S fuel) idx status) (fun _ s' => recovering R' false lo s') s.
Proof.
  intros Hst Hi [Hon Hoff Hbusy] IH Hi0 s Hr. cbn [synx_global_update_status_core]. apply wp_bind.
  eapply recovering_locked; [done| |].
  { intros Hb s' Hr'. apply wp_ret. eapply recovering_weaken; [done|]. intros i e _.
    destruct (decide (i = idx)) as [->|]; [by apply Hbusy|by apply Hoff]. }
  intros s1 Hr1. pose proof (rc_ordered _ _ _ _ Hr1) as Ho1.
  destruct (entry_at s1 idx (or_mem _ _ _ Ho1) Hi) as [e He].
  pose proof (signal_entry_run status s1 idx e He) as Hrun.
  pose proof (signal_entry_keeps l s1 idx status Ho1 Hi Hst) as Hkeep.
  unfold wp in Hkeep. rewrite Hrun in Hkeep. destruct Hkeep as [Ho2 Hpar].
  destruct (signaled_no_gain status e) as [Hng Hclr].
  assert (zget (zset idx (signaled_entry status e).1 (sy_table s1)) idx = Some (signaled_entry status e).1) as He2.
  { apply zget_zset_eq. by eapply zget_Some. }
  pose proof (recovering_set R R' true lo s1 idx e _ Hr1 He Ho2 Hng (Hon e) (fun j ej _ => Hoff j ej)) as Hr2.
  destruct (signaled_entry status e) as [e' [[[data cleared] cores] parents]]. cbn [fst snd] in *.
  apply wp_bind. eapply wp_done; [exact Hrun|]. apply wp_ret. exists R', lo. split; [done|]. intros s3 Hr3 Hq3.
  assert (exists s4, (when cleared do clear_index idx) s3 = Done tt s4 /\ recovering R' false lo s4) as (s4 & Hrun4 & Hr4).
  { destruct cleared; [|by exists s3]. destruct (recovering_clear R' lo s3 idx Hr3 ltac:(lia)) as (s4 & ? & ? & _); [|by exists s4].
    intros e3. rewrite (qu_entry _ _ Hq3 idx Hi0). simpl. rewrite He2, (Hclr eq_refl). intros [= <-]. apply subscribed_zero. }
  apply wp_bind. eapply wp_done; [exact Hrun4|]. apply wp_bind. eapply wp_mono; [by apply recovering_notify|].
  intros ? s5 Hr5. apply wp_bind. eapply wp_mono; [eapply recovering_parents; [|exact Hr5]|intros; by apply wp_ret].
  eapply Forall_impl; [exact Hpar|]. simpl. intros p Hp Hp0. destruct (Hp Hp0). by apply IH.
Qed.

(** Signaling [idx], when [R'] is stable under signals and holds anyway of an entry that
    is not signaled because it is composite or not active. *)
Lemma recovering_update lo idx status s R R' :
  in_u32 status -> SYNX_STATE_ACTIVE < status -> 0 < idx < SYNX_GLOBAL_MAX_OBJS ->
  signals_claim status idx R R' -> (forall p, 0 < p -> signals_claim status p R' R') ->
  (forall e, R idx e -> sg_num_child e <> 0 \/ sg_status e <> SYNX_STATE_ACTIVE -> R' idx e) ->
  recovering R false lo s ->
  wp (synx_global_update_status idx status) (fun _ s' => recovering R' false lo s') s.
Proof.
  intros Hst Hpos Hi Hsig Hstable Hskip Hr. eapply wp_on_table; [apply Hr|]. unfold synx_is_valid_idx.
  destruct (Z.ltb_spec idx SYNX_GLOBAL_MAX_OBJS); [|lia]. destruct (Z.leb_spec status SYNX_STATE_ACTIVE); [lia|].
  cbn [negb orb]. assert (forall s', recovering R false lo s' -> (forall e, R idx e -> R' idx e) -> recovering R' false lo s') as Hquit.
  { intros s' Hr' Hall. eapply recovering_weaken; [done|]. intros i e _.
    destruct (decide (i = idx)) as [->|]; [apply Hall|by apply (si_off _ _ _ _ Hsig)]. }
  apply wp_bind. eapply recovering_locked; [done| |].
  { intros Hb s' Hr'. apply wp_ret. apply Hquit; [done|]. by apply (si_busy _ _ _ _ Hsig). }
  intros s1 Hr1.
  destruct (entry_at s1 idx (or_mem _ _ _ (rc_ordered _ _ _ _ Hr1)) ltac:(lia)) as [e He].
  apply wp_bind. eapply wp_done; [by apply get_entry_run|]. apply wp_ret. exists R, lo. split; [done|].
  intros s3 Hr3 Hq3.
  assert (forall s', recovering R false lo s' -> sy_table s' = sy_table s3 ->
    sg_num_child e <> 0 \/ sg_status e <> SYNX_STATE_ACTIVE -> recovering R' false lo s') as Hearly.
  { intros s' [Ho' Hw' Hen' Hc'] Et Hor. split; [done..|]. intros i ei Hi0 Hei.
    destruct (decide (i = idx)) as [->|Hne]; [|apply (si_off _ _ _ _ Hsig); [done|by apply Hc']].
    apply Hskip; [by apply Hc'|]. rewrite Et, (qu_entry _ _ Hq3 idx) in Hei by lia. simpl in Hei. congruence. }
  destruct (Z.eqb_spec (sg_num_child e) 0) as [Hn|Hn]; cbn [negb]; [|apply wp_ret; by apply (Hearly s3); auto].
  destruct (Z.eqb_spec (sg_status e) SYNX_STATE_ACTIVE); cbn [negb]; [|apply wp_ret; by apply (Hearly s3); auto].
  assert (topo l s) as Ht by apply Hr.
  assert (forall fuel i, 0 <= i < SYNX_GLOBAL_MAX_OBJS ->
    (forall p, 0 <= p < SYNX_GLOBAL_MAX_OBJS -> before l i p -> p <> 0 -> forall s, recovering R' false lo s ->
       wp (synx_global_update_status_core fuel p status) (fun _ s' => recovering R' false lo s') s) ->
    i <> 0 -> forall s, recovering R' false lo s ->
    wp (synx_global_update_status_core (S fuel) i status) (fun _ s' => recovering R' false lo s') s) as Hstep
    by (intros fuel i Hi' IH Hi0 s'; apply recovering_core; auto; apply Hstable; lia).
  revert s3 Hr3 Hq3 Hearly.
  enough (forall s3, recovering R false lo s3 -> wp (synx_global_update_status_core (Z.to_nat SYNX_GLOBAL_MAX_OBJS) idx status)
    (fun _ s' => recovering R' false lo s') s3) as H' by (intros s3 Hr3 _ _; by apply H').
  apply (climb l (fun fuel j => (j <> 0 -> forall s, recovering R' false lo s ->
    wp (synx_global_update_status_core fuel j status) (fun _ s' => recovering R' false lo s') s) /\
    (j = idx -> forall s, recovering R false lo s ->
    wp (synx_global_update_status_core fuel j status) (fun _ s' => recovering R' false lo s') s)) s); [done| |lia|done].
  intros fuel i Hi' IH. split.
  - apply Hstep; [done|]. intros p Hp Hb. by apply IH.
  - intros -> s'. apply (recovering_core fuel idx status lo R R'); [done|lia|done| |lia].
    intros p Hp Hb. by apply IH.
Qed.
End recovery.


(** Nothing but the signal of recovery changes the state of an object. *)
Definition only_ssr (e0 e : synx_global_coredata) : Prop :=
  sg_status e = sg_status e0 \/ sg_status e = SYNX_STATE_SIGNALED_SSR.

Lemma only_ssr_trans e0 e e' : only_ssr e0 e -> only_ssr e e' -> only_ssr e0 e'.
Proof. unfold only_ssr. intros H [-> | ->]; [done|by right]. Qed.

(** An object that is no composite one, before its turn. *)
Definition plain_left (e0 e : synx_global_coredata) : Prop :=
  sg_num_child e = 0 /\ sg_refcount e = sg_refcount e0 /\ sg_subscribers e = sg_subscribers e0 /\ only_ssr e0 e.

(** After its turn: a reference of [core] is gone; if it was the last one the entry is wiped,
    if not, and if [told], the object is not active any more. *)
Definition plain_released (core : Z) (told : Prop) (e0 e : synx_global_coredata) : Prop :=
  if subscribed core e0 then
    sg_num_child e = 0 /\ sg_refcount e = sg_refcount e0 - 1 /\
    if sg_refcount e0 =? 1 then sg_subscribers e = 0
    else sg_subscribers e = clear (sg_subscribers e0) (BIT core) /\ only_ssr e0 e /\
         (told -> sg_status e <> SYNX_STATE_ACTIVE)
  else plain_left e0 e.

Section recovery_loop.
Context (l : list Z) (core : Z) (env : synx_environment) (tbl : list synx_global_coredata).
Context (Hused : forall i e0, i <> 0 -> zget tbl i = Some e0 ->
  in_u16 (sg_refcount e0) /\ (subscribed core e0 = true -> sg_refcount e0 <> 0)).
Implicit Types (s : synx_state) (e : synx_global_coredata).

Definition calm : Prop := forall n, env_lock_busy env n = false.

(** The entries before [lo] had their turn; [x], if not 0, is still to be told. *)
Definition turned (lo x : Z) : entry_claim := fun i e =>
  forall e0, zget tbl i = Some e0 -> sg_num_child e0 = 0 ->
    if i <? lo then plain_released core (i <> x /\ calm) e0 e else plain_left e0 e.

Abbreviation on_way lo x := (recovering l core env (turned lo x) false lo).

Lemma plain_signaled status e : sg_num_child e = 0 ->
  (signaled_entry status e).1 = e <| sg_status := status |> <| sg_waiters := 0 |>.
Proof. intros Hn. unfold signaled_entry. by rewrite Hn. Qed.

Lemma turned_plain lo x i e e0 : turned lo x i e -> zget tbl i = Some e0 -> sg_num_child e0 = 0 -> sg_num_child e = 0.
Proof.
  intros H He Hn. specialize (H e0 He Hn). unfold plain_released, plain_left in H.
  destruct (i <? lo); [|apply H]. by destruct (subscribed core e0); destruct H.
Qed.

(** A change of the state only, to what recovery signals or to no change. *)
Lemma plain_released_state e0 e e' (P P' : Prop) :
  plain_released core P e0 e -> sg_num_child e' = sg_num_child e ->
  sg_refcount e' = sg_refcount e -> sg_subscribers e' = sg_subscribers e -> only_ssr e e' ->
  (P' -> P \/ sg_status e' <> SYNX_STATE_ACTIVE) -> plain_released core P' e0 e'.
Proof.
  intros H Hn Hr Hs Ho HP. unfold plain_released, plain_left in *. rewrite Hn, Hr, Hs.
  destruct (subscribed core e0).
  - destruct H as (H1 & H2 & H3). split; [done|]. split; [done|].
    destruct (sg_refcount e0 =? 1); [done|]. destruct H3 as (H3 & H4 & H5). split; [done|].
    split; [by eapply only_ssr_trans|]. intros HP'.
    destruct (HP HP') as [HP1|?]; [|done]. destruct Ho as [-> | ->]; [by apply H5|done].
  - destruct H as (H1 & H2 & H3 & H4). split_and!; [done..|]. by eapply only_ssr_trans.
Qed.

Lemma turned_signal lo x y p :
  0 < p -> y = x \/ (y = 0 /\ x = p) ->
  signals_claim env SYNX_STATE_SIGNALED_SSR p (turned lo x) (turned lo y).
Proof.
  intros Hp Hxy. split.
  - intros e H e0 He Hn. rewrite plain_signaled by (by eapply turned_plain).
    specialize (H e0 He Hn). destruct (p <? lo).
    + eapply plain_released_state; [exact H|done..|by right|]. intros _. by right.
    + destruct H as (? & ? & ? & ?). split_and!; [done..|]. by right.
  - intros j e Hj H e0 He Hn. specialize (H e0 He Hn). destruct (j <? lo); [|done].
    eapply plain_released_state; [exact H|done..|by left|]. intros [Hjy Hc]. left. split; [|done].
    destruct Hxy as [->|[-> ->]]; done.
  - intros [n Hb] e H e0 He Hn. specialize (H e0 He Hn). destruct (p <? lo); [|done].
    eapply plain_released_state; [exact H|done..|by left|]. intros [_ Hc]. by rewrite Hc in Hb.
Qed.

(** What recovery leaves of an entry. *)
Definition released (e : synx_global_coredata) : synx_global_coredata :=
  if negb (sg_refcount e =? 0) && flag (sg_subscribers e) (BIT core)
  then dropped (e <| sg_subscribers ::= fun w => clear w (BIT core) |>) else e.

(** Whether the entry is freed, and whether it is to be signaled. *)
Definition turn_result (e : synx_global_coredata) : bool * bool :=
  if negb (sg_refcount e =? 0) && subscribed core e then
    let freed := u16 (sg_refcount e - 1) =? 0 in (freed, negb freed && (sg_status e =? SYNX_STATE_ACTIVE))
  else (false, false).

Lemma recover_entry_run s idx e :
  zget (sy_table s) idx = Some e ->
  recover_entry core idx s = Done (turn_result e) (s <| sy_table ::= zset idx (released e) |>).
Proof.
  intros He. unfold recover_entry, released, turn_result, subscribed.
  rewrite (bind_run _ _ _ _ _ (get_entry_run s idx e He)).
  destruct (negb _ && _) eqn:Hb.
  - set (e1 := e <| sg_subscribers ::= fun w => clear w (BIT core) |>).
    assert (zget (sy_table (s <| sy_table ::= zset idx e1 |>)) idx = Some e1) as He1.
    { apply zget_zset_eq. by eapply zget_Some. }
    unfold set_entry. erewrite bind_run by done. erewrite bind_run by (by apply drop_ref_done).
    unfold ret, modify. simpl. by rewrite zset_zset.
  - unfold ret. do 2 f_equal. unfold modify, eta_synx. simpl. rewrite zset_id by done. by destruct s.
Qed.

Lemma cleared_bit w : flag (clear w (BIT core)) (BIT core) = false.
Proof.
  unfold flag. apply negb_false_iff, Z.eqb_eq. apply Z.bits_inj'. intros n Hn.
  rewrite Z.land_spec, Z.bits_0. unfold clear. rewrite Z.ldiff_spec.
  by destruct (Z.testbit w n), (Z.testbit (BIT core) n).
Qed.

Lemma released_facts e : coredata_wf e ->
  tamer e (released e) /\ (sg_refcount e <> 0 -> subscribed core (released e) = false) /\
  no_gain core e (released e).
Proof.
  intros Hw. unfold released. set (e1 := e <| sg_subscribers ::= fun w => clear w (BIT core) |>).
  assert (subscribed core (dropped e1) = false) as Hs1
    by (unfold dropped; case_match; [done|apply cleared_bit]).
  destruct (negb _ && _) eqn:Hb.
  - split_and!; [|done|].
    + unfold dropped. case_match; [apply tamer_zero|].
      apply (tamer_trans e e1); [unfold e1; tame|generalize e1; intros e2; tame].
    + intros Hs. congruence.
  - split_and!; [apply tamer_id| |by intros ?]. intros Hr. destruct (Z.eqb_spec (sg_refcount e) 0); [done|]. exact Hb.
Qed.

(** The claim about the entry whose turn it is. *)
Lemma turned_released lo e :
  0 < lo -> turned lo 0 lo e ->
  turned (lo + 1) (if (turn_result e).2 then lo else 0) lo (released e) /\
  forall e0, zget tbl lo = Some e0 -> sg_num_child e0 = 0 -> subscribed core e0 = true -> sg_refcount e0 = 1 ->
    (turn_result e).1 = true.
Proof.
  intros Hlo H.
  assert (forall e0, zget tbl lo = Some e0 -> sg_num_child e0 = 0 -> plain_left e0 e) as Hl.
  { intros e0 He Hn. specialize (H e0 He Hn). destruct (Z.ltb_spec lo lo); [lia|done]. }
  split.
  - intros e0 He Hn. destruct (Hl e0 He Hn) as (H1 & H2 & H3 & H4).
    destruct (Hused lo e0 ltac:(lia) He) as [Hu Hnz]. unfold in_u16 in Hu.
    destruct (Z.ltb_spec lo (lo + 1)); [|lia].
    unfold plain_released, turn_result, released. fold (subscribed core e).
    assert (subscribed core e = subscribed core e0) as -> by (unfold subscribed; by rewrite H3).
    destruct (subscribed core e0) eqn:Es; [|by rewrite andb_false_r].
    rewrite H2. destruct (Z.eqb_spec (sg_refcount e0) 0); [by specialize (Hnz eq_refl)|]. cbn [negb andb].
    unfold dropped. simpl. rewrite H2. assert (u16 (sg_refcount e0 - 1) = sg_refcount e0 - 1) as -> by (apply Z.mod_small; lia).
    destruct (Z.eqb_spec (sg_refcount e0) 1) as [E1|E1].
    + rewrite E1. simpl. done.
    + destruct (Z.eqb_spec (sg_refcount e0 - 1) 0); [lia|]. simpl. rewrite H3. split_and!; [done|done|done|exact H4|].
      intros [Hx _]. destruct (Z.eqb_spec (sg_status e) SYNX_STATE_ACTIVE); done.
  - intros e0 He Hn Hs Hr. destruct (Hl e0 He Hn) as (H1 & H2 & H3 & H4). unfold turn_result.
    assert (subscribed core e = true) as -> by (unfold subscribed in *; by rewrite H3). by rewrite H2, Hr.
Qed.

Lemma turned_other lo x i e : i <> 0 -> i <> lo -> turned lo 0 i e -> turned (lo + 1) x i e.
Proof.
  intros Hi0 Hi H e0 He Hn. specialize (H e0 He Hn).
  destruct (Z.ltb_spec i lo), (Z.ltb_spec i (lo + 1)); try lia; [|done].
  unfold plain_released in *. destruct (subscribed core e0); [|done].
  destruct H as (G1 & G2 & G3). split; [done|]. split; [done|]. destruct (sg_refcount e0 =? 1); [done|].
  destruct G3 as (G3 & G4 & G5). split; [done|]. split; [done|]. intros [_ Hc]. apply G5. split; [lia|done].
Qed.

Lemma owned_next s lo b : 0 <= lo <= SYNX_GLOBAL_MAX_OBJS -> ordered l b s ->
  owned_from core lo s -> owned_from core (find_next_bit (sy_bitmap s) SYNX_GLOBAL_MAX_OBJS lo) s.
Proof.
  intros Hlo Hord Ho i e Hi He Hs. destruct (Ho i e Hi He Hs) as (Hge & Hb & Hr). split_and!; [|done..].
  pose proof (zget_Some _ _ _ He) as Hr'. rewrite (ordered_zlen _ _ _ Hord) in Hr'.
  unfold find_next_bit. pose proof (scan_spec (Z.to_nat (SYNX_GLOBAL_MAX_OBJS - lo)) lo (bitmap_bit (sy_bitmap s))) as (_ & H & _).
  destruct (decide (scan (Z.to_nat (SYNX_GLOBAL_MAX_OBJS - lo)) lo (bitmap_bit (sy_bitmap s)) <= i)); [done|].
  rewrite H in Hb; [done|lia].
Qed.

(** An entry the core holds is not passed over on the way to the next used index. *)
Lemma skipped_unheld s lo i e0 :
  0 <= lo <= SYNX_GLOBAL_MAX_OBJS -> on_way lo 0 s -> i <> 0 -> lo <= i ->
  i < find_next_bit (sy_bitmap s) SYNX_GLOBAL_MAX_OBJS lo ->
  zget tbl i = Some e0 -> sg_num_child e0 = 0 -> zlen tbl = SYNX_GLOBAL_MAX_OBJS -> subscribed core e0 = false.
Proof.
  intros Hlo [Ho Hw _ Hc] Hi Hge Hlt He Hn Hlen. destruct (subscribed core e0) eqn:Es; [|done]. exfalso.
  pose proof (zget_Some _ _ _ He) as Hr. destruct (entry_at s i (or_mem _ _ _ Ho) ltac:(lia)) as [e Hie].
  specialize (Hc i e Hi Hie e0 He Hn). destruct (Z.ltb_spec i lo); [lia|]. destruct Hc as (_ & _ & Hsub & _).
  assert (subscribed core e = true) as Es' by (unfold subscribed in *; by rewrite Hsub).
  destruct (owned_next s lo false Hlo Ho Hw i e Hi Hie Es') as [? _]. lia.
Qed.

Lemma on_way_next s lo :
  0 <= lo <= SYNX_GLOBAL_MAX_OBJS -> zlen tbl = SYNX_GLOBAL_MAX_OBJS -> on_way lo 0 s ->
  on_way (find_next_bit (sy_bitmap s) SYNX_GLOBAL_MAX_OBJS lo) 0 s.
Proof.
  intros Hlo Hlen Hr. pose proof Hr as [Ho Hw Hen Hc]. set (n := find_next_bit _ _ _).
  split; [done|by eapply owned_next|done|]. intros i e Hi Hie e0 He Hn.
  pose proof (Hc i e Hi Hie e0 He Hn) as H. destruct (Z.ltb_spec i n), (Z.ltb_spec i lo); try done.
  - unfold plain_released. by rewrite (skipped_unheld s lo i e0).
  - pose proof (find_next_bit_range (sy_bitmap s) lo Hlo). unfold n in *. lia.
Qed.

(** One turn: entry [lo] is released, and the rest is as it was. *)
Lemma recovering_turn lo s :
  0 < lo < SYNX_GLOBAL_MAX_OBJS -> on_way lo 0 s ->
  wp (locked inl (o <-- recover_entry core lo; ret (inr o)))
     (fun out s' => ordered l false s' /\
        match out with
        | inl rc => rc <> 0
        | inr (freed, update) => on_way (lo + 1) (if update : bool then lo else 0) s' /\
            forall e0, zget tbl lo = Some e0 -> sg_num_child e0 = 0 -> subscribed core e0 = true ->
              sg_refcount e0 = 1 -> freed = true
        end) s.
Proof.
  intros Hlo Hr. eapply (recovering_locked l core env); [exact Hr|intros _ s' Hr'; split; [apply Hr'|done]|].
  intros s1 Hr1. pose proof (rc_ordered _ _ _ _ _ _ _ Hr1) as Ho1.
  destruct (entry_at s1 lo (or_mem _ _ _ Ho1) ltac:(lia)) as [e He].
  destruct (released_facts e (mw_entries _ (or_mem _ _ _ Ho1) _ _ He)) as (Ht & Hrel & Hng).
  destruct (turned_released lo e ltac:(lia)) as [Hturn Hfreed].
  { apply (rc_claim _ _ _ _ _ _ _ Hr1); [lia|done]. }
  pose proof (recover_entry_run s1 lo e He) as Hrun. destruct (turn_result e) as [freed update].
  apply wp_bind. eapply wp_done; [exact Hrun|]. apply wp_ret.
  exists (turned (lo + 1) (if update then lo else 0)), (lo + 1).
  pose proof (recovering_set l core env _ (turned (lo + 1) (if update then lo else 0)) true lo s1 lo e (released e)
    Hr1 He ltac:(by eapply set_entry_ordered) Hng (fun _ => Hturn) ltac:(intros; by apply turned_other)) as [Ho2 Hw2 He2 Hc2].
  split; [|intros s3 Hr3 _; split; [apply Hr3|done]].
  split; [done| |done|done]. intros j ej Hj Hej Hs. destruct (Hw2 j ej Hj Hej Hs) as (Hge & Hb & Hr2).
  split_and!; [|done..]. destruct (decide (j = lo)) as [->|]; [|lia]. exfalso. simpl in Hej.
  rewrite zget_zset_eq in Hej by (by eapply zget_Some). injection Hej as <-.
  destruct (Hng Hs) as [Hse _]. destruct (rc_owned _ _ _ _ _ _ _ Hr1 lo e ltac:(lia) He Hse) as (_ & _ & Hre).
  by rewrite (Hrel Hre) in Hs.
Qed.

(** The freed indices below [lo] are noted. *)
Definition noted (lo : Z) (cl : list Z) : Prop :=
  forall i e0, 0 < i < lo -> zget tbl i = Some e0 -> sg_num_child e0 = 0 -> subscribed core e0 = true ->
    sg_refcount e0 = 1 -> i ∈ cl.

Lemma recovering_loop fuel lo cl s :
  zlen tbl = SYNX_GLOBAL_MAX_OBJS ->
  0 < lo <= SYNX_GLOBAL_MAX_OBJS -> SYNX_GLOBAL_MAX_OBJS - lo <= Z.of_nat fuel ->
  Forall (fun i => 0 < i < SYNX_GLOBAL_MAX_OBJS) cl -> noted lo cl -> on_way lo 0 s ->
  wp (recover_loop fuel core lo cl)
     (fun out s' => ordered l false s' /\
        (out.1 = 0 -> on_way SYNX_GLOBAL_MAX_OBJS 0 s' /\ noted SYNX_GLOBAL_MAX_OBJS out.2 /\
           Forall (fun i => 0 < i < SYNX_GLOBAL_MAX_OBJS) out.2)) s.
Proof.
  intros Hlen. revert lo cl s. induction fuel as [|fuel IH]; intros lo cl s Hlo Hf Hcl Hnote Hr; simpl;
    destruct (Z.leb_spec SYNX_GLOBAL_MAX_OBJS lo); try lia;
    try (by apply wp_ret; split; [apply Hr|]; intros _; replace lo with SYNX_GLOBAL_MAX_OBJS in Hr, Hnote by lia).
  apply wp_bind. eapply wp_mono; [by apply recovering_turn; [lia|]|].
  intros [rc|[freed update]] s1 [Ho1 Hr1]; [by apply wp_ret|]. destruct Hr1 as [Hr1 Hfreed].
  apply wp_bind. apply wp_mono with (Q := fun _ s' => on_way (lo + 1) 0 s').
  { destruct update; [|by apply wp_ret]. apply wp_bind.
    apply wp_mono with (Q := fun _ s' => on_way (lo + 1) 0 s'); [|intros; by apply wp_ret].
    eapply (recovering_update l core env (lo + 1) lo _ s1 (turned (lo + 1) lo) (turned (lo + 1) 0));
      [done|done|lia|apply turned_signal; auto; lia| | |exact Hr1].
    - intros p Hp. apply turned_signal; auto.
    - intros e G Hwhy e0 He Hn. pose proof (turned_plain _ _ _ _ _ G He Hn) as Hpl.
      specialize (G e0 He Hn). destruct (lo <? lo + 1); [|done]. unfold plain_released in *.
      destruct (subscribed core e0); [|done]. destruct G as (G1 & G2 & G3). split; [done|]. split; [done|].
      destruct (sg_refcount e0 =? 1); [done|]. destruct G3 as (G3 & G4 & _). split; [done|]. split; [done|]. intros _.
      by destruct Hwhy. }
  intros ? s2 Hr2. apply wp_bind, wp_get.
  pose proof (find_next_bit_range (sy_bitmap s2) (lo + 1) ltac:(lia)).
  assert (noted (lo + 1) (if freed then cl ++ [lo] else cl)) as Hnote1.
  { intros i e0 Hi He Hn Hs H1. destruct (decide (i = lo)) as [->|Hne].
    - rewrite (Hfreed e0 He Hn Hs H1). apply elem_of_app. right. by apply list_elem_of_singleton.
    - assert (i ∈ cl) as Hin by (apply (Hnote i e0); [lia|done..]).
      destruct freed; [apply elem_of_app; by left|done]. }
  apply IH; [lia|lia| | |].
  - destruct freed; [|done]. apply Forall_app. split; [done|]. by constructor; [lia|].
  - intros i e0 Hi He Hn Hs H1. destruct (decide (i < lo + 1)); [by apply (Hnote1 i e0); [lia|..]|].
    exfalso. pose proof (skipped_unheld s2 (lo + 1) i e0 ltac:(lia) Hr2 ltac:(lia) ltac:(lia) ltac:(lia) He Hn Hlen).
    congruence.
  - apply on_way_next; [lia|done|done].
Qed.

Lemma recovering_clears cl s :
  Forall (fun i => 0 < i < SYNX_GLOBAL_MAX_OBJS) cl -> on_way SYNX_GLOBAL_MAX_OBJS 0 s ->
  wp (clear_indices cl) (fun _ s' => on_way SYNX_GLOBAL_MAX_OBJS 0 s' /\
    forall i, 0 <= i -> bitmap_bit (sy_bitmap s') i = true -> bitmap_bit (sy_bitmap s) i = true /\ i ∉ cl) s.
Proof.
  intros Hcl. revert s. induction Hcl as [|i cl Hi _ IH]; intros s Hr; simpl.
  { apply wp_ret. split; [done|]. intros i _ Hb. split; [done|]. apply not_elem_of_nil. }
  apply wp_bind. destruct (recovering_clear l core env (turned SYNX_GLOBAL_MAX_OBJS 0) SYNX_GLOBAL_MAX_OBJS s i Hr Hi)
    as (s' & Hrun & Hr' & _ & Hbits).
  - intros e He. destruct (subscribed core e) eqn:Es; [|done].
    destruct (rc_owned _ _ _ _ _ _ _ Hr i e ltac:(lia) He Es) as (? & _). lia.
  - eapply wp_done; [exact Hrun|]. eapply wp_mono; [by apply IH|]. intros ? s'' [Hr'' Hb]. split; [done|].
    intros j Hj Hbj. destruct (Hb j Hj Hbj) as [Hb' Hnin]. rewrite Hbits in Hb' by done.
    apply andb_true_iff in Hb' as [Hb' Hne]. split; [done|]. apply not_elem_of_cons. split; [|done].
    intros ->. by rewrite Z.eqb_refl in Hne.
Qed.
End recovery_loop.


(** Whoever stopped with the lock is [core]. *)
Definition lock_owner (core : Z) (b : bool) (s : synx_state) : Prop :=
  b = true -> exists e, zget (sy_table s) 0 = Some e /\ sg_subscribers e = core.

Lemma recover_lock_quiet core l b s :
  ordered l b s -> lock_owner core b s ->
  wp (recover_lock core) (fun _ s' => ordered l false s' /\ quiet s s') s.
Proof.
  intros Ho Hown. unfold recover_lock, synx_gmem_lock_owner.
  destruct (zero_entry l b s Ho) as [e He]. apply wp_bind, wp_bind. eapply wp_done; [by apply get_entry_run|].
  apply wp_ret. destruct (Z.eqb_spec (sg_subscribers e) core) as [Hc|Hc].
  - apply wp_bind. eapply wp_done; [by apply update_entry_run|].
    assert (tamer e (e <| sg_subscribers := SYNX_CORE_MAX |>)) as Ht by tame.
    pose proof (set_entry_ordered l b s 0 e _ Ho He Ht) as Ho1.
    apply wp_bind, wp_get. rewrite (or_lock _ _ _ Ho1). apply wp_modifyM. split; [by eapply ordered_lock|].
    by apply (quiet_trans _ _ _ (quiet_owner s e SYNX_CORE_MAX He)), quiet_same.
  - apply wp_ret. split; [|apply quiet_refl]. destruct b; [|done]. destruct (Hown eq_refl) as (e' & He' & Hc'). congruence.
Qed.

(** Every entry the core holds is in use. *)
Lemma owned_used l b core lo s :
  ordered l b s -> owned_from core lo s -> forall i e0, i <> 0 -> zget (sy_table s) i = Some e0 ->
  in_u16 (sg_refcount e0) /\ (subscribed core e0 = true -> sg_refcount e0 <> 0).
Proof.
  intros Ho Hw i e0 Hi He. split; [apply (mw_entries _ (or_mem _ _ _ Ho) _ _ He)|]. intros Hs. by apply (Hw i e0 Hi He Hs).
Qed.

(** Before the first turn. *)
Lemma recovering_start l b core s s0 s1 :
  ordered l b s -> owned_from core 1 s -> ordered l false s1 -> quiet s0 s1 ->
  sy_table s0 = sy_table s -> sy_bitmap s0 = sy_bitmap s -> sy_env s0 = sy_env s ->
  let n := find_next_bit (sy_bitmap s1) SYNX_GLOBAL_MAX_OBJS 1 in
  recovering l core (sy_env s) (turned core (sy_env s) (sy_table s) n 0) false n s1 /\ noted core (sy_table s) n [].
Proof.
  intros Ho Hw Ho1 Hq Et Eb Ee n.
  assert (recovering l core (sy_env s) (turned core (sy_env s) (sy_table s) 1 0) false 1 s1) as Hr.
  { split; [done| |by rewrite (qu_env _ _ Hq)|].
    - eapply quiet_owned; [exact Hq|]. unfold owned_from. by rewrite Et, Eb.
    - intros i e Hi He e0 He0 Hn. rewrite (qu_entry _ _ Hq i Hi), Et in He. replace e0 with e by congruence.
      pose proof (zget_Some _ _ _ He). destruct (Z.ltb_spec i 1); [lia|]. split_and!; [congruence|done..|by left]. }
  pose proof (ordered_zlen _ _ _ Ho) as Hlen. split; [by apply on_way_next|].
  intros i e0 Hi He Hn Hs _. exfalso.
  pose proof (skipped_unheld l core (sy_env s) (sy_table s) s1 1 i e0 ltac:(done) Hr ltac:(lia) ltac:(lia)
    ltac:(apply Hi) He Hn Hlen). congruence.
Qed.

