(* ===== verification/SynxCheck.v ===== *)
(** * Checked states of the synx table

    A boolean test that implies [synx_good], so that concrete tables are shown good by
    evaluation; a table with plain, composite and nested objects; on it, one run for
    each property of [SynxKeeps], [SynxPending] and [SynxLife]; and what the code
    gets wrong: a composite object cannot be signaled but the answer is success, an error
    below a nested composite is lost on the way up, a merge that stops half-way can
    answer success and leaves stale parents, recovery wipes objects that composites
    wait for, and a lock time-out is taken for a signal status. *)

From stdpp Require Import base list list_numbers.
From S2P Require Import Prelude.
From S2P Require Import SynxGlobal.
From S2P Require Import SynxKeeps.
From S2P Require Import SynxPending.
From S2P Require Import SynxLife.
From Stdlib Require Import Lia.
#[local] Open Scope Z_scope.

(** ** The test *)

Definition range_check (w x : Z) : bool := (0 <=? x) && (x <? 2 ^ w).

(** Entry [i]: the widths, and parents only at larger indices. *)
Definition entry_check (i : Z) (e : synx_global_coredata) : bool :=
  forallb (range_check 32) [sg_status e; sg_handle e; sg_h_hwfence e] &&
  forallb (range_check 16) [sg_refcount e; sg_num_child e; sg_subscribers e; sg_waiters e] &&
  (length (sg_parents e) =? 4)%nat &&
  forallb (fun p => (p =? 0) || ((i <? p) && (0 <=? p) && (p <? SYNX_GLOBAL_MAX_OBJS))) (sg_parents e).

(** The parents still to be told. *)
Definition to_tell (t : list synx_global_coredata) : list Z :=
  flat_map (fun e => if unsettled e then sg_parents e else []) t.

Definition indexed (t : list synx_global_coredata) : list (Z * synx_global_coredata) :=
  zip (seqZ 0 SYNX_GLOBAL_MAX_OBJS) t.

Definition state_check (held : bool) (s : synx_state) : bool :=
  let told := to_tell (sy_table s) in
  (zlen (sy_table s) =? SYNX_GLOBAL_MAX_OBJS) &&
  (zlen (sy_bitmap s) =? SYNX_GLOBAL_MAX_OBJS / 32) &&
  forallb (range_check 32) (sy_bitmap s) &&
  forallb (fun ie => entry_check ie.1 ie.2) (indexed (sy_table s)) &&
  bool_decide (sy_hwlock s = Some held) &&
  forallb (fun ie => if ie.1 =? 0 then negb (unsettled ie.2)
                     else sg_num_child ie.2 =? count ie.1 told) (indexed (sy_table s)).

Lemma range_check_spec w x : range_check w x = true <-> 0 <= x < 2 ^ w.
Proof. unfold range_check. by rewrite andb_true_iff, Z.leb_le, Z.ltb_lt. Qed.

Lemma pend_to_tell t p : pend t p = count p (to_tell t).
Proof.
  induction t as [|e t IH]; [done|]. change (to_tell (e :: t)) with
    ((if unsettled e then sg_parents e else []) ++ to_tell t).
  rewrite count_app, <- IH. simpl. unfold slots. by case_match.
Qed.

Lemma indexed_elem t i e : zlen t = SYNX_GLOBAL_MAX_OBJS -> zget t i = Some e -> (i, e) ∈ indexed t.
Proof.
  intros Hl He. pose proof (zget_Some _ _ _ He) as Hr. apply list_elem_of_lookup. exists (Z.to_nat i).
  unfold indexed. rewrite lookup_zip_with. rewrite lookup_seqZ_lt by lia. simpl.
  unfold zget in He. case_match; [|done]. rewrite He. simpl. rewrite Z2Nat.id by lia. done.
Qed.

Lemma entry_check_spec i e : entry_check i e = true ->
  coredata_wf e /\ forall p, p ∈ sg_parents e -> p <> 0 -> i < p < SYNX_GLOBAL_MAX_OBJS.
Proof.
  unfold entry_check. rewrite !andb_true_iff, !forallb_forall. intros [[[H32 H16] Hl] Hp].
  setoid_rewrite range_check_spec in H32. setoid_rewrite range_check_spec in H16.
  setoid_rewrite <- list_elem_of_In in Hp. simpl in H32, H16. apply Nat.eqb_eq in Hl. split.
  - split; try (by apply H32; tauto); try (by apply H16; tauto); [done|].
    apply Forall_forall. intros p H%Hp. revert H. unfold SYNX_GLOBAL_MAX_OBJS. lia.
  - intros p H%Hp Hp0. lia.
Qed.

Lemma before_seqZ n i p : 0 <= i -> i < p < n -> before (seqZ 0 n) i p.
Proof.
  intros Hi Hp. exists (seqZ 0 i), (seqZ (i + 1) (n - i - 1)). split; [|apply elem_of_seqZ; lia].
  replace n with (i + (n - i)) at 1 by lia. rewrite seqZ_app by lia. f_equal.
  rewrite (seqZ_cons _ (n - i)) by lia. simpl. repeat (f_equal; try lia).
Qed.

Lemma state_check_ordered held s : state_check held s = true ->
  ordered (seqZ 0 SYNX_GLOBAL_MAX_OBJS) held s /\ pending_ok s /\ idle_zero s.
Proof.
  unfold state_check. rewrite !andb_true_iff, !Z.eqb_eq, !forallb_forall, bool_decide_eq_true.
  intros [[[[[Ht Hb] Hw] He] Hl] Hp]. simpl in Hl.
  assert (forall i e, zget (sy_table s) i = Some e -> entry_check i e = true) as Hent.
  { intros i e Hie. apply (He (i, e)). by apply list_elem_of_In, indexed_elem. }
  split_and!.
  - split; [|split; [done|]|done].
    + split; [done|done| |].
      * intros w x Hx. apply range_check_spec, Hw, list_elem_of_In. unfold zget in Hx.
        case_match; [|done]. by apply list_elem_of_lookup_2 in Hx.
      * intros i e Hie. by apply (entry_check_spec i), Hent.
    + intros c e p Hc Hin Hp0. pose proof (zget_Some _ _ _ Hc).
      apply before_seqZ; [lia|]. by apply (entry_check_spec c e (Hent c e Hc)).
  - intros p e Hp0 Hpe. change (count p []) with 0. rewrite Z.add_0_r, pend_to_tell.
    specialize (Hp (p, e)). simpl in Hp. destruct (Z.eqb_spec p 0); [done|].
    apply Z.eqb_eq, Hp. by apply list_elem_of_In, indexed_elem.
  - intros e He0. apply negb_true_iff. apply (Hp (0, e)). by apply list_elem_of_In, indexed_elem.
Qed.

Lemma state_check_good s : responsive s -> state_check false s = true -> synx_good s.
Proof.
  intros Hr (? & ? & ?)%state_check_ordered. split; [by eexists|done..].
Qed.

(** ** Concrete tables *)

(** Nobody else does anything, and nothing fails. *)
Definition calm : synx_environment :=
  mk_synx_env (fun _ => false) (fun _ => []) (fun _ => 0) (fun _ => false) (fun _ => false).

(** The table with these entries, their indices in use. *)
Definition table_of (held : bool) (owner : Z) (es : list (Z * synx_global_coredata)) : synx_state :=
  mk_synx (fold_left take_bit (0 :: map fst es) (replicate (Z.to_nat (SYNX_GLOBAL_MAX_OBJS / 32)) 0))
    (foldr (fun ie t => zset ie.1 ie.2 t) (replicate (Z.to_nat SYNX_GLOBAL_MAX_OBJS) zero_coredata)
       ((0, zero_coredata <| sg_subscribers := owner |>) :: es))
    (Some held) 0 calm [].

Lemma calm_responsive held owner es : responsive (table_of held owner es).
Proof. by intros n. Qed.

(** An object of this processor, with the handle of its index. *)
Definition object (idx refcount num_child : Z) (parents : list Z) : synx_global_coredata :=
  (fresh_coredata (synx_encode_handle idx SYNX_CORE_APSS true)) <| sg_refcount := refcount |>
    <| sg_num_child := num_child |> <| sg_parents := parents |>.

Definition soccp_object (idx refcount : Z) (parents : list Z) : synx_global_coredata :=
  (object idx refcount 0 parents) <| sg_subscribers := BIT SYNX_CORE_SOCCP |>.

(** Two plain objects 1 and 2 below the composite object 3, which is the child of the
    composite object 4 and which core NSP waits for; the plain object 5 has two
    references, one of the SOCCP; object 6 is new and 7 has been signaled. *)
Definition family : list (Z * synx_global_coredata) :=
  [(1, object 1 1 0 [3; 0; 0; 0]); (2, object 2 1 0 [3; 0; 0; 0]);
   (3, (object 3 2 2 [4; 0; 0; 0]) <| sg_waiters := BIT SYNX_CORE_NSP |>); (4, object 4 2 1 no_parents);
   (5, soccp_object 5 2 no_parents); (6, object 6 1 0 no_parents);
   (7, (object 7 1 0 no_parents) <| sg_status := SYNX_STATE_SIGNALED_SUCCESS |>)].

Definition family_state : synx_state := table_of false SYNX_CORE_MAX family.

Lemma family_good : synx_good family_state.
Proof. apply state_check_good; [apply calm_responsive|by vm_compute]. Qed.

(** The SOCCP stopped inside a critical section; it has the only reference to object 8. *)
Definition stopped_state : synx_state :=
  table_of true SYNX_CORE_SOCCP ((8, soccp_object 8 1 no_parents) :: family).

Lemma stopped_responsive : responsive stopped_state.
Proof. apply calm_responsive. Qed.

Lemma stopped_ordered : ordered (seqZ 0 SYNX_GLOBAL_MAX_OBJS) true stopped_state.
Proof. apply state_check_ordered. by vm_compute. Qed.

Definition owned_check (core : Z) (s : synx_state) : bool :=
  forallb (fun ie => negb (subscribed core ie.2) || (ie.1 =? 0) ||
                     (bitmap_bit (sy_bitmap s) ie.1 && negb (sg_refcount ie.2 =? 0))) (indexed (sy_table s)).

Lemma owned_check_spec core s : zlen (sy_table s) = SYNX_GLOBAL_MAX_OBJS ->
  owned_check core s = true -> owned_from core 1 s.
Proof.
  intros Hl Hc i e Hi He Hs. unfold owned_check in Hc. rewrite forallb_forall in Hc.
  specialize (Hc (i, e)). rewrite <- list_elem_of_In in Hc. specialize (Hc (indexed_elem _ _ _ Hl He)).
  simpl in Hc. rewrite Hs in Hc. destruct (Z.eqb_spec i 0); [done|]. simpl in Hc.
  apply andb_true_iff in Hc as [Hb Hr%negb_true_iff%Z.eqb_neq]. pose proof (zget_Some _ _ _ He).
  split_and!; [lia|done..].
Qed.

Lemma stopped_owned : owned_from SYNX_CORE_SOCCP 1 stopped_state.
Proof. apply owned_check_spec; by vm_compute. Qed.

Definition free_check (s : synx_state) : bool :=
  forallb (fun ie => bitmap_bit (sy_bitmap s) ie.1 || bool_decide (ie.2 = zero_coredata)) (indexed (sy_table s)).

Lemma free_check_spec s : zlen (sy_table s) = SYNX_GLOBAL_MAX_OBJS ->
  free_check s = true -> free_cleared s.
Proof.
  intros Hl Hc i Hi Hb. destruct (zget_is_Some (sy_table s) i) as [e He]; [lia|].
  unfold free_check in Hc. rewrite forallb_forall in Hc. specialize (Hc (i, e)).
  rewrite <- list_elem_of_In in Hc. specialize (Hc (indexed_elem _ _ _ Hl He)). simpl in Hc.
  rewrite Hb in Hc. apply bool_decide_eq_true in Hc. by subst.
Qed.

Lemma family_free : free_cleared family_state.
Proof. apply free_check_spec; by vm_compute. Qed.

(** A verified operation runs. *)
Lemma wp_returns {A} (m : SYNX A) (Q : A -> synx_state -> Prop) s :
  wp m Q s -> exists a s', m s = Done a s' /\ Q a s'.
Proof. unfold wp. destruct (m s) as [a s'|]; [by exists a, s'|done]. Qed.

Lemma done_result {A} (m : SYNX A) s a s' (P : A -> Prop) :
  m s = Done a s' -> match m s with Done o _ => P o | Faulted _ => False end -> P a.
Proof. by intros ->. Qed.

(** ** The properties on them *)

Lemma family_args : op_args (OpMerge [1; 5] 6) family_state.
Proof.
  split; [by vm_compute|]. split; [by vm_compute|]. split.
  - intros i. rewrite !elem_of_cons, elem_of_nil. intros [->|[->|[]]]; split; by vm_compute.
  - intros e He. vm_compute in He. injection He as <-. intros q. simpl. rewrite !elem_of_cons, elem_of_nil. tauto.
Qed.

Lemma synx_ops_keep_ok_witness :
  exists s', run_synx_op (OpMerge [1; 5] 6) family_state = Done tt s' /\ synx_ok s'.
Proof.
  destruct (wp_returns _ _ _ (synx_ops_keep_ok _ _ (good_ok _ family_good) family_args)) as ([] & s' & ? & ?).
  by exists s'.
Defined.

Lemma update_status_spec_witness :
  exists s', synx_global_update_status 1 SYNX_STATE_SIGNALED_SUCCESS family_state = Done 0 s' /\ synx_good s' /\
    zget (sy_table s') 1 = Some ((object 1 1 0 [3; 0; 0; 0]) <| sg_status := SYNX_STATE_SIGNALED_SUCCESS |>).
Proof.
  destruct (wp_returns _ _ _ (update_status_spec family_state 1 (object 1 1 0 [3; 0; 0; 0]) SYNX_STATE_SIGNALED_SUCCESS
    family_good ltac:(done) ltac:(by vm_compute) ltac:(done) ltac:(done) ltac:(done) ltac:(done)))
    as (rc & s' & Hrun & -> & Hg & _ & _ & He & _). exists s'. split_and!; [done|done|exact He].
Defined.

(** Core NSP waits for object 4, two levels up, and is told when both leaves are done. *)
Lemma no_lost_wakeup_witness :
  exists s', (st <-- synx_global_test_status_set_wait 4 SYNX_CORE_NSP;
              run_signals [(1, SYNX_STATE_SIGNALED_SUCCESS); (2, SYNX_STATE_SIGNALED_SUCCESS)];;; ret st)
             family_state = Done SYNX_STATE_ACTIVE s' /\ synx_good s' /\
    waits_or_woken SYNX_CORE_NSP (synx_encode_handle 4 SYNX_CORE_APSS true) 4 s'.
Proof.
  destruct (wp_returns _ _ _ (no_lost_wakeup family_state 4 (object 4 2 1 no_parents) SYNX_CORE_NSP
    [(1, SYNX_STATE_SIGNALED_SUCCESS); (2, SYNX_STATE_SIGNALED_SUCCESS)] family_good ltac:(done) ltac:(by vm_compute)
    ltac:(done) ltac:(done) ltac:(done) ltac:(by repeat constructor)))
    as (rc & s' & Hrun & -> & Hg & Hw). by exists s'.
Defined.

Lemma merge_spec_witness :
  exists s', synx_global_merge [1; 7] 6 family_state = Done 0 s' /\ synx_good s' /\ pend (sy_table s') 6 = 1.
Proof.
  destruct (wp_returns _ _ _ (merge_spec family_state 6 (object 6 1 0 no_parents) [1; 7]
    [object 1 1 0 [3; 0; 0; 0]; (object 7 1 0 no_parents) <| sg_status := SYNX_STATE_SIGNALED_SUCCESS |>]
    family_good ltac:(done) ltac:(by vm_compute) ltac:(done) ltac:(done) ltac:(done)
    ltac:(by apply (bool_decide_unpack (NoDup [1; 7])))
    ltac:(constructor; [by split_and!; [..|vm_compute|eexists]|constructor; [by split_and!; [..|vm_compute|eexists]|constructor]])))
    as (rc & s' & Hrun & -> & Hg & Hp & _). by exists s'.
Defined.

Lemma object_refs_refine_counter_witness :
  exists s', run_ref_ops 5 [GetRef; PutRef; PutRef; PutRef; GetRef] family_state = Done [0; 0; 0; 0; - SYNX_NOENT] s' /\
    has_refs 5 (soccp_object 5 2 no_parents) 0 family_state s'.
Proof.
  destruct (wp_returns _ _ _ (object_refs_refine_counter 5 (soccp_object 5 2 no_parents)
    [GetRef; PutRef; PutRef; PutRef; GetRef] [0; 0; 0; 0; - SYNX_NOENT] 0 family_state family_good ltac:(done)
    ltac:(by vm_compute) ltac:(done) ltac:(done) ltac:(done) ltac:(by right) ltac:(by vm_compute) ltac:(done)))
    as (rs & s' & Hrun & -> & Hg & Hr). by exists s'.
Defined.

(** Other processors take indices 8 and 9 while this one tries: it ends up with 10. *)
Definition racing_state : synx_state := family_state <| sy_env := mk_synx_env (fun _ => false)
  (fun n => match n with 0%nat => [8] | 1%nat => [9] | _ => [] end) (fun _ => 0) (fun _ => false) (fun _ => false) |>.

Lemma racing_good : synx_good racing_state.
Proof. apply state_check_good; [by intros n|by vm_compute]. Qed.

Lemma alloc_index_spec_witness :
  exists s', synx_global_alloc_index racing_state = Done (0, Some 10) s' /\ synx_ok s' /\
    sy_table s' = sy_table racing_state.
Proof.
  destruct (wp_returns _ _ _ (alloc_index_spec racing_state (good_ok _ racing_good))) as (out & s' & Hrun & Hok & Ht & _).
  pose proof (done_result _ _ _ _ (fun o => o = (0, Some 10)) Hrun) as Ho.
  rewrite (Ho ltac:(vm_compute; reflexivity)) in Hrun. exists s'. exact (conj Hrun (conj Hok Ht)).
Defined.

Lemma alloc_handle_names_index_witness :
  exists h s', synx_alloc_global_handle family_state = Done (0, Some h) s' /\ synx_good s' /\
    zget (sy_table s') (synx_util_global_idx h) = Some (fresh_coredata h).
Proof.
  destruct (wp_returns _ _ _ (alloc_handle_names_index family_state family_good family_free ltac:(by vm_compute)))
    as ([rc [h|]] & s' & Hrun & Hg & Hout); cbv zeta in Hout.
  - destruct Hout as (-> & _ & _ & _ & _ & He & _). exists h, s'. exact (conj Hrun (conj Hg He)).
  - exfalso. apply (is_Some_None (A := Z)), (done_result _ _ _ _ (fun o => is_Some o.2) Hrun). vm_compute. by eexists.
Defined.


(** ** What the code gets wrong *)

(** Signaling a composite object from outside does nothing, as meant, but answers
    success: the error code the function starts with is overwritten by the lock. *)
Theorem composite_signal_reported_done s idx e status :
  synx_ok s -> responsive s -> idx <> 0 -> zget (sy_table s) idx = Some e -> sg_num_child e <> 0 ->
  SYNX_STATE_ACTIVE < status ->
  wp (synx_global_update_status idx status) (fun rc s' => rc = 0 /\ quiet s s') s.
Proof.
  intros [l Ho] Hr Hi He Hn Hst. pose proof (zget_Some _ _ _ He) as Hidx. rewrite (ordered_zlen _ _ _ Ho) in Hidx.
  eapply wp_on_table; [done|]. unfold synx_is_valid_idx.
  destruct (Z.ltb_spec idx SYNX_GLOBAL_MAX_OBJS); [|lia]. destruct (Z.leb_spec status SYNX_STATE_ACTIVE); [lia|]. cbn [negb orb].
  apply wp_bind. eapply wp_look; [done..|]. intros s' e' sub Ho' Hq He' _. replace e' with e by congruence.
  cbn [sg_num_child sg_status modify eta_coredata]. destruct (Z.eqb_spec (sg_num_child e) 0); [done|]. by apply wp_ret.
Qed.

Lemma composite_signal_reported_done_witness :
  exists s', synx_global_update_status 3 SYNX_STATE_SIGNALED_ERROR family_state = Done 0 s' /\ quiet family_state s'.
Proof.
  destruct (wp_returns _ _ _ (composite_signal_reported_done family_state 3
    ((object 3 2 2 [4; 0; 0; 0]) <| sg_waiters := BIT SYNX_CORE_NSP |>) SYNX_STATE_SIGNALED_ERROR
    (good_ok _ family_good) (good_responsive _ family_good) ltac:(done) ltac:(by vm_compute) ltac:(done) ltac:(done)))
    as (rc & s' & Hrun & -> & Hq). exists s'. exact (conj Hrun Hq).
Defined.

(** What a run answers, and the status and the pending children of some entries. *)
Definition seen {A} (m : SYNX A) (idxs : list Z) (s : synx_state) : option (A * list (option (Z * Z))) :=
  match m s with
  | Done a s' => Some (a, map (fun i => (fun e => (sg_status e, sg_num_child e)) <$> zget (sy_table s') i) idxs)
  | Faulted _ => None
  end.

(** An error is lost above a nested composite object: the parent of the object that
    ended with an error is told the status of the signal that completed it, and ends
    with success. *)
Theorem nested_error_lost :
  seen (run_signals [(1, SYNX_STATE_SIGNALED_ERROR); (2, SYNX_STATE_SIGNALED_SUCCESS)]) [3; 4] family_state =
  Some (tt, [Some (SYNX_STATE_SIGNALED_ERROR, 0); Some (SYNX_STATE_SIGNALED_SUCCESS, 0)]).
Proof. by vm_compute. Qed.

(** Above a plain child the same error arrives. *)
Lemma plain_error_kept :
  seen (run_signals [(1, SYNX_STATE_SIGNALED_ERROR); (2, SYNX_STATE_SIGNALED_SUCCESS)]) [3] family_state =
  Some (tt, [Some (SYNX_STATE_SIGNALED_ERROR, 0)]).
Proof. by vm_compute. Qed.

(** A merge with an index that does not exist behind one that does answers success,
    makes no composite object, and leaves the object it named as a parent to a child
    that had been signaled. *)
Theorem merge_bad_index_succeeds :
  match synx_global_merge [7; SYNX_GLOBAL_MAX_OBJS] 6 family_state with
  | Done rc s' => rc = 0 /\ zget (sy_table s') 6 = zget (sy_table family_state) 6 /\
      sg_parents <$> zget (sy_table s') 7 = Some [6; 0; 0; 0]
  | Faulted _ => False
  end.
Proof. vm_compute. split_and!; reflexivity. Qed.

(** No object is its own parent in a good table. *)
Lemma no_self_parent s i e : synx_ok s -> zget (sy_table s) i = Some e -> i <> 0 -> i ∉ sg_parents e.
Proof.
  intros [l Ho] He Hi Hin. destruct (to_edge _ _ (or_topo _ _ _ Ho) i e i He Hin Hi) as (l1 & l2 & -> & Hl2).
  pose proof (to_perm _ _ (or_topo _ _ _ Ho)) as Hp.
  assert (NoDup (l1 ++ i :: l2)) as Hnd by (rewrite Hp; apply NoDup_seqZ).
  apply NoDup_app in Hnd as (_ & _ & Hnd). by apply NoDup_cons in Hnd as [Hn _].
Qed.

(** Merging an active object into itself succeeds.  It is its own child then: no signal of
    it is taken, so it stays active, and the table is not good any more. *)
Theorem merge_into_itself_cycles :
  match synx_global_merge [6] 6 family_state with
  | Done rc s' => rc = 0 /\ ~ synx_ok s' /\
      seen (synx_global_update_status 6 SYNX_STATE_SIGNALED_SUCCESS) [6] s' = Some (0, [Some (SYNX_STATE_ACTIVE, 1)])
  | Faulted _ => False
  end.
Proof.
  assert (match synx_global_merge [6] 6 family_state with
          | Done rc s' => rc = 0 /\ sg_parents <$> zget (sy_table s') 6 = Some [6; 0; 0; 0] /\
              seen (synx_global_update_status 6 SYNX_STATE_SIGNALED_SUCCESS) [6] s' = Some (0, [Some (SYNX_STATE_ACTIVE, 1)])
          | Faulted _ => False
          end) as H by (vm_compute; split_and!; reflexivity).
  destruct (synx_global_merge _ _ _) as [rc s'|]; [|done]. destruct H as (-> & Hp & Hseen). split; [done|].
  split; [|done]. intros Hok. destruct (zget (sy_table s') 6) as [e|] eqn:He; [|done].
  injection Hp as Hp. apply (no_self_parent s' 6 e Hok He); [done|]. rewrite Hp. by left.
Qed.

(** The SOCCP has the only reference to object 2, a child of the composite object 3. *)
Definition orphan_state : synx_state := table_of false SYNX_CORE_MAX
  [(1, object 1 1 0 [3; 0; 0; 0]); (2, soccp_object 2 1 [3; 0; 0; 0]); (3, object 3 2 2 no_parents)].

(** Recovery frees an active object whose last reference the stopped core had
    without telling the composite object that waits for it, which then stays active when
    all its other children are signaled. *)
Theorem recover_orphans_composite :
  synx_good orphan_state /\
  seen (rc <-- synx_global_recover SYNX_CORE_SOCCP; run_signals [(1, SYNX_STATE_SIGNALED_SUCCESS)];;; ret rc)
       [1; 2; 3] orphan_state =
  Some (0, [Some (SYNX_STATE_SIGNALED_SUCCESS, 0); Some (0, 0); Some (SYNX_STATE_SIGNALED_SUCCESS, 1)]).
Proof.
  split; [apply state_check_good; [apply calm_responsive|by vm_compute]|by vm_compute].
Qed.

(** When the lock of the table times out, a driver of hardware fences is told that the
    fence has been signaled, with the wrapped error code as its status: the test for a
    negative [u32] never holds. *)
Theorem share_timeout_reported_signaled s h_synx h_hwfence is_waiter :
  sy_hwlock s = Some true -> no_table s = false ->
  h_synx <> 0 -> synx_util_is_global_handle h_synx = true ->
  synx_util_global_idx h_synx < SYNX_GLOBAL_MAX_OBJS ->
  synx_internal_get_handle_status h_synx h_hwfence is_waiter s =
    Done (0, None, Some (u32 (- ETIMEDOUT))) (s <| sy_tick ::= S |>).
Proof.
  intros Hl Ht Hh Hg Hi. unfold synx_internal_get_handle_status. rewrite Hg.
  destruct (Z.eqb_spec h_synx 0); [done|]. cbn [orb negb].
  rewrite (bind_run _ _ _ (- ETIMEDOUT) (s <| sy_tick ::= S |>)); [done|].
  unfold synx_global_test_status_update_coredata, on_table. rewrite (bind_run get _ s s s) by done. rewrite Ht.
  change (SYNX_CORE_MAX <=? SYNX_CORE_SOCCP) with false. unfold synx_is_valid_idx.
  destruct (Z.ltb_spec (synx_util_global_idx h_synx) SYNX_GLOBAL_MAX_OBJS); [|lia]. cbn [orb negb].
  unfold locked, synx_gmem_lock. unfold bind at 1 2, get at 1. rewrite Hl. done.
Qed.

Lemma share_timeout_reported_signaled_witness :
  synx_internal_get_handle_status (synx_encode_handle 5 SYNX_CORE_APSS true) 1 true stopped_state =
    Done (0, None, Some (u32 (- ETIMEDOUT))) (stopped_state <| sy_tick ::= S |>).
Proof. apply share_timeout_reported_signaled; by vm_compute. Defined.
