(* ===== verification/HwFenceInterop.v ===== *)
(** * Hardware fences and synx objects together

    [mm-drivers/hw_fence/src/hw_fence_drv_interop.c]: what the hardware-fence driver
    does for the synx driver and asks of it - making hardware fences for dma-fences
    that synx objects or other drivers signal, exchanging handles, and translating
    errors and statuses.

    The synx driver is a [Peer]: the two calls it registers in
    [synx_hwfence_init_interops], with what they promise ([PeerLaws]).  The state is
    that of both drivers ([system]); a call of one of them runs on its half.  The
    spinlock of a dma-fence is free whenever it is taken here: it is released on every
    path, and the operations under it take only locks of the table.

    The theorems: the translations of errors and statuses are inverse to each other
    where both are in use; an import leaves a good state of both drivers; a fence no
    firmware signals keeps one reference, that of its kernel callback; a fence
    a synx object signals is known to that object by its handle; and a signaled fence is
    reported to the synx driver as active. *)
From S2P Require Import Prelude HwFenceTypes HwFenceTable HwFenceRef HwFenceClient.
From S2P Require Import HwFenceSignal HwFenceCallback HwFenceJoin.
From S2P Require Import SynxGlobal.
From stdpp Require Import gmap.
From Stdlib Require Import Lia.
#[local] Open Scope Z_scope.

(** ** Constants *)

Definition HW_FENCE_SYNX_FENCE_CLIENT_ID : Z := 2 ^ 32 - 2.
Definition HW_FENCE_NATIVE_FENCE_CLIENT_ID : Z := 2 ^ 32 - 3.
Definition HW_FENCE_HANDLE_INDEX_MASK : Z := Z.ones 17.
Definition SYNX_NATIVE_FENCE_FLAG_ENABLED_BIT : Z := 29.
Definition SYNX_HW_FENCE_HANDLE_FLAG : Z := BIT 31.
Definition SYNX_IMPORT_DMA_FENCE : Z := 8.
Definition SYNX_IMPORT_SYNX_FENCE : Z := 4.

Definition EBUSY : Z := 16.
Definition SYNX_NOPERM : Z := EPERM.
Definition SYNX_TIMEOUT : Z := ETIMEDOUT.
Definition SYNX_BUSY : Z := EBUSY.
Definition SYNX_EAGAIN : Z := EAGAIN.

(** ** Translations *)

Definition hw_fence_interop_to_synx_status (code : Z) : Z :=
  if code =? 0 then 0
  else if code =? - ENOMEM then - SYNX_NOMEM
  else if code =? - EPERM then - SYNX_NOPERM
  else if code =? - ETIMEDOUT then - SYNX_TIMEOUT
  else if code =? - EALREADY then - SYNX_ALREADY
  else if code =? - ENOENT then - SYNX_NOENT
  else if code =? - EINVAL then - SYNX_INVALID
  else if code =? - EBUSY then - SYNX_BUSY
  else if code =? - EAGAIN then - SYNX_EAGAIN
  else code.

Definition hw_fence_interop_to_synx_signal_status (flags error : Z) : Z :=
  if negb (flag flags MSM_HW_FENCE_FLAG_SIGNAL) then SYNX_STATE_ACTIVE
  else if error =? 0 then SYNX_STATE_SIGNALED_SUCCESS
  else if error =? MSM_HW_FENCE_ERROR_RESET then SYNX_STATE_SIGNALED_SSR
  else error.

Definition hw_fence_interop_to_hw_fence_error (status : Z) : Z :=
  if status =? SYNX_STATE_INVALID then SYNX_INVALID
  else if status =? SYNX_STATE_ACTIVE then 0
  else if status =? SYNX_STATE_SIGNALED_SUCCESS then 0
  else if status =? SYNX_STATE_SIGNALED_SSR then MSM_HW_FENCE_ERROR_RESET
  else status.

(** ** The other driver *)

(** [struct synx_import_indv_params]; [ip_new_h_synx] is what the pointer points to. *)
Record import_params := mk_import_params {
  ip_fence : option Z;
  ip_new_h_synx : option Z;
  ip_flags : Z }.

(** [peer_share_handle_status params h_caller]: the error code, and the callee's handle and
    the signal status where they are written; [peer_get_fence h_callee]: the dma-fence,
    [None] for a null or error pointer. *)
Class Peer (P : Type) := {
  peer_share_handle_status : import_params -> Z -> M P (Z * option Z * option Z);
  peer_get_fence : Z -> M P (option Z) }.

(** What its driver promises: it returns, in a good state; success comes with a status,
    and the status of an active object with its handle. *)
Class PeerLaws (P : Type) `{Peer P} := {
  peer_ok : P -> Prop;
  share_returns params h p : peer_ok p -> 0 <= h ->
    wp (peer_share_handle_status params h)
       (fun out p' => peer_ok p' /\ (out.1.1 = 0 -> exists status, out.2 = Some status /\
          (status = SYNX_STATE_ACTIVE -> is_Some out.1.2))) p;
  get_fence_returns h p : peer_ok p -> wp (peer_get_fence h) (fun _ p' => peer_ok p') p }.

(** Both drivers; [sys_interops] and [sys_get_fence]: [synx_interops.share_handle_status]
    and [synx_interops.get_fence] are set. *)
Record system (P : Type) := mk_system {
  sys_drv : driver_data;
  sys_peer : P;
  sys_interops : bool;
  sys_get_fence : bool }.

Arguments mk_system {P} _ _ _ _.
Arguments sys_drv {P} _.
Arguments sys_peer {P} _.
Arguments sys_interops {P} _.
Arguments sys_get_fence {P} _.

#[export] Instance eta_system {P} : Eta (system P) := fun s =>
  mk_system (sys_drv s) (sys_peer s) (sys_interops s) (sys_get_fence s).

Definition on_drv {P A} (m : DRV A) : M (system P) A := fun s =>
  match m (sys_drv s) with
  | Done a d => Done a (s <| sys_drv := d |>)
  | Faulted f => Faulted f
  end.

Definition on_peer {P A} (m : M P A) : M (system P) A := fun s =>
  match m (sys_peer s) with
  | Done a p => Done a (s <| sys_peer := p |>)
  | Faulted f => Faulted f
  end.

Section interop.
Context {P : Type} `{Peer P}.
Abbreviation SYS := (M (system P)).

(** The error code, and [*params->new_h_synx]. *)
Definition _update_interop_fence (params : import_params) (handle : Z) : SYS (Z * option Z) :=
  s <-- get;
  match ip_new_h_synx params with
  | None => ret (- EINVAL, None)
  | Some h_synx0 =>
      if negb (sys_interops s) then ret (- EINVAL, Some h_synx0)
      else
        out <-- on_peer (peer_share_handle_status params handle);
        let '(r, written, status) := out in
        let h_synx := default h_synx0 written in
        if negb (r =? 0) || bool_decide (status = Some SYNX_STATE_INVALID) then
          on_drv (hw_fence_destroy_refcount handle HW_FENCE_FCTL_REFCOUNT);;;
          ret (r, Some h_synx)
        else
          signal_status <-- match status with Some x => ret x | None => raise Undefined end;
          r <-- (if negb (signal_status =? SYNX_STATE_ACTIVE) then
                   on_drv (hw_fence_signal_fence None handle
                             (hw_fence_interop_to_hw_fence_error signal_status) true)
                 else ret 0);
          if negb (r =? 0) then ret (r, Some h_synx)
          else
            r <-- on_drv (hw_fence_update_hsynx handle h_synx false);
            ret (r, Some h_synx)
  end.

(** [struct msm_hw_fence_client dummy_client]: only these two fields are read; the second
    is not initialised. *)
Definition dummy_client (client_id : Z) (skip_fctl_ref : bool) : hw_fence_client :=
  mk_client client_id 0 (0, 0) [] 0 0 0 false 0 0 0 false false false false skip_fctl_ref 0 0 0 0.

(** The second half of [hw_fence_interop_create_fence_from_import]: the new fence finds
    who signals it. *)
Definition import_attach (params : import_params) (fence : Z) (is_synx : bool) (handle : Z)
  : SYS (Z * option Z) :=
  out <-- (if is_synx then _update_interop_fence params handle
           else
             r <-- on_drv (hw_fence_destroy_refcount handle HW_FENCE_FCTL_REFCOUNT);
             ret (r, ip_new_h_synx params));
  let '(r, new_h_synx) := out in
  r <-- (if negb (r =? 0) then ret r else on_drv (hw_fence_add_callback fence handle));
  destroy_ret <-- on_drv (hw_fence_destroy_with_hash handle);
  let r := if negb (destroy_ret =? 0) then destroy_ret else r in
  ret (hw_fence_interop_to_synx_status r, new_h_synx).

Definition hw_fence_interop_create_fence_from_import (params : option import_params) : SYS (Z * option Z) :=
  match params with
  | None => ret (- SYNX_INVALID, None)
  | Some params =>
      match ip_fence params with
      | None => ret (- SYNX_INVALID, ip_new_h_synx params)
      | Some fence =>
          g <-- on_drv (get_dma_fence fence);
          if test_dma_flag g MSM_HW_FENCE_FLAG_ENABLED_BIT then ret (0, ip_new_h_synx params)
          else
            let is_synx := test_dma_flag g SYNX_NATIVE_FENCE_FLAG_ENABLED_BIT in
            skip <-- on_drv uninit_bool;
            let client := dummy_client (if is_synx then HW_FENCE_SYNX_FENCE_CLIENT_ID
                                        else HW_FENCE_NATIVE_FENCE_CLIENT_ID) skip in
            out <-- on_drv (hw_fence_create client fence (df_context g) (df_seqno g) 0);
            let '(r, handle) := out in
            if negb (r =? 0) then ret (hw_fence_interop_to_synx_status r, ip_new_h_synx params)
            else
              on_drv (set_dma_flag fence MSM_HW_FENCE_FLAG_ENABLED_BIT);;;
              import_attach params fence is_synx handle
      end
  end.

(** [dma_fence_get_status] of the kernel, on a fence it says is signaled. *)
Definition dma_fence_get_status (g : dma_fence) : Z := if df_error g =? 0 then 1 else df_error g.

(** The part of [hw_fence_interop_share_handle_status] on an entry that was found. *)
Definition share_entry (handle h_synx : Z) : DRV (Z * option Z * option Z) :=
  out <-- hw_fence_get_flags_error handle;
  let '(r, fl, error) := out in
  if negb (r =? 0) then ret (r, None, None)
  else
    let status := hw_fence_interop_to_synx_signal_status fl error in
    if SYNX_STATE_SIGNALED_SUCCESS <=? status then ret (r, None, Some status)
    else
      r <-- hw_fence_update_hsynx handle h_synx true;
      if negb (r =? 0) then ret (r, None, Some status)
      else ret (r, Some (u32 handle), Some status).

(** The same on a dma-fence that has a hardware fence. *)
Definition share_fence (fence h_synx : Z) : DRV (Z * option Z * option Z) :=
  out <-- hw_fence_find_with_dma_fence 0 fence 0 false;
  let '(hw_fence, is_signaled, handle) := out in
  if is_signaled : bool then
    g <-- get_dma_fence fence;
    ret (0, None, Some (u32 (dma_fence_get_status g)))
  else
    match hw_fence with
    | None => ret (- SYNX_INVALID, None, None)
    | Some _ =>
        out <-- share_entry handle h_synx;
        let '(r, new_h_synx, status) := out in
        destroy_ret <-- hw_fence_destroy_with_hash handle;
        ret (hw_fence_interop_to_synx_status (if negb (destroy_ret =? 0) then destroy_ret else r),
             new_h_synx, status)
    end.

(** The error code, and [*params->new_h_synx] and [*signal_status] where they are
    written. *)
Definition hw_fence_interop_share_handle_status (params : option import_params) (h_synx : Z)
  : DRV (Z * option Z * option Z) :=
  r <-- hw_fence_check_hw_fence_driver;
  if negb (r =? 0) then ret (hw_fence_interop_to_synx_status r, None, None)
  else
    d <-- get;
    if negb (dd_fctl_ready d) then ret (- SYNX_EAGAIN, None, None)
    else
      match params with
      | Some (mk_import_params (Some fence) (Some _) flags) =>
          if negb (flag flags SYNX_IMPORT_DMA_FENCE) || flag flags SYNX_IMPORT_SYNX_FENCE
          then ret (- SYNX_INVALID, None, None)
          else
            g <-- get_dma_fence fence;
            if negb (test_dma_flag g MSM_HW_FENCE_FLAG_ENABLED_BIT) then ret (- SYNX_INVALID, None, None)
            else share_fence fence h_synx
      | _ => ret (- SYNX_INVALID, None, None)
      end.

(** [inl]: an error pointer. *)
Definition hw_fence_interop_get_fence (h_synx : Z) : DRV (Z + Z) :=
  r <-- hw_fence_check_hw_fence_driver;
  if negb (r =? 0) then ret (inl (hw_fence_interop_to_synx_status r))
  else if negb (flag h_synx SYNX_HW_FENCE_HANDLE_FLAG) then ret (inl (- SYNX_INVALID))
  else
    o <-- hw_fence_dma_fence_find (Z.land h_synx HW_FENCE_HANDLE_INDEX_MASK) true;
    match o with
    | None => ret (inl (- SYNX_INVALID))
    | Some fence => ret (inr fence)
    end.

(** The arguments are pointers; of what [synx_ops] points to, whether its
    [share_handle_status] and its [get_fence] are functions.  The driver's own calls go
    out through [hwfence_ops]. *)
Definition synx_hwfence_init_interops (synx_ops : option (bool * bool)) (hwfence_ops : option unit) : SYS Z :=
  match synx_ops, hwfence_ops with
  | Some (share_handle_status, get_fence), Some _ =>
      modifyM (fun s => s <| sys_interops := share_handle_status |> <| sys_get_fence := get_fence |>);;; ret 0
  | _, _ => ret (- EINVAL)
  end.
End interop.

(** * Properties *)

(** ** Translations *)

(** The statuses a fence can be signaled with and the errors it can have translate
    into each other and back, except that the hardware errors 2 and 6 are read as the
    statuses of success and of a restart; error codes have the same numbers on both
    sides. *)
Theorem status_error_roundtrip flags code status error :
  flag flags MSM_HW_FENCE_FLAG_SIGNAL = true -> 0 <= status -> 0 <= error ->
  hw_fence_interop_to_synx_status code = code /\
  (hw_fence_interop_to_synx_signal_status flags (hw_fence_interop_to_hw_fence_error status) = status <->
     SYNX_STATE_SIGNALED_SUCCESS <= status) /\
  (hw_fence_interop_to_hw_fence_error (hw_fence_interop_to_synx_signal_status flags error) = error <->
     error <> SYNX_STATE_SIGNALED_SUCCESS /\ error <> SYNX_STATE_SIGNALED_SSR).
Proof.
  intros Hf Hs He. unfold hw_fence_interop_to_synx_status, hw_fence_interop_to_synx_signal_status,
    hw_fence_interop_to_hw_fence_error. rewrite Hf. cbn [negb].
  change SYNX_STATE_INVALID with 0. change SYNX_STATE_ACTIVE with 1. change SYNX_STATE_SIGNALED_SUCCESS with 2.
  change SYNX_STATE_SIGNALED_SSR with 6. change MSM_HW_FENCE_ERROR_RESET with 1. change SYNX_INVALID with 22.
  unfold SYNX_NOMEM, SYNX_NOPERM, SYNX_TIMEOUT, SYNX_ALREADY, SYNX_NOENT, SYNX_BUSY, SYNX_EAGAIN, ENOENT.
  change EINVAL with 22. split_and!; repeat case_match; lia.
Qed.

(** ** Calls of one driver *)

Section lifting.
Context {P : Type}.
Implicit Types (s : system P).

Lemma wp_on_drv {A} (m : DRV A) (Q : A -> system P -> Prop) s :
  wp m (fun a d => Q a (s <| sys_drv := d |>)) (sys_drv s) -> wp (on_drv m) Q s.
Proof. unfold wp, on_drv. by destruct (m (sys_drv s)). Qed.

Lemma wp_on_peer {A} (m : M P A) (Q : A -> system P -> Prop) s :
  wp m (fun a p => Q a (s <| sys_peer := p |>)) (sys_peer s) -> wp (on_peer m) Q s.
Proof. unfold wp, on_peer. by destruct (m (sys_peer s)). Qed.

(** A call whose outcome is known. *)
Lemma wp_drv_done {A} (m : DRV A) (Q : A -> system P -> Prop) s a d :
  m (sys_drv s) = Done a d -> Q a (s <| sys_drv := d |>) -> wp (on_drv m) Q s.
Proof. intros Hm HQ. apply wp_on_drv. by eapply wp_done. Qed.
End lifting.

(** ** Labelling an entry *)

(** The entry after [hw_fence_update_hsynx]. *)
Definition labelled (h_synx : Z) (wait_time : option Z) (f : msm_hw_fence) : msm_hw_fence :=
  match wait_time with
  | Some t => f <| hf_h_synx := h_synx |> <| hf_fence_wait_time := t |>
  | None => f <| hf_h_synx := h_synx |>
  end.

Lemma labelled_neutral h_synx o :
  lock_neutral (labelled h_synx o) /\ forall f, lock_held (labelled h_synx o (with_lock 1 f)).
Proof. by destruct o; apply lock_neutral_intro. Qed.

Lemma labelled_ok h_synx o f : entry_ok f -> entry_ok (labelled h_synx o f).
Proof. by destruct o. Qed.

Lemma update_hsynx_run d h f h_synx (wait_for : bool) :
  drv_ok d -> fence_at d h = Some f -> hf_h_synx f = 0 \/ hf_h_synx f = h_synx ->
  hw_fence_update_hsynx h h_synx wait_for d =
    Done 0 (if wait_for then put_fence h (labelled h_synx (Some (now d)) f) (ticked d)
            else put_fence h (labelled h_synx None f) d).
Proof.
  intros Hd E Hh. pose proof (do_table _ Hd) as Hok. pose proof (lock_free_at _ _ _ Hok E) as Hl.
  pose proof (locked_at_fence _ _ _ E) as E0.
  unfold hw_fence_update_hsynx. rewrite (bind_run _ _ d d d) by done.
  rewrite (get_hw_fence_in _ _ Hok (fence_at_in _ _ _ Hok E)).
  rewrite (bind_run _ _ _ _ _ (locked_at_run _ _ _ E Hl)), (bind_run _ _ _ _ _ (get_fence_run _ _ _ E0)).
  assert (negb (hf_h_synx (with_lock 1 f) =? 0) && negb (hf_h_synx (with_lock 1 f) =? h_synx) = false) as ->.
  { change (hf_h_synx (with_lock 1 f)) with (hf_h_synx f). destruct Hh as [->| ->]; [done|]. rewrite Z.eqb_refl. apply andb_false_r. }
  rewrite bind_assoc. set (g := fun x : msm_hw_fence => x <| hf_h_synx := h_synx |>).
  rewrite (bind_run _ _ _ _ _ (update_fence_run _ _ _ g E0)).
  destruct wait_for.
  - set (dg := put_fence h (g (with_lock 1 f)) (locked_at h d)). rewrite bind_assoc, bind_assoc.
    rewrite (bind_run _ _ dg (now d) (ticked dg)).
    2: { unfold dg, locked_at. by rewrite E. }
    assert (fence_at (ticked dg) h = Some (g (with_lock 1 f))) as Eg by (exact (fence_at_put_eq _ h _ _ E0)).
    rewrite (bind_run _ _ _ _ _ (update_fence_run _ _ _ (fun x => x <| hf_fence_wait_time := now d |>) Eg)).
    erewrite bind_run by done.
    destruct (labelled_neutral h_synx (Some (now d))) as [Hn Hhd].
    assert (ticked (locked_at h d) = locked_at h (ticked d)) as Ht.
    { unfold locked_at. rewrite ticked_fence. by rewrite E. }
    replace (put_fence h _ (ticked dg)) with (put_fence h (labelled h_synx (Some (now d)) (with_lock 1 f)) (locked_at h (ticked d))).
    2: { rewrite <- Ht. unfold dg, put_fence, ticked. simpl. by rewrite zset_zset. }
    by rewrite (bind_run _ _ _ _ _ (unlock_after (ticked d) h f _ E Hl Hn (Hhd f))).
  - erewrite bind_assoc, bind_run by done. erewrite bind_run by done.
    destruct (labelled_neutral h_synx None) as [Hn Hhd].
    by rewrite (bind_run _ _ _ _ _ (unlock_after d h f _ E Hl Hn (Hhd f))).
Qed.

(** ** Both drivers stay good *)

(** A label that does not fit is refused. *)
Lemma update_hsynx_refused d h f h_synx wait_for :
  drv_ok d -> fence_at d h = Some f -> hf_h_synx f <> 0 -> hf_h_synx f <> h_synx ->
  hw_fence_update_hsynx h h_synx wait_for d = Done (- EINVAL) d.
Proof.
  intros Hd E H0 Hne. pose proof (do_table _ Hd) as Hok. pose proof (lock_free_at _ _ _ Hok E) as Hl.
  unfold hw_fence_update_hsynx. rewrite (bind_run _ _ d d d) by done.
  rewrite (get_hw_fence_in _ _ Hok (fence_at_in _ _ _ Hok E)).
  rewrite (bind_run _ _ _ _ _ (locked_at_run _ _ _ E Hl)).
  rewrite (bind_run _ _ _ _ _ (get_fence_run _ _ _ (locked_at_fence _ _ _ E))).
  change (hf_h_synx (with_lock 1 f)) with (hf_h_synx f).
  destruct (Z.eqb_spec (hf_h_synx f) 0), (Z.eqb_spec (hf_h_synx f) h_synx); try done. cbn [negb andb].
  erewrite bind_run by done. by rewrite (bind_run _ _ _ _ _ (locked_at_unlock _ _ _ E Hl)).
Qed.

Lemma update_hsynx_dma d h h_synx wait_for :
  drv_ok d -> 0 <= h -> wp (hw_fence_update_hsynx h h_synx wait_for) (fun _ d' => drv_ok d' /\ same_dma d d') d.
Proof.
  intros Hd Hh. pose proof (do_table _ Hd) as Hok.
  destruct (decide (h < dd_hw_fences_tbl_cnt d)).
  2: { unfold wp, hw_fence_update_hsynx. rewrite (bind_run _ _ d d d) by done.
       by rewrite get_hw_fence_out by (done || lia). }
  destruct (fence_at_is_Some d h) as [f E]; [auto with fence|done|].
  pose proof (entry_ok_at _ _ _ Hd E) as Hf. unfold wp.
  destruct (decide (hf_h_synx f = 0 \/ hf_h_synx f = h_synx)) as [Hfit|Hne].
  - rewrite (update_hsynx_run d h f) by done.
    by destruct wait_for; (split; [apply drv_ok_put; [auto with fence|by apply labelled_ok]|]).
  - rewrite (update_hsynx_refused d h f) by (done || tauto). done.
Qed.

Section keeping.
Context {P : Type} `{PeerLaws P}.
Implicit Types (s : system P).

(** Both halves are good, and the dma-fence is still there. *)
Record both_ok (fence : Z) (s : system P) : Prop := {
  bo_drv : drv_ok (sys_drv s);
  bo_peer : peer_ok (sys_peer s);
  bo_fence : is_Some (dd_dma_fences (sys_drv s) !! fence) }.

Lemma both_drv {A} (m : DRV A) fence (Q : A -> system P -> Prop) s :
  both_ok fence s ->
  wp m (fun _ d' => drv_ok d' /\ same_dma (sys_drv s) d') (sys_drv s) ->
  (forall a s', both_ok fence s' -> Q a s') -> wp (on_drv m) Q s.
Proof.
  intros [Hd Hp Hf] Hm HQ. apply wp_on_drv. eapply wp_mono; [exact Hm|]. intros a d' [Hd' Hs]. apply HQ.
  split; [done|done|]. simpl. by rewrite Hs.
Qed.

Lemma update_interop_ok fence params handle s :
  both_ok fence s -> 0 <= handle ->
  wp (_update_interop_fence params handle) (fun _ s' => both_ok fence s') s.
Proof.
  intros Hb Hh. unfold _update_interop_fence. apply wp_bind, wp_get.
  destruct (ip_new_h_synx params) as [h0|]; [|by apply wp_ret].
  destruct (sys_interops s); cbn [negb]; [|by apply wp_ret]. apply wp_bind, wp_on_peer.
  eapply wp_mono; [by apply share_returns; [apply Hb|]|]. intros [[r written] status] p' [Hp' Hans]. simpl in Hans.
  assert (both_ok fence (s <| sys_peer := p' |>)) as Hb1 by (split; [apply Hb|done|apply Hb]).
  destruct (Z.eqb_spec r 0) as [->|]; cbn [negb orb].
  2: { apply wp_bind. eapply (both_drv _ fence); [done|apply destroy_refcount_dma; [apply Hb1|done]|]. intros. by apply wp_ret. }
  destruct (Hans eq_refl) as (st & -> & _). case_bool_decide.
  { apply wp_bind. eapply (both_drv _ fence); [done|apply destroy_refcount_dma; [apply Hb1|done]|]. intros. by apply wp_ret. }
  apply wp_bind, wp_ret, wp_bind.
  assert (forall r s2, both_ok fence s2 -> wp (if negb (r =? 0) then ret (r, Some (default h0 written))
    else r <-- on_drv (hw_fence_update_hsynx handle (default h0 written) false); ret (r, Some (default h0 written)))
    (fun _ s' => both_ok fence s') s2) as Hrest.
  { intros r s2 Hb2. case_match; [by apply wp_ret|]. apply wp_bind.
    eapply (both_drv _ fence); [done|apply update_hsynx_dma; [apply Hb2|done]|]. intros. by apply wp_ret. }
  case_match; [|by apply wp_ret, Hrest].
  eapply (both_drv _ fence); [done|apply signal_ok; [apply Hb1|done|done]|]. intros r s2 Hb2. by apply Hrest.
Qed.

(** Importing a dma-fence, whatever its state and whatever the synx driver answers,
    returns and leaves both drivers good: every lock is free and every table
    consistent. *)
Lemma import_keeps_both_ok params s :
  drv_ok (sys_drv s) -> peer_ok (sys_peer s) ->
  (forall p fence, params = Some p -> ip_fence p = Some fence -> is_Some (dd_dma_fences (sys_drv s) !! fence)) ->
  wp (hw_fence_interop_create_fence_from_import params)
     (fun _ s' => drv_ok (sys_drv s') /\ peer_ok (sys_peer s')) s.
Proof.
  intros Hd Hp Hf. unfold hw_fence_interop_create_fence_from_import.
  destruct params as [params|]; [|by apply wp_ret]. destruct (ip_fence params) as [fence|] eqn:Ef; [|by apply wp_ret].
  destruct (Hf _ fence eq_refl Ef) as [g Eg]. apply wp_bind.
  eapply wp_drv_done; [by apply get_dma_fence_run|]. destruct (test_dma_flag g _); [by apply wp_ret|].
  apply wp_bind. eapply wp_drv_done; [done|].
  match goal with |- context [dummy_client ?id ?b] => set (c := dummy_client id b) end.
  set (is_synx := test_dma_flag g SYNX_NATIVE_FENCE_FLAG_ENABLED_BIT) in *.
  apply wp_bind, wp_on_drv. eapply wp_mono; [apply create_ok, (drv_ok_ticked _ Hd)|].
  intros [r handle] d1 (Hd1 & Hh & Hr). destruct (Z.eqb_spec r 0) as [->|]; cbn [negb]; [|by apply wp_ret].
  specialize (Hr (or_intror eq_refl)). rename Hr into Hs. unfold same_dma in Hs. simpl in Hs, Hh. apply wp_bind. eapply wp_drv_done.
  { apply (set_dma_flag_run _ _ g). simpl. rewrite Hs. exact Eg. }
  match goal with |- wp _ _ ?x => set (s1 := x) end.
  assert (both_ok fence s1) as Hb1.
  { split; [by apply drv_ok_mark_dma|exact Hp|]. simpl. rewrite lookup_alter_eq, Hs. simpl. rewrite Eg. by eexists. }
  unfold import_attach. apply wp_bind. apply wp_mono with (Q := fun _ s' => both_ok fence s').
  { destruct is_synx; [by apply update_interop_ok|]. apply wp_bind.
    eapply (both_drv _ fence); [done|apply destroy_refcount_dma; [apply Hb1|done]|]. intros. by apply wp_ret. }
  intros [r new_h] s2 Hb2. apply wp_bind.
  apply wp_mono with (Q := fun _ s' => drv_ok (sys_drv s') /\ peer_ok (sys_peer s')).
  { case_match; [by apply wp_ret; destruct Hb2|]. apply wp_on_drv.
    eapply wp_mono; [apply add_callback_ok; [apply Hb2|done|apply Hb2]|]. intros ? d' ?. by destruct Hb2. }
  intros r2 s3 [Hd3 Hp3]. apply wp_bind, wp_on_drv. eapply wp_mono; [by apply destroy_with_hash_ok|].
  intros. by apply wp_ret.
Qed.
End keeping.

(** ** What an import leaves behind *)

Section importing.
Context {P : Type} `{Peer P}.
Implicit Types (s : system P).

(** The entry, and the state, when the fence of an import is made: marked as having a
    hardware fence, with the references of a new entry. *)
Definition imported (is_synx : bool) (g : dma_fence) (d : driver_data) (f : msm_hw_fence) : msm_hw_fence :=
  reserved (if is_synx then HW_FENCE_SYNX_FENCE_CLIENT_ID else HW_FENCE_NATIVE_FENCE_CLIENT_ID)
    (df_context g) (df_seqno g) 0 (now (ticked (ticked d))) f.

Definition import_start (fence h : Z) (fr : msm_hw_fence) (d : driver_data) : driver_data :=
  mark_dma fence MSM_HW_FENCE_FLAG_ENABLED_BIT
    (put_key h fence (put_fence h fr (ticked (ticked (ticked d))))).

(** The state of an import that gets a new fence: the dma-fence [fence] is [g], has no
    hardware fence yet, and the entry for it is [h], which holds [f] and is free. *)
Record importable (s : system P) (params : import_params) (fence : Z) (g : dma_fence) (h : Z) (f : msm_hw_fence)
  : Prop := {
  im_fence : ip_fence params = Some fence;
  im_ok : drv_ok (sys_drv s);
  im_ready : dd_fctl_ready (sys_drv s) = true;
  im_dma : dd_dma_fences (sys_drv s) !! fence = Some g;
  im_new : test_dma_flag g MSM_HW_FENCE_FLAG_ENABLED_BIT = false;
  im_slot : exists k, h = probe (sys_drv s) (df_context g) (df_seqno g) k /\
    find_step (sys_drv s) (create_hit (sys_drv s) fence (df_context g) (df_seqno g))
      (df_context g) (df_seqno g) = Some k;
  im_entry : fence_at (sys_drv s) h = Some f;
  im_free : hf_valid f = 0 }.

Lemma import_created s params fence g h f :
  let d := sys_drv s in
  importable s params fence g h f ->
  let is_synx := test_dma_flag g SYNX_NATIVE_FENCE_FLAG_ENABLED_BIT in
  let fr := imported is_synx g d f in
  let d1 := import_start fence h fr d in
  hw_fence_interop_create_fence_from_import (Some params) s
    = import_attach params fence is_synx h (s <| sys_drv := d1 |>) /\
  drv_ok d1 /\ fence_at d1 h = Some fr /\ 0 <= h < dd_hw_fences_tbl_cnt d.
Proof.
  intros d [Ef Hd Hr Eg Hen (k & Eh & Ek) E Hv] is_synx fr d1. fold d in Hd, Hr, Eg, Eh, Ek, E. pose proof (do_table _ Hd) as Hok.
  set (c := dummy_client (if is_synx then HW_FENCE_SYNX_FENCE_CLIENT_ID else HW_FENCE_NATIVE_FENCE_CLIENT_ID) false).
  assert (_hw_fence_lookup_and_create (cl_client_id c) fence (df_context g) (df_seqno g) 0 0 (ticked d)
          = Done (Some h, h) (put_key h fence (put_fence h fr (ticked (ticked (ticked d)))))) as Hc.
  { rewrite create_run by auto with fence.
    change (find_step (ticked d)) with (find_step d). change (create_hit (ticked d)) with (create_hit d).
    rewrite Ek. change (probe (ticked d)) with (probe d). rewrite <- Eh. unfold create_result.
    by rewrite !ticked_fence, E, Hv. }
  destruct (hw_fence_create_run (ticked d) c fence (df_context g) (df_seqno g) 0 h h
      (put_key h fence (put_fence h fr (ticked (ticked (ticked d)))))) as (f' & E' & Hh & Hrun);
    [auto with fence|done|exact Hc|].
  assert (f' = f) as -> by (change (fence_at d h = Some f') in E'; congruence).
  assert (set_refs (fresh_refs <| rf_fctl := negb (cl_skip_fctl_ref c) |>) fr = fr) as Hset
    by exact (set_refs_same fresh_refs fr eq_refl (reserved_refs _ _ _ _ _ _)).
  set (d2 := put_key h fence (put_fence h fr (ticked (ticked (ticked d))))).
  assert (hw_fence_create c fence (df_context g) (df_seqno g) 0 (ticked d) = Done (0, h) d2) as Hcr.
  { rewrite Hrun. change (reserved (cl_client_id c) _ _ _ _ f) with fr. by rewrite Hset. }
  assert (dd_dma_fences d2 !! fence = Some g) as Eg2 by done.
  split.
  - unfold hw_fence_interop_create_fence_from_import. rewrite Ef. erewrite bind_run.
    2: { unfold on_drv. fold d. by rewrite (get_dma_fence_run _ _ _ Eg). }
    rewrite Hen. erewrite bind_run.
    2: { unfold on_drv. simpl sys_drv. by rewrite (uninit_bool_run d (to_stack _ Hok)). }
    cbv beta iota zeta. fold is_synx. fold c. erewrite bind_run by (unfold on_drv; simpl sys_drv; by rewrite Hcr).
    cbv beta iota. change (negb (0 =? 0)) with false. cbv iota.
    erewrite bind_run by (unfold on_drv; simpl sys_drv; by rewrite (set_dma_flag_run _ _ _ _ Eg2)).
    done.
  - split; [|split; [|done]].
    + apply drv_ok_mark_dma, drv_ok_put_key, drv_ok_put; [auto with fence|].
      apply (reserved_ok _ _ _ _ _ f). exact (entry_ok_at _ _ _ Hd E).
    + exact (fence_at_put_eq (ticked (ticked (ticked d))) h fr f E).
Qed.

Lemma import_start_frame fence h fr d :
  dd_env (import_start fence h fr d) = dd_env d /\ dd_tick (import_start fence h fr d) = (3 + dd_tick d)%nat /\
  forall x, x <> h -> fence_at (import_start fence h fr d) x = fence_at d x.
Proof.
  split; [done|]. split; [done|]. intros x Hx.
  transitivity (fence_at (put_fence h fr (ticked (ticked (ticked d)))) x); [done|].
  by rewrite fence_at_put_ne by congruence.
Qed.

Lemma imported_refs is_synx g d f : hf_refcount (imported is_synx g d f) = refs_word fresh_refs.
Proof. exact (reserved_refs _ _ _ _ _ _). Qed.

Lemma imported_facts is_synx g d f :
  let fr := imported is_synx g d f in
  hf_refcount fr = refs_word fresh_refs /\ hf_flags fr = 0 /\ hf_parents_cnt fr = 0 /\
  hf_ctx_id fr = df_context g /\ hf_seq_id fr = df_seqno g /\ hf_h_synx fr = 0 /\ hf_wait_client_mask fr = 0.
Proof. intros fr. split; [apply imported_refs|]. done. Qed.

(** Dropping the reference of the importer. *)
Lemma creator_leaves d h f r :
  drv_ok d -> fence_at d h = Some f -> refs_wf r -> hf_refcount f = refs_word r -> rf_hlos r = 1 ->
  flag (hf_flags f) MSM_HW_FENCE_FLAG_INTERNAL_OWNED = false ->
  hw_fence_destroy_with_hash h d = Done 0 (put_fence h (set_refs (r <| rf_hlos := 0 |>) f) d) /\
  drv_ok (put_fence h (set_refs (r <| rf_hlos := 0 |>) f) d).
Proof.
  intros Hd E Hr Ew H1 Hint. pose proof (do_table _ Hd) as Hok.
  assert (hw_fence_destroy_with_hash h d = Done 0 (put_fence h (set_refs (r <| rf_hlos := 0 |>) f) d)) as Hrun.
  { rewrite (destroy_with_hash_refs_run d h f r Hok E Hr Ew Hint), H1. change (1 =? 0) with false. cbv iota.
    by replace (r <| rf_hlos ::= Z.pred |>) with (r <| rf_hlos := 0 |>) by (destruct r; simpl in *; by subst). }
  split; [done|]. pose proof (destroy_with_hash_ok d h Hd (proj1 (fence_at_bounds _ _ _ E))) as H'.
  unfold wp in H'. by rewrite Hrun in H'.
Qed.

(** [import_attach] once the signaling side is settled, with one reference left, that
    of the importer (and the controller's, when a synx object signals the fence). *)
Definition attach_tail (fence h : Z) : DRV Z :=
  r <-- hw_fence_add_callback fence h;
  destroy_ret <-- hw_fence_destroy_with_hash h;
  ret (if negb (destroy_ret =? 0) then destroy_ret else r).

Lemma attach_tail_lift fence h (nh : option Z) s r d' :
  attach_tail fence h (sys_drv s) = Done r d' ->
  (r <-- on_drv (hw_fence_add_callback fence h);
   destroy_ret <-- on_drv (hw_fence_destroy_with_hash h);
   ret (hw_fence_interop_to_synx_status (if negb (destroy_ret =? 0) then destroy_ret else r), nh)) s
  = Done (hw_fence_interop_to_synx_status r, nh) (s <| sys_drv := d' |>).
Proof.
  unfold attach_tail, on_drv, bind, ret. destruct (hw_fence_add_callback _ _ _) as [r1 d1|]; [|done]. simpl.
  destruct (hw_fence_destroy_with_hash _ _) as [r2 d2|]; [|done]. by intros [= <- <-].
Qed.

(** [keeps]: the controller still has its reference. *)
Lemma attach_tail_run d fence g h fr (keeps : bool) :
  drv_ok d -> dd_dma_fences d !! fence = Some g -> stands_for fr g -> fence_at d h = Some fr ->
  hf_refcount fr = refs_word (mk_refs keeps false 1) -> hf_flags fr = 0 -> hf_parents_cnt fr = 0 ->
  env_alloc_fails (dd_env d) (dd_tick d) = false ->
  let refused := env_dma_signaled (dd_env d) fence (S (dd_tick d)) in
  let signaled_now := env_dma_signaled (dd_env d) fence (S (S (dd_tick d))) in
  exists d', attach_tail fence h d = Done (if refused && negb signaled_now then - ENOENT else 0) d' /\ drv_ok d' /\
    fence_at d' h
      = Some (set_refs (mk_refs keeps (negb refused) 0)
                (if refused && signaled_now then signaled (u32 (df_error g)) fr else fr)) /\
    forall x, x <> h -> fence_at d' x = fence_at d x.
Proof.
  intros Hd Eg Hst E Ew Hfl Hpc Ha refused signaled_now. set (r := mk_refs keeps false 1) in *.
  assert (parents_of fr = []) as Hpar by (unfold parents_of; by rewrite Hpc).
  destruct (add_callback_spec d h fr r fence g) as (d1 & Hcb & Hd1 & E1 & Hfr); try done.
  { unfold is_signaled_hw. by rewrite Hfl. }
  { by rewrite Hpc. }
  { rewrite Hpar. by apply NoDup_nil. }
  { rewrite Hpar. apply not_elem_of_nil. }
  { unfold r, no_refs. simpl. by rewrite andb_false_r. }
  fold refused signaled_now in Hcb, E1.
  assert (forall fe re, fence_at d1 h = Some fe -> refs_wf re -> hf_refcount fe = refs_word re -> rf_hlos re = 1 ->
    flag (hf_flags fe) MSM_HW_FENCE_FLAG_INTERNAL_OWNED = false ->
    exists d', attach_tail fence h d = Done (if refused && negb signaled_now then - ENOENT else 0) d' /\ drv_ok d' /\
      fence_at d' h = Some (set_refs (re <| rf_hlos := 0 |>) fe) /\
      forall x, x <> h -> fence_at d' x = fence_at d x) as Hend.
  { intros fe re Ee Hre Ewe H1 Hint. destruct (creator_leaves d1 h fe re Hd1 Ee Hre Ewe H1 Hint) as [Hl Hok].
    eexists. unfold attach_tail. rewrite (bind_run _ _ _ _ _ Hcb), (bind_run _ _ _ _ _ Hl). split; [done|].
    split; [exact Hok|]. split; [exact (fence_at_put_eq d1 h _ fe Ee)|].
    intros x Hx. rewrite fence_at_put_ne by congruence. apply Hfr; [done|rewrite Hpar; apply not_elem_of_nil]. }
  clearbody refused signaled_now. destruct refused; [destruct signaled_now|]; cbn [negb andb] in E1, Hend |- *.
  - apply (Hend _ r E1); [done|exact Ew|done|unfold signaled; simpl; by rewrite Hfl].
  - apply (Hend _ r E1); [done|exact Ew|done|by rewrite Hfl].
  - set (r' := mk_refs keeps true 1). rewrite <- (set_refs_set_refcount fr _ (refs_word r')).
    apply (Hend _ r' E1); [done|done|done|simpl; by rewrite Hfl].
Qed.

Lemma import_start_dma fence h fr d g :
  dd_dma_fences d !! fence = Some g -> 0 <= MSM_HW_FENCE_FLAG_ENABLED_BIT ->
  exists g', dd_dma_fences (import_start fence h fr d) !! fence = Some g' /\
    df_context g' = df_context g /\ df_seqno g' = df_seqno g /\ df_error g' = df_error g /\
    test_dma_flag g' MSM_HW_FENCE_FLAG_ENABLED_BIT = true.
Proof.
  intros Eg Hb. destruct (mark_dma_flag fence MSM_HW_FENCE_FLAG_ENABLED_BIT
    (put_key h fence (put_fence h fr (ticked (ticked (ticked d))))) g Hb Eg) as (g' & E' & Ht).
  exists g'. split; [exact E'|]. simpl in E'. rewrite lookup_alter_eq, Eg in E'. injection E' as <-. done.
Qed.

Lemma refcount_ok w f : entry_ok f -> entry_ok (f <| hf_refcount := w |>).
Proof. done. Qed.

Lemma with_refs_facts w f :
  let f' := f <| hf_refcount := w |> in
  hf_refcount f' = w /\ hf_flags f' = hf_flags f /\ hf_parents_cnt f' = hf_parents_cnt f /\
  hf_ctx_id f' = hf_ctx_id f /\ hf_seq_id f' = hf_seq_id f /\
  (forall r, set_refs r f' = set_refs r f) /\
  (forall r error, set_refs r (signaled error f') = set_refs r (signaled error f)).
Proof.
  do 5 (split; [done|]). split; [intros; apply set_refs_set_refcount|].
  intros r error. exact (set_refs_set_refcount (signaled error f) r w).
Qed.

Lemma put_fence_frame h f d :
  dd_env (put_fence h f d) = dd_env d /\ dd_tick (put_fence h f d) = dd_tick d /\
  dd_dma_fences (put_fence h f d) = dd_dma_fences d.
Proof. done. Qed.

(** The controller's reference of a fence it will never signal: what is left to do, and the
    state to do it in. *)
Lemma attach_native fence h fr d :
  drv_ok d -> fence_at d h = Some fr -> hf_refcount fr = refs_word fresh_refs ->
  exists f1 d1,
    (forall params s r d', sys_drv s = d -> attach_tail fence h d1 = Done r d' ->
       import_attach params fence false h s
       = Done (hw_fence_interop_to_synx_status r, ip_new_h_synx params) (s <| sys_drv := d' |>)) /\
    (drv_ok d1 /\ fence_at d1 h = Some f1 /\ (forall x, x <> h -> fence_at d1 x = fence_at d x) /\
     dd_env d1 = dd_env d /\ dd_tick d1 = dd_tick d /\ dd_dma_fences d1 = dd_dma_fences d) /\
    hf_refcount f1 = refs_word (mk_refs false false 1) /\ hf_flags f1 = hf_flags fr /\
    hf_parents_cnt f1 = hf_parents_cnt fr /\ hf_ctx_id f1 = hf_ctx_id fr /\ hf_seq_id f1 = hf_seq_id fr /\
    (forall r, set_refs r f1 = set_refs r fr) /\
    (forall r error, set_refs r (signaled error f1) = set_refs r (signaled error fr)).
Proof.
  intros Hd E Ew. pose proof (do_table _ Hd) as Hok. set (r1 := mk_refs false false 1).
  pose proof (drop_fctl_refs_run d h fr fresh_refs Hok E ltac:(done) Ew) as Hdrop. simpl rf_fctl in Hdrop.
  assert (set_refs r1 fr = fr <| hf_refcount := refs_word r1 |>) as Ef1 by exact (set_refs_live r1 fr eq_refl).
  change (fresh_refs <| rf_fctl := false |>) with r1 in Hdrop. cbv iota in Hdrop. rewrite Ef1 in Hdrop. clear Ef1.
  exists (fr <| hf_refcount := refs_word r1 |>), (put_fence h (fr <| hf_refcount := refs_word r1 |>) d).
  split; [|split; [|exact (with_refs_facts (refs_word r1) fr)]].
  - intros params s r d' Es Ht. set (d1 := put_fence h _ d) in *. set (s1 := s <| sys_drv := d1 |>).
    assert ((r <-- on_drv (hw_fence_destroy_refcount h HW_FENCE_FCTL_REFCOUNT); ret (r, ip_new_h_synx params)) s
            = Done (0, ip_new_h_synx params) s1) as H1.
    { erewrite bind_run by (unfold on_drv; rewrite Es; by rewrite Hdrop). done. }
    unfold import_attach. rewrite (bind_run _ _ _ _ _ H1). cbv beta iota zeta. change (negb (0 =? 0)) with false.
    cbv iota. exact (attach_tail_lift fence h (ip_new_h_synx params) s1 r d' Ht).
  - split; [apply drv_ok_put; [done|]; apply refcount_ok; exact (entry_ok_at _ _ _ Hd E)|].
    split; [exact (fence_at_put_eq d h _ fr E)|]. split; [intros; by apply fence_at_put_ne|].
    exact (put_fence_frame h _ d).
Qed.

(** C22: importing a dma-fence that neither a firmware nor a synx object
    signals.  The kernel takes the callback, and the entry keeps one reference, that
    of its callback; or the kernel has the fence signaled meanwhile, and the entry is
    signaled with the fence's error and, as nobody waits, freed; or the kernel refuses,
    and the entry is freed. *)
Theorem import_native_spec s params fence g h f :
  let d := sys_drv s in
  importable s params fence g h f ->
  test_dma_flag g SYNX_NATIVE_FENCE_FLAG_ENABLED_BIT = false ->
  env_alloc_fails (dd_env d) (3 + dd_tick d) = false ->
  let refused := env_dma_signaled (dd_env d) fence (4 + dd_tick d) in
  let signaled_now := env_dma_signaled (dd_env d) fence (5 + dd_tick d) in
  let fr := imported false g d f in
  exists s',
    hw_fence_interop_create_fence_from_import (Some params) s
      = Done (if refused && negb signaled_now then - SYNX_NOENT else 0, ip_new_h_synx params) s' /\
    drv_ok (sys_drv s') /\ sys_peer s' = sys_peer s /\
    fence_at (sys_drv s') h
      = Some (set_refs (mk_refs false (negb refused) 0)
                (if refused && signaled_now then signaled (u32 (df_error g)) fr else fr)) /\
    forall x, x <> h -> fence_at (sys_drv s') x = fence_at d x.
Proof.
  intros d Him Hsy Ha refused signaled_now fr. pose proof (im_dma _ _ _ _ _ _ Him) as Eg.
  destruct (import_created s params fence g h f Him) as (Hrun & Hd1 & E1 & Hh).
  rewrite Hsy in Hrun, Hd1, E1. fold d in Hrun, Hd1, E1. fold fr in Hrun, Hd1, E1.
  destruct (imported_facts false g d f) as (Ew & Hfl & Hpc & Hc & Hq & _). fold fr in Ew, Hfl, Hpc, Hc, Hq.
  destruct (import_start_frame fence h fr d) as (Henv & Htick & Hfr).
  destruct (import_start_dma fence h fr d g Eg) as (g1 & Eg1 & Hc1 & Hq1 & Her & _); [done|].
  set (d1 := import_start fence h fr d) in *. clearbody d1 fr. set (s1 := s <| sys_drv := d1 |>) in Hrun.
  destruct (attach_native fence h fr d1 Hd1 E1 Ew)
    as (f1 & d2 & Hatt & (Hd2 & E2 & Hfr2 & Henv2 & Htick2 & Hdma2) & Ew1 & Hfl1 & Hpc1 & Hc1' & Hq1' & Hset & Hsets).
  destruct (attach_tail_run d2 fence g1 h f1 false) as (d3 & Hrun3 & Hd3 & E3 & Hfr3); try congruence.
  { split; congruence. }
  rewrite Henv2, Htick2, Henv, Htick, Her in *. change (S (3 + dd_tick d)) with (4 + dd_tick d)%nat in *.
  change (S (4 + dd_tick d)) with (5 + dd_tick d)%nat in *. fold refused signaled_now in Hrun3, E3.
  exists (s1 <| sys_drv := d3 |>). split.
  { rewrite Hrun, (Hatt params s1 _ d3 eq_refl Hrun3). by destruct refused, signaled_now. }
  split; [exact Hd3|]. split; [done|]. split.
  - transitivity (fence_at d3 h); [done|]. rewrite E3. f_equal. by destruct (refused && signaled_now).
  - intros x Hx. transitivity (fence_at d3 x); [done|]. rewrite Hfr3, Hfr2 by done. by apply Hfr.
Qed.

Lemma add_callback_no_memory d h f fence :
  drv_ok d -> fence_at d h = Some f -> env_alloc_fails (dd_env d) (dd_tick d) = true ->
  hw_fence_add_callback fence h d = Done (- ENOMEM) (ticked d).
Proof.
  intros Hd E Ha. pose proof (do_table _ Hd) as Hok.
  unfold hw_fence_add_callback. rewrite (bind_run _ _ d d d) by done.
  rewrite (get_hw_fence_in _ _ Hok (fence_at_in _ _ _ Hok E)).
  rewrite (bind_run _ _ _ None (ticked d)); [done|].
  unfold kzalloc, bind, get, tick, put, ret. simpl. by rewrite Ha.
Qed.

(** An import that runs out of memory for the kernel callback gives its fence back,
    and the driver is good; but the dma-fence stays marked as having a hardware fence,
    so the next import of it reports success and does nothing. *)
Theorem import_retry_reports_success s params fence g h f :
  let d := sys_drv s in
  importable s params fence g h f ->
  test_dma_flag g SYNX_NATIVE_FENCE_FLAG_ENABLED_BIT = false ->
  env_alloc_fails (dd_env d) (3 + dd_tick d) = true ->
  let import := hw_fence_interop_create_fence_from_import (Some params) in
  exists s', import s = Done (- SYNX_NOMEM, ip_new_h_synx params) s' /\ drv_ok (sys_drv s') /\
    (forall x f', fence_at (sys_drv s') x = Some f' -> x = h /\ hf_valid f' = 0 \/ fence_at d x = Some f') /\
    import s' = Done (0, ip_new_h_synx params) s'.
Proof.
  intros d Him Hsy Ha import. pose proof (im_dma _ _ _ _ _ _ Him) as Eg. pose proof (im_fence _ _ _ _ _ _ Him) as Ef.
  destruct (import_created s params fence g h f Him) as (Hrun & Hd1 & E1 & Hh).
  rewrite Hsy in Hrun, Hd1, E1. fold d in Hrun, Hd1, E1. fold import in Hrun. set (fr := imported false g d f) in *.
  destruct (imported_facts false g d f) as (Ew & Hfl & _). fold fr in Ew, Hfl.
  destruct (import_start_frame fence h fr d) as (Henv & Htick & Hfr).
  destruct (import_start_dma fence h fr d g Eg) as (g1 & Eg1 & _ & _ & _ & Hm); [done|].
  set (d1 := import_start fence h fr d) in *. clearbody d1 fr. set (s1 := s <| sys_drv := d1 |>) in Hrun.
  destruct (attach_native fence h fr d1 Hd1 E1 Ew)
    as (f1 & d2 & Hatt & (Hd2 & E2 & Hfr2 & Henv2 & Htick2 & Hdma2) & Ew1 & Hfl1 & _ & _ & _ & Hset & _).
  assert (hw_fence_add_callback fence h d2 = Done (- ENOMEM) (ticked d2)) as Hcb.
  { apply (add_callback_no_memory d2 h f1 fence Hd2 E2). by rewrite Henv2, Htick2, Henv, Htick. }
  destruct (creator_leaves (ticked d2) h f1 (mk_refs false false 1)) as [Hl Hok];
    [by apply drv_ok_ticked|done|done|done|done|by rewrite Hfl1, Hfl|].
  change ((mk_refs false false 1) <| rf_hlos := 0 |>) with (mk_refs false false 0) in *. rewrite Hset in *.
  set (d4 := put_fence h _ (ticked d2)) in *.
  assert (attach_tail fence h d2 = Done (- ENOMEM) d4) as Ht.
  { unfold attach_tail. by rewrite (bind_run _ _ _ _ _ Hcb), (bind_run _ _ _ _ _ Hl). }
  exists (s1 <| sys_drv := d4 |>). split; [by rewrite Hrun, (Hatt params s1 _ d4 eq_refl Ht)|].
  split; [exact Hok|]. split.
  - intros x f' Ex. change (fence_at d4 x = Some f') in Ex. destruct (decide (x = h)) as [->|Hx].
    + left. split; [done|]. unfold d4 in Ex. rewrite (fence_at_put_eq (ticked d2) h _ f1 E2) in Ex. by injection Ex as <-.
    + right. unfold d4 in Ex. rewrite fence_at_put_ne, ticked_fence, Hfr2, Hfr in Ex by done. done.
  - unfold import, hw_fence_interop_create_fence_from_import. rewrite Ef.
    assert (on_drv (get_dma_fence fence) (s1 <| sys_drv := d4 |>) = Done g1 (s1 <| sys_drv := d4 |>)) as Hg.
    { unfold on_drv. rewrite (get_dma_fence_run _ fence g1); [done|].
      change (dd_dma_fences d2 !! fence = Some g1). by rewrite Hdma2. }
    rewrite (bind_run _ _ _ _ _ Hg), Hm. done.
Qed.

Lemma labelled_facts h_synx f :
  let f' := labelled h_synx None f in
  hf_refcount f' = hf_refcount f /\ hf_flags f' = hf_flags f /\ hf_parents_cnt f' = hf_parents_cnt f /\
  hf_ctx_id f' = hf_ctx_id f /\ hf_seq_id f' = hf_seq_id f /\ hf_h_synx f' = h_synx.
Proof. done. Qed.

(** The handles are exchanged: what is left to do, and the state to do it in. *)
Lemma attach_synx params fence h fr h0 h_synx s p' :
  let d := sys_drv s in
  ip_new_h_synx params = Some h0 ->
  drv_ok d -> fence_at d h = Some fr -> hf_h_synx fr = 0 -> sys_interops s = true ->
  peer_share_handle_status params h (sys_peer s) = Done (0, Some h_synx, Some SYNX_STATE_ACTIVE) p' ->
  exists d1,
    (forall r d', attach_tail fence h d1 = Done r d' ->
       import_attach params fence true h s
       = Done (hw_fence_interop_to_synx_status r, Some h_synx) (s <| sys_peer := p' |> <| sys_drv := d' |>)) /\
    drv_ok d1 /\ fence_at d1 h = Some (labelled h_synx None fr) /\
    (forall x, x <> h -> fence_at d1 x = fence_at d x) /\
    dd_env d1 = dd_env d /\ dd_tick d1 = dd_tick d /\ dd_dma_fences d1 = dd_dma_fences d.
Proof.
  intros d Enh Hd E H0 Hi Hp. pose proof (update_hsynx_run d h fr h_synx false Hd E (or_introl H0)) as Hu. cbv iota in Hu.
  assert (entry_ok (labelled h_synx None fr)) as Hok by (apply labelled_ok; exact (entry_ok_at _ _ _ Hd E)).
  set (fl := labelled h_synx None fr) in *. clearbody fl. exists (put_fence h fl d). split.
  - intros r d' Ht. set (s1 := s <| sys_peer := p' |>). set (s2 := s1 <| sys_drv := put_fence h fl d |>).
    assert (on_peer (peer_share_handle_status params h) s = Done (0, Some h_synx, Some SYNX_STATE_ACTIVE) s1) as H1
      by (unfold on_peer; by rewrite Hp).
    assert (on_drv (hw_fence_update_hsynx h h_synx false) s1 = Done 0 s2) as H2
      by (unfold on_drv; change (sys_drv s1) with d; by rewrite Hu).
    assert (_update_interop_fence params h s = Done (0, Some h_synx) s2) as H3.
    { unfold _update_interop_fence. rewrite (bind_run _ _ s s s) by done. rewrite Enh, Hi. cbn [negb].
      rewrite (bind_run _ _ _ _ _ H1). cbv beta iota zeta.
      change (negb (0 =? 0) || bool_decide (Some SYNX_STATE_ACTIVE = Some SYNX_STATE_INVALID)) with false. cbv iota.
      rewrite (bind_run _ _ s1 SYNX_STATE_ACTIVE s1) by done.
      change (negb (SYNX_STATE_ACTIVE =? SYNX_STATE_ACTIVE)) with false. cbv iota.
      rewrite (bind_run _ _ s1 0 s1) by done. change (negb (0 =? 0)) with false. cbv iota.
      rewrite (bind_run _ _ _ _ _ H2). done. }
    unfold import_attach. rewrite (bind_run _ _ _ _ _ H3). cbv beta iota zeta. change (negb (0 =? 0)) with false.
    cbv iota. exact (attach_tail_lift fence h (Some h_synx) s2 r d' Ht).
  - split; [by apply drv_ok_put|].
    split; [exact (fence_at_put_eq d h _ fr E)|]. split; [intros; by apply fence_at_put_ne|].
    exact (put_fence_frame h _ d).
Qed.

(** Importing a dma-fence that an active synx object signals, when the synx
    driver takes the handle and answers with its own.  The entry keeps the reference
    of the controller, which will hear of the signal, and that of the kernel callback;
    it carries the synx handle, which is also what the importer gets. *)
Lemma import_synx_run s params fence g h h0 f h_synx p' :
  let d := sys_drv s in
  importable s params fence g h f -> ip_new_h_synx params = Some h0 ->
  test_dma_flag g SYNX_NATIVE_FENCE_FLAG_ENABLED_BIT = true ->
  env_alloc_fails (dd_env d) (3 + dd_tick d) = false ->
  sys_interops s = true ->
  peer_share_handle_status params h (sys_peer s) = Done (0, Some h_synx, Some SYNX_STATE_ACTIVE) p' ->
  let refused := env_dma_signaled (dd_env d) fence (4 + dd_tick d) in
  let signaled_now := env_dma_signaled (dd_env d) fence (5 + dd_tick d) in
  let fr := labelled h_synx None (imported true g d f) in
  exists s',
    hw_fence_interop_create_fence_from_import (Some params) s
      = Done (if refused && negb signaled_now then - SYNX_NOENT else 0, Some h_synx) s' /\
    drv_ok (sys_drv s') /\ sys_peer s' = p' /\
    fence_at (sys_drv s') h
      = Some (set_refs (mk_refs true (negb refused) 0)
                (if refused && signaled_now then signaled (u32 (df_error g)) fr else fr)) /\
    forall x, x <> h -> fence_at (sys_drv s') x = fence_at d x.
Proof.
  intros d Him Enh Hsy Ha Hi Hp refused signaled_now fr. pose proof (im_dma _ _ _ _ _ _ Him) as Eg.
  destruct (import_created s params fence g h f Him) as (Hrun & Hd1 & E1 & Hh).
  rewrite Hsy in Hrun, Hd1, E1. fold d in Hrun, Hd1, E1. set (f0 := imported true g d f) in *.
  destruct (imported_facts true g d f) as (Ew & Hfl & Hpc & Hc & Hq & H0 & _). fold f0 in Ew, Hfl, Hpc, Hc, Hq, H0.
  destruct (import_start_frame fence h f0 d) as (Henv & Htick & Hfr).
  destruct (import_start_dma fence h f0 d g Eg) as (g1 & Eg1 & Hc1 & Hq1 & Her & _); [done|].
  set (d1 := import_start fence h f0 d) in *. clearbody d1 f0. set (s1 := s <| sys_drv := d1 |>) in Hrun.
  destruct (attach_synx params fence h f0 h0 h_synx s1 p' Enh Hd1 E1 H0 Hi Hp)
    as (d2 & Hatt & Hd2 & E2 & Hfr2 & Henv2 & Htick2 & Hdma2).
  destruct (labelled_facts h_synx f0) as (Ew1 & Hfl1 & Hpc1 & Hc1' & Hq1' & _). fold fr in E2, Ew1, Hfl1, Hpc1, Hc1', Hq1'.
  change (sys_drv s1) with d1 in *. clearbody fr.
  destruct (attach_tail_run d2 fence g1 h fr true) as (d3 & Hrun3 & Hd3 & E3 & Hfr3); try congruence.
  { split; congruence. }
  { change (mk_refs true false 1) with fresh_refs. congruence. }
  rewrite Henv2, Htick2, Henv, Htick, Her in *. change (S (3 + dd_tick d)) with (4 + dd_tick d)%nat in *.
  change (S (4 + dd_tick d)) with (5 + dd_tick d)%nat in *. fold refused signaled_now in Hrun3, E3.
  eexists. split.
  { rewrite Hrun, (Hatt _ _ Hrun3). replace (hw_fence_interop_to_synx_status (if refused && negb signaled_now then - ENOENT else 0))
      with (if refused && negb signaled_now then - SYNX_NOENT else 0) by (by destruct refused, signaled_now). done. }
  split; [exact Hd3|]. split; [done|]. split; [exact E3|].
  intros x Hx. transitivity (fence_at d3 x); [done|]. rewrite Hfr3, Hfr2 by done. by apply Hfr.
Qed.
End importing.

(** ** What the synx driver is told *)

Lemma labelled_detached h_synx o : detached (labelled h_synx o).
Proof. by destruct o. Qed.

Lemma signal_status_range f :
  0 <= hf_error f ->
  let status := hw_fence_interop_to_synx_signal_status (hf_flags f) (hf_error f) in
  if is_signaled_hw f then SYNX_STATE_SIGNALED_SUCCESS <= status else status = SYNX_STATE_ACTIVE.
Proof.
  intros He. unfold is_signaled_hw, hw_fence_interop_to_synx_signal_status.
  destruct (flag _ _); [|done]. cbn [negb].
  change SYNX_STATE_SIGNALED_SUCCESS with 2. change SYNX_STATE_SIGNALED_SSR with 6. change MSM_HW_FENCE_ERROR_RESET with 1.
  repeat case_match; lia.
Qed.

(** The guards, passed. *)
Lemma share_guards d fence g h_new flags h_synx :
  dd_resources_ready d = true -> dd_fctl_ready d = true ->
  flag flags SYNX_IMPORT_DMA_FENCE = true -> flag flags SYNX_IMPORT_SYNX_FENCE = false ->
  dd_dma_fences d !! fence = Some g -> test_dma_flag g MSM_HW_FENCE_FLAG_ENABLED_BIT = true ->
  hw_fence_interop_share_handle_status (Some (mk_import_params (Some fence) (Some h_new) flags)) h_synx d
  = share_fence fence h_synx d.
Proof.
  intros Hres Hr Hf1 Hf2 Eg Hen.
  unfold hw_fence_interop_share_handle_status. rewrite (bind_run _ _ d 0 d) by (unfold hw_fence_check_hw_fence_driver, bind, get, ret; by rewrite Hres).
  change (negb (0 =? 0)) with false. cbv iota. rewrite (bind_run _ _ d d d) by done. rewrite Hr, Hf1, Hf2. cbn [negb orb].
  rewrite (bind_run _ _ _ _ _ (get_dma_fence_run _ _ _ Eg)), Hen. cbn [negb].
  done.
Qed.

(** An entry, with a reference taken to look at it. *)
Lemma share_entry_run d h f h_synx :
  drv_ok d -> fence_at d h = Some f -> 0 <= hf_error f -> hf_h_synx f = 0 \/ hf_h_synx f = h_synx ->
  let status := hw_fence_interop_to_synx_signal_status (hf_flags f) (hf_error f) in
  exists t d', share_entry h h_synx d = Done (0, if is_signaled_hw f then None else Some (u32 h), Some status) d' /\
    drv_ok d' /\ fence_at d' h = Some (if is_signaled_hw f then f else labelled h_synx (Some t) f) /\
    forall x, x <> h -> fence_at d' x = fence_at d x.
Proof.
  intros Hd E He Hfit status. pose proof (do_table _ Hd) as Hok.
  pose proof (signal_status_range f He) as Hst. fold status in Hst. cbv zeta in Hst.
  assert (hw_fence_get_flags_error h d = Done (0, hf_flags f, hf_error f) d) as Hge.
  { unfold hw_fence_get_flags_error. rewrite (bind_run _ _ d d d) by done.
    rewrite (get_hw_fence_in _ _ Hok (fence_at_in _ _ _ Hok E)).
    by rewrite (bind_run _ _ _ _ _ (get_fence_run _ _ _ E)). }
  unfold share_entry. rewrite (bind_run _ _ _ _ _ Hge). cbv beta iota. change (negb (0 =? 0)) with false. cbv iota zeta.
  fold status. destruct (is_signaled_hw f).
  - rewrite (proj2 (Z.leb_le SYNX_STATE_SIGNALED_SUCCESS status)) by done. by exists 0, d.
  - rewrite Hst. change (SYNX_STATE_SIGNALED_SUCCESS <=? SYNX_STATE_ACTIVE) with false. cbv iota.
    pose proof (update_hsynx_run d h f h_synx true Hd E Hfit) as Hu. cbv iota in Hu.
    rewrite (bind_run _ _ _ _ _ Hu). exists (now d), (put_fence h (labelled h_synx (Some (now d)) f) (ticked d)).
    split; [done|]. split; [apply drv_ok_put; [by apply drv_ok_ticked|apply labelled_ok; exact (entry_ok_at _ _ _ Hd E)]|].
    split; [exact (fence_at_put_eq (ticked d) h _ f E)|]. intros x Hx. by rewrite fence_at_put_ne by congruence.
Qed.

(** A synx object asks for the hardware fence of a dma-fence the kernel has not
    signaled.  When no firmware has signaled it either, the object gets the handle and
    the status of an active fence, and its own handle is written into the entry,
    with the time; when a firmware has, the object gets the status for the error of the entry and no
    handle.  The reference taken to look is given back and no other entry changes. *)
Lemma share_handle_status_run d fence g h_new flags h_synx k f rf :
  drv_ok d -> dd_resources_ready d = true -> dd_fctl_ready d = true ->
  flag flags SYNX_IMPORT_DMA_FENCE = true -> flag flags SYNX_IMPORT_SYNX_FENCE = false ->
  dd_dma_fences d !! fence = Some g -> test_dma_flag g MSM_HW_FENCE_FLAG_ENABLED_BIT = true ->
  (forall n, env_dma_signaled (dd_env d) fence n = false) ->
  find_step d (key_match d fence (df_context g) (df_seqno g)) (df_context g) (df_seqno g) = Some k ->
  let h := probe d (df_context g) (df_seqno g) k in
  fence_at d h = Some f -> refs_wf rf -> hf_refcount f = refs_word rf -> 0 < rf_hlos rf < 2 ^ 30 - 1 ->
  0 <= hf_error f -> hf_h_synx f = 0 \/ hf_h_synx f = h_synx ->
  let status := hw_fence_interop_to_synx_signal_status (hf_flags f) (hf_error f) in
  exists t d',
    hw_fence_interop_share_handle_status (Some (mk_import_params (Some fence) (Some h_new) flags)) h_synx d
      = Done (0, if is_signaled_hw f then None else Some (u32 h), Some status) d' /\ drv_ok d' /\
    fence_at d' h = Some (if is_signaled_hw f then f else labelled h_synx (Some t) f) /\
    forall x, x <> h -> fence_at d' x = fence_at d x.
Proof.
  intros Hd Hres Hr Hf1 Hf2 Eg Hen Hsig Ek h E Hrf Ew Hh He Hfit status.
  pose proof (do_table _ Hd) as Hok.
  assert (saturated f = false) as Hs.
  { rewrite (refs_saturated f rf) by done. apply Z.eqb_neq. lia. }
  destruct (find_with_dma_fence_run d g 0 fence 0 false Hd Eg Hsig) as (out & d' & Hrun & Hf).
  { intros k' f' Ek' E'. unfold find_step in Ek. rewrite Ek in Ek'. injection Ek' as <-.
    fold h in E'. congruence. }
  rewrite Ek in Hf. cbv zeta in Hf. fold h in Hf. clearbody h. destruct Hf as (f' & t & E' & -> & -> & _).
  assert (f' = f) as -> by congruence. clear E'.
  set (d1 := put_fence h (get_ref f) (at_tick t d)) in *.
  assert (entry_ok (get_ref f)) as Hgf by (apply get_ref_ok; exact (entry_ok_at _ _ _ Hd E)).
  assert (drv_ok d1) as Hd1 by (apply drv_ok_put; auto with fence).
  assert (fence_at d1 h = Some (get_ref f)) as E1 by (exact (fence_at_put_eq (at_tick t d) h _ f E)).
  assert (forall x, x <> h -> fence_at d1 x = fence_at d x) as Hx1
    by (intros; exact (fence_at_put_ne (at_tick t d) h x _ ltac:(congruence))).
  rewrite (share_guards d fence g) by done. unfold share_fence. rewrite (bind_run _ _ _ _ _ Hrun). cbv beta iota.
  destruct (share_entry_run d1 h (get_ref f) h_synx Hd1 E1 He Hfit) as (tw & d2 & Hse & Hd2 & E2 & Hx2).
  change (is_signaled_hw (get_ref f)) with (is_signaled_hw f) in *.
  change (hw_fence_interop_to_synx_signal_status (hf_flags (get_ref f)) (hf_error (get_ref f))) with status in Hse.
  rewrite (bind_run _ _ _ _ _ Hse). cbv beta iota. exists tw.
  set (mark := fun x => if is_signaled_hw f then x else labelled h_synx (Some tw) x).
  assert (detached mark) as Hm by (unfold mark; destruct (is_signaled_hw f); [apply id_detached|apply labelled_detached]).
  assert (fence_at d2 h = Some (mark (get_ref f))) as E2' by exact E2.
  pose proof (give_back_run d2 h f rf mark (do_table _ Hd2) Hrf Ew Hh Hm E2') as Hgb.
  rewrite (bind_run _ _ _ _ _ Hgb). eexists. split; [done|]. pose proof (entry_ok_at _ _ _ Hd E) as Hfe.
  split; [apply drv_ok_put; [done|]; unfold mark; destruct (is_signaled_hw f); [done|by apply labelled_ok]|].
  split; [exact (fence_at_put_eq d2 h _ _ E2')|]. intros x Hx. rewrite fence_at_put_ne, Hx2 by congruence. by apply Hx1.
Qed.

(** Of a dma-fence the kernel has signaled without an error, the synx driver is
    told that its status is that of an active fence, with success, no handle, and nobody
    registered at the entry: the kernel's 1 for a signaled fence is the number of that
    status. *)
Lemma signaled_share_run d fence g h_new flags h_synx :
  dd_resources_ready d = true -> dd_fctl_ready d = true ->
  flag flags SYNX_IMPORT_DMA_FENCE = true -> flag flags SYNX_IMPORT_SYNX_FENCE = false ->
  dd_dma_fences d !! fence = Some g -> test_dma_flag g MSM_HW_FENCE_FLAG_ENABLED_BIT = true ->
  (forall n, env_dma_signaled (dd_env d) fence n = true) -> df_error g = 0 ->
  hw_fence_interop_share_handle_status (Some (mk_import_params (Some fence) (Some h_new) flags)) h_synx d
    = Done (0, None, Some SYNX_STATE_ACTIVE) (ticked d).
Proof.
  intros Hres Hr Hf1 Hf2 Eg Hen Hsig He.
  rewrite (share_guards d fence g) by done. unfold share_fence.
  assert (hw_fence_find_with_dma_fence 0 fence 0 false d = Done (None, true, 0) (ticked d)) as Hfind.
  { unfold hw_fence_find_with_dma_fence. rewrite (bind_run _ _ d true (ticked d)); [done|].
    transitivity (Done (env_dma_signaled (dd_env d) fence (dd_tick d)) (ticked d)); [done|]. by rewrite Hsig. }
  rewrite (bind_run _ _ _ _ _ Hfind). cbv beta iota.
  rewrite (bind_run _ _ _ _ _ (get_dma_fence_run (ticked d) fence g Eg)). unfold dma_fence_get_status. rewrite He. done.
Qed.
