(* ===== verification/HwFenceSession.v ===== *)
(** * Sessions of the synx API on hardware fences

    [mm-drivers/hw_fence/src/msm_hw_fence_synx_translation.c]: the synx API as clients
    of the hardware-fence driver see it.  A session is a client of [msm_hw_fence.c]
    under the number the synx API knows it by; handles are table indices with bit 31
    set; error codes and statuses are those of synx.  Importing joins both drivers: the
    dma-fence, or each member of a fence array, gets a hardware fence first
    ([HwFenceInterop]), then the client waits for it.

    [synx_hwfence_wait] is not here: it waits for a test client with
    [hw_fence_debug_wait_val] of the debugfs interface and fails for every other client.

    The theorems: the client numbers of both drivers correspond one to one; a handle stands
    for its table entry as far as its 17 bits of index reach; every call of a session
    returns and leaves both drivers good. *)
From S2P Require Import Prelude HwFenceTypes HwFenceTable HwFenceRef HwFenceClient.
From S2P Require Import HwFenceSignal HwFenceCallback HwFenceFrame HwFenceJoin HwFenceLayout.
From S2P Require Import HwFenceSoccp HwFenceApi HwFenceSafe.
From S2P Require Import SynxGlobal HwFenceInterop.
From stdpp Require Import gmap.
From Stdlib Require Import Lia.
#[local] Open Scope Z_scope.

(** ** Client numbers *)

Definition SYNX_HW_FENCE_CLIENT_START : Z := 1024.
Definition SYNX_HW_FENCE_CLIENT_END : Z := 4096.
Definition SYNX_MAX_SIGNAL_PER_CLIENT : Z := 64.

Definition SYNX_CLIENT_HW_FENCE_GFX_CTX0 : Z := SYNX_HW_FENCE_CLIENT_START.
Definition SYNX_CLIENT_HW_FENCE_IPE_CTX0 : Z := SYNX_CLIENT_HW_FENCE_GFX_CTX0 + SYNX_MAX_SIGNAL_PER_CLIENT.
Definition SYNX_CLIENT_HW_FENCE_VID_CTX0 : Z := SYNX_CLIENT_HW_FENCE_IPE_CTX0 + SYNX_MAX_SIGNAL_PER_CLIENT.
Definition SYNX_CLIENT_HW_FENCE_DPU0_CTL0 : Z := SYNX_CLIENT_HW_FENCE_VID_CTX0 + SYNX_MAX_SIGNAL_PER_CLIENT.
Definition SYNX_CLIENT_HW_FENCE_DPU1_CTL0 : Z := SYNX_CLIENT_HW_FENCE_DPU0_CTL0 + SYNX_MAX_SIGNAL_PER_CLIENT.

(** The sixteen [SYNX_CLIENT_HW_FENCE_IFE<i>_CTX0]. *)
Definition SYNX_CLIENT_HW_FENCE_IFE_CTX0 (i : Z) : Z :=
  SYNX_CLIENT_HW_FENCE_DPU1_CTL0 + (1 + i) * SYNX_MAX_SIGNAL_PER_CLIENT.

Definition SYNX_CLIENT_HW_FENCE_TEST_CTX0 : Z := SYNX_CLIENT_HW_FENCE_IFE_CTX0 15 + SYNX_MAX_SIGNAL_PER_CLIENT.
Definition SYNX_CLIENT_HW_FENCE_IPA_CTX0 : Z := SYNX_CLIENT_HW_FENCE_TEST_CTX0 + SYNX_MAX_SIGNAL_PER_CLIENT.

Definition MAX_SUPPORTED_DPU0 : Z := HW_FENCE_CLIENT_ID_CTL5 - HW_FENCE_CLIENT_ID_CTL0.
Definition MAX_SUPPORTED_TEST : Z := HW_FENCE_CLIENT_ID_VAL6 - HW_FENCE_CLIENT_ID_VAL0.

(** The cases of the switch in order, [lo ... hi] of C. *)
Definition _get_hw_fence_client_id (id : Z) : Z :=
  let case lo hi := (lo <=? id) && (id <=? hi) in
  if id =? SYNX_CLIENT_HW_FENCE_GFX_CTX0 then HW_FENCE_CLIENT_ID_CTX0
  else if case SYNX_CLIENT_HW_FENCE_IPE_CTX0 (SYNX_CLIENT_HW_FENCE_IPE_CTX0 + SYNX_MAX_SIGNAL_PER_CLIENT - 1)
  then id - SYNX_CLIENT_HW_FENCE_IPE_CTX0 + HW_FENCE_CLIENT_ID_IPE
  else if case SYNX_CLIENT_HW_FENCE_VID_CTX0 (SYNX_CLIENT_HW_FENCE_VID_CTX0 + SYNX_MAX_SIGNAL_PER_CLIENT - 1)
  then id - SYNX_CLIENT_HW_FENCE_VID_CTX0 + HW_FENCE_CLIENT_ID_VPU
  else if case SYNX_CLIENT_HW_FENCE_DPU0_CTL0 (SYNX_CLIENT_HW_FENCE_DPU0_CTL0 + MAX_SUPPORTED_DPU0)
  then id - SYNX_CLIENT_HW_FENCE_DPU0_CTL0 + HW_FENCE_CLIENT_ID_CTL0
  else if case SYNX_CLIENT_HW_FENCE_IPA_CTX0 (SYNX_CLIENT_HW_FENCE_IPA_CTX0 + SYNX_MAX_SIGNAL_PER_CLIENT - 1)
  then id - SYNX_CLIENT_HW_FENCE_IPA_CTX0 + HW_FENCE_CLIENT_ID_IPA
  else if case (SYNX_CLIENT_HW_FENCE_IFE_CTX0 0) (SYNX_CLIENT_HW_FENCE_IFE_CTX0 11 + SYNX_MAX_SIGNAL_PER_CLIENT - 1)
  then id - SYNX_CLIENT_HW_FENCE_IFE_CTX0 0 + HW_FENCE_CLIENT_ID_IFE0
  else if case SYNX_CLIENT_HW_FENCE_TEST_CTX0 (SYNX_CLIENT_HW_FENCE_TEST_CTX0 + MAX_SUPPORTED_TEST)
  then id - SYNX_CLIENT_HW_FENCE_TEST_CTX0 + HW_FENCE_CLIENT_ID_VAL0
  else HW_FENCE_CLIENT_MAX.

Definition is_hw_fence_client (id : Z) : bool :=
  (SYNX_HW_FENCE_CLIENT_START <=? id) && (id <? SYNX_HW_FENCE_CLIENT_END).

(** ** Sessions *)

Record synx_session := mk_session {
  se_type : Z;
  se_client : option Z }.

(** [IS_ERR_OR_NULL(session) || !is_hw_fence_client(session->type)]: [None]. *)
Definition hw_session (session : option synx_session) : option synx_session :=
  match session with
  | Some se => if is_hw_fence_client (se_type se) then Some se else None
  | None => None
  end.

(** [params->id], and the region the memory descriptor [params->ptr] is filled with. *)
Definition synx_hwfence_initialize (params : option Z) : DRV (Z + synx_session * (Z * Z)) :=
  d <-- get;
  if negb (dd_driver_enable d) then ret (inl (- SYNX_INVALID))
  else
    match params with
    | None => ret (inl (- SYNX_INVALID))
    | Some id =>
        let client_id := _get_hw_fence_client_id id in
        if negb (is_hw_fence_client id) || (client_id =? HW_FENCE_CLIENT_MAX) then ret (inl (- SYNX_INVALID))
        else
          session <-- kzalloc;
          match session with
          | None => ret (inl (- SYNX_NOMEM))
          | Some _ =>
              r <-- msm_hw_fence_register client_id;
              match r with
              | inl err => ret (inl (hw_fence_interop_to_synx_status err))
              | inr (client_handle, mem) => ret (inr (mk_session id (Some client_handle), mem))
              end
          end
    end.

(** The session is freed when the client is given back. *)
Definition synx_hwfence_uninitialize (session : option synx_session) : DRV Z :=
  match hw_session session with
  | None => ret (- SYNX_INVALID)
  | Some se => r <-- msm_hw_fence_deregister (se_client se); ret (hw_fence_interop_to_synx_status r)
  end.

(** ** Fences *)

Definition SYNX_CREATE_DMA_FENCE : Z := 4.
Definition SYNX_CREATE_CSL_FENCE : Z := 8.
Definition SYNX_CREATE_MAX_FLAGS : Z := 16.

(** [sp_h_synx]: what [h_synx] points to. *)
Record synx_create_params := mk_synx_create {
  sp_h_synx : option Z;
  sp_fence : option Z;
  sp_flags : Z }.

Section stack.
(** What the [u64 handle] of the callers' stacks holds before it is written. *)
Context (handle0 : Z).

(** The error code, and [*params->h_synx]. *)
Definition synx_hwfence_create (session : option synx_session) (params : option synx_create_params)
  : DRV (Z * option Z) :=
  match hw_session session, params with
  | Some se, Some (mk_synx_create (Some h_synx) fence flags) =>
      if (SYNX_CREATE_MAX_FLAGS <? flags) || flag flags SYNX_CREATE_CSL_FENCE then ret (- SYNX_INVALID, Some h_synx)
      else if (match fence with None => true | Some _ => false end) && flag flags SYNX_CREATE_DMA_FENCE
      then ret (- SYNX_INVALID, Some h_synx)
      else
        out <-- msm_hw_fence_create (se_client se) (Some (mk_create_params fence (Some handle0)));
        if negb (out.1 =? 0) then ret (hw_fence_interop_to_synx_status out.1, Some h_synx)
        else
          handle <-- deref out.2;
          if U32_MAX <? handle then
            hw_fence_destroy_refcount handle HW_FENCE_FCTL_REFCOUNT;;;
            msm_hw_fence_destroy_with_handle (se_client se) handle;;;
            ret (- SYNX_INVALID, Some h_synx)
          else ret (0, Some (u32 (Z.lor SYNX_HW_FENCE_HANDLE_FLAG handle)))
  | _, Some params => ret (- SYNX_INVALID, sp_h_synx params)
  | _, None => ret (- SYNX_INVALID, None)
  end.

Definition synx_hwfence_release (session : option synx_session) (h_synx : Z) : DRV Z :=
  match hw_session session with
  | Some se =>
      if negb (flag h_synx SYNX_HW_FENCE_HANDLE_FLAG) then ret (- SYNX_INVALID)
      else
        r <-- msm_hw_fence_destroy_with_handle (se_client se) (Z.land h_synx HW_FENCE_HANDLE_INDEX_MASK);
        ret (hw_fence_interop_to_synx_status r)
  | None => ret (- SYNX_INVALID)
  end.

Definition signal_status_ok (status : Z) : bool :=
  (status =? SYNX_STATE_SIGNALED_SUCCESS) || (status =? SYNX_STATE_SIGNALED_CANCEL) || (SYNX_STATE_SIGNALED_MAX <? status).

Definition synx_hwfence_signal (session : option synx_session) (h_synx status : Z) : DRV Z :=
  match hw_session session with
  | Some (mk_session _ (Some client)) =>
      if negb (flag h_synx SYNX_HW_FENCE_HANDLE_FLAG) || negb (signal_status_ok status) then ret (- SYNX_INVALID)
      else
        let error := hw_fence_interop_to_hw_fence_error status in
        r <-- msm_hw_fence_update_txq (Some client) (Z.land h_synx HW_FENCE_HANDLE_INDEX_MASK) 0 error;
        if negb (r =? 0) then ret (hw_fence_interop_to_synx_status r)
        else
          c <-- get_client client;
          d <-- get;
          when cl_txq_update_send_ipc c do
            hw_fence_ipcc_trigger_signal (cl_ipc_client_pid c) (dd_ipcc_fctl_vid d) (cl_ipc_signal_id c);;;
          ret (hw_fence_interop_to_synx_status r)
  | _ => ret (- SYNX_INVALID)
  end.

Definition synx_hwfence_recover (id : Z) : DRV Z :=
  if negb (is_hw_fence_client id) then ret (- SYNX_INVALID)
  else
    r <-- msm_hw_fence_reset_client_by_id (_get_hw_fence_client_id id) MSM_HW_FENCE_RESET_WITHOUT_DESTROY;
    ret (hw_fence_interop_to_synx_status r).

(** [inl]: an error pointer. *)
Definition synx_hwfence_get_fence (session : option synx_session) (h_synx : Z) : DRV (Z + Z) :=
  match hw_session session with
  | Some _ =>
      if negb (flag h_synx SYNX_HW_FENCE_HANDLE_FLAG) then ret (inl (- SYNX_INVALID))
      else hw_fence_interop_get_fence h_synx
  | None => ret (inl (- SYNX_INVALID))
  end.

Definition synx_hwfence_get_status (session : option synx_session) (h_synx : Z) : DRV Z :=
  match hw_session session with
  | Some _ =>
      if negb (flag h_synx SYNX_HW_FENCE_HANDLE_FLAG) then ret SYNX_STATE_INVALID
      else
        out <-- hw_fence_get_flags_error (Z.land h_synx HW_FENCE_HANDLE_INDEX_MASK);
        let '(r, flags, error) := out in
        if negb (r =? 0) then ret SYNX_STATE_INVALID
        else ret (hw_fence_interop_to_synx_signal_status flags error)
  | None => ret SYNX_STATE_INVALID
  end.

Definition SYNX_RESOURCE_SOCCP : Z := 1.

Definition synx_hwfence_enable_resources (id resource : Z) (enable : bool) : DRV Z :=
  d <-- get;
  if negb (dd_driver_enable d) then ret (- SYNX_INVALID)
  else if negb (dd_resources_ready d) then ret (- SYNX_INVALID)
  else if negb (is_hw_fence_client id) || negb (resource =? SYNX_RESOURCE_SOCCP) then ret (- SYNX_INVALID)
  else if negb (dd_has_soccp d) then ret 0
  else r <-- hw_fence_utils_set_power_vote enable; ret (hw_fence_interop_to_synx_status r).

(** ** Importing *)

(** [struct synx_import_indv_params] of the API; [void *fence] points to a dma-fence
    ([inl]) or to a handle ([inr]), as the flags say. *)
Record indv_params := mk_indv {
  iv_new_h_synx : option Z;
  iv_flags : Z;
  iv_fence : option (Z + Z) }.

(** [list] and [num_fences]. *)
Inductive synx_import_params :=
| ImportIndv (params : indv_params)
| ImportArr (fences : list indv_params) (num_fences : Z).

Section import.
Context {P : Type} `{Peer P}.
Abbreviation SYS := (M (system P)).

(** The members [i], [i + 1], ..., [n] of them left; [*params->new_h_synx] is carried
    along. *)
Fixpoint import_members (n : nat) (i array : Z) (new_h_synx : option Z) (flags : Z) : SYS (Z * option Z) :=
  match n with
  | O => ret (0, new_h_synx)
  | S n =>
      fence <-- on_drv (array_get array i);
      g <-- on_drv (get_dma_fence fence);
      match df_array g with
      | Some _ => ret (- SYNX_INVALID, new_h_synx)
      | None =>
          out <-- hw_fence_interop_create_fence_from_import (Some (mk_import_params (Some fence) new_h_synx flags));
          if negb (out.1 =? 0) then ret out else import_members n (i + 1) array out.2 flags
      end
  end.

(** The first half of [synx_hwfence_import_fence]: every fence gets its hardware fence.
    The error code, and [*params->new_h_synx]. *)
Definition import_back (params : import_params) : SYS (Z * option Z) :=
  array <-- (match ip_fence params with
             | None => ret None
             | Some fence => g <-- on_drv (get_dma_fence fence); ret (option_map (pair fence) (df_array g))
             end);
  match array with
  | Some (array, fences) => import_members (length fences) 0 array (ip_new_h_synx params) (ip_flags params)
  | None => hw_fence_interop_create_fence_from_import (Some params)
  end.

(** The second half: the client waits for it. *)
Definition import_wait (client : option Z) (params : import_params) (new_h_synx : option Z) : SYS (Z * option Z) :=
  out <-- on_drv (msm_hw_fence_wait_update_v2 client (Some [ip_fence params]) (Some [handle0]) None 1);
  if negb (out.1 =? 0) then ret (hw_fence_interop_to_synx_status out.1, new_h_synx)
  else
    handle <-- on_drv (deref (match out.2 with Some hs => zget hs 0 | None => None end));
    if U32_MAX <? handle then
      on_drv (msm_hw_fence_wait_update_v2 client (Some [ip_fence params]) (Some [handle]) None 1);;;
      ret (- SYNX_INVALID, new_h_synx)
    else
      on_drv (deref (ip_new_h_synx params));;;
      ret (0, Some (u32 (Z.lor SYNX_HW_FENCE_HANDLE_FLAG handle))).

Definition synx_hwfence_import_fence (client : option Z) (params : import_params) : SYS (Z * option Z) :=
  r <-- on_drv (hw_fence_check_valid_fctl client);
  if negb (r =? 0) then ret (hw_fence_interop_to_synx_status r, ip_new_h_synx params)
  else
    out <-- import_back params;
    if negb (out.1 =? 0) then ret out else import_wait client params out.2.

(** [h_synx] is what [params->fence] points to. *)
Definition synx_hwfence_import_handle (client : option Z) (new_h_synx : option Z) (h_synx : Z) : SYS (Z * option Z) :=
  s <-- get;
  if negb (sys_get_fence s) then ret (- SYNX_INVALID, new_h_synx)
  else
    fence <-- (if flag h_synx SYNX_HW_FENCE_HANDLE_FLAG then
                 o <-- on_drv (hw_fence_interop_get_fence h_synx);
                 ret (match o with inl _ => None | inr fence => Some fence end)
               else on_peer (peer_get_fence h_synx));
    match fence with
    | None => ret (- SYNX_INVALID, new_h_synx)
    | Some fence =>
        out <-- synx_hwfence_import_fence client (mk_import_params (Some fence) new_h_synx SYNX_IMPORT_DMA_FENCE);
        on_drv (dma_fence_put fence);;;
        ret out
    end.

Definition synx_hwfence_import_indv (client : option Z) (params : option indv_params) : SYS (Z * option Z) :=
  match client, params with
  | Some _, Some (mk_indv (Some new_h_synx) flags (Some fence)) =>
      if flag flags SYNX_IMPORT_DMA_FENCE then
        match fence with
        | inl f => synx_hwfence_import_fence client (mk_import_params (Some f) (Some new_h_synx) flags)
        | inr _ => raise Undefined
        end
      else if flag flags SYNX_IMPORT_SYNX_FENCE then
        match fence with
        | inr h_synx => synx_hwfence_import_handle client (Some new_h_synx) h_synx
        | inl _ => raise Undefined
        end
      else ret (- SYNX_INVALID, Some new_h_synx)
  | _, Some params => ret (- SYNX_INVALID, iv_new_h_synx params)
  | _, None => ret (- SYNX_INVALID, None)
  end.

(** The fences from index [i] on, [n] of them: the error code, and the new handles. *)
Fixpoint import_list (n : nat) (i : Z) (client : option Z) (fences : list indv_params) : SYS (Z * list (option Z)) :=
  match n with
  | O => ret (0, [])
  | S n =>
      params <-- deref (zget fences i);
      out <-- synx_hwfence_import_indv client (Some params);
      if negb (out.1 =? 0) then ret (out.1, [out.2])
      else rest <-- import_list n (i + 1) client fences; ret (rest.1, out.2 :: rest.2)
  end.

Definition synx_hwfence_import_arr (client : option Z) (fences : list indv_params) (num_fences : Z)
  : SYS (Z * list (option Z)) :=
  match client with
  | Some _ =>
      if num_fences =? 0 then ret (- SYNX_INVALID, []) else import_list (Z.to_nat num_fences) 0 client fences
  | None => ret (- SYNX_INVALID, [])
  end.

Definition synx_hwfence_import (session : option synx_session) (params : option synx_import_params)
  : SYS (Z * list (option Z)) :=
  match hw_session session, params with
  | Some se, Some (ImportArr fences num_fences) => synx_hwfence_import_arr (se_client se) fences num_fences
  | Some se, Some (ImportIndv params) =>
      out <-- synx_hwfence_import_indv (se_client se) (Some params); ret (out.1, [out.2])
  | _, _ => ret (- SYNX_INVALID, [])
  end.
End import.
End stack.

(** * Properties *)

(** ** Numbers *)

Lemma client_id_cases id :
  _get_hw_fence_client_id id =
    if id =? 1024 then 1
    else if (1088 <=? id) && (id <=? 1151) then id - 1088 + 15
    else if (1152 <=? id) && (id <=? 1215) then id - 1152 + 79
    else if (1216 <=? id) && (id <=? 1221) then id - 1216 + 2
    else if (2432 <=? id) && (id <=? 2495) then id - 2432 + 143
    else if (1344 <=? id) && (id <=? 2111) then id - 1344 + 207
    else if (2368 <=? id) && (id <=? 2374) then id - 2368 + 8
    else 975.
Proof. reflexivity. Qed.

Lemma known_client id :
  _get_hw_fence_client_id id < HW_FENCE_CLIENT_MAX -> is_hw_fence_client id = true.
Proof.
  rewrite client_id_cases. change HW_FENCE_CLIENT_MAX with 975. unfold is_hw_fence_client.
  change SYNX_HW_FENCE_CLIENT_START with 1024. change SYNX_HW_FENCE_CLIENT_END with 4096.
  repeat case_match; lia.
Qed.

(** The number of the API for a number of the driver. *)
Definition synx_id_of (n : Z) : Z :=
  if n =? 1 then 1024 else if n <=? 7 then n - 2 + 1216 else if n <=? 14 then n - 8 + 2368
  else if n <=? 78 then n - 15 + 1088 else if n <=? 142 then n - 79 + 1152
  else if n <=? 206 then n - 143 + 2432 else n - 207 + 1344.

Lemma synx_id_inverse id :
  _get_hw_fence_client_id id < HW_FENCE_CLIENT_MAX -> synx_id_of (_get_hw_fence_client_id id) = id.
Proof.
  rewrite client_id_cases. change HW_FENCE_CLIENT_MAX with 975. unfold synx_id_of. repeat case_match; lia.
Qed.

(** The client numbers of the synx API and of the hardware-fence driver
    correspond one to one: every number of the API is translated to a number of the driver
    or refused; no two supported numbers share one; and every number of the driver is
    that of a hardware-fence client of the API. *)
Theorem client_numbers_bijective :
  (forall id, 1 <= _get_hw_fence_client_id id <= HW_FENCE_CLIENT_MAX) /\
  (forall id id', _get_hw_fence_client_id id = _get_hw_fence_client_id id' ->
     _get_hw_fence_client_id id < HW_FENCE_CLIENT_MAX -> id = id') /\
  (forall n, 1 <= n < HW_FENCE_CLIENT_MAX -> exists id, is_hw_fence_client id = true /\ _get_hw_fence_client_id id = n).
Proof.
  split; [|split].
  - intros id. rewrite client_id_cases. change HW_FENCE_CLIENT_MAX with 975. repeat case_match; lia.
  - intros id id' E Hm. rewrite <- (synx_id_inverse id Hm), E. apply synx_id_inverse. by rewrite <- E.
  - intros n Hn. assert (_get_hw_fence_client_id (synx_id_of n) = n) as E.
    { change HW_FENCE_CLIENT_MAX with 975 in Hn. unfold synx_id_of. repeat case_match; rewrite client_id_cases; repeat case_match; lia. }
    exists (synx_id_of n). split; [|done]. apply known_client. rewrite E. lia.
Qed.

(** ** Handles *)

(** What a handle of the API stands for: a table entry up to the 17 bits of the mask. *)
Definition handle_of (h : Z) : Z := u32 (Z.lor SYNX_HW_FENCE_HANDLE_FLAG h).

Lemma handle_flagged h : flag (handle_of h) SYNX_HW_FENCE_HANDLE_FLAG = true.
Proof.
  unfold flag, handle_of, SYNX_HW_FENCE_HANDLE_FLAG. apply negb_true_iff, Z.eqb_neq. intros E.
  apply (f_equal (fun x => Z.testbit x 31)) in E. revert E. unfold u32. rewrite Z.land_spec, Z.mod_pow2_bits_low, Z.lor_spec, testbit_BIT, Z.bits_0 by done.
  done.
Qed.

Lemma handle_index h : 0 <= h -> Z.land (handle_of h) HW_FENCE_HANDLE_INDEX_MASK = h mod 2 ^ 17.
Proof.
  intros Hh. unfold HW_FENCE_HANDLE_INDEX_MASK. rewrite Z.land_ones by done. unfold handle_of, u32.
  apply Z.bits_inj'. intros i Hi. destruct (Z.lt_ge_cases i 17).
  - rewrite !Z.mod_pow2_bits_low, Z.lor_spec by lia. unfold SYNX_HW_FENCE_HANDLE_FLAG. rewrite testbit_BIT by lia.
    by rewrite bool_decide_false by lia.
  - by rewrite !Z.mod_pow2_bits_high by lia.
Qed.

(** ** Calls of a session *)

Section sessions.
Context {P : Type} `{PeerLaws P}.
Implicit Types (s : system P) (pre : system P -> Prop).

Definition good (s : system P) : Prop := drv_ok (sys_drv s) /\ peer_ok (sys_peer s).

(** What no call changes: [stays], and how the drivers are connected. *)
Definition sys_stays (s s' : system P) : Prop :=
  stays (sys_drv s) (sys_drv s') /\ sys_interops s' = sys_interops s /\ sys_get_fence s' = sys_get_fence s.

#[export] Instance sys_stays_preorder : PreOrder sys_stays.
Proof.
  split; [by intros s|]. intros s1 s2 s3 (H1 & E1 & F1) (H2 & E2 & F2).
  split; [by etransitivity|]. split; congruence.
Qed.

#[export] Instance stable_drv (Q : driver_data -> Prop) : Stable stays Q -> Stable sys_stays (fun s => Q (sys_drv s)).
Proof. intros HQ s s' [Hs _]. by apply HQ. Qed.

Abbreviation sys_frames := (steps_in sys_stays).
Abbreviation both_safe := (safe_in good sys_stays).

Lemma sys_frames_drv {A} (m : DRV A) : frames m -> sys_frames (on_drv m).
Proof.
  intros Hm s a s'. unfold on_drv. destruct (m (sys_drv s)) as [b d|] eqn:E; [|done]. intros [= <- <-].
  split; [by eapply Hm|done].
Qed.

Lemma sys_frames_peer {A} (m : M P A) : sys_frames (on_peer m).
Proof.
  intros s a s'. unfold on_peer. destruct (m (sys_peer s)) as [b p|]; [|done]. by intros [= <- <-].
Qed.

(** A call of the hardware-fence driver alone. *)
Lemma safe_drv {A} pre (pre_drv : driver_data -> Prop) (m : DRV A) Q :
  (forall s, pre s -> pre_drv (sys_drv s)) -> safe pre_drv m Q ->
  both_safe pre (on_drv m) (fun a s => Q a (sys_drv s)).
Proof.
  intros Hp Hm s [Hd Hpe] Hs. apply wp_on_drv. eapply wp_mono; [apply Hm; [done|by apply Hp]|].
  intros a d' (Hd' & Hst & HQ). by split; [|split].
Qed.

Lemma safe_peer_fence pre h : both_safe pre (on_peer (peer_get_fence h)) (fun o s => True).
Proof.
  intros s [Hd Hpe] _. apply wp_on_peer. eapply wp_mono; [by apply get_fence_returns|].
  intros o p' Hp'. by split; [|split].
Qed.

#[local] Hint Extern 1 (steps_in sys_stays (on_drv _)) => apply sys_frames_drv : steps.
#[local] Hint Extern 1 (steps_in sys_stays (on_peer _)) => apply sys_frames_peer : steps.
#[local] Hint Resolve frames_update_hsynx : steps.

Lemma sys_frames_update_interop params h : sys_frames (_update_interop_fence params h).
Proof. unfold _update_interop_fence. steps_tac. Qed.

#[local] Hint Resolve sys_frames_update_interop : steps.

Lemma sys_frames_import params : sys_frames (hw_fence_interop_create_fence_from_import params).
Proof. unfold hw_fence_interop_create_fence_from_import, import_attach. steps_tac. Qed.

Lemma safe_back_fence pre params fence :
  ip_fence params = Some fence -> (forall s, pre s -> dma_at fence (sys_drv s)) ->
  both_safe pre (hw_fence_interop_create_fence_from_import (Some params)) anything.
Proof.
  intros Ef Hf. apply safe_ok; [apply sys_frames_import|]. intros s [Hd Hp] Hs.
  apply import_keeps_both_ok; [done|done|]. intros p f [= <-] E. rewrite Ef in E. injection E as <-. by apply Hf.
Qed.

(** An imported dma-fence: an ordinary fence, or an array whose members are all there. *)
Definition import_arg (fence : Z) (d : driver_data) : Prop :=
  plain_at fence d \/ exists l, array_at fence l d /\ Forall (fun x => dma_at x d) l.

#[export] Instance stable_import_arg fence : Stable stays (import_arg fence).
Proof.
  intros d d' Hs [Hi|(l & Ha & Hl)]; [left; by eapply stable|]. right. exists l. split; [by eapply stable|].
  eapply Forall_impl; [exact Hl|]. intros x. exact (stable_dma x d d' Hs).
Qed.

Lemma import_arg_fence fence d : import_arg fence d -> fence_arg fence d.
Proof. intros [?|(l & ? & _)]; [by left|right; by exists l]. Qed.

(** The members of an array. *)
Definition members_at (array : Z) (l : list Z) (d : driver_data) : Prop :=
  array_at array l d /\ Forall (fun x => dma_at x d) l.

#[export] Instance stable_members array l : Stable stays (members_at array l).
Proof.
  intros d d' Hs [Ha Hl]. split; [by eapply stable|]. eapply Forall_impl; [exact Hl|]. intros x. exact (stable_dma x d d' Hs).
Qed.

Lemma safe_import_members array l flags n : forall i new_h,
  0 <= i -> i + Z.of_nat n <= zlen l ->
  both_safe (fun s => members_at array l (sys_drv s)) (import_members n i array new_h flags) anything.
Proof.
  set (pre := fun s => members_at array l (sys_drv s)).
  assert (Stable sys_stays pre) as Hst by (apply stable_drv; exact _).
  induction n as [|n IH]; intros i new_h Hi Hn; cbn [import_members]; [by apply safe_ret|].
  destruct (zget_is_Some l i) as [x Ex]; [lia|].
  assert (forall s, pre s -> dma_at x (sys_drv s)) as Hx.
  { intros s [_ Hl]. rewrite Forall_forall in Hl. apply Hl. unfold zget in Ex. case_match; [|done].
    by eapply list_elem_of_lookup_2. }
  eapply safe_bind; [exact Hst| |].
  { apply (safe_drv _ (members_at array l)); [done|]. apply safe_read with (Q := fun y _ => y = x).
    intros d _ [(_ & _ & (g & Eg & Ha & Hnull) & _) _]. exists x. split; [|done]. unfold array_get.
    rewrite (bind_run _ _ _ _ _ (get_dma_fence_run _ _ _ Eg)), Hnull. unfold array_fences. rewrite Ha. simpl.
    by rewrite Ex. }
  intros y. apply (safe_fact (y = x)); [by intros s [_ ?]|]. intros ->. apply (safe_pre _ pre); [by intros s _ [? _]|].
  eapply (safe_then pre); [exact Hst| |].
  { apply (safe_drv _ (dma_at x)); [exact Hx|]. by apply safe_get_dma. }
  intros g. destruct (df_array g); [by apply safe_ret|].
  eapply (safe_then pre); [exact Hst|by apply (safe_back_fence _ _ x)|]. intros [r h]. simpl.
  destruct (negb (r =? 0)); [by apply safe_ret|]. apply IH; lia.
Qed.

(** What is read of the driver alone. *)
Lemma safe_drv_read {A} pre (m : DRV A) :
  (forall s, good s -> pre s -> exists a, m (sys_drv s) = Done a (sys_drv s)) ->
  both_safe pre (on_drv m) anything.
Proof.
  intros Hm. apply safe_read. intros s Hs Hp. destruct (Hm s Hs Hp) as [a E]. exists a. split; [|done].
  unfold on_drv. rewrite E. by destruct s.
Qed.

(** The client may wait for the fence, whatever kind it is. *)
Definition import_ready (client : option Z) (fence : Z) (s : system P) : Prop :=
  handle_at client (sys_drv s) /\ import_arg fence (sys_drv s).

#[export] Instance stable_import_ready client fence : Stable sys_stays (import_ready client fence).
Proof. apply (stable_drv (fun d => handle_at client d /\ import_arg fence d)); exact _. Qed.

Lemma safe_wait_imported client fence h :
  both_safe (import_ready client fence)
    (on_drv (msm_hw_fence_wait_update_v2 client (Some [Some fence]) (Some [h]) None 1))
    (fun out _ => out.1 = 0 -> exists hs', out.2 = Some hs' /\ handles_ok 1 hs').
Proof.
  apply (safe_drv _ (fun d => handle_at client d /\ args_at [Some fence] d)
           _ (fun out _ => out.1 = 0 -> exists hs', out.2 = Some hs' /\ handles_ok 1 hs')).
  { intros s [? Ha]. split; [done|]. apply Forall_cons. split; [by apply import_arg_fence|done]. }
  apply safe_wait_v2; [done|lia|]. by split_and!.
Qed.

Lemma safe_import_wait h0 client params fence new_h :
  ip_fence params = Some fence -> is_Some (ip_new_h_synx params) ->
  both_safe (import_ready client fence) (import_wait h0 client params new_h) anything.
Proof.
  intros Ef [h1 E1]. unfold import_wait. rewrite Ef, E1.
  eapply safe_bind; [exact _|apply safe_wait_imported|]. intros [r o]. cbn [fst snd].
  destruct (Z.eqb_spec r 0) as [->|]; cbn [negb]; [|by apply safe_ret].
  eapply safe_fact; [by intros s [_ Hr]; exact (Hr eq_refl)|]. intros (hs & -> & Hok).
  destruct (Hok 0) as (h & Eh & _); [lia|]. rewrite Eh.
  apply (safe_pre _ (import_ready client fence)); [by intros s _ [? _]|].
  eapply safe_then; [exact _|by apply safe_drv_read; intros s _ _; exists h|]. intros h'. case_match.
  - eapply safe_then; [exact _|apply safe_wait_imported|]. intros ?. by apply safe_ret.
  - eapply safe_then; [exact _|by apply safe_drv_read; intros s _ _; exists h1|]. intros ?. by apply safe_ret.
Qed.

Lemma safe_import_back client params fence :
  ip_fence params = Some fence -> both_safe (import_ready client fence) (import_back params) anything.
Proof.
  intros Ef s Hs [Hc Ha]. unfold import_back. rewrite Ef. apply wp_bind, wp_bind.
  assert (forall g, dd_dma_fences (sys_drv s) !! fence = Some g -> forall Q,
    Q g s -> wp (on_drv (get_dma_fence fence)) Q s) as Hget.
  { intros g Eg Q HQ. eapply wp_drv_done; [by apply get_dma_fence_run|]. by destruct s. }
  destruct Ha as [Hp|(l & Ha & Hl)].
  - pose proof Hp as (_ & g & Eg & Ea). apply (Hget g Eg), wp_ret, wp_ret. rewrite Ea. simpl.
    apply (safe_back_fence (fun s => plain_at fence (sys_drv s)) _ fence); [done| |done|done].
    intros s'. apply plain_dma_at.
  - pose proof Ha as (_ & _ & (g & Eg & Ea & _) & _). apply (Hget g Eg), wp_ret, wp_ret. rewrite Ea. simpl.
    apply (safe_import_members fence l); [done|by unfold zlen|done|by split].
Qed.

Lemma safe_import_fence h0 pre client params fence :
  ip_fence params = Some fence -> is_Some (ip_new_h_synx params) ->
  (forall s, pre s -> import_ready client fence s) ->
  both_safe pre (synx_hwfence_import_fence h0 client params) anything.
Proof.
  intros Ef Hnew Hc. apply (safe_pre _ (import_ready client fence)); [by intros s _ ?; apply Hc|].
  unfold synx_hwfence_import_fence. eapply safe_then; [exact _| |].
  { apply safe_drv_read. intros s _ _. destruct (check_fctl_answers client (sys_drv s)) as (e & E & _). by exists e. }
  intros r. destruct (negb (r =? 0)); [by apply safe_ret|].
  eapply safe_then; [exact _|by apply safe_import_back|]. intros [r1 new_h]. cbn [fst snd].
  destruct (negb (r1 =? 0)); [by apply safe_ret|]. by apply safe_import_wait.
Qed.

(** ** Handles that are imported *)

(** The dma-fence a handle stands for, where there is one. *)
Definition resolves (h_synx fence : Z) (s : system P) : Prop :=
  if flag h_synx SYNX_HW_FENCE_HANDLE_FLAG then
    let k := Z.land h_synx HW_FENCE_HANDLE_INDEX_MASK in
    find_in_chain (sys_drv s) k (dma_chain (sys_drv s) (dma_fence_key k)) = Some fence
  else exists p', peer_get_fence h_synx (sys_peer s) = Done (Some fence) p'.

Lemma frames_interop_get_fence h : frames (hw_fence_interop_get_fence h).
Proof. unfold hw_fence_interop_get_fence, hw_fence_check_hw_fence_driver. steps_tac. Qed.

Lemma safe_interop_get_fence h (Q : Z -> driver_data -> Prop) :
  (forall f, Stable stays (Q f)) ->
  safe (fun d => forall f, let k := Z.land h HW_FENCE_HANDLE_INDEX_MASK in
          find_in_chain d k (dma_chain d (dma_fence_key k)) = Some f -> Q f d)
    (hw_fence_interop_get_fence h) (fun o d => forall f, o = inr f -> Q f d).
Proof.
  intros HQ d Hd Hf. unfold hw_fence_interop_get_fence, hw_fence_check_hw_fence_driver.
  apply wp_bind, wp_bind, wp_get. destruct (dd_resources_ready d); cbn [negb]; apply wp_ret; cbn [Z.eqb negb].
  2: { by apply wp_ret; split; [|split]. }
  destruct (flag h _); cbn [negb]; [|by apply wp_ret; split; [|split]].
  unfold hw_fence_dma_fence_find. apply wp_bind, wp_bind, wp_get. cbv zeta.
  destruct (find_in_chain _ _ _) as [f|] eqn:E.
  2: { apply wp_bind, wp_ret, wp_ret, wp_ret. by split; [|split]. }
  apply wp_bind, wp_modifyM, wp_ret, wp_ret.
  pose proof (drv_ok_logged (EvDmaGet f) _ Hd) as Hd'. split; [done|].
  assert (stays d (d <| dd_events ::= fun l => l ++ [EvDmaGet f] |>)) as Hs by (by apply stays_eq).
  split; [done|]. intros f' [= <-]. apply (HQ f _ _ Hs). by apply Hf.
Qed.

(** Looking a handle up, in this driver or in the other. *)
Lemma safe_resolve client h :
  both_safe (fun s => handle_at client (sys_drv s) /\ forall f, resolves h f s -> import_arg f (sys_drv s))
    (if flag h SYNX_HW_FENCE_HANDLE_FLAG then
       o <-- on_drv (hw_fence_interop_get_fence h);
       ret (match o with inl _ => None | inr fence => Some fence end)
     else on_peer (peer_get_fence h))
    (fun o s => forall f, o = Some f -> import_ready client f s).
Proof.
  intros s [Hd Hp] [Hc Hr]. unfold resolves in Hr. destruct (flag h _).
  - apply wp_bind, wp_on_drv.
    eapply wp_mono; [apply (safe_interop_get_fence h import_arg); [exact _|done|exact Hr]|].
    intros o d' (Hd' & Hs & Ho). apply wp_ret. split; [done|]. split; [done|]. intros f.
    destruct o as [|f0]; [done|]. intros [= <-]. split; [by eapply stable|by apply Ho].
  - apply wp_on_peer. pose proof (get_fence_returns h _ Hp) as Hw. apply wp_inv in Hw as (o & p' & E & Hp').
    eapply wp_done; [exact E|]. split; [done|]. split; [done|]. intros f ->. split; [done|]. apply Hr. by exists p'.
Qed.

Lemma safe_dma_put pre fence :
  (forall s, pre s -> dma_at fence (sys_drv s)) -> both_safe pre (on_drv (dma_fence_put fence)) anything.
Proof.
  intros Hc. apply (safe_drv _ (dma_at fence) _ (fun _ _ => True)); [done|]. apply safe_ok; [auto with steps|].
  intros d Hd [_ [g Eg]]. by eapply dma_fence_put_ok.
Qed.

Lemma import_arg_dma fence d : import_arg fence d -> dma_at fence d.
Proof. intros Hi. by apply fence_arg_dma, import_arg_fence. Qed.

Lemma safe_import_handle h0 client new_h h :
  both_safe (fun s => handle_at client (sys_drv s) /\ forall f, resolves h f s -> import_arg f (sys_drv s))
    (synx_hwfence_import_handle h0 client (Some new_h) h) anything.
Proof.
  unfold synx_hwfence_import_handle. apply safe_get. intros s Hs Hpre. destruct (negb _); [by apply safe_ret|].
  eapply (safe_seq _ (fun _ => True)); [done|exact _|eapply safe_pre; [|apply safe_resolve]; by intros ? _ <-|].
  intros [f|]; [|by apply safe_ret].
  apply (safe_pre _ (import_ready client f)); [by intros s' _ [_ Hf]; apply Hf|].
  eapply safe_then; [exact _|by eapply safe_import_fence|]. intros out.
  eapply safe_then; [exact _|apply safe_dma_put; intros s' [_ ?]; by apply import_arg_dma|]. intros ?. by apply safe_ret.
Qed.

(** What the caller vouches for of one import: its pointer is what the flags say. *)
Definition indv_at (params : indv_params) (s : system P) : Prop :=
  forall new_h fence, iv_new_h_synx params = Some new_h -> iv_fence params = Some fence ->
  if flag (iv_flags params) SYNX_IMPORT_DMA_FENCE then exists f, fence = inl f /\ import_arg f (sys_drv s)
  else flag (iv_flags params) SYNX_IMPORT_SYNX_FENCE = true ->
    exists h, fence = inr h /\ forall f, resolves h f s -> import_arg f (sys_drv s).

Lemma safe_import_indv h0 client params :
  both_safe (fun s => handle_at client (sys_drv s) /\ indv_at params s)
    (synx_hwfence_import_indv h0 client (Some params)) anything.
Proof.
  unfold synx_hwfence_import_indv. destruct params as [[new_h|] flags [fence|]], client as [client|]; try by apply safe_ret.
  intros s Hs [Hc Hi]. specialize (Hi new_h fence eq_refl eq_refl). simpl in Hi. destruct (flag flags SYNX_IMPORT_DMA_FENCE).
  - destruct Hi as (f & -> & Hf).
    by apply (safe_import_fence h0 (import_ready (Some client) f) _ _ f).
  - destruct (flag flags SYNX_IMPORT_SYNX_FENCE); [|by apply (safe_ret (fun _ => True))].
    destruct (Hi eq_refl) as (h & -> & Hf). by apply safe_import_handle.
Qed.

(** A list of imports: of dma-fences, which are there from the start. *)
Definition list_at (fences : list indv_params) (d : driver_data) : Prop :=
  Forall (fun p => flag (iv_flags p) SYNX_IMPORT_DMA_FENCE = true /\
    forall fence, iv_fence p = Some fence -> exists f, fence = inl f /\ import_arg f d) fences.

#[export] Instance stable_list fences : Stable stays (list_at fences).
Proof.
  intros d d' Hs Hl. eapply Forall_impl; [exact Hl|]. intros p [Hf Hp]. split; [done|]. intros fence E.
  destruct (Hp _ E) as (f & -> & Ha). exists f. split; [done|]. by eapply stable.
Qed.

Lemma safe_import_list h0 client fences n : forall i,
  0 <= i -> i + Z.of_nat n <= zlen fences ->
  both_safe (fun s => handle_at client (sys_drv s) /\ list_at fences (sys_drv s))
    (import_list h0 n i client fences) anything.
Proof.
  set (pre := fun s : system P => handle_at client (sys_drv s) /\ list_at fences (sys_drv s)).
  assert (Stable sys_stays pre) as Hst by (apply (stable_drv (fun d => handle_at client d /\ list_at fences d)); exact _).
  induction n as [|n IH]; intros i Hi Hn; cbn [import_list]; [by apply safe_ret|].
  destruct (zget_is_Some fences i) as [p Ep]; [lia|]. rewrite Ep. apply safe_deref_value.
  eapply (safe_then pre); [exact Hst| |].
  { eapply safe_pre; [|apply (safe_import_indv h0 client p)]. intros s _ [Hc Hl]. split; [done|].
    unfold list_at in Hl. rewrite Forall_forall in Hl. destruct (Hl p) as [Hf Ha].
    { unfold zget in Ep. case_match; [|done]. by eapply list_elem_of_lookup_2. }
    intros new_h fence _ E. rewrite Hf. by apply Ha. }
  intros [r new_h]. cbn [fst snd]. destruct (negb (r =? 0)); [by apply safe_ret|].
  eapply (safe_then pre); [exact Hst|apply IH; lia|]. intros ?. by apply safe_ret.
Qed.

Definition import_at (session : option synx_session) (params : option synx_import_params) (s : system P) : Prop :=
  match params with
  | None => True
  | Some (ImportIndv p) => indv_at p s
  | Some (ImportArr fences n) => n <= zlen fences /\ list_at fences (sys_drv s)
  end.

(** The client of a session. *)
Definition session_at (session : option synx_session) (d : driver_data) : Prop :=
  forall se, session = Some se -> handle_at (se_client se) d.

#[export] Instance stable_session session : Stable stays (session_at session).
Proof. intros d d' Hs Hse se E. eapply stable; [exact Hs|by apply Hse]. Qed.

Lemma hw_session_at session d se : hw_session session = Some se -> session_at session d -> handle_at (se_client se) d.
Proof.
  unfold hw_session. destruct session as [se'|]; [|done]. destruct (is_hw_fence_client _); [|done].
  intros [= <-] Hs. by apply Hs.
Qed.

Lemma safe_import h0 session params :
  both_safe (fun s => session_at session (sys_drv s) /\ import_at session params s)
    (synx_hwfence_import h0 session params) anything.
Proof.
  unfold synx_hwfence_import. destruct (hw_session session) as [se|] eqn:E; [|by apply safe_ret].
  destruct params as [[p|fences n]|]; [| |by apply safe_ret].
  - eapply (safe_seq _ (fun _ => True)); [done|exact _| |intros ?; by apply safe_ret].
    eapply safe_pre; [|apply (safe_import_indv h0 (se_client se) p)].
    intros s _ [Hse Hi]. split; [by eapply hw_session_at|done].
  - unfold synx_hwfence_import_arr. destruct (se_client se) as [ch|] eqn:Ec; [|by apply safe_ret].
    destruct (n =? 0); [by apply safe_ret|].
    apply (safe_fact (n <= zlen fences)); [by intros s [_ [? _]]|]. intros Hn.
    eapply safe_pre; [|apply (safe_import_list h0 (Some ch) fences _ 0); [done|]].
    + intros s _ [Hse [_ Hl]]. split; [|done]. rewrite <- Ec. by eapply hw_session_at.
    + pose proof (zlen_nonneg fences). lia.
Qed.
End sessions.

(** The calls that stay in the hardware-fence driver. *)

Lemma land_mask_nonneg h : 0 <= Z.land h HW_FENCE_HANDLE_INDEX_MASK.
Proof. unfold HW_FENCE_HANDLE_INDEX_MASK. rewrite Z.land_ones by done. by apply Z.mod_pos_bound. Qed.

Lemma create_gives_handle ch fence h0 d out d' :
  msm_hw_fence_create ch (Some (mk_create_params fence (Some h0))) d = Done out d' -> out.1 = 0 -> is_Some out.2.
Proof.
  unfold msm_hw_fence_create. unfold bind at 1. destruct (hw_fence_check_valid_fctl ch d) as [r d1|]; [|done].
  destruct (Z.eqb_spec r 0) as [->|]; cbn [negb]; [|by intros [= <- <-]].
  unfold bind. intros Hr _. revert Hr. repeat case_match; unfold ret; intros; simplify_eq; by eexists.
Qed.

Lemma safe_session_create h0 session params :
  0 <= h0 -> safe (fun d => session_at session d /\ match params with Some p => opt_arg (sp_fence p) d | None => True end)
    (synx_hwfence_create h0 session params) anything.
Proof.
  intros Hh0. unfold synx_hwfence_create. destruct (hw_session session) as [se|] eqn:Es; [|by destruct params; apply safe_ret].
  destruct params as [[[h_synx|] fence flags]|]; [|by apply safe_ret..].
  destruct (_ || _); [by apply safe_ret|]. destruct (_ && _); [by apply safe_ret|]. simpl.
  eapply (safe_seq _ (handle_at (se_client se)) _ _ (fun out _ => out.1 = 0 -> is_Some out.2));
    [intros d [? _]; by eapply hw_session_at|exact _| |].
  { intros d Hd [Hse Hf].
    pose proof (safe_create (fun d => handle_at (se_client se) d /\ opt_arg fence d) (se_client se)
      (Some (mk_create_params fence (Some h0))) ltac:(done) d Hd) as Hw.
    apply wp_inv in Hw as (out & d' & E & Hd' & Hs & _); [|split; [by eapply hw_session_at|done]].
    eapply wp_done; [exact E|]. split; [done|]. split; [done|]. by eapply create_gives_handle. }
  intros [r o]. cbn [fst snd]. destruct (Z.eqb_spec r 0) as [->|]; cbn [negb]; [|by apply safe_ret].
  eapply safe_fact; [intros d [_ Ho]; exact (Ho eq_refl)|]. intros [h ->]. apply safe_deref_value.
  destruct (Z.ltb_spec U32_MAX h) as [Hh|]; [|by apply safe_ret].
  assert (0 <= h) as Hpos by (unfold U32_MAX in Hh; lia). apply (safe_pre _ (handle_at (se_client se))); [by intros d _ [? _]|].
  eapply safe_then; [exact _|by apply safe_destroy_refcount|]. intros ?.
  eapply safe_then; [exact _|by apply safe_destroy_handle|]. intros ?. by apply safe_ret.
Qed.

Lemma safe_session_release session h :
  safe (session_at session) (synx_hwfence_release session h) anything.
Proof.
  unfold synx_hwfence_release. destruct (hw_session session) as [se|] eqn:Es; [|by apply safe_ret].
  destruct (negb _); [by apply safe_ret|]. eapply safe_then; [exact _| |intros ?; by apply safe_ret].
  apply safe_destroy_handle; [intros d; by apply hw_session_at|apply land_mask_nonneg].
Qed.

Lemma safe_session_signal session h status :
  safe (session_at session) (synx_hwfence_signal session h status) anything.
Proof.
  unfold synx_hwfence_signal. destruct (hw_session session) as [[id [ch|]]|] eqn:Es; [|by apply safe_ret..].
  destruct (_ || _); [by apply safe_ret|]. cbv zeta.
  apply (safe_pre _ (client_at ch)); [intros d _; by apply (hw_session_at _ d _ Es)|].
  eapply safe_then; [exact _|apply safe_update_txq; [done|apply land_mask_nonneg]|]. intros r.
  destruct (negb _); [by apply safe_ret|]. eapply safe_then; [exact _|by apply safe_get_client|]. intros c.
  apply safe_get. intros d Hd Hp. eapply (safe_seq _ (fun _ => True) _ _ anything); [done|exact _| |intros ?; by apply safe_ret].
  destruct (cl_txq_update_send_ipc c); [|by apply safe_ret]. apply safe_ok; [auto with steps|]. intros d' Hd' _.
  by apply drv_ok_logged.
Qed.

Lemma safe_session_recover id :
  safe (id_known (_get_hw_fence_client_id id)) (synx_hwfence_recover id) anything.
Proof.
  unfold synx_hwfence_recover. destruct (negb _); [by apply safe_ret|].
  eapply safe_then; [exact _|by apply safe_reset_by_id|intros ?; by apply safe_ret].
Qed.

Lemma safe_session_get_fence pre session h : safe pre (synx_hwfence_get_fence session h) anything.
Proof.
  unfold synx_hwfence_get_fence. destruct (hw_session session); [|by apply safe_ret].
  destruct (negb _); [by apply safe_ret|].
  eapply safe_pre; [|eapply safe_post; [apply (safe_interop_get_fence h (fun _ _ => True)); intros ?; exact _|done]]. done.
Qed.

Lemma safe_session_get_status pre session h : safe pre (synx_hwfence_get_status session h) anything.
Proof.
  unfold synx_hwfence_get_status. destruct (hw_session session); [|by apply safe_ret].
  destruct (negb _); [by apply safe_ret|]. set (k := Z.land h _). apply safe_read. intros d Hd _.
  pose proof (land_mask_nonneg h : 0 <= k) as Hk. unfold hw_fence_get_flags_error.
  rewrite bind_assoc, (bind_run get _ d d d) by done. destruct (Z.lt_ge_cases k (dd_hw_fences_tbl_cnt d)).
  - destruct (in_table_fence d k Hd) as [f E]; [done|]. rewrite (get_hw_fence_in d k), bind_assoc by (apply Hd || done).
    rewrite (bind_run _ _ _ _ _ (get_fence_run _ _ _ E)). by eexists.
  - rewrite (get_hw_fence_out d k) by (apply Hd || lia). by eexists.
Qed.

(** ** Any call *)

Inductive session_op :=
| SCreate (params : option synx_create_params)
| SRelease (h_synx : Z)
| SSignal (h_synx status : Z)
| SRecover (id : Z)
| SGetFence (h_synx : Z)
| SGetStatus (h_synx : Z)
| SImport (params : option synx_import_params).

Section any_call.
Context {P : Type} `{PeerLaws P}.

Definition run_session_op (handle0 : Z) (session : option synx_session) (o : session_op) : M (system P) unit :=
  match o with
  | SCreate params => on_drv (synx_hwfence_create handle0 session params);;; ret tt
  | SRelease h => on_drv (synx_hwfence_release session h);;; ret tt
  | SSignal h status => on_drv (synx_hwfence_signal session h status);;; ret tt
  | SRecover id => on_drv (synx_hwfence_recover id);;; ret tt
  | SGetFence h => on_drv (synx_hwfence_get_fence session h);;; ret tt
  | SGetStatus h => on_drv (synx_hwfence_get_status session h);;; ret tt
  | SImport params => synx_hwfence_import handle0 session params;;; ret tt
  end.

(** What the caller vouches for. *)
Definition session_pre (session : option synx_session) (o : session_op) (s : system P) : Prop :=
  session_at session (sys_drv s) /\
  match o with
  | SCreate (Some p) => opt_arg (sp_fence p) (sys_drv s)
  | SRecover id => id_known (_get_hw_fence_client_id id) (sys_drv s)
  | SImport params => import_at session params s
  | _ => True
  end.

Lemma both_safe_unit {A} (pre : system P -> Prop) (m : M (system P) A) Q :
  safe_in good sys_stays pre m Q -> safe_in good sys_stays pre (m;;; ret tt) anything.
Proof.
  intros Hm. eapply (safe_seq pre (fun _ => True)); [done|exact _|exact Hm|]. intros ?. by apply safe_ret.
Qed.

(** C17: A client of the synx API cannot break either driver.  From any good state of
    both, creating, releasing, signaling, recovering, asking for fences and statuses
    and importing dma-fences, arrays of them and handles of either driver return,
    whatever handles are passed and whatever the other driver and the kernel answer; both
    drivers are good again, no client of a session and no dma-fence somebody holds went away.
    The caller vouches for its session, for the dma-fences it passes and for those its
    handles stand for. *)
Theorem session_call_keeps_both_ok handle0 session o (s : system P) :
  good s -> 0 <= handle0 -> session_pre session o s ->
  exists s', run_session_op handle0 session o s = Done tt s' /\ good s' /\ sys_stays s s'.
Proof.
  intros Hs Hh Hp.
  assert (forall m, safe_in good sys_stays (session_pre session o) m anything ->
    exists s', m s = Done tt s' /\ good s' /\ sys_stays s s') as Hrun.
  { intros m Hm. pose proof (Hm s Hs Hp) as Hw. apply wp_inv in Hw as ([] & s' & E & Hs' & Hst & _). by exists s'. }
  apply Hrun. destruct o as [params| | | | | |params]; eapply both_safe_unit.
  - eapply safe_drv; [|by apply (safe_session_create handle0 session params)].
    intros ? [? Hf]. split; [done|]. by destruct params.
  - eapply safe_drv; [|apply (safe_session_release session)]. by intros ? [? _].
  - eapply safe_drv; [|apply (safe_session_signal session)]. by intros ? [? _].
  - eapply safe_drv; [|apply safe_session_recover]. by intros ? [_ ?].
  - eapply safe_drv; [|apply (safe_session_get_fence (fun _ => True))]. done.
  - eapply safe_drv; [|apply (safe_session_get_status (fun _ => True))]. done.
  - eapply safe_pre; [|apply (safe_import handle0 session params)]. by intros ? _ [? ?].
Qed.
End any_call.

(** A handle stands for the entry of its 17 bits of index, also in a table that is
    larger. *)
Lemma status_of_handle d session se h f :
  drv_ok d -> hw_session session = Some se -> 0 <= h -> fence_at d (h mod 2 ^ 17) = Some f ->
  synx_hwfence_get_status session (handle_of h) d
  = Done (hw_fence_interop_to_synx_signal_status (hf_flags f) (hf_error f)) d.
Proof.
  intros Hd Es Hh E. unfold synx_hwfence_get_status. rewrite Es, handle_flagged, handle_index by done. cbn [negb].
  pose proof (fence_at_in _ _ _ (do_table _ Hd) E) as Hin. unfold hw_fence_get_flags_error.
  rewrite bind_assoc, (bind_run get _ d d d) by done. rewrite (get_hw_fence_in d) by (apply Hd || done).
  by rewrite bind_assoc, (bind_run _ _ _ _ _ (get_fence_run _ _ _ E)).
Qed.
