(* ===== verification/SynxInterop.v ===== *)
(** * The synx side of shared fences

    What the synx driver does for hardware fences: the map from dma-fences to synx
    handles ([synx_util.c]), the calls it gives to the hardware-fence driver, and
    [synx_register_hw_fence] of [synx.c], with which a synx object learns of the
    hardware fence behind its dma-fence.

    The synx driver is an instance of the [Peer] of [HwFenceInterop], and keeps what a
    peer promises.  So the theorems about imports hold for the two real drivers; here
    they are joined with those about signals of synx objects: after the import of a
    fence that an active synx object signals, the controller of the hardware fences is
    woken when the object settles; and an object registered at an active hardware fence
    and the fence know each other's handles. *)
From S2P Require Import Prelude HwFenceTypes HwFenceTable HwFenceRef HwFenceClient.
From S2P Require Import HwFenceSignal HwFenceCallback HwFenceJoin.
From S2P Require Import HwFenceFrame HwFenceSafe.
From S2P Require Import SynxGlobal SynxKeeps SynxPending SynxLife SynxCheck HwFenceInterop HwFenceSession.
From stdpp Require Import gmap.
From Stdlib Require Import Lia.
#[local] Open Scope Z_scope.

(** ** The fence map *)

(** [struct synx_fence_entry] without its key. *)
Record synx_fence_entry := mk_fence_entry {
  fe_g_handle : Z;
  fe_l_handle : Z }.

(** The shared table, the fence map, and the references taken on dma-fences. *)
Record synx_side := mk_side {
  ss_table : synx_state;
  ss_fence_map : gmap Z synx_fence_entry;
  ss_gets : list Z }.

#[export] Instance eta_side : Eta synx_side := fun s =>
  mk_side (ss_table s) (ss_fence_map s) (ss_gets s).

Abbreviation SIDE := (M synx_side).

Definition on_table_of {A} (m : SYNX A) : SIDE A := fun s =>
  match m (ss_table s) with
  | Done a t => Done a (s <| ss_table := t |>)
  | Faulted f => Faulted f
  end.

Definition synx_util_get_fence_entry (key : Z) (global : bool) : SIDE Z :=
  s <-- get;
  ret (match ss_fence_map s !! key with
       | None => 0
       | Some curr =>
           let h_synx := if global then fe_g_handle curr else 0 in
           if h_synx =? 0 then fe_l_handle curr else h_synx
       end).

Definition synx_util_release_fence_entry (key : Z) : SIDE unit :=
  modifyM (fun s => s <| ss_fence_map ::= delete key |>).

(** The error code, and [*h_synx]. *)
Definition synx_util_insert_fence_entry (key : Z) (entry : synx_fence_entry) (h_synx : Z) (global : bool)
  : SIDE (Z * Z) :=
  s <-- get;
  match ss_fence_map s !! key with
  | Some curr =>
      let h := if global then fe_g_handle curr else h_synx in
      ret (- SYNX_ALREADY, if (h =? 0) || negb global then fe_l_handle curr else h)
  | None => put (s <| ss_fence_map ::= insert key entry |>);;; ret (0, h_synx)
  end.

(** The walk over the buckets; where two fences have the handle, the first met is an
    accident of the hashes, here of [map_to_list]. *)
Definition synx_internal_get_dma_fence (h_synx : Z) : SIDE (option Z) :=
  s <-- get;
  match filter (fun kv => fe_g_handle kv.2 = h_synx) (map_to_list (ss_fence_map s)) with
  | [] => ret None
  | (key, _) :: _ => put (s <| ss_gets ::= cons key |>);;; ret (Some key)
  end.

(** ** What the hardware-fence driver calls *)

(** [synx_internal_get_handle_status] with the checks of its parameters. *)
Definition get_handle_status (params : import_params) (h_hwfence : Z) (is_waiter : bool)
  : SIDE (Z * option Z * option Z) :=
  match ip_fence params with
  | None => ret (- SYNX_INVALID, None, None)
  | Some fence =>
      if negb (flag (ip_flags params) SYNX_IMPORT_DMA_FENCE) then ret (- SYNX_INVALID, None, None)
      else
        h_synx <-- synx_util_get_fence_entry fence true;
        on_table_of (synx_internal_get_handle_status h_synx h_hwfence is_waiter)
  end.

(** The handle is cut to the [u32] of the parameter. *)
#[export] Instance synx_peer : Peer synx_side := {
  peer_share_handle_status params h_caller := get_handle_status params (u32 h_caller) true;
  peer_get_fence h_callee := synx_internal_get_dma_fence h_callee }.

(** ** Registering at a hardware fence *)

(** The call into the other driver, [hwfence_shared_ops.share_handle_status]: set with
    [sys_interops].  The error code, and [*params->new_h_synx]. *)
Definition synx_register_hw_fence (client : option Z) (params : option import_params)
  : M (system synx_side) (Z * option Z) :=
  s <-- get;
  match client, params with
  | Some _, Some (mk_import_params fence (Some h_synx) flags) =>
      if negb (sys_interops s) then ret (- SYNX_INVALID, Some h_synx)
      else
        out <-- on_drv (hw_fence_interop_share_handle_status
                          (Some (mk_import_params fence (Some h_synx) flags)) h_synx);
        let '(rc, new_h_synx, signal_status) := out in
        let new_h_synx := default h_synx new_h_synx in
        if negb (rc =? 0) then ret (rc, Some new_h_synx)
        else if negb (default SYNX_STATE_ACTIVE signal_status =? SYNX_STATE_ACTIVE) then
          on_peer (on_table_of (synx_global_update_status (synx_util_global_idx h_synx)
                                  (default SYNX_STATE_ACTIVE signal_status)));;;
          ret (rc, Some new_h_synx)
        else
          out <-- on_peer (get_handle_status (mk_import_params fence (Some new_h_synx) flags) new_h_synx false);
          let '(rc, answered, _) := out in
          ret (rc, Some (default new_h_synx answered))
  | _, Some params => ret (- SYNX_INVALID, ip_new_h_synx params)
  | _, None => ret (- SYNX_INVALID, None)
  end.

(** * Properties *)

Section sides.
Implicit Types (p : synx_side).

Lemma wp_on_table_of {A} (m : SYNX A) (Q : A -> synx_side -> Prop) p :
  wp m (fun a t => Q a (p <| ss_table := t |>)) (ss_table p) -> wp (on_table_of m) Q p.
Proof. unfold wp, on_table_of. by destruct (m (ss_table p)). Qed.

(** An answer of the shared table, and what comes with it. *)
Definition answer_ok (out : Z * option Z * option Z) : Prop :=
  out.1.1 = 0 -> exists status, out.2 = Some status /\ (status = SYNX_STATE_ACTIVE -> is_Some out.1.2).

Lemma handle_status_ok h_synx h_hwfence is_waiter t :
  synx_ok t -> in_u32 h_hwfence ->
  wp (synx_internal_get_handle_status h_synx h_hwfence is_waiter) (fun out t' => synx_ok t' /\ answer_ok out) t.
Proof.
  intros [l Ho] Hh. unfold synx_internal_get_handle_status. case_match; [apply wp_ret; split; [by exists l|done]|].
  apply wp_bind. eapply wp_mono; [apply (keeps_update_coredata l); [apply synx_global_idx_range|done..]|].
  intros r t' Ho'. assert (synx_ok t') by by exists l.
  case_match; [case_match|]; apply wp_ret; (split; [done|]).
  - intros Hz. simpl in Hz. exfalso. lia.
  - intros _. eexists. split; [done|]. intros Hst. exfalso. simpl in Hst. rewrite Hst in *. done.
  - intros _. eexists. split; [done|]. by eexists.
Qed.

Lemma get_handle_status_ok params h_hwfence is_waiter p :
  synx_ok (ss_table p) -> in_u32 h_hwfence ->
  wp (get_handle_status params h_hwfence is_waiter) (fun out p' => synx_ok (ss_table p') /\ answer_ok out) p.
Proof.
  intros Hp Hh. unfold get_handle_status. destruct (ip_fence params) as [fence|]; [|by apply wp_ret].
  case_match; [by apply wp_ret|]. apply wp_bind. eapply wp_done; [done|]. apply wp_on_table_of.
  by apply handle_status_ok.
Qed.

(** The synx driver keeps what a peer of the hardware-fence driver promises. *)
#[export] Instance synx_peer_laws : PeerLaws synx_side.
Proof.
  apply (Build_PeerLaws synx_side _ (fun p => synx_ok (ss_table p))).
  - intros params h p Hp Hh. eapply wp_mono; [apply get_handle_status_ok; [done|apply u32_range]|done].
  - intros h p Hp. unfold peer_get_fence, synx_peer, synx_internal_get_dma_fence. apply wp_bind, wp_get.
    destruct (filter _ _) as [|[key e] rest]; [by apply wp_ret|]. apply wp_bind. eapply wp_done; [done|]. by apply wp_ret.
Defined.
End sides.

(** ** An object and its hardware fence *)

(** The entry of an object a hardware fence has registered at. *)
Definition with_hwfence (h_hwfence : Z) (is_waiter : bool) (e : synx_global_coredata) : synx_global_coredata :=
  e <| sg_refcount ::= fun r => u16 (r + 1) |>
    <| sg_subscribers ::= fun w => Z.lor w (BIT SYNX_CORE_SOCCP) |>
    <| sg_waiters ::= fun w => if is_waiter then Z.lor w (BIT SYNX_CORE_SOCCP) else w |>
    <| sg_h_hwfence := h_hwfence |>.

Section registering.
Implicit Types (t : synx_state) (e : synx_global_coredata).

(** Registering at an unsettled object. *)
Lemma handle_status_run t idx e h_synx h_hwfence is_waiter :
  synx_good t -> idx <> 0 -> zget (sy_table t) idx = Some e -> unsettled e = true ->
  synx_util_global_idx h_synx = idx -> synx_util_is_global_handle h_synx = true -> in_u32 h_hwfence ->
  exists t', synx_internal_get_handle_status h_synx h_hwfence is_waiter t = Done (0, Some h_synx, Some SYNX_STATE_ACTIVE) t' /\
    synx_good t' /\ zget (sy_table t') idx = Some (with_hwfence h_hwfence is_waiter e) /\
    (forall j, j <> 0 -> j <> idx -> zget (sy_table t') j = zget (sy_table t) j) /\ sy_events t' = sy_events t.
Proof.
  intros Hg Hi He Hu Hx Hgl Hh. destruct (good_ok t Hg) as [l Ho].
  pose proof (zget_Some _ _ _ He) as Hr. rewrite (ordered_zlen _ _ _ Ho) in Hr.
  assert (h_synx <> 0) as H0 by (intros ->; by vm_compute in Hgl).
  set (e' := with_hwfence h_hwfence is_waiter e).
  assert (wp (synx_global_test_status_update_coredata idx SYNX_CORE_SOCCP h_hwfence is_waiter)
    (fun r t' => r = SYNX_STATE_ACTIVE /\ synx_good t' /\ zget (sy_table t') idx = Some e' /\
       (forall j, j <> 0 -> j <> idx -> zget (sy_table t') j = zget (sy_table t) j) /\ sy_events t' = sy_events t) t) as Hw.
  { eapply wp_on_table; [done|]. change (SYNX_CORE_MAX <=? SYNX_CORE_SOCCP) with false. unfold synx_is_valid_idx.
    destruct (Z.ltb_spec idx SYNX_GLOBAL_MAX_OBJS); [|lia]. cbn [orb negb].
    eapply (wp_edit l t _ idx e e'); [done|done|done|done| |done| |].
    { apply (tamer_fields e). intros []. simpl.
      split_and!; [done|apply u16_range|done|by apply u16_lor_core|case_match; [by apply u16_lor_core|done]|apply Hh..]. }
    { intros s1 He1. rewrite (bind_run _ _ _ _ _ (get_entry_run s1 idx e He1)). by rewrite Hu. }
    intros t' Hg' Ho' Hq. split_and!; [done..| | |exact (qu_events _ _ Hq)].
    - rewrite (qu_entry _ _ Hq idx Hi). simpl. rewrite zget_zset_eq; [done|]. by rewrite (ordered_zlen _ _ _ Ho).
    - intros j Hj Hne. rewrite (qu_entry _ _ Hq j Hj). simpl. by rewrite zget_zset_ne. }
  destruct (wp_inv _ _ _ Hw) as (r & t' & Hrun & -> & Hrest). exists t'. split; [|done].
  unfold synx_internal_get_handle_status. rewrite Hgl, Hx. destruct (Z.eqb_spec h_synx 0); [done|]. cbn [orb negb].
  by rewrite (bind_run _ _ _ _ _ Hrun).
Qed.

(** The handle the fence map has for a dma-fence. *)
Definition mapped_to (p : synx_side) (fence h_synx : Z) : Prop :=
  exists fe, ss_fence_map p !! fence = Some fe /\ fe_g_handle fe = h_synx /\ h_synx <> 0.

Lemma get_handle_status_run p params fence idx e h_synx h_hwfence is_waiter :
  ip_fence params = Some fence -> flag (ip_flags params) SYNX_IMPORT_DMA_FENCE = true ->
  mapped_to p fence h_synx -> synx_good (ss_table p) -> idx <> 0 ->
  zget (sy_table (ss_table p)) idx = Some e -> unsettled e = true ->
  synx_util_global_idx h_synx = idx -> synx_util_is_global_handle h_synx = true -> in_u32 h_hwfence ->
  exists t', get_handle_status params h_hwfence is_waiter p
             = Done (0, Some h_synx, Some SYNX_STATE_ACTIVE) (p <| ss_table := t' |>) /\
    synx_good t' /\ zget (sy_table t') idx = Some (with_hwfence h_hwfence is_waiter e) /\
    (forall j, j <> 0 -> j <> idx -> zget (sy_table t') j = zget (sy_table (ss_table p)) j) /\
    sy_events t' = sy_events (ss_table p).
Proof.
  intros Ef Hfl (fe & Em & Eh & Hh0) Hg Hi He Hu Hx Hgl Hh.
  destruct (handle_status_run (ss_table p) idx e h_synx h_hwfence is_waiter) as (t' & Hrun & Hrest); [done..|].
  exists t'. split; [|done]. unfold get_handle_status. rewrite Ef, Hfl. cbn [negb].
  rewrite (bind_run _ _ p h_synx p).
  - unfold on_table_of. by rewrite Hrun.
  - unfold synx_util_get_fence_entry, bind, get, ret. rewrite Em, Eh. by destruct (Z.eqb_spec h_synx 0).
Qed.
End registering.

(** C7: a hardware fence for a dma-fence that an active synx object signals, and no
    lost wake-up across the drivers: after the import the object knows the handle of the fence,
    and after any signals the object is unsettled and the fence controller's processor
    is among its waiting cores, or it is settled and the processor has its message. *)
Theorem imported_fence_is_woken s params fence g h h0 f idx e h_synx sigs :
  let d := sys_drv s in
  importable s params fence g h f -> ip_new_h_synx params = Some h0 ->
  flag (ip_flags params) SYNX_IMPORT_DMA_FENCE = true ->
  test_dma_flag g SYNX_NATIVE_FENCE_FLAG_ENABLED_BIT = true ->
  env_alloc_fails (dd_env d) (3 + dd_tick d) = false ->
  env_dma_signaled (dd_env d) fence (4 + dd_tick d) = false ->
  sys_interops s = true ->
  mapped_to (sys_peer s) fence h_synx -> synx_good (ss_table (sys_peer s)) -> idx <> 0 ->
  zget (sy_table (ss_table (sys_peer s))) idx = Some e -> unsettled e = true -> sg_handle e <> 0 ->
  synx_util_global_idx h_synx = idx -> synx_util_is_global_handle h_synx = true ->
  Forall (fun sg => 0 <= sg.1 /\ in_u32 sg.2) sigs ->
  exists s1, hw_fence_interop_create_fence_from_import (Some params) s = Done (0, Some h_synx) s1 /\
    fence_at (sys_drv s1) h
      = Some (set_refs (mk_refs true true 0) (labelled h_synx None (imported true g d f))) /\
    zget (sy_table (ss_table (sys_peer s1))) idx = Some (with_hwfence (u32 h) true e) /\
    wp (on_peer (on_table_of (run_signals sigs)))
       (fun _ s2 => sys_drv s2 = sys_drv s1 /\
          waits_or_woken SYNX_CORE_SOCCP (sg_handle e) idx (ss_table (sys_peer s2))) s1.
Proof.
  intros d Him Enh Hfl Hsy Ha Hsig Hi Hm Hg Hidx He Hu Hhe Hx Hgl Hsigs.
  destruct (get_handle_status_run (sys_peer s) params fence idx e h_synx (u32 h) true)
    as (t' & Hrun & Hg' & He' & _ & _); [apply Him|done..|apply u32_range|].
  destruct (import_synx_run s params fence g h h0 f h_synx ((sys_peer s) <| ss_table := t' |>))
    as (s1 & Himp & _ & Hp & Eh & _); [done..|].
  fold d in Himp, Eh. rewrite Hsig in Himp, Eh. cbn [andb negb] in Himp, Eh.
  exists s1. split; [exact Himp|]. split; [exact Eh|]. rewrite Hp. split; [exact He'|].
  apply wp_on_peer, wp_on_table_of. rewrite Hp.
  eapply wp_mono; [apply (run_signals_woken sigs SYNX_CORE_SOCCP (sg_handle e) idx); [exact Hg'|done..|]|].
  - exists (with_hwfence (u32 h) true e). split; [exact He'|]. left. split; [done|]. split; [|done].
    change (sg_waiters (with_hwfence (u32 h) true e)) with (Z.lor (sg_waiters e) (BIT SYNX_CORE_SOCCP)).
    rewrite Z.lor_spec, testbit_BIT by done. by rewrite bool_decide_true, orb_true_r.
  - intros ? t2 [_ Hw]. done.
Qed.

(** ** Registering at a hardware fence *)

(** The hardware fence of a dma-fence that the kernel does not report signaled, found: its
    entry [h] holds [f] with the references [rf]. *)
Record registrable (s : system synx_side) (fence : Z) (g : dma_fence) (h : Z) (f : msm_hw_fence) (rf : refs)
  : Prop := {
  rg_ok : drv_ok (sys_drv s);
  rg_resources : dd_resources_ready (sys_drv s) = true;
  rg_ready : dd_fctl_ready (sys_drv s) = true;
  rg_dma : dd_dma_fences (sys_drv s) !! fence = Some g;
  rg_enabled : test_dma_flag g MSM_HW_FENCE_FLAG_ENABLED_BIT = true;
  rg_unsignaled : forall n, env_dma_signaled (dd_env (sys_drv s)) fence n = false;
  rg_slot : exists k, h = probe (sys_drv s) (df_context g) (df_seqno g) k /\
    find_step (sys_drv s) (key_match (sys_drv s) fence (df_context g) (df_seqno g))
      (df_context g) (df_seqno g) = Some k;
  rg_entry : fence_at (sys_drv s) h = Some f;
  rg_refs : refs_wf rf;
  rg_word : hf_refcount f = refs_word rf;
  rg_live : 0 < rf_hlos rf < 2 ^ 30 - 1;
  rg_error : in_u32 (hf_error f) }.

(** An active simple object at [idx], with the handle [h_synx] for [fence]. *)
Record active_object (p : synx_side) (fence idx h_synx : Z) (e : synx_global_coredata) : Prop := {
  ao_good : synx_good (ss_table p);
  ao_map : mapped_to p fence h_synx;
  ao_handle : in_u32 h_synx /\ synx_util_is_global_handle h_synx = true /\ synx_util_global_idx h_synx = idx;
  ao_idx : idx <> 0;
  ao_entry : zget (sy_table (ss_table p)) idx = Some e;
  ao_active : sg_status e = SYNX_STATE_ACTIVE;
  ao_simple : sg_num_child e = 0 }.

Lemma share_on_system s fence g h f rf flags h_synx :
  registrable s fence g h f rf ->
  flag flags SYNX_IMPORT_DMA_FENCE = true -> flag flags SYNX_IMPORT_SYNX_FENCE = false ->
  hf_h_synx f = 0 \/ hf_h_synx f = h_synx ->
  let status := hw_fence_interop_to_synx_signal_status (hf_flags f) (hf_error f) in
  exists t d', on_drv (hw_fence_interop_share_handle_status
                  (Some (mk_import_params (Some fence) (Some h_synx) flags)) h_synx) s
      = Done (0, if is_signaled_hw f then None else Some (u32 h), Some status) (s <| sys_drv := d' |>) /\
    drv_ok d' /\ fence_at d' h = Some (if is_signaled_hw f then f else labelled h_synx (Some t) f).
Proof.
  intros [Hd Hres Hr Eg Hen Hsig (k & -> & Ek) E Hrf Ew Hl Her] Hf1 Hf2 Hfit status.
  destruct (share_handle_status_run (sys_drv s) fence g h_synx flags h_synx k f rf)
    as (t & d' & Hrun & Hd' & E' & _); [done..|apply Her|done|].
  exists t, d'. split; [|done]. unfold on_drv. by rewrite Hrun.
Qed.

(** C12: a synx object registers at the hardware fence of a dma-fence that the kernel does
    not report signaled ([rg_unsignaled]; of one it does,
    [signaled_fence_registers_itself] tells what happens).  While the entry of the
    hardware fence is unsignaled, the entry gets the handle of the object and the object that
    of the fence, with a reference and the processor of the controller as a
    subscriber; if the entry is signaled, by the controller ahead of the kernel, the object
    is signaled with the status for the entry's error. *)
Theorem register_hw_fence_spec s client fence g h f rf flags idx h_synx e :
  registrable s fence g h f rf -> active_object (sys_peer s) fence idx h_synx e ->
  flag flags SYNX_IMPORT_DMA_FENCE = true -> flag flags SYNX_IMPORT_SYNX_FENCE = false ->
  hf_h_synx f = 0 \/ hf_h_synx f = h_synx -> sys_interops s = true ->
  let status := hw_fence_interop_to_synx_signal_status (hf_flags f) (hf_error f) in
  exists t s', synx_register_hw_fence (Some client) (Some (mk_import_params (Some fence) (Some h_synx) flags)) s
               = Done (0, Some h_synx) s' /\
    drv_ok (sys_drv s') /\ synx_good (ss_table (sys_peer s')) /\
    fence_at (sys_drv s') h = Some (if is_signaled_hw f then f else labelled h_synx (Some t) f) /\
    zget (sy_table (ss_table (sys_peer s'))) idx
    = Some (if is_signaled_hw f then e <| sg_status := status |> <| sg_waiters := 0 |>
            else with_hwfence (u32 h) false e).
Proof.
  intros Hrg Hao Hf1 Hf2 Hfit Hi status. destruct (share_on_system s fence g h f rf flags h_synx) as (t & d' & Hrun & Hd' & E'); [done..|].
  pose proof (signal_status_range f (proj1 (rg_error _ _ _ _ _ _ Hrg))) as Hst. fold status in Hrun, Hst. cbv zeta in Hst.
  destruct Hao as [Hg Hm (Hu & Hgl & Hx) Hidx He Ha Hn]. exists t. set (s1 := s <| sys_drv := d' |>) in Hrun.
  unfold synx_register_hw_fence. rewrite (bind_run _ _ s s s), Hi by done. cbn [negb].
  rewrite (bind_run _ _ _ _ _ Hrun). cbv beta iota zeta. change (negb (0 =? 0)) with false. cbv iota.
  change (default SYNX_STATE_ACTIVE (Some status)) with status. destruct (is_signaled_hw f).
  - rewrite (proj2 (Z.eqb_neq status SYNX_STATE_ACTIVE)) by (intros ->; by apply Hst). cbn [negb].
    assert (in_u32 status) as Hsu.
    { destruct (rg_error _ _ _ _ _ _ Hrg) as [He0 He1]. unfold status, hw_fence_interop_to_synx_signal_status.
      repeat case_match; done. }
    assert (SYNX_STATE_ACTIVE < status) as Hlt by (unfold SYNX_STATE_ACTIVE, SYNX_STATE_SIGNALED_SUCCESS in *; lia).
    pose proof (zget_Some _ _ _ He) as Hr.
    pose proof (update_status_good (ss_table (sys_peer s)) idx status Hg (proj1 Hr) Hsu) as Hw.
    destruct (wp_inv _ _ _ Hw) as (rc & t' & Hup & Hg' & _ & _ & Hleaf).
    destruct (Hleaf e Hidx He Hlt Ha Hn) as [-> He'].
    erewrite bind_run.
    2: { unfold on_peer, on_table_of. change (sys_peer s1) with (sys_peer s). rewrite Hx, Hup. done. }
    by eexists.
  - rewrite Hst. change (negb (SYNX_STATE_ACTIVE =? SYNX_STATE_ACTIVE)) with false. cbv iota.
    change (default h_synx (Some (u32 h))) with (u32 h).
    assert (unsettled e = true) as Hun by (unfold unsettled; by rewrite Ha).
    destruct (get_handle_status_run (sys_peer s) (mk_import_params (Some fence) (Some (u32 h)) flags) fence idx e h_synx (u32 h) false)
      as (t' & Hgs & Hg' & He' & _ & _); [done..|apply u32_range|].
    erewrite bind_run by (unfold on_peer; change (sys_peer s1) with (sys_peer s); by rewrite Hgs).
    by eexists.
Qed.

(** At a hardware fence whose dma-fence the kernel has signaled without an error,
    the registration of an active object succeeds, yet the object is not signaled: it
    stays active, waiting for the hardware fence with the object's own handle. *)
Theorem signaled_fence_registers_itself s client fence g flags idx h_synx e :
  dd_resources_ready (sys_drv s) = true -> dd_fctl_ready (sys_drv s) = true ->
  dd_dma_fences (sys_drv s) !! fence = Some g -> test_dma_flag g MSM_HW_FENCE_FLAG_ENABLED_BIT = true ->
  (forall n, env_dma_signaled (dd_env (sys_drv s)) fence n = true) -> df_error g = 0 ->
  active_object (sys_peer s) fence idx h_synx e ->
  flag flags SYNX_IMPORT_DMA_FENCE = true -> flag flags SYNX_IMPORT_SYNX_FENCE = false -> sys_interops s = true ->
  exists s', synx_register_hw_fence (Some client) (Some (mk_import_params (Some fence) (Some h_synx) flags)) s
             = Done (0, Some h_synx) s' /\
    dd_hw_fences_tbl (sys_drv s') = dd_hw_fences_tbl (sys_drv s) /\
    zget (sy_table (ss_table (sys_peer s'))) idx = Some (with_hwfence h_synx false e).
Proof.
  intros Hres Hr Eg Hen Hsig Her Hao Hf1 Hf2 Hi.
  pose proof (signaled_share_run (sys_drv s) fence g h_synx flags h_synx Hres Hr Hf1 Hf2 Eg Hen Hsig Her) as Hrun.
  destruct Hao as [Hg Hm (Hu & Hgl & Hx) Hidx He Ha Hn]. set (s1 := s <| sys_drv := ticked (sys_drv s) |>).
  unfold synx_register_hw_fence. rewrite (bind_run _ _ s s s), Hi by done. cbn [negb].
  rewrite (bind_run _ _ s (0, None, Some SYNX_STATE_ACTIVE) s1) by (unfold on_drv; by rewrite Hrun).
  cbv beta iota zeta. change (negb (0 =? 0)) with false. cbv iota. change (default SYNX_STATE_ACTIVE (Some SYNX_STATE_ACTIVE)) with SYNX_STATE_ACTIVE.
  change (default h_synx None) with h_synx.
  assert (unsettled e = true) as Hun by (unfold unsettled; by rewrite Ha).
  destruct (get_handle_status_run (sys_peer s) (mk_import_params (Some fence) (Some h_synx) flags) fence idx e h_synx h_synx false)
    as (t' & Hgs & Hg' & He' & _ & _); [done..|].
  change (negb (SYNX_STATE_ACTIVE =? SYNX_STATE_ACTIVE)) with false. cbv iota.
  erewrite bind_run by (unfold on_peer; change (sys_peer s1) with (sys_peer s); by rewrite Hgs).
  by eexists.
Qed.

(** ** Witnesses *)

Definition handle6 : Z := synx_encode_handle 6 SYNX_CORE_APSS true.
Definition object6 : synx_global_coredata := object 6 1 0 no_parents.

(** The kernel fences: 99 has the hardware fence [child_h]; 78 is native; 60 is
    signaled by object 6 of [family_state], which is also mapped to 99. *)
Definition shared_fences : gmap Z dma_fence :=
  <[99 := (plain_dma 7 5 0) <| df_flags := BIT MSM_HW_FENCE_FLAG_ENABLED_BIT |>]>
    (<[78 := plain_dma 70 50 0]>
       {[60 := (plain_dma 60 1 0) <| df_flags := BIT SYNX_NATIVE_FENCE_FLAG_ENABLED_BIT |>]}).

Definition shared8 (signaled fails : bool) : driver_data :=
  joined8 <| dd_dma_fences := shared_fences |> <| dd_resources_ready := true |> <| dd_fctl_ready := true |>
    <| dd_env := quiet_env <| env_dma_signaled := fun _ _ => signaled |> <| env_alloc_fails := fun _ => fails |> |>.

Definition family_side : synx_side :=
  mk_side family_state (<[60 := mk_fence_entry handle6 0]> {[99 := mk_fence_entry handle6 0]}) [].

Definition both8 (signaled fails : bool) : system synx_side :=
  mk_system (shared8 signaled fails) family_side true true.

Lemma shared8_ok signaled fails : drv_ok (shared8 signaled fails).
Proof.
  apply one_client_ok; [vm_compute; reflexivity|intros n; reflexivity|
                        vm_compute; reflexivity|vm_compute; reflexivity|].
  intros fence g. change (dd_dma_fences (shared8 signaled fails)) with shared_fences. unfold shared_fences.
  intros [[_ <-]|[_ [[_ <-]|[_ [_ <-]%lookup_singleton_Some]]%lookup_insert_Some]]%lookup_insert_Some;
    vm_compute; discriminate.
Qed.

Lemma object6_active fence : fence = 60 \/ fence = 99 -> active_object family_side fence 6 handle6 object6.
Proof.
  intros Hf. split; [exact family_good| | |done|vm_compute; reflexivity|vm_compute; reflexivity|vm_compute; reflexivity].
  - exists (mk_fence_entry handle6 0). split; [by destruct Hf as [->| ->]|]. split; [done|]. by vm_compute.
  - by vm_compute.
Qed.

Definition import_of (fence : Z) : import_params := mk_import_params (Some fence) (Some 0) SYNX_IMPORT_DMA_FENCE.

Lemma importable8 fails fence g :
  (fence, g) = (78, plain_dma 70 50 0) \/
  (fence, g) = (60, (plain_dma 60 1 0) <| df_flags := BIT SYNX_NATIVE_FENCE_FLAG_ENABLED_BIT |>) ->
  importable (both8 false fails) (import_of fence) fence g
    (probe (shared8 false fails) (df_context g) (df_seqno g) 0) blank_fence.
Proof.
  intros [[= -> ->]|[= -> ->]];
    (split; [done|apply shared8_ok|done|done|by vm_compute| |by vm_compute|done]; exists 0; split; [done|by vm_compute]).
Qed.

Lemma status_error_roundtrip_witness :
  hw_fence_interop_to_synx_signal_status MSM_HW_FENCE_FLAG_SIGNAL
    (hw_fence_interop_to_hw_fence_error SYNX_STATE_SIGNALED_SSR) = SYNX_STATE_SIGNALED_SSR.
Proof.
  destruct (status_error_roundtrip MSM_HW_FENCE_FLAG_SIGNAL 0 SYNX_STATE_SIGNALED_SSR 1) as (_ & H & _);
    [reflexivity|vm_compute; discriminate|discriminate|].
  apply H. vm_compute. discriminate.
Defined.

(** A session of the display controller imports the handle of object 6. *)
Definition dpu_session : synx_session := mk_session SYNX_CLIENT_HW_FENCE_DPU0_CTL0 (Some 2).

Definition import_object6 : indv_params := mk_indv (Some 0) SYNX_IMPORT_SYNX_FENCE (Some (inr handle6)).

Lemma handle6_resolves f : resolves handle6 f (both8 false false) -> f = 60 \/ f = 99.
Proof.
  unfold resolves. replace (flag handle6 HwFenceInterop.SYNX_HW_FENCE_HANDLE_FLAG) with false by (by vm_compute).
  intros [p' E]. unfold peer_get_fence, synx_peer, synx_internal_get_dma_fence, bind, get in E.
  destruct (filter _ _) as [|[key e] rest] eqn:Ef; [done|]. injection E as <- _.
  assert ((key, e) ∈ map_to_list (ss_fence_map (sys_peer (both8 false false)))) as Hin.
  { apply (list_elem_of_filter (fun kv => fe_g_handle kv.2 = handle6)). rewrite Ef. by left. }
  apply elem_of_map_to_list in Hin. revert Hin. unfold both8, family_side. cbn [sys_peer ss_fence_map].
  intros [[-> _]|[_ [-> _]%lookup_singleton_Some]]%lookup_insert_Some; auto.
Qed.

Lemma session_call_witness :
  exists s', run_session_op 0 (Some dpu_session) (SImport (Some (ImportIndv import_object6))) (both8 false false)
    = Done tt s' /\ good s' /\ sys_stays (both8 false false) s'.
Proof.
  apply (session_call_keeps_both_ok 0 (Some dpu_session) (SImport (Some (ImportIndv import_object6))) (both8 false false)).
  - exact (conj (shared8_ok false false) (good_ok _ family_good)).
  - done.
  - split; [intros se [= <-]; by exists rx_client|]. intros new_h fence _ [= <-]. simpl. intros _.
    exists handle6. split; [done|]. intros f Hf. left. split.
    + intros n. split; [done|]. change (4096 + Z.of_nat n <> f). destruct (handle6_resolves f Hf) as [-> | ->]; lia.
    + destruct (handle6_resolves f Hf) as [-> | ->]; by eexists.
Defined.

Lemma import_native_witness :
  exists s', hw_fence_interop_create_fence_from_import (Some (import_of 78)) (both8 false false)
             = Done (0, Some 0) s' /\ drv_ok (sys_drv s').
Proof.
  destruct (import_native_spec (both8 false false) (import_of 78) 78 (plain_dma 70 50 0) _ blank_fence
              (importable8 false 78 _ (or_introl eq_refl))) as (s' & Hr & Hd & _); [reflexivity|reflexivity|].
  exists s'. exact (conj Hr Hd).
Defined.

Lemma import_retry_witness :
  exists s', hw_fence_interop_create_fence_from_import (Some (import_of 78)) (both8 false true)
             = Done (- SYNX_NOMEM, Some 0) s' /\
    hw_fence_interop_create_fence_from_import (Some (import_of 78)) s' = Done (0, Some 0) s'.
Proof.
  destruct (import_retry_reports_success (both8 false true) (import_of 78) 78 (plain_dma 70 50 0) _ blank_fence
              (importable8 true 78 _ (or_introl eq_refl))) as (s' & Hr & _ & _ & Hr'); [reflexivity|reflexivity|].
  exists s'. exact (conj Hr Hr').
Defined.

Lemma imported_fence_is_woken_witness :
  exists s1, hw_fence_interop_create_fence_from_import (Some (import_of 60)) (both8 false false)
             = Done (0, Some handle6) s1 /\
    wp (on_peer (on_table_of (run_signals [(6, SYNX_STATE_SIGNALED_SUCCESS)])))
       (fun _ s2 => sys_drv s2 = sys_drv s1 /\
          waits_or_woken SYNX_CORE_SOCCP handle6 6 (ss_table (sys_peer s2))) s1.
Proof.
  destruct (imported_fence_is_woken (both8 false false) (import_of 60) 60 _ _ 0 blank_fence 6 object6 handle6
              [(6, SYNX_STATE_SIGNALED_SUCCESS)] (importable8 false 60 _ (or_intror eq_refl)))
    as (s1 & Hr & _ & _ & Hw); try reflexivity.
  - apply object6_active. by left.
  - exact family_good.
  - discriminate.
  - vm_compute. discriminate.
  - repeat constructor; vm_compute; try discriminate; reflexivity.
  - exists s1. split; [exact Hr|exact Hw].
Defined.

Lemma registrable8 : registrable (both8 false false) 99 ((plain_dma 7 5 0) <| df_flags := BIT MSM_HW_FENCE_FLAG_ENABLED_BIT |>)
  child_h child_f fresh_refs.
Proof.
  split; [apply shared8_ok|done|done|done|by vm_compute|done| |by vm_compute|done|by vm_compute|done|by vm_compute].
  exists 0. split; by vm_compute.
Qed.

Lemma register_hw_fence_witness :
  exists s', synx_register_hw_fence (Some 0) (Some (mk_import_params (Some 99) (Some handle6) SYNX_IMPORT_DMA_FENCE))
               (both8 false false) = Done (0, Some handle6) s' /\
    zget (sy_table (ss_table (sys_peer s'))) 6 = Some (with_hwfence (u32 child_h) false object6).
Proof.
  destruct (register_hw_fence_spec (both8 false false) 0 99 _ child_h child_f fresh_refs SYNX_IMPORT_DMA_FENCE 6 handle6
              object6 registrable8) as (t & s' & Hr & _ & _ & _ & He); try reflexivity.
  - apply object6_active. by right.
  - left. vm_compute. reflexivity.
  - exists s'. split; [exact Hr|exact He].
Defined.

Lemma signaled_fence_registers_itself_witness :
  exists s', synx_register_hw_fence (Some 0) (Some (mk_import_params (Some 99) (Some handle6) SYNX_IMPORT_DMA_FENCE))
               (both8 true false) = Done (0, Some handle6) s' /\
    zget (sy_table (ss_table (sys_peer s'))) 6 = Some (with_hwfence handle6 false object6).
Proof.
  destruct (signaled_fence_registers_itself (both8 true false) 0 99 _ SYNX_IMPORT_DMA_FENCE 6 handle6 object6
              eq_refl eq_refl eq_refl) as (s' & Hr & _ & He); try reflexivity.
  - apply object6_active. by right.
  - exists s'. split; [exact Hr|exact He].
Defined.
