(* ===== verification/Ipclite.v ===== *)
(** * ipclite: messages between processors

    [msm/synx/ipclite.c] and [ipclite.h] of the synx driver: every pair of processors has
    a partition of the shared memory with two rings of 64-bit messages; a mailbox
    interrupt tells the other side.  The rings, the interrupt handler, sending, the
    registration of clients, the partitions and the channels to them, and the
    recovery from a processor that stopped.

    A pointer to a word of the descriptors is its index, a pointer into a ring the byte
    offset from the start of the partition; so the one ring of the loopback partition is
    one object under two names, as in the code.  A mailbox message and a call of a
    registered client are events.  The debug statistics and logs, off by default, are
    left out.

    The theorems: over any sequence of sends, interrupts and steps of the remote
    processors, the channels are bounded queues; a processor that stopped starts again
    with empty queues; what breaks the interrupt handler. *)
From S2P Require Import Prelude SynxGlobal.
From Stdlib Require Import Lia.

(** ** Constants *)

Definition EOPNOTSUPP : Z := 95.
Definition ETIMEDOUT : Z := 110.
Definition IRQ_HANDLED : Z := 1.

Definition IPCMEM_GLOBAL_HOST : Z := 254.
Definition IPCMEM_INVALID_HOST : Z := 255.

Definition IPCMEM_INIT_COMPLETED : Z := 1.

Definition IPCLITE_MSG_SIGNAL : Z := 0.
Definition IPCLITE_MEM_INIT_SIGNAL : Z := 1.
Definition IPCLITE_VERSION_SIGNAL : Z := 2.
Definition IPCLITE_TEST_SIGNAL : Z := 3.
Definition IPCLITE_SSR_SIGNAL : Z := 4.
Definition MAX_CHANNEL_SIGNALS : Z := 6.

Definition FIFO_FULL_RESERVE : Z := 8.

(** [enum ipclite_channel_status] *)
Definition INACTIVE : Z := 0.
Definition IN_PROGRESS : Z := 1.
Definition ACTIVE : Z := 2.

Definition IPCLITE_GLOBAL_ATOMIC : Z := 1.

Definition IPCMEM_TOC_SIZE : Z := 4 * 1024.
Definition GLOBAL_PARTITION_SIZE : Z := 128 * 1024.
Definition GLOBAL_PARTITION_FLAGS : Z := 3.
Definition GLOBAL_PARTITION_TYPE : Z := 255.
Definition GLOBAL_REGION_OFFSET : Z := 4 * 1024.
Definition GLOBAL_REGION_SIZE : Z := 124 * 1024.

Definition DEFAULT_PARTITION_TYPE : Z := 0.
Definition LOOPBACK_PARTITION_TYPE : Z := 1.
Definition DEFAULT_DESCRIPTOR_OFFSET : Z := 1024.
Definition DEFAULT_DESCRIPTOR_SIZE : Z := 3 * 1024.
Definition DEFAULT_FIFO0_OFFSET : Z := 4 * 1024.
Definition DEFAULT_FIFO0_SIZE : Z := 8 * 1024.
Definition DEFAULT_FIFO1_OFFSET : Z := 12 * 1024.
Definition DEFAULT_FIFO1_SIZE : Z := 8 * 1024.
Definition DEFAULT_PARTITION_SIZE : Z := 32 * 1024.
Definition DEFAULT_PARTITION_FLAGS : Z := 3.

(** ** Data *)

(** [struct ipcmem_partition_entry], of the table of contents. *)
Record ipcmem_partition_entry := mk_entry {
  pe_base_offset : Z; pe_size : Z; pe_flags : Z; pe_host0 : Z; pe_host1 : Z }.

Record ipcmem_partition_header := mk_header {
  ph_type : Z; ph_desc_offset : Z; ph_desc_size : Z; ph_fifo0_offset : Z; ph_fifo0_size : Z;
  ph_fifo1_offset : Z; ph_fifo1_size : Z; ph_status : Z }.

Definition default_partition_hdr : ipcmem_partition_header :=
  mk_header DEFAULT_PARTITION_TYPE DEFAULT_DESCRIPTOR_OFFSET DEFAULT_DESCRIPTOR_SIZE
    DEFAULT_FIFO0_OFFSET DEFAULT_FIFO0_SIZE DEFAULT_FIFO1_OFFSET DEFAULT_FIFO1_SIZE INACTIVE.

Definition loopback_partition_hdr : ipcmem_partition_header :=
  mk_header LOOPBACK_PARTITION_TYPE DEFAULT_DESCRIPTOR_OFFSET DEFAULT_DESCRIPTOR_SIZE
    DEFAULT_FIFO0_OFFSET DEFAULT_FIFO0_SIZE DEFAULT_FIFO0_OFFSET DEFAULT_FIFO0_SIZE INACTIVE.

Record global_partition_header := mk_global_header {
  gh_partition_type : Z; gh_region_offset : Z; gh_region_size : Z }.

Definition global_partition_hdr : global_partition_header :=
  mk_global_header GLOBAL_PARTITION_TYPE GLOBAL_REGION_OFFSET GLOBAL_REGION_SIZE.

(** The memory of one partition: its header, the 32-bit words from [desc_offset] on, and
    its bytes, of which only those of the rings are read. *)
Record ipcmem_partition := mk_partition {
  pt_hdr : ipcmem_partition_header; pt_descs : list Z; pt_mem : list Z }.

#[export] Instance eta_header : Eta ipcmem_partition_header := fun r =>
  mk_header (ph_type r) (ph_desc_offset r) (ph_desc_size r) (ph_fifo0_offset r) (ph_fifo0_size r)
    (ph_fifo1_offset r) (ph_fifo1_size r) (ph_status r).
#[export] Instance eta_partition : Eta ipcmem_partition := fun r =>
  mk_partition (pt_hdr r) (pt_descs r) (pt_mem r).

(** [struct ipclite_fifo] in partition [fi_part]. *)
Record ipclite_fifo := mk_fifo {
  fi_part : Z; fi_length : Z; fi_tail : Z; fi_head : Z; fi_fifo : Z }.

(** [struct ipclite_irq_info]: whether [mbox_chan] was requested, and [signal_id]. *)
Record ipclite_irq_info := mk_irq { ir_mbox_chan : bool; ir_signal_id : Z }.

#[export] Instance eta_irq : Eta ipclite_irq_info := fun r => mk_irq (ir_mbox_chan r) (ir_signal_id r).

(** [struct ipclite_client]; a callback is its number, [None] the null pointer. *)
Record ipclite_client := mk_client { cl_callback : option Z; cl_priv_data : Z; cl_reg_complete : Z }.

Record ipclite_channel := mk_channel {
  ch_remote_pid : Z;
  ch_tx_fifo : option ipclite_fifo;
  ch_rx_fifo : option ipclite_fifo;
  ch_tx_lock : bool;
  ch_irq_info : list ipclite_irq_info;
  ch_gstatus_ptr : option Z;       (* [&partition_hdr->status] of this partition *)
  ch_status : Z }.

#[export] Instance eta_channel : Eta ipclite_channel := fun r =>
  mk_channel (ch_remote_pid r) (ch_tx_fifo r) (ch_rx_fifo r) (ch_tx_lock r) (ch_irq_info r)
    (ch_gstatus_ptr r) (ch_status r).

Inductive ipc_event :=
| Mbox (pid signal : Z)                              (* [mbox_send_message] *)
| Client_callback (callback pid data priv : Z)
| Hwspin_unlock.

(** What the kernel answers, by how often it was asked: the result of the mailbox, and
    whether another processor keeps the hardware lock until the timeout. *)
Record ipc_env := mk_ipc_env { ie_mbox : Z -> Z; ie_lock_busy : Z -> bool }.

(** [struct ipclite_info] with the file's static variables and the table of contents, whose
    [host_info] holds the owner of the hardware lock and the configured hosts. *)
Record ipclite_info := mk_info {
  ip_channel : list ipclite_channel;
  ip_configured_host : Z;
  ip_init_done : Z;
  ip_global_entry : ipcmem_partition_entry;
  ip_global_hdr : global_partition_header;
  ip_entry : list ipcmem_partition_entry;
  ip_partition : list ipcmem_partition;
  ip_partitions : Z;
  ip_enabled_hosts : Z;
  ip_feature_mask : Z;
  ip_hwlock : bool;                (* the hardware lock is taken *)
  ip_hwlock_owner : Z;
  ip_ssr_mutex : bool;
  ip_synx_client : ipclite_client;
  ip_test_client : ipclite_client;
  ip_events : list ipc_event;
  ip_asked : Z;
  ip_env : ipc_env }.

#[export] Instance eta_info : Eta ipclite_info := fun r =>
  mk_info (ip_channel r) (ip_configured_host r) (ip_init_done r) (ip_global_entry r) (ip_global_hdr r) (ip_entry r) (ip_partition r) (ip_partitions r) (ip_enabled_hosts r)
    (ip_feature_mask r) (ip_hwlock r) (ip_hwlock_owner r) (ip_ssr_mutex r) (ip_synx_client r)
    (ip_test_client r) (ip_events r) (ip_asked r) (ip_env r).

Abbreviation IPC := (M ipclite_info).

Definition ipc_emit (e : ipc_event) : IPC unit := modifyM (fun s => s <| ip_events ::= fun l => l ++ [e] |>).

Definition ipc_ask : IPC Z :=
  s <-- get; put (s <| ip_asked ::= Z.succ |>);;; ret (ip_asked s).

(** [(int64_t)x] *)
Definition i64 (x : Z) : Z := (x + 2 ^ 63) mod 2 ^ 64 - 2 ^ 63.

(** ** Shared memory *)

Definition desc_read (p i : Z) : IPC Z :=
  s <-- get; pt <-- deref (zget (ip_partition s) p); deref (zget (pt_descs pt) i).

Definition set_partition (p : Z) (pt : ipcmem_partition) : IPC unit :=
  modifyM (fun s => s <| ip_partition ::= zset p pt |>).

Definition desc_write (p i v : Z) : IPC unit :=
  s <-- get;
  pt <-- deref (zget (ip_partition s) p);
  _ <-- deref (zget (pt_descs pt) i);
  set_partition p (pt <| pt_descs ::= zset i v |>).

Definition bytes_at (mem : list Z) (off n : Z) : option (list Z) :=
  if (0 <=? off) && (off + n <=? zlen mem) then Some (take (Z.to_nat n) (drop (Z.to_nat off) mem)) else None.

Definition memcpy_fromio (p off n : Z) : IPC (list Z) :=
  s <-- get; pt <-- deref (zget (ip_partition s) p); deref (bytes_at (pt_mem pt) off n).

Definition memcpy_toio (p off : Z) (bytes : list Z) : IPC unit :=
  s <-- get;
  pt <-- deref (zget (ip_partition s) p);
  _ <-- deref (bytes_at (pt_mem pt) off (zlen bytes));
  set_partition p (pt <| pt_mem ::= list_inserts (Z.to_nat off) bytes |>).

(** A 64-bit value as eight bytes, the lowest first. *)
Fixpoint le_bytes (n : nat) (x : Z) : list Z :=
  match n with O => [] | S n => x mod 2 ^ 8 :: le_bytes n (x / 2 ^ 8) end.

Fixpoint le_val (l : list Z) : Z :=
  match l with [] => 0 | b :: l => b + 2 ^ 8 * le_val l end.

Definition MSG_BYTES : Z := 8.

(** ** The rings *)

Definition ipcmem_rx_avail (f : ipclite_fifo) : IPC Z :=
  head <-- desc_read (fi_part f) (fi_head f);
  tail <-- desc_read (fi_part f) (fi_tail f);
  let len := if head <? tail then u32 (fi_length f - tail + head) else head - tail in
  ret (if fi_length f <? len then 0 else len).

(** [None]: nothing was written to [data]. *)
Definition ipcmem_rx_peak (f : ipclite_fifo) (count : Z) : IPC (option (list Z)) :=
  tail <-- desc_read (fi_part f) (fi_tail f);
  if fi_length f <? tail then ret None
  else
    let tail := if fi_length f <=? tail then tail - fi_length f else tail in
    let len := Z.min count (fi_length f - tail) in
    first <-- (if negb (len =? 0) then memcpy_fromio (fi_part f) (fi_fifo f + tail) len else ret []);
    rest <-- (if negb (len =? count) then memcpy_fromio (fi_part f) (fi_fifo f) (count - len) else ret []);
    ret (Some (first ++ rest)).

Definition ipcmem_rx_advance (f : ipclite_fifo) (count : Z) : IPC unit :=
  tail <-- desc_read (fi_part f) (fi_tail f);
  let tail := u32 (tail + count) in
  tail <-- (if fi_length f <=? tail
            then if fi_length f =? 0 then raise Undefined else ret (tail mod fi_length f)
            else ret tail);
  desc_write (fi_part f) (fi_tail f) tail.

Definition ipcmem_tx_avail (f : ipclite_fifo) : IPC Z :=
  head <-- desc_read (fi_part f) (fi_head f);
  tail <-- desc_read (fi_part f) (fi_tail f);
  let avail := if tail <=? head then u32 (fi_length f - head + tail) else tail - head in
  let avail := if avail <? FIFO_FULL_RESERVE then 0 else avail - FIFO_FULL_RESERVE in
  ret (if fi_length f <? avail then 0 else avail).

Definition ipcmem_tx_write_one (f : ipclite_fifo) (head : Z) (data : list Z) (count : Z) : IPC Z :=
  if fi_length f <? head then ret head
  else
    let len := Z.min count (fi_length f - head) in
    (when negb (len =? 0) do memcpy_toio (fi_part f) (fi_fifo f + head) (take (Z.to_nat len) data));;;
    (when negb (len =? count) do
       memcpy_toio (fi_part f) (fi_fifo f) (take (Z.to_nat (count - len)) (drop (Z.to_nat len) data)));;;
    let head := u32 (head + count) in
    ret (if fi_length f <=? head then head - fi_length f else head).

(** [ALIGN(x, 8)] of an unsigned int. *)
Definition ALIGN8 (x : Z) : Z := u32 (clear (x + 7) 7).

Definition ipcmem_tx_write (f : ipclite_fifo) (data : list Z) (dlen : Z) : IPC unit :=
  head <-- desc_read (fi_part f) (fi_head f);
  head <-- ipcmem_tx_write_one f head data dlen;
  let head := ALIGN8 head in
  let head := if fi_length f <=? head then head - fi_length f else head in
  desc_write (fi_part f) (fi_head f) head.

(** ** Channels *)

Definition the_channel (pid : Z) : IPC ipclite_channel :=
  s <-- get; deref (zget (ip_channel s) pid).

Definition update_channel (pid : Z) (g : ipclite_channel -> ipclite_channel) : IPC unit :=
  c <-- the_channel pid;
  modifyM (fun s => s <| ip_channel ::= zset pid (g c) |>).

Definition rx_fifo_of (pid : Z) : IPC ipclite_fifo := c <-- the_channel pid; deref (ch_rx_fifo c).

Definition tx_fifo_of (pid : Z) : IPC ipclite_fifo := c <-- the_channel pid; deref (ch_tx_fifo c).

Definition ipclite_rx_avail (pid : Z) : IPC Z := f <-- rx_fifo_of pid; ipcmem_rx_avail f.

Definition ipclite_rx_peak (pid count : Z) : IPC (option (list Z)) :=
  f <-- rx_fifo_of pid; ipcmem_rx_peak f count.

Definition ipclite_rx_advance (pid count : Z) : IPC unit := f <-- rx_fifo_of pid; ipcmem_rx_advance f count.

Definition ipclite_tx_avail (pid : Z) : IPC Z := f <-- tx_fifo_of pid; ipcmem_tx_avail f.

Definition ipclite_tx_write (pid : Z) (data : list Z) (dlen : Z) : IPC unit :=
  f <-- tx_fifo_of pid; ipcmem_tx_write f data dlen.

(** [data] starts as zero and stays so when nothing was read. *)
Definition peeked (o : option (list Z)) : Z := match o with Some bytes => le_val bytes | None => 0 end.

Definition call_client (c : ipclite_client) (remote_pid data : Z) : IPC unit :=
  when cl_reg_complete c =? 1 do
    match cl_callback c with
    | Some f => ipc_emit (Client_callback f remote_pid (i64 data) (cl_priv_data c))
    | None => ret tt
    end.

Definition ipclite_rx_data (pid avail : Z) : IPC Z :=
  if avail <? MSG_BYTES then ret (- EAGAIN)
  else
    data <-- ipclite_rx_peak pid MSG_BYTES;
    c <-- the_channel pid;
    s <-- get;
    call_client (ip_synx_client s) (ch_remote_pid c) (peeked data);;;
    ipclite_rx_advance pid (ALIGN8 MSG_BYTES);;;
    ret 0.

Definition ipclite_rx_test_data (pid avail : Z) : IPC Z :=
  if avail <? MSG_BYTES then ret (- EAGAIN)
  else
    data <-- ipclite_rx_peak pid MSG_BYTES;
    c <-- the_channel pid;
    s <-- get;
    call_client (ip_test_client s) (ch_remote_pid c) (peeked data);;;
    ipclite_rx_advance pid (ALIGN8 MSG_BYTES);;;
    ret 0.

(** [for (;;)] of the handler; the code has no bound. *)
Fixpoint drain_rx (fuel : nat) (rx : Z -> Z -> IPC Z) (pid : Z) : IPC unit :=
  match fuel with
  | O => raise OutOfFuel
  | S fuel =>
      avail <-- ipclite_rx_avail pid;
      if avail <? MSG_BYTES then ret tt else rx pid avail;;; drain_rx fuel rx pid
  end.

(** The interrupt of [irq_info[i]] of channel [pid].  [container_of] steps back by
    [irq_info->signal_id] structures, so it finds the channel when that is [i], and an
    address inside no channel otherwise. *)
Definition ipclite_intr (fuel : nat) (pid i : Z) : IPC Z :=
  c <-- the_channel pid;
  irq_info <-- deref (zget (ch_irq_info c) i);
  let signal_id := ir_signal_id irq_info in
  if negb (signal_id =? i) then raise BadAccess
  else
    (if signal_id =? IPCLITE_MSG_SIGNAL then drain_rx fuel ipclite_rx_data pid
     else if signal_id =? IPCLITE_VERSION_SIGNAL then ret tt
     else if signal_id =? IPCLITE_TEST_SIGNAL then drain_rx fuel ipclite_rx_test_data pid
     else ret tt);;;
    ret IRQ_HANDLED.

(** ** Sending *)

(** [*channel->gstatus_ptr] *)
Definition gstatus (c : ipclite_channel) : IPC Z :=
  p <-- deref (ch_gstatus_ptr c);
  s <-- get;
  pt <-- deref (zget (ip_partition s) p);
  ret (ph_status (pt_hdr pt)).

(** The test at the head of [ipclite_tx] and of [ipclite_notify_core]. *)
Definition channel_active (pid : Z) : IPC bool :=
  c <-- the_channel pid;
  if ch_status c =? ACTIVE then ret true
  else if ch_status c =? IN_PROGRESS then
    g <-- gstatus c;
    if g =? ACTIVE then update_channel pid (fun c => c <| ch_status := ACTIVE |>);;; ret true else ret false
  else ret false.

(** [mbox_send_message] on the mailbox of a signal: [-EINVAL] without one. *)
Definition mbox_send_message (pid signal : Z) : IPC Z :=
  c <-- the_channel pid;
  irq <-- deref (zget (ch_irq_info c) signal);
  if ir_mbox_chan irq then ipc_emit (Mbox pid signal);;; n <-- ipc_ask; s <-- get; ret (ie_mbox (ip_env s) n)
  else ret (- EINVAL).

(** [mbox_client_txdone] reads the mailbox it is given. *)
Definition mbox_client_txdone (pid signal : Z) : IPC unit :=
  c <-- the_channel pid;
  irq <-- deref (zget (ch_irq_info c) signal);
  if ir_mbox_chan irq then ret tt else raise BadAccess.

Definition tx_lock (pid : Z) : IPC unit :=
  c <-- the_channel pid;
  if ch_tx_lock c then raise Deadlock else update_channel pid (fun c => c <| ch_tx_lock := true |>).

Definition tx_unlock (pid : Z) : IPC unit := update_channel pid (fun c => c <| ch_tx_lock := false |>).

(** [channel->irq_info->signal_id = signal]: the first of the array. *)
Definition set_first_signal (pid signal : Z) : IPC unit :=
  c <-- the_channel pid;
  irq <-- deref (zget (ch_irq_info c) 0);
  update_channel pid (fun c => c <| ch_irq_info ::= zset 0 (irq <| ir_signal_id := signal |>) |>).

Definition ipclite_tx (pid data dlen ipclite_signal : Z) : IPC Z :=
  active <-- channel_active pid;
  if negb active then ret (- EOPNOTSUPP)
  else
    tx_lock pid;;;
    avail <-- ipclite_tx_avail pid;
    if avail <? dlen then tx_unlock pid;;; ret (- EAGAIN)
    else
      set_first_signal pid ipclite_signal;;;
      ipclite_tx_write pid (le_bytes 8 data) dlen;;;
      mbox_send_message pid ipclite_signal;;;
      mbox_client_txdone pid ipclite_signal;;;
      tx_unlock pid;;;
      ret 0.

Definition valid_pid (proc_id : Z) : bool := negb ((proc_id <? 0) || (IPCMEM_NUM_HOSTS <=? proc_id)).

Definition ipclite_notify_core (proc_id signal_id : Z) : IPC Z :=
  if negb (valid_pid proc_id) then ret (- EINVAL)
  else
    active <-- channel_active proc_id;
    if negb active then ret (- EOPNOTSUPP)
    else
      r <-- mbox_send_message proc_id signal_id;
      if r <? 0 then ret r else ret 0.

Definition ipclite_msg_send_v0 (proc_id data : Z) : IPC Z :=
  if negb (valid_pid proc_id) then ret (- EINVAL)
  else ipclite_tx proc_id data MSG_BYTES IPCLITE_MSG_SIGNAL.

Definition ipclite_test_msg_send_v0 (proc_id data : Z) : IPC Z :=
  if negb (valid_pid proc_id) then ret (- EINVAL)
  else ipclite_tx proc_id data MSG_BYTES IPCLITE_TEST_SIGNAL.

Definition ipclite_register_client_v0 (cb_func_ptr : option Z) (priv : Z) : IPC Z :=
  match cb_func_ptr with
  | None => ret (- EINVAL)
  | Some _ => modifyM (fun s => s <| ip_synx_client := mk_client cb_func_ptr priv 1 |>);;; ret 0
  end.

Definition ipclite_register_test_client_v0 (cb_func_ptr : option Z) (priv : Z) : IPC Z :=
  match cb_func_ptr with
  | None => ret (- EINVAL)
  | Some _ => modifyM (fun s => s <| ip_test_client := mk_client cb_func_ptr priv 1 |>);;; ret 0
  end.

(** ** The hardware lock and the atomic operations *)

Definition ipclite_hw_mutex_acquire : IPC Z :=
  n <-- ipc_ask;
  s <-- get;
  if ip_hwlock s || ie_lock_busy (ip_env s) n then ret (- ETIMEDOUT)
  else modifyM (fun s => (s <| ip_hwlock := true |>) <| ip_hwlock_owner := IPCMEM_APPS |>);;; ret 0.

Definition hwspin_unlock : IPC unit :=
  modifyM (fun s => s <| ip_hwlock := false |>);;; ipc_emit Hwspin_unlock.

Definition ipclite_hw_mutex_release : IPC Z :=
  s <-- get;
  if negb (ip_hwlock_owner s =? IPCMEM_APPS) then ret (- EINVAL)
  else modifyM (fun s => s <| ip_hwlock_owner := IPCMEM_INVALID_HOST |>);;; hwspin_unlock;;; ret 0.

Definition ATOMIC_HW_MUTEX_ACQUIRE : IPC unit :=
  s <-- get;
  if flag (ip_feature_mask s) IPCLITE_GLOBAL_ATOMIC then ret tt else ipclite_hw_mutex_acquire;;; ret tt.

Definition ATOMIC_HW_MUTEX_RELEASE : IPC unit :=
  s <-- get;
  if flag (ip_feature_mask s) IPCLITE_GLOBAL_ATOMIC then ret tt else ipclite_hw_mutex_release;;; ret tt.

(** An atomic access to the status of a partition; the result is the old value. *)
Definition atomic_status (p : Z) (g : Z -> Z) : IPC Z :=
  s <-- get;
  pt <-- deref (zget (ip_partition s) p);
  set_partition p (pt <| pt_hdr ::= fun h => h <| ph_status ::= g |> |>);;;
  ret (ph_status (pt_hdr pt)).

Definition ipclite_global_atomic_store_i32 (p data : Z) : IPC unit :=
  ATOMIC_HW_MUTEX_ACQUIRE;;;
  atomic_status p (fun _ => u32 data);;;
  ATOMIC_HW_MUTEX_RELEASE.

Definition ipclite_global_atomic_inc (p : Z) : IPC Z :=
  ATOMIC_HW_MUTEX_ACQUIRE;;;
  r <-- atomic_status p (fun x => u32 (x + 1));
  ATOMIC_HW_MUTEX_RELEASE;;;
  ret (i32 r).

(** ** Recovery from a processor that stopped *)

Definition is_host_enabled (enabled_hosts host : Z) : bool := Z.testbit enabled_hosts host.

Definition is_loopback_except_apps (h0 h1 : Z) : bool := (h0 =? h1) && negb (h0 =? IPCMEM_APPS).

Definition close_partitions_of (core_id : Z) : IPC unit :=
  s <-- get;
  for_n (Z.to_nat (ip_partitions s)) 0 (fun p _ =>
    s <-- get;
    e <-- deref (zget (ip_entry s) p);
    if negb (pe_host0 e =? core_id) && negb (pe_host1 e =? core_id) then ret tt
    else ipclite_global_atomic_store_i32 p 0) tt.

Definition tell_others_of_ssr (core_id : Z) : IPC unit :=
  s <-- get;
  for_n (Z.to_nat (IPCMEM_NUM_HOSTS - 1)) 1 (fun host _ =>
    if negb (is_host_enabled (ip_enabled_hosts s) host) || (host =? core_id) then ret tt
    else ipclite_notify_core host IPCLITE_SSR_SIGNAL;;; ret tt) tt.

Definition ssr_lock : IPC unit :=
  s <-- get;
  if ip_ssr_mutex s then raise Deadlock else put (s <| ip_ssr_mutex := true |>).

Definition ssr_unlock : IPC unit := modifyM (fun s => s <| ip_ssr_mutex := false |>).

Definition reset_hw_mutex (core_id : Z) : IPC unit :=
  s <-- get;
  when core_id =? ip_hwlock_owner s do
    (modifyM (fun s => s <| ip_hwlock_owner := IPCMEM_INVALID_HOST |>);;; hwspin_unlock).

Definition reset_rings (core_id : Z) : IPC unit :=
  tx <-- tx_fifo_of core_id;
  desc_write (fi_part tx) (fi_head tx) 0;;;
  rx <-- rx_fifo_of core_id;
  desc_write (fi_part rx) (fi_tail rx) 0.

Definition reopen_channel (core_id : Z) : IPC unit :=
  c <-- the_channel core_id;
  p <-- deref (ch_gstatus_ptr c);
  ipclite_global_atomic_inc p;;;
  g <-- gstatus c;
  update_channel core_id (fun c => c <| ch_status := g |>).

Definition ipclite_recover_v0 (core_id : Z) : IPC unit :=
  reset_hw_mutex core_id;;;
  ssr_lock;;;
  close_partitions_of core_id;;;
  reset_rings core_id;;;
  reopen_channel core_id;;;
  tell_others_of_ssr core_id;;;
  ssr_unlock.

(** ** Setting up: partitions *)

Definition zero_entry : ipcmem_partition_entry := mk_entry 0 0 0 0 0.

(** Offset of the table of entries in the page of the table of contents ([setup_toc]):
    [host_info] at 0x100, then [global_entry] and [partition_info]. *)
Definition partition_entry_offset : Z := 256 + 8 + 24 + 8.

Definition TOC_ENTRIES : Z := (IPCMEM_TOC_SIZE - partition_entry_offset) / 24.

Abbreviation TOC := (M (list ipcmem_partition_entry)).

Definition put_entry (n : Z) (e : ipcmem_partition_entry) : TOC unit :=
  es <-- get; _ <-- deref (zget es n); put (zset n e es).

(** The two loops of [setup_partitions]; the result is [base_offset] and [num_entry]. *)
Definition fill_entries (enabled_hosts base_offset : Z) : TOC (Z * Z) :=
  for_n (Z.to_nat IPCMEM_NUM_HOSTS) 0 (fun host0 acc =>
    if negb (is_host_enabled enabled_hosts host0) then ret acc
    else
      for_n (Z.to_nat (IPCMEM_NUM_HOSTS - host0)) host0 (fun host1 '(base_offset, num_entry) =>
        if negb (is_host_enabled enabled_hosts host1) || is_loopback_except_apps host0 host1
        then ret (base_offset, num_entry)
        else
          put_entry num_entry
            (mk_entry base_offset DEFAULT_PARTITION_SIZE DEFAULT_PARTITION_FLAGS host0 host1);;;
          ret (u32 (base_offset + DEFAULT_PARTITION_SIZE), u32 (num_entry + 1))) acc) (base_offset, 0).

Definition on_toc {A} (m : TOC A) : IPC A :=
  s <-- get;
  match m (ip_entry s) with
  | Done a es => put (s <| ip_entry := es |>);;; ret a
  | Faulted f => raise f
  end.

(** A partition as [memset] leaves it. *)
Definition zero_partition : ipcmem_partition :=
  mk_partition (mk_header 0 0 0 0 0 0 0 0) (replicate (Z.to_nat (DEFAULT_DESCRIPTOR_SIZE / 4)) 0)
    (replicate (Z.to_nat DEFAULT_PARTITION_SIZE) 0).

Definition update_partition (p : Z) : IPC unit :=
  s <-- get;
  e <-- deref (zget (ip_entry s) p);
  pt <-- deref (zget (ip_partition s) p);
  set_partition p (pt <| pt_hdr := if pe_host0 e =? pe_host1 e then loopback_partition_hdr
                                   else default_partition_hdr |>).

(** [no_memory]: whether [kcalloc] fails. *)
Definition setup_partitions (no_memory : bool) (base_offset : Z) : IPC Z :=
  s <-- get;
  r <-- on_toc (fill_entries (ip_enabled_hosts s) base_offset);
  let num_entry := r.2 in
  if no_memory then ret (- ENOMEM)
  else
    modifyM (fun s => s <| ip_partition := replicate (Z.to_nat num_entry) zero_partition |>);;;
    for_n (Z.to_nat num_entry) 0 (fun p _ => update_partition p) tt;;;
    modifyM (fun s => s <| ip_partitions := num_entry |>);;;
    ret 0.

(** [pids]: [qcom,remote-pid] of the nodes of the device tree. *)
Definition enabled_hosts_of (pids : list Z) : Z :=
  fold_left (fun m pid => if pid <? IPCMEM_NUM_HOSTS then Z.lor m (BIT pid) else m) pids 0.

(** The global partition, [base_offset] from the start of the region. *)
Definition setup_global_partition (base_offset : Z) : IPC unit :=
  modifyM (fun s =>
    (s <| ip_global_entry := mk_entry base_offset GLOBAL_PARTITION_SIZE GLOBAL_PARTITION_FLAGS
                               IPCMEM_GLOBAL_HOST IPCMEM_GLOBAL_HOST |>) <| ip_global_hdr := global_partition_hdr |>).

Definition ipcmem_init (no_memory : bool) (pids : list Z) : IPC Z :=
  modifyM (fun s => s <| ip_enabled_hosts ::= fun m => Z.lor m (enabled_hosts_of pids) |>);;;
  modifyM (fun s => (s <| ip_hwlock_owner := IPCMEM_INVALID_HOST |>) <| ip_configured_host := ip_enabled_hosts s |>);;;
  setup_global_partition IPCMEM_TOC_SIZE;;;
  r <-- setup_partitions no_memory (IPCMEM_TOC_SIZE + GLOBAL_PARTITION_SIZE);
  if negb (r =? 0) then ret r
  else modifyM (fun s => s <| ip_init_done := IPCMEM_INIT_COMPLETED |>);;; ret 0.

(** The region the clients share: its offset from the start of the memory, and its size.
    [wanted]: whether the caller gave a place for them. *)
Definition get_global_partition_info_v0 (wanted : bool) : IPC (Z * option (Z * Z)) :=
  if negb wanted then ret (- EINVAL, None)
  else
    s <-- get;
    ret (0, Some (pe_base_offset (ip_global_entry s) + gh_region_offset (ip_global_hdr s),
                  gh_region_size (ip_global_hdr s))).

(** ** Setting up: channels *)

Definition get_ipcmem_partition_hdr (local_pid remote_pid : Z) : IPC (option Z) :=
  s <-- get;
  let mine p := match zget (ip_entry s) p with
                | Some e => (pe_host0 e =? local_pid) && (pe_host1 e =? remote_pid)
                | None => false
                end in
  let found := scan (Z.to_nat (ip_partitions s)) 0 mine in
  ret (if found <? ip_partitions s then Some found else None).

(** What the device tree and the kernel answer for one signal of a channel: the results
    of allocating and registering a device, [index], the errors of the mailbox and of
    requesting the interrupt. *)
Record irq_node := mk_irq_node {
  in_no_memory : bool; in_register : Z; in_index : Z + Z; in_mbox : Z; in_irq : Z }.

Record channel_node := mk_channel_node {
  cn_no_memory : bool; cn_register : Z; cn_remote_pid : Z + Z; cn_no_fifo : bool;
  cn_signals : list irq_node }.

Definition irq_set (pid index : Z) (g : ipclite_irq_info -> ipclite_irq_info) : IPC unit :=
  c <-- the_channel pid;
  irq <-- deref (zget (ch_irq_info c) index);
  update_channel pid (fun c => c <| ch_irq_info ::= zset index (g irq) |>).

Definition ipclite_channel_irq_init (pid : Z) (n : irq_node) : IPC Z :=
  if in_no_memory n then ret (- ENOMEM)
  else if negb (in_register n =? 0) then ret (in_register n)
  else
    match in_index n with
    | inr err => ret err
    | inl index =>
        irq_set pid index (fun irq => irq <| ir_mbox_chan := true |>);;;
        if negb (in_mbox n =? 0) then ret (in_mbox n)
        else irq_set pid index (fun irq => irq <| ir_signal_id := index |>);;; ret (in_irq n)
    end.

(** [for_each_available_child_of_node]: up to the first failure. *)
Fixpoint irqs_init (pid : Z) (ns : list irq_node) : IPC Z :=
  match ns with
  | [] => ret 0
  | n :: ns => r <-- ipclite_channel_irq_init pid n; if negb (r =? 0) then ret r else irqs_init pid ns
  end.

(** The rings of a partition as a processor sees them. *)
Definition channel_fifos (p local_pid remote_pid : Z) (h : ipcmem_partition_header) : ipclite_fifo * ipclite_fifo :=
  let tx := if local_pid <? remote_pid then mk_fifo p (ph_fifo0_size h) 0 1 (ph_fifo0_offset h)
            else mk_fifo p (ph_fifo1_size h) 2 3 (ph_fifo1_offset h) in
  let rx := if local_pid <? remote_pid then mk_fifo p (ph_fifo1_size h) 2 3 (ph_fifo1_offset h)
            else mk_fifo p (ph_fifo0_size h) 0 1 (ph_fifo0_offset h) in
  (tx, if ph_type h =? LOOPBACK_PARTITION_TYPE
       then mk_fifo p (fi_length rx) (fi_tail tx) (fi_head tx) (fi_fifo rx) else rx).

Definition set_gstatus (pid v : Z) : IPC unit :=
  c <-- the_channel pid;
  p <-- deref (ch_gstatus_ptr c);
  atomic_status p (fun _ => v);;; ret tt.

Definition channel_failed (pid r : Z) : IPC Z :=
  update_channel pid (fun c => c <| ch_status := INACTIVE |>);;; ret r.

Definition ipclite_channel_init (n : channel_node) : IPC Z :=
  if cn_no_memory n then ret (- ENOMEM)
  else if negb (cn_register n =? 0) then ret (cn_register n)
  else
    match cn_remote_pid n with
    | inr err => channel_failed 0 err
    | inl remote_pid =>
        if cn_no_fifo n then channel_failed remote_pid (- ENOMEM)
        else
          hdr <-- get_ipcmem_partition_hdr IPCMEM_APPS remote_pid;
          match hdr with
          | None => channel_failed remote_pid (- ENOMEM)
          | Some p =>
              s <-- get;
              pt <-- deref (zget (ip_partition s) p);
              let '(tx, rx) := channel_fifos p IPCMEM_APPS remote_pid (pt_hdr pt) in
              desc_write p (fi_tail rx) 0;;;
              desc_write p (fi_head tx) 0;;;
              update_channel remote_pid (fun c =>
                ((((c <| ch_remote_pid := remote_pid |>) <| ch_tx_fifo := Some tx |>)
                  <| ch_rx_fifo := Some rx |>) <| ch_gstatus_ptr := Some p |>) <| ch_tx_lock := false |>);;;
              r <-- irqs_init remote_pid (cn_signals n);
              if negb (r =? 0) then channel_failed remote_pid r
              else
                let status := if remote_pid =? IPCMEM_APPS then ACTIVE else IN_PROGRESS in
                set_gstatus remote_pid status;;;
                update_channel remote_pid (fun c => c <| ch_status := status |>);;;
                ret 0
          end
    end.

Definition EPROBE_DEFER : Z := 517.

(** The loop over the channels: only a deferred probe ends it. *)
Fixpoint channels_init (ns : list channel_node) (r : Z) : IPC Z :=
  match ns with
  | [] => ret r
  | n :: ns => r <-- ipclite_channel_init n; if r =? - EPROBE_DEFER then ret r else channels_init ns r
  end.

Definition zero_channel : ipclite_channel :=
  mk_channel 0 None None false (replicate (Z.to_nat MAX_CHANNEL_SIGNALS) (mk_irq false 0)) None INACTIVE.

(** [kzalloc] of the state and the cleared region. *)
Definition zero_info (e : ipc_env) : ipclite_info :=
  mk_info (replicate (Z.to_nat IPCMEM_NUM_HOSTS) zero_channel) 0 0 zero_entry (mk_global_header 0 0 0)
    (replicate (Z.to_nat TOC_ENTRIES) zero_entry) [] 0 0 0 false 0 false (mk_client None 0 0)
    (mk_client None 0 0) [] 0 e.

(** [ipclite_init_v0] from the cleared region to the broadcast on the loopback channel. *)
Definition ipclite_init_channels (no_memory : bool) (pids : list Z) (ns : list channel_node) : IPC Z :=
  r <-- ipcmem_init no_memory pids;
  if negb (r =? 0) then ret r
  else
    r <-- channels_init ns 0;
    if r =? - EPROBE_DEFER then ret r
    else
      c <-- the_channel IPCMEM_APPS;
      if ch_status c =? ACTIVE then
        r <-- mbox_send_message IPCMEM_APPS IPCLITE_MEM_INIT_SIGNAL;
        if r <? 0 then ret r else mbox_client_txdone IPCMEM_APPS IPCLITE_MEM_INIT_SIGNAL;;; ret r
      else ret r.
