(* ===== verification/IpcliteRing.v ===== *)
(** * The rings of ipclite are bounded queues

    Over the definitions of [Ipclite]: what the words and bytes of a ring mean
    ([ring_at]), what writing, reading and advancing do to it and leave alone
    ([only_ring]), then the channels: [ipc_ok s q] says which messages are under way in
    every channel, and each call moves [q] as a set of bounded queues moves. *)
From stdpp Require Import functions.
From S2P Require Import Prelude SynxGlobal Ipclite.
From Stdlib Require Import Lia.

(** ** Bytes *)

Lemma length_le_bytes n x : length (le_bytes n x) = n.
Proof. revert x. induction n as [|n IH]; intros x; [done|]. simpl. by rewrite IH. Qed.

Lemma le_val_bytes n x : 0 <= x < 2 ^ (8 * Z.of_nat n) -> le_val (le_bytes n x) = x.
Proof.
  revert x. induction n as [|n IH]; intros x Hx.
  - change (2 ^ (8 * Z.of_nat 0)) with 1 in Hx. simpl. lia.
  - replace (8 * Z.of_nat (S n)) with (8 + 8 * Z.of_nat n) in Hx by lia. rewrite Z.pow_add_r in Hx by lia.
    cbn [le_bytes le_val]. rewrite IH.
    + pose proof (Z.div_mod x (2 ^ 8)). lia.
    + split; [apply Z.div_pos; lia|]. apply Z.div_lt_upper_bound; lia.
Qed.

Lemma msg_bytes_val d : in_u64 d -> le_val (le_bytes 8 d) = d.
Proof. intros Hd. apply le_val_bytes. exact Hd. Qed.

Lemma bytes_at_Some mem off n l :
  bytes_at mem off n = Some l <->
  0 <= off /\ off + n <= zlen mem /\ l = take (Z.to_nat n) (drop (Z.to_nat off) mem).
Proof.
  unfold bytes_at. destruct (Z.leb_spec 0 off), (Z.leb_spec (off + n) (zlen mem)); simpl;
    (split; [intros Heq; try discriminate; injection Heq as <-; done|intros (? & ? & ->); first [done|lia]]).
Qed.

Lemma bytes_at_inserts mem off bs :
  0 <= off -> off + zlen bs <= zlen mem -> bytes_at (list_inserts (Z.to_nat off) bs mem) off (zlen bs) = Some bs.
Proof.
  unfold zlen. intros Ho Hn. apply bytes_at_Some. unfold zlen. rewrite length_inserts. repeat split; [lia..|].
  apply list_eq. intros i. rewrite Nat2Z.id. destruct (decide (i < length bs)%nat) as [Hi|Hi].
  - rewrite lookup_take_lt, lookup_drop, list_lookup_inserts by lia. f_equal. lia.
  - rewrite lookup_take_ge by lia. by apply lookup_ge_None_2; lia.
Qed.

Lemma bytes_at_inserts_ne mem off bs o n :
  0 <= off -> 0 <= n -> o + n <= off \/ off + zlen bs <= o ->
  bytes_at (list_inserts (Z.to_nat off) bs mem) o n = bytes_at mem o n.
Proof.
  unfold zlen. intros Ho Hn Hd. unfold bytes_at, zlen. rewrite length_inserts.
  destruct (Z.leb_spec 0 o), (Z.leb_spec (o + n) (Z.of_nat (length mem))); try done. simpl. f_equal.
  apply list_eq. intros i. destruct (decide (i < Z.to_nat n)%nat) as [Hi|Hi].
  - rewrite !lookup_take_lt, !lookup_drop by lia. destruct Hd.
    + apply list_lookup_inserts_lt. lia.
    + apply list_lookup_inserts_ge. lia.
  - by rewrite !lookup_take_ge by lia.
Qed.

(** ** The contents of a ring *)

(** Ring [f] in [pt]: a tail at [t] and the messages [l] from there on. *)
Record ring_at (pt : ipcmem_partition) (f : ipclite_fifo) (t : Z) (l : list Z) : Prop := mk_ring_at {
  ra_range : 0 <= fi_fifo f /\ fi_fifo f + fi_length f <= zlen (pt_mem pt);
  ra_length : fi_length f mod 8 = 0 /\ 16 <= fi_length f < 2 ^ 31;
  ra_ends : fi_tail f <> fi_head f;
  ra_tail : zget (pt_descs pt) (fi_tail f) = Some t;
  ra_start : t mod 8 = 0 /\ 0 <= t < fi_length f;
  ra_head : zget (pt_descs pt) (fi_head f) = Some ((t + 8 * zlen l) mod fi_length f);
  ra_fits : 8 * zlen l < fi_length f;
  ra_msgs k d : zget l k = Some d ->
    in_u64 d /\ bytes_at (pt_mem pt) (fi_fifo f + (t + 8 * k) mod fi_length f) 8 = Some (le_bytes 8 d) }.

Definition ring_is (s : ipclite_info) (f : ipclite_fifo) (l : list Z) : Prop :=
  exists pt t, zget (ip_partition s) (fi_part f) = Some pt /\ ring_at pt f t l.

(** How many messages fit: eight bytes always stay free. *)
Definition capacity (f : ipclite_fifo) : Z := fi_length f / 8 - 1.

(** Between [pt] and [pt'] only ring [f] and its two ends differ. *)
Record only_ring_of (f : ipclite_fifo) (pt pt' : ipcmem_partition) : Prop := mk_only {
  oo_hdr : pt_hdr pt' = pt_hdr pt;
  oo_len : zlen (pt_mem pt') = zlen (pt_mem pt);
  oo_descs i : i <> fi_tail f -> i <> fi_head f -> zget (pt_descs pt') i = zget (pt_descs pt) i;
  oo_mem o n : 0 <= n -> o + n <= fi_fifo f \/ fi_fifo f + fi_length f <= o ->
    bytes_at (pt_mem pt') o n = bytes_at (pt_mem pt) o n }.

Definition only_ring (f : ipclite_fifo) (s s' : ipclite_info) : Prop :=
  exists pt pt', zget (ip_partition s) (fi_part f) = Some pt /\
    s' = s <| ip_partition ::= zset (fi_part f) pt' |> /\ only_ring_of f pt pt'.

(** Two rings apart: in different partitions, or at different places of one. *)
Definition rings_apart (f g : ipclite_fifo) : Prop :=
  fi_part f <> fi_part g \/
  (fi_tail g <> fi_tail f /\ fi_tail g <> fi_head f /\ fi_head g <> fi_tail f /\ fi_head g <> fi_head f /\
   (fi_fifo g + fi_length g <= fi_fifo f \/ fi_fifo f + fi_length f <= fi_fifo g)).

(** Places of messages: eight bytes within the ring, disjoint for different messages. *)
Lemma slot_room x n :
  x mod 8 = 0 -> n mod 8 = 0 -> 0 < n -> 0 <= x mod n /\ x mod n + 8 <= n /\ (x mod n) mod 8 = 0.
Proof.
  intros Hx Hn Hp. pose proof (Z.mod_pos_bound x n Hp) as Hb.
  assert ((x mod n) mod 8 = 0) as Hm.
  { rewrite Z.mod_mod_divide; [done|]. by apply Z.mod_divide. }
  pose proof (Z.div_mod (x mod n) 8). pose proof (Z.div_mod n 8). lia.
Qed.

Lemma slots_differ t j k n :
  t mod 8 = 0 -> n mod 8 = 0 -> 0 < n -> j < k -> 8 * (k - j) < n ->
  (t + 8 * j) mod n + 8 <= (t + 8 * k) mod n \/ (t + 8 * k) mod n + 8 <= (t + 8 * j) mod n.
Proof.
  intros Ht Hn Hp Hjk Hd.
  assert (forall i, (t + 8 * i) mod 8 = 0) as Ha.
  { intros i. by rewrite Z.mul_comm, Z.mod_add by lia. }
  destruct (slot_room _ _ (Ha j) Hn Hp) as (? & ? & Hj). destruct (slot_room _ _ (Ha k) Hn Hp) as (? & ? & Hk).
  assert ((t + 8 * j) mod n <> (t + 8 * k) mod n) as Hne.
  { intros Heq. assert ((8 * (k - j)) mod n = 0) as Hz.
    { replace (8 * (k - j)) with ((t + 8 * k) - (t + 8 * j)) by lia.
      by rewrite Zminus_mod, Heq, Z.sub_diag, Z.mod_0_l by lia. }
    rewrite Z.mod_small in Hz; lia. }
  pose proof (Z.div_mod ((t + 8 * j) mod n) 8). pose proof (Z.div_mod ((t + 8 * k) mod n) 8). lia.
Qed.

Lemma aligned_add t k : t mod 8 = 0 -> (t + 8 * k) mod 8 = 0.
Proof. intros. by rewrite Z.mul_comm, Z.mod_add by lia. Qed.

Lemma aligned_clear x : 0 <= x < 2 ^ 31 -> x mod 8 = 0 -> ALIGN8 x = x.
Proof.
  intros Hx Hm. unfold ALIGN8, clear. change 7 with (Z.ones 3). rewrite Z.ldiff_ones_r, Z.shiftl_mul_pow2, Z.shiftr_div_pow2 by lia.
  change (2 ^ 3) with 8. change (Z.ones 3) with 7. pose proof (Z.div_mod x 8). 
  replace (x + 7) with (7 + (x / 8) * 8) by lia. rewrite Z.div_add by lia. change (7 / 8) with 0.
  rewrite u32_id; unfold in_u32; lia.
Qed.

(** ** What a step on one ring leaves alone *)

Lemma ring_apart_at f g pt pt' t l :
  only_ring_of f pt pt' -> ring_at pt g t l ->
  fi_tail g <> fi_tail f -> fi_tail g <> fi_head f -> fi_head g <> fi_tail f -> fi_head g <> fi_head f ->
  fi_fifo g + fi_length g <= fi_fifo f \/ fi_fifo f + fi_length f <= fi_fifo g -> ring_at pt' g t l.
Proof.
  intros [_ Hl Hd Hm] [? [Hn ?] ? ? [Ht ?] ? ? Hms] ? ? ? ? Hap. split; try done.
  - by rewrite Hl.
  - by rewrite Hd.
  - by rewrite Hd.
  - intros k d Hk. destruct (Hms k d Hk) as [? Hb]. split; [done|].
    destruct (slot_room (t + 8 * k) (fi_length g)) as (? & ? & _); [by apply aligned_add|done|lia|].
    rewrite Hm by lia. done.
Qed.

Lemma ring_apart_kept f g s s' l : only_ring f s s' -> rings_apart f g -> ring_is s g l -> ring_is s' g l.
Proof.
  intros (pt & pt' & Hpt & -> & Ho) Hap (ptg & t & Hg & Hr). unfold ring_is. simpl.
  destruct (decide (fi_part f = fi_part g)) as [Heq|Hne].
  - destruct Hap as [?|(? & ? & ? & ? & ?)]; [done|]. rewrite <- Heq in *.
    rewrite zget_zset_eq by (by eapply zget_Some). assert (ptg = pt) as -> by congruence.
    exists pt', t. split; [done|]. by eapply ring_apart_at.
  - rewrite zget_zset_ne by done. by exists ptg, t.
Qed.

(** ** The operations *)

Lemma wrap_once x n : 0 <= x < 2 * n -> x mod n = if x <? n then x else x - n.
Proof.
  intros Hx. destruct (Z.ltb_spec x n); [apply Z.mod_small; lia|].
  replace x with (x - n + 1 * n) at 1 by lia. rewrite Z.mod_add by lia. apply Z.mod_small. lia.
Qed.

Lemma desc_read_run s p i pt w :
  zget (ip_partition s) p = Some pt -> zget (pt_descs pt) i = Some w -> desc_read p i s = Done w s.
Proof. intros Hp Hi. unfold desc_read, bind, get. by rewrite Hp; simpl; rewrite Hi. Qed.

Lemma desc_write_run s p i v pt w :
  zget (ip_partition s) p = Some pt -> zget (pt_descs pt) i = Some w ->
  desc_write p i v s = Done tt (s <| ip_partition ::= zset p (pt <| pt_descs ::= zset i v |>) |>).
Proof. intros Hp Hi. unfold desc_write, bind, get. by rewrite Hp; simpl; rewrite Hi. Qed.

Section ring.
Context (f : ipclite_fifo) (pt : ipcmem_partition) (t : Z) (l : list Z).
Hypothesis ring : ring_at pt f t l.

Lemma tail_word s : zget (ip_partition s) (fi_part f) = Some pt -> desc_read (fi_part f) (fi_tail f) s = Done t s.
Proof. intros Hp. eapply desc_read_run; [exact Hp|apply ring]. Qed.

Lemma head_word s :
  zget (ip_partition s) (fi_part f) = Some pt ->
  desc_read (fi_part f) (fi_head f) s = Done ((t + 8 * zlen l) mod fi_length f) s.
Proof. intros Hp. eapply desc_read_run; [exact Hp|apply ring]. Qed.

Lemma head_place :
  (t + 8 * zlen l) mod fi_length f
  = if t + 8 * zlen l <? fi_length f then t + 8 * zlen l else t + 8 * zlen l - fi_length f.
Proof. destruct ring. pose proof (zlen_nonneg l). apply wrap_once. lia. Qed.

Lemma rx_avail_ring s : zget (ip_partition s) (fi_part f) = Some pt -> ipcmem_rx_avail f s = Done (8 * zlen l) s.
Proof.
  intros Hp. unfold ipcmem_rx_avail. rewrite (bind_run _ _ _ _ _ (head_word s Hp)), (bind_run _ _ _ _ _ (tail_word s Hp)).
  rewrite head_place. destruct ring as [_ [_ Hn] _ _ [_ Ht] _ Hl _]. pose proof (zlen_nonneg l).
  destruct (Z.ltb_spec (t + 8 * zlen l) (fi_length f)).
  - destruct (Z.ltb_spec (t + 8 * zlen l) t); [lia|].
    destruct (Z.ltb_spec (fi_length f) (t + 8 * zlen l - t)); [lia|]. unfold ret. f_equal. lia.
  - destruct (Z.ltb_spec (t + 8 * zlen l - fi_length f) t); [|lia].
    rewrite u32_id by (unfold in_u32; lia).
    destruct (Z.ltb_spec (fi_length f) (fi_length f - t + (t + 8 * zlen l - fi_length f))); [lia|].
    unfold ret. f_equal. lia.
Qed.

Lemma tx_avail_ring s :
  zget (ip_partition s) (fi_part f) = Some pt -> ipcmem_tx_avail f s = Done (fi_length f - 8 * zlen l - 8) s.
Proof.
  intros Hp. unfold ipcmem_tx_avail. rewrite (bind_run _ _ _ _ _ (head_word s Hp)), (bind_run _ _ _ _ _ (tail_word s Hp)).
  rewrite head_place. destruct ring as [_ [Hm Hn] _ _ [_ Ht] _ Hl _]. pose proof (zlen_nonneg l).
  pose proof (Z.div_mod (fi_length f) 8 ltac:(lia)). unfold FIFO_FULL_RESERVE.
  assert (forall a, a = fi_length f - 8 * zlen l ->
    @ret ipclite_info _ (if fi_length f <? (if a <? 8 then 0 else a - 8) then 0 else if a <? 8 then 0 else a - 8) s
    = Done (fi_length f - 8 * zlen l - 8) s) as Hend.
  { intros a ->. destruct (Z.ltb_spec (fi_length f - 8 * zlen l) 8); [lia|].
    destruct (Z.ltb_spec (fi_length f) (fi_length f - 8 * zlen l - 8)); [lia|done]. }
  destruct (Z.ltb_spec (t + 8 * zlen l) (fi_length f)).
  - destruct (Z.leb_spec t (t + 8 * zlen l)); [|lia]. rewrite u32_id by (unfold in_u32; lia). apply Hend. lia.
  - destruct (Z.leb_spec t (t + 8 * zlen l - fi_length f)); [lia|]. apply Hend. lia.
Qed.
End ring.

(** Reading the oldest message, then taking it. *)
Lemma rx_peak_ring f pt t d l s :
  ring_at pt f t (d :: l) -> zget (ip_partition s) (fi_part f) = Some pt ->
  ipcmem_rx_peak f 8 s = Done (Some (le_bytes 8 d)) s.
Proof.
  intros Hr Hp. unfold ipcmem_rx_peak. rewrite (bind_run _ _ _ _ _ (tail_word _ _ _ _ Hr s Hp)).
  destruct Hr as [_ [Hn ?] _ _ [Ht ?] _ _ Hms]. destruct (Hms 0 d) as [_ Hb]; [done|].
  replace (t + 8 * 0) with t in Hb by lia. rewrite Z.mod_small in Hb by lia.
  destruct (slot_room t (fi_length f)) as (_ & Hroom & _); [done|done|lia|]. rewrite Z.mod_small in Hroom by lia.
  destruct (Z.ltb_spec (fi_length f) t); [lia|]. destruct (Z.leb_spec (fi_length f) t); [lia|].
  rewrite Z.min_l by lia. change (8 =? 0) with false. change (8 =? 8) with true.
  unfold memcpy_fromio, bind, get, ret, deref. simpl. rewrite Hp. simpl. rewrite Hb. done.
Qed.

Lemma ring_pop pt f t d l :
  ring_at pt f t (d :: l) ->
  ring_at (pt <| pt_descs ::= zset (fi_tail f) ((t + 8) mod fi_length f) |>) f ((t + 8) mod fi_length f) l.
Proof.
  intros [Hran [Hn ?] He Htl [Ht ?] Hh Hf Hms]. change (d :: l) with ([d] ++ l) in Hh, Hf.
  rewrite zlen_app in Hh, Hf. change (zlen [d]) with 1 in Hh, Hf. pose proof (zlen_nonneg l).
  destruct (slot_room (t + 8) (fi_length f)) as (? & ? & Ha);
    [change (t + 8) with (t + 8 * 1); by apply aligned_add|done|lia|].
  split; simpl; try done.
  - apply zget_zset_eq. by eapply zget_Some.
  - split; [done|lia].
  - rewrite zget_zset_ne by done. rewrite Hh. f_equal. rewrite Z.add_mod_idemp_l by lia. f_equal. lia.
  - lia.
  - intros k x Hk. pose proof (zget_Some _ _ _ Hk) as Hr. destruct (Hms (k + 1) x) as [? Hb]; [by rewrite zget_cons by lia|].
    split; [done|]. rewrite Z.add_mod_idemp_l by lia. replace (t + 8 + 8 * k) with (t + 8 * (k + 1)) by lia. done.
Qed.

Lemma only_tail pt f v : fi_tail f <> fi_head f -> only_ring_of f pt (pt <| pt_descs ::= zset (fi_tail f) v |>).
Proof. intros He. split; simpl; try done. intros i ? ?. by rewrite zget_zset_ne. Qed.

Lemma rx_advance_ring f pt t d l s :
  ring_at pt f t (d :: l) -> zget (ip_partition s) (fi_part f) = Some pt ->
  exists s', ipcmem_rx_advance f 8 s = Done tt s' /\ only_ring f s s' /\ ring_is s' f l.
Proof.
  intros Hr Hp. set (v := (t + 8) mod fi_length f). set (pt' := pt <| pt_descs ::= zset (fi_tail f) v |>).
  exists (s <| ip_partition ::= zset (fi_part f) pt' |>). repeat split.
  - unfold ipcmem_rx_advance. rewrite (bind_run _ _ _ _ _ (tail_word _ _ _ _ Hr s Hp)). cbv zeta.
    assert ((if fi_length f <=? u32 (t + 8)
             then if fi_length f =? 0 then raise Undefined else ret (u32 (t + 8) mod fi_length f)
             else ret (u32 (t + 8))) s = Done v s) as Hv.
    { destruct Hr as [_ [_ ?] _ _ [_ ?] _ _ _]. rewrite u32_id by (unfold in_u32; lia). unfold v.
      destruct (Z.leb_spec (fi_length f) (t + 8)); [|by rewrite Z.mod_small by lia].
      by destruct (Z.eqb_spec (fi_length f) 0); [lia|]. }
    rewrite (bind_run _ _ _ _ _ Hv). eapply desc_write_run; [exact Hp|apply Hr].
  - exists pt, pt'. split; [done|]. split; [done|]. apply only_tail, Hr.
  - exists pt', v. split; [apply zget_zset_eq; by eapply zget_Some|]. by eapply ring_pop.
Qed.

#[local] Arguments le_bytes : simpl never.
#[local] Arguments list_inserts : simpl never.

(** Writing a message at the head. *)
Definition pushed (pt : ipcmem_partition) (f : ipclite_fifo) (h d : Z) : ipcmem_partition :=
  (pt <| pt_mem ::= list_inserts (Z.to_nat (fi_fifo f + h)) (le_bytes 8 d) |>)
    <| pt_descs ::= zset (fi_head f) ((h + 8) mod fi_length f) |>.

Lemma zlen_inserts off bs mem : zlen (list_inserts off bs mem : list Z) = zlen mem.
Proof. unfold zlen. by rewrite length_inserts. Qed.

Lemma zlen_msg d : zlen (le_bytes 8 d) = 8.
Proof. unfold zlen. by rewrite length_le_bytes. Qed.

Lemma ring_push pt f t l d :
  ring_at pt f t l -> in_u64 d -> zlen l < capacity f ->
  ring_at (pushed pt f ((t + 8 * zlen l) mod fi_length f) d) f t (l ++ [d]).
Proof.
  intros [[Hf0 Hf1] [Hn ?] He Htl [Ht ?] Hh Hf Hms] Hd Hc. unfold capacity in Hc. pose proof (zlen_nonneg l).
  pose proof (Z.div_mod (fi_length f) 8 ltac:(lia)). set (h := (t + 8 * zlen l) mod fi_length f).
  destruct (slot_room (t + 8 * zlen l) (fi_length f)) as (? & ? & _); [by apply aligned_add|done|lia|].
  unfold pushed. split; simpl; try done.
  - by rewrite zlen_inserts.
  - by rewrite zget_zset_ne.
  - rewrite zget_zset_eq by (by eapply zget_Some). f_equal. unfold h. rewrite Z.add_mod_idemp_l by lia.
    rewrite zlen_app. change (zlen [d]) with 1. f_equal. lia.
  - rewrite zlen_app. change (zlen [d]) with 1. lia.
  - intros k x Hk. destruct (zget_snoc _ _ _ _ Hk) as [[Hlt Hx]|[-> ->]].
    + destruct (Hms k x Hx) as [? Hb]. split; [done|]. pose proof (zget_Some _ _ _ Hx).
      destruct (slot_room (t + 8 * k) (fi_length f)) as (? & ? & _); [by apply aligned_add|done|lia|].
      destruct (slots_differ t k (zlen l) (fi_length f)); [done|done|lia|lia|lia|..];
        (rewrite bytes_at_inserts_ne; [done|unfold h; lia|lia|]);
        rewrite zlen_msg; unfold h; lia.
    + split; [done|]. pose proof (bytes_at_inserts (pt_mem pt) (fi_fifo f + h) (le_bytes 8 d)) as Hb.
      rewrite zlen_msg in Hb. apply Hb; unfold h; lia.
Qed.

Lemma only_pushed pt f t l d :
  ring_at pt f t l -> zlen l < capacity f -> only_ring_of f pt (pushed pt f ((t + 8 * zlen l) mod fi_length f) d).
Proof.
  intros [[Hf0 Hf1] [Hn ?] He Htl [Ht ?] Hh Hf Hms] Hc.
  destruct (slot_room (t + 8 * zlen l) (fi_length f)) as (? & ? & _); [by apply aligned_add|done|lia|].
  unfold pushed. split; simpl; try done.
  - by rewrite zlen_inserts.
  - intros i ? ?. by rewrite zget_zset_ne.
  - intros o n ? Hap. apply bytes_at_inserts_ne; [lia|lia|]. rewrite zlen_msg. lia.
Qed.

Lemma write_one_ring pt f t l d s :
  ring_at pt f t l -> zget (ip_partition s) (fi_part f) = Some pt ->
  let h := (t + 8 * zlen l) mod fi_length f in
  ipcmem_tx_write_one f h (le_bytes 8 d) 8 s
  = Done (if fi_length f <=? h + 8 then h + 8 - fi_length f else h + 8)
      (s <| ip_partition ::= zset (fi_part f)
              (pt <| pt_mem ::= list_inserts (Z.to_nat (fi_fifo f + h)) (le_bytes 8 d) |>) |>).
Proof.
  intros [[Hf0 Hf1] [Hn ?] He Htl [Ht ?] Hh Hf Hms] Hp h.
  destruct (slot_room (t + 8 * zlen l) (fi_length f)) as (? & ? & _); [by apply aligned_add|done|lia|].
  fold h in H1, H2. unfold ipcmem_tx_write_one. destruct (Z.ltb_spec (fi_length f) h); [lia|].
  rewrite Z.min_l by lia. change (8 =? 0) with false. change (8 =? 8) with true. cbn [negb].
  rewrite take_ge by (rewrite length_le_bytes; lia).
  assert (is_Some (bytes_at (pt_mem pt) (fi_fifo f + h) (zlen (le_bytes 8 d)))) as [bs Hbs].
  { unfold bytes_at. rewrite zlen_msg. destruct (Z.leb_spec 0 (fi_fifo f + h)); [|lia].
    destruct (Z.leb_spec (fi_fifo f + h + 8) (zlen (pt_mem pt))); [|lia]. by eexists. }
  unfold memcpy_toio, set_partition, bind, get, modifyM, deref, ret. simpl. rewrite Hp. simpl. rewrite Hbs.
  rewrite u32_id by (unfold in_u32; lia). done.
Qed.

Lemma tx_write_ring pt f t l d s :
  ring_at pt f t l -> zget (ip_partition s) (fi_part f) = Some pt -> in_u64 d -> zlen l < capacity f ->
  exists s', ipcmem_tx_write f (le_bytes 8 d) 8 s = Done tt s' /\ only_ring f s s' /\ ring_is s' f (l ++ [d]).
Proof.
  intros Hr Hp Hd Hc. set (h := (t + 8 * zlen l) mod fi_length f). set (pt' := pushed pt f h d).
  exists (s <| ip_partition ::= zset (fi_part f) pt' |>). split; [|split].
  - unfold ipcmem_tx_write. rewrite (bind_run _ _ _ _ _ (head_word _ _ _ _ Hr s Hp)).
    rewrite (bind_run _ _ _ _ _ (write_one_ring _ _ _ _ d _ Hr Hp)). cbv zeta. fold h.
    assert (0 <= h /\ h + 8 <= fi_length f /\ h mod 8 = 0) as (? & ? & Ha).
    { destruct Hr as [_ [Hn ?] _ _ [Ht ?] _ _ _]. apply slot_room; [by apply aligned_add|done|lia]. }
    destruct Hr as [_ [Hn ?] _ Htl _ Hh _ _].
    replace (if fi_length f <=? h + 8 then h + 8 - fi_length f else h + 8) with ((h + 8) mod fi_length f)
      by (rewrite wrap_once by lia; destruct (Z.ltb_spec (h + 8) (fi_length f)), (Z.leb_spec (fi_length f) (h + 8)); lia).
    destruct (slot_room (h + 8) (fi_length f)) as (? & ? & ?); [change (h + 8) with (h + 8 * 1); by apply aligned_add|done|lia|].
    rewrite aligned_clear by lia. destruct (Z.leb_spec (fi_length f) ((h + 8) mod fi_length f)); [lia|].
    erewrite desc_write_run; [|simpl; apply zget_zset_eq; by eapply zget_Some|simpl; exact Hh].
    simpl. f_equal. destruct s; simpl. f_equal. by rewrite zset_zset.
  - exists pt, pt'. split; [done|]. split; [done|]. by apply only_pushed.
  - exists pt', t. split; [apply zget_zset_eq; by eapply zget_Some|]. by apply ring_push.
Qed.

(** ** Channels as queues *)

(** What a channel holds: the messages on their way out and in, and whether it may be used. *)
Record link := mk_link { lk_out : list Z; lk_in : list Z; lk_open : bool }.

Definition CAPACITY : Z := 1023.

(** The rings of a channel; the loopback channel has one. *)
Definition wiring (p pid : Z) (tx rx : ipclite_fifo) : Prop :=
  fi_part tx = p /\ fi_part rx = p /\ fi_length tx = DEFAULT_FIFO0_SIZE /\ fi_length rx = DEFAULT_FIFO0_SIZE /\
  if pid =? IPCMEM_APPS then tx = rx else rings_apart tx rx.

(** Every signal has its mailbox and knows its number. *)
Definition irqs_ok (irqs : list ipclite_irq_info) : Prop :=
  irqs = map (mk_irq true) [0; 1; 2; 3; 4; 5].

(** Channel [pid], with partition [p], is [c] and holds [k]. *)
Record at_link (s : ipclite_info) (p pid : Z) (c : ipclite_channel) (k : link) : Prop := mk_at_link {
  al_channel : zget (ip_channel s) pid = Some c;
  al_remote : ch_remote_pid c = pid;
  al_ptr : ch_gstatus_ptr c = Some p;
  al_irqs : irqs_ok (ch_irq_info c);
  al_rings : exists tx rx, ch_tx_fifo c = Some tx /\ ch_rx_fifo c = Some rx /\ wiring p pid tx rx /\
               ring_is s tx (lk_out k) /\ ring_is s rx (lk_in k);
  al_loop : pid = IPCMEM_APPS -> lk_out k = lk_in k;
  al_status : ch_status c = ACTIVE \/ ch_status c = IN_PROGRESS;
  al_open : exists pt, zget (ip_partition s) p = Some pt /\
              lk_open k = (ch_status c =? ACTIVE) || (ph_status (pt_hdr pt) =? ACTIVE) }.

(** What only initialisation and recovery change. *)
Definition rest (s : ipclite_info) : list ipcmem_partition_entry * Z * Z * bool * Z * bool :=
  (ip_entry s, ip_partitions s, ip_enabled_hosts s, ip_hwlock s, ip_hwlock_owner s, ip_ssr_mutex s).

(** From [s] to [s'] nothing changed but channel [pid] and partition [p], and [evs] were
    sent. *)
Record moves (p pid : Z) (evs : list ipc_event) (s s' : ipclite_info) : Prop := mk_moves {
  mv_channel j : j <> pid -> zget (ip_channel s') j = zget (ip_channel s) j;
  mv_channels : zlen (ip_channel s') = zlen (ip_channel s);
  mv_partition j : j <> p -> zget (ip_partition s') j = zget (ip_partition s) j;
  mv_client : ip_synx_client s' = ip_synx_client s;
  mv_rest : rest s' = rest s;
  mv_events : ip_events s' = ip_events s ++ evs }.

Lemma moves_refl p pid s : moves p pid [] s s.
Proof. split; try done. by rewrite app_nil_r. Qed.

Lemma moves_trans p pid e1 e2 s1 s2 s3 :
  moves p pid e1 s1 s2 -> moves p pid e2 s2 s3 -> moves p pid (e1 ++ e2) s1 s3.
Proof.
  intros [H1 H2 H3 H4 H6 H5] [I1 I2 I3 I4 I6 I5]. split; [..|by rewrite I5, H5, app_assoc]; intros; try congruence.
  - by rewrite I1, H1.
  - by rewrite I3, H3.
Qed.

Lemma moves_ring p pid f s s' : fi_part f = p -> only_ring f s s' -> moves p pid [] s s'.
Proof.
  intros <- (pt & pt' & Hp & -> & _). split; simpl; try done.
  - intros j Hj. by rewrite zget_zset_ne.
  - by rewrite app_nil_r.
Qed.

Lemma ring_is_same s s' f l : ip_partition s' = ip_partition s -> ring_is s f l -> ring_is s' f l.
Proof. unfold ring_is. by intros ->. Qed.

(** A change of the channel's own structure that keeps rings and mailboxes. *)
Lemma at_link_channel s p pid c c' k :
  at_link s p pid c k -> ch_remote_pid c' = ch_remote_pid c -> ch_gstatus_ptr c' = ch_gstatus_ptr c ->
  ch_irq_info c' = ch_irq_info c -> ch_tx_fifo c' = ch_tx_fifo c -> ch_rx_fifo c' = ch_rx_fifo c ->
  (ch_status c' = ch_status c \/ ch_status c' = ACTIVE /\ lk_open k = true) ->
  at_link (s <| ip_channel ::= zset pid c' |>) p pid c' k /\ moves p pid [] s (s <| ip_channel ::= zset pid c' |>).
Proof.
  intros [Hc Hr Hp Hi Hf Hl Hs Ho] E1 E2 E3 E4 E5 E6. split.
  - split; simpl; rewrite ?E1, ?E2, ?E3, ?E4, ?E5; try done.
    + apply zget_zset_eq. by eapply zget_Some.
    + destruct E6 as [->|[-> _]]; auto.
    + destruct Ho as (pt & Hpt & Ho). exists pt. split; [done|]. destruct E6 as [->|[-> ->]]; done.
  - split; simpl; try done.
    + intros j Hj. by rewrite zget_zset_ne.
    + apply zlen_zset.
    + by rewrite app_nil_r.
Qed.

Lemma the_channel_run s pid c : zget (ip_channel s) pid = Some c -> the_channel pid s = Done c s.
Proof. intros Hc. unfold the_channel, bind, get. by rewrite Hc. Qed.

Lemma update_channel_run s pid c g :
  zget (ip_channel s) pid = Some c -> update_channel pid g s = Done tt (s <| ip_channel ::= zset pid (g c) |>).
Proof. intros Hc. unfold update_channel. by rewrite (bind_run _ _ _ _ _ (the_channel_run _ _ _ Hc)). Qed.

(** The result of one step on a channel. *)
Definition link_step {A} (m : IPC A) (s : ipclite_info) (p pid : Z) (x : A) (c' : ipclite_channel) (k' : link)
    (evs : list ipc_event) : Prop :=
  exists s', m s = Done x s' /\ at_link s' p pid c' k' /\ moves p pid evs s s'.

Lemma link_bind {A B} (m : IPC A) (n : A -> IPC B) s p pid x c1 k1 e1 y c2 k2 e2 :
  link_step m s p pid x c1 k1 e1 ->
  (forall s1, at_link s1 p pid c1 k1 -> moves p pid e1 s s1 -> link_step (n x) s1 p pid y c2 k2 e2) ->
  link_step (bind m n) s p pid y c2 k2 (e1 ++ e2).
Proof.
  intros (s1 & E1 & H1 & M1) Hn. destruct (Hn s1 H1 M1) as (s2 & E2 & H2 & M2). exists s2.
  split; [by rewrite (bind_run _ _ _ _ _ E1)|]. split; [done|]. by eapply moves_trans.
Qed.

(** A step that sends nothing. *)
Lemma link_then {A B} (m : IPC A) (n : A -> IPC B) s p pid x c1 k1 y c2 k2 e2 :
  link_step m s p pid x c1 k1 [] ->
  (forall s1, at_link s1 p pid c1 k1 -> moves p pid [] s s1 -> link_step (n x) s1 p pid y c2 k2 e2) ->
  link_step (bind m n) s p pid y c2 k2 e2.
Proof. apply (link_bind m n s p pid x c1 k1 [] y c2 k2 e2). Qed.

Lemma link_ret {A} s p pid (x : A) c k : at_link s p pid c k -> link_step (ret x) s p pid x c k [].
Proof. intros H. exists s. split; [done|]. split; [done|]. apply moves_refl. Qed.

(** A step that reads. *)
Lemma link_read {A} (m : IPC A) s p pid x c k :
  at_link s p pid c k -> m s = Done x s -> link_step m s p pid x c k [].
Proof. intros H E. exists s. split; [done|]. split; [done|]. apply moves_refl. Qed.

(** Moving one of the queues: on the loopback channel they are one. *)
Definition set_out (pid : Z) (l : list Z) (k : link) : link :=
  mk_link l (if pid =? IPCMEM_APPS then l else lk_in k) (lk_open k).

Definition set_in (pid : Z) (l : list Z) (k : link) : link :=
  mk_link (if pid =? IPCMEM_APPS then l else lk_out k) l (lk_open k).

Lemma rings_apart_sym f g : rings_apart f g -> rings_apart g f.
Proof. unfold rings_apart. intros [?|(? & ? & ? & ? & ?)]; [left; congruence|right]. repeat split; auto. tauto. Qed.

Lemma only_ring_status f s s' p pt :
  only_ring f s s' -> zget (ip_partition s) p = Some pt ->
  exists pt', zget (ip_partition s') p = Some pt' /\ pt_hdr pt' = pt_hdr pt.
Proof.
  intros (qt & qt' & Hq & -> & Ho) Hp. simpl. rewrite zget_zset. case_decide as Hd; [|by exists pt].
  destruct Hd as [<- _]. exists qt'. split; [done|]. rewrite (oo_hdr _ _ _ Ho). by simplify_eq.
Qed.

Lemma only_ring_channel f s s' : only_ring f s s' -> ip_channel s' = ip_channel s.
Proof. by intros (? & ? & _ & -> & _). Qed.

Lemma at_link_out s s' p pid c k tx l :
  at_link s p pid c k -> ch_tx_fifo c = Some tx -> only_ring tx s s' -> ring_is s' tx l ->
  at_link s' p pid c (set_out pid l k) /\ moves p pid [] s s'.
Proof.
  intros [Hc Hr Hp Hi (tx' & rx & Htx & Hrx & Hw & Ho & Hn) Hl Hs Hopen] Htx' Honly Hring.
  assert (tx' = tx) as -> by congruence. pose proof Hw as (Hptx & Hprx & _ & _ & Hsame).
  split; [|exact (moves_ring p pid tx s s' Hptx Honly)]. split; simpl; try done.
  - by rewrite (only_ring_channel _ _ _ Honly).
  - exists tx, rx. do 4 (split; [done|]). simpl. destruct (pid =? IPCMEM_APPS); [by rewrite <- Hsame|].
    by eapply ring_apart_kept.
  - by intros ->.
  - destruct Hopen as (pt & Hpt & Hopen). destruct (only_ring_status _ _ _ _ _ Honly Hpt) as (pt' & Hpt' & Eh).
    exists pt'. split; [done|]. by rewrite Eh.
Qed.

Lemma at_link_in s s' p pid c k rx l :
  at_link s p pid c k -> ch_rx_fifo c = Some rx -> only_ring rx s s' -> ring_is s' rx l ->
  at_link s' p pid c (set_in pid l k) /\ moves p pid [] s s'.
Proof.
  intros [Hc Hr Hp Hi (tx & rx' & Htx & Hrx & Hw & Ho & Hn) Hl Hs Hopen] Hrx' Honly Hring.
  assert (rx' = rx) as -> by congruence. pose proof Hw as (Hptx & Hprx & _ & _ & Hsame).
  split; [|exact (moves_ring p pid rx s s' Hprx Honly)]. split; simpl; try done.
  - by rewrite (only_ring_channel _ _ _ Honly).
  - exists tx, rx. do 3 (split; [done|]). split; [|done]. simpl. destruct (pid =? IPCMEM_APPS); [by rewrite Hsame|].
    eapply ring_apart_kept; [exact Honly|by apply rings_apart_sym|done].
  - by intros ->.
  - destruct Hopen as (pt & Hpt & Hopen). destruct (only_ring_status _ _ _ _ _ Honly Hpt) as (pt' & Hpt' & Eh).
    exists pt'. split; [done|]. by rewrite Eh.
Qed.

(** The two rings of a channel, as the operations find them. *)
Section link.
Context (s : ipclite_info) (p pid : Z) (c : ipclite_channel) (k : link).
Hypothesis link_here : at_link s p pid c k.

Lemma tx_ring : exists tx pt t,
  ch_tx_fifo c = Some tx /\ tx_fifo_of pid s = Done tx s /\ zget (ip_partition s) (fi_part tx) = Some pt /\
  ring_at pt tx t (lk_out k) /\ capacity tx = CAPACITY /\ fi_length tx = DEFAULT_FIFO0_SIZE.
Proof.
  destruct link_here as [Hc _ _ _ (tx & rx & Htx & _ & (_ & _ & Hl & _ & _) & (pt & t & Hp & Hr) & _) _ _ _].
  exists tx, pt, t. split; [done|]. split; [|split; [done|split; [done|split; [|done]]]].
  - unfold tx_fifo_of. rewrite (bind_run _ _ _ _ _ (the_channel_run _ _ _ Hc)). by rewrite Htx.
  - unfold capacity. by rewrite Hl.
Qed.

Lemma rx_ring : exists rx pt t,
  ch_rx_fifo c = Some rx /\ rx_fifo_of pid s = Done rx s /\ zget (ip_partition s) (fi_part rx) = Some pt /\
  ring_at pt rx t (lk_in k) /\ capacity rx = CAPACITY /\ fi_length rx = DEFAULT_FIFO0_SIZE.
Proof.
  destruct link_here as [Hc _ _ _ (tx & rx & _ & Hrx & (_ & _ & _ & Hl & _) & _ & (pt & t & Hp & Hr)) _ _ _].
  exists rx, pt, t. split; [done|]. split; [|split; [done|split; [done|split; [|done]]]].
  - unfold rx_fifo_of. rewrite (bind_run _ _ _ _ _ (the_channel_run _ _ _ Hc)). by rewrite Hrx.
  - unfold capacity. by rewrite Hl.
Qed.

Lemma link_tx_avail : ipclite_tx_avail pid s = Done (8 * (CAPACITY - zlen (lk_out k))) s.
Proof.
  destruct tx_ring as (tx & pt & t & _ & E & Hp & Hr & _ & Hl). unfold ipclite_tx_avail.
  rewrite (bind_run _ _ _ _ _ E), (tx_avail_ring _ _ _ _ Hr s Hp), Hl. f_equal. unfold DEFAULT_FIFO0_SIZE, CAPACITY. lia.
Qed.

Lemma link_rx_avail : ipclite_rx_avail pid s = Done (8 * zlen (lk_in k)) s.
Proof.
  destruct rx_ring as (rx & pt & t & _ & E & Hp & Hr & _). unfold ipclite_rx_avail.
  by rewrite (bind_run _ _ _ _ _ E), (rx_avail_ring _ _ _ _ Hr s Hp).
Qed.

Lemma link_tx_write d :
  in_u64 d -> zlen (lk_out k) < CAPACITY ->
  link_step (ipclite_tx_write pid (le_bytes 8 d) 8) s p pid tt c (set_out pid (lk_out k ++ [d]) k) [].
Proof.
  intros Hd Hn. destruct tx_ring as (tx & pt & t & Htx & E & Hp & Hr & Hc & _).
  destruct (tx_write_ring pt tx t _ d s Hr Hp Hd) as (s' & E' & Ho & Hr'); [by rewrite Hc|].
  exists s'. split; [unfold ipclite_tx_write; by rewrite (bind_run _ _ _ _ _ E)|]. by eapply at_link_out.
Qed.

Lemma link_rx_peak d l : lk_in k = d :: l -> ipclite_rx_peak pid 8 s = Done (Some (le_bytes 8 d)) s.
Proof.
  intros Hk. destruct rx_ring as (rx & pt & t & Hrx & E & Hp & Hr & _). rewrite Hk in Hr.
  unfold ipclite_rx_peak. rewrite (bind_run _ _ _ _ _ E). by eapply rx_peak_ring.
Qed.

Lemma link_rx_advance d l :
  lk_in k = d :: l -> link_step (ipclite_rx_advance pid 8) s p pid tt c (set_in pid l k) [].
Proof.
  intros Hk. destruct rx_ring as (rx & pt & t & Hrx & E & Hp & Hr & _). rewrite Hk in Hr.
  destruct (rx_advance_ring rx pt t d l s Hr Hp) as (s' & E' & Ho & Hr').
  exists s'. split; [unfold ipclite_rx_advance; by rewrite (bind_run _ _ _ _ _ E)|]. by eapply at_link_in.
Qed.

Lemma in_word d l : lk_in k = d :: l -> in_u64 d.
Proof.
  intros Hk. destruct rx_ring as (rx & pt & t & _ & _ & _ & Hr & _). rewrite Hk in Hr. by apply (ra_msgs _ _ _ _ Hr 0).
Qed.

Lemma out_word d l : lk_out k = d :: l -> in_u64 d.
Proof.
  intros Hk. destruct tx_ring as (tx & pt & t & _ & _ & _ & Hr & _). rewrite Hk in Hr. by apply (ra_msgs _ _ _ _ Hr 0).
Qed.

Lemma in_fits : 8 * zlen (lk_in k) < DEFAULT_FIFO0_SIZE.
Proof. destruct rx_ring as (rx & pt & t & _ & _ & _ & Hr & _ & Hl). rewrite <- Hl. apply Hr. Qed.
End link.

(** ** Sending and receiving *)

(** What the client is told of the messages [l] from [pid]. *)
Definition deliveries (cl : ipclite_client) (pid : Z) (l : list Z) : list ipc_event :=
  match cl_callback cl with
  | Some f => if cl_reg_complete cl =? 1 then map (fun d => Client_callback f pid (i64 d) (cl_priv_data cl)) l else []
  | None => []
  end.

Lemma at_link_same s s' p pid c k :
  ip_channel s' = ip_channel s -> ip_partition s' = ip_partition s -> at_link s p pid c k -> at_link s' p pid c k.
Proof.
  intros E1 E2 [Hc Hr Hp Hi Hf Hl Hs Ho]. split; rewrite ?E1, ?E2; try done.
  destruct Hf as (tx & rx & ? & ? & ? & ? & ?). exists tx, rx. do 3 (split; [done|]). split; by eapply ring_is_same.
Qed.

Lemma link_emit s p pid c k e : at_link s p pid c k -> link_step (ipc_emit e) s p pid tt c k [e].
Proof. intros H. eexists. split; [done|]. split; [eapply at_link_same; [| |exact H]; done|]. by split. Qed.

Lemma link_update s p pid c c' g k :
  at_link s p pid c k -> g c = c' -> ch_remote_pid c' = ch_remote_pid c -> ch_gstatus_ptr c' = ch_gstatus_ptr c ->
  ch_irq_info c' = ch_irq_info c -> ch_tx_fifo c' = ch_tx_fifo c -> ch_rx_fifo c' = ch_rx_fifo c ->
  (ch_status c' = ch_status c \/ ch_status c' = ACTIVE /\ lk_open k = true) ->
  link_step (update_channel pid g) s p pid tt c' k [].
Proof.
  intros H <- E1 E2 E3 E4 E5 E6. exists (s <| ip_channel ::= zset pid (g c) |>).
  split; [by apply update_channel_run; destruct H|]. by eapply at_link_channel.
Qed.

Lemma link_active s p pid c k :
  at_link s p pid c k ->
  exists c', link_step (channel_active pid) s p pid (lk_open k) c' k [] /\ ch_tx_lock c' = ch_tx_lock c /\
             ch_gstatus_ptr c' = ch_gstatus_ptr c.
Proof.
  intros H. pose proof H as [Hc _ Hp _ _ _ Hs (pt & Hpt & Ho)].
  assert (gstatus c s = Done (ph_status (pt_hdr pt)) s) as Hg by (unfold gstatus, bind, get; rewrite Hp; simpl; by rewrite Hpt).
  destruct (ch_status c =? ACTIVE) eqn:Ea.
  { exists c. split; [|done]. unfold channel_active. eapply link_then; [eapply link_read; [exact H|by apply the_channel_run]|].
    intros s1 H1 _. rewrite Ea, Ho. simpl. by apply link_ret. }
  apply Z.eqb_neq in Ea as Ea'. destruct Hs as [?|Hs]; [done|].
  destruct (ph_status (pt_hdr pt) =? ACTIVE) eqn:Eg; [exists (c <| ch_status := ACTIVE |>)|exists c];
    (split; [|done]); exists (if ph_status (pt_hdr pt) =? ACTIVE then s <| ip_channel ::= zset pid (c <| ch_status := ACTIVE |>) |> else s);
    (split; [unfold channel_active; rewrite (bind_run _ _ _ _ _ (the_channel_run _ _ _ Hc)), Ea, Hs;
       change (IN_PROGRESS =? IN_PROGRESS) with true; cbv iota; rewrite (bind_run _ _ _ _ _ Hg), Eg, Ho, ?Eg|]).
  - by rewrite (bind_run _ _ _ _ _ (update_channel_run _ _ _ _ Hc)).
  - rewrite Eg. eapply at_link_channel; try done. right. split; [done|]. rewrite Ho. by apply orb_true_r.
  - by rewrite orb_false_r.
  - rewrite Eg. split; [done|apply moves_refl].
Qed.

Lemma link_irq s p pid c k i :
  at_link s p pid c k -> 0 <= i < MAX_CHANNEL_SIGNALS -> zget (ch_irq_info c) i = Some (mk_irq true i).
Proof.
  intros H Hi. rewrite (al_irqs _ _ _ _ _ H). unfold MAX_CHANNEL_SIGNALS in Hi.
  assert (i = 0 \/ i = 1 \/ i = 2 \/ i = 3 \/ i = 4 \/ i = 5) as Hcases by lia.
  by destruct Hcases as [->|[->|[->|[->|[->| ->]]]]].
Qed.

Lemma link_mbox s p pid c k sig :
  at_link s p pid c k -> 0 <= sig < MAX_CHANNEL_SIGNALS ->
  exists r, link_step (mbox_send_message pid sig) s p pid r c k [Mbox pid sig].
Proof.
  intros H Hi. pose proof H as [Hc _ _ _ _ _ _ _]. pose proof (link_irq _ _ _ _ _ _ H Hi) as Hirq.
  eexists _, _. split; [|split].
  - unfold mbox_send_message. rewrite (bind_run _ _ _ _ _ (the_channel_run _ _ _ Hc)). rewrite Hirq. done.
  - eapply at_link_same; [| |exact H]; done.
  - by split.
Qed.

Lemma link_txdone s p pid c k sig :
  at_link s p pid c k -> 0 <= sig < MAX_CHANNEL_SIGNALS -> mbox_client_txdone pid sig s = Done tt s.
Proof.
  intros H Hi. pose proof H as [Hc _ _ _ _ _ _ _]. unfold mbox_client_txdone.
  rewrite (bind_run _ _ _ _ _ (the_channel_run _ _ _ Hc)). by rewrite (link_irq _ _ _ _ _ _ H Hi).
Qed.

(** Storing the number of the message signal changes nothing. *)
Lemma link_first_signal s p pid c k :
  at_link s p pid c k -> link_step (set_first_signal pid IPCLITE_MSG_SIGNAL) s p pid tt c k [].
Proof.
  intros H. pose proof H as [Hc _ _ _ _ _ _ _]. pose proof (link_irq _ _ _ _ _ 0 H) as Hirq.
  unfold set_first_signal. eapply link_then; [eapply link_read; [exact H|by apply the_channel_run]|]. intros s1 H1 _.
  rewrite Hirq by done. eapply link_then; [eapply link_read; [exact H1|done]|]. intros s2 H2 _.
  eapply link_update; [exact H2|..]; try done; [|by left].
  destruct c; simpl in *. f_equal. by apply zset_id, Hirq.
Qed.

(** Sending on a channel: refused while it is closed or full, else the message is last
    in the queue and the mailbox is rung once. *)
Lemma ipclite_tx_link s p pid c k d :
  at_link s p pid c k -> ch_tx_lock c = false -> in_u64 d ->
  exists c', ch_tx_lock c' = false /\
  let m := ipclite_tx pid d MSG_BYTES IPCLITE_MSG_SIGNAL in
  if negb (lk_open k) then link_step m s p pid (- EOPNOTSUPP) c' k []
  else if CAPACITY <=? zlen (lk_out k) then link_step m s p pid (- EAGAIN) c' k []
  else link_step m s p pid 0 c' (set_out pid (lk_out k ++ [d]) k) [Mbox pid IPCLITE_MSG_SIGNAL].
Proof.
  intros H Hlock Hd. destruct (link_active _ _ _ _ _ H) as (c1 & Hact & Hl1 & _). rewrite Hlock in Hl1.
  set (c2 := c1 <| ch_tx_lock := true |>). set (c3 := c2 <| ch_tx_lock := false |>).
  exists (if lk_open k then c3 else c1). split; [by destruct (lk_open k)|]. cbv zeta. unfold ipclite_tx.
  destruct (lk_open k) eqn:Eopen; cbn [negb]; [|eapply link_then; [exact Hact|intros s1 H1 _; by apply link_ret]].
  assert (forall s1, at_link s1 p pid c1 k -> link_step (tx_lock pid) s1 p pid tt c2 k []) as Htake.
  { intros s1 H1. unfold tx_lock. eapply link_then; [eapply link_read; [exact H1|apply the_channel_run, H1]|].
    intros s2 H2 _. rewrite Hl1. eapply link_update; [exact H2|..]; try done. by left. }
  assert (forall s1 k1, at_link s1 p pid c2 k1 -> link_step (tx_unlock pid) s1 p pid tt c3 k1 []) as Hdrop.
  { intros s1 k1 H1. eapply link_update; [exact H1|..]; try done. by left. }
  destruct (Z.leb_spec CAPACITY (zlen (lk_out k))) as [Hfull|Hroom];
    (eapply link_then; [exact Hact|]; intros s1 H1 _; cbn [negb];
     eapply link_then; [by apply Htake|]; intros s2 H2 _;
     eapply link_then; [eapply link_read; [exact H2|by eapply link_tx_avail]|]; intros s3 H3 _).
  - destruct (Z.ltb_spec (8 * (CAPACITY - zlen (lk_out k))) MSG_BYTES); [|unfold MSG_BYTES in *; lia].
    eapply link_then; [by apply Hdrop|]. intros s4 H4 _. by apply link_ret.
  - destruct (Z.ltb_spec (8 * (CAPACITY - zlen (lk_out k))) MSG_BYTES); [unfold MSG_BYTES in *; lia|].
    eapply link_then; [by apply link_first_signal|]. intros s4 H4 _.
    eapply link_then; [by eapply link_tx_write|]. intros s5 H5 _.
    destruct (link_mbox _ _ _ _ _ IPCLITE_MSG_SIGNAL H5) as (r & Hm); [done|].
    change [Mbox pid IPCLITE_MSG_SIGNAL] with ([Mbox pid IPCLITE_MSG_SIGNAL] ++ [] : list ipc_event).
    eapply link_bind; [exact Hm|]. intros s6 H6 _.
    eapply link_then; [eapply link_read; [exact H6|by eapply link_txdone]|]. intros s7 H7 _.
    eapply link_then; [by apply Hdrop|]. intros s8 H8 _. by apply link_ret.
Qed.

(** ** The interrupt handler *)

Lemma link_call_client s p pid c k cl d :
  at_link s p pid c k -> link_step (call_client cl pid d) s p pid tt c k (deliveries cl pid [d]).
Proof.
  intros H. unfold call_client, deliveries.
  destruct (cl_callback cl), (cl_reg_complete cl =? 1); simpl; try (by apply link_ret). by apply link_emit.
Qed.

Lemma deliveries_app cl pid l1 l2 : deliveries cl pid (l1 ++ l2) = deliveries cl pid l1 ++ deliveries cl pid l2.
Proof. unfold deliveries. destruct (cl_callback cl), (cl_reg_complete cl =? 1); try done. apply map_app. Qed.

Lemma deliveries_nil cl pid : deliveries cl pid [] = [].
Proof. unfold deliveries. by destruct (cl_callback cl), (cl_reg_complete cl =? 1). Qed.

(** One message. *)
Lemma link_rx_data s p pid c k d l :
  at_link s p pid c k -> lk_in k = d :: l ->
  link_step (ipclite_rx_data pid (8 * zlen (lk_in k))) s p pid 0 c (set_in pid l k)
    (deliveries (ip_synx_client s) pid [d]).
Proof.
  intros H Hk. pose proof H as [Hc Hr _ _ _ _ _ _]. unfold ipclite_rx_data.
  assert (1 <= zlen (lk_in k)) as Hone by (rewrite Hk; change (d :: l) with ([d] ++ l); rewrite zlen_app; pose proof (zlen_nonneg l);
    change (zlen [d]) with 1; lia).
  destruct (Z.ltb_spec (8 * zlen (lk_in k)) MSG_BYTES); [unfold MSG_BYTES in *; lia|].
  eapply link_then; [eapply link_read; [exact H|by eapply link_rx_peak]|]. intros s1 H1 M1.
  eapply link_then; [eapply link_read; [exact H1|apply the_channel_run, H1]|]. intros s2 H2 M2.
  eapply link_then; [eapply link_read; [exact H2|done]|]. intros s3 H3 M3.
  rewrite <- (app_nil_r (deliveries _ _ _)). rewrite (mv_client _ _ _ _ _ M2), (mv_client _ _ _ _ _ M1), Hr.
  unfold peeked. rewrite msg_bytes_val by (by eapply in_word).
  eapply link_bind; [by apply link_call_client|]. intros s4 H4 _.
  replace (ALIGN8 MSG_BYTES) with 8 by done.
  eapply link_then; [by eapply link_rx_advance|]. intros s5 H5 _. by apply link_ret.
Qed.

Lemma set_in_again pid l l' k : set_in pid l (set_in pid l' k) = set_in pid l k.
Proof. unfold set_in. simpl. by destruct (pid =? IPCMEM_APPS). Qed.

Lemma set_in_same s p pid c k l : at_link s p pid c k -> lk_in k = l -> set_in pid l k = k.
Proof.
  intros H <-. unfold set_in. destruct k as [o i b]. simpl in *. destruct (Z.eqb_spec pid IPCMEM_APPS) as [E|]; [|done].
  pose proof (al_loop _ _ _ _ _ H E) as Hl. simpl in Hl. by rewrite Hl.
Qed.

(** The loop hands over everything, oldest first, and ends. *)
Lemma link_drain p pid c l : forall fuel s k,
  (length l < fuel)%nat -> at_link s p pid c k -> lk_in k = l ->
  link_step (drain_rx fuel ipclite_rx_data pid) s p pid tt c (set_in pid [] k)
    (deliveries (ip_synx_client s) pid l).
Proof.
  induction l as [|d l IH]; intros [|fuel] s k Hf H Hk; [lia| |simpl in Hf; lia|]; cbn [drain_rx].
  - eapply link_then; [eapply link_read; [exact H|by eapply link_rx_avail]|]. intros s1 H1 M1. rewrite Hk.
    change (8 * zlen [] <? MSG_BYTES) with true. cbv iota. rewrite (set_in_same _ _ _ _ _ [] H Hk).
    rewrite deliveries_nil.
    by apply link_ret.
  - eapply link_then; [eapply link_read; [exact H|by eapply link_rx_avail]|]. intros s1 H1 M1.
    destruct (Z.ltb_spec (8 * zlen (lk_in k)) MSG_BYTES) as [Hlt|_].
    { rewrite Hk in Hlt. change (d :: l) with ([d] ++ l) in Hlt. rewrite zlen_app in Hlt.
      change (zlen [d]) with 1 in Hlt. pose proof (zlen_nonneg l). unfold MSG_BYTES in Hlt. lia. }
    change (d :: l) with ([d] ++ l). rewrite deliveries_app. rewrite <- (mv_client _ _ _ _ _ M1).
    eapply link_bind; [by eapply link_rx_data|]. intros s2 H2 M2. rewrite <- (mv_client _ _ _ _ _ M2).
    rewrite <- (set_in_again pid [] l). apply IH; [simpl in Hf; lia|done|done].
Qed.

(** Enough turns for a full ring. *)
Definition RX_TURNS : nat := 1024.

Lemma ipclite_intr_link s p pid c k :
  at_link s p pid c k ->
  link_step (ipclite_intr RX_TURNS pid IPCLITE_MSG_SIGNAL) s p pid IRQ_HANDLED c (set_in pid [] k)
    (deliveries (ip_synx_client s) pid (lk_in k)).
Proof.
  intros H. unfold ipclite_intr.
  eapply link_then; [eapply link_read; [exact H|apply the_channel_run, H]|]. intros s1 H1 M1.
  rewrite (link_irq _ _ _ _ _ IPCLITE_MSG_SIGNAL H) by done.
  eapply link_then; [eapply link_read; [exact H1|done]|]. intros s2 H2 M2. cbn [ir_signal_id].
  change (IPCLITE_MSG_SIGNAL =? IPCLITE_MSG_SIGNAL) with true. cbn [negb].
  rewrite <- (app_nil_r (deliveries _ _ _)). rewrite <- (mv_client _ _ _ _ _ M1), <- (mv_client _ _ _ _ _ M2).
  eapply link_bind; [eapply link_drain; [|exact H2|done]|]; [|intros s3 H3 _; by apply link_ret].
  pose proof (in_fits _ _ _ _ _ H) as Hn. unfold DEFAULT_FIFO0_SIZE, zlen in Hn. unfold RX_TURNS. lia.
Qed.

(** ** The other side

    The remote processor works on the same two rings from the other end: it takes the
    messages of the channel's Tx ring and appends to its Rx ring, and sets the status
    when it is ready. *)

Definition remote_take (pid : Z) : IPC (Z * option Z) :=
  f <-- tx_fifo_of pid;
  avail <-- ipcmem_rx_avail f;
  if avail <? MSG_BYTES then ret (- EAGAIN, None)
  else
    data <-- ipcmem_rx_peak f MSG_BYTES;
    ipcmem_rx_advance f MSG_BYTES;;;
    ret (0, Some (peeked data)).

Definition remote_put (pid data : Z) : IPC (Z * option Z) :=
  f <-- rx_fifo_of pid;
  avail <-- ipcmem_tx_avail f;
  if avail <? MSG_BYTES then ret (- EAGAIN, None)
  else ipcmem_tx_write f (le_bytes 8 data) MSG_BYTES;;; ret (0, None).

Definition remote_ready (pid : Z) : IPC (Z * option Z) := set_gstatus pid ACTIVE;;; ret (0, None).

Lemma remote_take_link s p pid c k :
  at_link s p pid c k ->
  match lk_out k with
  | [] => link_step (remote_take pid) s p pid (- EAGAIN, None) c k []
  | d :: l => link_step (remote_take pid) s p pid (0, Some d) c (set_out pid l k) []
  end.
Proof.
  intros H. destruct (tx_ring _ _ _ _ _ H) as (tx & pt & t & Htx & E & Hp & Hr & _).
  pose proof (rx_avail_ring _ _ _ _ Hr s Hp) as Ea. pose proof (out_word _ _ _ _ _ H) as Hw.
  assert (forall x k', (exists s', (avail <-- ipcmem_rx_avail tx;
    if avail <? MSG_BYTES then ret (- EAGAIN, None)
    else data <-- ipcmem_rx_peak tx MSG_BYTES; ipcmem_rx_advance tx MSG_BYTES;;; ret (0, Some (peeked data))) s = Done x s' /\
      at_link s' p pid c k' /\ moves p pid [] s s') -> link_step (remote_take pid) s p pid x c k' []) as Hstart.
  { intros x k' (s' & E' & ? & ?). exists s'. split; [|done]. unfold remote_take. by rewrite (bind_run _ _ _ _ _ E). }
  destruct (lk_out k) as [|d l]; apply Hstart; rewrite (bind_run _ _ _ _ _ Ea).
  - exists s. split; [done|]. split; [done|]. apply moves_refl.
  - destruct (rx_advance_ring tx pt t d l s Hr Hp) as (s' & E' & Ho & Hr'). exists s'.
    destruct (Z.ltb_spec (8 * zlen (d :: l)) MSG_BYTES) as [Hlt|_].
    { change (d :: l) with ([d] ++ l) in Hlt. rewrite zlen_app in Hlt. change (zlen [d]) with 1 in Hlt.
      pose proof (zlen_nonneg l). unfold MSG_BYTES in Hlt. lia. }
    unfold MSG_BYTES. rewrite (bind_run _ _ _ _ _ (rx_peak_ring _ _ _ _ _ _ Hr Hp)), (bind_run _ _ _ _ _ E').
    unfold peeked. rewrite msg_bytes_val by (by eapply Hw). split; [done|]. by eapply at_link_out.
Qed.

Lemma remote_put_link s p pid c k d :
  at_link s p pid c k -> in_u64 d ->
  if CAPACITY <=? zlen (lk_in k) then link_step (remote_put pid d) s p pid (- EAGAIN, None) c k []
  else link_step (remote_put pid d) s p pid (0, None) c (set_in pid (lk_in k ++ [d]) k) [].
Proof.
  intros H Hd. destruct (rx_ring _ _ _ _ _ H) as (rx & pt & t & Hrx & E & Hp & Hr & Hc & Hl).
  pose proof (tx_avail_ring _ _ _ _ Hr s Hp) as Ea. rewrite Hl in Ea. unfold CAPACITY, MSG_BYTES, DEFAULT_FIFO0_SIZE in *.
  destruct (Z.leb_spec 1023 (zlen (lk_in k))).
  - exists s. split; [|split; [done|apply moves_refl]]. unfold remote_put, MSG_BYTES.
    rewrite (bind_run _ _ _ _ _ E), (bind_run _ _ _ _ _ Ea).
    by destruct (Z.ltb_spec (8 * 1024 - 8 * zlen (lk_in k) - 8) 8); [|lia].
  - destruct (tx_write_ring pt rx t _ d s Hr Hp Hd) as (s' & E' & Ho & Hr'); [by rewrite Hc|].
    exists s'. split; [|by eapply at_link_in]. unfold remote_put, MSG_BYTES.
    rewrite (bind_run _ _ _ _ _ E), (bind_run _ _ _ _ _ Ea).
    destruct (Z.ltb_spec (8 * 1024 - 8 * zlen (lk_in k) - 8) 8); [lia|]. by rewrite (bind_run _ _ _ _ _ E').
Qed.

(** The status word of the partition is no part of the rings. *)
Lemma ring_header s f l p pt g :
  zget (ip_partition s) p = Some pt -> ring_is s f l ->
  ring_is (s <| ip_partition ::= zset p (pt <| pt_hdr ::= g |>) |>) f l.
Proof.
  intros Hp (qt & t & Hq & Hr). unfold ring_is. simpl. rewrite zget_zset. case_decide as Hd; [|by exists qt, t].
  destruct Hd as [-> _]. assert (qt = pt) as -> by congruence. eexists _, t. split; [done|]. by destruct Hr.
Qed.

Lemma remote_ready_link s p pid c k :
  at_link s p pid c k ->
  link_step (remote_ready pid) s p pid (0, None) c (mk_link (lk_out k) (lk_in k) true) [].
Proof.
  intros [Hc Hr Hp Hi (tx & rx & Htx & Hrx & Hw & Ho & Hn) Hl Hs (pt & Hpt & Hopen)].
  set (pt' := pt <| pt_hdr ::= fun h => h <| ph_status ::= fun _ => ACTIVE |> |>).
  exists (s <| ip_partition ::= zset p pt' |>). split; [|split].
  - unfold remote_ready, set_gstatus. rewrite bind_assoc, (bind_run _ _ _ _ _ (the_channel_run _ _ _ Hc)), Hp.
    unfold atomic_status, set_partition, bind, get, ret, deref, modifyM. simpl. rewrite Hpt. done.
  - split; simpl; try done.
    + exists tx, rx. do 3 (split; [done|]). split; by apply ring_header.
    + exists pt'. split; [apply zget_zset_eq; by eapply zget_Some|]. simpl. by rewrite orb_true_r.
  - split; simpl; try done.
    + intros j Hj. by rewrite zget_zset_ne.
    + by rewrite app_nil_r.
Qed.

(** ** All channels

    [q pid]: what channel [pid] holds, [None] when its initialisation failed or never
    happened. *)

Abbreviation links := (Z -> option link).

(** The channels of [D] are in order; those of different processors have partitions of
    their own. *)
Record ipc_ok_on (D : Z -> Prop) (s : ipclite_info) (q : links) : Prop := mk_ipc_ok {
  io_channels : zlen (ip_channel s) = IPCMEM_NUM_HOSTS;
  io_live pid k : D pid -> q pid = Some k -> exists p c, at_link s p pid c k /\ ch_tx_lock c = false;
  io_idle pid : D pid -> 0 <= pid < IPCMEM_NUM_HOSTS -> q pid = None ->
    exists c, zget (ip_channel s) pid = Some c /\ ch_status c = INACTIVE;
  io_apart pid1 pid2 c1 c2 p : pid1 <> pid2 -> is_Some (q pid1) -> is_Some (q pid2) ->
    zget (ip_channel s) pid1 = Some c1 -> zget (ip_channel s) pid2 = Some c2 ->
    ch_gstatus_ptr c1 = Some p -> ch_gstatus_ptr c2 <> Some p }.

Definition everyone (pid : Z) : Prop := True.

Abbreviation ipc_ok := (ipc_ok_on everyone).

(** A channel depends on its structure and on its partition. *)
Lemma at_link_local s s' p pid c k :
  zget (ip_channel s') pid = zget (ip_channel s) pid -> zget (ip_partition s') p = zget (ip_partition s) p ->
  at_link s p pid c k -> at_link s' p pid c k.
Proof.
  intros Ec Ep [Hc Hr Hptr Hi (tx & rx & Htx & Hrx & Hw & Ho & Hn) Hl Hs Hopen].
  assert (forall f l, fi_part f = p -> ring_is s f l -> ring_is s' f l) as Hring.
  { intros f l <- (pt & t & Hpt & ?). exists pt, t. by rewrite Ep. }
  split; try done.
  - by rewrite Ec.
  - exists tx, rx. destruct Hw as (? & ? & Hw). do 2 (split; [done|]). split; [by split|]. split; by apply Hring.
  - by rewrite Ep.
Qed.

Lemma at_link_frame s s' p pid evs p' pid' c k :
  moves p pid evs s s' -> pid' <> pid -> p' <> p -> at_link s p' pid' c k -> at_link s' p' pid' c k.
Proof.
  intros [Mc _ Mp _ _ _] Hpid Hp. apply at_link_local; [by apply Mc|by apply Mp].
Qed.

(** Channel [pid] moved, or came into being, and the others stayed. *)
Lemma ipc_ok_set D s s' q p pid evs c' k' :
  ipc_ok_on D s q -> moves p pid evs s s' -> at_link s' p pid c' k' -> ch_tx_lock c' = false ->
  (forall j cj, j <> pid -> is_Some (q j) -> zget (ip_channel s) j = Some cj -> ch_gstatus_ptr cj <> Some p) ->
  ipc_ok_on D s' (<[pid := Some k']> q).
Proof.
  intros [Hn Hlive Hidle Hap] M H' Hlock Hother. pose proof H' as [Hc' _ Hptr' _ _ _ _ _]. split.
  - by rewrite (mv_channels _ _ _ _ _ M).
  - intros j kj HD. destruct (decide (j = pid)) as [->|Hj]; [rewrite fn_lookup_insert; intros [= <-]; by exists p, c'|].
    rewrite fn_lookup_insert_ne by congruence. intros Hqj. destruct (Hlive j kj HD Hqj) as (pj & cj & Hcj & ?). exists pj, cj.
    split; [|done]. eapply at_link_frame; [exact M|done| |done]. intros ->.
    by apply (Hother j cj Hj); [rewrite Hqj|apply Hcj|apply Hcj].
  - intros j HD Hj. destruct (decide (j = pid)) as [->|Hne]; [by rewrite fn_lookup_insert|].
    rewrite fn_lookup_insert_ne, (mv_channel _ _ _ _ _ M) by congruence. by apply Hidle.
  - assert (forall i, i <> pid -> is_Some ((<[pid := Some k']> q) i) -> is_Some (q i)) as Hdom.
    { intros i Hi. by rewrite fn_lookup_insert_ne by congruence. }
    intros j1 j2 c1 c2 r Hj Hq1 Hq2 Hc1 Hc2 Hr.
    destruct (decide (j1 = pid)) as [->|H1]; [|destruct (decide (j2 = pid)) as [->|H2]];
      repeat (rewrite (mv_channel _ _ _ _ _ M) in Hc1 by congruence); repeat (rewrite (mv_channel _ _ _ _ _ M) in Hc2 by congruence).
    + assert (r = p) as -> by congruence. apply (Hother j2); [congruence|apply Hdom; [congruence|done]|done].
    + assert (c2 = c') as -> by congruence. rewrite Hptr'. intros [= <-].
      by apply (Hother j1 c1); [|apply Hdom| |].
    + by apply (Hap j1 j2 c1); [|apply Hdom|apply Hdom|..].
Qed.

Lemma ipc_ok_other D s q p pid c k j cj :
  ipc_ok_on D s q -> q pid = Some k -> at_link s p pid c k -> j <> pid -> is_Some (q j) ->
  zget (ip_channel s) j = Some cj -> ch_gstatus_ptr cj <> Some p.
Proof.
  intros Hs Hq [Hc _ Hptr _ _ _ _ _] Hj Hqj Hcj.
  eapply (io_apart _ _ _ Hs pid j); [congruence|by rewrite Hq|done|exact Hc|done|done].
Qed.

(** A step of one channel is a step of the system. *)
Lemma ipc_ok_step {A} D (m : IPC A) s q pid p c k x c' k' evs :
  ipc_ok_on D s q -> q pid = Some k -> at_link s p pid c k -> link_step m s p pid x c' k' evs -> ch_tx_lock c' = false ->
  exists s', m s = Done x s' /\ ipc_ok_on D s' (<[pid := Some k']> q) /\ ip_synx_client s' = ip_synx_client s /\
             ip_events s' = ip_events s ++ evs.
Proof.
  intros Hs Hq H (s' & E & H' & M) Hlock. exists s'. split; [done|]. split; [|by destruct M].
  eapply ipc_ok_set; [exact Hs|exact M|exact H'|done|]. intros j cj. by eapply ipc_ok_other.
Qed.

(** The state after a message to a mailbox. *)
Definition mbox_state (s : ipclite_info) (pid sig : Z) : ipclite_info :=
  (s <| ip_events ::= fun l => l ++ [Mbox pid sig] |>) <| ip_asked ::= Z.succ |>.

Lemma mbox_quiet s pid c sig :
  zget (ip_channel s) pid = Some c -> zget (ch_irq_info c) sig = Some (mk_irq true sig) ->
  exists r, mbox_send_message pid sig s = Done r (mbox_state s pid sig).
Proof.
  intros Hc Hi. eexists. unfold mbox_send_message. rewrite (bind_run _ _ _ _ _ (the_channel_run _ _ _ Hc)), Hi. reflexivity.
Qed.

Lemma link_range s q p pid c k : ipc_ok s q -> at_link s p pid c k -> valid_pid pid = true.
Proof.
  intros Hs [Hc _ _ _ _ _ _ _]. apply zget_Some in Hc. rewrite (io_channels _ _ _ Hs) in Hc. unfold valid_pid.
  by destruct (Z.ltb_spec pid 0), (Z.leb_spec IPCMEM_NUM_HOSTS pid); try lia.
Qed.

(** ** Sequences of calls, interrupts and steps of other processors *)

Inductive ipc_op :=
| OpSend (pid data : Z)
| OpIntr (pid : Z)          (* the message interrupt from [pid] *)
| OpTake (pid : Z)
| OpPut (pid data : Z)
| OpReady (pid : Z).

Definition run_ipc_op (o : ipc_op) : IPC (Z * option Z) :=
  match o with
  | OpSend pid d => r <-- ipclite_msg_send_v0 pid d; ret (r, None)
  | OpIntr pid => r <-- ipclite_intr RX_TURNS pid IPCLITE_MSG_SIGNAL; ret (r, None)
  | OpTake pid => remote_take pid
  | OpPut pid d => remote_put pid d
  | OpReady pid => remote_ready pid
  end.

Fixpoint run_ipc_ops (os : list ipc_op) : IPC (list (Z * option Z)) :=
  match os with
  | [] => ret []
  | o :: os => r <-- run_ipc_op o; rs <-- run_ipc_ops os; ret (r :: rs)
  end.

(** The same on bounded queues: the answer, the queues, what is sent to mailboxes and
    client. *)
Definition queue_op (cl : ipclite_client) (o : ipc_op) (q : links) : (Z * option Z) * links * list ipc_event :=
  match o with
  | OpSend pid d =>
      if negb (valid_pid pid) then ((- EINVAL, None), q, [])
      else
        match q pid with
        | Some k =>
            if negb (lk_open k) then ((- EOPNOTSUPP, None), q, [])
            else if CAPACITY <=? zlen (lk_out k) then ((- EAGAIN, None), q, [])
            else ((0, None), <[pid := Some (set_out pid (lk_out k ++ [d]) k)]> q, [Mbox pid IPCLITE_MSG_SIGNAL])
        | None => ((- EOPNOTSUPP, None), q, [])
        end
  | OpIntr pid =>
      match q pid with
      | Some k => ((IRQ_HANDLED, None), <[pid := Some (set_in pid [] k)]> q, deliveries cl pid (lk_in k))
      | None => ((IRQ_HANDLED, None), q, [])
      end
  | OpTake pid =>
      match q pid with
      | Some k =>
          match lk_out k with
          | d :: l => ((0, Some d), <[pid := Some (set_out pid l k)]> q, [])
          | [] => ((- EAGAIN, None), q, [])
          end
      | None => ((- EAGAIN, None), q, [])
      end
  | OpPut pid d =>
      match q pid with
      | Some k =>
          if CAPACITY <=? zlen (lk_in k) then ((- EAGAIN, None), q, [])
          else ((0, None), <[pid := Some (set_in pid (lk_in k ++ [d]) k)]> q, [])
      | None => ((- EAGAIN, None), q, [])
      end
  | OpReady pid =>
      match q pid with
      | Some k => ((0, None), <[pid := Some (mk_link (lk_out k) (lk_in k) true)]> q, [])
      | None => ((0, None), q, [])
      end
  end.

Fixpoint queue_ops (cl : ipclite_client) (os : list ipc_op) (q : links) : list (Z * option Z) * links * list ipc_event :=
  match os with
  | [] => ([], q, [])
  | o :: os =>
      let '(r, q1, e1) := queue_op cl o q in
      let '(rs, q2, e2) := queue_ops cl os q1 in
      (r :: rs, q2, e1 ++ e2)
  end.

(** Only initialised channels have interrupts and a remote side; messages are 64 bits wide. *)
Definition ipc_op_wf (q : links) (o : ipc_op) : Prop :=
  match o with
  | OpSend _ d => in_u64 d
  | OpIntr pid | OpTake pid | OpReady pid => is_Some (q pid)
  | OpPut pid d => is_Some (q pid) /\ in_u64 d
  end.

Lemma ipc_ok_ext D s q q' : (forall j, q j = q' j) -> ipc_ok_on D s q -> ipc_ok_on D s q'.
Proof.
  intros E [Hn Hl Hi Ha]. split; [done|..].
  - intros pid k. rewrite <- E. apply Hl.
  - intros pid HD Hp. rewrite <- E. by apply Hi.
  - intros j1 j2 c1 c2 p Hj. rewrite <- !E. by apply Ha.
Qed.

(** What an operation has to do on the queues. *)
Definition refines (m : IPC (Z * option Z)) (s : ipclite_info) (r : (Z * option Z) * links * list ipc_event) : Prop :=
  exists s', m s = Done r.1.1 s' /\ ipc_ok s' r.1.2 /\ ip_synx_client s' = ip_synx_client s /\
             ip_events s' = ip_events s ++ r.2.

Lemma refines_step m s q pid p c k x c' k' evs :
  ipc_ok s q -> q pid = Some k -> at_link s p pid c k -> link_step m s p pid x c' k' evs -> ch_tx_lock c' = false ->
  refines m s (x, <[pid := Some k']> q, evs).
Proof. intros. by eapply ipc_ok_step. Qed.

Lemma refines_stay m s q pid p c k x c' evs :
  ipc_ok s q -> q pid = Some k -> at_link s p pid c k -> link_step m s p pid x c' k evs -> ch_tx_lock c' = false ->
  refines m s (x, q, evs).
Proof.
  intros Hs Hq H Hm Hl. destruct (ipc_ok_step _ _ _ _ _ _ _ _ _ _ _ _ Hs Hq H Hm Hl) as (s' & E & Hs' & ? & ?).
  exists s'. split; [done|]. split; [|done]. eapply ipc_ok_ext; [|exact Hs']. intros j.
  destruct (decide (j = pid)) as [->|]; [by rewrite fn_lookup_insert|by rewrite fn_lookup_insert_ne by congruence].
Qed.

(** The answer of a call with the empty message of an operation that takes none. *)
Lemma link_answer (m : IPC Z) s p pid x c k evs :
  link_step m s p pid x c k evs -> link_step (r <-- m; ret (r, None : option Z)) s p pid (x, None) c k evs.
Proof.
  intros Hm. rewrite <- (app_nil_r evs). eapply link_bind; [exact Hm|]. intros s1 H1 _. by apply link_ret.
Qed.

Lemma send_refused s q r :
  ipc_ok s q -> refines (ret (r, None)) s ((r, None), q, []).
Proof. intros Hs. exists s. by rewrite app_nil_r. Qed.

Lemma send_idle s pid d c :
  zget (ip_channel s) pid = Some c -> ch_status c = INACTIVE ->
  ipclite_tx pid d MSG_BYTES IPCLITE_MSG_SIGNAL s = Done (- EOPNOTSUPP) s.
Proof.
  intros Hc Hi. unfold ipclite_tx, channel_active. rewrite bind_assoc, (bind_run _ _ _ _ _ (the_channel_run _ _ _ Hc)).
  by rewrite Hi.
Qed.

Lemma send_refines s q pid d :
  ipc_ok s q -> in_u64 d -> refines (run_ipc_op (OpSend pid d)) s (queue_op (ip_synx_client s) (OpSend pid d) q).
Proof.
  intros Hs Hd. cbn [run_ipc_op queue_op]. unfold ipclite_msg_send_v0. destruct (valid_pid pid) eqn:Ev; cbn [negb].
  2: { exists s. by rewrite app_nil_r. }
  destruct (q pid) as [k|] eqn:Hq.
  - destruct (io_live _ _ _ Hs _ _ I Hq) as (p & c & H & Hl).
    destruct (ipclite_tx_link _ _ _ _ _ d H Hl Hd) as (c' & Hl' & Hm). cbv zeta in Hm.
    destruct (lk_open k); cbn [negb] in Hm |- *;
      [destruct (CAPACITY <=? zlen (lk_out k)); apply link_answer in Hm|apply link_answer in Hm].
    + by eapply refines_stay.
    + by eapply refines_step.
    + by eapply refines_stay.
  - assert (0 <= pid < IPCMEM_NUM_HOSTS) as Hr.
    { unfold valid_pid in Ev. destruct (Z.ltb_spec pid 0), (Z.leb_spec IPCMEM_NUM_HOSTS pid); simpl in Ev; try done. }
    destruct (io_idle _ _ _ Hs _ I Hr Hq) as (c & Hc & Hi).
    exists s. simpl. rewrite app_nil_r. split; [|done].
    by rewrite (bind_run _ _ _ _ _ (send_idle s pid d c Hc Hi)).
Qed.

Lemma run_ipc_op_refines s q o :
  ipc_ok s q -> ipc_op_wf q o -> refines (run_ipc_op o) s (queue_op (ip_synx_client s) o q).
Proof.
  intros Hs. destruct o as [pid d|pid|pid|pid d|pid]; cbn [ipc_op_wf];
    [by apply send_refines|intros [k Hq]|intros [k Hq]|intros [[k Hq] Hd]|intros [k Hq]];
    destruct (io_live _ _ _ Hs _ _ I Hq) as (p & c & H & Hl); cbn [run_ipc_op queue_op]; rewrite Hq.
  - eapply refines_step; [done..| |exact Hl]. by apply link_answer, ipclite_intr_link.
  - pose proof (remote_take_link _ _ _ _ _ H) as Hm.
    destruct (lk_out k); [by eapply refines_stay|by eapply refines_step].
  - pose proof (remote_put_link _ _ _ _ _ d H Hd) as Hm.
    destruct (CAPACITY <=? zlen (lk_in k)); [by eapply refines_stay|by eapply refines_step].
  - eapply refines_step; [done..| |exact Hl]. by apply remote_ready_link.
Qed.

Lemma queue_op_domain cl o q j : is_Some (q j) -> is_Some ((queue_op cl o q).1.2 j).
Proof.
  assert (forall pid (k : link), is_Some (q j) -> is_Some ((<[pid := Some k]> q) j)) as Hins.
  { intros pid k. destruct (decide (j = pid)) as [->|]; [by rewrite fn_lookup_insert|by rewrite fn_lookup_insert_ne by congruence]. }
  destruct o; simpl; repeat case_match; simpl; auto.
Qed.

Lemma ipc_op_wf_kept cl o o' q : ipc_op_wf q o' -> ipc_op_wf (queue_op cl o q).1.2 o'.
Proof. destruct o' as [| | |? ?|]; simpl; try done; [..|intros [? ?]; split; [|done]|]; by apply queue_op_domain. Qed.

(** C18: Messages are neither lost, duplicated nor reordered: over any sequence of sends,
    message interrupts and steps of the remote processors, every channel behaves as
    bounded queues of 1023 messages, the loopback channel as one.  A send is refused when
    the processor does not exist, its channel is closed or its queue is full, and else
    rings the mailbox once; an interrupt hands the client all that arrived, oldest first,
    and returns. *)
Theorem channels_refine_queues s q os :
  ipc_ok s q -> Forall (ipc_op_wf q) os ->
  exists s', run_ipc_ops os s = Done (queue_ops (ip_synx_client s) os q).1.1 s' /\
             ipc_ok s' (queue_ops (ip_synx_client s) os q).1.2 /\
             ip_events s' = ip_events s ++ (queue_ops (ip_synx_client s) os q).2.
Proof.
  revert s q. induction os as [|o os IH]; intros s q Hs Hos.
  { exists s. by rewrite app_nil_r. }
  apply Forall_cons in Hos as [Ho Hos]. destruct (run_ipc_op_refines s q o Hs Ho) as (s1 & E1 & Hs1 & Hc1 & He1).
  destruct (IH s1 _ Hs1) as (s2 & E2 & Hs2 & He2).
  { eapply Forall_impl; [exact Hos|]. intros o'. apply ipc_op_wf_kept. }
  exists s2. rewrite Hc1 in *. simpl. destruct (queue_op (ip_synx_client s) o q) as [[r q1] e1]. simpl in *.
  destruct (queue_ops (ip_synx_client s) os q1) as [[rs q2] e2]. simpl in *.
  rewrite (bind_run _ _ _ _ _ E1), (bind_run _ _ _ _ _ E2). split; [done|]. split; [done|].
  by rewrite He2, He1, app_assoc.
Qed.

