(* ===== verification/IpcliteInit.v ===== *)
(** * ipclite: the initialisation establishes the invariant

    [setup_partitions] and [ipclite_channel_init] of [msm/synx/ipclite.c], over the
    definitions of [Ipclite]: for any set of processors the partitions are laid out one
    after the other, one for each pair; each channel finds the one it shares with the
    local processor and wires its rings in it; then [ipc_ok] of [IpcliteRing] holds. *)
From stdpp Require Import functions.
From S2P Require Import Prelude SynxGlobal SynxKeeps Ipclite IpcliteRing.
From Stdlib Require Import Lia.

(** ** Initialisation: partitions *)

Definition first_base : Z := IPCMEM_TOC_SIZE + GLOBAL_PARTITION_SIZE.

Definition hosts_of (e : ipcmem_partition_entry) : Z * Z := (pe_host0 e, pe_host1 e).

Definition is_pair (h0 h1 : Z) (e : option ipcmem_partition_entry) : bool :=
  match e with Some e => (pe_host0 e =? h0) && (pe_host1 e =? h1) | None => false end.

(** What [fill_entries] leaves for the hosts [m]: [n] entries one after the other in the
    memory, one for each pair of enabled hosts and one for the loopback of the local
    host. *)
Definition layout_ok (m : Z) (es : list ipcmem_partition_entry) (n : Z) : bool :=
  (0 <=? n) && (n <=? TOC_ENTRIES) && (zlen es =? TOC_ENTRIES) &&
  forallb (fun p => match zget es p with
                    | Some e => (pe_base_offset e =? first_base + p * DEFAULT_PARTITION_SIZE) &&
                                (pe_size e =? DEFAULT_PARTITION_SIZE)
                    | None => false
                    end) (map Z.of_nat (seq 0 (Z.to_nat n))) &&
  forallb (fun h0 => forallb (fun h1 =>
      Z.of_nat (length (filter (fun p => is_pair h0 h1 (zget es p) = true) (map Z.of_nat (seq 0 (Z.to_nat n)))))
      =? (if (h0 <=? h1) && Z.testbit m h0 && Z.testbit m h1 && negb (is_loopback_except_apps h0 h1) then 1 else 0))
    (map Z.of_nat (seq 0 9))) (map Z.of_nat (seq 0 9)).

Definition filled (m : Z) : bool :=
  match fill_entries m first_base (replicate (Z.to_nat TOC_ENTRIES) zero_entry) with
  | Done (_, n) es => layout_ok m es n
  | Faulted _ => false
  end.

(** All 512 sets of hosts. *)
Lemma all_filled : forallb filled (map Z.of_nat (seq 0 512)) = true.
Proof. vm_compute. reflexivity. Qed.

Lemma in_upto n p : (In p (map Z.of_nat (seq 0 n))) <-> 0 <= p < Z.of_nat n.
Proof.
  rewrite in_map_iff. setoid_rewrite in_seq. split; [intros (i & <- & ?); lia|].
  intros ?. exists (Z.to_nat p). lia.
Qed.

(** The entry of the channel between the local host and [pid]. *)
Definition entry_at (es : list ipcmem_partition_entry) (n pid p : Z) : Prop :=
  0 <= p < n /\ exists e, zget es p = Some e /\ pe_host0 e = IPCMEM_APPS /\ pe_host1 e = pid.

(** The table that [fill_entries] writes. *)
Lemma fill_entries_spec m :
  0 <= m < 512 ->
  exists b n es, fill_entries m first_base (replicate (Z.to_nat TOC_ENTRIES) zero_entry) = Done (b, n) es /\
    0 <= n <= TOC_ENTRIES /\
    (forall p, 0 <= p < n -> exists e, zget es p = Some e /\
       pe_base_offset e = first_base + p * DEFAULT_PARTITION_SIZE /\ pe_size e = DEFAULT_PARTITION_SIZE) /\
    (forall pid, 0 <= pid < IPCMEM_NUM_HOSTS -> Z.testbit m IPCMEM_APPS = true -> Z.testbit m pid = true ->
       exists p, entry_at es n pid p).
Proof.
  intros Hm. pose proof (proj1 (forallb_forall _ _) all_filled m) as Hf.
  assert (In m (map Z.of_nat (seq 0 512))) as Hin by (apply in_upto; lia). specialize (Hf Hin). unfold filled in Hf.
  destruct (fill_entries _ _ _) as [[b n] es|]; [|done]. exists b, n, es. split; [done|]. unfold layout_ok in Hf.
  apply andb_true_iff in Hf as [Hf Hpairs]. apply andb_true_iff in Hf as [Hf Hplaces].
  apply andb_true_iff in Hf as [Hf Hlen]. apply andb_true_iff in Hf as [Hn0 Hn1].
  apply Z.leb_le in Hn0, Hn1. split; [lia|]. split.
  - intros p Hp. apply (proj1 (forallb_forall _ _)) with (x := p) in Hplaces; [|apply in_upto; lia].
    destruct (zget es p) as [e|]; [|done]. exists e. split; [done|].
    apply andb_true_iff in Hplaces as [?%Z.eqb_eq ?%Z.eqb_eq]. done.
  - intros pid Hpid H0 H1. unfold IPCMEM_NUM_HOSTS in Hpid.
    apply (proj1 (forallb_forall _ _)) with (x := 0) in Hpairs; [|apply in_upto; lia]. cbv beta in Hpairs.
    apply (proj1 (forallb_forall _ _)) with (x := pid) in Hpairs; [|apply in_upto; lia]. cbv beta in Hpairs.
    rewrite H1 in Hpairs. change (Z.testbit m 0) with (Z.testbit m IPCMEM_APPS) in Hpairs. rewrite H0 in Hpairs.
    destruct (Z.leb_spec 0 pid); [|lia]. unfold is_loopback_except_apps in Hpairs.
    change (0 =? IPCMEM_APPS) with true in Hpairs. rewrite andb_false_r in Hpairs. cbn [negb andb] in Hpairs.
    apply Z.eqb_eq in Hpairs.
    destruct (filter _ _) as [|p ps] eqn:Ef; [simpl in Hpairs; lia|].
    assert (p ∈ p :: ps) as Hp by apply list_elem_of_here. rewrite <- Ef in Hp. apply list_elem_of_filter in Hp as [Hpair Hp].
    apply list_elem_of_In, in_upto in Hp. exists p. split; [lia|]. unfold is_pair in Hpair.
    destruct (zget es p) as [e|]; [|done]. exists e. split; [done|].
    by apply andb_true_iff in Hpair as [?%Z.eqb_eq ?%Z.eqb_eq].
Qed.

(** The set of hosts of the device tree. *)
Lemma enabled_hosts_bits pids : Forall (fun pid => 0 <= pid < IPCMEM_NUM_HOSTS) pids ->
  0 <= enabled_hosts_of pids < 512 /\ forall pid, pid ∈ pids -> Z.testbit (enabled_hosts_of pids) pid = true.
Proof.
  intros Hp. unfold enabled_hosts_of.
  assert (forall m, 0 <= m < 512 ->
    let r := fold_left (fun m pid => if pid <? IPCMEM_NUM_HOSTS then Z.lor m (BIT pid) else m) pids m in
    0 <= r < 512 /\ (forall j, Z.testbit m j = true -> Z.testbit r j = true) /\
    forall pid, pid ∈ pids -> Z.testbit r pid = true) as Hfold.
  { induction Hp as [|pid pids Hpid _ IH]; intros m Hm; [split; [done|split; [done|by intros ? ?%elem_of_nil]]|]. cbn [fold_left].
    destruct (Z.ltb_spec pid IPCMEM_NUM_HOSTS); [|lia].
    assert (0 <= Z.lor m (BIT pid) < 512) as Hb.
    { unfold IPCMEM_NUM_HOSTS in Hpid. pose proof (BIT_pos pid). split; [apply Z.lor_nonneg; lia|].
      apply Z.log2_lt_cancel. rewrite Z.log2_lor by lia. change (Z.log2 512) with 9.
      apply Z.max_lub_lt; [destruct (decide (m = 0)) as [->|]; [done|apply Z.log2_lt_pow2; lia]|].
      unfold BIT. rewrite Z.shiftl_1_l, Z.log2_pow2 by lia. lia. }
    destruct (IH _ Hb) as (H1 & H2 & H3). split; [done|]. split.
    - intros j Hj. apply H2. by rewrite Z.lor_spec, Hj.
    - intros j [->|Hj]%elem_of_cons; [|by apply H3]. apply H2. rewrite Z.lor_spec, testbit_BIT by lia.
      rewrite bool_decide_true by done. apply orb_true_r. }
  destruct (Hfold 0) as (? & _ & ?); [lia|]. done.
Qed.

(** A partition as [update_partition] leaves it. *)
Definition fresh_part (e : ipcmem_partition_entry) (pt : ipcmem_partition) : Prop :=
  pt_hdr pt = (if pe_host0 e =? pe_host1 e then loopback_partition_hdr else default_partition_hdr) /\
  pt_descs pt = pt_descs zero_partition /\ pt_mem pt = pt_mem zero_partition.

(** After the set-up of the partitions, [s]: the table has [n] entries, and every entry a
    fresh partition. *)
Record laid_out (s0 s : ipclite_info) (n : Z) (es : list ipcmem_partition_entry) : Prop := mk_laid_out {
  lo_entry : ip_entry s = es;
  lo_count : ip_partitions s = n;
  lo_len : zlen (ip_partition s) = n;
  lo_fresh p : 0 <= p < n -> exists e pt, zget es p = Some e /\ zget (ip_partition s) p = Some pt /\ fresh_part e pt;
  lo_channel : ip_channel s = ip_channel s0;
  lo_client : ip_synx_client s = ip_synx_client s0;
  lo_mutex : ip_ssr_mutex s = ip_ssr_mutex s0 }.

Lemma update_partition_run s p e pt :
  zget (ip_entry s) p = Some e -> zget (ip_partition s) p = Some pt ->
  update_partition p s = Done tt (s <| ip_partition ::= zset p (pt <| pt_hdr :=
    if pe_host0 e =? pe_host1 e then loopback_partition_hdr else default_partition_hdr |>) |>).
Proof. intros He Hp. unfold update_partition, bind, get, deref. rewrite He. simpl. by rewrite Hp. Qed.

#[local] Opaque zero_partition.

(** The loop of [update_partition]. *)
Lemma update_partitions_run s n es :
  0 <= n -> ip_entry s = es -> (forall p, 0 <= p < n -> exists e, zget es p = Some e) ->
  wp (for_n (Z.to_nat n) 0 (fun p _ => update_partition p) tt) (fun _ s' => laid_out s (s' <| ip_partitions := n |>) n es)
    (s <| ip_partition := replicate (Z.to_nat n) zero_partition |>).
Proof.
  intros Hn Hes Hall.
  set (I := fun (i : Z) (_ : unit) (s' : ipclite_info) =>
    s' = s <| ip_partition := ip_partition s' |> /\ zlen (ip_partition s') = n /\
    (forall p, 0 <= p < i -> exists e pt, zget es p = Some e /\ zget (ip_partition s') p = Some pt /\ fresh_part e pt) /\
    (forall p, i <= p < n -> zget (ip_partition s') p = Some zero_partition)).
  eapply wp_mono; [apply (wp_for_n I)|].
  - split; [done|]. simpl. rewrite zlen_replicate. split; [lia|]. split; [intros; lia|].
    intros p Hp. apply zget_replicate_Some. lia.
  - intros i [] s1 Hi (E & Hlen & Hdone & Htodo). destruct (Hall i) as (e & He); [lia|].
    eapply wp_done; [apply update_partition_run; [|apply Htodo; lia]|].
    { rewrite E. simpl. rewrite Hes. exact He. }
    unfold I. simpl. split; [by rewrite E|]. split; [by rewrite zlen_zset|]. split.
    + intros p Hp. destruct (decide (p = i)) as [->|].
      * exists e. eexists. split; [done|]. split; [apply zget_zset_eq; lia|]. done.
      * rewrite zget_zset_ne by congruence. apply Hdone. lia.
    + intros p Hp. rewrite zget_zset_ne by lia. apply Htodo. lia.
  - intros [] s' (E & Hlen & Hdone & _). rewrite E. split; simpl; try done. intros p Hp. apply Hdone. lia.
Qed.

Lemma setup_partitions_run s :
  ip_entry s = replicate (Z.to_nat TOC_ENTRIES) zero_entry -> 0 <= ip_enabled_hosts s < 512 ->
  exists s' n es, setup_partitions false first_base s = Done 0 s' /\ laid_out s s' n es /\ 0 <= n /\
    (forall pid, 0 <= pid < IPCMEM_NUM_HOSTS -> Z.testbit (ip_enabled_hosts s) IPCMEM_APPS = true ->
       Z.testbit (ip_enabled_hosts s) pid = true -> exists p, entry_at es n pid p).
Proof.
  intros Hz Hm. destruct (fill_entries_spec _ Hm) as (b & n & es & E & Hn & Hplaces & Hpairs).
  unfold setup_partitions. rewrite (bind_run get _ s s s) by done.
  assert (on_toc (fill_entries (ip_enabled_hosts s) first_base) s = Done (b, n) (s <| ip_entry := es |>)) as Et.
  { unfold on_toc. rewrite (bind_run get _ s s s) by done. by rewrite Hz, E. }
  rewrite (bind_run _ _ _ _ _ Et). cbn [snd]. rewrite (bind_run (modifyM _) _ _ tt _) by done.
  assert (forall p, 0 <= p < n -> exists e, zget es p = Some e) as Hex
    by (intros p Hp; destruct (Hplaces p Hp) as (e & He & _); by exists e).
  assert (ip_entry (s <| ip_entry := es |>) = es) as Hes by done.
  destruct (wp_inv _ _ _ (update_partitions_run _ n es (proj1 Hn) Hes Hex)) as ([] & s1 & E1 & H1).
  rewrite (bind_run _ _ _ _ _ E1). rewrite (bind_run (modifyM _) _ _ tt _) by done.
  eexists _, n, es. split; [done|]. split; [|split; [lia|done]]. destruct H1. by split.
Qed.

(** Finding the partition of a channel. *)
Lemma partition_hdr_run s n es pid p0 :
  ip_entry s = es -> ip_partitions s = n -> entry_at es n pid p0 ->
  exists p, get_ipcmem_partition_hdr IPCMEM_APPS pid s = Done (Some p) s /\ entry_at es n pid p.
Proof.
  intros He Hn (Hp0 & e0 & E0 & H0 & H1). unfold get_ipcmem_partition_hdr. rewrite (bind_run get _ s s s) by done.
  set (mine := fun p => match zget (ip_entry s) p with
    | Some e => (pe_host0 e =? IPCMEM_APPS) && (pe_host1 e =? pid) | None => false end).
  rewrite Hn. destruct (scan_spec (Z.to_nat n) 0 mine) as (Hb & Hbefore & Hhere).
  assert (scan (Z.to_nat n) 0 mine < n) as Hlt.
  { assert (mine p0 = true) as Hm by (unfold mine; by rewrite He, E0, H0, H1, !Z.eqb_refl).
    destruct (Z_lt_le_dec (scan (Z.to_nat n) 0 mine) n); [done|]. by rewrite Hbefore in Hm by lia. }
  destruct (Z.ltb_spec (scan (Z.to_nat n) 0 mine) n); [|lia].
  eexists. split; [done|]. split; [lia|]. specialize (Hhere ltac:(lia)).
  set (r := scan (Z.to_nat n) 0 mine) in *. clearbody r. unfold mine in Hhere. rewrite He in Hhere.
  destruct (zget es r) as [e|]; [|done]. exists e. split; [done|].
  by apply andb_true_iff in Hhere as [?%Z.eqb_eq ?%Z.eqb_eq].
Qed.

(** ** Initialisation: channels *)

Definition good_irq (i : Z) : irq_node := mk_irq_node false 0 (inl i) 0 0.

(** A node of the device tree with all six signals, and no failure on the way. *)
Definition good_node (pid : Z) : channel_node :=
  mk_channel_node false 0 (inl pid) false (map good_irq [0; 1; 2; 3; 4; 5]).

(** [s] with this channel [pid] and this partition [p]. *)
Definition put_link (s : ipclite_info) (p pid : Z) (c : ipclite_channel) (pt : ipcmem_partition) : ipclite_info :=
  (s <| ip_channel ::= zset pid c |>) <| ip_partition ::= zset p pt |>.

Section put_link.
Context (s : ipclite_info) (p pid : Z) (c : ipclite_channel) (pt : ipcmem_partition).
Hypothesis (Hpid : 0 <= pid < zlen (ip_channel s)) (Hp : 0 <= p < zlen (ip_partition s)).

Lemma put_channel : zget (ip_channel (put_link s p pid c pt)) pid = Some c.
Proof. simpl. by apply zget_zset_eq. Qed.

Lemma put_partition : zget (ip_partition (put_link s p pid c pt)) p = Some pt.
Proof. simpl. by apply zget_zset_eq. Qed.

Lemma put_update g : update_channel pid g (put_link s p pid c pt) = Done tt (put_link s p pid (g c) pt).
Proof.
  rewrite (update_channel_run _ _ _ _ put_channel). f_equal. destruct s. unfold put_link. simpl. by rewrite zset_zset.
Qed.

Lemma put_desc i v w :
  zget (pt_descs pt) i = Some w ->
  desc_write p i v (put_link s p pid c pt) = Done tt (put_link s p pid c (pt <| pt_descs ::= zset i v |>)).
Proof.
  intros Hi. rewrite (desc_write_run _ _ _ _ _ _ put_partition Hi). f_equal. destruct s. unfold put_link. simpl.
  by rewrite zset_zset.
Qed.

Lemma put_irq i x g :
  zget (ch_irq_info c) i = Some x ->
  irq_set pid i g (put_link s p pid c pt) = Done tt (put_link s p pid (c <| ch_irq_info ::= zset i (g x) |>) pt).
Proof.
  intros Hi. unfold irq_set. rewrite (bind_run _ _ _ _ _ (the_channel_run _ _ _ put_channel)), Hi. cbn [deref].
  rewrite (bind_run (ret x) _ (put_link s p pid c pt) x (put_link s p pid c pt)) by done. by rewrite put_update.
Qed.

Lemma put_gstatus v :
  ch_gstatus_ptr c = Some p ->
  set_gstatus pid v (put_link s p pid c pt)
  = Done tt (put_link s p pid c (pt <| pt_hdr ::= fun h => h <| ph_status ::= fun _ => v |> |>)).
Proof.
  intros Hg. unfold set_gstatus. rewrite (bind_run _ _ _ _ _ (the_channel_run _ _ _ put_channel)), Hg. cbn [deref].
  rewrite (bind_run (ret p) _ (put_link s p pid c pt) p (put_link s p pid c pt)) by done.
  unfold atomic_status, bind at 1 2, get. rewrite put_partition. cbn. destruct s. simpl. unfold put_link. simpl.
  by rewrite zset_zset.
Qed.
End put_link.

Lemma put_same s p pid c pt :
  zget (ip_channel s) pid = Some c -> zget (ip_partition s) p = Some pt -> s = put_link s p pid c pt.
Proof. intros Hc Hp. destruct s. unfold put_link. simpl in *. by rewrite !zset_id. Qed.

Lemma put_moves s p pid c pt : moves p pid [] s (put_link s p pid c pt).
Proof.
  split; simpl; try done.
  - intros j Hj. by rewrite zget_zset_ne.
  - apply zlen_zset.
  - intros j Hj. by rewrite zget_zset_ne.
  - by rewrite app_nil_r.
Qed.

(** One signal. *)
Lemma irq_init_run s p pid c pt i x :
  0 <= pid < zlen (ip_channel s) -> 0 <= p < zlen (ip_partition s) -> zget (ch_irq_info c) i = Some x ->
  ipclite_channel_irq_init pid (good_irq i) (put_link s p pid c pt)
  = Done 0 (put_link s p pid (c <| ch_irq_info ::= zset i (mk_irq true i) |>) pt).
Proof.
  intros Hpid Hp Hi. unfold ipclite_channel_irq_init. cbn [good_irq in_no_memory in_register in_index in_mbox in_irq].
  change (negb (0 =? 0)) with false. cbv iota. rewrite (bind_run _ _ _ _ _ (put_irq _ _ _ _ _ Hpid Hp i x _ Hi)).
  set (x1 := mk_irq true (ir_signal_id x)). set (c1 := c <| ch_irq_info ::= zset i x1 |>).
  assert (zget (ch_irq_info c1) i = Some x1) as H1 by (apply zget_zset_eq; by eapply zget_Some).
  change (put_link s p pid _ pt) with (put_link s p pid c1 pt) at 1.
  rewrite (bind_run _ _ _ _ _ (put_irq _ _ _ _ _ Hpid Hp i x1 _ H1)).
  unfold ret. f_equal. f_equal. destruct c. unfold c1. simpl. by rewrite zset_zset.
Qed.

Lemma irqs_init_run s p pid c pt :
  0 <= pid < zlen (ip_channel s) -> 0 <= p < zlen (ip_partition s) -> ch_irq_info c = ch_irq_info zero_channel ->
  irqs_init pid (map good_irq [0; 1; 2; 3; 4; 5]) (put_link s p pid c pt)
  = Done 0 (put_link s p pid (c <| ch_irq_info := map (mk_irq true) [0; 1; 2; 3; 4; 5] |>) pt).
Proof.
  intros Hpid Hp Hi.
  assert (forall i c1 ns x r, zget (ch_irq_info c1) i = Some x ->
    irqs_init pid ns (put_link s p pid (c1 <| ch_irq_info ::= zset i (mk_irq true i) |>) pt) = r ->
    irqs_init pid (good_irq i :: ns) (put_link s p pid c1 pt) = r) as Hstep.
  { intros i c1 ns x r Hx Hr. cbn [irqs_init]. by rewrite (bind_run _ _ _ _ _ (irq_init_run _ _ _ _ _ i x Hpid Hp Hx)). }
  destruct c as [? ? ? ? irqs ? ?]. simpl in Hi. subst irqs. cbn [map].
  do 6 (eapply Hstep; [vm_compute; reflexivity|]). done.
Qed.

Definition init_status (pid : Z) : Z := if pid =? IPCMEM_APPS then ACTIVE else IN_PROGRESS.

Definition init_link (pid : Z) : link := mk_link [] [] (pid =? IPCMEM_APPS).

(** An empty ring. *)
Lemma empty_ring pt f :
  0 <= fi_fifo f -> fi_fifo f + fi_length f <= zlen (pt_mem pt) -> fi_length f = DEFAULT_FIFO0_SIZE ->
  fi_tail f <> fi_head f -> zget (pt_descs pt) (fi_tail f) = Some 0 -> zget (pt_descs pt) (fi_head f) = Some 0 ->
  ring_at pt f 0 [].
Proof.
  intros ? ? Hl ? ? ?. unfold DEFAULT_FIFO0_SIZE in Hl. split; rewrite ?Hl in *; try done.
  intros k d Hk. apply zget_Some in Hk. change (zlen []) with 0 in Hk. lia.
Qed.

#[local] Transparent zero_partition.

Lemma zero_descs i : 0 <= i < 768 -> zget (pt_descs zero_partition) i = Some 0.
Proof. intros Hi. apply zget_replicate_Some. exact Hi. Qed.

Lemma zero_mem : zlen (pt_mem zero_partition) = DEFAULT_PARTITION_SIZE.
Proof. apply zlen_replicate. Qed.

#[local] Opaque zero_partition.

(** The rings the local host gets. *)
Definition my_fifos (p pid : Z) : ipclite_fifo * ipclite_fifo :=
  if pid =? IPCMEM_APPS then (mk_fifo p DEFAULT_FIFO0_SIZE 2 3 DEFAULT_FIFO0_OFFSET, mk_fifo p DEFAULT_FIFO0_SIZE 2 3 DEFAULT_FIFO0_OFFSET)
  else (mk_fifo p DEFAULT_FIFO0_SIZE 0 1 DEFAULT_FIFO0_OFFSET, mk_fifo p DEFAULT_FIFO1_SIZE 2 3 DEFAULT_FIFO1_OFFSET).

Definition init_channel (p pid : Z) : ipclite_channel :=
  mk_channel pid (Some (my_fifos p pid).1) (Some (my_fifos p pid).2) false (map (mk_irq true) [0; 1; 2; 3; 4; 5])
    (Some p) (init_status pid).

Lemma init_at_link s p pid pt :
  0 <= pid < zlen (ip_channel s) -> 0 <= p < zlen (ip_partition s) -> pt_descs pt = pt_descs zero_partition ->
  pt_mem pt = pt_mem zero_partition -> ph_status (pt_hdr pt) = init_status pid ->
  at_link (put_link s p pid (init_channel p pid) pt) p pid (init_channel p pid) (init_link pid).
Proof.
  intros Hpid Hp Hd Hm Hst.
  assert (forall f, fi_part f = p -> fi_length f = DEFAULT_FIFO0_SIZE -> fi_tail f <> fi_head f -> 0 <= fi_tail f < 768 ->
    0 <= fi_head f < 768 -> 0 <= fi_fifo f -> fi_fifo f + fi_length f <= DEFAULT_PARTITION_SIZE ->
    ring_is (put_link s p pid (init_channel p pid) pt) f []) as Hring.
  { intros f <- ? ? ? ? ? ?. exists pt, 0. split; [by apply put_partition|].
    apply empty_ring; try done; [by rewrite Hm, zero_mem|by rewrite Hd, zero_descs..]. }
  split; try done.
  - by apply put_channel.
  - exists (my_fifos p pid).1, (my_fifos p pid).2. do 2 (split; [done|]). unfold wiring, my_fifos, init_link.
    destruct (pid =? IPCMEM_APPS); cbn [fst snd lk_out lk_in]; (split; [|by split; apply Hring]).
    + done.
    + do 4 (split; [done|]). right. cbn. unfold DEFAULT_FIFO0_OFFSET, DEFAULT_FIFO0_SIZE, DEFAULT_FIFO1_OFFSET. lia.
  - unfold init_channel, init_status. simpl. destruct (pid =? IPCMEM_APPS); auto.
  - exists pt. split; [by apply put_partition|]. rewrite Hst. unfold init_link, init_channel, init_status. simpl.
    by destruct (pid =? IPCMEM_APPS).
Qed.

(** The initialisation of one channel. *)
Lemma channel_init_run s p pid e pt :
  zget (ip_channel s) pid = Some zero_channel -> get_ipcmem_partition_hdr IPCMEM_APPS pid s = Done (Some p) s ->
  zget (ip_partition s) p = Some pt -> fresh_part e pt -> hosts_of e = (IPCMEM_APPS, pid) ->
  exists pt', ipclite_channel_init (good_node pid) s = Done 0 (put_link s p pid (init_channel p pid) pt') /\
              at_link (put_link s p pid (init_channel p pid) pt') p pid (init_channel p pid) (init_link pid).
Proof.
  intros Hc Hpart Hp (Hh & Hd & Hm) He. injection He as Hh0 Hh1. rewrite Hh0, Hh1 in Hh.
  assert (0 <= pid < zlen (ip_channel s)) as Hpid by (by eapply zget_Some).
  assert (0 <= p < zlen (ip_partition s)) as Hpr by (by eapply zget_Some).
  set (pt' := pt <| pt_hdr ::= fun h => h <| ph_status ::= fun _ => init_status pid |> |>). exists pt'.
  split; [|by apply init_at_link].
  unfold ipclite_channel_init, good_node. cbn [cn_no_memory cn_register cn_remote_pid cn_no_fifo cn_signals].
  change (negb (0 =? 0)) with false. cbv iota.
  rewrite (bind_run _ _ _ _ _ Hpart). cbv beta iota. rewrite (bind_run get _ s s s) by done.
  rewrite Hp. cbn [deref]. rewrite (bind_run (ret pt) _ s pt s) by done.
  assert (channel_fifos p IPCMEM_APPS pid (pt_hdr pt) = my_fifos p pid) as ->.
  { rewrite Hh. unfold channel_fifos, my_fifos, IPCMEM_APPS in *. destruct (Z.eqb_spec 0 pid) as [<-|Hne]; [done|].
    destruct (Z.ltb_spec 0 pid); [|lia]. by destruct (Z.eqb_spec pid 0). }
  rewrite (put_same s p pid zero_channel pt Hc Hp) at 1.
  assert (forall i v c1, 0 <= i < 4 -> v = 0 ->
    desc_write p i v (put_link s p pid c1 pt) = Done tt (put_link s p pid c1 pt)) as Hzero.
  { intros i v c1 Hi ->. assert (zget (pt_descs pt) i = Some 0) as Hz by (rewrite Hd; apply zero_descs; lia).
    rewrite (put_desc _ _ _ _ _ Hpid Hpr _ _ _ Hz). f_equal. f_equal. destruct pt. simpl in *. by rewrite zset_id. }
  destruct (my_fifos p pid) as [tx rx] eqn:Ef.
  assert (0 <= fi_tail rx < 4 /\ 0 <= fi_head tx < 4) as [Hrx Htx]
    by (unfold my_fifos in Ef; destruct (pid =? IPCMEM_APPS); injection Ef as <- <-; simpl; lia).
  rewrite (bind_run _ _ _ _ _ (Hzero _ 0 _ Hrx eq_refl)), (bind_run _ _ _ _ _ (Hzero _ 0 _ Htx eq_refl)).
  rewrite (bind_run _ _ _ _ _ (put_update _ _ _ _ _ Hpid Hpr _)).
  match goal with |- context [bind (irqs_init _ _) _ (put_link s p pid ?c1 pt)] =>
    rewrite (bind_run _ _ _ _ _ (irqs_init_run s p pid c1 pt Hpid Hpr eq_refl)) end.
  change (negb (0 =? 0)) with false. cbv iota zeta.
  match goal with |- context [bind (set_gstatus _ _) _ (put_link s p pid ?c1 pt)] =>
    rewrite (bind_run _ _ _ _ _ (put_gstatus s p pid c1 pt Hpid Hpr _ eq_refl)) end.
  rewrite (bind_run _ _ _ _ _ (put_update _ _ _ _ _ Hpid Hpr _)).
  unfold init_channel. by rewrite Ef.
Qed.

(** Freshly initialised channels: empty, and open on the loopback only. *)
Definition init_links (pids : list Z) : links := fun pid => if decide (pid ∈ pids) then Some (init_link pid) else None.

(** The table of partitions is complete, and names the two ends of every channel. *)
Record table_ok (s : ipclite_info) (q : links) : Prop := mk_table_ok {
  to_entries p : 0 <= p < ip_partitions s ->
    exists e pt, zget (ip_entry s) p = Some e /\ zget (ip_partition s) p = Some pt;
  to_mine pid c p : is_Some (q pid) -> zget (ip_channel s) pid = Some c -> ch_gstatus_ptr c = Some p ->
    entry_at (ip_entry s) (ip_partitions s) pid p }.

(** While the channels are initialised: those of [dn] are, the others are untouched. *)
Record building (s : ipclite_info) (n : Z) (es : list ipcmem_partition_entry) (dn : list Z) : Prop := mk_building {
  bd_ok : ipc_ok s (init_links dn);
  bd_entry : ip_entry s = es;
  bd_count : ip_partitions s = n;
  bd_len : zlen (ip_partition s) = n;
  bd_entries p : 0 <= p < n -> exists e, zget es p = Some e;
  bd_fresh p e : 0 <= p < n -> zget es p = Some e -> ~ (pe_host0 e = IPCMEM_APPS /\ pe_host1 e ∈ dn) ->
    exists pt, zget (ip_partition s) p = Some pt /\ fresh_part e pt;
  bd_zero pid : 0 <= pid < IPCMEM_NUM_HOSTS -> pid ∉ dn -> zget (ip_channel s) pid = Some zero_channel;
  bd_mine pid c p : pid ∈ dn -> zget (ip_channel s) pid = Some c -> ch_gstatus_ptr c = Some p -> entry_at es n pid p;
  bd_mutex : ip_ssr_mutex s = false }.

Lemma init_links_cons pid dn j : (<[pid := Some (init_link pid)]> (init_links dn)) j = init_links (pid :: dn) j.
Proof.
  unfold init_links. destruct (decide (j = pid)) as [->|Hj].
  - rewrite fn_lookup_insert. by rewrite decide_True by apply list_elem_of_here.
  - rewrite fn_lookup_insert_ne by congruence. destruct (decide (j ∈ dn)).
    + by rewrite decide_True by (by apply list_elem_of_further).
    + rewrite decide_False; [done|]. by intros [?|?]%elem_of_cons.
Qed.

Lemma init_links_Some dn j : is_Some (init_links dn j) -> j ∈ dn.
Proof. unfold init_links. case_decide; [done|]. by intros [? ?]. Qed.

Lemma build_one s n es dn pid p0 :
  building s n es dn -> 0 <= pid < IPCMEM_NUM_HOSTS -> pid ∉ dn -> entry_at es n pid p0 ->
  exists s', ipclite_channel_init (good_node pid) s = Done 0 s' /\ building s' n es (pid :: dn).
Proof.
  intros Hb Hpid Hnew Hat. pose proof Hb as [Hok He Hcn Hl Hen Hfr Hz Hmine Hmx].
  destruct (partition_hdr_run s n es pid p0 He Hcn Hat) as (p & Ep & Hp). pose proof Hp as (Hpr & e & Hep & Hh0 & Hh1).
  destruct (Hfr p e Hpr Hep) as (pt & Hpt & Hf); [rewrite Hh1; by intros [_ ?]|].
  destruct (channel_init_run s p pid e pt (Hz _ Hpid Hnew) Ep Hpt Hf) as (pt' & E & Hlink); [unfold hosts_of; congruence|].
  exists (put_link s p pid (init_channel p pid) pt'). split; [done|].
  assert (forall j cj, j <> pid -> j ∈ dn -> zget (ip_channel s) j = Some cj -> ch_gstatus_ptr cj <> Some p) as Hother.
  { intros j cj Hj Hjd Hcj Hg. destruct (Hmine _ _ _ Hjd Hcj Hg) as (_ & e' & He' & _ & Hh). congruence. }
  split; try done.
  - eapply ipc_ok_ext; [apply init_links_cons|]. eapply ipc_ok_set; [exact Hok|apply put_moves|exact Hlink|done|].
    intros j cj Hj Hq%init_links_Some. by apply Hother.
  - simpl. by rewrite zlen_zset.
  - intros r er Hr Her Hnot. simpl. destruct (decide (r = p)) as [->|Hrp].
    { destruct Hnot. assert (er = e) as -> by congruence. rewrite Hh1. split; [done|apply list_elem_of_here]. }
    rewrite zget_zset_ne by congruence. apply (Hfr r er Hr Her). intros [? ?]. apply Hnot.
    split; [done|by apply list_elem_of_further].
  - intros j Hj Hjn. simpl. rewrite zget_zset_ne; [apply Hz; [done|]|]; [|intros <-; apply Hjn, list_elem_of_here].
    intros ?. by apply Hjn, list_elem_of_further.
  - intros j cj r Hj. simpl. destruct (decide (j = pid)) as [->|Hjp].
    + rewrite zget_zset_eq by (by rewrite (io_channels _ _ _ Hok)). intros [= <-] [= <-]. done.
    + rewrite zget_zset_ne by congruence. apply elem_of_cons in Hj as [?|Hj]; [done|]. by apply Hmine.
Qed.

Lemma build_all n es todo : forall s dn,
  building s n es dn -> NoDup todo -> (forall pid, pid ∈ todo -> pid ∉ dn) ->
  Forall (fun pid => 0 <= pid < IPCMEM_NUM_HOSTS) todo -> (forall pid, pid ∈ todo -> exists p, entry_at es n pid p) ->
  exists s', channels_init (map good_node todo) 0 s = Done 0 s' /\ building s' n es (rev todo ++ dn).
Proof.
  induction todo as [|pid todo IH]; intros s dn Hb Hnd Hnew Hr Hat; [by exists s|].
  apply NoDup_cons in Hnd as [Hnp Hnd]. apply Forall_cons in Hr as [Hpid Hr].
  destruct (Hat pid (list_elem_of_here _ _)) as (p0 & Hp0).
  destruct (build_one s n es dn pid p0 Hb Hpid (Hnew _ (list_elem_of_here _ _)) Hp0) as (s1 & E1 & Hb1).
  destruct (IH s1 (pid :: dn) Hb1 Hnd) as (s2 & E2 & Hb2); [|done|..].
  { intros j Hj [->|?]%elem_of_cons; [done|]. eapply Hnew; [|done]. by apply list_elem_of_further. }
  { intros j Hj. apply Hat. by apply list_elem_of_further. }
  exists s2. split; [|simpl; by rewrite <- app_assoc]. cbn [map channels_init]. rewrite (bind_run _ _ _ _ _ E1).
  change (0 =? - EPROBE_DEFER) with false. done.
Qed.

Lemma building_table s n es dn : building s n es dn -> table_ok s (init_links dn).
Proof.
  intros [Hok He Hcn Hl Hen _ _ Hmine _]. split.
  - rewrite He, Hcn. intros p Hp. destruct (Hen p Hp) as (e & Hep). exists e.
    destruct (zget_is_Some (ip_partition s) p) as (pt & ?); [lia|]. by exists pt.
  - rewrite He, Hcn. intros pid c p Hq%init_links_Some. by apply Hmine.
Qed.

Lemma ipc_ok_quiet s s' q :
  ip_channel s' = ip_channel s -> ip_partition s' = ip_partition s -> ipc_ok s q -> ipc_ok s' q.
Proof.
  intros Ec Ep [Hn Hl Hi Ha]. split; rewrite ?Ec; try done. intros pid k HD Hq.
  destruct (Hl pid k HD Hq) as (p & c & H & ?). exists p, c. split; [|done].
  eapply at_link_local; [| |exact H]; by rewrite ?Ec, ?Ep.
Qed.


(** The state after the partitions are set up. *)
Lemma partitions_building s0 s n es :
  laid_out s0 s n es -> ip_channel s0 = replicate (Z.to_nat IPCMEM_NUM_HOSTS) zero_channel -> ip_ssr_mutex s0 = false ->
  building s n es [].
Proof.
  intros [He Hcn Hl Hf Hc _ Hmx] Hc0 Hm0. rewrite Hc0 in Hc. rewrite Hm0 in Hmx.
  assert (forall pid, 0 <= pid < IPCMEM_NUM_HOSTS -> zget (ip_channel s) pid = Some zero_channel) as Hz.
  { intros pid Hpid. rewrite Hc. apply zget_replicate_Some. unfold IPCMEM_NUM_HOSTS in *. lia. }
  split; try done.
  - split.
    + rewrite Hc. apply zlen_replicate.
    + intros pid k _ Hq. unfold init_links in Hq. case_decide as Hd; [by apply elem_of_nil in Hd|done].
    + intros pid _ Hpid _. exists zero_channel. split; [by apply Hz|done].
    + intros j1 j2 c1 c2 p _ Hq%init_links_Some. by apply elem_of_nil in Hq.
  - intros p Hp. destruct (Hf p Hp) as (er & pt & ? & ? & ?). by exists er.
  - intros p er Hp Her _. destruct (Hf p Hp) as (e' & pt & He' & Hpt & Hfr). exists pt. split; [done|].
    by assert (er = e') as -> by congruence.
  - intros pid Hpid _. by apply Hz.
  - intros pid c p Hd. by apply elem_of_nil in Hd.
Qed.

(** The initialisation establishes the invariant that everything else relies on: for
    any set of processors in the device tree that includes the local one, it returns with
    every channel wired to a partition of its own, empty, closed but for the loopback. *)
Theorem init_establishes_ok e pids :
  NoDup pids -> Forall (fun pid => 0 <= pid < IPCMEM_NUM_HOSTS) pids -> IPCMEM_APPS ∈ pids ->
  exists r s', ipclite_init_channels false pids (map good_node pids) (zero_info e) = Done r s' /\
               ipc_ok s' (init_links pids) /\ table_ok s' (init_links pids) /\ ip_ssr_mutex s' = false.
Proof.
  intros Hnd Hr Happs. destruct (enabled_hosts_bits pids Hr) as [Hm Hbits]. set (m := enabled_hosts_of pids) in *.
  set (s1 := (((((zero_info e) <| ip_enabled_hosts := m |>) <| ip_hwlock_owner := IPCMEM_INVALID_HOST |>)
    <| ip_configured_host := m |>)
    <| ip_global_entry := mk_entry IPCMEM_TOC_SIZE GLOBAL_PARTITION_SIZE GLOBAL_PARTITION_FLAGS
                            IPCMEM_GLOBAL_HOST IPCMEM_GLOBAL_HOST |>) <| ip_global_hdr := global_partition_hdr |>).
  destruct (setup_partitions_run s1 eq_refl Hm) as (s2' & n & es & E2 & Hlaid' & Hn & Hpairs).
  set (s2 := s2' <| ip_init_done := IPCMEM_INIT_COMPLETED |>).
  assert (laid_out s1 s2 n es) as Hlaid by (destruct Hlaid'; by split).
  assert (ipcmem_init false pids (zero_info e) = Done 0 s2) as Ei.
  { unfold ipcmem_init, setup_global_partition. rewrite !(bind_run (modifyM _) _ _ tt _) by done.
    rewrite (bind_run _ _ _ _ _ E2). done. }
  destruct (build_all n es pids s2 [] (partitions_building _ _ _ _ Hlaid eq_refl eq_refl) Hnd) as (s3 & E3 & Hb); [|done|..].
  { by intros ? _ ?%elem_of_nil. }
  { intros pid Hpid. apply Hpairs; [|by apply Hbits|by apply Hbits]. by eapply Forall_forall in Hr. }
  assert (forall j, init_links (rev pids ++ []) j = init_links pids j) as Eq.
  { intros j. unfold init_links. rewrite app_nil_r. destruct (decide (j ∈ pids)) as [Hj|Hj].
    - rewrite decide_True; [done|]. by apply list_elem_of_In, (proj1 (in_rev _ _)), list_elem_of_In.
    - rewrite decide_False; [done|]. intros Hj'. apply Hj. by apply list_elem_of_In, (proj2 (in_rev _ _)), list_elem_of_In. }
  pose proof (ipc_ok_ext _ _ _ _ Eq (bd_ok _ _ _ _ Hb)) as Hok.
  assert (init_links pids IPCMEM_APPS = Some (init_link IPCMEM_APPS)) as Hq by (unfold init_links; by rewrite decide_True).
  destruct (io_live _ _ _ Hok _ _ I Hq) as (p & c & Hlink & _).
  pose proof (al_channel _ _ _ _ _ Hlink) as Hc.
  unfold ipclite_init_channels. rewrite (bind_run _ _ _ _ _ Ei). change (negb (0 =? 0)) with false. cbv iota.
  rewrite (bind_run _ _ _ _ _ E3). change (0 =? - EPROBE_DEFER) with false. cbv iota.
  rewrite (bind_run _ _ _ _ _ (the_channel_run _ _ _ Hc)).
  destruct (ch_status c =? ACTIVE).
  2: { exists 0, s3. split; [done|]. split; [done|]. split; [|by destruct Hb].
       destruct (building_table _ _ _ _ Hb) as [T1 T2]. split; [done|]. intros j cj r. rewrite <- Eq. apply T2. }
  destruct (mbox_quiet s3 IPCMEM_APPS c IPCLITE_MEM_INIT_SIGNAL Hc) as (r & E4);
    [by apply (link_irq _ _ _ _ _ IPCLITE_MEM_INIT_SIGNAL Hlink)|].
  rewrite (bind_run _ _ _ _ _ E4). set (s4 := mbox_state s3 IPCMEM_APPS IPCLITE_MEM_INIT_SIGNAL) in *.
  assert (ipc_ok s4 (init_links pids) /\ table_ok s4 (init_links pids) /\ ip_ssr_mutex s4 = false) as Hend.
  { split; [by apply (ipc_ok_quiet s3)|]. split; [|by destruct Hb].
    destruct (building_table _ _ _ _ Hb) as [T1 T2]. split; [done|]. intros j cj x. rewrite <- Eq. apply T2. }
  exists r, s4. split; [|done]. destruct (r <? 0); [done|].
  assert (at_link s4 p IPCMEM_APPS c (init_link IPCMEM_APPS)) as H4 by (eapply at_link_local; [| |exact Hlink]; done).
  by rewrite (bind_run _ _ _ _ _ (link_txdone _ _ _ _ _ IPCLITE_MEM_INIT_SIGNAL H4 ltac:(done))).
Qed.

(** ** A concrete system

    Three processors: the local one, number 4 and number 5; a client is registered. *)

Definition quiet_env : ipc_env := mk_ipc_env (fun _ => 0) (fun _ => false).

Definition boot : IPC Z :=
  ipclite_init_channels false [0; 4; 5] (map good_node [0; 4; 5]);;;
  ipclite_register_client_v0 (Some 7) 9.

Definition booted : ipclite_info :=
  match boot (zero_info quiet_env) with Done _ s => s | Faulted _ => zero_info quiet_env end.

Definition booted_links : links := init_links [0; 4; 5].

Lemma booted_ok :
  ipc_ok booted booted_links /\ table_ok booted booted_links /\ ip_ssr_mutex booted = false /\
  ip_synx_client booted = mk_client (Some 7) 9 1.
Proof.
  destruct (init_establishes_ok quiet_env [0; 4; 5]) as (r & s & E & Hok & Ht & Hm).
  { by apply (bool_decide_unpack _). }
  { by repeat constructor. }
  { apply list_elem_of_here. }
  assert (booted = s <| ip_synx_client := mk_client (Some 7) 9 1 |>) as ->
    by (unfold booted, boot; by rewrite (bind_run _ _ _ _ _ E)).
  split; [by apply (ipc_ok_quiet s)|]. split; [|by split].
  destruct Ht as [T1 T2]. split; [exact T1|exact T2].
Qed.

(** The queues of [IpcliteRing] on it. *)

Definition example_ops : list ipc_op :=
  [OpSend 0 11; OpSend 0 12; OpIntr 0; OpSend 4 5; OpReady 4; OpSend 4 6; OpTake 4; OpTake 4; OpPut 4 (2 ^ 64 - 1);
   OpIntr 4; OpSend 9 1; OpSend 3 1].

Lemma channels_refine_queues_witness :
  exists s', run_ipc_ops example_ops booted =
      Done [(0, None); (0, None); (IRQ_HANDLED, None); (- EOPNOTSUPP, None); (0, None); (0, None); (0, Some 6);
            (- EAGAIN, None); (0, None); (IRQ_HANDLED, None); (- EINVAL, None); (- EOPNOTSUPP, None)] s' /\
    ip_events s' = ip_events booted ++
      [Mbox 0 0; Mbox 0 0; Client_callback 7 0 11 9; Client_callback 7 0 12 9; Mbox 4 0; Client_callback 7 4 (- 1) 9].
Proof.
  destruct booted_ok as (Hok & _ & _ & Hcl).
  destruct (channels_refine_queues booted booted_links example_ops Hok) as (s' & E & _ & Hev).
  - assert (is_Some (booted_links 0)) as H0 by (eexists; vm_compute; reflexivity).
    assert (is_Some (booted_links 4)) as H4 by (eexists; vm_compute; reflexivity).
    unfold example_ops. repeat first [apply Forall_nil_2 | apply Forall_cons_2]; cbn [ipc_op_wf];
      first [exact H0 | exact H4 | unfold in_u64; lia | split; [exact H4|unfold in_u64; lia]].
  - exists s'. rewrite E, Hev, Hcl. split; vm_compute; reflexivity.
Defined.
