(* ===== verification/IpcliteRecover.v ===== *)
(** * ipclite: recovery from a processor that stopped

    [ipclite_recover_v0] of [msm/synx/ipclite.c]: the partitions of the processor are
    closed, the local ends of its rings reset, its channel reopened, and the others told;
    the atomic operations take the hardware lock when they can have it. *)
From stdpp Require Import functions.
From S2P Require Import Prelude SynxGlobal SynxKeeps Ipclite IpcliteRing IpcliteInit.
From Stdlib Require Import Lia.

(** ** Recovery *)

(** The hardware lock between two atomic operations: not ours, and free if it was. *)
Definition lock_kept (s s' : ipclite_info) : Prop :=
  (ip_hwlock_owner s' = ip_hwlock_owner s \/ ip_hwlock_owner s' = IPCMEM_INVALID_HOST) /\
  (ip_hwlock s = false -> ip_hwlock s' = false).

(** What the atomic operations on a status leave alone: all but partitions and lock. *)
Record calm (s s' : ipclite_info) : Prop := mk_calm {
  cm_channel : ip_channel s' = ip_channel s;
  cm_entry : ip_entry s' = ip_entry s;
  cm_count : ip_partitions s' = ip_partitions s;
  cm_enabled : ip_enabled_hosts s' = ip_enabled_hosts s;
  cm_mutex : ip_ssr_mutex s' = ip_ssr_mutex s;
  cm_lock : lock_kept s s' }.

Lemma calm_refl s : calm s s.
Proof. split; try done. split; [by left|done]. Qed.

Lemma calm_trans s1 s2 s3 : calm s1 s2 -> calm s2 s3 -> calm s1 s3.
Proof.
  intros [H1 H2 H3 H4 H5 [H6 H7]] [I1 I2 I3 I4 I5 [I6 I7]]. split; try congruence. split; [|auto].
  destruct I6 as [->| ->]; auto.
Qed.

Lemma calm_unowned s s' : calm s s' -> ip_hwlock_owner s <> IPCMEM_APPS -> ip_hwlock_owner s' <> IPCMEM_APPS.
Proof. intros H Ho. destruct (cm_lock _ _ H) as [[->| ->] _]; [done|discriminate]. Qed.

Lemma release_run s :
  exists s', ATOMIC_HW_MUTEX_RELEASE s = Done tt s' /\ ip_partition s' = ip_partition s /\ ip_channel s' = ip_channel s /\
    rest s' = (ip_entry s, ip_partitions s, ip_enabled_hosts s,
      if negb (flag (ip_feature_mask s) IPCLITE_GLOBAL_ATOMIC) && (ip_hwlock_owner s =? IPCMEM_APPS) then false else ip_hwlock s,
      if negb (flag (ip_feature_mask s) IPCLITE_GLOBAL_ATOMIC) && (ip_hwlock_owner s =? IPCMEM_APPS) then IPCMEM_INVALID_HOST
      else ip_hwlock_owner s, ip_ssr_mutex s).
Proof.
  unfold ATOMIC_HW_MUTEX_RELEASE. rewrite (bind_run get _ s s s) by done. destruct (flag _ _); [by exists s|].
  unfold ipclite_hw_mutex_release. rewrite bind_assoc, (bind_run get _ s s s) by done.
  destruct (ip_hwlock_owner s =? IPCMEM_APPS); by eexists.
Qed.

(** An atomic operation on the status of [p], with the lock taken if it can be had. *)
Lemma atomic_run s p pt g :
  zget (ip_partition s) p = Some pt -> ip_hwlock_owner s <> IPCMEM_APPS ->
  exists s1 s2 s3,
    ATOMIC_HW_MUTEX_ACQUIRE s = Done tt s1 /\ atomic_status p g s1 = Done (ph_status (pt_hdr pt)) s2 /\
    ATOMIC_HW_MUTEX_RELEASE s2 = Done tt s3 /\ calm s s3 /\
    ip_partition s3 = zset p (pt <| pt_hdr ::= fun h => h <| ph_status ::= g |> |>) (ip_partition s).
Proof.
  intros Hp Ho. set (pt' := pt <| pt_hdr ::= fun h => h <| ph_status ::= g |> |>).
  assert (forall s1, ip_partition s1 = ip_partition s ->
    atomic_status p g s1 = Done (ph_status (pt_hdr pt)) (s1 <| ip_partition ::= zset p pt' |>)) as Hst.
  { intros s1 E. unfold atomic_status. rewrite (bind_run get _ s1 s1 s1) by done. rewrite E, Hp. done. }
  unfold ATOMIC_HW_MUTEX_ACQUIRE. rewrite (bind_run get _ s s s) by done.
  destruct (flag (ip_feature_mask s) IPCLITE_GLOBAL_ATOMIC) eqn:Ef.
  { destruct (release_run (s <| ip_partition ::= zset p pt' |>)) as (s3 & E3 & Ep & Ec & Er).
    exists s, (s <| ip_partition ::= zset p pt' |>), s3. split; [done|]. split; [by apply Hst|]. split; [done|].
    simpl in Er. rewrite Ef in Er. injection Er as ? ? ? Hl Hw ?. split; [|done]. split; try done. by split; [left|rewrite Hl]. }
  unfold ipclite_hw_mutex_acquire. rewrite bind_assoc. set (s0 := s <| ip_asked ::= Z.succ |>).
  rewrite (bind_run ipc_ask _ s (ip_asked s) s0) by done. rewrite bind_assoc, (bind_run get _ s0 s0 s0) by done.
  destruct (ip_hwlock s0 || ie_lock_busy (ip_env s0) (ip_asked s)) eqn:Eb.
  - destruct (release_run (s0 <| ip_partition ::= zset p pt' |>)) as (s3 & E3 & Ep & Ec & Er).
    exists s0, (s0 <| ip_partition ::= zset p pt' |>), s3. split; [done|]. split; [by apply Hst|]. split; [done|].
    simpl in Er. rewrite (proj2 (Z.eqb_neq _ _) Ho), andb_false_r in Er. injection Er as ? ? ? Hl Hw ?.
    split; [|done]. split; try done. by split; [left|rewrite Hl].
  - set (s1 := (s0 <| ip_hwlock := true |>) <| ip_hwlock_owner := IPCMEM_APPS |>).
    destruct (release_run (s1 <| ip_partition ::= zset p pt' |>)) as (s3 & E3 & Ep & Ec & Er).
    exists s1, (s1 <| ip_partition ::= zset p pt' |>), s3. split; [done|]. split; [by apply Hst|]. split; [done|].
    simpl in Er. rewrite Ef in Er. simpl in Er. injection Er as ? ? ? Hl Hw ?.
    split; [|done]. split; try done. by split; [right|rewrite Hl].
Qed.

Definition with_status (v : Z) (pt : ipcmem_partition) : ipcmem_partition :=
  pt <| pt_hdr ::= fun h => h <| ph_status ::= fun _ => v |> |>.

Lemma store_run s p pt :
  zget (ip_partition s) p = Some pt -> ip_hwlock_owner s <> IPCMEM_APPS ->
  exists s', ipclite_global_atomic_store_i32 p 0 s = Done tt s' /\ calm s s' /\
             ip_partition s' = zset p (with_status 0 pt) (ip_partition s).
Proof.
  intros Hp Ho. destruct (atomic_run s p pt (fun _ => 0) Hp Ho) as (s1 & s2 & s3 & E1 & E2 & E3 & Hc & Hpt).
  exists s3. split; [|done]. unfold ipclite_global_atomic_store_i32.
  by rewrite (bind_run _ _ _ _ _ E1), (bind_run _ _ _ _ _ E2).
Qed.

Lemma inc_run s p pt :
  zget (ip_partition s) p = Some pt -> ip_hwlock_owner s <> IPCMEM_APPS -> ph_status (pt_hdr pt) = 0 ->
  exists r s', ipclite_global_atomic_inc p s = Done r s' /\ calm s s' /\
               ip_partition s' = zset p (with_status 1 pt) (ip_partition s).
Proof.
  intros Hp Ho Hz. destruct (atomic_run s p pt (fun x => u32 (x + 1)) Hp Ho) as (s1 & s2 & s3 & E1 & E2 & E3 & Hc & Hpt).
  eexists _, s3. split.
  - unfold ipclite_global_atomic_inc. by rewrite (bind_run _ _ _ _ _ E1), (bind_run _ _ _ _ _ E2), (bind_run _ _ _ _ _ E3).
  - split; [done|]. rewrite Hpt. f_equal. unfold with_status. destruct pt as [h ? ?]. simpl in *. by rewrite Hz.
Qed.

(** Whether a partition belongs to a processor. *)
Definition touches (core_id : Z) (e : ipcmem_partition_entry) : bool :=
  (pe_host0 e =? core_id) || (pe_host1 e =? core_id).

Definition closed_as (core_id : Z) (e : ipcmem_partition_entry) (pt : ipcmem_partition) : ipcmem_partition :=
  if touches core_id e then with_status 0 pt else pt.

(** The first [i] partitions are done. *)
Definition closing (core_id : Z) (s : ipclite_info) (i : Z) (s' : ipclite_info) : Prop :=
  calm s s' /\
  forall p e pt, 0 <= p < ip_partitions s -> zget (ip_entry s) p = Some e -> zget (ip_partition s) p = Some pt ->
    zget (ip_partition s') p = Some (if p <? i then closed_as core_id e pt else pt).

Lemma closing_next core_id s i s1 e pt :
  closing core_id s i s1 -> ip_hwlock_owner s <> IPCMEM_APPS -> 0 <= i < ip_partitions s ->
  zget (ip_entry s) i = Some e -> zget (ip_partition s) i = Some pt ->
  wp (if negb (pe_host0 e =? core_id) && negb (pe_host1 e =? core_id) then ret tt
      else ipclite_global_atomic_store_i32 i 0) (fun _ => closing core_id s (i + 1)) s1.
Proof.
  intros [Hc Hs1] Ho Hi He Hpt. rewrite <- negb_orb. fold (touches core_id e).
  pose proof (Hs1 i e pt Hi He Hpt) as Hpt1. destruct (Z.ltb_spec i i); [lia|].
  assert (forall s', (forall r, r <> i -> zget (ip_partition s') r = zget (ip_partition s1) r) ->
    zget (ip_partition s') i = Some (closed_as core_id e pt) -> calm s s' -> closing core_id s (i + 1) s') as Hend.
  { intros s' Hother Hhere Hcalm. split; [done|]. intros r er rt Hr Her Hrt. destruct (decide (r = i)) as [->|Hri].
    - destruct (Z.ltb_spec i (i + 1)); [congruence|lia].
    - rewrite Hother by done. rewrite (Hs1 r er rt Hr Her Hrt).
      by destruct (Z.ltb_spec r i), (Z.ltb_spec r (i + 1)); try lia. }
  unfold closed_as in Hend. destruct (touches core_id e); cbn [negb].
  - destruct (store_run s1 i pt Hpt1 (calm_unowned _ _ Hc Ho)) as (s2 & E2 & Hc2 & Hp2). eapply wp_done; [exact E2|].
    apply Hend; rewrite ?Hp2; [intros r Hr; by rewrite zget_zset_ne|apply zget_zset_eq; by eapply zget_Some|].
    by eapply calm_trans.
  - apply wp_ret. by apply Hend.
Qed.

(** Every partition of the processor is closed, and no other changes. *)
Lemma close_partitions_run s core_id :
  ip_hwlock_owner s <> IPCMEM_APPS ->
  (forall p, 0 <= p < ip_partitions s -> exists e pt, zget (ip_entry s) p = Some e /\ zget (ip_partition s) p = Some pt) ->
  exists s', close_partitions_of core_id s = Done tt s' /\ calm s s' /\
    (forall p e pt, 0 <= p < ip_partitions s -> zget (ip_entry s) p = Some e -> zget (ip_partition s) p = Some pt ->
       zget (ip_partition s') p = Some (closed_as core_id e pt)).
Proof.
  intros Ho Hall. unfold close_partitions_of. rewrite (bind_run get _ s s s) by done.
  match goal with |- exists s', ?m s = _ /\ _ =>
    assert (wp m (fun _ => closing core_id s (0 + Z.of_nat (Z.to_nat (ip_partitions s)))) s) as Hw end.
  { apply (wp_for_n (fun i _ => closing core_id s i)).
    - split; [apply calm_refl|]. intros p e pt Hp _ Hpt. by destruct (Z.ltb_spec p 0); [lia|].
    - intros i [] s1 Hi Hs1. destruct (Hall i) as (e & pt & He & Hpt); [lia|]. pose proof Hs1 as [Hc _].
      apply wp_bind, wp_get. rewrite (cm_entry _ _ Hc), He. apply wp_bind. eapply wp_deref; [done|].
      eapply closing_next; [done..| |done|done]. lia. }
  destruct (wp_inv _ _ _ Hw) as ([] & s' & E & Hc & Hs'). exists s'. split; [done|]. split; [done|].
  intros p e pt Hp He Hpt. rewrite (Hs' p e pt Hp He Hpt). by destruct (Z.ltb_spec p (0 + Z.of_nat (Z.to_nat (ip_partitions s)))); [|lia].
Qed.

Definition others (core_id pid : Z) : Prop := pid <> core_id.

(** The channels of [D] depend on their structures and partitions. *)
Lemma ipc_ok_on_local D s s' q :
  ipc_ok s q -> zlen (ip_channel s') = zlen (ip_channel s) ->
  (forall j, D j -> zget (ip_channel s') j = zget (ip_channel s) j) ->
  (forall j p c, D j -> is_Some (q j) -> zget (ip_channel s) j = Some c -> ch_gstatus_ptr c = Some p ->
     zget (ip_partition s') p = zget (ip_partition s) p) ->
  (forall j c c', zget (ip_channel s) j = Some c -> zget (ip_channel s') j = Some c' -> ch_gstatus_ptr c' = ch_gstatus_ptr c) ->
  ipc_ok_on D s' q.
Proof.
  intros [Hn Hl Hi Ha] En Ec Ep Eptr.
  assert (forall j c', zget (ip_channel s') j = Some c' -> exists c, zget (ip_channel s) j = Some c) as Hback.
  { intros j c' Hc'. apply zget_is_Some. rewrite <- En. by eapply zget_Some. }
  split; [by rewrite En|..].
  - intros pid k HD Hq. destruct (Hl pid k I Hq) as (p & c & H & ?). exists p, c. split; [|done].
    eapply at_link_local; [by apply Ec| |exact H]. eapply Ep; [done|by rewrite Hq|apply H|apply H].
  - intros pid HD Hpid Hq. rewrite Ec by done. by apply Hi.
  - intros j1 j2 c1 c2 p Hj Hq1 Hq2 Hc1 Hc2 Hp. destruct (Hback _ _ Hc1) as (d1 & Hd1). destruct (Hback _ _ Hc2) as (d2 & Hd2).
    rewrite (Eptr _ _ _ Hd2 Hc2). rewrite (Eptr _ _ _ Hd1 Hc1) in Hp. by apply (Ha j1 j2 d1 d2 p).
Qed.

Lemma reset_hw_mutex_run s core_id :
  exists s', reset_hw_mutex core_id s = Done tt s' /\ calm s s' /\ ip_partition s' = ip_partition s /\
    (ip_hwlock_owner s = core_id -> ip_hwlock s' = false /\ ip_hwlock_owner s' = IPCMEM_INVALID_HOST).
Proof.
  unfold reset_hw_mutex. rewrite (bind_run get _ s s s) by done. destruct (Z.eqb_spec core_id (ip_hwlock_owner s)).
  - eexists. split; [done|]. split; [|done]. split; try done. by split; [right|].
  - exists s. split; [done|]. split; [apply calm_refl|]. split; [done|]. intros ?. congruence.
Qed.

(** A word that is zero stays so when words are cleared. *)
Lemma zset_zero l i j : zget l i = Some 0 -> zget (zset j 0 l) i = Some 0.
Proof. intros Hi. rewrite zget_zset. by case_decide. Qed.

Lemma zset_some {A} (l : list A) i j x w : zget l i = Some w -> exists w', zget (zset j x l) i = Some w'.
Proof. intros Hi. rewrite zget_zset. case_decide; eauto. Qed.

(** The descriptors after both sides cleared their ends of the rings. *)
Definition cleared (l : list Z) (tx rx : ipclite_fifo) : list Z :=
  zset (fi_head rx) 0 (zset (fi_tail tx) 0 (zset (fi_tail rx) 0 (zset (fi_head tx) 0 l))).

Lemma cleared_words l tx rx w1 w2 w3 w4 :
  zget l (fi_tail tx) = Some w1 -> zget l (fi_head tx) = Some w2 -> zget l (fi_tail rx) = Some w3 ->
  zget l (fi_head rx) = Some w4 ->
  zget (cleared l tx rx) (fi_tail tx) = Some 0 /\ zget (cleared l tx rx) (fi_head tx) = Some 0 /\
  zget (cleared l tx rx) (fi_tail rx) = Some 0 /\ zget (cleared l tx rx) (fi_head rx) = Some 0.
Proof.
  intros H1%zget_Some H2%zget_Some H3%zget_Some H4%zget_Some. unfold cleared.
  split; [|split; [|split]].
  - apply zset_zero, zget_zset_eq. by rewrite !zlen_zset.
  - do 3 apply zset_zero. by apply zget_zset_eq.
  - do 2 apply zset_zero. apply zget_zset_eq. by rewrite !zlen_zset.
  - apply zget_zset_eq. by rewrite !zlen_zset.
Qed.

(** The remote processor starts again: it clears the indices it owns, and is ready. *)
Definition remote_boot (pid : Z) : IPC unit :=
  tx <-- tx_fifo_of pid;
  desc_write (fi_part tx) (fi_tail tx) 0;;;
  rx <-- rx_fifo_of pid;
  desc_write (fi_part rx) (fi_head rx) 0;;;
  set_gstatus pid ACTIVE.

Section put_rings.
Context (s : ipclite_info) (p pid : Z) (c : ipclite_channel) (pt : ipcmem_partition) (tx rx : ipclite_fifo).
Hypothesis (Hpid : 0 <= pid < zlen (ip_channel s)) (Hp : 0 <= p < zlen (ip_partition s)).
Hypothesis (Htx : ch_tx_fifo c = Some tx) (Hrx : ch_rx_fifo c = Some rx).

Lemma put_tx : tx_fifo_of pid (put_link s p pid c pt) = Done tx (put_link s p pid c pt).
Proof. unfold tx_fifo_of. rewrite (bind_run _ _ _ _ _ (the_channel_run _ _ _ (put_channel s p pid c pt Hpid))). by rewrite Htx. Qed.

Lemma put_rx : rx_fifo_of pid (put_link s p pid c pt) = Done rx (put_link s p pid c pt).
Proof. unfold rx_fifo_of. rewrite (bind_run _ _ _ _ _ (the_channel_run _ _ _ (put_channel s p pid c pt Hpid))). by rewrite Hrx. Qed.

End put_rings.

Lemma reset_rings_run s p pid c pt tx rx w1 w2 :
  0 <= pid < zlen (ip_channel s) -> 0 <= p < zlen (ip_partition s) ->
  ch_tx_fifo c = Some tx -> ch_rx_fifo c = Some rx -> fi_part tx = p -> fi_part rx = p ->
  zget (pt_descs pt) (fi_head tx) = Some w1 -> zget (pt_descs pt) (fi_tail rx) = Some w2 ->
  reset_rings pid (put_link s p pid c pt)
  = Done tt (put_link s p pid c (pt <| pt_descs ::= fun l => zset (fi_tail rx) 0 (zset (fi_head tx) 0 l) |>)).
Proof.
  intros Hpid Hp Htx Hrx E1 E2 H1 H2. unfold reset_rings. rewrite (bind_run _ _ _ _ _ (put_tx _ _ _ _ _ _ Hpid Htx)), E1.
  rewrite (bind_run _ _ _ _ _ (put_desc _ _ _ _ _ Hpid Hp _ 0 _ H1)).
  rewrite (bind_run _ _ _ _ _ (put_rx _ _ _ _ _ _ Hpid Hrx)), E2.
  destruct (zset_some _ _ (fi_head tx) 0 _ H2) as (w & Hw).
  set (pt1 := pt <| pt_descs ::= zset (fi_head tx) 0 |>) in *.
  by rewrite (put_desc _ _ _ _ pt1 Hpid Hp (fi_tail rx) 0 w Hw).
Qed.

Lemma remote_boot_run s p pid c pt tx rx w1 w2 :
  0 <= pid < zlen (ip_channel s) -> 0 <= p < zlen (ip_partition s) ->
  ch_tx_fifo c = Some tx -> ch_rx_fifo c = Some rx -> fi_part tx = p -> fi_part rx = p -> ch_gstatus_ptr c = Some p ->
  zget (pt_descs pt) (fi_tail tx) = Some w1 -> zget (pt_descs pt) (fi_head rx) = Some w2 ->
  remote_boot pid (put_link s p pid c pt)
  = Done tt (put_link s p pid c
      (with_status ACTIVE (pt <| pt_descs ::= fun l => zset (fi_head rx) 0 (zset (fi_tail tx) 0 l) |>))).
Proof.
  intros Hpid Hp Htx Hrx E1 E2 Hg H1 H2. unfold remote_boot. rewrite (bind_run _ _ _ _ _ (put_tx _ _ _ _ _ _ Hpid Htx)), E1.
  rewrite (bind_run _ _ _ _ _ (put_desc _ _ _ _ _ Hpid Hp _ 0 _ H1)).
  rewrite (bind_run _ _ _ _ _ (put_rx _ _ _ _ _ _ Hpid Hrx)), E2.
  destruct (zset_some _ _ (fi_tail tx) 0 _ H2) as (w & Hw).
  set (pt1 := pt <| pt_descs ::= zset (fi_tail tx) 0 |>) in *.
  rewrite (bind_run _ _ _ _ _ (put_desc _ _ _ _ pt1 Hpid Hp (fi_head rx) 0 w Hw)).
  by rewrite (put_gstatus _ _ _ _ _ Hpid Hp _ Hg).
Qed.

(** ** Telling the others *)

(** A signal to a processor whose channel is in order. *)
Lemma notify_link s p pid c k sig :
  at_link s p pid c k -> valid_pid pid = true -> 0 <= sig < MAX_CHANNEL_SIGNALS ->
  exists r c' evs, link_step (ipclite_notify_core pid sig) s p pid r c' k evs /\ ch_tx_lock c' = ch_tx_lock c.
Proof.
  intros H Hv Hsig. destruct (link_active _ _ _ _ _ H) as (c' & Hact & Hl & _).
  unfold ipclite_notify_core. rewrite Hv. cbn [negb]. destruct (lk_open k) eqn:Eo.
  - pose proof Hact as (s1 & E1 & H1 & M1). destruct (link_mbox _ _ _ _ _ _ H1 Hsig) as (r & Hm).
    exists (if r <? 0 then r else 0), c', ([Mbox pid sig] ++ []). split; [|done].
    exists (default s (match mbox_send_message pid sig s1 with Done _ s2 => Some s2 | _ => None end)).
    destruct Hm as (s2 & E2 & H2 & M2). rewrite (bind_run _ _ _ _ _ E1). cbn [negb]. rewrite (bind_run _ _ _ _ _ E2), E2.
    split; [by destruct (r <? 0)|]. split; [done|]. rewrite app_nil_r.
    apply (moves_trans _ _ [] [Mbox pid sig] _ _ _ M1 M2).
  - eexists _, c', _. split; [|done]. eapply link_then; [exact Hact|]. intros s1 H1 _. by apply link_ret.
Qed.

Lemma notify_run s q core_id host c pc :
  ipc_ok_on (others core_id) s q -> host <> core_id -> 0 <= host < IPCMEM_NUM_HOSTS -> is_Some (q core_id) ->
  zget (ip_channel s) core_id = Some c -> ch_gstatus_ptr c = Some pc ->
  exists r s', ipclite_notify_core host IPCLITE_SSR_SIGNAL s = Done r s' /\ ipc_ok_on (others core_id) s' q /\
    zget (ip_channel s') core_id = Some c /\ zget (ip_partition s') pc = zget (ip_partition s) pc /\ rest s' = rest s.
Proof.
  intros Hs Hh Hr Hcore Hc Hptr.
  assert (valid_pid host = true) as Hv
    by (unfold valid_pid; destruct (Z.ltb_spec host 0), (Z.leb_spec IPCMEM_NUM_HOSTS host); try lia; done).
  destruct (q host) as [k|] eqn:Hq.
  - destruct (io_live _ _ _ Hs _ _ Hh Hq) as (p & ch & H & Hl).
    destruct (notify_link _ _ _ _ _ IPCLITE_SSR_SIGNAL H Hv) as (r & c' & evs & (s' & E & H' & M) & Hl'); [done|].
    exists r, s'. split; [done|]. split; [|split; [|split]].
    + eapply ipc_ok_ext; [|eapply ipc_ok_set; [exact Hs|exact M|exact H'|congruence|]].
      * intros j. destruct (decide (j = host)) as [->|]; [by rewrite fn_lookup_insert|by rewrite fn_lookup_insert_ne by congruence].
      * intros j cj. by eapply ipc_ok_other.
    + by rewrite (mv_channel _ _ _ _ _ M) by congruence.
    + apply (mv_partition _ _ _ _ _ M). intros ->. by apply (ipc_ok_other _ _ _ _ _ _ _ core_id c Hs Hq H).
    + apply M.
  - destruct (io_idle _ _ _ Hs _ Hh Hr Hq) as (ch & Hch & Hi). exists (- EOPNOTSUPP), s. split; [|done].
    unfold ipclite_notify_core. rewrite Hv. cbn [negb]. unfold channel_active.
    rewrite bind_assoc, (bind_run _ _ _ _ _ (the_channel_run _ _ _ Hch)). by rewrite Hi.
Qed.

Lemma tell_others_run s q core_id c pc pt :
  ipc_ok_on (others core_id) s q -> is_Some (q core_id) ->
  zget (ip_channel s) core_id = Some c -> ch_gstatus_ptr c = Some pc -> zget (ip_partition s) pc = Some pt ->
  exists s', tell_others_of_ssr core_id s = Done tt s' /\ ipc_ok_on (others core_id) s' q /\
    zget (ip_channel s') core_id = Some c /\ zget (ip_partition s') pc = Some pt /\ rest s' = rest s.
Proof.
  intros Hs Hcore Hc Hptr Hpt. unfold tell_others_of_ssr. rewrite (bind_run get _ s s s) by done.
  set (P := fun s' => ipc_ok_on (others core_id) s' q /\ zget (ip_channel s') core_id = Some c /\
    zget (ip_partition s') pc = Some pt /\ rest s' = rest s).
  match goal with |- exists s', ?m s = _ /\ _ => assert (wp m (fun _ => P) s) as Hw end.
  { apply preserves_for_n; [|done]. intros host [] Hhost s1 (Hs1 & Hc1 & Hpt1 & Hr1).
    destruct (_ || _) eqn:Eb; [by apply wp_ret|]. apply orb_false_iff in Eb as [_ Hne%Z.eqb_neq].
    unfold IPCMEM_NUM_HOSTS in Hhost.
    destruct (notify_run s1 q core_id host c pc Hs1 Hne) as (r & s2 & E2 & Hs2 & Hc2 & Hp2 & Hr2);
      [unfold IPCMEM_NUM_HOSTS; lia|done..|].
    apply wp_bind. eapply wp_done; [exact E2|]. apply wp_ret. split; [done|]. split; [done|]. split; congruence. }
  destruct (wp_inv _ _ _ Hw) as ([] & s' & E & H). by exists s'.
Qed.

Lemma ipc_ok_on_quiet D s s' q :
  ip_channel s' = ip_channel s -> ip_partition s' = ip_partition s -> ipc_ok_on D s q -> ipc_ok_on D s' q.
Proof.
  intros Ec Ep [Hn Hl Hi Ha]. split; rewrite ?Ec; try done. intros pid k HD Hq.
  destruct (Hl pid k HD Hq) as (p & c & H & ?). exists p, c. split; [|done].
  eapply at_link_local; [| |exact H]; by rewrite ?Ec, ?Ep.
Qed.

Lemma ipc_ok_join s q core_id p c k :
  ipc_ok_on (others core_id) s q -> q core_id = Some k -> at_link s p core_id c k -> ch_tx_lock c = false -> ipc_ok s q.
Proof.
  intros [Hn Hl Hi Ha] Hq H Hlock. split; try done.
  - intros pid k' _ Hk. destruct (decide (pid = core_id)) as [->|Hne]; [|by apply Hl].
    exists p, c. by assert (k' = k) as -> by congruence.
  - intros pid _ Hr Hk. apply Hi; [|done|done]. intros ->. congruence.
Qed.

(** The state of a channel between the recovery and the start of its processor: closed,
    the ends of the local side at zero. *)
Definition recovering (s s' : ipclite_info) (q : links) (core_id p : Z) (c : ipclite_channel) (pt : ipcmem_partition)
    (tx rx : ipclite_fifo) : Prop :=
  ipc_ok_on (others core_id) s' q /\
  zget (ip_channel s') core_id = Some (c <| ch_status := IN_PROGRESS |>) /\
  zget (ip_partition s') p =
    Some (with_status IN_PROGRESS (pt <| pt_descs ::= fun l => zset (fi_tail rx) 0 (zset (fi_head tx) 0 l) |>)).

(** The channel's own steps: the status counts up from zero. *)
Lemma reopen_run s core_id p c pt :
  zget (ip_channel s) core_id = Some c -> ch_gstatus_ptr c = Some p -> zget (ip_partition s) p = Some pt ->
  ph_status (pt_hdr pt) = INACTIVE -> ip_hwlock_owner s <> IPCMEM_APPS ->
  exists s', reopen_channel core_id s = Done tt s' /\
    ip_channel s' = zset core_id (c <| ch_status := IN_PROGRESS |>) (ip_channel s) /\
    ip_partition s' = zset p (with_status IN_PROGRESS pt) (ip_partition s) /\
    ip_ssr_mutex s' = ip_ssr_mutex s /\ lock_kept s s'.
Proof.
  intros Hc Hptr Hpt Hst Ho. destruct (inc_run s p pt Hpt Ho Hst) as (r & s3 & E3 & C3 & Hp3).
  assert (zget (ip_channel s3) core_id = Some c) as Hc3 by (by rewrite (cm_channel _ _ C3)).
  exists (s3 <| ip_channel ::= zset core_id (c <| ch_status := IN_PROGRESS |>) |>). split; [|split; [|split; [done|split]]].
  - unfold reopen_channel. rewrite (bind_run _ _ _ _ _ (the_channel_run _ _ _ Hc)), Hptr.
    rewrite (bind_run (deref _) _ s p s) by done. rewrite (bind_run _ _ _ _ _ E3).
    assert (gstatus c s3 = Done IN_PROGRESS s3) as Hg.
    { unfold gstatus. rewrite Hptr, (bind_run (deref _) _ s3 p s3) by done. rewrite (bind_run get _ s3 s3 s3) by done.
      rewrite Hp3, zget_zset_eq by (by eapply zget_Some). done. }
    rewrite (bind_run _ _ _ _ _ Hg). by rewrite (update_channel_run _ _ _ _ Hc3).
  - simpl. by rewrite (cm_channel _ _ C3).
  - apply (cm_mutex _ _ C3).
  - apply (cm_lock _ _ C3).
Qed.

(** Closing the partitions of one processor leaves those of the other channels alone. *)
Lemma closed_others s s1 q core_id j p c :
  table_ok s q -> core_id <> IPCMEM_APPS -> others core_id j -> is_Some (q j) -> zget (ip_channel s) j = Some c ->
  ch_gstatus_ptr c = Some p ->
  (forall p e pt, 0 <= p < ip_partitions s -> zget (ip_entry s) p = Some e -> zget (ip_partition s) p = Some pt ->
     zget (ip_partition s1) p = Some (closed_as core_id e pt)) ->
  zget (ip_partition s1) p = zget (ip_partition s) p.
Proof.
  intros [Hent Hmine] Hcore Hj Hqj Hc Hp Hclosed. destruct (Hmine j c p Hqj Hc Hp) as (Hr & e & He & He0 & He1).
  destruct (Hent p Hr) as (e' & pt & He' & Hpt). assert (e' = e) as -> by congruence.
  rewrite (Hclosed p e pt Hr He Hpt), Hpt. unfold closed_as, touches. rewrite He0, He1. unfold others in Hj.
  by destruct (Z.eqb_spec IPCMEM_APPS core_id), (Z.eqb_spec j core_id); try congruence.
Qed.

(** Closing the channel, resetting its rings and opening it again. *)
Lemma recover_channel_run s q core_id p c k pt tx rx :
  ipc_ok s q -> table_ok s q -> ip_hwlock_owner s <> IPCMEM_APPS -> core_id <> IPCMEM_APPS -> q core_id = Some k ->
  at_link s p core_id c k -> zget (ip_partition s) p = Some pt ->
  ch_tx_fifo c = Some tx -> ch_rx_fifo c = Some rx -> fi_part tx = p -> fi_part rx = p ->
  (exists w, zget (pt_descs pt) (fi_head tx) = Some w) -> (exists w, zget (pt_descs pt) (fi_tail rx) = Some w) ->
  exists s1 s2 s', close_partitions_of core_id s = Done tt s1 /\ reset_rings core_id s1 = Done tt s2 /\
    reopen_channel core_id s2 = Done tt s' /\
    recovering s s' q core_id p c pt tx rx /\ ip_ssr_mutex s' = ip_ssr_mutex s /\ lock_kept s s'.
Proof.
  intros Hs Ht Ho Hcore Hq H Hpt Htx Hrx Hp1 Hp2 [w1 Hw1] [w2 Hw2].
  pose proof (al_channel _ _ _ _ _ H) as Hc. pose proof (al_ptr _ _ _ _ _ H) as Hptr.
  destruct (to_mine _ _ Ht core_id c p) as (Hpr & e & He & He0 & He1); [by rewrite Hq|done..|].
  destruct (close_partitions_run s core_id Ho (to_entries _ _ Ht)) as (s1 & E1 & C1 & Hclosed).
  assert (zget (ip_partition s1) p = Some (with_status 0 pt)) as Hpt1.
  { rewrite (Hclosed p e pt Hpr He Hpt). unfold closed_as, touches. by rewrite He1, Z.eqb_refl, orb_true_r. }
  assert (zget (ip_channel s1) core_id = Some c) as Hc1 by (by rewrite (cm_channel _ _ C1)).
  assert (0 <= core_id < zlen (ip_channel s1)) as Hcr by (by eapply zget_Some).
  assert (0 <= p < zlen (ip_partition s1)) as Hpr1 by (by eapply zget_Some).
  set (pt3 := with_status 0 pt <| pt_descs ::= fun l => zset (fi_tail rx) 0 (zset (fi_head tx) 0 l) |>).
  set (s2 := put_link s1 p core_id c pt3).
  assert (reset_rings core_id s1 = Done tt s2) as E2.
  { rewrite (put_same s1 p core_id c _ Hc1 Hpt1).
    by rewrite (reset_rings_run s1 p core_id c (with_status 0 pt) tx rx _ _ Hcr Hpr1 Htx Hrx Hp1 Hp2 Hw1 Hw2). }
  destruct (reopen_run s2 core_id p c pt3) as (s' & E3 & Ech & Ept & Em & El);
    [by apply put_channel|done|by apply put_partition|done|apply (calm_unowned _ _ C1 Ho)|].
  exists s1, s2, s'. do 3 (split; [done|]).
  assert (ip_channel s' = zset core_id (c <| ch_status := IN_PROGRESS |>) (ip_channel s)) as Ech'.
  { rewrite Ech. change (ip_channel s2) with (zset core_id c (ip_channel s1)). by rewrite zset_zset, (cm_channel _ _ C1). }
  assert (ip_partition s' = zset p (with_status IN_PROGRESS pt3) (ip_partition s1)) as Ept'.
  { rewrite Ept. change (ip_partition s2) with (zset p pt3 (ip_partition s1)). by rewrite zset_zset. }
  split; [split; [|split]|split].
  - eapply ipc_ok_on_local; [exact Hs|..]; rewrite ?Ech'.
    + apply zlen_zset.
    + intros j Hj. by rewrite zget_zset_ne by (unfold others in Hj; congruence).
    + intros j pj cj Hj Hqj Hcj Hpj. pose proof (ipc_ok_other _ _ _ _ _ _ _ j cj Hs Hq H Hj Hqj Hcj) as Hne.
      rewrite Ept', zget_zset_ne by congruence. by eapply closed_others.
    + intros j cj cj' Hcj. rewrite zget_zset. case_decide as Hd; [|congruence].
      destruct Hd as [<- _]. intros [= <-]. by assert (cj = c) as -> by congruence.
  - rewrite Ech'. apply zget_zset_eq. by eapply zget_Some.
  - rewrite Ept'. by rewrite zget_zset_eq by done.
  - rewrite Em. apply (cm_mutex _ _ C1).
  - destruct (cm_lock _ _ C1) as [L1 L2], El as [L3 L4]. split; [|by intros ?; apply L4, L2].
    destruct L3 as [->| ->]; auto.
Qed.

(** The remote side starts: both rings are empty and the channel is open. *)
Lemma recovering_boots s s' q core_id p c k pt tx rx :
  recovering s s' q core_id p c pt tx rx -> at_link s p core_id c k -> ch_tx_lock c = false ->
  q core_id = Some k -> ch_tx_fifo c = Some tx -> ch_rx_fifo c = Some rx -> wiring p core_id tx rx ->
  core_id <> IPCMEM_APPS -> zget (ip_partition s) p = Some pt ->
  (exists t l, ring_at pt tx t l) -> (exists t l, ring_at pt rx t l) ->
  exists s'', remote_boot core_id s' = Done tt s'' /\ ipc_ok s'' (<[core_id := Some (mk_link [] [] true)]> q).
Proof.
  intros (Hoth & Hc & Hpt') H Hlock Hq Htx Hrx Hw Hcore Hpt (t1 & l1 & R1) (t2 & l2 & R2).
  pose proof Hw as (Hp1 & Hp2 & Hn1 & Hn2 & Hap). set (c' := c <| ch_status := IN_PROGRESS |>) in *.
  set (pt' := with_status IN_PROGRESS _) in *.
  assert (0 <= core_id < zlen (ip_channel s')) as Hcr by (by eapply zget_Some).
  assert (0 <= p < zlen (ip_partition s')) as Hpr by (by eapply zget_Some).
  set (pt'' := with_status ACTIVE (pt' <| pt_descs ::= fun l => zset (fi_head rx) 0 (zset (fi_tail tx) 0 l) |>)).
  assert (pt_descs pt'' = cleared (pt_descs pt) tx rx) as Hd by done.
  destruct (cleared_words (pt_descs pt) tx rx _ _ _ _ (ra_tail _ _ _ _ R1) (ra_head _ _ _ _ R1) (ra_tail _ _ _ _ R2)
    (ra_head _ _ _ _ R2)) as (W1 & W2 & W3 & W4).
  exists (put_link s' p core_id c' pt''). split.
  { destruct (zset_some _ (fi_tail tx) (fi_head tx) 0 _ (ra_tail _ _ _ _ R1)) as (w & Hw1).
    destruct (zset_some _ (fi_tail tx) (fi_tail rx) 0 _ Hw1) as (w' & Hw2).
    destruct (zset_some _ (fi_head rx) (fi_head tx) 0 _ (ra_head _ _ _ _ R2)) as (v & Hv1).
    destruct (zset_some _ (fi_head rx) (fi_tail rx) 0 _ Hv1) as (v' & Hv2).
    rewrite (put_same s' p core_id c' pt' Hc Hpt') at 1.
    exact (remote_boot_run s' p core_id c' pt' tx rx w' v' Hcr Hpr Htx Hrx Hp1 Hp2 (al_ptr _ _ _ _ _ H) Hw2 Hv2). }
  assert (at_link (put_link s' p core_id c' pt'') p core_id c' (mk_link [] [] true)) as Hlink.
  { destruct H as [_ Hr Hptr Hi _ _ _ _]. split; try done.
    - by apply put_channel.
    - exists tx, rx. do 3 (split; [done|]).
      split; exists pt'', 0; (split; [rewrite ?Hp1, ?Hp2; by apply put_partition|]); apply empty_ring;
        rewrite ?Hd; try done; try apply R1; try apply R2.
    - by right.
    - exists pt''. split; [by apply put_partition|done]. }
  eapply (ipc_ok_join _ _ core_id); [|by rewrite fn_lookup_insert|exact Hlink|done].
  eapply ipc_ok_set; [exact Hoth|apply put_moves|exact Hlink|done|].
  intros j cj Hj Hqj Hcj. apply (io_apart _ _ _ Hoth core_id j c' cj p); [congruence|by rewrite Hq|done|done|done|apply (al_ptr _ _ _ _ _ H)].
Qed.

(** While it has not started, nothing can be sent to it. *)
Lemma recovering_closed s s' q core_id p c k pt tx rx d :
  recovering s s' q core_id p c pt tx rx -> at_link s p core_id c k -> valid_pid core_id = true ->
  ipclite_msg_send_v0 core_id d s' = Done (- EOPNOTSUPP) s'.
Proof.
  intros (_ & Hc & Hpt) H Hv. unfold ipclite_msg_send_v0. rewrite Hv. cbn [negb]. unfold ipclite_tx, channel_active.
  rewrite bind_assoc, (bind_run _ _ _ _ _ (the_channel_run _ _ _ Hc)). cbn [ch_status].
  change (ch_status (c <| ch_status := IN_PROGRESS |>)) with IN_PROGRESS.
  change (IN_PROGRESS =? ACTIVE) with false. change (IN_PROGRESS =? IN_PROGRESS) with true. cbv iota.
  rewrite bind_assoc. unfold gstatus.
  change (ch_gstatus_ptr (c <| ch_status := IN_PROGRESS |>)) with (ch_gstatus_ptr c). rewrite (al_ptr _ _ _ _ _ H).
  rewrite bind_assoc, (bind_run (deref _) _ s' p s') by done. rewrite bind_assoc, (bind_run get _ s' s' s') by done.
  rewrite Hpt. done.
Qed.

(** C19: Recovery from a processor that stopped: it returns, the lock it held is free, its
    channel is closed - every send to it is refused - and when the processor starts again
    and clears the indices it owns, the channel is open with both queues empty, while all
    other channels hold what they held.  Nothing of a message half sent or half read is
    left. *)
Theorem recovery_restarts_channel s q core_id :
  ipc_ok s q -> table_ok s q -> ip_ssr_mutex s = false -> ip_hwlock_owner s <> IPCMEM_APPS ->
  core_id <> IPCMEM_APPS -> is_Some (q core_id) ->
  exists s1 s2,
    ipclite_recover_v0 core_id s = Done tt s1 /\ ip_ssr_mutex s1 = false /\
    (ip_hwlock_owner s = core_id -> ip_hwlock s1 = false /\ ip_hwlock_owner s1 = IPCMEM_INVALID_HOST) /\
    (forall d, ipclite_msg_send_v0 core_id d s1 = Done (- EOPNOTSUPP) s1) /\
    remote_boot core_id s1 = Done tt s2 /\ ipc_ok s2 (<[core_id := Some (mk_link [] [] true)]> q).
Proof.
  intros Hs Ht Hmx Ho Hcore [k Hq]. destruct (io_live _ _ _ Hs _ _ I Hq) as (p & c & H & Hlock).
  pose proof (al_rings _ _ _ _ _ H) as (tx & rx & Htx & Hrx & Hw & (pt & t1 & Hpt & R1) & (pt' & t2 & Hpt' & R2)).
  pose proof Hw as (Hp1 & Hp2 & _). rewrite Hp1 in Hpt. rewrite Hp2 in Hpt'. assert (pt' = pt) as -> by congruence.
  destruct (reset_hw_mutex_run s core_id) as (s1 & E1 & C1 & Ep1 & Hfree).
  set (s2 := s1 <| ip_ssr_mutex := true |>).
  assert (ip_channel s2 = ip_channel s) as Ec2 by apply (cm_channel _ _ C1).
  assert (ipc_ok s2 q) as Hs2 by (by apply (ipc_ok_on_quiet _ s)).
  assert (table_ok s2 q) as Ht2.
  { destruct Ht as [T1 T2]. split; simpl; rewrite (cm_entry _ _ C1), (cm_count _ _ C1); [by rewrite Ep1|by rewrite (cm_channel _ _ C1)]. }
  assert (at_link s2 p core_id c k) as H2 by (eapply at_link_local; [by rewrite Ec2|simpl; by rewrite Ep1|exact H]).
  destruct (recover_channel_run s2 q core_id p c k pt tx rx) as (s3 & s4 & s5 & E3 & E4 & E5 & Hrec & Em & El); try done.
  { apply (calm_unowned _ _ C1 Ho). }
  { simpl. by rewrite Ep1. }
  { eexists. apply R1. }
  { eexists. apply R2. }
  pose proof Hrec as (Hoth & Hc5 & Hp5).
  destruct (tell_others_run s5 q core_id _ p _ Hoth ltac:(by rewrite Hq) Hc5 (al_ptr _ _ _ _ _ H) Hp5)
    as (s6 & E6 & Hoth6 & Hc6 & Hp6 & Er6). injection Er6 as _ _ _ Hl6 How6 _.
  set (s7 := s6 <| ip_ssr_mutex := false |>).
  assert (recovering s s7 q core_id p c pt tx rx) as Hrec7 by (split; [by apply (ipc_ok_on_quiet _ s6)|done]).
  destruct (recovering_boots s s7 q core_id p c k pt tx rx) as (s8 & E8 & Hs8); try done; [by exists t1, (lk_out k)|by exists t2, (lk_in k)|].
  exists s7, s8. split; [|split; [done|split; [|split; [|done]]]].
  - unfold ipclite_recover_v0. rewrite (bind_run _ _ _ _ _ E1).
    assert (ssr_lock s1 = Done tt s2) as El1
      by (unfold ssr_lock; rewrite (bind_run get _ s1 s1 s1) by done; by rewrite (cm_mutex _ _ C1), Hmx).
    rewrite (bind_run _ _ _ _ _ El1), (bind_run _ _ _ _ _ E3), (bind_run _ _ _ _ _ E4), (bind_run _ _ _ _ _ E5).
    by rewrite (bind_run _ _ _ _ _ E6).
  - intros Hown. destruct (Hfree Hown) as [F1 F2]. destruct El as [L1 L2]. simpl. rewrite Hl6, How6.
    split; [by apply L2|]. by destruct L1 as [->| ->].
  - intros d. eapply recovering_closed; [exact Hrec7|exact H|]. exact (link_range _ _ _ _ _ _ Hs H).
Qed.

Lemma recovery_restarts_channel_witness :
  exists s1 s2,
    ipclite_recover_v0 4 booted = Done tt s1 /\ ip_ssr_mutex s1 = false /\
    (ip_hwlock_owner booted = 4 -> ip_hwlock s1 = false /\ ip_hwlock_owner s1 = IPCMEM_INVALID_HOST) /\
    (forall d, ipclite_msg_send_v0 4 d s1 = Done (- EOPNOTSUPP) s1) /\
    remote_boot 4 s1 = Done tt s2 /\ ipc_ok s2 (<[4 := Some (mk_link [] [] true)]> booted_links).
Proof.
  destruct booted_ok as (Hok & Ht & Hm & _).
  apply (recovery_restarts_channel booted booted_links 4 Hok Ht Hm).
  - vm_compute. discriminate.
  - discriminate.
  - vm_compute. eexists. reflexivity.
Defined.
