(* ===== verification/IpcliteFaults.v ===== *)
(** * ipclite: what breaks the interrupt handler

    Two behaviours of [msm/synx/ipclite.c], proved over the definitions of [Ipclite]: a
    ring whose head is at its end keeps the handler in its loop for ever; the signal of a
    test message, stored in the wrong place, makes it work on a wild pointer. *)
From stdpp Require Import functions.
From S2P Require Import Prelude SynxGlobal Ipclite IpcliteRing IpcliteInit.
From Stdlib Require Import Lia.

(** ** A head at the end of the ring *)

(** The other side wrote the length of the ring as its head. *)
Record stuck (s : ipclite_info) (pid : Z) (c : ipclite_channel) (rx : ipclite_fifo) (pt : ipcmem_partition) (t : Z)
  : Prop := mk_stuck {
  sk_channel : zget (ip_channel s) pid = Some c;
  sk_rx : ch_rx_fifo c = Some rx;
  sk_part : zget (ip_partition s) (fi_part rx) = Some pt;
  sk_range : 0 <= fi_fifo rx /\ fi_fifo rx + fi_length rx <= zlen (pt_mem pt);
  sk_length : fi_length rx mod 8 = 0 /\ 16 <= fi_length rx < 2 ^ 31;
  sk_ends : fi_tail rx <> fi_head rx;
  sk_tail : zget (pt_descs pt) (fi_tail rx) = Some t;
  sk_start : t mod 8 = 0 /\ 0 <= t < fi_length rx;
  sk_head : zget (pt_descs pt) (fi_head rx) = Some (fi_length rx) }.

Lemma stuck_avail s pid c rx pt t :
  stuck s pid c rx pt t -> ipclite_rx_avail pid s = Done (fi_length rx - t) s /\ 8 <= fi_length rx - t.
Proof.
  intros [Hc Hrx Hp _ [Hn ?] _ Ht [Ha ?] Hh].
  destruct (slot_room t (fi_length rx)) as (_ & Hroom & _); [done|done|lia|]. rewrite Z.mod_small in Hroom by lia.
  split; [|lia]. unfold ipclite_rx_avail, rx_fifo_of. rewrite bind_assoc, (bind_run _ _ _ _ _ (the_channel_run _ _ _ Hc)), Hrx.
  unfold ipcmem_rx_avail. cbn [deref]. rewrite (bind_run (ret rx) _ s rx s) by done.
  rewrite (bind_run _ _ _ _ _ (desc_read_run _ _ _ _ _ Hp Hh)), (bind_run _ _ _ _ _ (desc_read_run _ _ _ _ _ Hp Ht)).
  destruct (Z.ltb_spec (fi_length rx) t); [lia|]. by destruct (Z.ltb_spec (fi_length rx) (fi_length rx - t)); [lia|].
Qed.

Lemma stuck_fifo s pid c rx pt t : stuck s pid c rx pt t -> rx_fifo_of pid s = Done rx s.
Proof.
  intros [Hc Hrx _ _ _ _ _ _ _]. unfold rx_fifo_of. by rewrite (bind_run _ _ _ _ _ (the_channel_run _ _ _ Hc)), Hrx.
Qed.

Lemma stuck_peak s pid c rx pt t : stuck s pid c rx pt t -> exists o, ipclite_rx_peak pid 8 s = Done o s.
Proof.
  intros H. pose proof H as [_ _ Hp [? ?] [Hn ?] _ Ht [Ha ?] _].
  destruct (slot_room t (fi_length rx)) as (_ & Hroom & _); [done|done|lia|]. rewrite Z.mod_small in Hroom by lia.
  eexists. unfold ipclite_rx_peak. rewrite (bind_run _ _ _ _ _ (stuck_fifo _ _ _ _ _ _ H)). unfold ipcmem_rx_peak.
  rewrite (bind_run _ _ _ _ _ (desc_read_run _ _ _ _ _ Hp Ht)).
  destruct (Z.ltb_spec (fi_length rx) t); [lia|]. destruct (Z.leb_spec (fi_length rx) t); [lia|].
  rewrite Z.min_l by lia. change (8 =? 0) with false. change (8 =? 8) with true.
  unfold memcpy_fromio, bind, get, ret, deref. simpl. rewrite Hp. simpl. unfold bytes_at.
  destruct (Z.leb_spec 0 (fi_fifo rx + t)); [|lia].
  by destruct (Z.leb_spec (fi_fifo rx + t + 8) (zlen (pt_mem pt))); [|lia].
Qed.

Lemma stuck_advance s pid c rx pt t :
  stuck s pid c rx pt t ->
  exists s' pt', ipclite_rx_advance pid 8 s = Done tt s' /\ stuck s' pid c rx pt' ((t + 8) mod fi_length rx).
Proof.
  intros H. pose proof H as [Hc Hrx Hp [? ?] [Hn ?] He Ht [Ha ?] Hh]. set (v := (t + 8) mod fi_length rx).
  set (pt' := pt <| pt_descs ::= zset (fi_tail rx) v |>).
  exists (s <| ip_partition ::= zset (fi_part rx) pt' |>), pt'. split.
  - unfold ipclite_rx_advance. rewrite (bind_run _ _ _ _ _ (stuck_fifo _ _ _ _ _ _ H)). unfold ipcmem_rx_advance.
    rewrite (bind_run _ _ _ _ _ (desc_read_run _ _ _ _ _ Hp Ht)). cbv zeta.
    rewrite (bind_run _ _ s v s); [by eapply desc_write_run|].
    rewrite u32_id by (unfold in_u32; lia). unfold v.
    destruct (Z.leb_spec (fi_length rx) (t + 8)); [|by rewrite Z.mod_small by lia].
    by destruct (Z.eqb_spec (fi_length rx) 0); [lia|].
  - destruct (slot_room (t + 8) (fi_length rx)) as (? & ? & ?);
      [change (t + 8) with (t + 8 * 1); by apply aligned_add|done|lia|].
    split; simpl; try done.
    + apply zget_zset_eq. by eapply zget_Some.
    + apply zget_zset_eq. by eapply zget_Some.
    + unfold v. split; [done|lia].
    + by rewrite zget_zset_ne.
Qed.

Lemma stuck_events s pid c rx pt t s' :
  stuck s pid c rx pt t -> ip_channel s' = ip_channel s -> ip_partition s' = ip_partition s -> stuck s' pid c rx pt t.
Proof. intros [] E1 E2. by split; rewrite ?E1, ?E2. Qed.

Lemma call_client_run cl pid d s :
  exists s', call_client cl pid d s = Done tt s' /\ ip_channel s' = ip_channel s /\ ip_partition s' = ip_partition s.
Proof. unfold call_client. destruct (_ =? 1); [|by exists s]. destruct (cl_callback cl); [by eexists|by exists s]. Qed.

(** One turn of the loop leaves the ring as full as it was. *)
Lemma stuck_turn s pid c rx pt t :
  stuck s pid c rx pt t ->
  exists s' pt', ipclite_rx_data pid (fi_length rx - t) s = Done 0 s' /\
                 stuck s' pid c rx pt' ((t + 8) mod fi_length rx).
Proof.
  intros H. destruct (stuck_avail _ _ _ _ _ _ H) as [_ Ha]. destruct (stuck_peak _ _ _ _ _ _ H) as [o Eo].
  unfold ipclite_rx_data. destruct (Z.ltb_spec (fi_length rx - t) MSG_BYTES); [unfold MSG_BYTES in *; lia|].
  rewrite (bind_run _ _ _ _ _ Eo), (bind_run _ _ _ _ _ (the_channel_run _ _ _ (sk_channel _ _ _ _ _ _ H))).
  rewrite (bind_run get _ s s s) by done.
  destruct (call_client_run (ip_synx_client s) (ch_remote_pid c) (peeked o) s) as (s1 & E1 & Ec & Ep).
  rewrite (bind_run _ _ _ _ _ E1). pose proof (stuck_events _ _ _ _ _ _ s1 H Ec Ep) as H1.
  destruct (stuck_advance _ _ _ _ _ _ H1) as (s2 & pt' & E2 & H2). replace (ALIGN8 MSG_BYTES) with 8 by done.
  exists s2, pt'. by rewrite (bind_run _ _ _ _ _ E2).
Qed.

Lemma stuck_drains_forever fuel : forall s pid c rx pt t,
  stuck s pid c rx pt t -> drain_rx fuel ipclite_rx_data pid s = Faulted OutOfFuel.
Proof.
  induction fuel as [|fuel IH]; intros s pid c rx pt t H; [done|]. cbn [drain_rx].
  destruct (stuck_avail _ _ _ _ _ _ H) as [Ea Hle]. destruct (stuck_turn _ _ _ _ _ _ H) as (s' & pt' & Et & H').
  rewrite (bind_run _ _ _ _ _ Ea). destruct (Z.ltb_spec (fi_length rx - t) MSG_BYTES); [unfold MSG_BYTES in *; lia|].
  rewrite (bind_run _ _ _ _ _ Et). by eapply IH.
Qed.

(** The other side writes its head index. *)
Definition remote_set_head (pid v : Z) : IPC unit :=
  f <-- rx_fifo_of pid; desc_write (fi_part f) (fi_head f) v.

(** C40: The handler trusts the head index that the other processor writes: from any good
    state, once that index is the length of the ring (8192, which no index inside the
    ring is), the message interrupt of the channel never returns - however long the loop
    runs, it finds more to read. *)
Theorem message_interrupt_hangs s q pid k fuel :
  ipc_ok s q -> q pid = Some k ->
  exists s', remote_set_head pid DEFAULT_FIFO1_SIZE s = Done tt s' /\
             ipclite_intr fuel pid IPCLITE_MSG_SIGNAL s' = Faulted OutOfFuel.
Proof.
  intros Hs Hq. destruct (io_live _ _ _ Hs _ _ I Hq) as (p & c & H & _).
  destruct (rx_ring _ _ _ _ _ H) as (rx & pt & t & Hrx & E & Hp & Hr & _ & Hl).
  pose proof (link_irq _ _ _ _ _ IPCLITE_MSG_SIGNAL H) as Hirq. destruct Hr as [? Hn ? Ht ? Hh _ _].
  set (pt' := pt <| pt_descs ::= zset (fi_head rx) DEFAULT_FIFO1_SIZE |>).
  exists (s <| ip_partition ::= zset (fi_part rx) pt' |>). split.
  { unfold remote_set_head. rewrite (bind_run _ _ _ _ _ E). by eapply desc_write_run. }
  assert (stuck (s <| ip_partition ::= zset (fi_part rx) pt' |>) pid c rx pt' t) as Hstuck.
  { split; simpl; try done.
    - by destruct H.
    - apply zget_zset_eq. by eapply zget_Some.
    - by rewrite zget_zset_ne.
    - rewrite zget_zset_eq by (by eapply zget_Some). by rewrite Hl. }
  unfold ipclite_intr. rewrite (bind_run _ _ _ _ _ (the_channel_run _ _ _ (sk_channel _ _ _ _ _ _ Hstuck))).
  rewrite Hirq by done. rewrite (bind_run (deref _) _ _ (mk_irq true 0) _) by done. cbn [ir_signal_id].
  change (0 =? IPCLITE_MSG_SIGNAL) with true. cbn [negb].
  apply bind_faulted. by eapply stuck_drains_forever.
Qed.

(** ** The signal of a test message *)

Definition with_first_signal (c : ipclite_channel) (sig : Z) : ipclite_channel :=
  c <| ch_irq_info ::= zset 0 (mk_irq true sig) |>.

Lemma set_first_run s pid c sig :
  zget (ip_channel s) pid = Some c -> irqs_ok (ch_irq_info c) ->
  set_first_signal pid sig s = Done tt (s <| ip_channel ::= zset pid (with_first_signal c sig) |>).
Proof.
  intros Hc Hi. unfold set_first_signal. rewrite (bind_run _ _ _ _ _ (the_channel_run _ _ _ Hc)).
  rewrite Hi. rewrite (bind_run (deref _) _ s (mk_irq true 0) s) by done. rewrite (update_channel_run _ _ _ _ Hc).
  done.
Qed.

(** The rest of the call, after the signal was stored. *)
Lemma test_tx_tail s pid c tx l d :
  zget (ip_channel s) pid = Some c -> ch_irq_info c = zset 0 (mk_irq true IPCLITE_TEST_SIGNAL) (map (mk_irq true) [0; 1; 2; 3; 4; 5]) ->
  ch_tx_fifo c = Some tx -> ring_is s tx l -> in_u64 d -> zlen l < capacity tx ->
  exists s' c',
    (ipclite_tx_write pid (le_bytes 8 d) MSG_BYTES;;;
     mbox_send_message pid IPCLITE_TEST_SIGNAL;;;
     mbox_client_txdone pid IPCLITE_TEST_SIGNAL;;;
     tx_unlock pid;;;
     ret 0) s = Done 0 s' /\ zget (ip_channel s') pid = Some c' /\ ch_irq_info c' = ch_irq_info c.
Proof.
  intros Hc Hi Htx (pt & t & Hp & Hr) Hd Hn.
  destruct (tx_write_ring pt tx t l d s Hr Hp Hd Hn) as (s1 & E1 & Ho & _).
  pose proof (only_ring_channel _ _ _ Ho) as Ec1.
  assert (ipclite_tx_write pid (le_bytes 8 d) MSG_BYTES s = Done tt s1) as Ew.
  { unfold ipclite_tx_write, tx_fifo_of. rewrite bind_assoc, (bind_run _ _ _ _ _ (the_channel_run _ _ _ Hc)), Htx.
    by rewrite (bind_run (deref _) _ s tx s) by done. }
  assert (zget (ch_irq_info c) IPCLITE_TEST_SIGNAL = Some (mk_irq true IPCLITE_TEST_SIGNAL)) as Hirq by (rewrite Hi; done).
  rewrite <- Ec1 in Hc.
  destruct (mbox_quiet s1 pid c _ Hc Hirq) as (r & E2). set (s2 := mbox_state s1 pid IPCLITE_TEST_SIGNAL) in *.
  rewrite (bind_run _ _ _ _ _ Ew), (bind_run _ _ _ _ _ E2). change (ip_channel s1) with (ip_channel s2) in Hc.
  assert (mbox_client_txdone pid IPCLITE_TEST_SIGNAL s2 = Done tt s2) as E3.
  { unfold mbox_client_txdone. by rewrite (bind_run _ _ _ _ _ (the_channel_run _ _ _ Hc)), Hirq. }
  rewrite (bind_run _ _ _ _ _ E3). unfold tx_unlock. rewrite (bind_run _ _ _ _ _ (update_channel_run _ _ _ _ Hc)).
  do 2 eexists. split; [done|]. split; [simpl; apply zget_zset_eq; by eapply zget_Some|done].
Qed.

(** C39: [ipclite_tx] stores the signal in the first of the channel's interrupt
    structures, whatever signal it is, and the handler finds the channel by that number:
    after one test message the next message interrupt of the channel computes a wild
    pointer. *)
Theorem test_send_breaks_interrupts s q pid k d fuel :
  ipc_ok s q -> q pid = Some k -> lk_open k = true -> zlen (lk_out k) < CAPACITY -> in_u64 d ->
  exists s', ipclite_test_msg_send_v0 pid d s = Done 0 s' /\
             ipclite_intr fuel pid IPCLITE_MSG_SIGNAL s' = Faulted BadAccess.
Proof.
  intros Hs Hq Hopen Hroom Hd. destruct (io_live _ _ _ Hs _ _ I Hq) as (p & c & H & Hlock).
  destruct (link_active _ _ _ _ _ H) as (c1 & (s1 & E1 & H1 & _) & Hl1 & _). rewrite Hlock in Hl1.
  set (c2 := c1 <| ch_tx_lock := true |>). set (s2 := s1 <| ip_channel ::= zset pid c2 |>).
  assert (at_link s2 p pid c2 k) as H2 by (eapply at_link_channel; try done; by left).
  assert (tx_lock pid s1 = Done tt s2) as E2.
  { unfold tx_lock. rewrite (bind_run _ _ _ _ _ (the_channel_run _ _ _ (al_channel _ _ _ _ _ H1))), Hl1.
    apply update_channel_run, H1. }
  set (c3 := with_first_signal c2 IPCLITE_TEST_SIGNAL). set (s3 := s2 <| ip_channel ::= zset pid c3 |>).
  assert (set_first_signal pid IPCLITE_TEST_SIGNAL s2 = Done tt s3) as E3 by (by apply set_first_run; destruct H2).
  destruct (tx_ring _ _ _ _ _ H2) as (tx & pt & t & Htx & _ & Hp & Hr & Hcap & _).
  destruct (test_tx_tail s3 pid c3 tx (lk_out k) d) as (s' & c' & E & Hc' & Hi').
  { apply zget_zset_eq. eapply zget_Some, H2. }
  { simpl. by rewrite (al_irqs _ _ _ _ _ H1). }
  { done. }
  { by exists pt, t. }
  { done. }
  { by rewrite Hcap. }
  exists s'. split.
  - unfold ipclite_test_msg_send_v0. rewrite (link_range _ _ _ _ _ _ Hs H). cbn [negb]. unfold ipclite_tx.
    rewrite (bind_run _ _ _ _ _ E1), Hopen. cbn [negb]. rewrite (bind_run _ _ _ _ _ E2).
    rewrite (bind_run _ _ _ _ _ (link_tx_avail _ _ _ _ _ H2)).
    destruct (Z.ltb_spec (8 * (CAPACITY - zlen (lk_out k))) MSG_BYTES); [unfold MSG_BYTES in *; lia|].
    by rewrite (bind_run _ _ _ _ _ E3).
  - unfold ipclite_intr. rewrite (bind_run _ _ _ _ _ (the_channel_run _ _ _ Hc')), Hi'. simpl.
    by rewrite (al_irqs _ _ _ _ _ H1).
Qed.

Lemma message_interrupt_hangs_witness :
  exists s', remote_set_head 4 DEFAULT_FIFO1_SIZE booted = Done tt s' /\
             ipclite_intr 5000 4 IPCLITE_MSG_SIGNAL s' = Faulted OutOfFuel.
Proof.
  destruct booted_ok as (Hok & _).
  apply (message_interrupt_hangs booted booted_links 4 (init_link 4) 5000 Hok).
  vm_compute. reflexivity.
Defined.

Lemma test_send_breaks_interrupts_witness :
  exists s', ipclite_test_msg_send_v0 0 77 booted = Done 0 s' /\
             ipclite_intr 5000 0 IPCLITE_MSG_SIGNAL s' = Faulted BadAccess.
Proof.
  destruct booted_ok as (Hok & _).
  apply (test_send_breaks_interrupts booted booted_links 0 (init_link 0) 77 5000 Hok); vm_compute; repeat split; discriminate.
Defined.
